(* ===== verification/_CoqProject ===== *)
-Q . S2P
Prelude.v
Rmap.v
Pframe.v
Pdir.v
Kmem.v
Kmalloc.v
Vmm.v
Hndl.v
Dlist.v
Timer.v
Bitmap.v
Cache.v
Group.v
Inode.v
Sched.v
Object.v
Services.v
Buf.v
Ctype.v
Strtol.v
Qsort.v
Calendar.v
Inet.v
Pipe.v
Iomux.v
Hash.v
Fnmatch.v
Dir.v
Path.v
Queue.v
