(* ===== verification/Prelude.v ===== *)
(** * A model of the krlean kernel

    krlean (src/src) is a 32-bit operating system in C: a kernel with threads, objects to
    wait for, virtual memory, drivers and file systems, and a C library that the kernel and
    user programs share.  This library models parts of the kernel in Gallina, operation by
    operation, and proves what they promise.

    ** The parts and how they interact

    - [Rmap] (lib/rmap.c): resource maps, the sorted arrays of free ranges behind the
      address spaces of the kernel.
    - [Pframe] (sys/krnl/pframe.c): the page frame database, a free list in an array.
    - [Pdir] (sys/krnl/pdir.c): physical memory, the walk of the processor through page
      directory and page tables, and the functions that change the tables through the
      mapping of the tables into themselves; the access checks of system calls.
    - [Kmem] (sys/krnl/kmem.c): pages for the kernel, over [Rmap], [Pframe] and [Pdir], and
      the ownership invariant [Kmem.mem_ok] of frames, tables and free ranges.
    - [Kmalloc] (sys/krnl/kmalloc.c): the kernel heap, buckets of chunks whose free lists
      lie in the heap pages, over [Kmem].
    - [Vmm] (sys/krnl/vmm.c): user address space and mapped files, over [Kmem]; what it
      asks of files and handles is the interface [Vmm.FileServices].
    - [Hndl] (sys/krnl/hndl.c): the handle table, whose free entries are linked through
      their pointers' spare bits, with the handle and lock counts of objects.
    - [Dlist]: the linked lists of the code, as stores to [next] and [prev] fields: rings
      with a header, lists with a head and a tail, and the segment predicates.
    - [Timer] (sys/krnl/timer.c): the timer wheel of five vectors of rings.
    - [Bitmap] (lib/bitops.c): bit searches and bit maps, instruction by instruction.
    - [Cache]: the interface ([BufferCache]) through which the file system uses buffers.
    - [Group] and [Inode] (sys/fs/dfs/group.c, inode.c): the allocation of blocks and inodes
      by group and the block directory of an inode, over [Bitmap] and [Cache].
    - [Sched] (sys/krnl/sched.c): ready queues, dispatching, priorities, suspension and the
      queue of deferred procedure calls, over [Dlist] and [Bitmap].
    - [Object] (sys/krnl/object.c, part of iomux.c): wait blocks, waits for one, any and all
      of several objects, events, semaphores, mutexes, timers, over [Sched], [Timer].
    - [Services]: the interface ([KernelServices]) through which the buffer cache wakes
      threads and signals, with the instance that [Object] provides.
    - [Buf] (sys/krnl/buf.c): the buffer cache, over [Services].
    - [Ctype] and [Strtol] (lib/ctype.c, strtol.c, xtoa.c): character classes, and numbers
      from and to strings.
    - [Qsort] (lib/qsort.c, bsearch.c): sorting and searching with a comparison function.
    - [Calendar] (lib/time.c): dates and seconds.
    - [Inet] (sys/net/inet.c): the checksums of the internet protocols.
    - [Pipe] (sys/fs/pipefs/pipefs.c): pipes, over an interface ([PipeServices]) to threads,
      user memory and I/O events.
    - [Iomux] (sys/krnl/iomux.c): multiplexers and I/O events, over [Object]; with [Services]
      and [Object] they give the instance of [PipeServices] for the kernel.
    - [Hash] (lib/hash.c): hash tables.
    - [Fnmatch] (lib/fnmatch.c): patterns for file names, with a reference relation.
    - [Dir] and [Path] (sys/fs/dfs/dir.c, part of inode.c): the records of directories as
      bytes of their blocks, and the walk along a path, over [Inode].
    - [Queue] (sys/krnl/queue.c): bounded message queues between threads.

    ** Conventions

    A C integer is the [Z] it denotes and the wrap-around of an operation is written where
    it happens ([u32], [s32], [u16], ...).  A structure in memory is a record; a pointer to
    it is an index or an inductive address; pointer fields that link structures are functions
    from address to address, so that aliasing is explicit.  An operation returns an
    [outcome]: a value with the new state, [Panic] for the kernel's panic, [Fault] for an
    access through NULL or outside an array, [Diverge] when a loop has used up its fuel.
    The theorems say that the operations return ([exists ..., op = Ret ...]) with the fuel
    that the statement names: the length of the list that is walked (a wait list, a ready
    queue, a hash chain), 17 for the wait blocks of a thread, the number of timers for the
    wheel, the number of groups for the search of a block, the length of a string, a
    pattern or a path, the size of a directory block (a record is longer than a byte), 30
    for the size of a hash table, the number of bytes of a page for the chunks of a bucket (none is shorter than one).  Only where other threads decide
    about termination ([Buf.get_new_buffer], which yields until there is a buffer) a
    theorem is about the returns.

    Where the code leaves the processor the model ends an operation and has another for
    the rest ([Object.finish_wait]), or takes what other threads do as an argument with a
    contract ([Sched.dpc_contract], [Buf.io_contract], [Buf.wait_contract]); interrupts
    are off in all of the modelled code except where it calls a DPC.

    ** What is shown

    - Ownership: no range, page, chunk, block or inode is handed out twice before it is
      given back ([Rmap.rmap_ownership], [Pframe.page_ownership], [Kmalloc.heap_safety],
      [Group.new_block_correct]), and searches find what is free ([Bitmap]).
    - Isolation: whatever is allocated, protected and freed, two pages never share a frame
      and no page reaches a free frame or a page table ([Vmm.memory_isolation]).
    - Functional behaviour on every branch, errors included, of the handle table, the
      resource map, the page frames, virtual memory ([Vmm.vmalloc_correct],
      [Vmm.vmfree_correct]), timers, block directories, scheduling, waiting and buffers.
    - Invariants of whole components over all sequences of operations:
      [Sched.sched_invariant], [Buf.pool_invariant]; the types of the frames after start-up
      ([Pframe.init_pfdb_correct]).
    - Refinement: the wheel fires every timer at its tick, as a list of due times does
      ([Timer.run_timer_list_correct]); the page table functions are a map from pages to
      entries ([Pdir.map_page_correct]); a pipe is a stream of bytes ([Pipe.pipe_stream]) and
      a queue a bounded FIFO ([Queue.queue_fifo]), however their threads take turns; a hash
      table is a multimap ([Hash.hash_correct]) and a directory a list of names with inodes
      ([Dir.dir_entries_correct]), along which paths lead ([Path.namei_correct],
      [Path.diri_correct]).
    - Equivalence with a reference: the checksums with RFC 1071
      ([Inet.inet_chksum_correct]), patterns with the relation [Fnmatch.matches]
      ([Fnmatch.fnmatch_correct]), numbers with the value of their digits
      ([Strtol.strtol_correct]), seconds with the Gregorian calendar
      ([Calendar.mktime_correct]); sorting with permutation and order
      ([Qsort.qsort_correct]).
    - Round trips: free after alloc ([Kmem.alloc_pages_correct], [Kmalloc.kmalloc_correct]),
      levels of a block number, a wait for any object and the event that ends it
      ([Object.wait_any_set_event]), numbers written and read ([Strtol.xtoa_roundtrip]), dates
      ([Calendar.calendar_roundtrip]).
    - Bounds: bit searches and number conversions never leave their arrays
      ([Bitmap.find_next_zero_bit_correct], [Strtol.strtol_bounds]).
    - Progress: what calls on a pipe and queued procedure calls come to
      ([Pipe.pipe_progress], [Sched.dpc_queue_correct]), termination and its failure
      ([Hndl.hassign_correct], [Object.pulse_event_diverges], [Hash.hash_alloc_diverges]).
    - Defects of the code, as theorems about it: [Vmm.vmprotect_exposes_kernel],
      [Vmm.vmalloc_size_wraps], [Kmem.alloc_pages_exhausted], [Pdir.mem_access_misses_last_page],
      [Inode.set_inode_block_leaks], [Group.free_blocks_loses_space],
      [Object.wait_all_mutex_not_entered], [Buf.get_buffer_duplicates],
      [Buf.sync_error_keeps_lock], [Pipe.third_waiter_lost], [Pipe.interrupted_read_loses],
      [Iomux.clear_then_detach], [Fnmatch.period_matched], [Dir.readdir_outside], the minus
      sign in [Strtol.strtol_correct] and the two above that do not terminate.

    ** What is not modelled

    The accessed and dirty bits and the translation cache of the processor, segments, the
    machine part of a context switch, creation and destruction of threads, the virtual file
    system layer, the files and the super block of DFS and the other file systems, the
    network protocols and their buffers, devices, and the rest of the C library.  They either
    act on hardware, or only pass calls on, or need parts (the start of an I/O request, a
    disk) for which there is no model here.  Extension and truncation of inodes are modelled,
    but what directories need of them is a case of [Dir.add_block_spec] and
    [Dir.delete_dir_entry_spec], not a proved contract.  Listings for the proc file system
    are output only. *)

(** ** Shared notation, machine integers, arrays and automation *)

From Stdlib Require Export ZArith Lia.
From stdpp Require Export prelude list gmap.
Global Open Scope Z_scope.

Declare Scope krlean_scope.
Delimit Scope krlean_scope with krlean.

(** ** Machine integers of the 32-bit target

    [int] and [long] are 32 bits wide, [short] 16 and [char] 8 (and signed).
    A C value is the [Z] it denotes; the wrap-around of an operation is written
    at the operation. *)

Definition uwrap (w x : Z) : Z := x mod 2 ^ w.
Definition swrap (w x : Z) : Z :=
  let y := x mod 2 ^ w in if y <? 2 ^ (w - 1) then y else y - 2 ^ w.

Definition u8 (x : Z) : Z := uwrap 8 x.
Definition u16 (x : Z) : Z := uwrap 16 x.
Definition u32 (x : Z) : Z := uwrap 32 x.
Definition s8 (x : Z) : Z := swrap 8 x.
Definition s16 (x : Z) : Z := swrap 16 x.
Definition s32 (x : Z) : Z := swrap 32 x.

Definition is_u32 (x : Z) : Prop := 0 <= x < 2 ^ 32.
Definition is_s32 (x : Z) : Prop := - 2 ^ 31 <= x < 2 ^ 31.

(** C's truth value of an integer, and the integer of a truth value. *)
Definition truthy (x : Z) : bool := negb (x =? 0).
Definition of_bool (b : bool) : Z := if b then 1 else 0.

(** ** Error codes of include/errno.h *)

Definition EPERM : Z := 1.
Definition ENOENT : Z := 2.
Definition EINTR : Z := 4.
Definition EIO : Z := 5.
Definition EBADF : Z := 9.
Definition EAGAIN : Z := 11.
Definition ENOMEM : Z := 12.
Definition EACCES : Z := 13.
Definition EFAULT : Z := 14.
Definition EBUSY : Z := 16.
Definition EINVAL : Z := 22.
Definition ENFILE : Z := 23.
Definition EPIPE : Z := 32.
Definition ESRCH : Z := 3.
Definition ETIMEOUT : Z := 70.

(** ** Arrays

    [memmove dst src n a] is the array after [memmove(a + dst, a + src, n)],
    with the indices counted in elements. *)

Definition memmove {A} (dst src n : nat) (a : list A) : list A :=
  take dst a ++ take n (drop src a) ++ drop (dst + n) a.

(** ** Outcomes

    [Ret]: the code returns; [Panic]: it calls the kernel's [panic], which does
    not return; [Fault]: it dereferences NULL or leaves an array; [Diverge]: a
    loop has used up the fuel its definition is given. *)

Inductive outcome (A : Type) : Type :=
  | Ret (a : A)
  | Panic
  | Fault
  | Diverge.
Arguments Ret {A} a.
Arguments Panic {A}.
Arguments Fault {A}.
Arguments Diverge {A}.

Definition obind {A B} (c : outcome A) (k : A -> outcome B) : outcome B :=
  match c with
  | Ret a => k a
  | Panic => Panic
  | Fault => Fault
  | Diverge => Diverge
  end.

(** [deref]: an access that faults when there is nothing at the address. *)
Definition deref {A} (o : option A) : outcome A :=
  match o with Some a => Ret a | None => Fault end.

Notation "x <~ c ; k" := (obind c (fun x => k))
  (at level 20, c at level 100, k at level 200, only parsing) : krlean_scope.
Notation "' p <~ c ; k" := (obind c (fun x => match x with p => k end))
  (at level 20, p pattern, c at level 100, k at level 200, only parsing) : krlean_scope.

(** ** Lemmas and automation *)

Lemma obind_ret {A B} (c : outcome A) (k : A -> outcome B) b :
  obind c k = Ret b <-> exists a, c = Ret a /\ k a = Ret b.
Proof. destruct c; simpl; naive_solver. Qed.

Lemma u32_small x : is_u32 x -> u32 x = x.
Proof. unfold is_u32, u32, uwrap. intros. apply Z.mod_small. lia. Qed.

Lemma u32_range x : is_u32 (u32 x).
Proof. unfold is_u32, u32, uwrap. apply Z.mod_pos_bound. lia. Qed.

Lemma s32_small x : is_s32 x -> s32 x = x.
Proof.
  unfold is_s32, s32, swrap. intros [H1 H2].
  change (2 ^ (32 - 1)) with (2 ^ 31).
  destruct (Z.ltb_spec (x mod 2 ^ 32) (2 ^ 31)).
  - destruct (decide (0 <= x)).
    + rewrite Z.mod_small; lia.
    + pose proof (Z.mod_unique x (2^32) (-1) (x + 2^32)). lia.
  - destruct (decide (0 <= x)).
    + rewrite Z.mod_small in * by lia. lia.
    + pose proof (Z.mod_unique x (2^32) (-1) (x + 2^32)). lia.
Qed.

Lemma s32_range x : is_s32 (s32 x).
Proof.
  unfold is_s32, s32, swrap. change (2 ^ (32 - 1)) with (2 ^ 31).
  pose proof (Z.mod_pos_bound x (2 ^ 32) ltac:(lia)).
  destruct (Z.ltb_spec (x mod 2 ^ 32) (2 ^ 31)); lia.
Qed.

#[global] Arguments Nat.ltb : simpl never.
#[global] Arguments Nat.leb : simpl never.
#[global] Arguments Nat.eqb : simpl never.
#[global] Arguments Nat.sub : simpl nomatch.

Create HintDb krlean.
Create Rewrite HintDb lens.
#[export] Hint Resolve u32_range s32_range : krlean.
#[export] Hint Rewrite @length_app @length_cons @length_nil @length_take @length_drop
  @length_insert @length_replicate @length_reverse @length_fmap : lens.

(** [zify_bool] turns the boolean comparisons the code is written with into
    propositions, [zcase] splits on the first test of the goal. *)
Ltac zify_bool :=
  repeat match goal with
  | H : (_ =? _)%Z = true |- _ => apply Z.eqb_eq in H
  | H : (_ =? _)%Z = false |- _ => apply Z.eqb_neq in H
  | H : (_ <? _)%Z = true |- _ => apply Z.ltb_lt in H
  | H : (_ <? _)%Z = false |- _ => apply Z.ltb_ge in H
  | H : (_ <=? _)%Z = true |- _ => apply Z.leb_le in H
  | H : (_ <=? _)%Z = false |- _ => apply Z.leb_gt in H
  | H : (_ =? _)%nat = true |- _ => apply Nat.eqb_eq in H
  | H : (_ =? _)%nat = false |- _ => apply Nat.eqb_neq in H
  | H : (_ <? _)%nat = true |- _ => apply Nat.ltb_lt in H
  | H : (_ <? _)%nat = false |- _ => apply Nat.ltb_ge in H
  | H : (_ <=? _)%nat = true |- _ => apply Nat.leb_le in H
  | H : (_ <=? _)%nat = false |- _ => apply Nat.leb_gt in H
  | H : (_ && _) = true |- _ => apply andb_true_iff in H; destruct H
  | H : (_ && _) = false |- _ => apply andb_false_iff in H
  | H : (_ || _) = false |- _ => apply orb_false_iff in H; destruct H
  | H : negb _ = true |- _ => apply negb_true_iff in H
  | H : negb _ = false |- _ => apply negb_false_iff in H
  end.

Ltac zcase :=
  match goal with
  | |- context [if ?b then _ else _] => destruct b eqn:?; zify_bool
  end.

Ltac zcases := repeat zcase.

(** Linear arithmetic with division and remainder by constants. *)
Ltac lia_mod := Z.to_euclidean_division_equations; lia.

(** The wraps of the goal, from the inside out, where arithmetic shows that they change
    nothing. *)
Ltac u32_norm :=
  repeat match goal with |- context [u32 ?x] =>
    lazymatch x with context [u32 _] => fail | _ => rewrite (u32_small x) by (unfold is_u32 in *; lia_mod) end end.
Ltac s32_norm :=
  repeat match goal with |- context [s32 ?x] =>
    lazymatch x with context [s32 _] => fail | _ => rewrite (s32_small x) by (unfold is_s32 in *; lia_mod) end end.

(** Lengths of compound lists, then linear arithmetic. *)
Ltac lens := autorewrite with lens in *; try lia; simpl in *; autorewrite with lens in *; try lia.

Section Arrays.
Context {A : Type}.
Implicit Types l k : list A.

Lemma lookup_total_middle `{!Inhabited A} l x k i :
  i = length l -> (l ++ x :: k) !!! i = x.
Proof. intros ->. rewrite lookup_total_app_r by lia. by rewrite Nat.sub_diag. Qed.

Lemma insert_middle l x y k i :
  i = length l -> <[i := y]> (l ++ x :: k) = l ++ y :: k.
Proof. intros ->. by rewrite insert_app_r_alt, Nat.sub_diag by lia. Qed.

Lemma take_length_app l k i : i = length l -> take i (l ++ k) = l.
Proof. intros ->. apply take_app_length. Qed.

Lemma drop_length_app l k i : i = length l -> drop i (l ++ k) = k.
Proof. intros ->. apply drop_app_length. Qed.

Lemma memmove_length dst src n l :
  (dst + n <= length l)%nat -> (src + n <= length l)%nat ->
  length (memmove dst src n l) = length l.
Proof. unfold memmove. intros. lens. Qed.

(** Opening a gap: the block [k] moves one slot up, over the slot after it. *)
Lemma memmove_up l x k y t dst src n :
  src = length l -> dst = S src -> n = length (x :: k) ->
  memmove dst src n (l ++ (x :: k) ++ y :: t) = l ++ x :: (x :: k) ++ t.
Proof.
  intros -> -> ->. unfold memmove.
  rewrite (drop_length_app l), (take_length_app (x :: k)) by done.
  replace (S (length l)) with (length (l ++ [x])) by lens.
  replace (l ++ (x :: k) ++ y :: t) with ((l ++ [x]) ++ k ++ y :: t)
    by (by rewrite <- (assoc_L (++))).
  rewrite take_length_app by done.
  replace (length (l ++ [x]) + length (x :: k))%nat with (length ((l ++ [x]) ++ k ++ [y]))
    by lens.
  replace ((l ++ [x]) ++ k ++ y :: t) with (((l ++ [x]) ++ k ++ [y]) ++ t)
    by (by rewrite <- !(assoc_L (++))).
  rewrite drop_length_app by done. by rewrite <- (assoc_L (++)).
Qed.

(** Closing a gap: the block [k] moves one slot down, over [x]. *)
Lemma memmove_down l x k t dst src n :
  dst = length l -> src = S dst -> n = length k ->
  exists y, memmove dst src n (l ++ x :: k ++ t) = l ++ k ++ y :: t.
Proof.
  intros -> -> ->. unfold memmove. exists (List.last k x).
  rewrite take_length_app by done.
  replace (l ++ x :: k ++ t) with ((l ++ [x]) ++ k ++ t) by (by rewrite <- (assoc_L (++))).
  rewrite (drop_length_app (l ++ [x])) by lens.
  rewrite take_length_app by done. do 2 f_equal.
  destruct k as [|z k' _] using rev_ind.
  - simpl. rewrite Nat.add_0_r, <- (assoc_L (++)). by rewrite drop_length_app.
  - rewrite last_last.
    replace ((l ++ [x]) ++ (k' ++ [z]) ++ t) with (((l ++ [x]) ++ k') ++ z :: t)
      by (by rewrite <- !(assoc_L (++))).
    apply drop_length_app. lens.
Qed.
End Arrays.

Lemma filter_id {A} (P : A -> Prop) `{forall x, Decision (P x)} (l : list A) :
  (forall x, x ∈ l -> P x) -> filter P l = l.
Proof.
  induction l as [|x l IH]; intros Hl; [done|]. rewrite filter_cons_True by (apply Hl; set_solver).
  f_equal. apply IH. set_solver.
Qed.

Lemma filter_ext_elem {A} (P Q : A -> Prop) `{forall x, Decision (P x), forall x, Decision (Q x)}
    (l : list A) : (forall x, x ∈ l -> P x <-> Q x) -> filter P l = filter Q l.
Proof.
  induction l as [|x l IH]; intros Hl; [done|]. rewrite !filter_cons.
  rewrite IH by set_solver. pose proof (Hl x ltac:(set_solver)).
  destruct (decide (P x)), (decide (Q x)); naive_solver.
Qed.

Lemma existsb_ext_elem {A} (f g : A -> bool) l :
  (forall x, x ∈ l -> f x = g x) -> existsb f l = existsb g l.
Proof.
  induction l as [|x l IH]; intros Hl; [done|]. simpl. rewrite Hl, IH by set_solver. done.
Qed.

Lemma forallb_ext_elem {A} (f g : A -> bool) l :
  (forall x, x ∈ l -> f x = g x) -> forallb f l = forallb g l.
Proof.
  induction l as [|x l IH]; intros Hl; [done|]. simpl. rewrite Hl, IH by set_solver. done.
Qed.

Lemma foldl_ext_elem {A B} (f g : B -> A -> B) l z :
  (forall x y, x ∈ l -> f y x = g y x) -> foldl f z l = foldl g z l.
Proof.
  revert z. induction l as [|x l IH]; intros z Hl; [done|]. simpl. rewrite Hl, IH by set_solver. done.
Qed.

(** ** Linked lists

    [seg nx s l t]: from the pointer [s], following [nx], the nodes met are [l],
    and the last of them points to [t] ([s] itself is [t] when [l] is empty). *)

Section Segments.
Context {A : Type} (nx : A -> option A).

Fixpoint seg (s : option A) (l : list A) (t : option A) : Prop :=
  match l with
  | [] => s = t
  | i :: l => s = Some i /\ seg (nx i) l t
  end.

Lemma seg_app s l k t : seg s (l ++ k) t <-> exists m, seg s l m /\ seg m k t.
Proof.
  revert s. induction l as [|i l IH]; intros s; simpl; [naive_solver|].
  rewrite IH. naive_solver.
Qed.

Lemma seg_head s l : seg s l None -> s = head l.
Proof. destruct l; simpl; naive_solver. Qed.

Lemma seg_unique s l k : seg s l None -> seg s k None -> l = k.
Proof.
  revert s k. induction l as [|i l IH]; intros s [|j k]; simpl; naive_solver.
Qed.
End Segments.

Lemma seg_ext {A} (nx nx' : A -> option A) s l t :
  (forall i, i ∈ l -> nx' i = nx i) -> seg nx s l t -> seg nx' s l t.
Proof.
  revert s. induction l as [|i l IH]; intros s Heq; simpl; [done|].
  intros [-> Hl]. split; [done|]. rewrite Heq by set_solver. apply IH; [set_solver|done].
Qed.

(** ** Bits *)

Lemma truthy_land_pow2 x n : 0 <= n -> truthy (Z.land x (2 ^ n)) = Z.testbit x n.
Proof.
  intros Hn. unfold truthy. destruct (Z.testbit x n) eqn:Hb.
  - apply negb_true_iff, Z.eqb_neq. intros Heq.
    assert (Z.testbit (Z.land x (2 ^ n)) n = true) as Ht
      by (by rewrite Z.land_spec, Hb, Z.pow2_bits_true).
    rewrite Heq, Z.bits_0 in Ht. done.
  - apply negb_false_iff, Z.eqb_eq. apply Z.bits_inj_iff'. intros m Hm.
    rewrite Z.land_spec, Z.bits_0. destruct (decide (m = n)) as [->|].
    + by rewrite Hb.
    + rewrite Z.pow2_bits_false by done. apply andb_false_r.
Qed.

Lemma testbit_small x n : 0 <= x < 2 ^ n -> Z.testbit x n = false.
Proof.
  intros Hx. destruct (decide (0 <= n)).
  - rewrite Z.testbit_false, Z.div_small by lia. done.
  - apply Z.testbit_neg_r. lia.
Qed.

Lemma testbit_top x n : 0 <= n -> 2 ^ n <= x < 2 ^ (n + 1) -> Z.testbit x n = true.
Proof.
  intros Hn Hx. rewrite Z.testbit_true by done.
  rewrite Z.pow_add_r in Hx by lia.
  by rewrite <- (Z.div_unique x (2 ^ n) 1 (x - 2 ^ n)) by lia.
Qed.

Lemma lor_low x f k : 0 <= k -> 0 <= f < 2 ^ k -> Z.lor (x * 2 ^ k) f = x * 2 ^ k + f.
Proof.
  intros Hk Hf. rewrite <- (Z.shiftl_mul_pow2 x k) by done.
  assert (Z.land (Z.shiftl x k) f = 0) as Hd.
  { apply Z.bits_inj_iff'. intros n Hn. rewrite Z.land_spec, Z.shiftl_spec, Z.bits_0 by done.
    destruct (Z.ltb_spec n k).
    - by rewrite Z.testbit_neg_r by lia.
    - rewrite (testbit_small f n); [apply andb_false_r|].
      pose proof (Z.pow_le_mono_r 2 k n). lia. }
  pose proof (Z.add_lor_land (Z.shiftl x k) f). lia.
Qed.

Lemma land_high x k w : 0 <= k <= w -> 0 <= x < 2 ^ w ->
  Z.land x (Z.shiftl (Z.ones (w - k)) k) = x / 2 ^ k * 2 ^ k.
Proof.
  intros Hk Hx. apply Z.bits_inj_iff'. intros n Hn. rewrite Z.land_spec, Z.shiftl_spec by done.
  rewrite <- Z.shiftl_mul_pow2, Z.shiftl_spec, <- Z.shiftr_div_pow2 by lia.
  destruct (Z.ltb_spec n k) as [|Hnk].
  { rewrite !(Z.testbit_neg_r _ (n - k)) by lia. by rewrite andb_false_r. }
  rewrite Z.shiftr_spec by lia. replace (n - k + k) with n by lia.
  destruct (Z.ltb_spec n w).
  - rewrite Z.ones_spec_low by lia. by rewrite andb_true_r.
  - rewrite (testbit_small x n); [done|]. pose proof (Z.pow_le_mono_r 2 w n). lia.
Qed.

(** ** Counting *)

Definition countb {A} (f : A -> bool) (l : list A) : nat := length (filter (fun x => f x = true) l).

Lemma countb_cons {A} (f : A -> bool) x l : countb f (x :: l) = (Nat.b2n (f x) + countb f l)%nat.
Proof. unfold countb. rewrite filter_cons. destruct (f x); case_decide; done. Qed.

Lemma countb_app {A} (f : A -> bool) l k : countb f (l ++ k) = (countb f l + countb f k)%nat.
Proof. unfold countb. by rewrite filter_app, length_app. Qed.

Lemma countb_insert {A} (f : A -> bool) l i x y :
  l !! i = Some x ->
  (countb f (<[i := y]> l) + Nat.b2n (f x) = countb f l + Nat.b2n (f y))%nat.
Proof.
  intros Hi. rewrite insert_take_drop by (by eapply lookup_lt_Some).
  rewrite <- (take_drop_middle l i x Hi) at 3.
  rewrite !countb_app, !countb_cons. lia.
Qed.

Lemma countb_zero {A} (f : A -> bool) l : countb f l = 0%nat <-> Forall (fun x => f x = false) l.
Proof.
  induction l as [|x l IH]; [by split|].
  rewrite countb_cons, Forall_cons, <- IH. destruct (f x); simpl; intuition (lia || done).
Qed.

Lemma countb_pos {A} (f : A -> bool) l i x :
  l !! i = Some x -> f x = true -> (0 < countb f l)%nat.
Proof.
  intros Hi Hf. destruct (countb f l) eqn:Hc; [|lia].
  apply countb_zero in Hc. rewrite Forall_lookup in Hc. specialize (Hc i x Hi). congruence.
Qed.
