(* ===== verification/Rmap.v ===== *)
(** * Rmap: the resource map of src/src/lib/rmap.c

    A resource map is an array of [struct rmap]: slot 0 is a header whose
    [offset] counts the free ranges and whose [size] is the capacity; slots 1
    up to that count hold the free ranges in ascending order.  The operations
    work on the array, with the [memmove]s of the code; [rep] relates an array
    to the list of its free ranges, and the theorems are stated on that list. *)

From S2P Require Import Prelude.

Record rent := Rent { r_offset : Z; r_size : Z }.

#[export] Instance rent_inhabited : Inhabited rent := populate (Rent 0 0).

(** ** The operations *)

Definition rcount (m : list rent) : nat := Z.to_nat (r_offset (m !!! 0%nat)).

Definition set_count (m : list rent) (c : Z) : list rent :=
  <[0%nat := Rent (u32 c) (r_size (m !!! 0%nat))]> m.

(** [lost_elems] is a global counter: the operations that can lose space return
    the amount they add to it. *)
Definition rmap_init (m : list rent) (size : Z) : list rent :=
  <[0%nat := Rent 0 (u32 (size - 1))]> m.

(** [None] is the C result 1 (no room). *)
Definition makespace (m : list rent) (r : nat) : option (list rent) :=
  let rlim := rcount m in
  if r_size (m !!! 0%nat) =? r_offset (m !!! 0%nat) then None
  else
    let m := set_count m (r_offset (m !!! 0%nat) + 1) in
    Some (if (r <=? rlim)%nat then memmove (S r) r (rlim - r + 1) m else m).

Definition collapse (m : list rent) (r : nat) : list rent :=
  let rlim := rcount m in
  let m := set_count m (r_offset (m !!! 0%nat) - 1) in
  if (r <? rlim)%nat then memmove r (S r) (rlim - r) m else m.

(** The loop [for (r = &rmap[1]; r <= rlim; r++) if (...) break;] from slot [r],
    with [n] slots to go; the result is the slot it stops at. *)
Fixpoint slot_scan (brk : rent -> bool) (m : list rent) (r n : nat) : nat :=
  match n with
  | O => r
  | S n' => if brk (m !!! r) then r else slot_scan brk m (S r) n'
  end.

Definition rmap_alloc (m : list rent) (size : Z) : Z * list rent :=
  let rlim := rcount m in
  let r := slot_scan (fun e => size <=? r_size e) m 1 rlim in
  if (rlim <? r)%nat then (0, m)
  else
    let e := m !!! r in
    if size <? r_size e
    then (r_offset e, <[r := Rent (u32 (r_offset e + size)) (u32 (r_size e - size))]> m)
    else (r_offset e, collapse m r).

(** [rmap_reserve]: the loop, with its exits in the order of the code.  The
    result is the return value, the array and the increment of [lost_elems]. *)
Definition reserve_in (m : list rent) (r : nat) (offset size top : Z) : Z * list rent * Z :=
  let e := m !!! r in
  let rtop := u32 (offset + size) in
  if top <? rtop then (1, m, 0)
  else if offset =? r_offset e then
    let e' := Rent (u32 (r_offset e + size)) (u32 (r_size e - size)) in
    let m := <[r := e']> m in
    (0, if r_size e' =? 0 then collapse m r else m, 0)
  else if rtop =? top then
    (0, <[r := Rent (r_offset e) (u32 (r_size e - size))]> m, 0)
  else
    match makespace m r with
    | None =>
        let osize := r_size e in
        let rsize := u32 (top - rtop) in
        (0, <[r := Rent rtop rsize]> m, u32 (u32 (osize - rsize) - size))
    | Some m =>
        let m := <[r := Rent (r_offset (m !!! r)) (u32 (offset - r_offset (m !!! r)))]> m in
        (0, <[S r := Rent rtop (u32 (top - rtop))]> m, 0)
    end.

Fixpoint reserve_loop (m : list rent) (offset size : Z) (r n : nat) : Z * list rent * Z :=
  match n with
  | O => (1, m, 0)
  | S n' =>
      let e := m !!! r in
      if offset <? r_offset e then (1, m, 0)
      else
        let top := u32 (r_offset e + r_size e) in
        if negb ((r_offset e <=? offset) && (offset <? top))
        then reserve_loop m offset size (S r) n'
        else reserve_in m r offset size top
  end.

Definition rmap_reserve (m : list rent) (offset size : Z) : Z * list rent * Z :=
  reserve_loop m offset size 1 (rcount m).

(** The value of [gap] at a slot. *)
Definition align_gap (e : rent) (align : Z) : Z :=
  if r_offset e mod align =? 0 then 0 else u32 (align - r_offset e mod align).

Definition rmap_alloc_align (m : list rent) (size align : Z) : Z * list rent * Z :=
  let rlim := rcount m in
  let r := slot_scan (fun e => u32 (size + align_gap e align) <=? r_size e) m 1 rlim in
  if (rlim <? r)%nat then (0, m, 0)
  else
    let idx := u32 (r_offset (m !!! r) + align_gap (m !!! r) align) in
    let '(rc, m, lost) := rmap_reserve m idx size in
    (if truthy rc then 0 else idx, m, lost).

(** [rmap_free]: [free_loop] returns either the array the body returned with, or
    the slot at which the search stopped. *)
Definition free_coalesce (m : list rent) (r rlim : nat) : list rent :=
  let e := m !!! r in
  let e1 := m !!! S r in
  if ((r <? rlim)%nat && (u32 (r_offset e + r_size e) =? r_offset e1)) then
    let m := <[r := Rent (r_offset e) (u32 (r_size e + r_size e1))]> m in
    let m := set_count m (r_offset (m !!! 0%nat) - 1) in
    let r := S r in
    if (r <? rlim)%nat then memmove r (S r) (rlim - r) m else m
  else m.

Fixpoint free_loop (m : list rent) (offset size : Z) (rlim r n : nat) : list rent + nat :=
  match n with
  | O => inr r
  | S n' =>
      let e := m !!! r in
      if u32 (r_offset e + r_size e) =? offset then
        inl (free_coalesce (<[r := Rent (r_offset e) (u32 (r_size e + size))]> m) r rlim)
      else if u32 (offset + size) =? r_offset e then
        inl (<[r := Rent offset (u32 (r_size e + size))]> m)
      else if offset <? r_offset e then inr r
      else free_loop m offset size rlim (S r) n'
  end.

Definition rmap_free (m : list rent) (offset size : Z) : list rent * Z :=
  match free_loop m offset size (rcount m) 1 (rcount m) with
  | inl m => (m, 0)
  | inr r =>
      match makespace m r with
      | None => (m, size)
      | Some m => (<[r := Rent offset size]> m, 0)
      end
  end.

Fixpoint status_loop (m : list rent) (offset size : Z) (r n : nat) : Z :=
  match n with
  | O => 1
  | S n' =>
      let e := m !!! r in
      if offset <? r_offset e then
        if r_offset e <? u32 (offset + size) then -1 else 1
      else
        let top := u32 (r_offset e + r_size e) in
        if negb ((r_offset e <=? offset) && (offset <? top))
        then status_loop m offset size (S r) n'
        else if u32 (offset + size) <? top then 0 else -1
  end.

Definition rmap_status (m : list rent) (offset size : Z) : Z :=
  status_loop m offset size 1 (rcount m).

(** ** The abstract view: an ordered list of free ranges *)

Definition rend (e : rent) : Z := r_offset e + r_size e.

(** [rep m l]: the array [m] holds the free ranges [l]; [stale] are the unused
    slots behind them, whose contents do not matter. *)
Definition rep (m : list rent) (l : list rent) : Prop :=
  exists stale, m = Rent (Z.of_nat (length l)) (Z.of_nat (length (l ++ stale))) :: l ++ stale
    /\ Z.of_nat (length (l ++ stale)) < 2 ^ 32.

Definition capacity (m : list rent) : nat := pred (length m).

(** The free ranges ascend, are not empty, do not abut, and end below [2^32]. *)
Fixpoint wf_from (lo : Z) (l : list rent) : Prop :=
  match l with
  | [] => True
  | e :: l => lo <= r_offset e /\ 0 < r_size e /\ rend e < 2 ^ 32 /\ wf_from (rend e + 1) l
  end.

(** Offset 0 is excluded: the code's return value 0 means failure. *)
Definition wf (l : list rent) : Prop := wf_from 1 l.

Definition in_range (off size x : Z) : Prop := off <= x < off + size.
#[export] Instance in_range_dec off size x : Decision (in_range off size x).
Proof. unfold in_range. apply _. Defined.

Definition covers (l : list rent) (x : Z) : Prop :=
  exists e, e ∈ l /\ in_range (r_offset e) (r_size e) x.

(** Where the ranges behind [l] may start. *)
Fixpoint wf_end (lo : Z) (l : list rent) : Z :=
  match l with [] => lo | e :: l => wf_end (rend e + 1) l end.

(** First fit, on the list. *)
Fixpoint first_fit (fits : rent -> bool) (l : list rent) : option (list rent * rent * list rent) :=
  match l with
  | [] => None
  | e :: l =>
      if fits e then Some ([], e, l)
      else match first_fit fits l with
           | Some (pre, x, post) => Some (e :: pre, x, post)
           | None => None
           end
  end.

Fixpoint free_spec (offset size : Z) (l : list rent) : list rent :=
  match l with
  | [] => [Rent offset size]
  | e :: l' =>
      if rend e =? offset then
        match l' with
        | e1 :: l'' =>
            if rend e + size =? r_offset e1
            then Rent (r_offset e) (r_size e + size + r_size e1) :: l''
            else Rent (r_offset e) (r_size e + size) :: l'
        | [] => [Rent (r_offset e) (r_size e + size)]
        end
      else if offset + size =? r_offset e then Rent offset (r_size e + size) :: l'
      else if offset <? r_offset e then Rent offset size :: e :: l'
      else e :: free_spec offset size l'
  end.

(** The clients of a map: [own] are the ranges they hold.  A client gives back a
    range it holds, whole. *)
Definition held (own : list (Z * Z)) (x : Z) : nat :=
  countb (fun r => bool_decide (in_range r.1 r.2 x)) own.

Record rclients := RClients { rc_map : list rent; rc_own : list (Z * Z); rc_lost : Z }.

Inductive rstep : rclients -> rclients -> Prop :=
  | rstep_alloc m own lost size idx m' :
      0 < size < 2 ^ 32 -> rmap_alloc m size = (idx, m') ->
      rstep (RClients m own lost)
        (RClients m' (if idx =? 0 then own else (idx, size) :: own) lost)
  | rstep_align m own lost size align idx m' more :
      0 < size -> 0 < align -> size + align < 2 ^ 32 ->
      rmap_alloc_align m size align = (idx, m', more) ->
      rstep (RClients m own lost)
        (RClients m' (if idx =? 0 then own else (idx, size) :: own) (lost + more))
  | rstep_reserve m own lost offset size rc m' more :
      0 < size -> offset + size < 2 ^ 32 ->
      rmap_reserve m offset size = (rc, m', more) ->
      rstep (RClients m own lost)
        (RClients m' (if rc =? 0 then (offset, size) :: own else own) (lost + more))
  | rstep_free m a offset size b lost m' more :
      rmap_free m offset size = (m', more) ->
      rstep (RClients m (a ++ (offset, size) :: b) lost) (RClients m' (a ++ b) (lost + more)).

(** What the clients hold and what is free never overlap and never leave the ranges
    [l0] the map started with; nothing is missing unless space was given up. *)
Record rclients_ok (l0 : list rent) (c : rclients) (l : list rent) : Prop := {
  co_rep : rep (rc_map c) l;
  co_wf : wf l;
  co_lost : 0 <= rc_lost c;
  co_own : Forall (fun r => 0 < r.1 /\ 0 < r.2 /\ r.1 + r.2 < 2 ^ 32) (rc_own c);
  co_once : forall x, (held (rc_own c) x <= 1)%nat;
  co_free : forall x, covers l x -> held (rc_own c) x = 0%nat /\ covers l0 x;
  co_held : forall x, (0 < held (rc_own c) x)%nat -> covers l0 x;
  co_all : rc_lost c = 0 -> forall x, covers l0 x -> covers l x \/ (0 < held (rc_own c) x)%nat;
}.

(** ** The array operations implement the list operations *)

Lemma rep_intro c cap body l stale :
  c = Z.of_nat (length l) -> cap = Z.of_nat (length (l ++ stale)) ->
  body = l ++ stale -> cap < 2 ^ 32 -> rep (Rent c cap :: body) l.
Proof. intros -> -> -> Hlt. by exists stale. Qed.

Lemma rcount_rep m l : rep m l -> rcount m = length l.
Proof. intros (stale & -> & _). unfold rcount. simpl. lia. Qed.

Lemma capacity_rep m l : rep m l -> (length l <= capacity m)%nat.
Proof. intros (stale & -> & _). unfold capacity. lens. Qed.

(** Reading and writing the slot behind [pre]. *)
Section Slots.
Context (h : rent) (pre post stale : list rent) (e : rent).

Lemma slot_lookup r :
  r = S (length pre) -> (h :: (pre ++ e :: post) ++ stale) !!! r = e.
Proof.
  intros ->. rewrite <- (assoc_L (++)). apply (lookup_total_middle (h :: pre)). done.
Qed.

Lemma slot_insert r x :
  r = S (length pre) ->
  <[r := x]> (h :: (pre ++ e :: post) ++ stale) = h :: (pre ++ x :: post) ++ stale.
Proof.
  intros ->. rewrite <- !(assoc_L (++)). apply (insert_middle (h :: pre)). done.
Qed.
End Slots.

Lemma rep_update m pre e x post r :
  rep m (pre ++ e :: post) -> r = S (length pre) -> rep (<[r := x]> m) (pre ++ x :: post).
Proof.
  intros (stale & -> & Hlt) ->. rewrite slot_insert by done.
  eapply rep_intro; [| |done|]; lens.
Qed.

Lemma rep_lookup m pre e post r :
  rep m (pre ++ e :: post) -> r = S (length pre) -> m !!! r = e.
Proof. intros (stale & -> & Hlt) ->. by apply slot_lookup. Qed.

Lemma capacity_update m r x : capacity (<[r := x]> m) = capacity m.
Proof. unfold capacity. by rewrite length_insert. Qed.

(** [collapse] deletes the range at its slot. *)
Lemma collapse_rep m pre e post r :
  rep m (pre ++ e :: post) -> r = S (length pre) ->
  rep (collapse m r) (pre ++ post) /\ capacity (collapse m r) = capacity m.
Proof.
  intros Hrep Hr. pose proof (rcount_rep _ _ Hrep) as Hc.
  destruct Hrep as (stale & -> & Hlt). subst r.
  unfold collapse. rewrite Hc. unfold set_count. simpl.
  rewrite u32_small by (unfold is_u32; lens).
  rewrite <- (assoc_L (++)). simpl.
  set (h := Rent _ _).
  assert (exists y, (if (S (length pre) <? length (pre ++ e :: post))%nat
     then memmove (S (length pre)) (S (S (length pre)))
            (length (pre ++ e :: post) - S (length pre)) (h :: pre ++ e :: post ++ stale)
     else h :: pre ++ e :: post ++ stale) = h :: pre ++ post ++ y :: stale) as [y ->].
  { zcase.
    - apply (memmove_down (h :: pre)); lens.
    - destruct post; [|lens]. by exists e. }
  split.
  - apply rep_intro with (y :: stale); [| |by rewrite <- (assoc_L (++))|]; lens.
  - unfold capacity. simpl. lens.
Qed.

(** [makespace] opens a slot, which holds a copy of the range at it (or a stale
    one when the slot is at the end), unless the array is full. *)
Lemma makespace_rep m pre post r :
  rep m (pre ++ post) -> r = S (length pre) ->
  match makespace m r with
  | None => (capacity m <= length (pre ++ post))%nat
  | Some m' =>
      exists x, rep m' (pre ++ x :: post) /\ capacity m' = capacity m
        /\ (forall e post', post = e :: post' -> x = e)
  end.
Proof.
  intros Hrep Hr. pose proof (rcount_rep _ _ Hrep) as Hc.
  destruct Hrep as (stale & -> & Hlt). subst r.
  unfold makespace. rewrite Hc. simpl. unfold set_count, capacity. simpl.
  match goal with |- context [if ?b then None else _] => destruct b eqn:Hfull end; zify_bool.
  - lens.
  - destruct stale as [|y stale]; [rewrite app_nil_r in *; lia|].
    rewrite u32_small by (unfold is_u32; lens).
    rewrite <- (assoc_L (++)). set (h := Rent _ _). zcase.
    + destruct post as [|e post]; [lens|]. simpl.
      change (h :: pre ++ e :: post ++ y :: stale)
        with ((h :: pre) ++ (e :: post) ++ y :: stale).
      rewrite memmove_up by lens. exists e. split; [|split; [lens|naive_solver]].
      apply rep_intro with stale; [| |by rewrite <- (assoc_L (++))|]; lens.
    + destruct post; [|lens]. exists y. simpl. split; [|split; [lens|done]].
      apply rep_intro with stale; [| |by rewrite <- (assoc_L (++))|]; lens.
Qed.

(** ** Lists of free ranges *)

Lemma wf_app lo l k : wf_from lo (l ++ k) <-> wf_from lo l /\ wf_from (wf_end lo l) k.
Proof. revert lo. induction l as [|e l IH]; intros lo; simpl; [tauto|]. rewrite IH. tauto. Qed.

Lemma wf_mono lo lo' l : lo' <= lo -> wf_from lo l -> wf_from lo' l.
Proof. destruct l; simpl; [done|]. intros ? (?&?&?&?). split_and!; try done. lia. Qed.

Lemma covers_nil x : covers [] x <-> False.
Proof. unfold covers. set_solver. Qed.

Lemma covers_cons e l x : covers (e :: l) x <-> in_range (r_offset e) (r_size e) x \/ covers l x.
Proof. unfold covers. set_solver. Qed.

Lemma covers_app l k x : covers (l ++ k) x <-> covers l x \/ covers k x.
Proof. unfold covers. set_solver. Qed.

Lemma wf_covers_lo lo l x : wf_from lo l -> covers l x -> lo <= x.
Proof.
  revert lo. induction l as [|e l IH]; simpl; intros lo.
  - rewrite covers_nil; tauto.
  - intros (?&?&?&Hl) [?|Hx]%covers_cons; unfold in_range, rend in *; [lia|].
    specialize (IH _ Hl Hx). lia.
Qed.

Lemma wf_end_lo lo l : wf_from lo l -> lo <= wf_end lo l.
Proof.
  revert lo. induction l as [|e l IH]; simpl; intros lo; [lia|].
  intros (?&?&?&Hl). specialize (IH _ Hl). unfold rend in *. lia.
Qed.

Lemma wf_covers_hi lo l x : wf_from lo l -> covers l x -> x + 1 < wf_end lo l.
Proof.
  revert lo. induction l as [|e l IH]; simpl; intros lo.
  - rewrite covers_nil; tauto.
  - intros (?&?&?&Hl) [?|Hx]%covers_cons; [|by apply IH].
    pose proof (wf_end_lo _ _ Hl). unfold in_range, rend in *. lia.
Qed.

(** What well-formedness says around one range of the list. *)
Lemma wf_around lo p e q :
  wf_from lo (p ++ e :: q) ->
  (forall x, covers p x -> x + 1 < r_offset e) /\ (forall x, covers q x -> rend e < x)
  /\ lo <= r_offset e /\ 0 < r_size e /\ rend e < 2 ^ 32.
Proof.
  intros (Hp & Ho & ? & ? & Hq)%wf_app. split_and!; try done.
  - intros x Hx%(wf_covers_hi _ _ _ Hp). lia.
  - intros x Hx%(wf_covers_lo _ _ _ Hq). lia.
  - pose proof (wf_end_lo _ _ Hp). lia.
Qed.

(** Replacing one range by ranges [k] inside it keeps the list well-formed. *)
Lemma wf_replace lo p e k q :
  wf_from lo (p ++ e :: q) ->
  (forall lo', lo' <= r_offset e -> wf_from lo' k /\ wf_end lo' k <= rend e + 1) ->
  wf_from lo (p ++ k ++ q).
Proof.
  intros (Hp & Ho & ? & ? & Hq)%wf_app Hk. destruct (Hk _ Ho) as [Hk1 Hk2].
  rewrite !wf_app. split_and!; try done. eapply wf_mono; done.
Qed.

Lemma first_fit_Some f l p e q :
  first_fit f l = Some (p, e, q) ->
  l = p ++ e :: q /\ f e = true /\ Forall (fun x => f x = false) p.
Proof.
  revert p. induction l as [|x l IH]; simpl; intros p; [done|].
  destruct (f x) eqn:Hf; [naive_solver|].
  destruct (first_fit f l) as [[[p' e'] q']|]; [|done].
  intros [= <- -> ->]. destruct (IH p') as (-> & ? & ?); [done|]. auto.
Qed.

Lemma first_fit_None f l : first_fit f l = None -> Forall (fun x => f x = false) l.
Proof.
  induction l as [|x l IH]; simpl; [auto|].
  destruct (f x) eqn:?; [done|]. destruct (first_fit f l) as [[[??]?]|]; [done|auto].
Qed.

Lemma slot_scan_rep f m pre l r :
  rep m (pre ++ l) -> r = S (length pre) ->
  slot_scan f m r (length l) =
    match first_fit f l with
    | Some (p, _, _) => S (length (pre ++ p))
    | None => S (length (pre ++ l))
    end.
Proof.
  revert pre r. induction l as [|e l IH]; intros pre r Hrep ->; simpl; [lens|].
  rewrite (rep_lookup _ _ _ _ _ Hrep eq_refl).
  destruct (f e); [lens|]. rewrite (IH (pre ++ [e])); [|by list_simplifier|lens].
  destruct (first_fit f l) as [[[??]?]|]; lens.
Qed.

(** The slot the search stops at, for the map as a whole. *)
Lemma slot_scan_result f m l :
  rep m l ->
  let r := slot_scan f m 1 (rcount m) in
  match first_fit f l with
  | Some (p, e, q) => l = p ++ e :: q /\ f e = true /\ Forall (fun x => f x = false) p
      /\ r = S (length p) /\ m !!! r = e /\ (rcount m <? r)%nat = false
  | None => (rcount m <? r)%nat = true /\ Forall (fun x => f x = false) l
  end.
Proof.
  intros Hrep. simpl. rewrite (rcount_rep _ _ Hrep).
  rewrite (slot_scan_rep f m [] l 1%nat Hrep eq_refl).
  destruct (first_fit f l) as [[[p e] q]|] eqn:Hff; simpl.
  - apply first_fit_Some in Hff as (-> & ? & ?). split_and!; try done.
    + eapply rep_lookup; done.
    + apply Nat.ltb_ge. lens.
  - split; [apply Nat.ltb_lt; lia|by apply first_fit_None].
Qed.

(** [covers_tac] decides a question about one unit [x] from what [wf_around]
    says of the ranges before ([Hp]) and behind ([Hq]) the one touched. *)
Ltac covers_tac Hp Hq :=
  let x := fresh "x" in
  intros x; pose proof (Hp x); pose proof (Hq x);
  rewrite ?covers_app, ?covers_cons, ?covers_nil in *;
  rewrite ?covers_app, ?covers_cons, ?covers_nil in *;
  unfold in_range, rend in *; simpl in *; intuition lia.

Ltac wf_tac := intros; simpl in *; unfold rend in *; simpl in *; split_and!; try done; try lia.

Ltac wf_split H Hp Hq :=
  let H' := fresh in pose proof (wf_around _ _ _ _ H) as H'; destruct H' as (Hp & Hq & ? & ? & ?).

(** ** The theorems *)

Lemma rmap_alloc_spec m l size idx m' :
  rep m l -> wf l -> 0 < size < 2 ^ 32 -> rmap_alloc m size = (idx, m') ->
  exists l', rep m' l' /\ wf l' /\ capacity m' = capacity m /\
    ((idx = 0 /\ l' = l /\ Forall (fun e => r_size e < size) l)
     \/ (idx <> 0 /\ (forall x, in_range idx size x -> covers l x)
         /\ (forall x, covers l' x <-> covers l x /\ ~ in_range idx size x)
         /\ exists p e q, l = p ++ e :: q /\ idx = r_offset e
              /\ Forall (fun e => r_size e < size) p)).
Proof.
  intros Hrep Hwf Hsize. unfold rmap_alloc.
  pose proof (slot_scan_result (fun e => size <=? r_size e) _ _ Hrep) as Hr; simpl in Hr.
  set (r := slot_scan _ _ _ _) in *.
  destruct (first_fit _ l) as [[[p e] q]|].
  - destruct Hr as (-> & Hfit & Hno & -> & -> & ->). zify_bool.
    wf_split Hwf Hp Hq.
    assert (Forall (fun e => r_size e < size) p)
      by (eapply Forall_impl; [exact Hno|]; simpl; intros; zify_bool; lia).
    zcase; intros [= <- <-].
    + rewrite !u32_small by (unfold is_u32, rend in *; lia).
      eexists. split; [by eapply rep_update|].
      split; [|split; [apply capacity_update|right]].
      * apply (wf_replace 1 p e [_] q Hwf). wf_tac.
      * split_and!; [lia| | |by exists p, e, q]; covers_tac Hp Hq.
    + destruct (collapse_rep m p e q _ Hrep eq_refl) as [Hc Hcap].
      eexists. split; [exact Hc|]. split; [|split; [exact Hcap|right]].
      * apply (wf_replace 1 p e [] q Hwf). wf_tac.
      * split_and!; [lia| | |by exists p, e, q]; covers_tac Hp Hq.
  - destruct Hr as [-> Hno]. intros [= <- <-]. exists l. split_and!; try done.
    left. split_and!; try done.
    eapply Forall_impl; [exact Hno|]; simpl; intros; zify_bool; lia.
Qed.

(** The body of [rmap_reserve] at the range that holds the start of the request. *)
Lemma reserve_in_correct m p e q r offset size :
  rep m (p ++ e :: q) -> wf (p ++ e :: q) -> r = S (length p) ->
  0 < size -> offset + size < 2 ^ 32 -> r_offset e <= offset < rend e ->
  let '(rc, m', lost) := reserve_in m r offset size (rend e) in
  exists l', rep m' l' /\ wf l' /\ capacity m' = capacity m /\
    ((rc = 1 /\ lost = 0 /\ m' = m /\ rend e < offset + size)
     \/ (rc = 0 /\ offset + size <= rend e /\ 0 <= lost
         /\ (lost <> 0 -> length (p ++ e :: q) = capacity m /\ offset - lost = r_offset e)
         /\ (forall x, covers l' x <->
              covers (p ++ e :: q) x /\ ~ in_range (offset - lost) (size + lost) x))).
Proof.
  intros Hrep Hwf Hr Hs Ho He. wf_split Hwf Hp Hq.
  unfold reserve_in. rewrite (rep_lookup _ _ _ _ _ Hrep Hr). simpl.
  rewrite (u32_small (offset + size)) by (unfold is_u32; lia).
  zcase; [exists (p ++ e :: q); split_and!; auto|].
  rewrite (u32_small (r_size e - size)) by (unfold is_u32, rend in *; lia).
  zcase.
  - rewrite (u32_small (r_offset e + size)) by (unfold is_u32, rend in *; lia).
    pose proof (rep_update m p e (Rent (r_offset e + size) (r_size e - size)) q r Hrep Hr) as Hu.
    zcase.
    + destruct (collapse_rep _ _ _ _ _ Hu Hr) as [Hc Hcap]. rewrite capacity_update in Hcap.
      eexists. split; [exact Hc|]. split; [|split; [exact Hcap|right]].
      * apply (wf_replace 1 p e [] q Hwf). wf_tac.
      * split_and!; try lia. covers_tac Hp Hq.
    + eexists. split; [exact Hu|]. split; [|split; [apply capacity_update|right]].
      * apply (wf_replace 1 p e [_] q Hwf). wf_tac.
      * split_and!; try lia. covers_tac Hp Hq.
  - zcase.
    + eexists. split; [by eapply rep_update|]. split; [|split; [apply capacity_update|right]].
      * apply (wf_replace 1 p e [_] q Hwf). wf_tac.
      * split_and!; try lia. covers_tac Hp Hq.
    + rewrite (u32_small (rend e - (offset + size))) by (unfold is_u32, rend in *; lia).
      pose proof (makespace_rep m p (e :: q) r Hrep Hr) as Hm.
      destruct (makespace m r) as [m1|].
      * destruct Hm as (x & Hm & Hcap & Hx). rewrite (Hx e q eq_refl) in *. clear x Hx.
        rewrite (rep_lookup _ _ _ _ _ Hm Hr).
        rewrite (u32_small (offset - r_offset e)) by (unfold is_u32, rend in *; lia).
        eexists. split.
        { eapply (rep_update _ (p ++ [_]) e); [list_simplifier|lens].
          eapply rep_update; done. }
        rewrite !capacity_update, <- (assoc_L (++)).
        split; [|split; [exact Hcap|right]].
        -- apply (wf_replace 1 p e [_; _] q Hwf). wf_tac.
        -- split_and!; try lia. covers_tac Hp Hq.
      * rewrite (u32_small (r_size e - _)) by (unfold is_u32, rend in *; lia).
        rewrite (u32_small (r_size e - _ - _)) by (unfold is_u32, rend in *; lia).
        pose proof (capacity_rep _ _ Hrep).
        eexists. split; [by eapply rep_update|]. split; [|split; [apply capacity_update|right]].
        -- apply (wf_replace 1 p e [_] q Hwf). wf_tac.
        -- split_and!; try (unfold rend in *; lia). covers_tac Hp Hq.
Qed.

(** The loop finds the range that holds the start of the request, if there is one. *)
Lemma reserve_loop_find m p l r offset size :
  rep m (p ++ l) -> wf (p ++ l) -> r = S (length p) -> ~ covers p offset ->
  (reserve_loop m offset size r (length l) = (1, m, 0) /\ ~ covers (p ++ l) offset)
  \/ exists p' e q, p ++ l = p' ++ e :: q /\ r_offset e <= offset < rend e
      /\ reserve_loop m offset size r (length l)
         = reserve_in m (S (length p')) offset size (rend e).
Proof.
  revert p r. induction l as [|e l IH]; intros p r Hrep Hwf Hr Hno; simpl.
  - left. by rewrite app_nil_r.
  - rewrite (rep_lookup _ _ _ _ _ Hrep Hr). wf_split Hwf Hp Hq.
    zcase.
    + left. split; [done|]. rewrite covers_app, covers_cons. specialize (Hq offset).
      unfold in_range, rend in *. intuition lia.
    + rewrite (u32_small (r_offset e + r_size e)) by (unfold is_u32, rend in *; lia).
      destruct (negb _) eqn:Hin; zify_bool.
      * specialize (IH (p ++ [e]) (S r)). rewrite <- (assoc_L (++)) in IH. simpl in IH.
        apply IH; [done|done|subst; lens|].
        rewrite covers_app, covers_cons, covers_nil. unfold in_range.
        destruct Hin; zify_bool; intuition lia.
      * right. exists p, e, l. subst r. split_and!; unfold rend; done || lia.
Qed.

(** A fully free request lies in one range, because ranges do not abut. *)
Lemma covered_in_one l offset size p e q :
  wf l -> l = p ++ e :: q -> r_offset e <= offset < rend e ->
  (forall x, in_range offset size x -> covers l x) -> offset + size <= rend e.
Proof.
  intros Hwf -> He Hcov. wf_split Hwf Hp Hq.
  destruct (decide (offset + size <= rend e)) as [|Hn]; [done|].
  specialize (Hcov (rend e) ltac:(unfold in_range; lia)).
  revert Hcov. specialize (Hp (rend e)). specialize (Hq (rend e)).
  rewrite covers_app, covers_cons. unfold in_range, rend in *. intuition lia.
Qed.

Lemma rmap_reserve_spec m l offset size :
  rep m l -> wf l -> 0 < size -> offset + size < 2 ^ 32 ->
  let '(rc, m', lost) := rmap_reserve m offset size in
  exists l', rep m' l' /\ wf l' /\ capacity m' = capacity m /\
    ((rc = 1 /\ lost = 0 /\ m' = m /\ ~ (forall x, in_range offset size x -> covers l x))
     \/ (rc = 0 /\ (forall x, in_range offset size x -> covers l x) /\ 0 <= lost
         /\ (lost <> 0 -> length l = capacity m /\ ~ covers l (offset - lost - 1))
         /\ (forall x, covers l' x <->
              covers l x /\ ~ in_range (offset - lost) (size + lost) x))).
Proof.
  intros Hrep Hwf Hs Ho. unfold rmap_reserve. rewrite (rcount_rep _ _ Hrep).
  assert (Hnil : ~ covers [] offset) by (rewrite covers_nil; tauto).
  destruct (reserve_loop_find m [] l 1%nat offset size Hrep Hwf eq_refl Hnil) as
    [[-> Hno]|(p & e & q & Heq & He & ->)].
  - exists l. split_and!; try done. left. split_and!; try done.
    intros Hall. apply Hno, Hall. unfold in_range. lia.
  - simpl in Heq. subst l.
    pose proof (reserve_in_correct m p e q _ offset size Hrep Hwf eq_refl Hs Ho He) as Hin.
    destruct (reserve_in _ _ _ _ _) as [[rc m'] lost].
    destruct Hin as (l' & ? & ? & ? & [(-> & -> & -> & Hout)|(-> & Hin & Hlost & Hfull & Hcov)]);
      exists l'; split_and!; try done; [left|right].
    + split_and!; try done. intros Hall.
      pose proof (covered_in_one _ _ _ p e q Hwf eq_refl He Hall). lia.
    + wf_split Hwf Hp Hq. split_and!; try done.
      * covers_tac Hp Hq.
      * intros Hl. destruct (Hfull Hl) as [? Heq]. split; [done|].
        rewrite covers_app, covers_cons. specialize (Hp (offset - lost - 1)).
        specialize (Hq (offset - lost - 1)). unfold in_range, rend in *. intuition lia.
Qed.

(** The gap leads to the first aligned offset of the range. *)
Lemma align_gap_spec i e align :
  0 < align < 2 ^ 32 -> r_offset e <= i ->
  0 <= align_gap e align < align /\ (r_offset e + align_gap e align) mod align = 0
  /\ (i mod align = 0 -> r_offset e + align_gap e align <= i).
Proof.
  intros Ha Hi. unfold align_gap.
  pose proof (Z.mod_pos_bound (r_offset e) align ltac:(lia)).
  pose proof (Z.div_mod (r_offset e) align ltac:(lia)) as Hdm.
  pose proof (Z.div_mod i align ltac:(lia)) as Hdi.
  zcase.
  - split_and!; [lia|lia|by rewrite Z.add_0_r|lia].
  - rewrite u32_small by (unfold is_u32; lia). split_and!; [lia|lia| |].
    + replace (r_offset e + (align - r_offset e mod align))
        with ((r_offset e / align + 1) * align) by lia.
      apply Z.mod_mul. lia.
    + intros Hm. rewrite Hm in Hdi.
      assert (r_offset e / align < i / align) by (apply (Z.mul_lt_mono_pos_l align); lia).
      pose proof (Z.mul_le_mono_nonneg_l (r_offset e / align + 1) (i / align) align). lia.
Qed.

Lemma rmap_alloc_align_spec m l size align :
  rep m l -> wf l -> 0 < size -> 0 < align -> size + align < 2 ^ 32 ->
  let '(idx, m', lost) := rmap_alloc_align m size align in
  exists l', rep m' l' /\ wf l' /\ capacity m' = capacity m /\
    ((idx = 0 /\ m' = m /\ lost = 0
      /\ forall i, i mod align = 0 -> ~ (forall x, in_range i size x -> covers l x))
     \/ (idx <> 0 /\ idx mod align = 0 /\ (forall x, in_range idx size x -> covers l x)
         /\ 0 <= lost /\ (lost <> 0 -> length l = capacity m)
         /\ (forall x, covers l' x <-> covers l x /\ ~ in_range (idx - lost) (size + lost) x))).
Proof.
  intros Hrep Hwf Hs Ha Hsum. unfold rmap_alloc_align.
  pose proof (slot_scan_result (fun e => u32 (size + align_gap e align) <=? r_size e) _ _ Hrep)
    as Hr; simpl in Hr.
  set (r := slot_scan _ _ _ _) in *.
  destruct (first_fit _ l) as [[[p e] q]|].
  - destruct Hr as (Hl & Hfit & Hno & -> & -> & ->). zify_bool.
    pose proof Hwf as Hwf'. rewrite Hl in Hwf'. wf_split Hwf' Hp Hq.
    destruct (align_gap_spec (r_offset e) e align) as (Hg & Hmod & _); [lia|lia|].
    rewrite u32_small in Hfit by (unfold is_u32; lia).
    rewrite (u32_small (r_offset e + _)) by (unfold is_u32, rend in *; lia).
    set (idx := r_offset e + align_gap e align) in *.
    pose proof (rmap_reserve_spec m l idx size Hrep Hwf Hs) as Hres.
    destruct (rmap_reserve m idx size) as [[rc m'] lost].
    destruct Hres as (l' & ? & ? & ? & [(-> & -> & -> & Hno')|(-> & Hall & Hlost & Hfull & Hcov)]);
      [unfold rend in *; lia| |].
    + destruct Hno'. intros x Hx. rewrite Hl, covers_app, covers_cons.
      right. left. unfold in_range, rend in *. lia.
    + exists l'. split_and!; try done. right. simpl. split_and!; try done; [lia|naive_solver].
  - destruct Hr as [-> Hno]. exists l. split_and!; try done. left. split_and!; try done.
    intros i Hi Hall. assert (Hci : covers l i) by (apply Hall; unfold in_range; lia).
    destruct Hci as (e & He & Hin). pose proof He as He'.
    apply list_elem_of_split in He as (p & q & Hl).
    rewrite Forall_forall in Hno. specialize (Hno e He'). simpl in Hno. zify_bool.
    unfold in_range in Hin.
    pose proof (covered_in_one l i size p e q Hwf Hl ltac:(unfold rend; lia) Hall).
    pose proof Hwf as Hwf'. rewrite Hl in Hwf'. wf_split Hwf' Hp Hq.
    destruct (align_gap_spec i e align) as (Hg & _ & Hleast); [lia|lia|].
    rewrite u32_small in Hno by (unfold is_u32; lia).
    specialize (Hleast Hi). unfold rend in *. lia.
Qed.

(** For a list built from a well-formed one, and for what such a list covers. *)
Ltac wf_build :=
  simpl in *; unfold rend in *; simpl in *; intuition (try lia);
  try (eapply wf_mono; [|eassumption]; simpl; lia).

Ltac free_covers :=
  let x := fresh "x" in
  intros x; rewrite ?covers_cons, ?covers_nil in *; unfold in_range, rend in *; simpl in *;
  intuition lia.

(** Freeing on the list: the result is well-formed and covers the freed range too. *)
Lemma free_spec_correct lo l offset size :
  wf_from lo l -> lo <= offset -> 0 < size -> offset + size < 2 ^ 32 ->
  (forall x, in_range offset size x -> ~ covers l x) ->
  wf_from lo (free_spec offset size l)
  /\ (forall x, covers (free_spec offset size l) x <-> covers l x \/ in_range offset size x).
Proof.
  revert lo. induction l as [|e l IH]; intros lo; cbn [free_spec].
  { intros. split; [wf_tac|]. intros x. rewrite covers_cons, covers_nil. simpl. tauto. }
  intros Hwf Hlo Hs Ho Hdis.
  pose proof Hwf as (Hlo' & Hse & Hre & Hwfl).
  assert (Hde : offset + size <= r_offset e \/ rend e <= offset).
  { pose proof (Hdis (r_offset e)) as H1. pose proof (Hdis offset) as H2.
    rewrite covers_cons in H1, H2. unfold in_range, rend in *. lia. }
  assert (Hdl : forall x, in_range offset size x -> ~ covers l x)
    by (intros x Hx ?; apply (Hdis x Hx); rewrite covers_cons; tauto).
  zcase; [|zcase; [|zcase]].
  - destruct l as [|e1 l'].
    + split; [wf_build|free_covers].
    + assert (offset + size <= r_offset e1).
      { pose proof (Hdl (r_offset e1)) as H1. rewrite covers_cons in H1.
        simpl in Hwfl. unfold in_range, rend in *. lia. }
      zcase; (split; [wf_build|free_covers]).
  - split; [wf_build|free_covers].
  - split; [wf_build|free_covers].
  - destruct (IH (rend e + 1)) as [Hwf2 Hcov]; [done|unfold rend in *; lia|done|done|done|].
    split; [done|]. intros x. rewrite !covers_cons, Hcov. tauto.
Qed.

(** [free_coalesce] deletes the next range after adding its size to this one. *)
Lemma free_coalesce_rep m p e q r :
  rep m (p ++ e :: q) -> r = S (length p) -> wf (p ++ q) ->
  0 < r_size e -> rend e < 2 ^ 32 -> 0 <= r_offset e ->
  (forall e1, head q = Some e1 -> r_size e + r_size e1 < 2 ^ 32) ->
  let m' := free_coalesce m r (length (p ++ e :: q)) in
  capacity m' = capacity m /\
  rep m' (p ++ match q with
               | e1 :: q' => if rend e =? r_offset e1
                             then Rent (r_offset e) (r_size e + r_size e1) :: q' else e :: q
               | [] => [e]
               end).
Proof.
  intros Hrep Hr Hwf Hs He Ho Hsum. unfold free_coalesce. simpl.
  rewrite (rep_lookup _ _ _ _ _ Hrep Hr), (u32_small (r_offset e + r_size e))
    by (unfold is_u32, rend in *; lia).
  destruct q as [|e1 q].
  { rewrite (proj2 (Nat.ltb_ge r _)) by (subst; lens). done. }
  rewrite (proj2 (Nat.ltb_lt r _)) by (subst; lens). simpl.
  assert (rep m ((p ++ [e]) ++ e1 :: q)) as Hrep1 by (by rewrite <- (assoc_L (++))).
  rewrite (rep_lookup _ _ _ _ _ Hrep1) by (subst; lens). fold (rend e). zcase; [|done].
  apply wf_around in Hwf as (_ & _ & _ & ? & ?).
  rewrite u32_small by (unfold is_u32; specialize (Hsum e1 eq_refl); lia).
  pose proof (rep_update m p e (Rent (r_offset e) (r_size e + r_size e1)) _ r Hrep Hr) as Hu.
  rewrite (cons_middle _ p), (assoc_L (++)) in Hu.
  destruct (collapse_rep _ _ _ _ (S r) Hu) as [Hc Hcap]; [subst; lens|].
  rewrite capacity_update in Hcap. rewrite <- (assoc_L (++)) in Hc.
  unfold collapse in Hc, Hcap. rewrite (rcount_rep _ _ Hu) in Hc, Hcap.
  replace (length (p ++ e :: e1 :: q))
    with (length ((p ++ [Rent (r_offset e) (r_size e + r_size e1)]) ++ e1 :: q)) by lens.
  done.
Qed.

Lemma free_loop_rep m p l r offset size :
  rep m (p ++ l) -> wf (p ++ l) -> r = S (length p) ->
  0 <= offset -> 0 < size -> offset + size < 2 ^ 32 ->
  (forall x, in_range offset size x -> ~ covers l x) ->
  match free_loop m offset size (length (p ++ l)) r (length l) with
  | inl m' => rep m' (p ++ free_spec offset size l) /\ capacity m' = capacity m
      /\ (length (p ++ free_spec offset size l) <= length (p ++ l))%nat
  | inr r' => exists p' q, l = p' ++ q /\ r' = S (length (p ++ p'))
      /\ free_spec offset size l = p' ++ Rent offset size :: q
  end.
Proof.
  revert p r. induction l as [|e l IH]; intros p r Hrep Hwf Hr H0 Hs Ho Hdis; simpl.
  { exists [], []. rewrite !app_nil_r. auto. }
  rewrite (rep_lookup _ _ _ _ _ Hrep Hr). wf_split Hwf Hp Hq. fold (rend e).
  rewrite (u32_small (rend e)), (u32_small (offset + size)) by (unfold is_u32, rend in *; lia).
  assert (Hdl : forall x, in_range offset size x -> ~ covers l x)
    by (intros x Hx ?; apply (Hdis x Hx); rewrite covers_cons; tauto).
  zcase; [|zcase; [|zcase]].
  - rewrite (u32_small (r_size e + size)) by (unfold is_u32, rend in *; lia).
    assert (Hnext : forall e1, head l = Some e1 ->
      offset + size <= r_offset e1 /\ rend e1 < 2 ^ 32 /\ wf (p ++ l)).
    { intros e1 Hh. destruct l as [|e1' l]; [done|]. injection Hh as ->.
      pose proof (Hdl (r_offset e1)) as Hd. rewrite covers_cons in Hd.
      pose proof Hwf as (_ & _ & _ & _ & Hwl)%wf_app. simpl in Hwl.
      specialize (wf_replace 1 p e [] (e1 :: l) Hwf). simpl. intros Hw.
      unfold in_range, rend in *. split_and!; [lia|lia|apply Hw; simpl; lia]. }
    assert (wf (p ++ l)) as Hwfl.
    { apply (wf_replace 1 p e [] l Hwf). simpl. unfold rend in *. lia. }
    pose proof (rep_update m p e (Rent (r_offset e) (r_size e + size)) _ r Hrep Hr) as Hu.
    destruct (free_coalesce_rep _ _ _ _ _ Hu Hr Hwfl) as [Hcap Hc]; simpl.
    1-3: unfold rend in *; simpl; lia.
    { intros e1 (?&?&_)%Hnext. unfold rend in *. lia. }
    rewrite capacity_update in Hcap.
    replace (length (p ++ Rent (r_offset e) (r_size e + size) :: l))
      with (length (p ++ e :: l)) in Hc, Hcap by lens.
    unfold rend in Hc at 1. simpl in Hc. rewrite Z.add_assoc in Hc.
    split; [|split; [exact Hcap|]]; [|destruct l; [lens|zcase; lens]].
    unfold rend. destruct l as [|e1 l]; [done|]. done.
  - rewrite (u32_small (r_size e + size)) by (unfold is_u32, rend in *; lia).
    split; [by eapply rep_update|]. rewrite capacity_update. split; [done|lens].
  - exists [], (e :: l). rewrite app_nil_r. auto.
  - specialize (IH (p ++ [e]) (S r)). rewrite <- !(assoc_L (++)) in IH. simpl in IH.
    specialize (IH Hrep Hwf ltac:(subst; lens) H0 Hs Ho Hdl).
    destruct (free_loop _ _ _ _ _ _).
    + done.
    + destruct IH as (p' & q & -> & -> & ->). exists (e :: p'), q.
      rewrite <- (assoc_L (++)). auto.
Qed.

Lemma rmap_free_spec m l offset size :
  rep m l -> wf l -> 0 < offset -> 0 < size -> offset + size < 2 ^ 32 ->
  (forall x, in_range offset size x -> ~ covers l x) ->
  let '(m', lost) := rmap_free m offset size in
  exists l', rep m' l' /\ wf l' /\ capacity m' = capacity m /\
    ((lost = 0 /\ forall x, covers l' x <-> covers l x \/ in_range offset size x)
     \/ (lost = size /\ l' = l /\ length l = capacity m)).
Proof.
  intros Hrep Hwf H0 Hs Ho Hdis. unfold rmap_free. rewrite (rcount_rep _ _ Hrep).
  destruct (free_spec_correct 1 l offset size Hwf) as [Hwf' Hcov]; [lia|done|done|done|].
  pose proof (free_loop_rep m [] l 1%nat offset size Hrep Hwf eq_refl) as Hl.
  specialize (Hl ltac:(lia) Hs Ho Hdis). simpl in Hl.
  destruct (free_loop _ _ _ _ _ _) as [m'|r].
  - destruct Hl as (? & ? & ?). exists (free_spec offset size l). split_and!; auto.
  - destruct Hl as (p & q & -> & -> & Heq).
    pose proof (makespace_rep m p q _ Hrep eq_refl) as Hm.
    destruct (makespace _ _) as [m1|].
    + destruct Hm as (x & Hm & Hcap & _). exists (free_spec offset size (p ++ q)).
      split_and!; auto; [|by rewrite capacity_update].
      rewrite Heq. by eapply rep_update.
    + exists (p ++ q). split_and!; auto. right. pose proof (capacity_rep _ _ Hrep). split_and!; auto; lia.
Qed.

Lemma status_loop_spec m p l r offset size :
  rep m (p ++ l) -> wf (p ++ l) -> r = S (length p) ->
  0 < size -> offset + size < 2 ^ 32 -> 0 <= offset ->
  let s := status_loop m offset size r (length l) in
  (s = 0 /\ (forall x, in_range offset (size + 1) x -> covers l x))
  \/ (s = 1 /\ (forall x, in_range offset size x -> ~ covers l x))
  \/ (s = -1 /\ (exists x, in_range offset size x /\ covers l x)
      /\ ~ (forall x, in_range offset (size + 1) x -> covers l x)).
Proof.
  revert p r. induction l as [|e l IH]; intros p r Hrep Hwf Hr Hs Ho H0; simpl.
  { right. left. split; [done|]. intros x _. rewrite covers_nil. tauto. }
  rewrite (rep_lookup _ _ _ _ _ Hrep Hr). wf_split Hwf Hp Hq. fold (rend e).
  rewrite (u32_small (rend e)), (u32_small (offset + size)) by (unfold is_u32, rend in *; lia).
  zcase; [zcase|].
  - right. right. split; [done|]. split.
    + exists (r_offset e). rewrite covers_cons. unfold in_range. lia.
    + intros Hall. specialize (Hall offset ltac:(unfold in_range; lia)). rewrite covers_cons in Hall.
      specialize (Hq offset). unfold in_range, rend in *. intuition lia.
  - right. left. split; [done|]. intros x Hx. rewrite covers_cons. specialize (Hq x).
    unfold in_range, rend in *. intuition lia.
  - destruct (negb _) eqn:Hin; zify_bool; [|zcase].
    + specialize (IH (p ++ [e]) (S r)). rewrite <- (assoc_L (++)) in IH. simpl in IH.
      assert (rend e <= offset) by (destruct Hin; zify_bool; lia).
      assert (Hsh : forall x, offset <= x -> covers (e :: l) x <-> covers l x).
      { intros x Hx. rewrite covers_cons. unfold in_range, rend in *. intuition lia. }
      destruct IH as [(-> & Hc)|[(-> & Hc)|(-> & (x & Hx & Hc) & Hn)]];
        [done|done|subst; lens|done|done|done| | |].
      * left. split; [done|]. intros x Hx. apply Hsh; [unfold in_range in Hx; lia|auto].
      * right. left. split; [done|]. intros x Hx. rewrite Hsh; [auto|unfold in_range in Hx; lia].
      * right. right. split; [done|]. split.
        -- exists x. split; [done|]. apply Hsh; [unfold in_range in Hx; lia|done].
        -- intros Hall. apply Hn. intros y Hy. apply Hsh; [unfold in_range in Hy; lia|auto].
    + left. split; [done|]. intros x Hx. rewrite covers_cons. unfold in_range, rend in *. lia.
    + right. right. split; [done|]. split.
      * exists offset. rewrite covers_cons. unfold in_range, rend in *. lia.
      * intros Hall. specialize (Hall (rend e) ltac:(unfold in_range; lia)).
        rewrite covers_cons in Hall.
        specialize (Hq (rend e)). unfold in_range, rend in *. intuition lia.
Qed.

(** Of a range below [2^32], [rmap_status] answers 0 only when the range and the
    offset after it are free, 1 exactly when no offset of it is free, and -1 in the
    other cases; so a free range that ends where its entry ends is reported as
    partly allocated. *)
Lemma rmap_status_spec m l offset size :
  rep m l -> wf l -> 0 < size -> offset + size < 2 ^ 32 -> 0 <= offset ->
  let s := rmap_status m offset size in
  (s = 0 /\ (forall x, in_range offset (size + 1) x -> covers l x))
  \/ (s = 1 /\ (forall x, in_range offset size x -> ~ covers l x))
  \/ (s = -1 /\ (exists x, in_range offset size x /\ covers l x)
      /\ ~ (forall x, in_range offset (size + 1) x -> covers l x)).
Proof.
  intros Hrep Hwf Hs Ho H0. unfold rmap_status. rewrite (rcount_rep _ _ Hrep).
  by apply (status_loop_spec m [] l).
Qed.

Lemma rmap_init_rep m :
  m <> [] -> Z.of_nat (length m) < 2 ^ 32 -> rep (rmap_init m (Z.of_nat (length m))) [].
Proof.
  intros Hm Hlt. destruct m as [|h m]; [done|]. unfold rmap_init. cbn [insert list_insert].
  apply rep_intro with m; [done| |done|]; rewrite u32_small; unfold is_u32; lens.
Qed.

Lemma held_cons o s own x :
  held ((o, s) :: own) x = (Nat.b2n (bool_decide (in_range o s x)) + held own x)%nat.
Proof. unfold held. by rewrite countb_cons. Qed.

Lemma covers_range l x : wf l -> covers l x -> 0 < x /\ x + 1 < 2 ^ 32.
Proof.
  intros Hwf (e & He & Hx). apply list_elem_of_split in He as (p & q & ->).
  wf_split Hwf Hp Hq. unfold in_range, rend in *. lia.
Qed.

Lemma rclients_init m l : rep m l -> wf l -> rclients_ok l (RClients m [] 0) l.
Proof.
  intros. constructor; try done; simpl; intros; unfold held, countb in *; simpl in *; auto; lia.
Qed.

(** A range that was free goes to a client, together with [more] lost offsets below it. *)
Lemma rclients_take l0 m own lost l m' l' off size more :
  rclients_ok l0 (RClients m own lost) l -> rep m' l' -> wf l' -> 0 < size -> 0 <= more ->
  (forall x, in_range off size x -> covers l x) ->
  (forall x, covers l' x <-> covers l x /\ ~ in_range (off - more) (size + more) x) ->
  rclients_ok l0 (RClients m' ((off, size) :: own) (lost + more)) l'.
Proof.
  intros [_ Hwf Hl Hown Hone Hfree Hheld Hall] Hrep' Hwf' Hs Hm Hin Hcov; simpl in *.
  assert (Hr : 0 < off /\ off + size < 2 ^ 32).
  { pose proof (covers_range l off Hwf (Hin off ltac:(unfold in_range; lia))).
    pose proof (covers_range l _ Hwf (Hin (off + size - 1) ltac:(unfold in_range; lia))). lia. }
  constructor; simpl; try done; try lia;
    [apply Forall_cons; simpl; split; [lia|done]|..].
  - intros x. rewrite held_cons. specialize (Hone x). case_bool_decide as Hx; simpl; [|lia].
    destruct (Hfree x (Hin x Hx)). lia.
  - intros x [Hc Hn]%Hcov. rewrite held_cons, bool_decide_false by (unfold in_range in *; lia).
    by apply Hfree.
  - intros x. rewrite held_cons. case_bool_decide as Hx; simpl; [|apply Hheld]. intros _.
    by apply Hfree, Hin.
  - intros H0 x. assert (more = 0) as -> by lia. specialize (Hall ltac:(lia) x).
    intros Hx%Hall. rewrite held_cons, Hcov.
    replace (off - 0) with off by lia. replace (size + 0) with size by lia.
    case_bool_decide; simpl; [right; lia|tauto].
Qed.

Lemma rclients_give l0 m a off size b lost l m' more :
  rclients_ok l0 (RClients m (a ++ (off, size) :: b) lost) l ->
  rmap_free m off size = (m', more) ->
  exists l', rclients_ok l0 (RClients m' (a ++ b) (lost + more)) l'.
Proof.
  intros [Hrep Hwf Hl Hown Hone Hfree Hheld Hall] Hf; simpl in *.
  rewrite Forall_app, Forall_cons in Hown. destruct Hown as (Ha & (H0 & Hs & Hr) & Hb). simpl in *.
  assert (Hcnt : forall x, held (a ++ (off, size) :: b) x
    = (Nat.b2n (bool_decide (in_range off size x)) + held (a ++ b) x)%nat).
  { intros x. unfold held. rewrite !countb_app, countb_cons. simpl. lia. }
  assert (Hdis : forall x, in_range off size x -> ~ covers l x).
  { intros x Hx [Hc _]%Hfree. rewrite Hcnt, bool_decide_true in Hc by done. simpl in Hc. lia. }
  pose proof (rmap_free_spec m l off size Hrep Hwf H0 Hs Hr Hdis) as Hfr. rewrite Hf in Hfr.
  destruct Hfr as (l' & Hrep' & Hwf' & _ & Hcase). exists l'.
  assert (Hmore : 0 <= more) by (destruct Hcase as [[-> _]|[-> _]]; lia).
  assert (Hsub : forall x, covers l' x -> covers l x \/ in_range off size x)
    by (intros x; destruct Hcase as [[_ Hc]|(_ & -> & _)]; [rewrite Hc|]; tauto).
  constructor; simpl; try done; try lia; [by apply Forall_app|..].
  - intros x. specialize (Hone x). rewrite Hcnt in Hone. lia.
  - intros x. specialize (Hone x). specialize (Hfree x). specialize (Hheld x).
    rewrite Hcnt in Hone, Hfree, Hheld. intros [Hc|Hc]%Hsub; [destruct Hfree; [done|]; split; [lia|done]|].
    rewrite bool_decide_true in * by done. simpl in *. split; [lia|apply Hheld; lia].
  - intros x Hx. apply Hheld. rewrite Hcnt. lia.
  - intros Hz x Hx. destruct Hcase as [[-> Hc]|(-> & _)]; [|lia].
    destruct (Hall ltac:(lia) x Hx) as [Hy|Hy]; [left; apply Hc; tauto|]. rewrite Hcnt in Hy.
    rewrite Hc. case_bool_decide; [tauto|right; simpl in Hy; lia].
Qed.

Lemma rclients_step l0 c c' l : rstep c c' -> rclients_ok l0 c l -> exists l', rclients_ok l0 c' l'.
Proof.
  intros Hs Hok. destruct Hs as [m own lost size idx m' Hs Ha
    |m own lost size align idx m' more Hs Hal Hsum Ha|m own lost off size rc m' more Hs Hsum Ha|].
  - destruct (rmap_alloc_spec m l size idx m' (co_rep _ _ _ Hok) (co_wf _ _ _ Hok) Hs Ha)
      as (l' & Hrep & Hwf & _ & [(-> & -> & _)|(Hne & Hin & Hc & _)]).
    + exists l. destruct Hok; constructor; done.
    + rewrite (proj2 (Z.eqb_neq _ _)) by done. exists l'. rewrite <- (Z.add_0_r lost).
      eapply rclients_take; eauto; [lia|lia|]. intros x. rewrite Hc, Z.sub_0_r, Z.add_0_r. done.
  - pose proof (rmap_alloc_align_spec m l size align (co_rep _ _ _ Hok) (co_wf _ _ _ Hok)) as Hsp.
    specialize (Hsp Hs Hal Hsum). rewrite Ha in Hsp.
    destruct Hsp as (l' & Hrep & Hwf & _ & [(-> & -> & -> & _)|(Hne & _ & Hin & Hm & _ & Hc)]).
    + exists l. rewrite Z.add_0_r. destruct Hok; constructor; done.
    + rewrite (proj2 (Z.eqb_neq _ _)) by done. exists l'. eapply rclients_take; eauto.
  - pose proof (rmap_reserve_spec m l off size (co_rep _ _ _ Hok) (co_wf _ _ _ Hok) Hs Hsum) as Hsp.
    rewrite Ha in Hsp.
    destruct Hsp as (l' & Hrep & Hwf & _ & [(-> & -> & -> & _)|(-> & Hin & Hm & _ & Hc)]).
    + exists l. rewrite Z.add_0_r. destruct Hok; constructor; done.
    + exists l'. eapply rclients_take; eauto.
  - by eapply rclients_give.
Qed.

(** C6: whatever its clients allocate, reserve and give back, two ranges they hold
    never overlap, no free range overlaps one they hold, and as long as no space was
    given up for want of a slot, every offset of the initial map is free or held. *)
Theorem rmap_ownership m0 l0 m own lost :
  rep m0 l0 -> wf l0 -> rtc rstep (RClients m0 [] 0) (RClients m own lost) ->
  exists l, rclients_ok l0 (RClients m own lost) l.
Proof.
  intros Hrep Hwf Hr.
  refine (rtc_ind_r (fun c => exists l, rclients_ok l0 c l) (RClients m0 [] 0) _ _ _ Hr).
  - exists l0. by apply rclients_init.
  - intros c c' _ Hs [l Hok]. by eapply rclients_step.
Qed.

(** Space that was just allocated can be given back, and unless the map has no
    slot left for it, the free space is then what it was before. *)
Lemma rmap_alloc_free_roundtrip m l size idx m' :
  rep m l -> wf l -> 0 < size < 2 ^ 32 -> rmap_alloc m size = (idx, m') -> idx <> 0 ->
  let '(m'', lost) := rmap_free m' idx size in
  lost = 0 -> exists l'', rep m'' l'' /\ wf l'' /\ forall x, covers l'' x <-> covers l x.
Proof.
  intros Hrep Hwf Hs Ha Hidx.
  destruct (rmap_alloc_spec _ _ _ _ _ Hrep Hwf Hs Ha)
    as (l1 & Hrep1 & Hwf1 & _ & [[? _]|(_ & Hin & Hcov & p & e & q & Hl & Hi & _)]); [done|].
  assert (0 < idx /\ idx + size < 2 ^ 32) as [? ?].
  { rewrite Hl in Hwf. wf_split Hwf Hp Hq. split; [lia|].
    pose proof (covered_in_one l idx size p e q) as Hone. subst l.
    specialize (Hone Hwf eq_refl ltac:(unfold rend; lia) Hin). lia. }
  pose proof (rmap_free_spec m' l1 idx size Hrep1 Hwf1) as Hf.
  specialize (Hf ltac:(lia) ltac:(lia) ltac:(lia)).
  specialize (Hf ltac:(intros x Hx; rewrite Hcov; tauto)).
  destruct (rmap_free m' idx size) as [m'' lost]. intros ->.
  destruct Hf as (l'' & ? & ? & _ & [[_ Hc]|[? _]]); [|lia].
  exists l''. split_and!; try done. intros x. rewrite Hc, Hcov.
  destruct (decide (in_range idx size x)); [|tauto]. specialize (Hin x). tauto.
Qed.

(** ** Witnesses *)

(** A map with four slots, after [rmap_init], [rmap_free] of the range at 20 and
    [rmap_free] of the one at 5. *)
Definition ex_map : list rent :=
  (rmap_free (rmap_free (rmap_init (replicate 5 (Rent 0 0)) 5) 20 10).1 5 4).1.
Definition ex_ranges : list rent := [Rent 5 4; Rent 20 10].

Lemma ex_map_rep : rep ex_map ex_ranges.
Proof. exists [Rent 0 0; Rent 0 0]. split; [reflexivity|]. simpl. lia. Qed.

Lemma ex_ranges_wf : wf ex_ranges.
Proof. unfold wf, ex_ranges, rend; simpl. unfold rend; simpl. lia. Qed.

Lemma rmap_ownership_witness :
  exists m lost l, rclients_ok ex_ranges (RClients m [(20, 6)] lost) l.
Proof.
  exists (rmap_alloc ex_map 6).2, 0.
  apply (rmap_ownership ex_map ex_ranges).
  - apply ex_map_rep.
  - apply ex_ranges_wf.
  - apply rtc_once. apply (rstep_alloc ex_map [] 0 6 20); [lia|reflexivity].
Defined.

