(* ===== verification/Pframe.v ===== *)
(** * Pframe: the page frame database of src/src/sys/krnl/pframe.c

    [pfdb] is the array of page frames, [freelist] the head of the list of free
    frames, linked through the [next] member of the union in [struct pageframe].
    A frame pointer is its index in [pfdb]; NULL is [None].  The other members of
    the union ([locks], [size], [owner]) belong to the users of allocated frames
    and are not modelled. *)

From S2P Require Import Prelude.
Local Open Scope krlean_scope.

Record pageframe := PageFrame { pf_tag : Z; pf_next : option nat }.

Record pfstate := PfState {
  pfdb : list pageframe;
  freelist : option nat;
  freemem : Z;
  totalmem : Z;
  maxmem : Z;
}.

(** ['FREE'], ['RESV'], ['BAD'], ['PTAB'] and ['DMA'] as multi-character constants. *)
Definition tag4 (a b c d : Z) : Z :=
  Z.lor (Z.shiftl a 24) (Z.lor (Z.shiftl b 16) (Z.lor (Z.shiftl c 8) d)).
Definition TAG_FREE : Z := tag4 0x46 0x52 0x45 0x45.
Definition TAG_RESV : Z := tag4 0x52 0x45 0x53 0x56.
Definition TAG_BAD : Z := tag4 0 0x42 0x41 0x44.
Definition TAG_PTAB : Z := tag4 0x50 0x54 0x41 0x42.
Definition TAG_DMA : Z := tag4 0 0x44 0x4D 0x41.

Definition NOFRAME : Z := 0xFFFFFFFF.

Definition set_frame (st : pfstate) (i : nat) (f : pageframe) : pfstate :=
  PfState (<[i := f]> (pfdb st)) (freelist st) (freemem st) (totalmem st) (maxmem st).
Definition set_freelist (st : pfstate) (p : option nat) : pfstate :=
  PfState (pfdb st) p (freemem st) (totalmem st) (maxmem st).
Definition set_freemem (st : pfstate) (n : Z) : pfstate :=
  PfState (pfdb st) (freelist st) (u32 n) (totalmem st) (maxmem st).

Definition alloc_pageframe (st : pfstate) (tag : Z) : outcome (Z * pfstate) :=
  if freemem st =? 0 then Panic
  else
    pf <~ deref (freelist st);
    f <~ deref (pfdb st !! pf);
    let st := set_freelist st (pf_next f) in
    let st := set_freemem st (freemem st - 1) in
    Ret (Z.of_nat pf, set_frame st pf (PageFrame tag None)).

(** [for (n = 0; n < pages; n++)]: does the run of frames from [pf] consist of
    [n] more free frames, each the list successor of the one before it? *)
Fixpoint run_ok (db : list pageframe) (pf k n : nat) : outcome bool :=
  match n with
  | O => Ret true
  | S n' =>
      f <~ deref (db !! (pf + k)%nat);
      if negb (pf_tag f =? TAG_FREE) then Ret false
      else if (0 <? k)%nat then
        g <~ deref (db !! (pf + k - 1)%nat);
        if bool_decide (pf_next g = Some (pf + k)%nat) then run_ok db pf (S k) n' else Ret false
      else run_ok db pf (S k) n'
  end.

Fixpoint tag_run (st : pfstate) (tag : Z) (pf n : nat) : pfstate :=
  match n with
  | O => st
  | S n' => tag_run (set_frame st pf (PageFrame tag None)) tag (S pf) n'
  end.

Definition take_run (st : pfstate) (tag : Z) (prevpf : option nat) (pf pages : nat)
    : outcome (Z * pfstate) :=
  lst <~ deref (pfdb st !! (pf + pages - 1)%nat);
  st <~ match prevpf with
        | Some prev =>
            f <~ deref (pfdb st !! prev);
            Ret (set_frame st prev (PageFrame (pf_tag f) (pf_next lst)))
        | None => Ret (set_freelist st (pf_next lst))
        end;
  let st := tag_run st tag pf pages in
  Ret (Z.of_nat pf, set_freemem st (freemem st - Z.of_nat pages)).

(** The walk over the free list; the fuel bounds the number of list nodes. *)
Fixpoint linear_loop (fuel : nat) (st : pfstate) (tag : Z) (prevpf pf : option nat) (pages : nat)
    : outcome (Z * pfstate) :=
  match pf with
  | None => Ret (NOFRAME, st)
  | Some p =>
      match fuel with
      | O => Diverge
      | S fuel =>
          ok <~ (if Z.of_nat (p + pages) <? s32 (maxmem st)
                 then run_ok (pfdb st) p 0 pages else Ret false);
          if ok then take_run st tag prevpf p pages
          else
            f <~ deref (pfdb st !! p);
            linear_loop fuel st tag (Some p) (pf_next f) pages
      end
  end.

Definition alloc_linear_pageframes (st : pfstate) (pages : nat) (tag : Z)
    : outcome (Z * pfstate) :=
  if (pages =? 1)%nat then alloc_pageframe st tag
  else if s32 (freemem st) <? Z.of_nat pages then Ret (NOFRAME, st)
  else linear_loop (length (pfdb st)) st tag None (freelist st) pages.

Definition free_pageframe (st : pfstate) (pfn : nat) : outcome pfstate :=
  f <~ deref (pfdb st !! pfn);
  let st := set_frame st pfn (PageFrame TAG_FREE (freelist st)) in
  let st := set_freelist st (Some pfn) in
  Ret (set_freemem st (freemem st + 1)).

(** [tag2str]: the bytes written, with the terminating zero. *)
Definition tag2str (tag : Z) : list Z :=
  (if truthy (Z.land tag 0xFF000000) then [s8 (Z.land (Z.shiftr tag 24) 0xFF)] else [])
  ++ (if truthy (Z.land tag 0x00FF0000) then [s8 (Z.land (Z.shiftr tag 16) 0xFF)] else [])
  ++ (if truthy (Z.land tag 0x0000FF00) then [s8 (Z.land (Z.shiftr tag 8) 0xFF)] else [])
  ++ (if truthy (Z.land tag 0x000000FF) then [s8 (Z.land tag 0xFF)] else [])
  ++ [0].

(** ** The start-up of the database ([init_pfdb]) *)

Definition PAGESIZE : Z := 4096.
Definition MEMTYPE_RAM : Z := 1.
Definition MEMTYPE_RESERVED : Z := 2.
Definition DMA_BUFFER_START : Z := 0x10000.
Definition DMA_BUFFER_PAGES : Z := 16.

Record mementry := MemEntry { me_addr : Z; me_size : Z; me_type : Z }.

Definition set_tag (db : list pageframe) (j : nat) (tag : Z) : outcome (list pageframe) :=
  f <~ deref (db !! j);
  Ret (<[j := PageFrame tag (pf_next f)]> db).

(** [for (; n > 0; n--, j++) pfdb[j].tag = tag], the counted form of the loops
    [for (j = first; j < last; j++)]. *)
Fixpoint set_tags (db : list pageframe) (tag : Z) (j n : nat) : outcome (list pageframe) :=
  match n with
  | O => Ret db
  | S n' => db <~ set_tag db j tag; set_tags db tag (S j) n'
  end.

(** [set_pageframe_tag]: the page table walk [virt2phys] is an argument; the loop
    over [[vaddr, vend)] has fuel for the pages of the interval. *)
Fixpoint set_pageframe_tag_loop (fuel : nat) (virt2phys : Z -> Z) (db : list pageframe)
    (vaddr vend tag : Z) : outcome (list pageframe) :=
  if vaddr <? vend then
    match fuel with
    | O => Diverge
    | S fuel =>
        db <~ set_tag db (Z.to_nat (Z.shiftr (virt2phys vaddr) 12)) tag;
        set_pageframe_tag_loop fuel virt2phys db (u32 (vaddr + PAGESIZE)) vend tag
    end
  else Ret db.

Definition set_pageframe_tag (virt2phys : Z -> Z) (db : list pageframe) (addr len tag : Z)
    : outcome (list pageframe) :=
  set_pageframe_tag_loop (Z.to_nat (len / PAGESIZE + 1)) virt2phys db addr (u32 (addr + len)) tag.

(** One entry of the memory map. *)
Definition add_memory (st : pfstate) (e : mementry) : outcome pfstate :=
  let first := u32 (me_addr e) / PAGESIZE in
  let last := u32 (first + u32 (me_size e) / PAGESIZE) in
  if maxmem st <=? first then Ret st
  else
    let last := if maxmem st <=? last then maxmem st else last in
    let tagged tag := set_tags (pfdb st) tag (Z.to_nat first) (Z.to_nat (last - first)) in
    if me_type e =? MEMTYPE_RAM then
      db <~ tagged TAG_FREE;
      Ret (PfState db (freelist st) (freemem st) (u32 (totalmem st + (last - first))) (maxmem st))
    else if me_type e =? MEMTYPE_RESERVED then
      db <~ tagged TAG_RESV;
      Ret (PfState db (freelist st) (freemem st) (totalmem st) (maxmem st))
    else Ret st.

Fixpoint add_memmap (st : pfstate) (es : list mementry) : outcome pfstate :=
  match es with
  | [] => Ret st
  | e :: es => st <~ add_memory st e; add_memmap st es
  end.

Fixpoint fixup_tags (virt2phys : Z -> Z) (db : list pageframe) (fs : list (Z * Z * Z))
    : outcome (list pageframe) :=
  match fs with
  | [] => Ret db
  | (addr, len, tag) :: fs =>
      db <~ set_pageframe_tag virt2phys db addr len tag; fixup_tags virt2phys db fs
  end.

(** The last loop: from the last frame down to the first, push the free ones. *)
Fixpoint push_free (st : pfstate) (n : nat) : outcome pfstate :=
  match n with
  | O => Ret st
  | S pf =>
      f <~ deref (pfdb st !! pf);
      push_free
        (if pf_tag f =? TAG_FREE then
           let st := set_frame st pf (PageFrame (pf_tag f) (freelist st)) in
           set_freemem (set_freelist st (Some pf)) (freemem st + 1)
         else st) pf
  end.

(** The database part of [init_pfdb], behind the mapping of the database itself:
    all frames bad, the memory map, page 0 reserved, the page tables between
    [heapstart] and [heap], the DMA buffers, the tags of the kernel structures
    ([fixups]: the arguments of the four calls of [set_pageframe_tag]), and the
    free list. *)
Definition init_pfdb (memend heapstart heap : Z) (memmap : list mementry)
    (virt2phys : Z -> Z) (fixups : list (Z * Z * Z)) : outcome pfstate :=
  let maxm := memend / PAGESIZE in
  let db := replicate (Z.to_nat maxm) (PageFrame TAG_BAD None) in
  st <~ add_memmap (PfState db None 0 0 maxm) memmap;
  db <~ set_tag (pfdb st) 0 TAG_RESV;
  let h0 := heapstart / PAGESIZE in
  db <~ set_tags db TAG_PTAB (Z.to_nat h0) (Z.to_nat (heap / PAGESIZE - h0));
  db <~ set_tags db TAG_DMA (Z.to_nat (DMA_BUFFER_START / PAGESIZE)) (Z.to_nat DMA_BUFFER_PAGES);
  db <~ fixup_tags virt2phys db fixups;
  push_free (PfState db None 0 (u32 (totalmem st - 1)) maxm) (Z.to_nat maxm).

(** ** The invariant *)

Definition next_of (db : list pageframe) (i : nat) : option nat := f ← db !! i; pf_next f.

Definition is_free (db : list pageframe) (i : nat) : Prop :=
  exists f, db !! i = Some f /\ pf_tag f = TAG_FREE.

(** [inv st fs]: [fs] are the frames of the free list, in order. *)
Record inv (st : pfstate) (fs : list nat) : Prop := {
  inv_list : seg (next_of (pfdb st)) (freelist st) fs None;
  inv_nodup : NoDup fs;
  inv_free : Forall (is_free (pfdb st)) fs;
  inv_count : freemem st = Z.of_nat (length fs);
  inv_max : maxmem st = Z.of_nat (length (pfdb st));
  inv_bound : Z.of_nat (length (pfdb st)) < 2 ^ 31;
}.

(** What an operation does not touch. *)
Definition same_frames (st st' : pfstate) (touched : nat -> Prop) : Prop :=
  length (pfdb st') = length (pfdb st) /\
  forall i, ~ touched i -> pf_tag <$> pfdb st' !! i = pf_tag <$> pfdb st !! i.

Definition has_tag (st : pfstate) (tag : Z) (i : nat) : Prop :=
  pf_tag <$> pfdb st !! i = Some tag.

(** The four tag fix-ups stay inside the database and never use ['FREE']. *)
Definition fixup_ok (v2p : Z -> Z) (n : Z) (x : Z * Z * Z) : Prop :=
  let '(addr, len, tag) := x in
  0 <= addr /\ 0 <= len /\ addr + len + PAGESIZE < 2 ^ 32 /\ tag <> TAG_FREE
  /\ forall va, addr <= va < addr + len -> 0 <= Z.shiftr (v2p va) 12 < n.

(** A run of [n] frames at consecutive places of the free list, and not the last
    frames of memory. *)
Definition has_run (fs : list nat) (n : nat) (max : Z) : Prop :=
  exists a p b, fs = a ++ seq p n ++ b /\ Z.of_nat (p + n) < max.

(** The allocator's use: [own] are the frames its clients hold.  A client frees
    only a frame it holds. *)
Inductive step : pfstate * gset nat -> pfstate * gset nat -> Prop :=
  | step_alloc st own tag f st' :
      alloc_pageframe st tag = Ret (Z.of_nat f, st') -> step (st, own) (st', {[f]} ∪ own)
  | step_linear st own n tag p st' :
      (0 < n)%nat -> alloc_linear_pageframes st n tag = Ret (Z.of_nat p, st') ->
      Z.of_nat p <> NOFRAME -> step (st, own) (st', list_to_set (seq p n) ∪ own)
  | step_linear_fail st own n tag st' :
      (0 < n)%nat -> alloc_linear_pageframes st n tag = Ret (NOFRAME, st') ->
      step (st, own) (st', own)
  | step_free st own f st' :
      f ∈ own -> free_pageframe st f = Ret st' -> step (st, own) (st', own ∖ {[f]}).

(** ** Lemmas *)

Lemma next_of_insert_ne db i j f : i <> j -> next_of (<[i := f]> db) j = next_of db j.
Proof. intros. unfold next_of. by rewrite list_lookup_insert_ne. Qed.

Lemma next_of_insert_eq db i f : (i < length db)%nat -> next_of (<[i := f]> db) i = pf_next f.
Proof. intros. unfold next_of. by rewrite list_lookup_insert_eq. Qed.

Lemma is_free_insert_ne db i j f : i <> j -> is_free (<[i := f]> db) j <-> is_free db j.
Proof. intros. unfold is_free. by rewrite list_lookup_insert_ne. Qed.

Lemma inv_length st fs : inv st fs -> (length fs <= length (pfdb st))%nat.
Proof.
  intros Hi. cut (fs ⊆+ seq 0 (length (pfdb st))).
  { intros Hs%submseteq_length. by rewrite length_seq in Hs. }
  apply NoDup_submseteq; [apply Hi|].
  intros i Hin. apply elem_of_seq. split; [lia|].
  pose proof (inv_free _ _ Hi) as Hf. rewrite Forall_forall in Hf.
  destruct (Hf i Hin) as (f & Hlk & _). by apply lookup_lt_Some in Hlk.
Qed.

Lemma inv_count_range st fs : inv st fs -> 0 <= freemem st < 2 ^ 31.
Proof.
  intros Hi. pose proof (inv_length _ _ Hi). destruct Hi as [? ? ? -> ? ?]. lia.
Qed.

(** The list and the count after the frame [f] changed, when [f] is not in the list. *)
Lemma list_frame db s fs i x :
  seg (next_of db) s fs None -> Forall (is_free db) fs -> i ∉ fs ->
  seg (next_of (<[i := x]> db)) s fs None /\ Forall (is_free (<[i := x]> db)) fs.
Proof.
  intros Hs Hf Hi. split.
  - eapply seg_ext; [|exact Hs]. intros j Hj. apply next_of_insert_ne. naive_solver.
  - rewrite Forall_forall in Hf |- *. intros j Hj. apply is_free_insert_ne; naive_solver.
Qed.

Lemma alloc_pageframe_spec st fs tag :
  inv st fs ->
  match fs with
  | [] => alloc_pageframe st tag = Panic
  | f :: fs' => exists st', alloc_pageframe st tag = Ret (Z.of_nat f, st')
      /\ inv st' fs' /\ has_tag st' tag f /\ same_frames st st' (eq f)
      /\ totalmem st' = totalmem st
  end.
Proof.
  intros Hi. pose proof (inv_count_range _ _ Hi) as Hr.
  destruct Hi as [Hl Hn Hf Hc Hm Hb]. unfold alloc_pageframe. rewrite Hc in *.
  destruct fs as [|f fs]; [done|]. simpl in Hl. destruct Hl as [-> Hl].
  apply Forall_cons in Hf as [(x & Hx & Htag) Hf]. apply NoDup_cons in Hn as [Hnf Hn].
  rewrite (proj2 (Z.eqb_neq _ 0)) by (simpl; lia). simpl. rewrite Hx. simpl.
  apply lookup_lt_Some in Hx as Hlt.
  assert (next_of (pfdb st) f = pf_next x) as Hnx by (unfold next_of; by rewrite Hx).
  rewrite Hnx in Hl. destruct (list_frame _ _ _ f (PageFrame tag None) Hl Hf Hnf) as [Hl' Hf'].
  eexists. split; [reflexivity|]. split_and!; simpl; try done.
  - constructor; simpl; try rewrite length_insert; try done.
    rewrite u32_small; unfold is_u32; simpl in *; lia.
  - unfold has_tag. simpl. by rewrite list_lookup_insert_eq.
  - split; simpl; [by rewrite length_insert|]. intros i Hi. by rewrite list_lookup_insert_ne.
Qed.

Lemma free_pageframe_spec st fs pfn :
  inv st fs -> (pfn < length (pfdb st))%nat -> pfn ∉ fs ->
  exists st', free_pageframe st pfn = Ret st' /\ inv st' (pfn :: fs)
    /\ same_frames st st' (eq pfn) /\ totalmem st' = totalmem st.
Proof.
  intros Hi Hlt Hnf. pose proof (inv_count_range _ _ Hi) as Hr.
  destruct Hi as [Hl Hn Hf Hc Hm Hb].
  unfold free_pageframe. destruct (lookup_lt_is_Some_2 _ _ Hlt) as [x Hx]. rewrite Hx. simpl.
  destruct (list_frame _ _ _ pfn (PageFrame TAG_FREE (freelist st)) Hl Hf Hnf) as [Hl' Hf'].
  eexists. split; [reflexivity|]. split_and!; simpl; try done.
  - constructor; simpl; try rewrite length_insert; try done.
    + split; [done|]. by rewrite next_of_insert_eq.
    + by apply NoDup_cons.
    + apply Forall_cons. split; [|done]. eexists. by rewrite list_lookup_insert_eq.
    + rewrite u32_small; unfold is_u32; simpl in *; lia.
  - split; simpl; [by rewrite length_insert|]. intros i Hi. by rewrite list_lookup_insert_ne.
Qed.

(** ** Contiguous allocation *)

(** [run_ok] decides whether the free list continues with the frames [pf..pf+n-1]. *)
Lemma run_ok_spec db pf k n m fs :
  (pf + k + n <= length db)%nat -> (n > 0)%nat ->
  seg (next_of db) m fs None -> NoDup fs -> Forall (is_free db) fs ->
  m = Some (pf + k)%nat ->
  (k > 0 -> next_of db (pf + k - 1) = Some (pf + k)%nat)%nat ->
  exists b, run_ok db pf k n = Ret b /\
    (b = true <-> exists rest, fs = seq (pf + k) n ++ rest).
Proof.
  revert k m fs. induction n as [|n IH]; intros k m fs Hlen Hpos Hseg Hnd Hfree Hm Hprev; [lia|].
  destruct fs as [|i fs]; [naive_solver|]. simpl in Hseg. destruct Hseg as [Hs Hseg].
  rewrite Hm in Hs. injection Hs as <-.
  apply Forall_cons in Hfree as [(f & Hf & Htag) Hfree]. apply NoDup_cons in Hnd as [Hni Hnd].
  assert (Hstep : exists b, run_ok db pf (S k) n = Ret b /\
    (b = true <-> exists rest, fs = seq (S (pf + k)) n ++ rest)).
  { destruct n as [|n]; [exists true; simpl; naive_solver|].
    destruct (decide (next_of db (pf + k) = Some (S (pf + k)))) as [Heq|Hne].
    - destruct (IH (S k) _ fs ltac:(lia) ltac:(lia) Hseg Hnd Hfree) as (b & Hb & Hiff).
      + rewrite Heq. f_equal. lia.
      + intros _. replace (pf + S k - 1)%nat with (pf + k)%nat by lia. rewrite Heq. f_equal. lia.
      + exists b. by replace (S (pf + k)) with (pf + S k)%nat by lia.
    - exists false. split.
      + simpl. destruct (lookup_lt_is_Some_2 db (pf + S k)) as [g Hg]; [lia|].
        rewrite Hg. simpl. destruct (negb _); [done|].
        replace (pf + S k - 1)%nat with (pf + k)%nat by lia. rewrite Hf. simpl.
        rewrite bool_decide_eq_false_2; [done|].
        unfold next_of in Hne. rewrite Hf in Hne. simpl in Hne. by rewrite Nat.add_succ_r.
      + split; [done|]. intros [rest ->]. simpl in Hseg. naive_solver. }
  destruct Hstep as (b & Hb & Hiff).
  assert (run_ok db pf k (S n) = Ret b) as Hrun.
  { simpl. rewrite Hf. simpl. rewrite (proj2 (Z.eqb_eq _ _) Htag). simpl.
    destruct (Nat.ltb_spec 0 k); [|done].
    destruct (next_of db (pf + k - 1)) as [x|] eqn:Hx; [|naive_solver lia].
    unfold next_of in Hx. destruct (db !! (pf + k - 1)%nat) as [g|] eqn:Hg; [|done].
    simpl in *. rewrite Hx, Hprev in * by lia. rewrite bool_decide_eq_true_2 by naive_solver.
    done. }
  exists b. split; [exact Hrun|]. rewrite Hiff. naive_solver.
Qed.

Lemma tag_run_spec st tag p n :
  let st' := tag_run st tag p n in
  freelist st' = freelist st /\ freemem st' = freemem st /\ totalmem st' = totalmem st
  /\ maxmem st' = maxmem st /\ length (pfdb st') = length (pfdb st)
  /\ (forall i, ~ (p <= i < p + n)%nat -> pfdb st' !! i = pfdb st !! i)
  /\ (forall i, (p <= i < p + n)%nat -> (i < length (pfdb st))%nat ->
        pfdb st' !! i = Some (PageFrame tag None)).
Proof.
  revert p st. induction n as [|n IH]; intros p st; simpl.
  { split_and!; try done. lia. }
  destruct (IH (S p) (set_frame st p (PageFrame tag None))) as (-> & -> & -> & -> & -> & Ho & Hin).
  simpl. rewrite length_insert. split_and!; try done.
  - intros i Hi. rewrite Ho by lia. simpl. apply list_lookup_insert_ne. lia.
  - intros i Hi Hlt. destruct (decide (i = p)) as [->|].
    + rewrite Ho by lia. simpl. by apply list_lookup_insert_eq.
    + apply Hin; [lia|]. simpl. by rewrite length_insert.
Qed.

Lemma seg_seq_last db p n m s :
  (n > 0)%nat -> seg (next_of db) s (seq p n) m -> next_of db (p + n - 1) = m.
Proof.
  intros Hn. replace n with (S (n - 1)) by lia. rewrite seq_S, seg_app.
  intros (k & _ & _ & <-). f_equal. lia.
Qed.

Lemma take_run_spec st tag a p n b :
  inv st (a ++ seq p n ++ b) -> (n > 0)%nat -> (p + n <= length (pfdb st))%nat ->
  exists st', take_run st tag (last a) p n = Ret (Z.of_nat p, st') /\ inv st' (a ++ b)
    /\ (forall i, (p <= i < p + n)%nat -> has_tag st' tag i)
    /\ same_frames st st' (fun i => p <= i < p + n)%nat /\ totalmem st' = totalmem st.
Proof.
  intros Hi Hn Hlen. pose proof (inv_count_range _ _ Hi) as Hr.
  destruct Hi as [Hl Hnd Hf Hc Hm Hb].
  apply seg_app in Hl as (m1 & Ha & Hl). apply seg_app in Hl as (m2 & Hs & Hbs).
  pose proof (seg_seq_last _ _ _ _ _ Hn Hs) as Hlast.
  apply NoDup_app in Hnd as (Hnda & Hdis1 & Hnd). apply NoDup_app in Hnd as (_ & Hdis2 & Hndb).
  apply Forall_app in Hf as [Hfa Hf]. apply Forall_app in Hf as [_ Hfb].
  assert (Hm1 : m1 = Some p) by (replace n with (S (n - 1)) in Hs by lia; apply Hs). subst m1.
  destruct (lookup_lt_is_Some_2 (pfdb st) (p + n - 1)) as [lst Hlst]; [lia|].
  assert (Hnx : pf_next lst = m2) by (unfold next_of in Hlast; by rewrite Hlst in Hlast).
  unfold take_run. rewrite Hlst. simpl. rewrite Hnx.
  assert (Hcut : exists st1, match last a with
      | Some prev => f <~ deref (pfdb st !! prev);
          Ret (set_frame st prev (PageFrame (pf_tag f) m2))
      | None => Ret (set_freelist st m2) end = Ret st1
    /\ seg (next_of (pfdb st1)) (freelist st1) (a ++ b) None
    /\ Forall (is_free (pfdb st1)) (a ++ b) /\ freemem st1 = freemem st
    /\ maxmem st1 = maxmem st /\ totalmem st1 = totalmem st
    /\ length (pfdb st1) = length (pfdb st)
    /\ forall i, pf_tag <$> pfdb st1 !! i = pf_tag <$> pfdb st !! i).
  { destruct a as [|q a' _] using rev_ind.
    - simpl. exists (set_freelist st m2). split_and!; done.
    - rewrite last_snoc. apply Forall_app in Hfa as [Hfa' Hfq].
      apply Forall_cons in Hfq as [(f & Hfl & Htag) _]. rewrite Hfl. simpl.
      apply lookup_lt_Some in Hfl as Hlt.
      eexists. split; [reflexivity|]. simpl. rewrite length_insert.
      apply NoDup_app in Hnda as (_ & Hdq & _).
      assert (Hqb : q ∉ b).
      { intros Hin. apply (Hdis1 q); set_solver. }
      destruct (list_frame _ _ _ q (PageFrame (pf_tag f) m2) Hbs Hfb Hqb) as [Hbs' Hfb'].
      split_and!; try done.
      + rewrite <- (assoc_L (++)). apply seg_app in Ha as (m & Ha & Hq). apply seg_app.
        exists m. simpl in Hq |- *. destruct Hq as [-> Hq]. split.
        * eapply seg_ext; [|exact Ha]. intros j Hj. apply next_of_insert_ne.
          intros <-. apply (Hdq q); set_solver.
        * split; [done|]. by rewrite next_of_insert_eq.
      + rewrite !Forall_app. split_and!; try done.
        * rewrite Forall_forall in Hfa' |- *. intros j Hj. apply is_free_insert_ne; [|auto].
          intros <-. apply (Hdq q); set_solver.
        * apply Forall_singleton. eexists. by rewrite list_lookup_insert_eq.
      + intros i. destruct (decide (i = q)) as [->|].
        * by rewrite list_lookup_insert_eq, Hfl by done.
        * by rewrite list_lookup_insert_ne. }
  destruct Hcut as (st1 & -> & Hseg & Hfree & Hfm & Hmx & Htm & Hln & Htg). simpl.
  destruct (tag_run_spec st1 tag p n) as (Ht1 & Ht2 & Ht3 & Ht4 & Ht5 & Hout & Hin).
  assert (Hab : forall i, i ∈ a ++ b -> ~ (p <= i < p + n)%nat).
  { intros i [Hia|Hib]%elem_of_app Hrng.
    - apply (Hdis1 i Hia). apply elem_of_app. left. apply elem_of_seq. lia.
    - apply (Hdis2 i); [apply elem_of_seq; lia|done]. }
  eexists. split; [reflexivity|]. split_and!.
  - constructor; simpl; rewrite ?Ht1, ?Ht2, ?Ht4, ?Ht5, ?Hln, ?Hmx; try done.
    + eapply seg_ext; [|exact Hseg]. intros i Hi. unfold next_of. by rewrite Hout by auto.
    + apply NoDup_app. split_and!; [done| |done]. intros i Hia Hib.
      apply (Hdis1 i Hia). set_solver.
    + rewrite Forall_forall in Hfree |- *. intros i Hi. unfold is_free. rewrite Hout by auto. by apply Hfree.
    + rewrite Hfm, Hc. rewrite !length_app, length_seq in *. rewrite u32_small; unfold is_u32; lia.
  - intros i Hi. unfold has_tag. simpl. rewrite Hin by lia. done.
  - split; simpl; [by rewrite Ht5|]. intros i Hi. by rewrite Hout, Htg.
  - simpl. by rewrite Ht3.
Qed.

Lemma linear_loop_spec fuel st tag a l n :
  inv st (a ++ l) -> (n > 0)%nat -> (length l <= fuel)%nat ->
  exists r st', linear_loop fuel st tag (last a) (head l) n = Ret (r, st') /\
    ((r = NOFRAME /\ st' = st /\ ~ has_run l n (maxmem st))
     \/ (exists p a' b, r = Z.of_nat p /\ a ++ l = a' ++ seq p n ++ b
         /\ Z.of_nat (p + n) < maxmem st /\ inv st' (a' ++ b)
         /\ (forall i, (p <= i < p + n)%nat -> has_tag st' tag i)
         /\ same_frames st st' (fun i => p <= i < p + n)%nat /\ totalmem st' = totalmem st)).
Proof.
  revert a l. induction fuel as [|fuel IH]; intros a l Hi Hn Hfuel.
  { destruct l; [|simpl in *; lia]. simpl. do 2 eexists. split; [done|]. left.
    split_and!; try done. intros (x & p & b & Heq & _). destruct x, n; simpl in *; lia || done. }
  destruct l as [|p l]; simpl.
  { do 2 eexists. split; [done|]. left.
    split_and!; try done. intros (x & p & b & Heq & _). destruct x, n; simpl in *; lia || done. }
  pose proof (inv_list _ _ Hi) as Hseg. apply seg_app in Hseg as (m & _ & Hseg).
  pose proof (inv_free _ _ Hi) as Hfree. apply Forall_app in Hfree as [_ Hfree].
  pose proof (inv_nodup _ _ Hi) as Hnd. apply NoDup_app in Hnd as (_ & _ & Hnd).
  pose proof (inv_max _ _ Hi) as Hmax. pose proof (inv_bound _ _ Hi) as Hbnd.
  rewrite s32_small by (rewrite Hmax; unfold is_s32; lia).
  assert (Hok : exists ok, (if Z.of_nat (p + n) <? maxmem st
      then run_ok (pfdb st) p 0 n else Ret false) = Ret ok /\
    (ok = true <-> (exists rest, p :: l = seq p n ++ rest)
                   /\ Z.of_nat (p + n) < maxmem st)).
  { zcase; [|exists false; naive_solver lia].
    destruct (run_ok_spec (pfdb st) p 0 n m (p :: l)) as (ok & Hrun & Hiff); try done; try lia.
    { simpl in Hseg. rewrite Nat.add_0_r. tauto. }
    rewrite Nat.add_0_r in Hiff. exists ok. split; [done|]. tauto. }
  destruct Hok as (ok & -> & Hiff). simpl. destruct ok.
  - destruct (proj1 Hiff eq_refl) as [[b Hb] Hlt]. rewrite Hb in Hi.
    destruct (take_run_spec st tag a p n b Hi) as (st' & -> & ? & ? & ? & ?); [lia|lia|].
    do 2 eexists. split; [reflexivity|]. right. exists p, a, b. rewrite Hb. auto 10.
  - apply Forall_cons in Hfree as [(f & Hf & _) _]. rewrite Hf. simpl.
    assert (pf_next f = head l) as Hh.
    { simpl in Hseg. destruct Hseg as [_ Hseg]. unfold next_of in Hseg. rewrite Hf in Hseg.
      by apply seg_head in Hseg. }
    specialize (IH (a ++ [p]) l). rewrite <- (assoc_L (++)), last_snoc in IH.
    destruct (IH Hi Hn) as (r & st' & Hr & Hcase); [simpl in *; lia|].
    rewrite Hh. exists r, st'. split; [exact Hr|].
    destruct Hcase as [(-> & -> & Hno)|Hyes]; [left|right; exact Hyes].
    split_and!; try done. intros (x & q & b & Heq & Hlt).
    destruct x as [|y x]; simpl in Heq.
    + assert (q = p) as -> by (destruct n; [lia|]; simpl in Heq; naive_solver).
      destruct Hiff as [_ Hiff]. discriminate Hiff. split; [by exists b|done].
    + apply Hno. exists x, q, b. naive_solver.
Qed.

(** ** Start-up *)

Lemma is_free_tag db i : is_free db i <-> pf_tag <$> db !! i = Some TAG_FREE.
Proof.
  unfold is_free. rewrite fmap_Some. split; intros (f & ? & ?); exists f; auto.
Qed.

#[export] Instance is_free_dec db i : Decision (is_free db i).
Proof.
  destruct (decide (pf_tag <$> db !! i = Some TAG_FREE)); [left|right]; rewrite is_free_tag; done.
Defined.

(** [retags db db' tag R]: the frames in [R] got the tag, the others kept theirs. *)
Definition retags (db db' : list pageframe) (tag : Z) (R : nat -> Prop) : Prop :=
  length db' = length db /\
  forall i, (R i -> (i < length db)%nat -> pf_tag <$> db' !! i = Some tag)
            /\ (~ R i -> pf_tag <$> db' !! i = pf_tag <$> db !! i).

Lemma set_tag_spec db j tag :
  (j < length db)%nat -> exists db', set_tag db j tag = Ret db' /\ retags db db' tag (eq j).
Proof.
  intros Hlt. unfold set_tag. destruct (lookup_lt_is_Some_2 _ _ Hlt) as [f Hf].
  rewrite Hf. simpl. eexists. split; [done|]. split; [by rewrite length_insert|].
  intros i. split; intros Hi.
  - subst. intros _. by rewrite list_lookup_insert_eq.
  - by rewrite list_lookup_insert_ne.
Qed.

Lemma set_tags_spec db tag j n :
  (j + n <= length db)%nat \/ n = O ->
  exists db', set_tags db tag j n = Ret db' /\ retags db db' tag (fun i => j <= i < j + n)%nat.
Proof.
  revert db j. induction n as [|n IH]; intros db j Hlen; simpl.
  { exists db. split; [done|]. split; [done|]. intros i. split; [lia|done]. }
  destruct (set_tag_spec db j tag) as (db1 & -> & Hl1 & H1); [lia|]. simpl.
  destruct (IH db1 (S j)) as (db2 & -> & Hl2 & H2); [lia|].
  exists db2. split; [done|]. split; [lia|]. intros i.
  destruct (H1 i) as [H1a H1b]. destruct (H2 i) as [H2a H2b]. split; intros Hi.
  - intros Hlt. destruct (decide (i = j)) as [->|]; [rewrite H2b; [auto|lia]|apply H2a; lia].
  - rewrite H2b by lia. apply H1b. lia.
Qed.

(** Retagging with a tag other than ['FREE'] frees no frame. *)
Lemma retags_nonfree db db' tag R :
  retags db db' tag R -> tag <> TAG_FREE ->
  (forall i, is_free db' i -> is_free db i)
  /\ (forall i, R i -> (i < length db)%nat -> ~ is_free db' i).
Proof.
  intros [Hl Hr] Ht. split; intros i; rewrite !is_free_tag.
  - destruct (Hr i) as [Hin Hout]. destruct (db' !! i) eqn:Hi; [|done].
    apply lookup_lt_Some in Hi as Hlt. intros Hfree.
    destruct (db !! i) as [f|] eqn:Hf; [|apply lookup_ge_None in Hf; lia]. simpl in *.
    destruct (decide (pf_tag f = TAG_FREE)) as [->|Hne]; [done|].
    rewrite <- Hfree. symmetry. apply Hout. intros HR. naive_solver lia.
  - intros HR Hlt. destruct (Hr i) as [Hin _]. rewrite Hin by done. naive_solver.
Qed.

Lemma set_pageframe_tag_spec v2p db addr len tag :
  0 <= addr -> 0 <= len -> addr + len + PAGESIZE < 2 ^ 32 -> tag <> TAG_FREE ->
  (forall va, addr <= va < addr + len ->
     0 <= Z.shiftr (v2p va) 12 < Z.of_nat (length db)) ->
  exists db', set_pageframe_tag v2p db addr len tag = Ret db' /\ length db' = length db
    /\ (forall i, is_free db' i -> is_free db i).
Proof.
  intros H0 Hl Hb Htag Hv. unfold set_pageframe_tag.
  rewrite u32_small by (unfold is_u32, PAGESIZE in *; lia).
  assert (Hgen : forall fuel va db1, addr <= va -> length db1 = length db ->
    (va < addr + len -> addr + len - va <= Z.of_nat fuel * PAGESIZE) ->
    exists db', set_pageframe_tag_loop fuel v2p db1 va (addr + len) tag = Ret db'
      /\ length db' = length db1 /\ (forall i, is_free db' i -> is_free db1 i)).
  { induction fuel as [|fuel IH]; intros va db1 Ha Hdb Hf; simpl; zcase;
      try (exists db1; by auto); [unfold PAGESIZE in *; lia|].
    destruct (set_tag_spec db1 (Z.to_nat (Z.shiftr (v2p va) 12)) tag) as (db2 & -> & Hr);
      [specialize (Hv va); lia|]. simpl.
    rewrite u32_small by (unfold is_u32, PAGESIZE in *; lia).
    pose proof (proj1 (retags_nonfree _ _ _ _ Hr Htag)) as Hmono. destruct Hr as [Hl2 _].
    destruct (IH (va + PAGESIZE) db2) as (db' & -> & ? & ?); unfold PAGESIZE in *; [lia..|].
    exists db'. split_and!; [done|lia|auto]. }
  apply Hgen; [lia|done|]. intros _. pose proof (Z.div_mod len PAGESIZE ltac:(done)).
  pose proof (Z.mod_pos_bound len PAGESIZE ltac:(done)).
  pose proof (Z.div_pos len PAGESIZE). unfold PAGESIZE in *. lia.
Qed.

Lemma fixup_tags_spec v2p fixups db :
  Forall (fixup_ok v2p (Z.of_nat (length db))) fixups ->
  exists db', fixup_tags v2p db fixups = Ret db' /\ length db' = length db
    /\ (forall i, is_free db' i -> is_free db i).
Proof.
  revert db. induction fixups as [|[[addr len] tag] fs IH]; intros db Hok; simpl.
  { exists db. auto. }
  apply Forall_cons in Hok as [(?&?&?&?&?) Hok].
  destruct (set_pageframe_tag_spec v2p db addr len tag) as (db1 & -> & Hl & Hm); try done. simpl.
  rewrite <- Hl in Hok. destruct (IH db1 Hok) as (db2 & -> & ? & ?).
  exists db2. split_and!; [done|lia|auto].
Qed.

Lemma add_memory_spec st e :
  maxmem st = Z.of_nat (length (pfdb st)) ->
  exists st', add_memory st e = Ret st' /\ maxmem st' = maxmem st
    /\ length (pfdb st') = length (pfdb st).
Proof.
  intros Hm. unfold add_memory, PAGESIZE.
  pose proof (Z.div_pos (u32 (me_addr e)) 4096) as Hdp. pose proof (u32_range (me_addr e)).
  unfold is_u32 in *. zcase; [by eauto|]. simpl.
  match goal with |- context [set_tags _ _ _ (Z.to_nat (?l - _))] => set (last := l) end.
  assert (last <= maxmem st) by (unfold last; zcase; lia).
  destruct (set_tags_spec (pfdb st) TAG_FREE (Z.to_nat (u32 (me_addr e) / 4096))
    (Z.to_nat (last - u32 (me_addr e) / 4096))) as (d1 & Hd1 & Hl1 & _); [lia|].
  destruct (set_tags_spec (pfdb st) TAG_RESV (Z.to_nat (u32 (me_addr e) / 4096))
    (Z.to_nat (last - u32 (me_addr e) / 4096))) as (d2 & Hd2 & Hl2 & _); [lia|].
  rewrite Hd1, Hd2. simpl. zcases; eexists; split; try reflexivity; auto.
Qed.

Lemma add_memmap_spec es st :
  maxmem st = Z.of_nat (length (pfdb st)) ->
  exists st', add_memmap st es = Ret st' /\ length (pfdb st') = length (pfdb st).
Proof.
  revert st. induction es as [|e es IH]; intros st Hm; simpl; [by eauto|].
  destruct (add_memory_spec st e Hm) as (st1 & -> & Hm1 & Hl1). simpl.
  destruct (IH st1) as (st2 & -> & Hl2); [congruence|]. eexists. split; [done|]. congruence.
Qed.

Definition free_frames (db : list pageframe) (n : nat) : list nat :=
  filter (is_free db) (seq 0 n).

Lemma push_free_spec st n fs :
  (n <= length (pfdb st))%nat -> Z.of_nat (n + length fs) < 2 ^ 31 ->
  seg (next_of (pfdb st)) (freelist st) fs None -> Forall (fun i => n <= i)%nat fs ->
  freemem st = Z.of_nat (length fs) ->
  exists st', push_free st n = Ret st' /\ maxmem st' = maxmem st
    /\ length (pfdb st') = length (pfdb st)
    /\ (forall i, is_free (pfdb st') i <-> is_free (pfdb st) i)
    /\ seg (next_of (pfdb st')) (freelist st') (free_frames (pfdb st) n ++ fs) None
    /\ freemem st' = Z.of_nat (length (free_frames (pfdb st) n ++ fs)).
Proof.
  revert st fs. induction n as [|n IH]; intros st fs Hlen Hb Hseg Hge Hc; cbn [push_free].
  { exists st. by split_and!. }
  destruct (lookup_lt_is_Some_2 (pfdb st) n) as [f Hf]; [lia|]. rewrite Hf. simpl.
  assert (Hfr : is_free (pfdb st) n <-> pf_tag f = TAG_FREE) by (rewrite is_free_tag, Hf; split; [by intros [= ?]|by intros <-]).
  assert (Hff : free_frames (pfdb st) (S n)
    = free_frames (pfdb st) n ++ if decide (is_free (pfdb st) n) then [n] else []).
  { unfold free_frames. rewrite seq_S, filter_app. by rewrite filter_cons. }
  rewrite Hff. case_decide as Hd.
  - apply Hfr in Hd as Ht. rewrite (proj2 (Z.eqb_eq _ _) Ht).
    set (st1 := set_freemem (set_freelist (set_frame st n _) _) _).
    assert (Hn : n ∉ fs) by (intros Hin; rewrite Forall_forall in Hge; specialize (Hge n Hin); lia).
    assert (Hsame : forall i, is_free (pfdb st1) i <-> is_free (pfdb st) i).
    { intros i. simpl. destruct (decide (i = n)) as [->|]; [|by rewrite is_free_insert_ne].
      rewrite !is_free_tag, list_lookup_insert_eq, Hf by lia. done. }
    destruct (IH st1 (n :: fs)) as (st2 & -> & Hm & Hl & Hi & Hs & Hcnt); simpl.
    + rewrite length_insert. lia.
    + simpl in *. lia.
    + split; [done|]. rewrite next_of_insert_eq by lia. simpl.
      eapply seg_ext; [|exact Hseg]. intros i Hi. apply next_of_insert_ne. naive_solver.
    + apply Forall_cons. split; [lia|]. eapply Forall_impl; [exact Hge|]. simpl. lia.
    + rewrite Hc, u32_small; unfold is_u32; lia.
    + assert (Hff1 : free_frames (pfdb st1) n = free_frames (pfdb st) n)
        by (unfold free_frames; by apply list_filter_iff).
      rewrite Hff1 in Hs, Hcnt. rewrite <- (assoc_L (++)).
      exists st2. split_and!; try done.
      * rewrite Hl. simpl. apply length_insert.
      * intros i. by rewrite Hi, Hsame.
  - rewrite (proj2 (Z.eqb_neq _ _)) by (intros ?; apply Hd, Hfr; done).
    rewrite app_nil_r. apply IH; try done; [lia|lia|].
    eapply Forall_impl; [exact Hge|]. simpl. lia.
Qed.

(** ** The theorems *)

Lemma alloc_linear_spec st fs n tag :
  inv st fs -> (0 < n)%nat ->
  (n = 1%nat /\ fs = [] /\ alloc_linear_pageframes st n tag = Panic)
  \/ exists r st', alloc_linear_pageframes st n tag = Ret (r, st') /\
    ((r = NOFRAME /\ st' = st /\ ~ has_run fs n (maxmem st))
     \/ (exists a p b, r = Z.of_nat p /\ r <> NOFRAME /\ fs = a ++ seq p n ++ b /\ inv st' (a ++ b)
         /\ (forall i, (p <= i < p + n)%nat -> has_tag st' tag i)
         /\ same_frames st st' (fun i => p <= i < p + n)%nat /\ totalmem st' = totalmem st)).
Proof.
  intros Hi Hn. unfold alloc_linear_pageframes. zcase.
  - subst n. pose proof (alloc_pageframe_spec st fs tag Hi) as Ha.
    destruct fs as [|f fs]; [by left|]. right.
    destruct Ha as (st' & -> & Hi' & Htag & [Hl Hsame] & Ht).
    do 2 eexists. split; [done|]. right. exists [], f, fs. split_and!; try done.
    + pose proof (inv_max _ _ Hi). pose proof (inv_bound _ _ Hi).
      pose proof (inv_free _ _ Hi) as Hf. apply Forall_cons in Hf as [(x & Hx & _) _].
      apply lookup_lt_Some in Hx. unfold NOFRAME. lia.
    + intros i Hr. by replace i with f by lia.
    + split; [done|]. intros i Hr. apply Hsame. lia.
  - right. pose proof (inv_count_range _ _ Hi). rewrite s32_small by (unfold is_s32; lia).
    zcase.
    + do 2 eexists. split; [done|]. left. split_and!; try done.
      intros (a & p & b & -> & _). rewrite (inv_count _ _ Hi) in *.
      rewrite !length_app, length_seq in *. lia.
    + pose proof (inv_list _ _ Hi) as Hseg. apply seg_head in Hseg. rewrite Hseg.
      pose proof (linear_loop_spec (length (pfdb st)) st tag [] fs n Hi Hn) as Hl. simpl in Hl.
      destruct (Hl (inv_length _ _ Hi))
        as (r & st' & Hr & [?|(p & a & b & -> & -> & ? & ? & ? & ? & ?)]); rewrite Hr; do 2 eexists; (split; [done|]); [by left|right].
      exists a, p, b. split_and!; try done. pose proof (inv_bound _ _ Hi).
      rewrite (inv_max _ _ Hi) in *. unfold NOFRAME. lia.
Qed.

(** A linear allocation succeeds exactly when the free list has such a run of
    frames, below the last frame of memory; it then takes the run off the list,
    wherever it is, tags its frames and touches no other; otherwise it returns
    [NOFRAME] and changes nothing.  One frame is taken from an empty list with a
    panic. *)
Lemma alloc_linear_pageframes_correct st fs n tag :
  inv st fs -> (0 < n)%nat ->
  (n = 1%nat /\ fs = [] /\ alloc_linear_pageframes st n tag = Panic)
  \/ exists r st', alloc_linear_pageframes st n tag = Ret (r, st') /\
    ((r = NOFRAME /\ st' = st /\ ~ has_run fs n (maxmem st))
     \/ (exists a p b, r = Z.of_nat p /\ r <> NOFRAME /\ fs = a ++ seq p n ++ b /\ inv st' (a ++ b)
         /\ (forall i, (p <= i < p + n)%nat -> has_tag st' tag i)
         /\ same_frames st st' (fun i => p <= i < p + n)%nat /\ totalmem st' = totalmem st)).
Proof. apply alloc_linear_spec. Qed.

Lemma step_conserves st own st' own' fs :
  step (st, own) (st', own') -> inv st fs -> own ## list_to_set fs ->
  Forall (fun i => i < length (pfdb st))%nat (elements own) ->
  exists fs', inv st' fs' /\ own' ## list_to_set fs'
    /\ own' ∪ list_to_set fs' = own ∪ list_to_set fs
    /\ length (pfdb st') = length (pfdb st).
Proof.
  intros Hstep Hi Hdis Hown. inversion Hstep; subst; clear Hstep.
  - pose proof (alloc_pageframe_spec st fs tag Hi) as Ha. destruct fs as [|f' fs]; [congruence|].
    destruct Ha as (st2 & Ha & Hi' & _ & [Hl _] & _). rewrite Ha in *. simplify_eq.
    pose proof (inv_nodup _ _ Hi) as Hnd. apply NoDup_cons in Hnd as [? ?].
    exists fs. simpl in *. split_and!; [done|set_solver|set_solver|done].
  - destruct (alloc_linear_spec st fs n tag Hi ltac:(done))
      as [(_ & _ & ?)|(r & st2 & Ha & [(-> & _ & _)|(a & q & b & -> & _ & -> & Hi' & _ & [Hl _] & _)])];
      [congruence|rewrite Ha in *; naive_solver|].
    rewrite Ha in *. simplify_eq. pose proof (inv_nodup _ _ Hi) as Hnd.
    rewrite !NoDup_app in Hnd. exists (a ++ b). rewrite !list_to_set_app_L in *.
    split_and!; [done|set_solver|set_solver|done].
  - destruct (alloc_linear_spec st fs n tag Hi ltac:(done))
      as [(_ & _ & ?)|(r & st2 & Ha & [(-> & -> & _)|(a & q & b & -> & ? & _)])];
      [congruence| |congruence].
    rewrite Ha in *. simplify_eq. by exists fs.
  - rewrite Forall_forall in Hown. specialize (Hown f). rewrite elem_of_elements in Hown.
    destruct (free_pageframe_spec st fs f Hi) as (st2 & Ha & Hi' & [Hl _] & _);
      [auto|set_solver|]. rewrite Ha in *. simplify_eq.
    exists (f :: fs). simpl. split_and!; [done|set_solver| |done].
    apply set_eq. intros x. destruct (decide (x = f)); set_solver.
Qed.

(** C7: whatever the clients allocate and give back, no frame is held twice or held
    and free, every frame of the initial free list is either held or free, and
    [freemem] counts the free ones. *)
Theorem page_ownership st0 fs0 st own :
  inv st0 fs0 -> rtc step (st0, ∅) (st, own) ->
  exists fs, inv st fs /\ own ## list_to_set fs /\ own ∪ list_to_set fs = list_to_set fs0
    /\ freemem st = Z.of_nat (length fs) /\ (size own + length fs = length fs0)%nat.
Proof.
  intros Hi0 Hr.
  assert (Hgen : exists fs, inv st fs /\ own ## list_to_set fs
    /\ own ∪ list_to_set fs = list_to_set fs0 /\ length (pfdb st) = length (pfdb st0)).
  { refine (rtc_ind_r (fun y => exists fs, inv y.1 fs /\ y.2 ## list_to_set fs
      /\ y.2 ∪ list_to_set fs = list_to_set fs0 /\ length (pfdb y.1) = length (pfdb st0))
      (st0, ∅) _ _ _ Hr); simpl.
    - exists fs0. split_and!; [done|set_solver|set_solver|done].
    - intros [st1 own1] [st2 own2] _ Hs (fs & Hi & Hd & Hu & Hl). simpl in *.
      destruct (step_conserves st1 own1 st2 own2 fs Hs Hi Hd) as (fs' & ? & ? & ? & ?).
      + apply Forall_forall. intros i Hin. rewrite elem_of_elements in Hin. rewrite Hl.
        assert (i ∈ fs0) as Hf0 by (apply (elem_of_list_to_set (C:=gset nat)); set_solver).
        pose proof (inv_free _ _ Hi0) as Hf. rewrite Forall_forall in Hf.
        destruct (Hf i Hf0) as (x & Hx & _). by apply lookup_lt_Some in Hx.
      + exists fs'. split_and!; [done|done|congruence|congruence]. }
  destruct Hgen as (fs & Hi & Hd & Hu & _). exists fs. split_and!; try done.
  - apply (inv_count _ _ Hi).
  - rewrite <- (size_list_to_set (C:=gset nat) fs), <- (size_list_to_set (C:=gset nat) fs0),
      <- Hu, size_union by (done || by eapply inv_nodup). done.
Qed.

(** C20: [init_pfdb] returns, whatever the memory map, with a well-formed database;
    its free list holds exactly the frames tagged ['FREE'], and neither page 0, nor
    the DMA buffers, nor the page tables below [heap]. *)
Theorem init_pfdb_correct memend heapstart heap memmap v2p fixups :
  let maxm := memend / PAGESIZE in
  0 <= memend < 2 ^ 32 -> 32 <= maxm -> 0 <= heapstart -> heap / PAGESIZE <= maxm ->
  Forall (fixup_ok v2p maxm) fixups ->
  exists st fs, init_pfdb memend heapstart heap memmap v2p fixups = Ret st /\ inv st fs
    /\ (forall i, i ∈ fs <-> is_free (pfdb st) i)
    /\ (forall i, i ∈ fs -> i <> 0%nat /\ ~ (16 <= i < 32)%nat
          /\ ~ heapstart / PAGESIZE <= Z.of_nat i < heap / PAGESIZE).
Proof.
  intros maxm Hmem Hmax Hh0 Hh Hfix. unfold init_pfdb. fold maxm.
  change (Z.to_nat (DMA_BUFFER_START / PAGESIZE)) with 16%nat.
  change (Z.to_nat DMA_BUFFER_PAGES) with 16%nat.
  assert (Hm : maxm < 2 ^ 31) by (unfold maxm, PAGESIZE; apply Z.div_lt_upper_bound; lia).
  destruct (add_memmap_spec memmap (PfState (replicate (Z.to_nat maxm) (PageFrame TAG_BAD None))
    None 0 0 maxm)) as (st1 & -> & Hl1); [simpl; rewrite length_replicate; lia|]. cbn [obind]. simpl in Hl1.
  rewrite length_replicate in Hl1.
  destruct (set_tag_spec (pfdb st1) 0 TAG_RESV) as (db1 & -> & Hr1); [lia|]. cbn [obind].
  pose proof (Z.div_pos heapstart PAGESIZE Hh0 ltac:(done)).
  destruct (set_tags_spec db1 TAG_PTAB (Z.to_nat (heapstart / PAGESIZE))
    (Z.to_nat (heap / PAGESIZE - heapstart / PAGESIZE))) as (db2 & -> & Hr2);
    [destruct Hr1; lia|]. cbn [obind].
  destruct (set_tags_spec db2 TAG_DMA 16 16) as (db3 & Hd3 & Hr3); [destruct Hr1, Hr2; lia|].
  rewrite Hd3. cbn [obind].
  assert (Hl3 : Z.of_nat (length db3) = maxm) by (destruct Hr1, Hr2, Hr3; lia).
  rewrite <- Hl3 in Hfix. destruct (fixup_tags_spec v2p fixups db3 Hfix) as (db4 & -> & Hl4 & Hm4).
  cbn [obind].
  pose proof (retags_nonfree _ _ _ _ Hr1 ltac:(done)) as [Hm1 Hn1].
  pose proof (retags_nonfree _ _ _ _ Hr2 ltac:(done)) as [Hm2 Hn2].
  pose proof (retags_nonfree _ _ _ _ Hr3 ltac:(done)) as [Hm3 Hn3].
  destruct Hr1 as [Hl1' _], Hr2 as [Hl2' _], Hr3 as [Hl3' _].
  destruct (push_free_spec (PfState db4 None 0 (u32 (totalmem st1 - 1)) maxm) (Z.to_nat maxm) [])
    as (st & -> & Hmx & Hln & Hfr & Hsg & Hct); simpl; try done; try lia.
  rewrite app_nil_r in *. simpl in *.
  assert (Hin : forall i, i ∈ free_frames db4 (Z.to_nat maxm) <-> is_free db4 i).
  { intros i. unfold free_frames. rewrite list_elem_of_filter, elem_of_seq.
    split; [tauto|]. intros Hf. split; [done|]. destruct Hf as (f & Hf & _).
    apply lookup_lt_Some in Hf. lia. }
  exists st, (free_frames db4 (Z.to_nat maxm)). split_and!; [done| | |].
  - constructor; try done; try lia.
    + apply NoDup_filter, NoDup_seq.
    + apply Forall_forall. intros i Hi. by apply Hfr, Hin.
  - intros i. by rewrite Hin, Hfr.
  - intros i Hi%Hin%Hm4. split_and!.
    + intros ->. apply (Hn1 0%nat); [done|lia|auto].
    + intros Hr. apply (Hn3 i); [lia|lia|auto].
    + intros Hr. apply (Hn2 i); [lia|lia|auto].
Qed.

(** ** Witnesses *)

(** Forty frames, the memory map of a small machine. *)
Definition ex_memmap : list mementry :=
  [MemEntry 0 0x25000 MEMTYPE_RAM; MemEntry 0x25000 0x3000 MEMTYPE_RESERVED].
Definition ex_pfdb : pfstate :=
  match init_pfdb 0x28000 0x4000 0x6000 ex_memmap (fun va => va) [(0x8000, 0x2000, TAG_RESV)] with
  | Ret st => st
  | _ => PfState [] None 0 0 0
  end.
Definition ex_free : list nat := [1; 2; 3; 6; 7; 10; 11; 12; 13; 14; 15; 32; 33; 34; 35; 36]%nat.

Lemma ex_pfdb_inv : inv ex_pfdb ex_free.
Proof.
  constructor.
  - vm_compute. tauto.
  - by apply (bool_decide_unpack _).
  - unfold ex_free. rewrite !Forall_cons. unfold is_free.
    split_and!; try (eexists; split; vm_compute; reflexivity). constructor.
  - reflexivity.
  - reflexivity.
  - reflexivity.
Qed.

Lemma page_ownership_witness :
  exists st fs, inv st fs /\ {[1%nat]} ## (list_to_set fs : gset nat) /\ length fs = 15%nat.
Proof.
  destruct (alloc_pageframe ex_pfdb TAG_RESV) as [[z st]| | |] eqn:Ha;
    [|vm_compute in Ha; discriminate Ha..].
  assert (Hz : z = Z.of_nat 1)
    by (assert (match alloc_pageframe ex_pfdb TAG_RESV with Ret (z, _) => z = 1 | _ => False end)
          as H by (vm_compute; reflexivity); by rewrite Ha in H).
  subst z.
  destruct (page_ownership ex_pfdb ex_free st ({[1%nat]} ∪ ∅) ex_pfdb_inv)
    as (fs & Hi & Hd & _ & _ & Hs).
  - apply rtc_once. by apply step_alloc with TAG_RESV.
  - exists st, fs. rewrite union_empty_r_L in *. rewrite size_singleton in Hs. simpl in Hs.
    split_and!; [done|done|lia].
Defined.

Lemma init_pfdb_correct_witness :
  exists st fs, init_pfdb 0x28000 0x4000 0x6000 ex_memmap (fun va => va) [(0x8000, 0x2000, TAG_RESV)]
      = Ret st /\ inv st fs.
Proof.
  destruct (init_pfdb_correct 0x28000 0x4000 0x6000 ex_memmap (fun va => va)
    [(0x8000, 0x2000, TAG_RESV)]) as (st & fs & H & Hi & _).
  - lia.
  - reflexivity || (vm_compute; discriminate).
  - lia.
  - vm_compute. discriminate.
  - constructor; [|constructor]. unfold fixup_ok, PAGESIZE. split_and!; [lia|lia|lia|discriminate|].
    intros va Hva. split; [apply Z.shiftr_nonneg; lia|].
    rewrite Z.shiftr_div_pow2 by lia. apply Z.div_lt_upper_bound; [lia|].
    change (0x28000 / 4096) with 40. lia.
  - exists st, fs. split; [exact H|exact Hi].
Defined.
