(* ===== verification/Pdir.v ===== *)
(** * Pdir: page tables, src/src/sys/krnl/pdir.c, and kernel memory over them

    A page directory and its page tables are page frames in physical memory, and the
    kernel reaches them through the mapping they define: the directory maps itself at
    [PTBASE], so that the page table entry of an address is the word at
    [PTBASE + 4 * PTABIDX(addr)].  [machine] holds physical memory by frame and word, the
    frame of the directory and the page frame database; [mmu] is the walk of the processor,
    and the macros [GET_PDE], [SET_PTE] and the others load and store through it.  An access
    to an address without a mapping faults.  The processor's accessed and dirty bits and its
    translation cache are not modelled ([invlpage] follows every change of an entry). *)

From stdpp Require Import functions.
From S2P Require Import Prelude Pframe.
Local Open Scope krlean_scope.

(** ** include/os/pdir.h and include/os/syspage.h *)

Definition PTES_PER_PAGE : Z := 1024.
Definition PT_PRESENT : Z := 0x001.
Definition PT_WRITABLE : Z := 0x002.
Definition PT_USER : Z := 0x004.
Definition PT_ACCESSED : Z := 0x020.
Definition PT_DIRTY : Z := 0x040.
Definition PT_GUARD : Z := 0x200.
Definition PT_FILE : Z := 0x400.
Definition PT_USER_READ : Z := Z.lor PT_PRESENT PT_USER.
Definition PT_USER_WRITE : Z := Z.lor (Z.lor PT_PRESENT PT_USER) PT_WRITABLE.
Definition PT_FLAGMASK : Z :=
  Z.lor (Z.lor (Z.lor (Z.lor (Z.lor (Z.lor PT_PRESENT PT_WRITABLE) PT_USER) PT_ACCESSED)
    PT_DIRTY) PT_GUARD) PT_FILE.
Definition PT_PROTECTMASK : Z := Z.lor (Z.lor PT_WRITABLE PT_USER) PT_GUARD.
Definition PT_PFNMASK : Z := 0xFFFFF000.

Definition PDEIDX (vaddr : Z) : Z := Z.shiftr vaddr 22.
Definition PTEIDX (vaddr : Z) : Z := Z.land (Z.shiftr vaddr 12) 0x3FF.
Definition PGOFF (vaddr : Z) : Z := Z.land vaddr 0xFFF.
Definition PTABIDX (vaddr : Z) : Z := Z.shiftr vaddr 12.
Definition PAGES (x : Z) : Z := Z.shiftr (u32 (x + (PAGESIZE - 1))) 12.
Definition PAGEADDR (x : Z) : Z := Z.land x (u32 (Z.lnot (PAGESIZE - 1))).
Definition PTOB (x : Z) : Z := u32 (Z.shiftl x 12).
Definition BTOP (x : Z) : Z := Z.shiftr x 12.

Definition OSBASE : Z := 0x80000000.
Definition PTBASE : Z := 0x90000000.
Definition SYSBASE : Z := 0x90400000.
Definition PAGEDIR_ADDRESS : Z := SYSBASE + 1 * PAGESIZE.
Definition KERNELSPACE (addr : Z) : bool := OSBASE <=? addr.

(** ** Physical memory *)

Record machine := Machine {
  cr3 : Z;                    (* the frame of the page directory *)
  phys : Z -> Z -> Z;         (* by frame and word in the frame *)
  frames : pfstate;
}.

Definition set_phys (s : machine) (m : Z -> Z -> Z) : machine := Machine (cr3 s) m (frames s).
Definition set_frames (s : machine) (p : pfstate) : machine := Machine (cr3 s) (phys s) p.

Definition put_word (m : Z -> Z -> Z) (f i v : Z) : Z -> Z -> Z :=
  fun g => if g =? f then (fun j => if j =? i then v else m g j) else m g.
Definition put_zeros (m : Z -> Z -> Z) (f : Z) : Z -> Z -> Z :=
  fun g => if g =? f then (fun _ => 0) else m g.

Definition present (e : Z) : bool := truthy (Z.land e PT_PRESENT).

(** The frame that holds [va]. *)
Definition mmu (s : machine) (va : Z) : outcome Z :=
  let pde := phys s (cr3 s) (PDEIDX va) in
  if present pde then
    let pte := phys s (BTOP pde) (PTEIDX va) in
    if present pte then Ret (BTOP pte) else Fault
  else Fault.

Definition load32 (s : machine) (va : Z) : outcome Z :=
  f <~ mmu s va; Ret (phys s f (Z.shiftr (PGOFF va) 2)).

Definition store32 (s : machine) (va v : Z) : outcome machine :=
  f <~ mmu s va; Ret (set_phys s (put_word (phys s) f (Z.shiftr (PGOFF va) 2) v)).

(** [*(char * ) va] *)
Definition load8 (s : machine) (va : Z) : outcome Z :=
  w <~ load32 s va; Ret (s8 (Z.shiftr w (8 * Z.land va 3))).

(** [memset(va, 0, PAGESIZE)] of a whole page. *)
Definition clear_page (s : machine) (va : Z) : outcome machine :=
  f <~ mmu s va; Ret (set_phys s (put_zeros (phys s) f)).

(** ** pdir.c *)

Definition GET_PDE (s : machine) (vaddr : Z) : outcome Z :=
  load32 s (PAGEDIR_ADDRESS + 4 * PDEIDX vaddr).
Definition GET_PTE (s : machine) (vaddr : Z) : outcome Z :=
  load32 s (PTBASE + 4 * PTABIDX vaddr).
(** [set_page_dir_entry] and [set_page_table_entry] of mach.c store the value. *)
Definition SET_PDE (s : machine) (vaddr v : Z) : outcome machine :=
  store32 s (PAGEDIR_ADDRESS + 4 * PDEIDX vaddr) v.
Definition SET_PTE (s : machine) (vaddr v : Z) : outcome machine :=
  store32 s (PTBASE + 4 * PTABIDX vaddr) v.

Definition map_page (s : machine) (vaddr pfn flags : Z) : outcome machine :=
  pde <~ GET_PDE s vaddr;
  s <~ (if present pde then Ret s
        else
          '(pdfn, p) <~ alloc_pageframe (frames s) TAG_PTAB;
          let s := set_frames s p in
          if pfn =? 0xFFFFFFFF then Panic
          else
            s <~ SET_PDE s vaddr (Z.lor (Z.lor (Z.lor (PTOB pdfn) PT_PRESENT) PT_WRITABLE) PT_USER);
            clear_page s (PTBASE + 4 * (PDEIDX vaddr * PTES_PER_PAGE)));
  SET_PTE s vaddr (Z.lor (PTOB pfn) flags).

Definition unmap_page (s : machine) (vaddr : Z) : outcome machine := SET_PTE s vaddr 0.

Definition virt2phys (s : machine) (vaddr : Z) : outcome Z :=
  pte <~ GET_PTE s vaddr; Ret (u32 (Z.land pte PT_PFNMASK + PGOFF vaddr)).

Definition virt2pfn (s : machine) (vaddr : Z) : outcome Z :=
  pte <~ GET_PTE s vaddr; Ret (BTOP (Z.land pte PT_PFNMASK)).

Definition get_page_flags (s : machine) (vaddr : Z) : outcome Z :=
  pte <~ GET_PTE s vaddr; Ret (Z.land pte PT_FLAGMASK).

Definition set_page_flags (s : machine) (vaddr flags : Z) : outcome machine :=
  pte <~ GET_PTE s vaddr; SET_PTE s vaddr (Z.lor (Z.land pte PT_PFNMASK) flags).

Definition page_mapped (s : machine) (vaddr : Z) : outcome bool :=
  pde <~ GET_PDE s vaddr;
  if negb (present pde) then Ret false
  else
    pte <~ GET_PTE s vaddr;
    if negb (present pte) then Ret false else Ret true.

Definition page_directory_mapped (s : machine) (vaddr : Z) : outcome bool :=
  pde <~ GET_PDE s vaddr; Ret (present pde).

Definition unguard_page (s : machine) (vaddr : Z) : outcome machine :=
  pte <~ GET_PTE s vaddr;
  SET_PTE s vaddr (Z.lor (Z.land pte (u32 (Z.lnot PT_GUARD))) PT_USER).

Definition clear_dirty (s : machine) (vaddr : Z) : outcome machine :=
  pte <~ GET_PTE s vaddr; SET_PTE s vaddr (Z.land pte (u32 (Z.lnot PT_DIRTY))).

(** [mem_access] and [str_access] call [fetch_page] of vmm.c, here an argument: it
    returns its code and the machine. *)
Section Access.
Context (fetch_page : machine -> Z -> outcome (Z * machine)).

(** The checks of one page that both functions make. *)
Definition check_page (s : machine) (addr access : Z) : outcome (bool * machine) :=
  pde <~ GET_PDE s addr;
  if negb (present pde) then Ret (false, s)
  else
    pte <~ GET_PTE s addr;
    if negb (Z.land pte access =? access) then
      if truthy (Z.land pte PT_FILE) then
        '(rc, s) <~ fetch_page s (PAGEADDR addr);
        if rc <? 0 then Ret (false, s)
        else
          pte <~ GET_PTE s addr;
          if negb (Z.land pte access =? access) then Ret (false, s) else Ret (true, s)
      else Ret (false, s)
    else Ret (true, s).

Fixpoint mem_access_loop (fuel : nat) (s : machine) (addr next size access : Z)
    : outcome (bool * machine) :=
  match fuel with
  | O => Diverge
  | S fuel =>
      '(ok, s) <~ check_page s addr access;
      if negb ok then Ret (false, s)
      else
        let size := s32 (size - u32 (next - addr)) in
        if size <=? 0 then Ret (true, s)
        else mem_access_loop fuel s next (u32 (next + PAGESIZE)) size access
  end.

Definition mem_access (s : machine) (vaddr size access : Z) : outcome (bool * machine) :=
  let next := u32 (Z.land vaddr (u32 (Z.lnot PAGESIZE)) + PAGESIZE) in
  mem_access_loop (Z.to_nat (size / PAGESIZE) + 3) s vaddr next size access.

(** The inner loop of [str_access]: up to the end of the string or of the page. *)
Fixpoint scan_string (fuel : nat) (s : machine) (p : Z) : outcome (bool * Z) :=
  match fuel with
  | O => Diverge
  | S fuel =>
      c <~ load8 s p;
      if c =? 0 then Ret (true, p)
      else
        let p := u32 (p + 1) in
        if PGOFF p =? 0 then Ret (false, p) else scan_string fuel s p
  end.

Fixpoint str_access (fuel : nat) (s : machine) (p access : Z) : outcome (bool * machine) :=
  match fuel with
  | O => Diverge
  | S fuel =>
      '(ok, s) <~ check_page s p access;
      if negb ok then Ret (false, s)
      else
        '(done, p) <~ scan_string (Z.to_nat PAGESIZE) s p;
        if done then Ret (true, s) else str_access fuel s p access
  end.
End Access.

(** [init_pdir]: the identity mapping of the first 4 MB is cleared. *)
Fixpoint init_pdir_loop (s : machine) (i : Z) (n : nat) : outcome machine :=
  match n with
  | O => Ret s
  | S n => s <~ SET_PTE s (PTOB i) 0; init_pdir_loop s (i + 1) n
  end.
Definition init_pdir (s : machine) : outcome machine :=
  init_pdir_loop s 0 (Z.to_nat PTES_PER_PAGE).

(** [pdir_stat] *)
Record pdirstat := PdirStat {
  st_present : Z; st_user : Z; st_kernel : Z; st_readonly : Z; st_readwrite : Z;
  st_accessed : Z; st_dirty : Z;
}.

Definition count_pte (b : pdirstat) (pte : Z) : pdirstat :=
  let inc (mask : Z) (c : Z) := if truthy (Z.land pte mask) then s32 (c + 1) else c in
  let inc_not (mask : Z) (c : Z) := if truthy (Z.land pte mask) then c else s32 (c + 1) in
  PdirStat (s32 (st_present b + 1)) (inc PT_USER (st_user b)) (inc_not PT_USER (st_kernel b))
    (inc_not PT_WRITABLE (st_readonly b)) (inc PT_WRITABLE (st_readwrite b))
    (inc PT_ACCESSED (st_accessed b)) (inc PT_DIRTY (st_dirty b)).

Fixpoint pdir_stat_loop (fuel : nat) (s : machine) (vaddr vend : Z) (b : pdirstat)
    : outcome pdirstat :=
  if vaddr <? vend then
    match fuel with
    | O => Diverge
    | S fuel =>
        pde <~ GET_PDE s vaddr;
        if negb (present pde) then
          let v := u32 (vaddr + PTES_PER_PAGE * PAGESIZE) in
          pdir_stat_loop fuel s (Z.land v (u32 (Z.lnot (PTES_PER_PAGE * PAGESIZE - 1)))) vend b
        else
          pte <~ GET_PTE s vaddr;
          pdir_stat_loop fuel s (u32 (vaddr + PAGESIZE)) vend
            (if present pte then count_pte b pte else b)
    end
  else Ret b.

Definition pdir_stat (s : machine) (addr len : Z) : outcome pdirstat :=
  let vend := u32 (addr + len) in
  pdir_stat_loop (Z.to_nat (len / PAGESIZE + 1)) s addr vend (PdirStat 0 0 0 0 0 0 0).

(** ** The page map that the tables represent

    [p] ranges over the pages [0 .. NPAGES - 1] of the address space. *)

Definition NPAGES : Z := 2 ^ 20.

Definition dirent (s : machine) (i : Z) : Z := phys s (cr3 s) i.

(** The entry of page [p], [None] where there is no page table. *)
Definition pte_at (s : machine) (p : Z) : option Z :=
  let pde := dirent s (p / 1024) in
  if present pde then Some (phys s (BTOP pde) (p mod 1024)) else None.

Definition view (s : machine) (p : Z) : Z := default 0 (pte_at s p).

(** The frames of page tables; the directory is one of them. *)
Definition is_table (s : machine) (f : Z) : Prop :=
  exists i, 0 <= i < 1024 /\ present (dirent s i) = true /\ BTOP (dirent s i) = f.

(** The directory maps itself at [PTBASE] and at [PAGEDIR_ADDRESS], and page tables are
    not shared. *)
Record dir_ok (s : machine) : Prop := {
  do_self : present (dirent s 576) = true /\ BTOP (dirent s 576) = cr3 s;
  do_sys : present (dirent s 577) = true;
  do_dir : let e := phys s (BTOP (dirent s 577)) 1 in present e = true /\ BTOP e = cr3 s;
  do_inj : forall i j, 0 <= i < 1024 -> 0 <= j < 1024 ->
    present (dirent s i) = true -> present (dirent s j) = true ->
    BTOP (dirent s i) = BTOP (dirent s j) -> i = j;
}.

(** The page tables are frames of the database that are not free; [fs] is the free list. *)
Record vm_ok (s : machine) (fs : list nat) : Prop := {
  vo_frames : inv (frames s) fs;
  vo_dir : dir_ok s;
  vo_tables : forall f, is_table s f ->
    0 <= f < Z.of_nat (length (pfdb (frames s))) /\ Z.to_nat f ∉ fs;
  vo_max : maxmem (frames s) <= NPAGES;
}.

(** Pages that hold neither page tables nor the directory. *)
Definition plain (p : Z) : Prop := 0 <= p < NPAGES /\ p / 1024 <> 576 /\ p <> 0x90401.

(** ** Addresses *)

Lemma BTOP_div x : BTOP x = x / 4096.
Proof. unfold BTOP. by rewrite Z.shiftr_div_pow2. Qed.

Lemma PDEIDX_div x : PDEIDX x = x / 4096 / 1024.
Proof. unfold PDEIDX. rewrite Z.shiftr_div_pow2, Z.div_div by lia. done. Qed.

Lemma PTEIDX_mod x : PTEIDX x = (x / 4096) mod 1024.
Proof.
  unfold PTEIDX. rewrite Z.shiftr_div_pow2 by lia. change 0x3FF with (Z.ones 10).
  by rewrite Z.land_ones.
Qed.

Lemma PGOFF_mod x : PGOFF x = x mod 4096.
Proof. unfold PGOFF. change 0xFFF with (Z.ones 12). by rewrite Z.land_ones. Qed.

Lemma PAGEADDR_div x : is_u32 x -> PAGEADDR x = x / 4096 * 4096.
Proof. intros Hx. by apply (land_high x 12 32). Qed.

Lemma PTOB_mul x : 0 <= x < NPAGES -> PTOB x = x * 4096.
Proof.
  intros Hx. unfold PTOB. rewrite Z.shiftl_mul_pow2 by lia. apply u32_small.
  unfold is_u32, NPAGES in *. lia.
Qed.

Lemma page_base p : 0 <= p < NPAGES ->
  is_u32 (p * 4096) /\ p * 4096 / 4096 = p /\ u32 (p * 4096 + PAGESIZE) = (p + 1) mod NPAGES * 4096.
Proof. intros Hp. unfold is_u32, NPAGES, u32, uwrap, PAGESIZE in *. split; [lia|]. split; lia_mod. Qed.

Lemma page_succ p : 0 <= p -> p + 1 < NPAGES -> u32 (p * 4096 + PAGESIZE) = (p + 1) * 4096.
Proof. intros. unfold PAGESIZE. rewrite u32_small; unfold is_u32, NPAGES in *; lia. Qed.

(** The number of pages of a size that does not wrap. *)
Lemma PAGES_small size : 0 <= size <= 0xFFFFF000 ->
  PAGES size = (size + 4095) / 4096 /\ 0 <= PAGES size <= 0xFFFFF /\ (0 < size -> 0 < PAGES size).
Proof.
  intros Hs. unfold PAGES, PAGESIZE. rewrite u32_small by (unfold is_u32; lia).
  rewrite Z.shiftr_div_pow2 by lia. change (2 ^ 12) with 4096. split; [f_equal; lia|]. lia_mod.
Qed.

(** A page table entry made of a frame and twelve bits. *)
Lemma pte_sum pfn flags : 0 <= pfn < NPAGES -> 0 <= flags < 4096 ->
  Z.lor (PTOB pfn) flags = pfn * 4096 + flags.
Proof. intros Hp Hf. rewrite PTOB_mul by done. by apply (lor_low pfn flags 12). Qed.

Lemma pte_BTOP pfn flags : 0 <= pfn < NPAGES -> 0 <= flags < 4096 ->
  BTOP (Z.lor (PTOB pfn) flags) = pfn.
Proof. intros Hp Hf. rewrite pte_sum, BTOP_div by done. lia_mod. Qed.

(** Masks below bit 12 only look at the flags. *)
Lemma pte_land pfn flags mask : 0 <= pfn < NPAGES -> 0 <= mask < 4096 ->
  Z.land (Z.lor (PTOB pfn) flags) mask = Z.land flags mask.
Proof.
  intros Hp Hm. rewrite Z.land_lor_distr_l.
  replace (Z.land (PTOB pfn) mask) with 0; [by rewrite Z.lor_0_l|].
  rewrite PTOB_mul by done. symmetry. apply Z.bits_inj_iff'. intros n Hn.
  rewrite Z.land_spec, Z.bits_0. destruct (Z.ltb_spec n 12).
  - change 4096 with (2 ^ 12). by rewrite Z.mul_pow2_bits_low.
  - rewrite (testbit_small mask n); [apply andb_false_r|].
    pose proof (Z.pow_le_mono_r 2 12 n). lia.
Qed.

Lemma pte_present pfn flags : 0 <= pfn < NPAGES ->
  present (Z.lor (PTOB pfn) flags) = present flags.
Proof. intros. unfold present. rewrite pte_land; [done..|unfold PT_PRESENT; lia]. Qed.

Lemma land_PFNMASK x : is_u32 x -> Z.land x PT_PFNMASK = x / 4096 * 4096.
Proof. apply PAGEADDR_div. Qed.

(** ** Access through the self-mapping *)

Section Walk.
Context (s : machine) (Hd : dir_ok s).

Lemma mmu_page p o : 0 <= p < NPAGES -> 0 <= o < 4096 ->
  mmu s (p * 4096 + o) =
    match pte_at s p with
    | Some e => if present e then Ret (BTOP e) else Fault
    | None => Fault
    end.
Proof.
  intros Hp Ho. unfold mmu, pte_at, dirent. rewrite PDEIDX_div, PTEIDX_mod.
  replace ((p * 4096 + o) / 4096) with p by lia_mod. by destruct (present _).
Qed.

Lemma mmu_dir o : 0 <= o < 4096 -> mmu s (PAGEDIR_ADDRESS + o) = Ret (cr3 s).
Proof.
  intros Ho. change PAGEDIR_ADDRESS with (0x90401 * 4096).
  rewrite mmu_page by (unfold NPAGES; lia). unfold pte_at.
  change (0x90401 / 1024) with 577. change (0x90401 mod 1024) with 1.
  destruct (do_dir _ Hd) as [Hp Hb]. by rewrite (do_sys _ Hd), Hp, Hb.
Qed.

Lemma mmu_table i o : 0 <= i < 1024 -> 0 <= o < 4096 ->
  mmu s (PTBASE + (i * 4096 + o)) =
    if present (dirent s i) then Ret (BTOP (dirent s i)) else Fault.
Proof.
  intros Hi Ho. replace (PTBASE + (i * 4096 + o)) with ((0x90000 + i) * 4096 + o)
    by (unfold PTBASE; lia).
  rewrite mmu_page by (unfold NPAGES; lia). unfold pte_at.
  replace ((0x90000 + i) / 1024) with 576 by lia_mod.
  replace ((0x90000 + i) mod 1024) with i by lia_mod.
  destruct (do_self _ Hd) as [Hp Hb]. rewrite Hp, Hb. done.
Qed.

Lemma word_index o : 0 <= o < 1024 -> forall b, b mod 4096 = 0 ->
  Z.shiftr (PGOFF (b + 4 * o)) 2 = o.
Proof.
  intros Ho b Hb. rewrite Z.shiftr_div_pow2, PGOFF_mod by lia. change (2 ^ 2) with 4. lia_mod.
Qed.

Lemma load_dir i : 0 <= i < 1024 -> load32 s (PAGEDIR_ADDRESS + 4 * i) = Ret (dirent s i).
Proof. intros Hi. unfold load32. rewrite mmu_dir by lia. simpl. by rewrite word_index. Qed.

Lemma store_dir i v : 0 <= i < 1024 ->
  store32 s (PAGEDIR_ADDRESS + 4 * i) v = Ret (set_phys s (put_word (phys s) (cr3 s) i v)).
Proof. intros Hi. unfold store32. rewrite mmu_dir by lia. simpl. by rewrite word_index. Qed.

(** [PTBASE + 4 * p] is the address of entry [p mod 1024] of table [p / 1024]. *)
Lemma table_addr p : 0 <= p < NPAGES ->
  mmu s (PTBASE + 4 * p) =
    (if present (dirent s (p / 1024)) then Ret (BTOP (dirent s (p / 1024))) else Fault)
  /\ Z.shiftr (PGOFF (PTBASE + 4 * p)) 2 = p mod 1024.
Proof.
  intros Hp. unfold NPAGES in *.
  replace (PTBASE + 4 * p) with (PTBASE + (p / 1024 * 4096 + 4 * (p mod 1024))) by lia_mod.
  split; [apply mmu_table; lia_mod|].
  rewrite Z.add_assoc. apply word_index; unfold PTBASE; lia_mod.
Qed.

Lemma load_pte p : 0 <= p < NPAGES ->
  load32 s (PTBASE + 4 * p) = match pte_at s p with Some e => Ret e | None => Fault end.
Proof.
  intros Hp. destruct (table_addr p Hp) as [Hm Hi]. unfold load32, pte_at. rewrite Hm, Hi.
  by destruct (present _).
Qed.

Lemma store_pte p v : 0 <= p < NPAGES -> present (dirent s (p / 1024)) = true ->
  store32 s (PTBASE + 4 * p) v =
    Ret (set_phys s (put_word (phys s) (BTOP (dirent s (p / 1024))) (p mod 1024) v)).
Proof.
  intros Hp Hpr. destruct (table_addr p Hp) as [Hm Hi]. unfold store32. by rewrite Hm, Hpr, Hi.
Qed.

Context (va : Z) (Hva : is_u32 va).

Lemma page_range : 0 <= va / 4096 < NPAGES.
Proof. unfold is_u32, NPAGES in *. lia_mod. Qed.

Lemma GET_PDE_spec : GET_PDE s va = Ret (dirent s (va / 4096 / 1024)).
Proof.
  unfold GET_PDE. rewrite PDEIDX_div. apply load_dir. pose proof page_range.
  unfold NPAGES in *. lia_mod.
Qed.

Lemma GET_PTE_spec :
  GET_PTE s va = match pte_at s (va / 4096) with Some e => Ret e | None => Fault end.
Proof.
  unfold GET_PTE, PTABIDX. rewrite Z.shiftr_div_pow2 by lia. apply load_pte, page_range.
Qed.

Lemma present_pte_at : present (dirent s (va / 4096 / 1024)) = bool_decide (is_Some (pte_at s (va / 4096))).
Proof. unfold pte_at. by destruct (present _). Qed.

Lemma page_mapped_spec : page_mapped s va = Ret (present (view s (va / 4096))).
Proof.
  unfold page_mapped, view. rewrite GET_PDE_spec. simpl. rewrite GET_PTE_spec.
  unfold pte_at. destruct (present (dirent _ _)); simpl; [|done]. by destruct (present _).
Qed.

Lemma page_directory_mapped_spec :
  page_directory_mapped s va = Ret (bool_decide (is_Some (pte_at s (va / 4096)))).
Proof. unfold page_directory_mapped. rewrite GET_PDE_spec. simpl. by rewrite present_pte_at. Qed.
End Walk.

(** ** Changing entries *)

(** From [s] with free frames [fs] to [s'] with [fs'], a suffix of [fs]: the frames taken
    have become page tables or belong to the caller, and [V] is the new page map. *)
Record vm_step (s : machine) (fs : list nat) (s' : machine) (fs' : list nat) (V : Z -> Z) : Prop := {
  vs_ok : vm_ok s' fs';
  vs_view : forall q, plain q -> view s' q = V q;
  vs_grow : forall q, 0 <= q < NPAGES -> is_Some (pte_at s q) -> is_Some (pte_at s' q);
  vs_suffix : exists taken, fs = taken ++ fs';
  vs_tables : forall f, is_table s' f -> is_table s f \/ (Z.to_nat f ∈ fs /\ (Z.to_nat f ∉ fs'));
  vs_tables_grow : forall f, is_table s f -> is_table s' f;
  vs_data : forall g, ~ is_table s' g -> phys s' g = phys s g;
  vs_frames : same_frames (frames s) (frames s') (fun i => i ∈ fs);
}.

Section Change.
Context (s : machine) (fs : list nat) (Hok : vm_ok s fs).

Lemma table_not_dir i : 0 <= i < 1024 -> i <> 576 -> present (dirent s i) = true ->
  BTOP (dirent s i) <> cr3 s.
Proof.
  intros Hi Hne Hp Heq. apply Hne. destruct (do_self _ (vo_dir _ _ Hok)) as [Hp5 Hb5].
  apply (do_inj _ (vo_dir _ _ Hok)); [lia|lia|done|done|]. by rewrite Hb5.
Qed.

(** One entry of a table other than the directory. *)
Lemma put_pte p v : plain p -> present (dirent s (p / 1024)) = true ->
  vm_step s fs (set_phys s (put_word (phys s) (BTOP (dirent s (p / 1024))) (p mod 1024) v)) fs
    (fun q => if decide (q = p) then v else view s q).
Proof.
  intros (Hp & Hp5 & Hpd) Hpr. set (f := BTOP (dirent s (p / 1024))). set (s' := set_phys s _).
  assert (Hi : 0 <= p / 1024 < 1024) by (unfold NPAGES in *; lia_mod).
  assert (Hde : forall i, dirent s' i = dirent s i).
  { intros i. unfold dirent, s'. simpl. unfold put_word.
    rewrite (proj2 (Z.eqb_neq _ _)); [done|]. symmetry. by apply table_not_dir. }
  assert (Hte : forall q, 0 <= q < NPAGES -> q <> p -> pte_at s' q = pte_at s q).
  { intros q Hq Hne. unfold pte_at. rewrite Hde. destruct (present (dirent s (q / 1024))) eqn:Hq'; [|done].
    f_equal. unfold s'. simpl. unfold put_word. destruct (Z.eqb_spec (BTOP (dirent s (q / 1024))) f) as [Heq|]; [|done].
    apply (do_inj _ (vo_dir _ _ Hok)) in Heq; [|unfold NPAGES in *; lia_mod|done|done|done].
    rewrite (proj2 (Z.eqb_neq _ _)); [done|]. intros Hm. apply Hne. lia_mod. }
  assert (Htp : pte_at s' p = Some v).
  { unfold pte_at. rewrite Hde, Hpr. unfold s'. simpl. unfold put_word. fold f. by rewrite !Z.eqb_refl. }
  assert (Htab : forall g, is_table s' g <-> is_table s g).
  { intros g. unfold is_table. by setoid_rewrite Hde. }
  constructor.
  - destruct Hok as [Hfr Hdir Htb Hmx]. constructor; [done| |by setoid_rewrite Htab|done].
    constructor; rewrite ?Hde; try apply Hdir.
    + unfold s'. simpl. unfold put_word.
      destruct (Z.eqb_spec (BTOP (dirent s 577)) f) as [Heq|]; [|apply Hdir].
      apply (do_inj _ Hdir) in Heq; [|done..|apply Hdir|done].
      rewrite (proj2 (Z.eqb_neq _ _)); [apply Hdir|]. intros Hm. apply Hpd. lia_mod.
    + intros i j. rewrite !Hde. apply Hdir.
  - intros q (Hq & _ & _). unfold view. destruct (decide (q = p)) as [->|Hne]; [by rewrite Htp|].
    by rewrite Hte.
  - intros q Hq Hs. destruct (decide (q = p)) as [->|Hne]; [by rewrite Htp|]. by rewrite Hte.
  - by exists [].
  - intros g Hg. left. by apply Htab.
  - intros g. apply Htab.
  - intros g Hg. unfold s'. simpl. unfold put_word. rewrite (proj2 (Z.eqb_neq _ _)); [done|].
    intros ->. apply Hg. apply Htab. by exists (p / 1024).
  - by split.
Qed.

(** A fresh frame becomes the empty table [i]. *)
Definition with_table (i e : Z) : machine :=
  set_phys s (put_zeros (put_word (phys s) (cr3 s) i e) (BTOP e)).

Lemma put_table_dir i e : 0 <= i < 1024 -> present (dirent s i) = false -> present e = true ->
  ~ is_table s (BTOP e) -> dir_ok (set_phys s (put_word (phys s) (cr3 s) i e)) /\ dir_ok (with_table i e).
Proof.
  intros Hi Hn He Hf. destruct (vo_dir _ _ Hok) as [[Hp5 Hb5] Hsy Hdi Hin].
  assert (Hi5 : i <> 576) by (intros ->; congruence).
  assert (Hi7 : i <> 577) by (intros ->; congruence).
  assert (Hfc : BTOP e <> cr3 s).
  { intros Heq. apply Hf. exists 576. rewrite Hb5. done. }
  assert (Hne : forall j, 0 <= j < 1024 -> present (dirent s j) = true -> BTOP (dirent s j) <> BTOP e).
  { intros j Hj Hp Heq. apply Hf. by exists j. }
  assert (H7 : BTOP (dirent s 577) <> cr3 s).
  { intros Heq. enough (577 = 576) by lia. apply Hin; [lia|lia|done|done|]. by rewrite Hb5. }
  assert (Hg : forall m, m = set_phys s (put_word (phys s) (cr3 s) i e) \/ m = with_table i e ->
    (forall j, dirent m j = if j =? i then e else dirent s j) /\ cr3 m = cr3 s
    /\ phys m (BTOP (dirent s 577)) = phys s (BTOP (dirent s 577))).
  { intros m [->| ->]; unfold dirent, with_table; simpl; unfold put_zeros, put_word; split_and!; try done.
    - intros j. by rewrite Z.eqb_refl.
    - unfold dirent in H7. by rewrite (proj2 (Z.eqb_neq _ _) H7).
    - intros j. rewrite (proj2 (Z.eqb_neq (cr3 s) _)) by congruence. by rewrite Z.eqb_refl.
    - rewrite (proj2 (Z.eqb_neq _ (BTOP e))) by (by apply (Hne 577)).
      unfold dirent in H7. by rewrite (proj2 (Z.eqb_neq _ _) H7). }
  assert (forall m, m = set_phys s (put_word (phys s) (cr3 s) i e) \/ m = with_table i e -> dir_ok m)
    as Hall; [|split; apply Hall; auto].
  intros m Hm. destruct (Hg m Hm) as (Hd & Hc & Hph).
  assert (forall j, j <> i -> dirent m j = dirent s j) as Hd'.
  { intros j Hj. rewrite Hd. by rewrite (proj2 (Z.eqb_neq _ _)). }
  constructor.
  - rewrite Hd', Hc by done. done.
  - rewrite Hd' by done. done.
  - rewrite Hd', Hph, Hc by done. done.
  - intros a b Ha Hb. rewrite !Hd.
    destruct (Z.eqb_spec a i) as [->|], (Z.eqb_spec b i) as [->|]; [done| | |by apply Hin].
    + intros _ Hp Heq. by destruct (Hne b Hb Hp).
    + intros Hp _ Heq. by destruct (Hne a Ha Hp).
Qed.
End Change.

Lemma same_frames_trans p1 p2 p3 (T1 T2 : nat -> Prop) :
  same_frames p1 p2 T1 -> same_frames p2 p3 T2 -> (forall i, T2 i -> T1 i) -> same_frames p1 p3 T1.
Proof.
  intros [Hl1 Ht1] [Hl2 Ht2] Hsub. split; [congruence|]. intros i Hi. rewrite Ht2, Ht1; naive_solver.
Qed.

Lemma vm_step_trans s fs s1 fs1 s2 fs2 V1 V2 :
  vm_step s fs s1 fs1 V1 -> vm_step s1 fs1 s2 fs2 V2 -> vm_step s fs s2 fs2 V2.
Proof.
  intros H1 H2. pose proof (vs_suffix _ _ _ _ _ H1) as [t1 E1].
  pose proof (vs_suffix _ _ _ _ _ H2) as [t2 E2]. constructor.
  - apply H2.
  - apply H2.
  - intros q Hq Hs. by apply H2, H1.
  - exists (t1 ++ t2). by rewrite E1, E2, (assoc_L (++)).
  - intros f Hf. destruct (vs_tables _ _ _ _ _ H2 f Hf) as [H|[? ?]].
    + destruct (vs_tables _ _ _ _ _ H1 f H) as [?|[? Hn]]; [by left|right]. split; [done|].
      rewrite E2 in Hn. set_solver.
    + right. split; [rewrite E1; set_solver|done].
  - intros f Hf. by apply H2, H1.
  - intros g Hg. rewrite (vs_data _ _ _ _ _ H2) by done. apply H1. intros H. by apply Hg, H2.
  - eapply same_frames_trans; [apply H1|apply H2|]. intros i Hi. rewrite E1. set_solver.
Qed.

Lemma vm_step_view s fs s' fs' V V' :
  vm_step s fs s' fs' V -> (forall q, plain q -> V q = V' q) -> vm_step s fs s' fs' V'.
Proof.
  intros [H1 H2 H3 H4 H5 H6 H7 H8] HV. constructor; try done. intros q Hq. rewrite H2, HV by done. done.
Qed.

Lemma vm_step_refl s fs : vm_ok s fs -> vm_step s fs s fs (view s).
Proof. intros Hok. constructor; auto; [by exists []|by split]. Qed.

Lemma same_frames_mono p p' (T T' : nat -> Prop) :
  same_frames p p' T -> (forall i, T i -> T' i) -> same_frames p p' T'.
Proof. intros [Hl Ht] Hs. split; [done|]. intros i Hi. apply Ht. auto. Qed.

Lemma dir_ok_frames s p : dir_ok s -> dir_ok (set_frames s p).
Proof. intros []. by constructor. Qed.

(** The next free frame becomes the table of directory entry [i]. *)
Lemma put_table s f fs p' i e :
  vm_ok s (f :: fs) -> inv p' fs -> same_frames (frames s) p' (eq f) -> maxmem p' = maxmem (frames s) ->
  (f < length (pfdb (frames s)))%nat ->
  0 <= i < 1024 -> present (dirent s i) = false -> present e = true -> BTOP e = Z.of_nat f ->
  vm_step s (f :: fs) (with_table (set_frames s p') i e) fs (view s)
  /\ pte_at (with_table (set_frames s p') i e) (i * 1024) = Some 0.
Proof.
  intros Hok Hinv Hsame Hmax Hlt Hi Hn He Hbe. set (s' := with_table _ _ _).
  assert (Hfr : ~ is_table s (BTOP e)).
  { intros Ht. apply (vo_tables _ _ Hok) in Ht as [_ Ht]. apply Ht. rewrite Hbe, Nat2Z.id. set_solver. }
  assert (Hdir : dir_ok s').
  { apply (dir_ok_frames (with_table s i e)). by apply (put_table_dir s (f :: fs) Hok i e). }
  assert (Hc : BTOP e <> cr3 s).
  { intros Heq. apply Hfr. exists 576. destruct (do_self _ (vo_dir _ _ Hok)) as [? ->]. done. }
  assert (Hde : forall j, dirent s' j = if j =? i then e else dirent s j).
  { intros j. unfold dirent, s', with_table. simpl. unfold put_zeros, put_word.
    rewrite (proj2 (Z.eqb_neq (cr3 s) _)) by congruence. by rewrite Z.eqb_refl. }
  assert (Hph : forall g, g <> BTOP e -> g <> cr3 s -> phys s' g = phys s g).
  { intros g H1 H2. unfold s', with_table. simpl. unfold put_zeros, put_word.
    by rewrite (proj2 (Z.eqb_neq _ _) H1), (proj2 (Z.eqb_neq _ _) H2). }
  assert (Hte : forall q, 0 <= q < NPAGES -> q / 1024 <> 576 -> pte_at s' q = if q / 1024 =? i then Some 0 else pte_at s q).
  { intros q Hq Hq5. unfold pte_at. rewrite Hde. destruct (Z.eqb_spec (q / 1024) i) as [Heq|Hne].
    - rewrite He. f_equal. unfold s', with_table. simpl. unfold put_zeros. by rewrite Z.eqb_refl.
    - destruct (present (dirent s (q / 1024))) eqn:Hp; [|done]. f_equal. rewrite Hph; [done| |].
      + intros Heq. apply Hfr. exists (q / 1024). unfold NPAGES in Hq. split; [lia_mod|done].
      + apply (table_not_dir s _ Hok); [unfold NPAGES in Hq; lia_mod|done|done]. }
  assert (Htab : forall g, is_table s' g <-> is_table s g \/ g = BTOP e).
  { intros g. unfold is_table. setoid_rewrite Hde. split.
    - intros (j & Hj & Hp & Hb). destruct (Z.eqb_spec j i); [by right|]. left. by exists j.
    - intros [(j & Hj & Hp & Hb)| ->].
      + exists j. rewrite (proj2 (Z.eqb_neq j i)) by congruence. done.
      + exists i. by rewrite Z.eqb_refl. }
  assert (Hi5 : i <> 576) by (intros ->; destruct (do_self _ (vo_dir _ _ Hok)); congruence).
  split; [|rewrite Hte by (unfold NPAGES; lia_mod); by rewrite (proj2 (Z.eqb_eq _ _)) by lia_mod].
  destruct Hsame as [Hlen Htag]. constructor.
  - constructor; [done|done| |by simpl; rewrite Hmax; apply Hok].
    intros g [Hg| ->]%Htab; unfold s', with_table; simpl; rewrite Hlen.
    + apply (vo_tables _ _ Hok) in Hg. set_solver.
    + rewrite Hbe, Nat2Z.id. split; [lia|]. pose proof (inv_nodup _ _ (vo_frames _ _ Hok)) as Hnd.
      by apply NoDup_cons in Hnd as [? _].
  - intros q (Hq & Hq5 & _). unfold view. rewrite Hte by done. destruct (Z.eqb_spec (q / 1024) i) as [Heq|]; [|done].
    unfold pte_at. by rewrite Heq, Hn.
  - intros q Hq Hs. unfold pte_at in *. rewrite Hde. destruct (q / 1024 =? i); [by rewrite He|].
    by destruct (present (dirent s (q / 1024))).
  - by exists [f].
  - intros g [Hg| ->]%Htab; [by left|]. right. rewrite Hbe, Nat2Z.id. split; [set_solver|].
    pose proof (inv_nodup _ _ (vo_frames _ _ Hok)) as Hnd. by apply NoDup_cons in Hnd as [? _].
  - intros g Hg. apply Htab. by left.
  - intros g Hg. apply Hph; intros ->; apply Hg, Htab; [by right|].
    left. exists 576. destruct (do_self _ (vo_dir _ _ Hok)) as [? ->]. done.
  - split; [done|]. intros j Hj. apply Htag. set_solver.
Qed.

Definition set_view (V : Z -> Z) (p v : Z) : Z -> Z := fun q => if decide (q = p) then v else V q.

(** [SET_PTE] of a page with a page table. *)
Lemma SET_PTE_spec s fs va v :
  vm_ok s fs -> is_u32 va -> plain (va / 4096) -> is_Some (pte_at s (va / 4096)) ->
  exists s', SET_PTE s va v = Ret s' /\ vm_step s fs s' fs (set_view (view s) (va / 4096) v)
    /\ frames s' = frames s.
Proof.
  intros Hok Hva Hpl Hp. unfold SET_PTE, PTABIDX. rewrite Z.shiftr_div_pow2 by lia. change (2 ^ 12) with 4096.
  assert (present (dirent s (va / 4096 / 1024)) = true) as Hpr.
  { unfold pte_at in Hp. destruct (present _); [done|]. by destruct Hp. }
  rewrite (store_pte s (vo_dir _ _ Hok)) by (done || apply Hpl).
  eexists. split; [reflexivity|]. split; [|done]. by apply put_pte.
Qed.

(** [alloc_pageframe] keeps the number of frames. *)
Lemma alloc_frame_spec st fs tag :
  inv st fs ->
  match fs with
  | [] => alloc_pageframe st tag = Panic
  | f :: fs' => exists st', alloc_pageframe st tag = Ret (Z.of_nat f, st')
      /\ inv st' fs' /\ has_tag st' tag f /\ same_frames st st' (eq f)
      /\ maxmem st' = maxmem st /\ (f < length (pfdb st))%nat
  end.
Proof.
  intros Hi. pose proof (alloc_pageframe_spec st fs tag Hi) as H.
  destruct fs as [|f fs]; [done|]. destruct H as (st' & Ha & Hi' & Ht & Hs & _).
  exists st'. split_and!; try done.
  - rewrite (inv_max _ _ Hi'), (inv_max _ _ Hi). by rewrite (proj1 Hs).
  - pose proof (inv_free _ _ Hi) as Hf. apply Forall_cons in Hf as [(x & Hx & _) _].
    by apply lookup_lt_Some in Hx.
Qed.

Lemma mmu_frames s p va : mmu (set_frames s p) va = mmu s va.
Proof. done. Qed.

(** [map_page]: the entry is written, in a new page table when there is none. *)
Lemma map_page_spec s fs va pfn flags :
  vm_ok s fs -> is_u32 va -> plain (va / 4096) -> pfn <> 0xFFFFFFFF ->
  let V := set_view (view s) (va / 4096) (Z.lor (PTOB pfn) flags) in
  if bool_decide (is_Some (pte_at s (va / 4096))) then
    exists s', map_page s va pfn flags = Ret s' /\ vm_step s fs s' fs V
      /\ is_Some (pte_at s' (va / 4096))
  else
    match fs with
    | [] => map_page s va pfn flags = Panic
    | f :: fs' => exists s', map_page s va pfn flags = Ret s' /\ vm_step s fs s' fs' V
        /\ is_Some (pte_at s' (va / 4096))
    end.
Proof.
  intros Hok Hva Hpl Hpfn V. unfold map_page. rewrite (GET_PDE_spec s (vo_dir _ _ Hok)) by done. simpl.
  rewrite present_pte_at. destruct (bool_decide _) eqn:Hb.
  { apply bool_decide_eq_true in Hb. simpl.
    destruct (SET_PTE_spec s fs va (Z.lor (PTOB pfn) flags) Hok Hva Hpl Hb) as (s' & Hs & Hst & _).
    exists s'. split_and!; [done..|]. apply (vs_grow _ _ _ _ _ Hst); [apply Hpl|done]. }
  apply bool_decide_eq_false in Hb.
  pose proof (alloc_frame_spec (frames s) fs TAG_PTAB (vo_frames _ _ Hok)) as Ha.
  destruct fs as [|f fs]; [by rewrite Ha|].
  destruct Ha as (p' & -> & Hinv & _ & Hsame & Hmax & Hlt). simpl.
  assert (Hf : 0 <= Z.of_nat f < NPAGES).
  { pose proof (vo_max _ _ Hok). rewrite (inv_max _ _ (vo_frames _ _ Hok)) in H. lia. }
  rewrite (proj2 (Z.eqb_neq _ 0xFFFFFFFF)) by done.
  set (i := va / 4096 / 1024). assert (Hi : 0 <= i < 1024) by (unfold i, is_u32 in *; lia_mod).
  set (e := Z.lor (Z.lor (Z.lor (PTOB (Z.of_nat f)) PT_PRESENT) PT_WRITABLE) PT_USER).
  assert (He : e = Z.lor (PTOB (Z.of_nat f)) 7) by (unfold e; rewrite <- !Z.lor_assoc; done).
  assert (Hpe : present e = true) by (rewrite He, pte_present by done; done).
  assert (Hbe : BTOP e = Z.of_nat f) by (rewrite He; apply pte_BTOP; [done|lia]).
  assert (Hn : present (dirent s i) = false).
  { unfold i. rewrite present_pte_at. by apply bool_decide_eq_false. }
  destruct (put_table s f fs p' i e Hok Hinv Hsame Hmax Hlt Hi Hn Hpe Hbe) as [Hst Hpt].
  pose proof (dir_ok_frames s p' (vo_dir _ _ Hok)) as Hdir2.
  unfold SET_PDE. rewrite PDEIDX_div. fold i. rewrite (store_dir _ Hdir2) by done. cbn [obind].
  destruct (put_table_dir s (f :: fs) Hok i e Hi Hn Hpe) as [Hdw _].
  { intros Ht. apply (vo_tables _ _ Hok) in Ht as [_ Ht]. apply Ht. rewrite Hbe, Nat2Z.id. set_solver. }
  unfold clear_page.
  replace (PTBASE + 4 * (i * PTES_PER_PAGE)) with (PTBASE + (i * 4096 + 0)) by (unfold PTES_PER_PAGE; lia).
  rewrite mmu_table; [|by apply (dir_ok_frames _ p') in Hdw|done|lia].
  unfold dirent at 1 2. cbn [set_phys set_frames phys cr3]. unfold put_word at 1 2. rewrite !Z.eqb_refl, Hpe. cbn [obind].
  change (set_phys _ _) with (with_table (set_frames s p') i e). set (s1 := with_table _ _ _) in *.
  assert (Hsome : is_Some (pte_at s1 (va / 4096))).
  { unfold pte_at in Hpt |- *. fold i. replace (i * 1024 / 1024) with i in Hpt by lia_mod.
    by destruct (present (dirent s1 i)). }
  destruct (SET_PTE_spec s1 fs va (Z.lor (PTOB pfn) flags) (vs_ok _ _ _ _ _ Hst) Hva Hpl Hsome)
    as (s' & Hs & Hst2 & _).
  exists s'. split; [done|]. split; [|apply (vs_grow _ _ _ _ _ Hst2); [apply Hpl|done]]. eapply vm_step_view; [by eapply vm_step_trans|].
  intros q Hq. unfold V, set_view. case_decide; [done|]. apply (vs_view _ _ _ _ _ Hst). done.
Qed.

(** The frame and the flags of a page, read back. *)
Lemma view_some s p : is_Some (pte_at s p) -> pte_at s p = Some (view s p).
Proof. unfold view. intros [e ->]. done. Qed.

Lemma present_some s p : present (view s p) = true -> is_Some (pte_at s p).
Proof. unfold view. destruct (pte_at s p); [eauto|done]. Qed.

Section Read.
Context (s : machine) (Hd : dir_ok s) (va : Z) (Hva : is_u32 va).
Context (Hp : is_Some (pte_at s (va / 4096))).

Lemma GET_PTE_view : GET_PTE s va = Ret (view s (va / 4096)).
Proof. rewrite GET_PTE_spec by done. by rewrite view_some. Qed.

Lemma get_page_flags_spec : get_page_flags s va = Ret (Z.land (view s (va / 4096)) PT_FLAGMASK).
Proof. unfold get_page_flags. by rewrite GET_PTE_view. Qed.

Lemma virt2phys_spec pfn flags : 0 <= pfn < NPAGES -> 0 <= flags < 4096 ->
  view s (va / 4096) = Z.lor (PTOB pfn) flags -> virt2phys s va = Ret (pfn * 4096 + va mod 4096).
Proof.
  intros Hpf Hf Hv. unfold virt2phys. rewrite GET_PTE_view, Hv, PGOFF_mod. simpl.
  rewrite pte_sum by done. rewrite land_PFNMASK by (unfold is_u32, NPAGES in *; lia).
  rewrite u32_small; [f_equal; lia_mod|unfold is_u32, NPAGES in *; lia_mod].
Qed.

Lemma virt2pfn_spec : is_u32 (view s (va / 4096)) -> virt2pfn s va = Ret (BTOP (view s (va / 4096))).
Proof.
  intros Hu. unfold virt2pfn. rewrite GET_PTE_view. simpl. rewrite land_PFNMASK, !BTOP_div by done.
  f_equal. lia_mod.
Qed.
End Read.

(** Writes to a mapped page: [unmap_page], [set_page_flags] and [clear_page]. *)
Lemma unmap_page_spec s fs va :
  vm_ok s fs -> is_u32 va -> plain (va / 4096) -> is_Some (pte_at s (va / 4096)) ->
  exists s', unmap_page s va = Ret s' /\ vm_step s fs s' fs (set_view (view s) (va / 4096) 0)
    /\ frames s' = frames s.
Proof. apply SET_PTE_spec. Qed.

Lemma set_page_flags_spec s fs va flags :
  vm_ok s fs -> is_u32 va -> plain (va / 4096) -> is_Some (pte_at s (va / 4096)) ->
  exists s', set_page_flags s va flags = Ret s'
    /\ vm_step s fs s' fs (set_view (view s) (va / 4096)
         (Z.lor (Z.land (view s (va / 4096)) PT_PFNMASK) flags))
    /\ frames s' = frames s.
Proof.
  intros Hok Hva Hpl Hp. unfold set_page_flags. rewrite GET_PTE_view by (done || apply Hok). simpl.
  by apply SET_PTE_spec.
Qed.

(** Words of a frame that is no page table do not matter to the page map. *)
Lemma data_change s s' fs f :
  vm_ok s fs -> ~ is_table s f -> cr3 s' = cr3 s -> frames s' = frames s ->
  (forall g, g <> f -> phys s' g = phys s g) ->
  vm_ok s' fs /\ (forall q, 0 <= q < NPAGES -> pte_at s' q = pte_at s q)
  /\ (forall g, is_table s' g <-> is_table s g).
Proof.
  intros Hok Hnt Hc Hf Hph.
  assert (Hne : forall g, is_table s g -> phys s' g = phys s g).
  { intros g Hg. apply Hph. intros ->. done. }
  assert (Hcr : is_table s (cr3 s)).
  { exists 576. destruct (do_self _ (vo_dir _ _ Hok)). done. }
  assert (Hde : forall i, dirent s' i = dirent s i).
  { intros i. unfold dirent. by rewrite Hc, Hne. }
  assert (Htab : forall g, is_table s' g <-> is_table s g).
  { intros g. unfold is_table. by setoid_rewrite Hde. }
  split_and!; [| |done].
  - destruct Hok as [Hfr Hdir Htb Hmx]. constructor; rewrite ?Hf; [done| |by setoid_rewrite Htab|done].
    constructor; rewrite ?Hde, ?Hc; try apply Hdir.
    + rewrite Hne; [apply Hdir|]. exists 577. split; [lia|]. split; [apply Hdir|done].
    + intros i j. rewrite !Hde. apply Hdir.
  - intros q Hq. unfold pte_at. rewrite Hde. destruct (present (dirent s (q / 1024))) eqn:Hp; [|done].
    rewrite Hne; [done|]. exists (q / 1024). unfold NPAGES in Hq. split; [lia_mod|done].
Qed.

(** The frame of a page that is present. *)
Lemma mmu_present s va : is_u32 va -> present (view s (va / 4096)) = true ->
  mmu s va = Ret (BTOP (view s (va / 4096))).
Proof.
  intros Hva Hp. pose proof (mmu_page s (va / 4096) (va mod 4096) (page_range va Hva) ltac:(lia_mod)) as Hm.
  replace (va / 4096 * 4096 + va mod 4096) with va in Hm by lia_mod.
  rewrite Hm, view_some by (by apply present_some). by rewrite Hp.
Qed.

Lemma clear_page_spec s fs va f flags :
  vm_ok s fs -> is_u32 va -> 0 <= f < NPAGES -> present flags = true -> 0 <= flags < 4096 ->
  view s (va / 4096) = Z.lor (PTOB f) flags -> ~ is_table s f ->
  exists s', clear_page s va = Ret s' /\ vm_ok s' fs /\ frames s' = frames s
    /\ (forall q, 0 <= q < NPAGES -> pte_at s' q = pte_at s q)
    /\ (forall g, is_table s' g <-> is_table s g)
    /\ (forall g, phys s' g = if g =? f then (fun _ => 0) else phys s g).
Proof.
  intros Hok Hva Hf Hpr Hfl Hv Hnt. unfold clear_page.
  rewrite mmu_present by (done || by rewrite Hv, pte_present). rewrite Hv, pte_BTOP by done. simpl.
  eexists. split; [reflexivity|]. set (s' := set_phys s _).
  destruct (data_change s s' fs f Hok Hnt) as (H1 & H2 & H3); [done|done| |by split_and!].
  intros g Hg. simpl. unfold put_zeros. by rewrite (proj2 (Z.eqb_neq _ _) Hg).
Qed.

(** ** Access checks *)

Definition accessible (s : machine) (p access : Z) : Prop :=
  exists e, pte_at s p = Some e /\ Z.land e access = access.

(** The number of pages that [mem_access] looks at. *)
Definition pages_checked (size : Z) : Z := Z.max 1 ((size + 4095) / 4096).

Section Checks.
Context (fetch_page : machine -> Z -> outcome (Z * machine)) (I : machine -> Prop).

(** What the checks need of [fetch_page]: it returns, and pages that are there stay. *)
Definition fetch_ok : Prop := forall s va, I s -> is_u32 va ->
  exists rc s', fetch_page s va = Ret (rc, s') /\ I s'
    /\ forall p access, accessible s p access -> accessible s' p access.

Context (HI : forall s, I s -> dir_ok s) (Hfetch : fetch_ok).

Lemma check_page_spec s va access : I s -> is_u32 va ->
  exists b s', check_page fetch_page s va access = Ret (b, s') /\ I s'
    /\ (b = true -> accessible s' (va / 4096) access)
    /\ (forall p access, accessible s p access -> accessible s' p access)
    /\ (accessible s (va / 4096) access -> b = true /\ s' = s).
Proof.
  intros Hi Hva. unfold check_page. rewrite (GET_PDE_spec s (HI s Hi)) by done. cbn [obind].
  rewrite present_pte_at. rewrite (GET_PTE_spec s (HI s Hi)) by done.
  destruct (pte_at s (va / 4096)) as [e|] eqn:He; simpl.
  2:{ exists false, s. split_and!; try done. intros (? & ? & ?); congruence. }
  destruct (Z.eqb_spec (Z.land e access) access) as [Ha|Ha]; simpl.
  { exists true, s. split_and!; try done. by exists e. }
  destruct (truthy (Z.land e PT_FILE)).
  2:{ exists false, s. split_and!; try done. intros (? & ? & ?); congruence. }
  destruct (Hfetch s (PAGEADDR va) Hi) as (rc & s' & Hr & Hi' & Hm).
  { rewrite PAGEADDR_div by done. unfold is_u32 in *. lia_mod. }
  rewrite Hr. simpl. destruct (rc <? 0).
  { exists false, s'. split_and!; try done. intros (? & ? & ?); congruence. }
  rewrite (GET_PTE_spec s' (HI s' Hi')) by done.
  destruct (Hm (va / 4096) 0) as (e' & He' & _); [exists e; by rewrite Z.land_0_r|].
  rewrite He'. simpl. destruct (Z.eqb_spec (Z.land e' access) access) as [Ha'|Ha']; simpl.
  - exists true, s'. split_and!; try done; [by exists e'|intros (? & ? & ?); congruence].
  - exists false, s'. split_and!; try done. intros (? & ? & ?); congruence.
Qed.

Lemma mem_access_loop_spec fuel s addr size access :
  I s -> is_u32 addr -> 0 <= size < 2 ^ 31 -> addr + 4096 * (pages_checked size - 1) < 2 ^ 32 ->
  size / 4096 + 1 < Z.of_nat fuel ->
  exists b s', mem_access_loop fetch_page fuel s addr (u32 (addr + PAGESIZE)) size access = Ret (b, s')
    /\ I s' /\ (forall p access, accessible s p access -> accessible s' p access)
    /\ (b = true -> forall k, 0 <= k < pages_checked size -> accessible s' (addr / 4096 + k) access)
    /\ ((forall k, 0 <= k < pages_checked size -> accessible s (addr / 4096 + k) access) -> b = true /\ s' = s).
Proof.
  revert s addr size. induction fuel as [|fuel IH]; intros s addr size Hi Ha Hs Hr Hf; [lia_mod|].
  simpl. destruct (check_page_spec s addr access Hi Ha) as (b & s1 & -> & Hi1 & Ht & Hm & Hc). simpl.
  assert (Hpc : 1 <= pages_checked size) by (unfold pages_checked; lia).
  assert (H0 : (forall k, 0 <= k < pages_checked size -> accessible s (addr / 4096 + k) access) ->
    b = true /\ s1 = s).
  { intros H. apply Hc. specialize (H 0). rewrite Z.add_0_r in H. apply H. lia. }
  destruct b; simpl.
  2:{ by exists false, s1. }
  assert (Hsub : u32 (u32 (addr + PAGESIZE) - addr) = 4096).
  { unfold u32, uwrap, is_u32, PAGESIZE in *. lia_mod. }
  rewrite Hsub, s32_small by (unfold is_s32; lia). destruct (Z.leb_spec (size - 4096) 0) as [Hle|Hgt].
  - assert (pages_checked size = 1) as Hone by (unfold pages_checked; lia_mod).
    exists true, s1. split_and!; try done. intros _ k Hk. replace k with 0 by lia. rewrite Z.add_0_r. auto.
  - assert (Hps : pages_checked size = pages_checked (size - 4096) + 1) by (unfold pages_checked; lia_mod).
    assert (Hpc' : 1 <= pages_checked (size - 4096)) by (unfold pages_checked; lia).
    assert (Ha4 : is_u32 (addr + 4096)) by (unfold is_u32 in *; lia).
    replace (u32 (addr + PAGESIZE)) with (addr + 4096) by (by rewrite u32_small).
    destruct (IH s1 (addr + 4096) (size - 4096) Hi1 Ha4) as (b & s2 & Hb & Hi2 & Hm2 & Ht2 & Hc2);
      [lia|lia|lia_mod|].
    replace ((addr + 4096) / 4096) with (addr / 4096 + 1) in * by lia_mod.
    exists b, s2. split_and!; [done|done|by auto| |].
    + intros Hb' k Hk. destruct (decide (k = 0)) as [->|]; [rewrite Z.add_0_r; auto|].
      replace (addr / 4096 + k) with (addr / 4096 + 1 + (k - 1)) by lia. apply Ht2; [done|lia].
    + intros H. destruct (H0 H) as [_ ->]. apply Hc2. intros k Hk.
      replace (addr / 4096 + 1 + k) with (addr / 4096 + (k + 1)) by lia. apply H. lia.
Qed.

(** The first value of [next]: one page on, or the address itself in an odd page. *)
Lemma first_next va : is_u32 va ->
  u32 (Z.land va (u32 (Z.lnot PAGESIZE)) + PAGESIZE) =
    if Z.testbit va 12 then va else u32 (va + PAGESIZE).
Proof.
  intros Hva. change (u32 (Z.lnot PAGESIZE)) with (Z.ones 32 - 2 ^ 12). change PAGESIZE with (2 ^ 12).
  assert (Z.land va (Z.ones 32 - 2 ^ 12) = Z.ldiff va (2 ^ 12)) as ->.
  { apply Z.bits_inj_iff'. intros n Hn. rewrite Z.ldiff_spec, Z.land_spec, Z.pow2_bits_eqb by lia.
    destruct (Z.ltb_spec n 32) as [Hlt|Hge].
    - f_equal. assert (Hall : forallb (fun n => eqb (Z.testbit (Z.ones 32 - 2 ^ 12) (Z.of_nat n))
        (negb (12 =? Z.of_nat n))) (seq 0 32) = true) by (by vm_compute).
      rewrite forallb_forall in Hall. specialize (Hall (Z.to_nat n)).
      rewrite Z2Nat.id in Hall by done. apply eqb_prop, Hall, in_seq. lia.
    - assert (Z.testbit va n = false) as ->; [|done]. apply testbit_small. unfold is_u32 in *.
      pose proof (Z.pow_le_mono_r 2 32 n). lia. }
  destruct (Z.testbit va 12) eqn:Hb.
  - rewrite <- Z.sub_nocarry_ldiff.
    2:{ apply Z.bits_inj_iff'. intros n Hn. rewrite Z.ldiff_spec, Z.pow2_bits_eqb, Z.bits_0 by lia.
        destruct (Z.eqb_spec 12 n) as [<-|]; [by rewrite Hb|done]. }
    rewrite Z.sub_add. by apply u32_small.
  - f_equal. f_equal. apply Z.bits_inj_iff'. intros n Hn. rewrite Z.ldiff_spec, Z.pow2_bits_eqb by lia.
    destruct (Z.eqb_spec 12 n) as [<-|]; [by rewrite Hb|]. by rewrite andb_true_r.
Qed.

Lemma mem_access_spec s va size access :
  I s -> is_u32 va -> 0 <= size < 2 ^ 31 -> va + size <= 2 ^ 32 ->
  exists b s', mem_access fetch_page s va size access = Ret (b, s') /\ I s'
    /\ (b = true -> forall k, 0 <= k < pages_checked size -> accessible s' (va / 4096 + k) access)
    /\ ((forall k, 0 <= k < pages_checked size -> accessible s (va / 4096 + k) access) -> b = true /\ s' = s).
Proof.
  intros Hi Hva Hs Hr. unfold mem_access. rewrite first_next by done.
  assert (Hpr : va + 4096 * (pages_checked size - 1) < 2 ^ 32)
    by (unfold is_u32, pages_checked in *; lia_mod).
  destruct (Z.testbit va 12).
  2:{ destruct (mem_access_loop_spec (Z.to_nat (size / PAGESIZE) + 3) s va size access Hi Hva Hs Hpr)
        as (b & s' & ? & ? & _ & ? & ?); [unfold PAGESIZE; lia_mod|eauto 10]. }
  rewrite Nat.add_succ_r. cbn [mem_access_loop].
  destruct (check_page_spec s va access Hi Hva) as (b & s1 & -> & Hi1 & Ht & Hm & Hc). cbn [obind].
  assert (Hpc : 1 <= pages_checked size) by (unfold pages_checked; lia).
  assert (H0 : (forall k, 0 <= k < pages_checked size -> accessible s (va / 4096 + k) access) ->
    b = true /\ s1 = s).
  { intros H. apply Hc. specialize (H 0). rewrite Z.add_0_r in H. apply H. lia. }
  destruct b; cbn [negb].
  2:{ by exists false, s1. }
  rewrite Z.sub_diag, s32_small by (change (u32 0) with 0; unfold is_s32; lia).
  change (u32 0) with 0. rewrite Z.sub_0_r. destruct (Z.leb_spec size 0) as [Hle|Hgt].
  - assert (pages_checked size = 1) as Hone by (unfold pages_checked; lia_mod).
    exists true, s1. split_and!; try done. intros _ k Hk. replace k with 0 by lia. rewrite Z.add_0_r. auto.
  - destruct (mem_access_loop_spec (Z.to_nat (size / PAGESIZE) + 2) s1 va size access Hi1 Hva Hs Hpr)
      as (b & s' & Hb & Hi' & _ & Ht' & Hc'); [unfold PAGESIZE; lia_mod|].
    exists b, s'. split_and!; try done. intros H. destruct (H0 H) as [_ ->]. by apply Hc'.
Qed.
End Checks.

(** ** An example: a directory, the table of the system page, one of a user's page *)

(** Frame 1 is the directory, 2 the table of the system page, 3 the table of the addresses
    from 0 and 4 the frame of page [0x12]. *)
Definition ex_phys (f i : Z) : Z :=
  match f, i with
  | 1, 0 => 3 * 4096 + 7
  | 1, 576 => 1 * 4096 + 3
  | 1, 577 => 2 * 4096 + 3
  | 2, 1 => 1 * 4096 + 3
  | 3, 0x12 => 4 * 4096 + 7
  | _, _ => 0
  end.

Definition ex_db : list pageframe :=
  replicate 5 (PageFrame TAG_PTAB None) ++
  [PageFrame TAG_FREE (Some 6); PageFrame TAG_FREE (Some 7); PageFrame TAG_FREE (Some 8);
   PageFrame TAG_FREE (Some 9); PageFrame TAG_FREE (Some 10); PageFrame TAG_FREE (Some 11);
   PageFrame TAG_FREE None]%nat.

Definition ex_machine : machine := Machine 1 ex_phys (PfState ex_db (Some 5%nat) 7 12 12).
Definition ex_free : list nat := seq 5 7.

Lemma ex_dirent i : 0 <= i < 1024 -> present (dirent ex_machine i) = true ->
  i = 0 /\ dirent ex_machine i = 3 * 4096 + 7 \/ i = 576 /\ dirent ex_machine i = 1 * 4096 + 3
  \/ i = 577 /\ dirent ex_machine i = 2 * 4096 + 3.
Proof.
  intros Hi. assert (Hall : forallb (fun k => negb (present (dirent ex_machine (Z.of_nat k)))
    || (k =? 0)%nat || (k =? 576)%nat || (k =? 577)%nat) (seq 0 1024) = true) by (by vm_compute).
  rewrite forallb_forall in Hall. specialize (Hall (Z.to_nat i)).
  rewrite Z2Nat.id in Hall by lia. intros Hp. rewrite Hp in Hall. simpl negb in Hall.
  rewrite !orb_true_iff, !Nat.eqb_eq in Hall.
  destruct Hall as [[[?|?]|?]|?]; [apply in_seq; lia|done| | |].
  - replace i with 0 by lia. auto.
  - replace i with 576 by lia. auto.
  - replace i with 577 by lia. auto.
Qed.

Lemma ex_inv : inv (frames ex_machine) ex_free.
Proof.
  constructor; [by repeat split|apply NoDup_seq| |done..].
  repeat apply Forall_cons_2; [..|apply Forall_nil_2]; eexists; (split; [reflexivity|reflexivity]).
Qed.

Lemma ex_ok : vm_ok ex_machine ex_free.
Proof.
  constructor; [apply ex_inv| | |].
  - constructor; [done..|]. intros i j Hi Hj Hpi Hpj.
    destruct (ex_dirent i Hi Hpi) as [[-> ->]|[[-> ->]|[-> ->]]],
      (ex_dirent j Hj Hpj) as [[-> ->]|[[-> ->]|[-> ->]]]; done.
  - intros f (i & Hi & Hp & <-). split.
    + destruct (ex_dirent i Hi Hp) as [[_ ->]|[[_ ->]|[_ ->]]]; by vm_compute.
    + unfold ex_free. rewrite elem_of_seq.
      destruct (ex_dirent i Hi Hp) as [[_ ->]|[[_ ->]|[_ ->]]]; vm_compute; lia.
  - by vm_compute.
Qed.

(** ** The properties *)

(** C12: [map_page], [virt2phys], [get_page_flags], [page_mapped] and [unmap_page] implement a
    map from pages to entries.  In a machine whose directory maps itself and whose tables are
    frames in use, mapping a page outside the tables panics only if the page needs a new
    page table and no frame is free; otherwise it changes the entry of this page alone,
    the address then translates to the frame given and shows the flags given, and
    unmapping it leaves the map without the page. *)
Theorem map_page_correct s fs va pfn flags :
  vm_ok s fs -> is_u32 va -> plain (va / 4096) -> 0 <= pfn < NPAGES -> 0 <= flags < 4096 ->
  (map_page s va pfn flags = Panic /\ pte_at s (va / 4096) = None /\ fs = []) \/
  exists s1 fs1, map_page s va pfn flags = Ret s1 /\ vm_ok s1 fs1
    /\ (forall q, plain q -> view s1 q = set_view (view s) (va / 4096) (pfn * 4096 + flags) q)
    /\ virt2phys s1 va = Ret (pfn * 4096 + va mod 4096)
    /\ get_page_flags s1 va = Ret (Z.land flags PT_FLAGMASK)
    /\ page_mapped s1 va = Ret (present flags)
    /\ exists s2, unmap_page s1 va = Ret s2 /\ vm_ok s2 fs1 /\ page_mapped s2 va = Ret false
      /\ forall q, plain q -> view s2 q = set_view (view s) (va / 4096) 0 q.
Proof.
  intros Hok Hva Hpl Hp Hf.
  assert (Hstep : (map_page s va pfn flags = Panic /\ pte_at s (va / 4096) = None /\ fs = []) \/
    exists s1 fs1, map_page s va pfn flags = Ret s1
      /\ vm_step s fs s1 fs1 (set_view (view s) (va / 4096) (Z.lor (PTOB pfn) flags))
      /\ is_Some (pte_at s1 (va / 4096))).
  { pose proof (map_page_spec s fs va pfn flags Hok Hva Hpl ltac:(unfold NPAGES in *; lia)) as H.
    destruct (bool_decide _) eqn:Hb in H; [|destruct fs as [|f fs]].
    - destruct H as (s1 & ? & ? & ?). right. by exists s1, fs.
    - left. apply bool_decide_eq_false in Hb. by rewrite eq_None_not_Some.
    - destruct H as (s1 & ? & ? & ?). right. by exists s1, fs. }
  destruct Hstep as [|(s1 & fs1 & Hm & Hst & Hso)]; [by left|]. right. exists s1, fs1.
  destruct Hst as [Hok1 Hv1 _ _ _ _ _ _]. rewrite pte_sum in Hv1 by done.
  assert (Hv : view s1 (va / 4096) = pfn * 4096 + flags).
  { rewrite Hv1 by done. unfold set_view. by rewrite decide_True. }
  assert (Hd1 : dir_ok s1) by apply Hok1.
  destruct (unmap_page_spec s1 fs1 va Hok1 Hva Hpl Hso) as (s2 & Hu & [Hok2 Hv2 _ _ _ _ _ _] & _).
  split_and!; try done.
  - by apply (virt2phys_spec s1 Hd1 va Hva Hso pfn flags); rewrite ?pte_sum.
  - rewrite (get_page_flags_spec s1 Hd1 va Hva Hso), Hv, <- pte_sum, pte_land by done. done.
  - rewrite (page_mapped_spec s1 Hd1 va Hva), Hv, <- pte_sum, pte_present by done. done.
  - exists s2. split_and!; try done.
    + rewrite (page_mapped_spec s2 (vo_dir _ _ Hok2) va Hva), Hv2 by done. unfold set_view.
      by rewrite decide_True.
    + intros q Hq. rewrite Hv2 by done. unfold set_view. case_decide; [done|].
      rewrite Hv1 by done. unfold set_view. by rewrite decide_False.
Qed.

(** [mem_access] on a range that starts at a page boundary says yes only if every page
    of the range grants the access, and on any range of bytes it says yes if all pages do.
    It always returns; [fetch_page] may bring in pages on the way. *)
Lemma mem_access_correct fetch_page I s va size access :
  (forall s, I s -> dir_ok s) -> fetch_ok fetch_page I ->
  I s -> is_u32 va -> 0 < size < 2 ^ 31 -> va + size <= 2 ^ 32 ->
  exists b s', mem_access fetch_page s va size access = Ret (b, s') /\ I s'
    /\ (b = true -> va mod 4096 = 0 -> forall x, va <= x < va + size -> accessible s' (x / 4096) access)
    /\ ((forall x, va <= x < va + size -> accessible s (x / 4096) access) -> b = true /\ s' = s).
Proof.
  intros HI Hf Hi Hva Hs Hr.
  destruct (mem_access_spec fetch_page I HI Hf s va size access Hi Hva ltac:(lia) Hr)
    as (b & s' & Hm & Hi' & Ht & Hc).
  exists b, s'. split_and!; [done|done| |].
  - intros Hb Hal x Hx. specialize (Ht Hb (x / 4096 - va / 4096)).
    replace (va / 4096 + (x / 4096 - va / 4096)) with (x / 4096) in Ht by lia. apply Ht.
    unfold pages_checked. lia_mod.
  - intros H. apply Hc. intros k Hk. specialize (H (va + 4096 * k)).
    replace ((va + 4096 * k) / 4096) with (va / 4096 + k) in H by lia_mod. apply H.
    unfold pages_checked in Hk. lia_mod.
Qed.

(** [mem_access] on a range that does not start at a page boundary misses the last page:
    [~PAGESIZE] clears bit 12, not the offset, so that [next] is a page after the address
    and not at the next boundary.  There is a machine in which a user page is writable, the
    next page is not mapped at all, and two bytes that straddle the boundary are said to be
    writable. *)
Lemma mem_access_misses_last_page :
  exists s fs va, vm_ok s fs /\ mem_access (fun s _ => Ret (-EBADF, s)) s va 2 PT_USER_WRITE = Ret (true, s)
    /\ accessible s (va / 4096) PT_USER_WRITE /\ (va + 1) / 4096 = va / 4096 + 1
    /\ ~ accessible s ((va + 1) / 4096) PT_USER_WRITE.
Proof.
  exists ex_machine, ex_free, 0x12FFF. split_and!; [apply ex_ok|by vm_compute| |done|].
  - by exists (4 * 4096 + 7).
  - intros (e & He & Ha). vm_compute in He. injection He as <-. by vm_compute in Ha.
Qed.

(** ** Witnesses *)

Lemma map_page_correct_witness :
  exists s1 fs1, map_page ex_machine 0x500123 9 7 = Ret s1 /\ vm_ok s1 fs1
    /\ virt2phys s1 0x500123 = Ret 0x9123 /\ page_mapped s1 0x500123 = Ret true.
Proof.
  destruct (map_page_correct ex_machine ex_free 0x500123 9 7) as
    [(_ & _ & Hnil)|(s1 & fs1 & Hm & Hok & _ & Hv & _ & Hp & _)].
  - apply ex_ok.
  - by vm_compute.
  - by vm_compute.
  - by vm_compute.
  - by vm_compute.
  - discriminate Hnil.
  - exists s1, fs1. split; [exact Hm|]. split; [exact Hok|]. split; [exact Hv|exact Hp].
Defined.

