(* ===== verification/Kmem.v ===== *)
(** * Kmem: kernel pages, src/src/sys/krnl/kmem.c, and who owns the page frames

    [mem] is the memory state of the kernel: the machine with its page tables and page
    frames, and the three maps of free address ranges ([vmap] of vmm.c for user space,
    [osvmap] and [kmodmap] of kmem.c for the kernel heap and for modules).  [mem_ok] is
    the invariant that vmm.c and kmem.c keep together: a page of these three areas that is
    present lies outside the free ranges and has a page frame of its own, which is
    neither free nor a page table. *)

From stdpp Require Import functions.
From S2P Require Import Prelude Rmap Pframe Pdir.
Local Open Scope krlean_scope.

Record mem := Mem {
  mach : machine;
  vmap : list rent;
  osvmap : list rent;
  kmodmap : list rent;
}.

Definition set_mach (st : mem) (s : machine) : mem := Mem s (vmap st) (osvmap st) (kmodmap st).
Definition set_vmap (st : mem) (m : list rent) : mem := Mem (mach st) m (osvmap st) (kmodmap st).
Definition set_osvmap (st : mem) (m : list rent) : mem := Mem (mach st) (vmap st) m (kmodmap st).
Definition set_kmodmap (st : mem) (m : list rent) : mem := Mem (mach st) (vmap st) (osvmap st) m.

Definition TAG_KMEM : Z := tag4 0x4B 0x4D 0x45 0x4D.
Definition TAG_KMOD : Z := tag4 0x4B 0x4D 0x4F 0x44.
Definition TAG_SYS : Z := tag4 0 0x53 0x59 0x53.

Definition KHEAPBASE : Z := 0x92000000.
Definition KHEAPSIZE : Z := 0x6E000000.
Definition KMODSIZE : Z := 0x10000000.
Definition OSVMAP_ADDRESS : Z := SYSBASE + 4 * PAGESIZE.
Definition KMODMAP_ADDRESS : Z := SYSBASE + 5 * PAGESIZE.
Definition OSVMAP_ENTRIES : Z := 512.
Definition KMODMAP_ENTRIES : Z := 512.

(** [pfn = alloc_pageframe(tag); map_page(vaddr, pfn, flags)], and the page cleared if the
    caller does so. *)
Definition map_fresh (s : machine) (vaddr tag flags : Z) (clear : bool) : outcome machine :=
  '(pfn, p) <~ alloc_pageframe (frames s) tag;
  s <~ map_page (set_frames s p) vaddr pfn flags;
  if clear then clear_page s vaddr else Ret s.

(** The loops [for (i = 0; i < pages; i++)] of the functions below; [i] counts up and
    [n] is what is left. *)
Fixpoint alloc_loop (s : machine) (vaddr : Z) (i : Z) (n : nat) (tag flags : Z) (clear : bool)
    : outcome machine :=
  match n with
  | O => Ret s
  | S n =>
      s <~ map_fresh s (u32 (vaddr + PTOB i)) tag flags clear;
      alloc_loop s vaddr (i + 1) n tag flags clear
  end.

Fixpoint map_loop (s : machine) (vaddr : Z) (i : Z) (n : nat) (pfn flags : Z) : outcome machine :=
  match n with
  | O => Ret s
  | S n =>
      s <~ map_page s (u32 (vaddr + PTOB i)) (u32 (pfn + i)) flags;
      map_loop s vaddr (i + 1) n pfn flags
  end.

Fixpoint unmap_loop (s : machine) (vaddr : Z) (i : Z) (n : nat) : outcome machine :=
  match n with
  | O => Ret s
  | S n => s <~ unmap_page s (u32 (vaddr + PTOB i)); unmap_loop s vaddr (i + 1) n
  end.

Fixpoint free_loop (s : machine) (vaddr : Z) (i : Z) (n : nat) : outcome machine :=
  match n with
  | O => Ret s
  | S n =>
      ph <~ virt2phys s (u32 (vaddr + PTOB i));
      p <~ free_pageframe (frames s) (Z.to_nat (BTOP ph));
      s <~ unmap_page (set_frames s p) (u32 (vaddr + PTOB i));
      free_loop s vaddr (i + 1) n
  end.

Definition KFLAGS : Z := Z.lor PT_WRITABLE PT_PRESENT.

Definition alloc_pages (st : mem) (pages tag : Z) : outcome (Z * mem) :=
  let tag := if tag =? 0 then TAG_KMEM else tag in
  let '(idx, m) := rmap_alloc (osvmap st) (u32 pages) in
  let vaddr := PTOB idx in
  s <~ alloc_loop (mach st) vaddr 0 (Z.to_nat pages) tag KFLAGS false;
  Ret (vaddr, set_mach (set_osvmap st m) s).

Definition alloc_pages_align (st : mem) (pages align tag : Z) : outcome (Z * mem) :=
  let tag := if tag =? 0 then TAG_KMEM else tag in
  let '(idx, m, _) := rmap_alloc_align (osvmap st) (u32 pages) (u32 align) in
  let vaddr := PTOB idx in
  s <~ alloc_loop (mach st) vaddr 0 (Z.to_nat pages) tag KFLAGS false;
  Ret (vaddr, set_mach (set_osvmap st m) s).

Definition alloc_pages_linear (st : mem) (pages tag : Z) : outcome (Z * mem) :=
  let tag := if tag =? 0 then TAG_KMEM else tag in
  '(pfn, p) <~ alloc_linear_pageframes (frames (mach st)) (Z.to_nat pages) tag;
  let st := set_mach st (set_frames (mach st) p) in
  if pfn =? NOFRAME then Ret (0, st)
  else
    let '(idx, m) := rmap_alloc (osvmap st) (u32 pages) in
    let vaddr := PTOB idx in
    s <~ map_loop (mach st) vaddr 0 (Z.to_nat pages) pfn KFLAGS;
    Ret (vaddr, set_mach (set_osvmap st m) s).

Definition free_pages (st : mem) (addr pages : Z) : outcome mem :=
  s <~ free_loop (mach st) addr 0 (Z.to_nat pages);
  let '(m, _) := rmap_free (osvmap st) (BTOP addr) (u32 pages) in
  Ret (set_mach (set_osvmap st m) s).

Definition iomap (st : mem) (addr size : Z) : outcome (Z * mem) :=
  let pages := PAGES (u32 size) in
  let '(idx, m) := rmap_alloc (osvmap st) pages in
  let vaddr := PTOB idx in
  s <~ map_loop (mach st) vaddr 0 (Z.to_nat pages) (BTOP addr) KFLAGS;
  Ret (vaddr, set_mach (set_osvmap st m) s).

Definition iounmap (st : mem) (addr size : Z) : outcome mem :=
  let pages := PAGES (u32 size) in
  s <~ unmap_loop (mach st) addr 0 (Z.to_nat pages);
  let '(m, _) := rmap_free (osvmap st) (BTOP addr) pages in
  Ret (set_mach (set_osvmap st m) s).

Definition alloc_module_mem (st : mem) (pages : Z) : outcome (Z * mem) :=
  let '(idx, m) := rmap_alloc (kmodmap st) (u32 pages) in
  let vaddr := PTOB idx in
  s <~ alloc_loop (mach st) vaddr 0 (Z.to_nat pages) TAG_KMOD KFLAGS true;
  Ret (vaddr, set_mach (set_kmodmap st m) s).

Definition free_module_mem (st : mem) (addr pages : Z) : outcome mem :=
  s <~ free_loop (mach st) addr 0 (Z.to_nat pages);
  let '(m, _) := rmap_free (kmodmap st) (BTOP addr) (u32 pages) in
  Ret (set_mach (set_kmodmap st m) s).

(** [init_kmem]: a page for each map, the maps set up in them; the size of the kernel image
    comes from its header. *)
Definition init_kmem (st : mem) (size_of_image : Z) : outcome mem :=
  s <~ map_fresh (mach st) OSVMAP_ADDRESS TAG_SYS KFLAGS false;
  let '(os, _) := rmap_free (rmap_init (osvmap st) OSVMAP_ENTRIES) (BTOP KHEAPBASE) (BTOP KHEAPSIZE) in
  s <~ map_fresh s KMODMAP_ADDRESS TAG_SYS KFLAGS false;
  let '(km, _) := rmap_free (rmap_init (kmodmap st) KMODMAP_ENTRIES) (BTOP OSBASE) (BTOP KMODSIZE) in
  let '(_, km, _) := rmap_reserve km (BTOP OSBASE) (BTOP size_of_image) in
  Ret (Mem s (vmap st) os km).

(** ** Ownership of page frames *)

(** A frame that a page may hold: in the database, not free, not a page table. *)
Definition frame_ok (s : machine) (fs : list nat) (f : Z) : Prop :=
  0 <= f < Z.of_nat (length (pfdb (frames s))) /\ (Z.to_nat f ∉ fs) /\ ~ is_table s f.

Record owned (s : machine) (fs : list nat) (A : Z -> Prop) : Prop := {
  ow_frame : forall p, A p -> present (view s p) = true -> frame_ok s fs (BTOP (view s p));
  ow_inj : forall p q, A p -> A q -> present (view s p) = true -> present (view s q) = true ->
    BTOP (view s p) = BTOP (view s q) -> p = q;
  ow_u32 : forall p, A p -> is_u32 (view s p);
}.

Definition upage (p : Z) : Prop := 16 <= p < 0x80000.
Definition kmodpage (p : Z) : Prop := 0x80000 <= p < 0x90000.
Definition kheappage (p : Z) : Prop := 0x92000 <= p < 0x100000.
Definition area (p : Z) : Prop := upage p \/ kmodpage p \/ kheappage p.

(** [l] are the free ranges of the map [m]: they lie in the area [P] of the address space
    and no page there is present. *)
Record region (s : machine) (P : Z -> Prop) (m l : list rent) : Prop := {
  rg_rep : rep m l;
  rg_wf : wf l;
  rg_area : forall p, covers l p -> P p;
  rg_absent : forall p, covers l p -> present (view s p) = false;
}.

Record mem_ok (st : mem) (fs : list nat) (lu lo lk : list rent) : Prop := {
  mo_vm : vm_ok (mach st) fs;
  mo_own : owned (mach st) fs area;
  mo_vmap : region (mach st) upage (vmap st) lu;
  mo_osvmap : region (mach st) kheappage (osvmap st) lo;
  mo_kmodmap : region (mach st) kmodpage (kmodmap st) lk;
}.

Lemma area_plain p : area p -> plain p.
Proof. unfold area, upage, kmodpage, kheappage, plain, NPAGES. lia_mod. Qed.

Lemma frame_ok_step s fs s' fs' V f :
  vm_step s fs s' fs' V -> frame_ok s fs f -> frame_ok s' fs' f.
Proof.
  intros Hst (Hr & Hn & Ht). destruct (vs_suffix _ _ _ _ _ Hst) as [t E].
  unfold frame_ok. rewrite (proj1 (vs_frames _ _ _ _ _ Hst)). split; [done|]. split.
  - rewrite E in Hn. set_solver.
  - intros [H|[H _]]%(vs_tables _ _ _ _ _ Hst); done.
Qed.

(** Writing the entry of one page of the area. *)
Lemma owned_set s fs s' fs' (A : Z -> Prop) p e :
  owned s fs A -> (forall q, A q -> plain q) ->
  vm_step s fs s' fs' (set_view (view s) p e) -> is_u32 e ->
  (present e = true -> frame_ok s fs (BTOP e) /\
     forall q, A q -> q <> p -> present (view s q) = true -> BTOP (view s q) <> BTOP e) ->
  owned s' fs' A.
Proof.
  intros [Hf Hi Hu] HA Hst He Hp.
  assert (Hv : forall q, A q -> view s' q = set_view (view s) p e q).
  { intros q Hq. apply (vs_view _ _ _ _ _ Hst). auto. }
  constructor.
  - intros q Hq. rewrite (Hv q Hq). unfold set_view. case_decide as Hd; intros Hpr.
    + eapply frame_ok_step; [exact Hst|]. by apply Hp.
    + eapply frame_ok_step; [exact Hst|]. by apply Hf.
  - intros q r Hq Hr. rewrite (Hv q Hq), (Hv r Hr). unfold set_view.
    case_decide as Hd1; case_decide as Hd2; intros Hp1 Hp2 Heq; subst; try done.
    + destruct (Hp Hp1) as [_ Hne]. exfalso. by apply (Hne r).
    + destruct (Hp Hp2) as [_ Hne]. exfalso. by apply (Hne q).
    + by apply Hi.
  - intros q Hq. rewrite (Hv q Hq). unfold set_view. case_decide; auto.
Qed.

(** Clearing the contents of frames that are not tables. *)
Lemma owned_same s s' fs (A : Z -> Prop) :
  owned s fs A -> (forall q, A q -> view s' q = view s q) ->
  (forall f, is_table s' f <-> is_table s f) -> length (pfdb (frames s')) = length (pfdb (frames s)) ->
  owned s' fs A.
Proof.
  intros [Hf Hi Hu] Hv Ht Hl. constructor.
  - intros p Hp. rewrite Hv by done. unfold frame_ok. rewrite Ht, Hl. apply (Hf p Hp).
  - intros p q Hp Hq. rewrite !Hv by done. auto.
  - intros p Hp. rewrite Hv by done. auto.
Qed.

(** ** Taking fresh pages *)

(** Of [n] pages from [p], those that were not present have been given frames of the free
    list, and the others have new flags. *)
Record fresh_pages (s : machine) (fs : list nat) (s' : machine) (fs' : list nat) (A : Z -> Prop)
    (p n tag flags : Z) (clear : bool) : Prop := {
  fp_ok : vm_ok s' fs';
  fp_own : owned s' fs' A;
  fp_suffix : exists taken, fs = taken ++ fs' /\ Z.of_nat (length taken) <= 2 * n;
  fp_out : forall q, plain q -> ~ (p <= q < p + n) -> view s' q = view s q;
  fp_in : forall q, p <= q < p + n ->
    if present (view s q) then view s' q = Z.lor (Z.land (view s q) PT_PFNMASK) flags
    else exists f, view s' q = Z.lor (PTOB (Z.of_nat f)) flags
      /\ f ∈ fs /\ (f ∉ fs') /\ has_tag (frames s') tag f
      /\ ~ is_table s' (Z.of_nat f)
      /\ (clear = true -> forall i, phys s' (Z.of_nat f) i = 0);
  fp_tables : forall f, is_table s' f -> is_table s f \/ Z.to_nat f ∈ fs;
  fp_tables_grow : forall f, is_table s f -> is_table s' f;
  fp_data : forall g, 0 <= g -> Z.to_nat g ∉ fs -> ~ is_table s g -> phys s' g = phys s g;
  fp_frames : same_frames (frames s) (frames s') (fun i => i ∈ fs);
}.

Lemma fresh_in s fs s' fs' A p n tag flags clear :
  fresh_pages s fs s' fs' A p n tag flags clear ->
  (forall q, p <= q < p + n -> present (view s q) = false) ->
  forall q, p <= q < p + n -> exists f, view s' q = Z.lor (PTOB (Z.of_nat f)) flags
    /\ f ∈ fs /\ (f ∉ fs') /\ has_tag (frames s') tag f
    /\ ~ is_table s' (Z.of_nat f)
    /\ (clear = true -> forall i, phys s' (Z.of_nat f) i = 0).
Proof. intros Hf Hn q Hq. pose proof (fp_in _ _ _ _ _ _ _ _ _ _ Hf q Hq) as H. by rewrite Hn in H. Qed.

Lemma fresh_pages_nil s fs A p tag flags clear : vm_ok s fs -> owned s fs A ->
  fresh_pages s fs s fs A p 0 tag flags clear.
Proof.
  intros Hok How. constructor; auto; [|intros; lia|by split]. exists []. split; [done|simpl; lia].
Qed.

Lemma fresh_pages_app s fs s1 fs1 s2 fs2 A p n1 n2 tag flags clear :
  0 <= n1 -> 0 <= n2 ->
  fresh_pages s fs s1 fs1 A p n1 tag flags clear ->
  fresh_pages s1 fs1 s2 fs2 A (p + n1) n2 tag flags clear ->
  (forall q, p <= q < p + (n1 + n2) -> plain q) ->
  fresh_pages s fs s2 fs2 A p (n1 + n2) tag flags clear.
Proof.
  intros Hn1 Hn2 H1 H2 Hpl. destruct (fp_suffix _ _ _ _ _ _ _ _ _ _ H1) as (t1 & E1 & L1).
  destruct (fp_suffix _ _ _ _ _ _ _ _ _ _ H2) as (t2 & E2 & L2).
  constructor; [apply H2|apply H2|..].
  - exists (t1 ++ t2). rewrite E1, E2, (assoc_L (++)). split; [done|]. rewrite length_app. lia.
  - intros q Hq Hr. rewrite (fp_out _ _ _ _ _ _ _ _ _ _ H2) by (done || lia).
    apply (fp_out _ _ _ _ _ _ _ _ _ _ H1); [done|lia].
  - intros q Hq. destruct (decide (q < p + n1)).
    + pose proof (fp_in _ _ _ _ _ _ _ _ _ _ H1 q ltac:(lia)) as Hq1.
      rewrite (fp_out _ _ _ _ _ _ _ _ _ _ H2) by (lia || (apply Hpl; lia)).
      destruct (present (view s q)); [done|]. destruct Hq1 as (f & Hv & Hin & Hni & Ht & Htb & Hz). exists f.
      split_and!; [done|done|rewrite E2 in Hni; set_solver| | |].
      * unfold has_tag in *. by rewrite (proj2 (fp_frames _ _ _ _ _ _ _ _ _ _ H2)).
      * intros [?|?]%(fp_tables _ _ _ _ _ _ _ _ _ _ H2); [done|]. by rewrite Nat2Z.id in *.
      * intros Hc i. rewrite (fp_data _ _ _ _ _ _ _ _ _ _ H2); [by apply Hz|lia| |done].
        by rewrite Nat2Z.id.
    + pose proof (fp_in _ _ _ _ _ _ _ _ _ _ H2 q ltac:(lia)) as Hq2.
      rewrite (fp_out _ _ _ _ _ _ _ _ _ _ H1) in Hq2 by (lia || (apply Hpl; lia)).
      destruct (present (view s q)); [done|]. destruct Hq2 as (f & Hv & Hin & Hni & Ht & Htb & Hz).
      exists f. split_and!; try done. rewrite E1. set_solver.
  - intros f [Hf|Hf]%(fp_tables _ _ _ _ _ _ _ _ _ _ H2).
    + by apply (fp_tables _ _ _ _ _ _ _ _ _ _ H1).
    + right. rewrite E1. set_solver.
  - intros f Hf. by apply (fp_tables_grow _ _ _ _ _ _ _ _ _ _ H2), (fp_tables_grow _ _ _ _ _ _ _ _ _ _ H1).
  - intros g H0 Hg Ht. rewrite (fp_data _ _ _ _ _ _ _ _ _ _ H2);
      [by apply (fp_data _ _ _ _ _ _ _ _ _ _ H1)|done| |].
    + rewrite E1 in Hg. set_solver.
    + intros [?|?]%(fp_tables _ _ _ _ _ _ _ _ _ _ H1); done.
  - eapply same_frames_trans; [apply H1|apply H2|]. intros i Hi. rewrite E1. set_solver.
Qed.

(** Taking one frame off the free list. *)
Lemma take_frame s f fs tag A : vm_ok s (f :: fs) -> owned s (f :: fs) A ->
  exists p, alloc_pageframe (frames s) tag = Ret (Z.of_nat f, p)
    /\ vm_ok (set_frames s p) fs /\ owned (set_frames s p) fs A
    /\ frame_ok (set_frames s p) fs (Z.of_nat f)
    /\ (forall q, A q -> present (view s q) = true -> BTOP (view s q) <> Z.of_nat f)
    /\ has_tag p tag f /\ same_frames (frames s) p (eq f).
Proof.
  intros Hok How. destruct (alloc_frame_spec _ _ tag (vo_frames _ _ Hok))
    as (p & Ha & Hinv & Htag & Hsame & Hmax & Hlt).
  exists p. pose proof (proj1 Hsame) as Hlen.
  pose proof (inv_nodup _ _ (vo_frames _ _ Hok)) as Hnd. apply NoDup_cons in Hnd as [Hnf _].
  assert (Hsub : forall g, frame_ok s (f :: fs) g -> frame_ok (set_frames s p) fs g).
  { intros g (Hr & Hn & Ht). split; [by simpl; rewrite Hlen|]. split; [set_solver|done]. }
  split_and!; try done.
  - destruct Hok as [_ Hd Ht Hm]. constructor; [done|by apply dir_ok_frames| |simpl; by rewrite Hmax].
    intros g Hg. simpl. rewrite Hlen. apply Ht in Hg. set_solver.
  - destruct How as [Hf Hi Hu]. constructor; [|exact Hi|exact Hu].
    intros q Hq Hpq. apply Hsub, (Hf q Hq Hpq).
  - unfold frame_ok. simpl. rewrite Hlen. split; [lia|]. rewrite Nat2Z.id. split; [done|].
    intros Ht. apply (vo_tables _ _ Hok) in Ht as [_ Ht]. rewrite Nat2Z.id in Ht. set_solver.
  - intros q Hq Hp Heq. destruct (ow_frame _ _ _ How q Hq Hp) as (_ & Hn & _).
    rewrite Heq, Nat2Z.id in Hn. set_solver.
Qed.

Lemma tagged_frame s fs tag f : vm_ok s fs -> has_tag (frames s) tag f -> 0 <= Z.of_nat f < NPAGES.
Proof.
  intros Hok Ht. unfold has_tag in Ht. destruct (pfdb (frames s) !! f) eqn:Hl; [|done].
  apply lookup_lt_Some in Hl. pose proof (vo_max _ _ Hok) as Hm.
  rewrite (inv_max _ _ (vo_frames _ _ Hok)) in Hm. lia.
Qed.

Lemma map_fresh_spec s fs va tag flags clear (A : Z -> Prop) :
  vm_ok s fs -> owned s fs A -> is_u32 va -> (forall q, A q -> plain q) -> A (va / 4096) ->
  present (view s (va / 4096)) = false -> present flags = true -> 0 <= flags < 4096 ->
  (map_fresh s va tag flags clear = Panic /\ (length fs < 2)%nat) \/
  exists s' fs', map_fresh s va tag flags clear = Ret s'
    /\ fresh_pages s fs s' fs' A (va / 4096) 1 tag flags clear.
Proof.
  intros Hok How Hva HA Hp Hnp Hpr Hfl. destruct fs as [|f fs].
  { left. split; [|simpl; lia]. unfold map_fresh.
    by rewrite (alloc_pageframe_spec _ _ tag (vo_frames _ _ Hok)). }
  destruct (take_frame s f fs tag A Hok How) as (p & Ha & Hok1 & How1 & Hfo & Hnew & Htag & Hsame).
  set (s1 := set_frames s p) in *.
  assert (Hf : 0 <= Z.of_nat f < NPAGES).
  { destruct Hfo as [Hr _]. pose proof (vo_max _ _ Hok1) as Hm.
    rewrite (inv_max _ _ (vo_frames _ _ Hok1)) in Hm. lia. }
  assert (Hmap : (map_page s1 va (Z.of_nat f) flags = Panic /\ fs = []) \/
    exists s2 fs2, map_page s1 va (Z.of_nat f) flags = Ret s2
    /\ vm_step s1 fs s2 fs2 (set_view (view s1) (va / 4096) (Z.lor (PTOB (Z.of_nat f)) flags))
    /\ (exists t, fs = t ++ fs2 /\ (length t <= 1)%nat)).
  { pose proof (map_page_spec s1 fs va (Z.of_nat f) flags Hok1 Hva (HA _ Hp) ltac:(unfold NPAGES in *; lia)) as H.
    destruct (bool_decide _) in H; [|destruct fs as [|g fs]].
    - right. destruct H as (s2 & ? & ? & _). exists s2, fs. split_and!; try done.
      exists []. split; [done|simpl; lia].
    - by left.
    - right. destruct H as (s2 & ? & ? & _). exists s2, fs. split_and!; try done.
      exists [g]. split; [done|simpl; lia]. }
  destruct Hmap as [[Hm ->]|(s2 & fs2 & Hm & Hst & t & Et & Lt)].
  { left. split; [|simpl; lia]. unfold map_fresh. rewrite Ha. cbn [obind]. fold s1. by rewrite Hm. }
  right.
  assert (Hbe : BTOP (Z.lor (PTOB (Z.of_nat f)) flags) = Z.of_nat f) by (by apply pte_BTOP).
  assert (Hnt2 : ~ is_table s2 (Z.of_nat f)) by (by apply (frame_ok_step _ _ _ _ _ _ Hst Hfo)).
  assert (How2 : owned s2 fs2 A).
  { eapply owned_set; [exact How1|done|exact Hst| |].
    - rewrite pte_sum by done. unfold is_u32, NPAGES in *. lia.
    - intros _. rewrite Hbe. split; [done|]. intros q Hq _. by apply Hnew. }
  assert (Hfr2 : same_frames (frames s) (frames s2) (fun i => i ∈ f :: fs)).
  { eapply same_frames_trans; [eapply same_frames_mono; [exact Hsame|]|apply Hst|]; set_solver. }
  assert (Htag2 : has_tag (frames s2) tag f).
  { unfold has_tag in *. rewrite (proj2 (vs_frames _ _ _ _ _ Hst)); [done|].
    destruct Hfo as (_ & Hn & _). by rewrite Nat2Z.id in Hn. }
  assert (Hfp : fresh_pages s (f :: fs) s2 fs2 A (va / 4096) 1 tag flags false).
  { constructor; [apply Hst|done| | | | | | |done].
    - exists (f :: t). rewrite Et. simpl. split; [done|lia].
    - intros q Hq Hne. rewrite (vs_view _ _ _ _ _ Hst) by done. unfold set_view. rewrite decide_False by lia. done.
    - intros q Hq. replace q with (va / 4096) by lia. rewrite Hnp. exists f.
      rewrite (vs_view _ _ _ _ _ Hst) by auto. unfold set_view. rewrite decide_True by done.
      destruct Hfo as (_ & Hn & _). rewrite Nat2Z.id in Hn. rewrite Et in Hn.
      split_and!; [done|set_solver|set_solver|done|done|done].
    - intros g [Hg|[Hg _]]%(vs_tables _ _ _ _ _ Hst); [by left|right; set_solver].
    - intros g Hg. by apply Hst.
    - intros g H0 Hg Ht. apply (vs_data _ _ _ _ _ Hst).
      intros [?|[? _]]%(vs_tables _ _ _ _ _ Hst); set_solver. }
  unfold map_fresh. rewrite Ha. cbn [obind]. fold s1. rewrite Hm. cbn [obind].
  destruct clear; [|by exists s2, fs2].
  assert (Hv : view s2 (va / 4096) = Z.lor (PTOB (Z.of_nat f)) flags).
  { rewrite (vs_view _ _ _ _ _ Hst) by auto. unfold set_view. by rewrite decide_True. }
  destruct (clear_page_spec s2 fs2 va (Z.of_nat f) flags (vs_ok _ _ _ _ _ Hst) Hva Hf Hpr Hfl Hv Hnt2)
    as (s3 & Hc & Hok3 & Hfr3 & Hpt3 & Htb3 & Hph3).
  assert (Hv3 : forall q, plain q -> view s3 q = view s2 q).
  { intros q Hq. unfold view. by rewrite Hpt3 by apply Hq. }
  exists s3, fs2. split; [done|]. destruct Hfp as [_ _ Hsu Hou Hinp Htb Htg Hda Hfm].
  constructor; rewrite ?Hfr3; try done.
  - eapply owned_same; [exact How2|auto|done|by rewrite Hfr3].
  - intros q Hq Hne. rewrite Hv3 by done. auto.
  - intros q Hq. pose proof (Hinp q Hq) as Hq2. replace q with (va / 4096) in * by lia.
    rewrite Hnp in *. destruct Hq2 as (g & Hvg & H1 & H2 & H3 & H4 & _). exists g. rewrite Hv3 by auto. rewrite Htb3.
    assert (Z.of_nat g = Z.of_nat f) as Hgf.
    { rewrite Hv in Hvg. apply (f_equal BTOP) in Hvg. rewrite Hbe in Hvg. rewrite Hvg. symmetry.
      apply pte_BTOP; [|done]. apply (tagged_frame s2 fs2 tag); [apply Hst|done]. }
    split_and!; try done. intros _ i. by rewrite Hph3, Hgf, Z.eqb_refl.
  - setoid_rewrite Htb3. done.
  - setoid_rewrite Htb3. done.
  - intros g H0 Hg Ht. rewrite Hph3. rewrite (proj2 (Z.eqb_neq _ _)); [auto|].
    intros ->. apply Hg. rewrite Nat2Z.id. set_solver.
Qed.

(** The address of page [p + i]. *)
Lemma page_addr p i : 0 <= p -> 0 <= i -> p + i < NPAGES ->
  is_u32 (u32 (PTOB p + PTOB i)) /\ u32 (PTOB p + PTOB i) / 4096 = p + i
  /\ u32 (PTOB p + PTOB i) mod 4096 = 0.
Proof.
  intros Hp Hi Hs. rewrite !PTOB_mul by lia. unfold NPAGES in *.
  rewrite u32_small by (unfold is_u32; lia). unfold is_u32. split; [lia|]. split; lia_mod.
Qed.

Lemma alloc_loop_spec n s fs p i tag flags clear (A : Z -> Prop) :
  vm_ok s fs -> owned s fs A -> (forall q, A q -> plain q) -> 0 <= p -> 0 <= i ->
  (forall q, p + i <= q < p + i + Z.of_nat n -> A q /\ present (view s q) = false) ->
  present flags = true -> 0 <= flags < 4096 ->
  (alloc_loop s (PTOB p) i n tag flags clear = Panic /\ (length fs < 2 * n)%nat) \/
  exists s' fs', alloc_loop s (PTOB p) i n tag flags clear = Ret s'
    /\ fresh_pages s fs s' fs' A (p + i) (Z.of_nat n) tag flags clear.
Proof.
  revert s fs i. induction n as [|n IH]; intros s fs i Hok How HA Hp Hi Hq Hpr Hfl.
  { right. exists s, fs. split; [done|]. by apply fresh_pages_nil. }
  destruct (Hq (p + i) ltac:(lia)) as [Ha Hnp].
  destruct (page_addr p i Hp Hi) as (Hu & Hd & _); [apply (HA _ Ha)|].
  destruct (map_fresh_spec s fs (u32 (PTOB p + PTOB i)) tag flags clear A) as [[Hm Hl]|(s1 & fs1 & Hm & H1)];
    rewrite ?Hd; try done.
  { left. simpl. rewrite Hm. split; [done|lia]. }
  rewrite Hd in H1. destruct (fp_suffix _ _ _ _ _ _ _ _ _ _ H1) as (t & E & L).
  destruct (IH s1 fs1 (i + 1) (fp_ok _ _ _ _ _ _ _ _ _ _ H1) (fp_own _ _ _ _ _ _ _ _ _ _ H1) HA Hp
    ltac:(lia)) as [[Hl Hlt]|(s2 & fs2 & Hl & H2)]; [|done|done| |].
  - intros q Hr. destruct (Hq q ltac:(lia)) as [Haq Hpq]. split; [done|].
    rewrite (fp_out _ _ _ _ _ _ _ _ _ _ H1) by (auto || lia). done.
  - left. simpl. rewrite Hm. split; [done|]. rewrite E, length_app. lia.
  - right. exists s2, fs2. simpl. rewrite Hm. split; [done|].
    replace (Z.of_nat (S n)) with (1 + Z.of_nat n) by lia.
    eapply fresh_pages_app; [lia|lia|exact H1|by rewrite <- Z.add_assoc|].
    intros q Hr. apply HA. destruct (Hq q); [lia|done].
Qed.

(** ** Giving pages back *)

(** Those of [n] pages from [p] that were present have been unmapped and their frames [gone]
    freed. *)
Record freed_pages (s : machine) (fs : list nat) (s' : machine) (fs' : list nat) (A : Z -> Prop)
    (p n : Z) : Prop := {
  rp_ok : vm_ok s' fs';
  rp_own : owned s' fs' A;
  rp_free : exists gone, fs' = gone ++ fs
    /\ ((forall q, p <= q < p + n -> present (view s q) = true) -> Z.of_nat (length gone) = n)
    /\ forall f, f ∈ gone <->
         exists q, p <= q < p + n /\ present (view s q) = true /\ Z.of_nat f = BTOP (view s q);
  rp_view : forall q, plain q -> view s' q =
    if decide (p <= q < p + n /\ present (view s q) = true) then 0 else view s q;
  rp_tables : forall f, is_table s' f <-> is_table s f;
  rp_data : forall g, ~ is_table s g -> phys s' g = phys s g;
}.

(** One page, unmapped before or after its frame is freed. *)
Lemma free_one s fs va (A : Z -> Prop) :
  vm_ok s fs -> owned s fs A -> (forall q, A q -> plain q) -> is_u32 va -> A (va / 4096) ->
  present (view s (va / 4096)) = true ->
  let f := BTOP (view s (va / 4096)) in
  exists p', free_pageframe (frames s) (Z.to_nat f) = Ret p'
    /\ exists s', unmap_page (set_frames s p') va = Ret s'
      /\ (s1 <~ unmap_page s va; Ret (set_frames s1 p')) = Ret s'
      /\ freed_pages s fs s' (Z.to_nat f :: fs) A (va / 4096) 1.
Proof.
  intros Hok How HA Hva Hp Hpr f. destruct (ow_frame _ _ _ How _ Hp Hpr) as (Hr & Hn & Ht). fold f in Hr, Hn, Ht.
  destruct (free_pageframe_spec (frames s) fs (Z.to_nat f) (vo_frames _ _ Hok)) as (p' & Hf & Hinv & Hsame & _);
    [lia|done|].
  exists p'. split; [done|].
  destruct (unmap_page_spec s fs va Hok Hva (HA _ Hp) (present_some _ _ Hpr)) as (s1 & Hu & Hst & Hfr).
  exists (set_frames s1 p').
  assert (Hu' : unmap_page (set_frames s p') va = Ret (set_frames s1 p')).
  { unfold unmap_page, SET_PTE, store32 in *. change (mmu (set_frames s p')) with (mmu s).
    destruct (mmu s _) as [g| | |]; [|done..]. simpl in *. injection Hu as <-. done. }
  split_and!; [done|by rewrite Hu|]. pose proof (proj1 Hsame) as Hlen.
  assert (Hmax : maxmem p' = maxmem (frames s)).
  { rewrite (inv_max _ _ Hinv), (inv_max _ _ (vo_frames _ _ Hok)). by rewrite Hlen. }
  assert (Htb : forall g, is_table s1 g <-> is_table s g).
  { intros g. split; [|apply Hst]. by intros [?|[? ?]]%(vs_tables _ _ _ _ _ Hst). }
  assert (Hv : forall q, plain q -> view s1 q = set_view (view s) (va / 4096) 0 q) by apply Hst.
  assert (How1 : owned s1 fs A).
  { eapply owned_set; [done..| |]; [by vm_compute|done]. }
  constructor.
  - destruct (vs_ok _ _ _ _ _ Hst) as [_ Hd1 Ht1 Hm1].
    constructor; [done|by apply dir_ok_frames| |simpl; rewrite Hmax, <- Hfr; done].
    intros g Hg. simpl. rewrite Hlen, <- Hfr. destruct (Ht1 g Hg) as [? Hng]. split; [done|].
    intros [Heq|]%elem_of_cons; [|done]. apply Ht, Htb. by replace f with g by lia.
  - destruct How1 as [Hf1 Hi1 Hu1]. constructor; [|exact Hi1|exact Hu1].
    intros q Hq Hpq. destruct (Hf1 q Hq Hpq) as (Hrq & Hnq & Htq).
    unfold frame_ok. simpl. rewrite Hlen, <- Hfr. split; [done|]. split; [|done].
    intros [Heq|]%elem_of_cons; [|done]. change (view _ q) with (view s1 q) in *.
    rewrite Hv in * by auto. unfold set_view in *. destruct (decide (q = va / 4096)) as [|Hne]; [done|].
    apply Hne, (ow_inj _ _ _ How); [done..|]. fold f. lia.
  - exists [Z.to_nat f]. split; [done|]. split; [done|]. intros g. rewrite list_elem_of_singleton. split.
    + intros ->. exists (va / 4096). split_and!; [lia|lia|done|fold f; lia].
    + intros (q & Hq & _ & Hg). replace q with (va / 4096) in Hg by lia. fold f in Hg. lia.
  - intros q Hq. change (view (set_frames s1 p') q) with (view s1 q). rewrite Hv by done.
    unfold set_view. destruct (decide (q = _)) as [->|].
    + by rewrite decide_True by (split; [lia|done]).
    + by rewrite decide_False by lia.
  - done.
  - intros g Hg. apply (vs_data _ _ _ _ _ Hst). by rewrite Htb.
Qed.

Lemma freed_pages_app s fs s1 fs1 s2 fs2 A p n1 n2 :
  0 <= n1 -> 0 <= n2 -> (forall q, p <= q < p + (n1 + n2) -> plain q) ->
  freed_pages s fs s1 fs1 A p n1 -> freed_pages s1 fs1 s2 fs2 A (p + n1) n2 ->
  freed_pages s fs s2 fs2 A p (n1 + n2).
Proof.
  intros Hn1 Hn2 Hpl [Hok1 How1 (g1 & -> & L1 & F1) Hv1 Ht1 Hd1] [Hok2 How2 (g2 & -> & L2 & F2) Hv2 Ht2 Hd2].
  assert (Hlater : forall q, p + n1 <= q < p + n1 + n2 -> view s1 q = view s q).
  { intros q Hq. rewrite Hv1 by (apply Hpl; lia). by rewrite decide_False by lia. }
  constructor; [done|done| | | |].
  - exists (g2 ++ g1). rewrite (assoc_L (++)). split; [done|]. rewrite length_app. split.
    { intros Hall. rewrite Nat2Z.inj_add, L1, L2; [lia| |]; intros q Hq; [rewrite Hlater by done|]; apply Hall; lia. }
    intros f. rewrite elem_of_app, F1, F2. split.
    + intros [(q & Hq & Hp & Hf)|(q & Hq & Hp & Hf)]; exists q; (split; [lia|]); [|done].
      rewrite Hlater in * by done. done.
    + intros (q & Hq & Hp & Hf). destruct (decide (q < p + n1)); [right; exists q; split; [lia|done]|].
      left. exists q. split; [lia|]. rewrite Hlater by lia. done.
  - intros q Hq. rewrite Hv2 by done. destruct (decide (p + n1 <= q < p + n1 + n2)) as [Hr|Hr].
    + rewrite Hlater by done.
      destruct (decide (_ /\ _)) as [[_ ?]|Hd], (decide (_ /\ _)) as [?|Hd']; try done.
      * by destruct Hd'; split; [lia|].
      * destruct Hd. split; [lia|tauto].
    + rewrite decide_False by tauto. rewrite Hv1 by done.
      destruct (decide (_ /\ _)) as [[? ?]|Hd], (decide (_ /\ _)) as [[? ?]|Hd']; try done.
      * destruct Hd'. split; [lia|done].
      * destruct Hd. split; [lia|done].
  - intros f. by rewrite Ht2.
  - intros g Hg. rewrite Hd2; [auto|]. by rewrite Ht1.
Qed.

Lemma freed_pages_nil s fs A p : vm_ok s fs -> owned s fs A -> freed_pages s fs s fs A p 0.
Proof.
  intros Hok How. constructor; [done|done| | |done|done].
  - exists []. split; [done|]. split; [done|]. intros f. split; [by intros ?%elem_of_nil|].
    intros (q & Hq & _). lia.
  - intros q Hq. rewrite decide_False by lia. done.
Qed.

Lemma freed_pages_skip s fs A p : vm_ok s fs -> owned s fs A -> present (view s p) = false ->
  freed_pages s fs s fs A p 1.
Proof.
  intros Hok How Hp. assert (Hq : forall q, p <= q < p + 1 -> q = p) by lia.
  constructor; [done|done| | |done|done].
  - exists []. split; [done|]. split; [intros Hall; specialize (Hall p ltac:(lia)); congruence|].
    intros f. split; [by intros ?%elem_of_nil|]. intros (q & Hr & Hpq & _). rewrite (Hq q Hr) in Hpq. congruence.
  - intros q _. rewrite decide_False; [done|]. intros [Hr Hpq]. rewrite (Hq q Hr) in Hpq. congruence.
Qed.

(** The frame of a page from [virt2phys]. *)
Lemma virt2phys_frame s fs va : vm_ok s fs -> is_u32 va ->
  is_u32 (view s (va / 4096)) -> present (view s (va / 4096)) = true ->
  exists ph, virt2phys s va = Ret ph /\ BTOP ph = BTOP (view s (va / 4096)).
Proof.
  intros Hok Hva Hu Hp. unfold virt2phys.
  rewrite (GET_PTE_view s (vo_dir _ _ Hok) va Hva (present_some _ _ Hp)). simpl.
  eexists. split; [reflexivity|]. rewrite land_PFNMASK, PGOFF_mod, !BTOP_div by done.
  rewrite u32_small by (unfold is_u32 in *; lia_mod). lia_mod.
Qed.

Lemma free_loop_spec n s fs p i (A : Z -> Prop) :
  vm_ok s fs -> owned s fs A -> (forall q, A q -> plain q) -> 0 <= p -> 0 <= i ->
  (forall q, p + i <= q < p + i + Z.of_nat n -> A q /\ present (view s q) = true) ->
  exists s' fs', free_loop s (PTOB p) i n = Ret s' /\ freed_pages s fs s' fs' A (p + i) (Z.of_nat n).
Proof.
  revert s fs i. induction n as [|n IH]; intros s fs i Hok How HA Hp Hi Hq.
  { exists s, fs. split; [done|]. by apply freed_pages_nil. }
  destruct (Hq (p + i) ltac:(lia)) as [Ha Hpr].
  destruct (page_addr p i Hp Hi) as (Hu & Hd & _); [apply (HA _ Ha)|].
  destruct (virt2phys_frame s fs _ Hok Hu) as (ph & Hph & Hbp);
    [rewrite Hd; by apply (ow_u32 _ _ _ How)|by rewrite Hd|]. rewrite Hd in Hbp.
  destruct (free_one s fs _ A Hok How HA Hu) as (p' & Hf & s1 & Hun & _ & H1); [by rewrite Hd..|].
  rewrite Hd in Hf, H1.
  destruct (IH s1 (Z.to_nat (BTOP (view s (p + i))) :: fs) (i + 1)) as (s2 & fs2 & Hl & H2);
    [apply H1|apply H1|done|done|lia| |].
  { intros q Hr. destruct (Hq q ltac:(lia)) as [Haq Hpq]. split; [done|].
    rewrite (rp_view _ _ _ _ _ _ _ H1) by auto. by rewrite decide_False by lia. }
  exists s2, fs2. simpl. rewrite Hph. simpl. rewrite Hbp, Hf. simpl. rewrite Hun. split; [done|].
  replace (Z.of_nat (S n)) with (1 + Z.of_nat n) by lia.
  eapply freed_pages_app; [lia|lia| |exact H1|by rewrite <- Z.add_assoc].
  intros q Hr. destruct (Hq q ltac:(lia)) as [Haq _]. auto.
Qed.

(** ** Regions *)

Lemma region_shrink s P m l m' l' :
  region s P m l -> rep m' l' -> wf l' -> (forall x, covers l' x -> covers l x) -> region s P m' l'.
Proof. intros [_ _ Ha Hn] Hr Hw Hc. constructor; auto. Qed.

Lemma region_grow s P m l m' l' :
  region s P m l -> rep m' l' -> wf l' ->
  (forall x, covers l' x -> covers l x \/ (P x /\ present (view s x) = false)) -> region s P m' l'.
Proof.
  intros [_ _ Ha Hn] Hr Hw Hc. constructor; [done|done| |]; intros x [?|[? ?]]%Hc; auto.
Qed.

Lemma region_fresh s fs s' fs' A P m l p n tag flags clear :
  region s P m l -> fresh_pages s fs s' fs' A p n tag flags clear ->
  (forall q, P q -> plain q) -> (forall q, p <= q < p + n -> ~ covers l q) -> region s' P m l.
Proof.
  intros [Hr Hw Ha Hn] Hf Hpl Hd. constructor; [done..|].
  intros q Hq. rewrite (fp_out _ _ _ _ _ _ _ _ _ _ Hf); [auto|auto|]. intros Hin. by apply (Hd q).
Qed.

Lemma region_freed s fs s' fs' A P m l p n :
  region s P m l -> freed_pages s fs s' fs' A p n -> (forall q, P q -> plain q) -> region s' P m l.
Proof.
  intros [Hr Hw Ha Hn] Hf Hpl. constructor; [done..|].
  intros q Hq. rewrite (rp_view _ _ _ _ _ _ _ Hf) by auto. case_decide; [done|auto].
Qed.

Lemma region_frames s p P m l : region s P m l -> region (set_frames s p) P m l.
Proof. by intros []. Qed.

Lemma upage_plain q : upage q -> plain q.
Proof. intros. apply area_plain. by left. Qed.
Lemma kmodpage_plain q : kmodpage q -> plain q.
Proof. intros. apply area_plain. right. by left. Qed.
Lemma kheappage_plain q : kheappage q -> plain q.
Proof. intros. apply area_plain. right. by right. Qed.

#[export] Hint Resolve area_plain upage_plain kmodpage_plain kheappage_plain : krlean.

(** Pages taken outside the free ranges, and given back, keep the invariant. *)
Lemma mem_ok_fresh st fs lu lo lk s' fs' p n tag flags clear :
  mem_ok st fs lu lo lk -> fresh_pages (mach st) fs s' fs' area p n tag flags clear ->
  (forall q, p <= q < p + n -> (~ covers lu q) /\ (~ covers lo q) /\ ~ covers lk q) ->
  mem_ok (set_mach st s') fs' lu lo lk.
Proof.
  intros [Hv Ho Hu Hk Hm] Hf Hd.
  constructor; [apply (fp_ok _ _ _ _ _ _ _ _ _ _ Hf)|apply (fp_own _ _ _ _ _ _ _ _ _ _ Hf)|..];
    (eapply region_fresh; [done|exact Hf|auto with krlean|intros q Hq; by apply Hd]).
Qed.

Lemma mem_ok_freed st fs lu lo lk s' fs' p n :
  mem_ok st fs lu lo lk -> freed_pages (mach st) fs s' fs' area p n ->
  mem_ok (set_mach st s') fs' lu lo lk.
Proof.
  intros [Hv Ho Hu Hk Hm] Hf. constructor; [apply (rp_ok _ _ _ _ _ _ _ Hf)|apply (rp_own _ _ _ _ _ _ _ Hf)|..];
    (eapply region_freed; [done|exact Hf|auto with krlean]).
Qed.

(** A free range of a map, as addresses. *)
Lemma covered_range s P m l p n : region s P m l -> (forall q, P q -> area q) -> 0 < n ->
  (forall x, in_range p n x -> covers l x) ->
  0 < p /\ p + n <= NPAGES /\ forall q, p <= q < p + n -> P q /\ present (view s q) = false.
Proof.
  intros Hreg HP Hn Hc. assert (Hall : forall q, p <= q < p + n -> P q /\ present (view s q) = false).
  { intros q Hq. specialize (Hc q Hq). by split; apply Hreg. }
  destruct (Hall p ltac:(lia)) as [H1 _]. destruct (Hall (p + n - 1) ltac:(lia)) as [H2 _].
  apply HP in H1, H2. unfold area, upage, kmodpage, kheappage, NPAGES in *. split_and!; [lia|lia|done].
Qed.

Lemma areas_disjoint q : (kheappage q -> ~ upage q /\ ~ kmodpage q) /\ (kmodpage q -> ~ upage q)
  /\ (upage q -> ~ kmodpage q).
Proof. unfold upage, kmodpage, kheappage. lia. Qed.

(** ** Kernel pages *)

Lemma KFLAGS_ok : present KFLAGS = true /\ 0 <= KFLAGS < 4096.
Proof. by vm_compute. Qed.

Definition kmem_tag (tag : Z) : Z := if tag =? 0 then TAG_KMEM else tag.

(** The pages come from a free range of the heap that is long enough, each with a fresh
    frame; the invariant holds again. *)
Lemma alloc_pages_spec st fs lu lo lk n tag :
  mem_ok st fs lu lo lk -> 0 < n < NPAGES -> ~ Forall (fun e => r_size e < n) lo ->
  (alloc_pages st n tag = Panic /\ (length fs < 2 * Z.to_nat n)%nat) \/
  exists p m lo' s' fs', alloc_pages st n tag = Ret (PTOB p, set_mach (set_osvmap st m) s')
    /\ mem_ok (set_mach (set_osvmap st m) s') fs' lu lo' lk
    /\ 0 < p /\ p + n <= NPAGES
    /\ (forall q, p <= q < p + n -> kheappage q /\ (~ covers lo' q) /\ present (view (mach st) q) = false)
    /\ fresh_pages (mach st) fs s' fs' area p n (kmem_tag tag) KFLAGS false.
Proof.
  intros Hok Hn Hfit. pose proof (mo_osvmap _ _ _ _ _ Hok) as Hos.
  unfold alloc_pages. rewrite u32_small by (unfold is_u32, NPAGES in *; lia).
  destruct (rmap_alloc (osvmap st) n) as [p m] eqn:Hal.
  destruct (rmap_alloc_spec _ lo n p m (rg_rep _ _ _ _ Hos) (rg_wf _ _ _ _ Hos)
    ltac:(unfold NPAGES in *; lia) Hal) as (lo' & Hrep & Hwf & _ & [(_ & _ & Hno)|(Hne & Hin & Hcov & _)]);
    [done|].
  destruct (covered_range _ _ _ _ p n Hos) as (Hp0 & Hpn & Hq); [by right; right|lia|done|].
  destruct (alloc_loop_spec (Z.to_nat n) (mach st) fs p 0 (kmem_tag tag) KFLAGS false area)
    as [[Hl Hlt]|(s' & fs' & Hl & Hf)]; [apply Hok|apply Hok|auto with krlean|lia|lia| |apply KFLAGS_ok..| |].
  { intros q Hr. destruct (Hq q ltac:(lia)). split; [by right; right|done]. }
  { left. unfold kmem_tag in Hl. by rewrite Hl. }
  rewrite Z2Nat.id, Z.add_0_r in Hf by lia.
  right. exists p, m, lo', s', fs'. unfold kmem_tag in *. rewrite Hl. split; [done|]. split; [|split_and!; try done].
  - apply (mem_ok_fresh (set_osvmap st m) fs lu lo' lk s' fs' p n _ _ _ ltac:(
      destruct Hok as [Hv Ho Hu Hk Hm]; constructor; [done..| |done];
      eapply region_shrink; [exact Hos|done|done|intros x Hx; by apply Hcov]) Hf).
    intros q Hr. destruct (Hq q Hr) as [Hh _]. destruct (areas_disjoint q) as (Hd & _). destruct (Hd Hh) as [Hu Hk].
    split_and!.
    + intros Hc. apply Hu. by apply (rg_area _ _ _ _ (mo_vmap _ _ _ _ _ Hok)).
    + intros Hc%Hcov. by destruct Hc as [_ Hc].
    + intros Hc. apply Hk. by apply (rg_area _ _ _ _ (mo_kmodmap _ _ _ _ _ Hok)).
  - intros q Hr. destruct (Hq q Hr). split_and!; [done| |done]. intros [_ Hc]%Hcov. done.
Qed.

Lemma fits_dec (lo : list rent) n :
  Forall (fun e => r_size e < n) lo \/ ~ Forall (fun e => r_size e < n) lo.
Proof. destruct (decide (Forall (fun e => r_size e < n) lo)); auto. Qed.

(** Where an entry is long enough, [rmap_alloc] does not fail; where none is, it does. *)
Lemma rmap_alloc_none m l n idx m' : rep m l -> wf l -> 0 < n < 2 ^ 32 ->
  Forall (fun e => r_size e < n) l -> rmap_alloc m n = (idx, m') -> idx = 0 /\ rep m' l.
Proof.
  intros Hrep Hwf Hn Hfit Hal. destruct (rmap_alloc_spec _ l n idx m' Hrep Hwf Hn Hal)
    as (l' & Hrep' & _ & _ & [(-> & -> & _)|(_ & Hcv & _ & a & e & b & Hl & Hoff & _)]); [done|].
  exfalso. subst l. wf_split Hwf Hp Hq. apply Forall_app in Hfit as [_ [He _]%Forall_cons]. subst idx.
  pose proof (covered_in_one (a ++ e :: b) (r_offset e) n a e b Hwf eq_refl) as Hone.
  unfold rend in Hone. specialize (Hone ltac:(lia) Hcv). lia.
Qed.

Lemma alloc_pages_null st lo n tag v st' : region (mach st) kheappage (osvmap st) lo -> 0 < n < NPAGES ->
  Forall (fun e => r_size e < n) lo -> alloc_pages st n tag = Ret (v, st') -> v = 0.
Proof.
  intros Hreg Hn Hfit Hal. unfold alloc_pages in Hal. rewrite u32_small in Hal by (unfold is_u32, NPAGES in *; lia).
  destruct (rmap_alloc (osvmap st) n) as [idx m] eqn:Hr.
  destruct (rmap_alloc_none _ lo n idx m (rg_rep _ _ _ _ Hreg) (rg_wf _ _ _ _ Hreg)) as [-> _]; [unfold NPAGES in *; lia|done|done|].
  apply obind_ret in Hal as (s & _ & [= <- _]). done.
Qed.

Lemma free_pages_spec st fs lu lo lk p n :
  mem_ok st fs lu lo lk -> 0 < p -> 0 < n -> p + n <= NPAGES ->
  (forall q, p <= q < p + n -> kheappage q /\ (~ covers lo q) /\ present (view (mach st) q) = true) ->
  exists m lo' s' fs', free_pages st (PTOB p) n = Ret (set_mach (set_osvmap st m) s')
    /\ mem_ok (set_mach (set_osvmap st m) s') fs' lu lo' lk
    /\ freed_pages (mach st) fs s' fs' area p n
    /\ ((forall x, covers lo' x <-> covers lo x \/ in_range p n x) \/ length lo = capacity (osvmap st)).
Proof.
  intros Hok Hp Hn Hpn Hq. pose proof (mo_osvmap _ _ _ _ _ Hok) as Hos.
  destruct (free_loop_spec (Z.to_nat n) (mach st) fs p 0 area) as (s' & fs' & Hl & Hf);
    [apply Hok|apply Hok|auto with krlean|lia|lia| |].
  { intros q Hr. destruct (Hq q ltac:(lia)) as (? & _ & ?). split; [by right; right|done]. }
  rewrite Z2Nat.id, Z.add_0_r in Hf by lia.
  unfold free_pages. rewrite Hl. simpl. rewrite u32_small by (unfold is_u32, NPAGES in *; lia).
  assert (BTOP (PTOB p) = p) as ->.
  { rewrite PTOB_mul, BTOP_div by lia. lia_mod. }
  pose proof (rmap_free_spec (osvmap st) lo p n (rg_rep _ _ _ _ Hos) (rg_wf _ _ _ _ Hos) Hp Hn
    ltac:(unfold NPAGES in *; lia)) as Hfree.
  destruct (rmap_free (osvmap st) p n) as [m lost].
  destruct Hfree as (lo' & Hrep & Hwf & _ & Hc); [intros x Hx; by apply Hq|].
  exists m, lo', s', fs'. split; [done|]. split; [|split; [done|destruct Hc as [[_ ?]|(_ & _ & ?)]; [left|right]; done]].
  pose proof (mem_ok_freed _ _ _ _ _ _ _ _ _ Hok Hf) as [Hv Ho Hu Hk Hm].
  constructor; [done..| |done]. eapply region_grow; [exact Hk|done|done|].
  intros x Hx. destruct Hc as [[_ Hc]|(_ & -> & _)]; [|by left].
  apply Hc in Hx as [?|Hx]; [by left|]. right. split; [by apply Hq|].
  simpl. rewrite (rp_view _ _ _ _ _ _ _ Hf) by (apply kheappage_plain, Hq, Hx).
  rewrite decide_True; [done|]. split; [exact Hx|by apply Hq].
Qed.

(** ** The properties *)


(** [alloc_pages] does not look at the result of [rmap_alloc].  When the heap has no
    free range of the size asked for, the map returns 0, and up to 16 pages are given
    frames and mapped writable from address 0 on; the caller gets NULL. *)
Lemma alloc_pages_exhausted st fs lu lo lk n tag :
  mem_ok st fs lu lo lk -> 0 < n <= 16 -> (2 * Z.to_nat n <= length fs)%nat ->
  Forall (fun e => r_size e < n) lo ->
  (forall q, 0 <= q < 16 -> is_u32 (view (mach st) q) /\ present (view (mach st) q) = false) ->
  exists st' fs', alloc_pages st n tag = Ret (0, st') /\ mem_ok st' fs' lu lo lk
    /\ forall q, 0 <= q < n -> exists f, f ∈ fs /\ (f ∉ fs') /\ view (mach st') q = Z.of_nat f * 4096 + KFLAGS.
Proof.
  intros Hok Hn Hlen Hfit Hlow. pose proof (mo_osvmap _ _ _ _ _ Hok) as Hos.
  unfold alloc_pages. rewrite u32_small by (unfold is_u32; lia).
  destruct (rmap_alloc (osvmap st) n) as [p m] eqn:Hal.
  destruct (rmap_alloc_none _ lo n p m (rg_rep _ _ _ _ Hos) (rg_wf _ _ _ _ Hos) ltac:(lia) Hfit Hal) as [-> Hrep].
  set (A := fun q => area q \/ 0 <= q < 16).
  assert (HA : forall q, A q -> plain q).
  { intros q [?|?]; [auto with krlean|]. unfold plain, NPAGES. lia_mod. }
  assert (How : owned (mach st) fs A).
  { destruct (mo_own _ _ _ _ _ Hok) as [Hf Hi Hu]. constructor.
    - intros q [Hq|Hq] Hp; [auto|]. destruct (Hlow q Hq). congruence.
    - intros q r [Hq|Hq] [Hr|Hr] Hp1 Hp2; [auto| | |];
        [destruct (Hlow r Hr)|destruct (Hlow q Hq)|destruct (Hlow q Hq)]; congruence.
    - intros q [Hq|Hq]; [auto|]. by apply Hlow. }
  destruct (alloc_loop_spec (Z.to_nat n) (mach st) fs 0 0 (kmem_tag tag) KFLAGS false A)
    as [[_ Hlt]|(s' & fs' & Hl & Hf)]; [apply Hok|done|done|lia|lia| |apply KFLAGS_ok..|lia|].
  { intros q Hr. assert (0 <= q < 16) by lia. split; [by right|by apply Hlow]. }
  rewrite Z2Nat.id, Z.add_0_r in Hf by lia.
  exists (set_mach (set_osvmap st m) s'), fs'. unfold kmem_tag in *.
  rewrite Hl. split; [done|]. split_and!.
  - destruct Hok as [_ _ Hu Hk Hm].
    assert (Hreg : forall P mm l, region (mach st) P mm l -> (forall q, P q -> area q) -> region s' P mm l).
    { intros P mm l Hr HP. eapply region_fresh; [exact Hr|exact Hf|auto with krlean|].
      intros q Hq Hc. apply Hr, HP in Hc. unfold area, upage, kmodpage, kheappage in Hc. lia. }
    constructor; [apply (fp_ok _ _ _ _ _ _ _ _ _ _ Hf)| |apply Hreg; [exact Hu|by left]| |apply Hreg; [exact Hm|by right; left]].
    + destruct (fp_own _ _ _ _ _ _ _ _ _ _ Hf) as [H1 H2 H3].
      constructor; [intros q Hq; by apply H1; left|intros q r Hq Hr; apply H2; by left|intros q Hq; by apply H3; left].
    + apply Hreg; [|by right; right]. eapply region_shrink; [exact Hk|done|apply Hk|done].
  - intros q Hq. destruct (fresh_in _ _ _ _ _ _ _ _ _ _ Hf) with q as (f & Hv & Hin & Hni & Ht & _);
      [intros r Hr; apply Hlow; lia|lia|].
    exists f. split; [done|]. split; [done|]. simpl. rewrite Hv. apply pte_sum; [|apply KFLAGS_ok].
    eapply tagged_frame; [apply (fp_ok _ _ _ _ _ _ _ _ _ _ Hf)|exact Ht].
Qed.

(** ** An example

    The machine of Pdir.v: page [0x12] is the only page of user space, [osvmap] has the
    free ranges [lo]. *)

Definition ex_map_of (l : list rent) : list rent :=
  Rent (Z.of_nat (length l)) (Z.of_nat (length (l ++ [Rent 0 0]))) :: l ++ [Rent 0 0].
Definition ex_lu : list rent := [Rent 16 2; Rent 19 (0x80000 - 19)].
Definition ex_lk : list rent := [Rent 0x88000 0x8000].
Definition ex_mem (lo : list rent) : mem :=
  Mem ex_machine (ex_map_of ex_lu) (ex_map_of lo) (ex_map_of ex_lk).

Lemma ex_view q : 0 <= q < NPAGES -> area q \/ 0 <= q < 16 ->
  view ex_machine q = if q =? 0x12 then 4 * 4096 + 7 else 0.
Proof.
  intros Hq Ha. unfold view, pte_at.
  assert (Hi : 0 <= q / 1024 < 1024) by (unfold NPAGES in *; lia_mod).
  destruct (present (dirent ex_machine (q / 1024))) eqn:Hp.
  - destruct (ex_dirent _ Hi Hp) as [[Hd He]|[[Hd _]|[Hd _]]].
    + rewrite He. simpl. replace (q mod 1024) with q by lia_mod.
      assert (Hall : forallb (fun k => ex_phys 3 (Z.of_nat k) =? if Z.of_nat k =? 0x12 then 4 * 4096 + 7 else 0)
        (seq 0 1024) = true) by (by vm_compute).
      rewrite forallb_forall in Hall. specialize (Hall (Z.to_nat q)). rewrite Z2Nat.id in Hall by lia.
      apply Z.eqb_eq, Hall, in_seq. lia_mod.
    + unfold area, upage, kmodpage, kheappage in Ha. lia_mod.
    + unfold area, upage, kmodpage, kheappage in Ha. lia_mod.
  - simpl. rewrite (proj2 (Z.eqb_neq q 0x12)); [done|]. intros ->. by vm_compute in Hp.
Qed.

Lemma ex_region (P : Z -> Prop) l :
  (forall q, P q -> area q) -> wf l -> Z.of_nat (length (l ++ [Rent 0 0])) < 2 ^ 32 ->
  (forall q, covers l q -> P q /\ q <> 0x12) -> region ex_machine P (ex_map_of l) l.
Proof.
  intros HP Hw Hl Hc. constructor; [by exists [Rent 0 0]|done|intros q Hq; by apply Hc|].
  intros q Hq. destruct (Hc q Hq) as [Hp Hne].
  rewrite ex_view; [by rewrite (proj2 (Z.eqb_neq _ _) Hne)|apply (area_plain q), HP, Hp|left; by apply HP].
Qed.

Lemma ex_mem_ok lo : wf lo -> Z.of_nat (length (lo ++ [Rent 0 0])) < 2 ^ 32 ->
  (forall q, covers lo q -> kheappage q) -> mem_ok (ex_mem lo) ex_free ex_lu lo ex_lk.
Proof.
  intros Hw Hl Hc.
  assert (Hv : forall q, area q -> view ex_machine q = if q =? 0x12 then 4 * 4096 + 7 else 0).
  { intros q Hq. apply ex_view; [by apply area_plain|by left]. }
  assert (Hp : forall q, area q -> present (view ex_machine q) = true -> q = 0x12).
  { intros q Hq. rewrite Hv by done. destruct (Z.eqb_spec q 0x12); [done|]. intros Hp. by vm_compute in Hp. }
  constructor; [apply ex_ok|constructor|..].
  - change (mach (ex_mem lo)) with ex_machine.
    intros q Hq Hpr. rewrite (Hp q Hq Hpr). change (BTOP (view ex_machine 0x12)) with 4.
    split; [by vm_compute|]. split; [unfold ex_free; rewrite elem_of_seq; vm_compute; lia|].
    intros (i & Hi & Hpi & Hb). destruct (ex_dirent i Hi Hpi) as [[_ He]|[[_ He]|[_ He]]]; by rewrite He in Hb.
  - intros q r Hq Hr Hpq Hpr _. by rewrite (Hp q Hq Hpq), (Hp r Hr Hpr).
  - intros q Hq. change (mach (ex_mem lo)) with ex_machine. rewrite Hv by done. destruct (q =? 0x12); by vm_compute.
  - apply ex_region; [by left| |done|].
    + unfold wf, ex_lu; simpl. unfold rend; simpl. lia.
    + intros q. unfold ex_lu. rewrite !covers_cons, covers_nil. unfold in_range, upage, rend; simpl. lia.
  - apply ex_region; [by right; right|done|done|]. intros q Hq. split; [by apply Hc|].
    apply Hc in Hq. unfold kheappage in Hq. lia.
  - apply ex_region; [by right; left| |done|].
    + unfold wf, ex_lk; simpl. unfold rend; simpl. lia.
    + intros q. unfold ex_lk. rewrite !covers_cons, covers_nil. unfold in_range, kmodpage, rend; simpl. lia.
Qed.

Definition ex_lo : list rent := [Rent 0x92000 0x6E000].

Lemma ex_lo_ok : mem_ok (ex_mem ex_lo) ex_free ex_lu ex_lo ex_lk.
Proof.
  apply ex_mem_ok; [|done|].
  - unfold wf, ex_lo; simpl. unfold rend; simpl. lia.
  - intros q. unfold ex_lo. rewrite !covers_cons, covers_nil. unfold in_range, kheappage; simpl. lia.
Qed.

(** ** Witnesses *)


