(* ===== verification/Kmalloc.v ===== *)
(** * Kmalloc: the kernel heap, src/src/sys/krnl/kmalloc.c

    Blocks of up to half a page come from [buckets] of chunks whose sizes are powers of two;
    the free chunks of a bucket form a list through their first words, in the heap pages
    themselves.  Larger blocks are pages of their own.  [pfdb[].size] of the frame of a
    page says which of the two it is ([hp_size], by frame number).  The chunks are read and
    written through the page tables (Pdir.v), the pages come from Kmem.v. *)

From stdpp Require Import functions.
From S2P Require Import Prelude Rmap Pframe Pdir Kmem.
Local Open Scope krlean_scope.

Definition PAGESHIFT : Z := 12.
Definition TAG_ALOC : Z := tag4 0x41 0x4C 0x4F 0x43.
Definition TAG_HEAP : Z := tag4 0x48 0x45 0x41 0x50.

(** The table of 2048 bytes, by its runs. *)
Definition log2 : list Z :=
  replicate 16 4 ++ replicate 16 5 ++ replicate 32 6 ++ replicate 64 7 ++ replicate 128 8 ++
  replicate 256 9 ++ replicate 512 10 ++ replicate 1024 11.

Record bucket := Bucket { b_mem : Z; b_elems : Z; b_pages : Z; b_size : Z }.

Record heap := Heap {
  hp_mem : mem;
  hp_buckets : list bucket;
  hp_size : Z -> Z;
}.

Definition hp_machine (h : heap) : machine := mach (hp_mem h).
Definition with_hmem (h : heap) (st : mem) : heap := Heap st (hp_buckets h) (hp_size h).
Definition with_hmachine (h : heap) (s : machine) : heap := with_hmem h (set_mach (hp_mem h) s).
Definition with_bucket (h : heap) (i : nat) (b : bucket) : heap :=
  Heap (hp_mem h) (<[i := b]> (hp_buckets h)) (hp_size h).
Definition set_bmem (b : bucket) (a : Z) : bucket := Bucket a (b_elems b) (b_pages b) (b_size b).

(** [BUCKET(n)]: the entry [n - 1] of the table. *)
Definition BUCKET (n : Z) : outcome Z := if n - 1 <? 0 then Fault else deref (log2 !! Z.to_nat (n - 1)).

(** [pfdb[BTOP(virt2phys(addr))].size = v] *)
Definition set_frame_size (h : heap) (addr v : Z) : outcome heap :=
  ph <~ virt2phys (hp_machine h) addr;
  _ <~ deref (pfdb (frames (hp_machine h)) !! Z.to_nat (BTOP ph));
  Ret (Heap (hp_mem h) (hp_buckets h) (<[BTOP ph := v]> (hp_size h))).

(** The page is split into chunks; [p] is its address. *)
Fixpoint split_loop (fuel : nat) (s : machine) (b : bucket) (p i : Z) : outcome (machine * bucket) :=
  if i <? PAGESIZE then
    match fuel with
    | O => Diverge
    | S fuel =>
        s <~ store32 s (u32 (p + i)) (b_mem b);
        split_loop fuel s (set_bmem b (u32 (p + i))) p (s32 (i + b_size b))
    end
  else Ret (s, b).

(** A new page for the bucket [b], the number [n] of which goes into the frame. *)
Definition refill (h : heap) (n : Z) (b : bucket) : outcome heap :=
  '(addr, st) <~ alloc_pages (hp_mem h) 1 TAG_HEAP;
  h <~ set_frame_size (with_hmem h st) addr n;
  '(s, b) <~ split_loop (Z.to_nat PAGESIZE) (hp_machine h) b addr 0;
  Ret (with_bucket (with_hmachine h s) (Z.to_nat n)
         (Bucket (b_mem b) (b_elems b) (u32 (b_pages b + 1)) (b_size b))).

(** [addr = b->mem; b->mem = *(void ** ) addr;] *)
Definition take_chunk (h : heap) (n : Z) : outcome (Z * heap) :=
  b <~ deref (hp_buckets h !! Z.to_nat n);
  let addr := b_mem b in
  next <~ load32 (hp_machine h) addr;
  Ret (addr, with_bucket h (Z.to_nat n) (set_bmem b next)).

Definition kmalloc_tag (h : heap) (size tag : Z) : outcome (Z * heap) :=
  if PAGESIZE / 2 <? size then
    '(addr, st) <~ alloc_pages (hp_mem h) (PAGES (u32 size)) (if tag =? 0 then TAG_ALOC else tag);
    h <~ set_frame_size (with_hmem h st) addr (u32 (PAGES (u32 size) + PAGESHIFT));
    Ret (addr, h)
  else
    n <~ BUCKET size;
    b <~ deref (hp_buckets h !! Z.to_nat n);
    h <~ (if b_mem b =? 0 then refill h n b else Ret h);
    take_chunk h n.

Definition kmalloc (h : heap) (size : Z) : outcome (Z * heap) := kmalloc_tag h size 0.

Definition krealloc_tag (h : heap) (addr newsize tag : Z) : outcome (Z * heap) := Panic.

Definition kfree (h : heap) (addr : Z) : outcome heap :=
  if addr =? 0 then Ret h
  else
    ph <~ virt2phys (hp_machine h) addr;
    _ <~ deref (pfdb (frames (hp_machine h)) !! Z.to_nat (BTOP ph));
    let n := hp_size h (BTOP ph) in
    if PAGESHIFT <=? n then
      st <~ free_pages (hp_mem h) addr (s32 (n - PAGESHIFT)); Ret (with_hmem h st)
    else
      b <~ deref (hp_buckets h !! Z.to_nat n);
      s <~ store32 (hp_machine h) addr (b_mem b);
      Ret (with_bucket (with_hmachine h s) (Z.to_nat n) (set_bmem b addr)).

(** [init_malloc] *)
Definition init_malloc (h : heap) : heap :=
  Heap (hp_mem h)
    (imap (fun i b => Bucket (b_mem b) (b_elems b) (b_pages b) (Z.shiftl 1 (Z.of_nat i))) (hp_buckets h))
    (hp_size h).

(** ** The invariant *)

(** What a heap page is used for: chunks of a bucket, or the block that begins at an
    address. *)
Inductive page_use := Chunks (b : Z) | Block (a : Z).

(** The list of free chunks from [a]. *)
Fixpoint chain (s : machine) (a : Z) (l : list Z) : Prop :=
  match l with
  | [] => a = 0
  | x :: l => a = x /\ exists n, load32 s x = Ret n /\ chain s n l
  end.

(** A live block of [n] bytes at [x]. *)
Definition live_ok (s : machine) (size : Z -> Z) (use : Z -> option page_use) (L : Z -> list Z) (x n : Z) : Prop :=
  if n <=? 2048 then
    exists b, use (x / 4096) = Some (Chunks b) /\ x mod 2 ^ b = 0 /\ 0 < n <= 2 ^ b /\ (x ∉ L b) /\ 0 < x
  else x mod 4096 = 0 /\ 0 < x /\ x / 4096 + PAGES n <= NPAGES
    /\ (forall q, x / 4096 <= q < x / 4096 + PAGES n -> use q = Some (Block x))
    /\ size (BTOP (view s (x / 4096))) = PAGES n + PAGESHIFT.

Record heap_ok (h : heap) (fs : list nat) (lu lo lk : list rent) (use : Z -> option page_use)
    (L : Z -> list Z) (live : list (Z * Z)) : Prop := {
  ho_mem : mem_ok (hp_mem h) fs lu lo lk;
  ho_buckets : forall b, 0 <= b < 12 -> exists k, hp_buckets h !! Z.to_nat b = Some k
    /\ b_size k = 2 ^ b /\ chain (hp_machine h) (b_mem k) (L b);
  ho_page : forall p u, use p = Some u -> kheappage p /\ present (view (hp_machine h) p) = true;
  ho_chunks : forall p b, use p = Some (Chunks b) -> 4 <= b < 12
    /\ hp_size h (BTOP (view (hp_machine h) p)) = b;
  ho_free : forall b x, x ∈ L b -> use (x / 4096) = Some (Chunks b) /\ x mod 2 ^ b = 0;
  ho_nodup : forall b, NoDup (L b);
  ho_live : forall x n, (x, n) ∈ live -> live_ok (hp_machine h) (hp_size h) use L x n;
  ho_distinct : NoDup live.*1;
  ho_sizes : forall x n, (x, n) ∈ live -> 0 < n < 2 ^ 31;
}.

(** ** Words of memory *)

Lemma load_present s va : is_u32 va -> present (view s (va / 4096)) = true ->
  load32 s va = Ret (phys s (BTOP (view s (va / 4096))) (va mod 4096 / 4)).
Proof.
  intros Hva Hp. unfold load32. rewrite mmu_present by done. simpl.
  rewrite PGOFF_mod, Z.shiftr_div_pow2 by lia. done.
Qed.

Lemma load_same s s' va : is_u32 va -> present (view s (va / 4096)) = true ->
  view s' (va / 4096) = view s (va / 4096) ->
  phys s' (BTOP (view s (va / 4096))) = phys s (BTOP (view s (va / 4096))) ->
  load32 s' va = load32 s va.
Proof. intros Hva Hp Hv Hph. rewrite !load_present; rewrite ?Hv; try done. by rewrite Hph. Qed.

Lemma chain_ext s s' a l : (forall x, x ∈ l -> load32 s' x = load32 s x) -> chain s a l -> chain s' a l.
Proof.
  revert a. induction l as [|x l IH]; intros a Hl; simpl; [done|].
  intros (-> & n & Hn & Hc). split; [done|]. exists n. rewrite Hl by set_solver. split; [done|].
  apply IH; [set_solver|done].
Qed.

(** A store to a page of the area. *)
Lemma store_spec st fs lu lo lk va v :
  mem_ok st fs lu lo lk -> is_u32 va -> area (va / 4096) -> present (view (mach st) (va / 4096)) = true ->
  exists s', store32 (mach st) va v = Ret s' /\ mem_ok (set_mach st s') fs lu lo lk
    /\ (forall q, 0 <= q < NPAGES -> view s' q = view (mach st) q)
    /\ frames s' = frames (mach st)
    /\ load32 s' va = Ret v
    /\ (forall a, is_u32 a -> area (a / 4096) -> present (view (mach st) (a / 4096)) = true ->
         a / 4 <> va / 4 -> load32 s' a = load32 (mach st) a).
Proof.
  intros Hok Hva Ha Hp. set (s := mach st) in *. set (f := BTOP (view s (va / 4096))).
  pose proof (mo_vm _ _ _ _ _ Hok) as Hvm. pose proof (mo_own _ _ _ _ _ Hok) as How.
  destruct (ow_frame _ _ _ How _ Ha Hp) as (_ & _ & Hnt).
  unfold store32. rewrite mmu_present by done. fold f. cbn [obind].
  rewrite PGOFF_mod, Z.shiftr_div_pow2 by lia. eexists. split; [reflexivity|].
  set (s' := set_phys s _).
  destruct (data_change s s' fs f Hvm Hnt) as (Hok' & Hpt & Htb); [done|done| |].
  { intros g Hg. simpl. unfold put_word. by rewrite (proj2 (Z.eqb_neq _ _) Hg). }
  assert (Hv : forall q, 0 <= q < NPAGES -> view s' q = view s q).
  { intros q Hq. unfold view. by rewrite Hpt. }
  assert (Hreg : forall P m l, region s P m l -> (forall q, P q -> area q) -> region s' P m l).
  { intros P m l [H1 H2 H3 H4] HP. constructor; [done..|]. intros q Hq.
    rewrite Hv; [by apply H4|]. apply (area_plain q), HP, H3, Hq. }
  pose proof (page_range va Hva) as Hpr. split_and!.
  - destruct Hok as [_ _ Hu Hk Hm]. constructor; [done| |apply Hreg; [done|by left]
      |apply Hreg; [done|by right; right]|apply Hreg; [done|by right; left]].
    eapply owned_same; [exact How| |done|done]. intros q Hq. apply Hv. by apply (area_plain q).
  - done.
  - done.
  - rewrite load_present by (done || by rewrite Hv). rewrite Hv by done. fold f. simpl.
    unfold put_word. by rewrite !Z.eqb_refl.
  - intros a Hau Haa Hpa Hne. rewrite !load_present; rewrite ?Hv; try done; try by apply page_range.
    f_equal. simpl. unfold put_word. destruct (Z.eqb_spec (BTOP (view s (a / 4096))) f) as [He|]; [|done].
    apply (ow_inj _ _ _ How) in He; [|done..].
    destruct (Z.eqb_spec (a mod 4096 / 4) (va mod 4096 / 2 ^ 2)) as [Hw|]; [|done]. exfalso. apply Hne. lia_mod.
Qed.

(** Words of pages that an operation of Kmem.v leaves alone. *)
Lemma load_fresh s fs s' fs' p n tag flags va :
  owned s fs area -> fresh_pages s fs s' fs' area p n tag flags false -> is_u32 va -> area (va / 4096) ->
  present (view s (va / 4096)) = true -> ~ (p <= va / 4096 < p + n) -> load32 s' va = load32 s va.
Proof.
  intros How Hf Hva Ha Hp Hr. destruct (ow_frame _ _ _ How _ Ha Hp) as (H0 & Hn & Ht). apply load_same; [done..| |].
  - apply (fp_out _ _ _ _ _ _ _ _ _ _ Hf); auto with krlean.
  - apply (fp_data _ _ _ _ _ _ _ _ _ _ Hf); [lia|done|done].
Qed.

Lemma load_freed s fs s' fs' p n va :
  owned s fs area -> freed_pages s fs s' fs' area p n -> is_u32 va -> area (va / 4096) ->
  present (view s (va / 4096)) = true -> ~ (p <= va / 4096 < p + n) -> load32 s' va = load32 s va.
Proof.
  intros How Hf Hva Ha Hp Hr. destruct (ow_frame _ _ _ How _ Ha Hp) as (_ & _ & Ht). apply load_same; [done..| |].
  - rewrite (rp_view _ _ _ _ _ _ _ Hf) by auto with krlean. by rewrite decide_False by tauto.
  - by apply (rp_data _ _ _ _ _ _ _ Hf).
Qed.

(** ** Buckets *)

Lemma BUCKET_spec n : 0 < n <= 2048 ->
  exists b, BUCKET n = Ret b /\ 4 <= b < 12 /\ n <= 2 ^ b /\ (b = 4 \/ 2 ^ (b - 1) < n).
Proof.
  intros Hn. set (ok := fun k : nat => match BUCKET (Z.of_nat k) with
    | Ret b => (4 <=? b) && (b <? 12) && (Z.of_nat k <=? 2 ^ b) && ((b =? 4) || (2 ^ (b - 1) <? Z.of_nat k))
    | _ => false end).
  assert (Hall : forallb ok (seq 1 2048) = true) by (by vm_compute).
  rewrite forallb_forall in Hall. specialize (Hall (Z.to_nat n)). unfold ok in Hall.
  rewrite Z2Nat.id in Hall by lia. specialize (Hall ltac:(apply in_seq; lia)).
  destruct (BUCKET n) as [b| | |]; [|done..]. exists b. split; [done|].
  rewrite !andb_true_iff, orb_true_iff in Hall. destruct Hall as [[[H1 H2] H3] H4]. zify_bool.
  split; [lia|]. split; [done|]. destruct H4 as [H4|H4]; zify_bool; auto.
Qed.

(** The chunks of a page, the last one first. *)
Fixpoint chunks (p size i : Z) (n : nat) (l : list Z) : list Z :=
  match n with O => l | S n => chunks p size (i + size) n (p + i :: l) end.

Lemma elem_of_chunks p size i n l x : x ∈ chunks p size i n l <->
  x ∈ l \/ exists k, (k < n)%nat /\ x = p + i + Z.of_nat k * size.
Proof.
  revert i l. induction n as [|n IH]; intros i l; simpl.
  { split; [auto|]. intros [?|(k & ? & _)]; [done|lia]. }
  rewrite IH, elem_of_cons. split.
  - intros [[->|?]|(k & Hk & ->)]; [right; exists 0%nat; split; [lia|lia]|by left|].
    right. exists (S k). split; [lia|lia].
  - intros [?|([|k] & Hk & ->)]; [by left; right|left; left; lia|]. right. exists k. split; [lia|lia].
Qed.

Lemma NoDup_chunks p size i n l : 0 < size -> NoDup l -> (forall x, x ∈ l -> x < p + i) -> NoDup (chunks p size i n l).
Proof.
  intros Hs. revert i l. induction n as [|n IH]; intros i l Hnd Hl; simpl; [done|]. apply IH.
  - apply NoDup_cons. split; [|done]. intros Hin%Hl. lia.
  - intros x [->|Hx]%elem_of_cons; [lia|]. apply Hl in Hx. lia.
Qed.

Lemma split_loop_spec n fuel st fs lu lo lk b P i l :
  mem_ok st fs lu lo lk -> area P -> present (view (mach st) P) = true ->
  0 < b_size b -> b_size b mod 4 = 0 -> i mod 4 = 0 -> 0 <= i ->
  i + Z.of_nat n * b_size b = 4096 -> (n <= fuel)%nat ->
  chain (mach st) (b_mem b) l -> (forall x, x ∈ l -> P * 4096 <= x < P * 4096 + i /\ x mod 4 = 0) ->
  exists s' m, split_loop fuel (mach st) b (P * 4096) i = Ret (s', set_bmem b m)
    /\ mem_ok (set_mach st s') fs lu lo lk
    /\ (forall q, 0 <= q < NPAGES -> view s' q = view (mach st) q)
    /\ frames s' = frames (mach st)
    /\ chain s' m (chunks (P * 4096) (b_size b) i n l)
    /\ (forall a, is_u32 a -> area (a / 4096) -> present (view (mach st) (a / 4096)) = true ->
         a / 4096 <> P -> load32 s' a = load32 (mach st) a).
Proof.
  intros Hok HP Hpr Hs0 Hs4. revert fuel st b i l Hok Hpr Hs0 Hs4.
  induction n as [|n IH]; intros fuel st b i l Hok Hpr Hs0 Hs4 Hi4 Hi0 Hsum Hfuel Hch Hl.
  { exists (mach st), (b_mem b). assert (i = 4096) as -> by lia.
    destruct fuel; (split; [by destruct b|]); destruct st; split_and!; done. }
  destruct fuel as [|fuel]; [lia|]. simpl.
  assert (Hi : i < 4096) by lia. rewrite (proj2 (Z.ltb_lt i PAGESIZE)) by (unfold PAGESIZE; lia).
  destruct (area_plain P HP) as [HPr _]. unfold NPAGES in HPr.
  assert (Hva : is_u32 (P * 4096 + i)) by (unfold is_u32; lia). rewrite u32_small by done.
  assert (Hd : (P * 4096 + i) / 4096 = P) by lia_mod.
  destruct (store_spec st fs lu lo lk (P * 4096 + i) (b_mem b) Hok Hva) as (s1 & Hs1 & Hok1 & Hv1 & Hf1 & Hld & Hoth);
    [by rewrite Hd|by rewrite Hd|]. rewrite Hs1. cbn [obind].
  rewrite s32_small by (unfold is_s32; lia).
  assert (Hl1 : forall a, is_u32 a -> area (a / 4096) -> present (view (mach st) (a / 4096)) = true ->
    a / 4096 <> P -> load32 s1 a = load32 (mach st) a).
  { intros a H1 H2 H3 H4. apply Hoth; [done..|]. intros He. apply H4. lia_mod. }
  destruct (IH fuel (set_mach st s1) (set_bmem b (P * 4096 + i)) (i + b_size b) (P * 4096 + i :: l) Hok1)
    as (s' & m & Hr & Hok' & Hv & Hf & Hch' & Hoth'); simpl; try done; try lia; try lia_mod.
  - rewrite Hv1 by (unfold NPAGES; lia). done.
  - split; [done|]. exists (b_mem b). split; [done|]. eapply chain_ext; [|exact Hch].
    intros x Hx. destruct (Hl x Hx) as [Hxr Hx4]. apply Hoth.
    + unfold is_u32 in *. lia.
    + by replace (x / 4096) with P by lia_mod.
    + by replace (x / 4096) with P by lia_mod.
    + lia_mod.
  - intros x [->|Hx]%elem_of_cons; [lia_mod|]. destruct (Hl x Hx). lia_mod.
  - exists s', m. simpl in *. split; [exact Hr|]. split; [done|]. split_and!; [|by rewrite Hf|done|].
    + intros q Hq. by rewrite Hv, Hv1.
    + intros a H1 H2 H3 H4. rewrite Hoth'; [by apply Hl1|done|done| |done].
      rewrite Hv1; [done|]. by apply page_range.
Qed.

(** ** Steps of the invariant *)

Lemma size_pages n : 0 < n < 2 ^ 31 -> 0 < PAGES n <= 0x80000.
Proof. intros Hn. destruct (PAGES_small n ltac:(lia)) as (Hp & _ & Hpos). rewrite Hp in *. lia_mod. Qed.

Section Heap.
Context (lu lk : list rent).

(** A byte of a live block lies in a page of the heap. *)
Lemma live_page s size use L x n a : live_ok s size use L x n -> 0 < n < 2 ^ 31 -> x <= a < x + n ->
  (forall b p, use p = Some (Chunks b) -> 4 <= b < 12) ->
  exists u, use (a / 4096) = Some u
    /\ (forall b, u = Chunks b -> n <= 2048 /\ a / 4096 = x / 4096 /\ x mod 2 ^ b = 0 /\ n <= 2 ^ b)
    /\ (forall y, u = Block y -> y = x).
Proof.
  unfold live_ok. intros Hl Hn Ha Hb. destruct (Z.leb_spec n 2048).
  - destruct Hl as (b & Hu & Hm & Hnb & _). pose proof (Hb _ _ Hu) as Hbr.
    assert (Hp : a / 4096 = x / 4096).
    { assert (x mod 4096 + n <= 4096); [|lia_mod].
      assert (H4 : 4096 = 2 ^ b * 2 ^ (12 - b)) by (rewrite <- Z.pow_add_r by lia; by replace (b + (12 - b)) with 12 by lia).
      pose proof (Z.mod_divide x (2 ^ b) ltac:(lia)) as [Hdv _]. destruct (Hdv Hm) as [c Hc].
      assert (x mod 4096 = 2 ^ b * (c mod 2 ^ (12 - b))) as ->.
      { rewrite H4, Hc, Z.mul_comm. by rewrite Z.mul_mod_distr_l by lia. }
      pose proof (Z.mod_pos_bound c (2 ^ (12 - b)) ltac:(lia)). nia. }
    exists (Chunks b). rewrite Hp. split; [done|]. split; [|done]. intros b' [= <-]. split_and!; (done || lia).
  - destruct Hl as (Hm & H0 & Hr & Hu & _). exists (Block x). split; [|split; [done|by intros y [= ->]]].
    apply Hu. destruct (PAGES_small n ltac:(lia)) as (-> & _). lia_mod.
Qed.

Lemma kheap_area q : kheappage q -> area q.
Proof. by right; right. Qed.

Lemma used_u32 a u (use : Z -> option page_use) : (forall p u, use p = Some u -> kheappage p) ->
  use (a / 4096) = Some u -> is_u32 a.
Proof. intros Hk Hu. apply Hk in Hu. unfold kheappage, is_u32 in *. lia_mod. Qed.

(** The pages in use keep their entries and words. *)
Lemma heap_ok_frame h fs lo use L live st' fs' lo' :
  heap_ok h fs lu lo lk use L live -> mem_ok st' fs' lu lo' lk ->
  (forall q u, use q = Some u -> view (mach st') q = view (hp_machine h) q) ->
  (forall a u, is_u32 a -> use (a / 4096) = Some u -> load32 (mach st') a = load32 (hp_machine h) a) ->
  heap_ok (with_hmem h st') fs' lu lo' lk use L live.
Proof.
  intros [Hm Hb Hp Hc Hf Hn Hl Hd Hs] Hok' Hv Hld. constructor; try done.
  - intros b Hbr. destruct (Hb b Hbr) as (k & Hk & Hsz & Hch). exists k. split; [done|]. split; [done|].
    eapply chain_ext; [|exact Hch]. intros x Hx. destruct (Hf b x Hx) as [Hu _]. apply (Hld x (Chunks b)); [|done].
    eapply used_u32; [|exact Hu]. intros p u Hpu. by apply (Hp p u).
  - intros p u Hu. change (hp_machine (with_hmem h st')) with (mach st'). rewrite (Hv p u Hu). by apply (Hp p u).
  - intros p b Hu. change (hp_machine (with_hmem h st')) with (mach st'). rewrite (Hv p _ Hu). by apply Hc.
  - intros x n Hx. specialize (Hl x n Hx). unfold live_ok in *.
    change (hp_machine (with_hmem h st')) with (mach st'). destruct (n <=? 2048) eqn:Hn2; [done|].
    destruct Hl as (H1 & H2 & H3 & Hu & Hsz). split_and!; try done. rewrite (Hv _ (Block x)); [done|].
    apply Hu. pose proof (size_pages n (Hs x n Hx)). lia.
Qed.

Definition set_use (use : Z -> option page_use) (p n : Z) (u : option page_use) : Z -> option page_use :=
  fun q => if decide (p <= q < p + n) then u else use q.

(** New pages come into use, and the frame of the first gets a size. *)
Lemma heap_ok_add h fs lo use L live p n u v :
  heap_ok h fs lu lo lk use L live -> 0 < n ->
  (forall q, p <= q < p + n -> use q = None /\ kheappage q /\ present (view (hp_machine h) q) = true) ->
  (forall b, u = Chunks b -> n = 1 /\ v = b /\ 4 <= b < 12) ->
  heap_ok (Heap (hp_mem h) (hp_buckets h) (<[BTOP (view (hp_machine h) p) := v]> (hp_size h)))
    fs lu lo lk (set_use use p n (Some u)) L live.
Proof.
  intros [Hm Hb Hp Hc Hf Hn Hl Hd Hs] Hn0 Hq Hu.
  assert (Hold : forall q w, use q = Some w -> set_use use p n (Some u) q = Some w).
  { intros q w Hw. unfold set_use. rewrite decide_False; [done|]. intros Hr. destruct (Hq q Hr). congruence. }
  assert (Hsz : forall q w, use q = Some w ->
    <[BTOP (view (hp_machine h) p) := v]> (hp_size h) (BTOP (view (hp_machine h) q)) = hp_size h (BTOP (view (hp_machine h) q))).
  { intros q w Hw. apply fn_lookup_insert_ne. intros He.
    destruct (Hq p ltac:(lia)) as (Hnone & Hk & Hpp). destruct (Hp q w Hw) as [Hkq Hpq].
    apply (ow_inj _ _ _ (mo_own _ _ _ _ _ Hm)) in He; [|by apply kheap_area..|done|done]. congruence. }
  constructor; try done.
  - intros q w. unfold set_use. case_decide as Hr; [intros _; by apply Hq|apply Hp].
  - intros q b. change (hp_machine _) with (hp_machine h). unfold set_use at 1. case_decide as Hr.
    + intros [= ->]. destruct (Hu b eq_refl) as (-> & -> & Hbr). split; [done|].
      replace q with p by lia. simpl. by rewrite fn_lookup_insert.
    + intros Hc'. simpl. rewrite (Hsz q _ Hc'). by apply Hc.
  - intros b x Hx. destruct (Hf b x Hx) as [Hu' ?]. split; [by apply Hold|done].
  - intros x m Hx. specialize (Hl x m Hx). unfold live_ok in *. destruct (m <=? 2048) eqn:Hm2.
    + destruct Hl as (b & Hu' & ?). exists b. split; [by apply Hold|done].
    + destruct Hl as (H1 & H2 & H3 & Hu' & Hsx). split_and!; [done|done|done|by intros q Hr; apply Hold, Hu'|].
      change (hp_machine _) with (hp_machine h). simpl. rewrite (Hsz _ (Block x)); [done|].
      apply Hu'. pose proof (size_pages m (Hs x m Hx)). lia.
Qed.

Lemma set_frame_size_spec h fs lo p a v :
  mem_ok (hp_mem h) fs lu lo lk -> is_u32 a -> a / 4096 = p -> area p -> present (view (hp_machine h) p) = true ->
  set_frame_size h a v = Ret (Heap (hp_mem h) (hp_buckets h) (<[BTOP (view (hp_machine h) p) := v]> (hp_size h))).
Proof.
  intros Hok Ha <- Hp Hpr. unfold set_frame_size, hp_machine in *.
  pose proof (mo_own _ _ _ _ _ Hok) as How.
  destruct (virt2phys_frame _ fs a (mo_vm _ _ _ _ _ Hok) Ha (ow_u32 _ _ _ How _ Hp) Hpr) as (ph & Hph & Hb).
  rewrite Hph. cbn [obind]. rewrite Hb. destruct (ow_frame _ _ _ How _ Hp Hpr) as (Hr & _).
  destruct (lookup_lt_is_Some_2 (pfdb (frames (mach (hp_mem h)))) (Z.to_nat (BTOP (view (mach (hp_mem h)) (a / 4096)))))
    as [x ->]; [lia|]. done.
Qed.

(** The state of a bucket after its list has changed to [l]. *)
Lemma heap_ok_bucket h fs lo use L live s' b k k' l :
  heap_ok h fs lu lo lk use L live -> 0 <= b < 12 -> hp_buckets h !! Z.to_nat b = Some k -> b_size k' = b_size k ->
  mem_ok (set_mach (hp_mem h) s') fs lu lo lk ->
  (forall q, 0 <= q < NPAGES -> view s' q = view (hp_machine h) q) ->
  (forall b' x, b' <> b -> x ∈ L b' -> load32 s' x = load32 (hp_machine h) x) ->
  chain s' (b_mem k') l -> NoDup l ->
  (forall x, x ∈ l -> use (x / 4096) = Some (Chunks b) /\ x mod 2 ^ b = 0) ->
  (forall x n, (x, n) ∈ live -> x ∉ l) ->
  heap_ok (with_bucket (with_hmachine h s') (Z.to_nat b) k') fs lu lo lk use (<[b := l]> L) live.
Proof.
  intros [Hm Hb Hp Hc Hf Hn Hl Hd Hs] Hbr Hk Hsz Hok' Hv Hld Hch Hnd Hin Hlive.
  assert (Hnp : forall q u, use q = Some u -> 0 <= q < NPAGES).
  { intros q u Hu. apply (area_plain q), kheap_area. by apply (Hp q u). }
  constructor; try done.
  - intros b' Hb'. simpl. destruct (decide (b' = b)) as [->|Hne].
    + exists k'. rewrite list_lookup_insert_eq by (by eapply lookup_lt_Some). rewrite fn_lookup_insert.
      split; [done|]. split; [|done]. destruct (Hb b Hbr) as (k0 & Hk0 & ? & _). congruence.
    + rewrite list_lookup_insert_ne by lia. rewrite fn_lookup_insert_ne by done.
      destruct (Hb b' Hb') as (k0 & Hk0 & Hs0 & Hc0). exists k0. split; [done|]. split; [done|].
      eapply chain_ext; [|exact Hc0]. intros x Hx. by apply (Hld b').
  - intros q u Hu. change (hp_machine _) with s'. rewrite Hv by (by eapply Hnp). by apply (Hp q u).
  - intros q b' Hu. change (hp_machine _) with s'. rewrite Hv by (by eapply Hnp). by apply Hc.
  - intros b' x. destruct (decide (b' = b)) as [->|Hne].
    + rewrite fn_lookup_insert. apply Hin.
    + rewrite fn_lookup_insert_ne by done. apply Hf.
  - intros b'. destruct (decide (b' = b)) as [->|Hne].
    + by rewrite fn_lookup_insert.
    + by rewrite fn_lookup_insert_ne.
  - intros x n Hx. pose proof (Hl x n Hx) as Ho. unfold live_ok in *. change (hp_machine _) with s'.
    destruct (n <=? 2048) eqn:Hn2.
    + destruct Ho as (b' & Hu & Hmd & Hnb & Hni & H0). exists b'. split; [done|]. split; [done|]. split; [done|]. split; [|done].
      destruct (decide (b' = b)) as [->|Hne].
      * rewrite fn_lookup_insert. by eapply Hlive.
      * by rewrite fn_lookup_insert_ne.
    + destruct Ho as (H1 & H2 & H3 & Hu & Hsx). split_and!; try done. simpl. rewrite Hv; [done|].
      eapply Hnp, Hu. zify_bool. pose proof (size_pages n (Hs x n Hx)). lia.
Qed.

Lemma heap_ok_live h fs lo use L live x n :
  heap_ok h fs lu lo lk use L live -> live_ok (hp_machine h) (hp_size h) use L x n -> x ∉ live.*1 ->
  0 < n < 2 ^ 31 -> heap_ok h fs lu lo lk use L ((x, n) :: live).
Proof.
  intros [Hm Hb Hp Hc Hf Hn Hl Hd Hs] Hx Hnx Hnr. constructor; try done.
  - intros y m [[= -> ->]|Hy]%elem_of_cons; [done|auto].
  - simpl. by apply NoDup_cons.
  - intros y m [[= -> ->]|Hy]%elem_of_cons; [done|]. by apply (Hs y m).
Qed.

(** A live block begins at no free chunk, and in no page that is not in use. *)
Lemma live_not_free h fs lo use L live x b : heap_ok h fs lu lo lk use L live -> x ∈ L b -> x ∉ live.*1.
Proof.
  intros Hok Hx Hin. apply list_elem_of_fmap in Hin as ([y n] & Hxy & Hy). simpl in Hxy. subst y.
  destruct (ho_free _ _ _ _ _ _ _ _ Hok b x Hx) as [Hu _].
  pose proof (ho_live _ _ _ _ _ _ _ _ Hok x n Hy) as Hl. unfold live_ok in Hl. destruct (n <=? 2048) eqn:Hn2.
  - destruct Hl as (b' & Hu' & _ & _ & Hni & _). rewrite Hu in Hu'. injection Hu' as <-. done.
  - destruct Hl as (_ & _ & _ & Hu' & _). zify_bool.
    pose proof (size_pages n (ho_sizes _ _ _ _ _ _ _ _ Hok x n Hy)). rewrite Hu' in Hu; [done|lia].
Qed.

Lemma live_used h fs lo use L live x n : heap_ok h fs lu lo lk use L live -> (x, n) ∈ live ->
  exists u, use (x / 4096) = Some u.
Proof.
  intros Hok Hx. pose proof (ho_sizes _ _ _ _ _ _ _ _ Hok x n Hx).
  destruct (live_page _ _ _ _ _ _ x (ho_live _ _ _ _ _ _ _ _ Hok x n Hx)) as (u & Hu & _); [lia|lia| |eauto].
  intros b p Hp. by apply (ho_chunks _ _ _ _ _ _ _ _ Hok p).
Qed.

Lemma take_chunk_spec h fs lo use L live b x l n :
  heap_ok h fs lu lo lk use L live -> 4 <= b < 12 -> L b = x :: l -> 0 < n <= 2048 -> n <= 2 ^ b ->
  exists h', take_chunk h b = Ret (x, h') /\ hp_mem h' = hp_mem h
    /\ heap_ok h' fs lu lo lk use (<[b := l]> L) ((x, n) :: live).
Proof.
  intros Hok Hb HL Hn Hnb. destruct (ho_buckets _ _ _ _ _ _ _ _ Hok b ltac:(lia)) as (k & Hk & Hsz & Hch).
  rewrite HL in Hch. destruct Hch as (Hkm & nx & Hld & Hch).
  assert (Hx : x ∈ L b) by (rewrite HL; set_solver). destruct (ho_free _ _ _ _ _ _ _ _ Hok b x Hx) as [Hu Hm].
  pose proof (ho_nodup _ _ _ _ _ _ _ _ Hok b) as Hnd. rewrite HL in Hnd. apply NoDup_cons in Hnd as [Hxl Hnd].
  unfold take_chunk. rewrite Hk. simpl. rewrite Hkm, Hld. simpl. eexists. split; [reflexivity|]. split; [done|].
  assert (Hself : with_hmachine h (hp_machine h) = h) by (by destruct h as [[] ? ?]).
  apply heap_ok_live.
  - rewrite <- Hself at 1. eapply heap_ok_bucket; try done; [lia| | |].
    + pose proof (ho_mem _ _ _ _ _ _ _ _ Hok). unfold hp_machine. by destruct (hp_mem h).
    + intros y Hy. apply (ho_free _ _ _ _ _ _ _ _ Hok b). rewrite HL. set_solver.
    + intros y m Hy Hyl. eapply (live_not_free h fs lo use L live y b Hok); [rewrite HL; set_solver|].
      apply list_elem_of_fmap. by exists (y, m).
  - unfold live_ok. rewrite (proj2 (Z.leb_le n 2048)) by lia. exists b. rewrite fn_lookup_insert.
    split_and!; try done; try lia. apply (ho_page _ _ _ _ _ _ _ _ Hok) in Hu as [Hkp _]. unfold kheappage in Hkp. lia_mod.
  - by apply (live_not_free h fs lo use L live x b).
  - lia.
Qed.

(** The map of the heap has [n] pages in a row. *)
Definition heap_room (h : heap) (n : Z) : Prop := (rmap_alloc (osvmap (hp_mem h)) n).1 <> 0.

Lemma room_fits st fs lo n : mem_ok st fs lu lo lk -> 0 < n < NPAGES ->
  (rmap_alloc (osvmap st) n).1 <> 0 -> ~ Forall (fun e => r_size e < n) lo.
Proof.
  intros Hok Hn Hr Hfit. pose proof (mo_osvmap _ _ _ _ _ Hok) as Hreg.
  destruct (rmap_alloc (osvmap st) n) as [idx m] eqn:Hal.
  destruct (rmap_alloc_none _ lo n idx m (rg_rep _ _ _ _ Hreg) (rg_wf _ _ _ _ Hreg)) as [-> _];
    [unfold NPAGES in *; lia|done|done|done].
Qed.

(** The words of the pages in use. *)
Definition keeps (use : Z -> option page_use) (h h' : heap) : Prop :=
  forall a u, is_u32 a -> use (a / 4096) = Some u -> load32 (hp_machine h') a = load32 (hp_machine h) a.

(** The pages that [alloc_pages] hands out come into use. *)
Lemma heap_alloc h fs lo use L live n tag :
  heap_ok h fs lu lo lk use L live -> 0 < n < NPAGES -> heap_room h n ->
  (alloc_pages (hp_mem h) n tag = Panic /\ (length fs < 2 * Z.to_nat n)%nat) \/
  exists p st' fs' lo', alloc_pages (hp_mem h) n tag = Ret (p * 4096, st') /\ 0 <= p /\ p + n <= NPAGES
    /\ heap_ok (with_hmem h st') fs' lu lo' lk use L live /\ keeps use h (with_hmem h st')
    /\ (forall q, p <= q < p + n -> use q = None /\ kheappage q /\ present (view (mach st') q) = true).
Proof.
  intros Hok Hn Hroom. pose proof (ho_mem _ _ _ _ _ _ _ _ Hok) as Hm.
  destruct (alloc_pages_spec _ fs lu lo lk n tag Hm Hn (room_fits _ fs lo n Hm Hn Hroom))
    as [?|(p & m & lo' & s' & fs' & Hal & Hm' & Hp0 & Hpn & Hq & Hf)]; [by left|right].
  assert (Hnu : forall q u, use q = Some u -> ~ (p <= q < p + n)).
  { intros q u Hu Hr. destruct (Hq q Hr) as (_ & _ & Hn0). destruct (ho_page _ _ _ _ _ _ _ _ Hok q u Hu) as [_ Hp].
    unfold hp_machine in Hp. congruence. }
  assert (Hk : keeps use h (with_hmem h (set_mach (set_osvmap (hp_mem h) m) s'))).
  { intros a u Ha Hu. destruct (ho_page _ _ _ _ _ _ _ _ Hok _ u Hu) as [Hkp Hp].
    eapply load_fresh; [apply Hm|exact Hf|done|by apply kheap_area|done|by eapply Hnu]. }
  exists p, (set_mach (set_osvmap (hp_mem h) m) s'), fs', lo'.
  split; [by rewrite PTOB_mul in Hal by lia|]. split; [lia|]. split; [done|]. split; [|split; [done|]].
  - eapply heap_ok_frame; [exact Hok|done| |exact Hk]. intros q u Hu.
    apply (fp_out _ _ _ _ _ _ _ _ _ _ Hf); [|by eapply Hnu].
    by apply kheappage_plain, (ho_page _ _ _ _ _ _ _ _ Hok q u).
  - intros q Hr. destruct (Hq q Hr) as (Hkp & _ & Hn0). split; [|split; [done|]].
    + destruct (use q) eqn:Hu; [|done]. by destruct (Hnu q p0 Hu).
    + destruct (fresh_in _ _ _ _ _ _ _ _ _ _ Hf) with q as (f & Hv & _ & _ & Ht & _); [intros r Hr'; by apply Hq|done|].
      simpl. rewrite Hv, pte_present; [apply KFLAGS_ok|]. eapply tagged_frame; [apply (fp_ok _ _ _ _ _ _ _ _ _ _ Hf)|done].
Qed.

Lemma refill_spec h fs lo use L live b k :
  heap_ok h fs lu lo lk use L live -> 4 <= b < 12 -> hp_buckets h !! Z.to_nat b = Some k -> L b = [] ->
  heap_room h 1 ->
  (refill h b k = Panic /\ (length fs < 2)%nat) \/
  exists h' fs' lo' use' x l, refill h b k = Ret h'
    /\ heap_ok h' fs' lu lo' lk use' (<[b := x :: l]> L) live /\ keeps use h h'.
Proof.
  intros Hok Hb Hk HL Hroom. destruct (ho_buckets _ _ _ _ _ _ _ _ Hok b ltac:(lia)) as (k0 & Hk0 & Hsz & Hch).
  rewrite Hk in Hk0. injection Hk0 as <-. rewrite HL in Hch. simpl in Hch. unfold refill.
  destruct (heap_alloc h fs lo use L live 1 TAG_HEAP Hok ltac:(unfold NPAGES; lia) Hroom)
    as [[-> ?]|(P & st1 & fs1 & lo1 & -> & HP0 & HPn & Hok1 & Hkeep1 & Hq)]; [by left|right]. cbn [obind].
  destruct (Hq P ltac:(lia)) as (Hnone & Hkp & Hpr). pose proof (kheap_area P Hkp) as Har.
  pose proof (ho_mem _ _ _ _ _ _ _ _ Hok1) as Hm1.
  destruct (page_base P) as (Hu & Hd & _); [by apply area_plain|].
  rewrite (set_frame_size_spec (with_hmem h st1) fs1 lo1 P) by done. cbn [obind].
  set (h2 := Heap _ _ _).
  assert (Hok2 : heap_ok h2 fs1 lu lo1 lk (set_use use P 1 (Some (Chunks b))) L live).
  { apply heap_ok_add; [done|lia|done|]. intros b' [= <-]. done. }
  assert (Hpow : 2 ^ b * 2 ^ (12 - b) = 4096).
  { rewrite <- Z.pow_add_r by lia. by replace (b + (12 - b)) with 12 by lia. }
  assert (H4 : 2 ^ b mod 4 = 0).
  { replace b with (2 + (b - 2)) by lia. rewrite Z.pow_add_r by lia. change (2 ^ 2) with 4.
    rewrite Z.mul_comm. apply Z.mod_mul. lia. }
  destruct (split_loop_spec (Z.to_nat (2 ^ (12 - b))) (Z.to_nat PAGESIZE) st1 fs1 lu lo1 lk k P 0 [])
    as (s3 & m3 & Hsp & Hm3 & Hv3 & Hf3 & Hch3 & Hld3); try done; rewrite ?Hsz; try lia; try done.
  { apply Z2Nat.inj_le; unfold PAGESIZE; nia. }
  { by intros x ?%elem_of_nil. }
  change (hp_machine h2) with (mach st1). rewrite Hsp. cbn [obind].
  rewrite Hsz in Hch3. set (l3 := chunks _ _ _ _ _) in *.
  assert (Hl3 : forall x, x ∈ l3 -> x / 4096 = P /\ x mod 2 ^ b = 0 /\ x <> 0).
  { intros x Hx. unfold l3 in Hx. apply elem_of_chunks in Hx as [?%elem_of_nil|(j & Hj & ->)]; [done|].
    assert (0 <= Z.of_nat j * 2 ^ b < 4096) by nia. split; [lia_mod|]. split; [|unfold kheappage in Hkp; nia].
    rewrite <- Hpow. replace (P * (2 ^ b * 2 ^ (12 - b)) + 0 + Z.of_nat j * 2 ^ b)
      with ((P * 2 ^ (12 - b) + Z.of_nat j) * 2 ^ b) by ring. apply Z.mod_mul. lia. }
  assert (Hold : forall x u, use (x / 4096) = Some u -> x / 4096 <> P) by (intros x u Hx He; rewrite He in Hx; congruence).
  set (k3 := Bucket _ _ _ _).
  assert (Hok3 : heap_ok (with_bucket (with_hmachine h2 s3) (Z.to_nat b) k3) fs1 lu lo1 lk
    (set_use use P 1 (Some (Chunks b))) (<[b := l3]> L) live).
  { eapply (heap_ok_bucket h2 fs1 lo1 _ L live s3 b k k3 l3 Hok2); try done; [lia| | | |].
    - intros b' x Hne Hx. destruct (ho_free _ _ _ _ _ _ _ _ Hok b' x Hx) as [Hux _].
      destruct (ho_page _ _ _ _ _ _ _ _ Hok1 _ _ Hux) as [Hkx Hpx].
      apply Hld3; [|by apply kheap_area|done|by eapply Hold]. unfold kheappage, is_u32 in *. lia_mod.
    - unfold l3. apply NoDup_chunks; [lia|apply NoDup_nil; done|by intros x ?%elem_of_nil].
    - intros x Hx. destruct (Hl3 x Hx) as (Hxp & Hmd & _). rewrite Hxp. split; [|done]. unfold set_use. by rewrite decide_True by lia.
    - intros x n Hx Hxl. destruct (live_used _ _ _ _ _ _ _ _ Hok Hx) as [u Hux]. by apply (Hold x u Hux), Hl3. }
  assert (P * 4096 + 0 + Z.of_nat 0 * 2 ^ b ∈ l3) as Hin.
  { unfold l3. apply elem_of_chunks. right. exists 0%nat. split; [|done]. nia. }
  destruct l3 as [|x l]; [by apply elem_of_nil in Hin|].
  eexists _, fs1, lo1, _, x, l. split; [done|]. split; [exact Hok3|].
  intros a u Ha Hua. rewrite <- (Hkeep1 a u Ha Hua).
  destruct (ho_page _ _ _ _ _ _ _ _ Hok1 _ _ Hua) as [Hka Hpa].
  apply (Hld3 a Ha); [by apply kheap_area|done|by eapply Hold].
Qed.

Lemma kmalloc_tag_spec h fs lo use L live size tag :
  heap_ok h fs lu lo lk use L live -> 0 < size < 2 ^ 31 ->
  heap_room h (if 2048 <? size then PAGES size else 1) ->
  (kmalloc_tag h size tag = Panic /\ (length fs < 2 * Z.to_nat (PAGES size))%nat) \/
  exists x h' fs' lo' use' L', kmalloc_tag h size tag = Ret (x, h')
    /\ heap_ok h' fs' lu lo' lk use' L' ((x, size) :: live) /\ keeps use h h'.
Proof.
  intros Hok Hs Hroom. pose proof (size_pages size Hs) as Hpg. unfold kmalloc_tag. change (PAGESIZE / 2) with 2048.
  rewrite u32_small by (unfold is_u32; lia). destruct (Z.ltb_spec 2048 size) as [Hbig|Hsmall].
  - destruct (heap_alloc h fs lo use L live (PAGES size) (if tag =? 0 then TAG_ALOC else tag) Hok
      ltac:(unfold NPAGES; lia) Hroom) as [[-> ?]|(p & st1 & fs1 & lo1 & -> & Hp0 & Hpn & Hok1 & Hk1 & Hq)];
      [by left|right]. cbn [obind].
    destruct (Hq p ltac:(lia)) as (Hnone & Hkp & Hpr). pose proof (kheap_area p Hkp) as Har.
    destruct (page_base p) as (Hu & Hd & _); [by apply area_plain|].
    pose proof (ho_mem _ _ _ _ _ _ _ _ Hok1) as Hm1.
    rewrite (set_frame_size_spec (with_hmem h st1) fs1 lo1 p) by done. cbn [obind].
    rewrite u32_small by (unfold is_u32, PAGESHIFT; lia).
    eexists _, _, fs1, lo1, (set_use use p (PAGES size) (Some (Block (p * 4096)))), L. split; [reflexivity|]. split; [|exact Hk1].
    apply heap_ok_live.
    + apply heap_ok_add; [done|lia|done|done].
    + unfold live_ok. rewrite (proj2 (Z.leb_gt size 2048)) by lia. rewrite Hd. split_and!.
      * lia_mod.
      * unfold kheappage in Hkp. lia.
      * done.
      * intros q Hr. unfold set_use. by rewrite decide_True.
      * simpl. by rewrite fn_lookup_insert.
    + intros Hin. apply list_elem_of_fmap in Hin as ([y n] & Hy & Hin). simpl in Hy. subst y.
      destruct (live_used _ _ _ _ _ _ _ _ Hok Hin) as [u Hux]. rewrite Hd in Hux. congruence.
    + done.
  - destruct (BUCKET_spec size ltac:(lia)) as (b & -> & Hb & Hnb & _). cbn [obind].
    destruct (ho_buckets _ _ _ _ _ _ _ _ Hok b ltac:(lia)) as (k & Hk & Hsz & Hch). rewrite Hk. cbn [deref obind].
    destruct (L b) as [|x l] eqn:HL.
    + simpl in Hch. rewrite (proj2 (Z.eqb_eq _ _) Hch).
      destruct (refill_spec h fs lo use L live b k Hok Hb Hk HL Hroom)
        as [[-> ?]|(h1 & fs1 & lo1 & use1 & x & l & -> & Hok1 & Hk1)]; [left; split; [done|lia]|right]. cbn [obind].
      destruct (take_chunk_spec h1 fs1 lo1 use1 _ live b x l size Hok1 Hb) as (h2 & Ht & Hm & Hok2);
        [by rewrite fn_lookup_insert|lia|done|].
      exists x, h2, fs1, lo1, use1. eexists. split; [exact Ht|]. split; [exact Hok2|].
      intros a u Ha Hu. unfold hp_machine at 1. rewrite Hm. by apply (Hk1 a u).
    + destruct Hch as (Hkm & Hch). assert (0 < x).
      { destruct (ho_free _ _ _ _ _ _ _ _ Hok b x) as [Hu _]; [rewrite HL; set_solver|].
        apply (ho_page _ _ _ _ _ _ _ _ Hok) in Hu as [Hu _]. unfold kheappage in Hu. lia_mod. }
      rewrite (proj2 (Z.eqb_neq (b_mem k) 0)) by lia. cbn [obind]. right.
      destruct (take_chunk_spec h fs lo use L live b x l size Hok Hb HL) as (h2 & Ht & Hm & Hok2); [lia|done|].
      exists x, h2, fs, lo, use. eexists. split; [exact Ht|]. split; [exact Hok2|].
      intros a u Ha Hu. unfold hp_machine at 1. by rewrite Hm.
Qed.

Lemma live_disjoint h fs lo use L live x n y m a :
  heap_ok h fs lu lo lk use L live -> (x, n) ∈ live -> (y, m) ∈ live ->
  x <= a < x + n -> y <= a < y + m -> x = y.
Proof.
  intros Hok Hx Hy Ha Hb.
  assert (Hch : forall b p, use p = Some (Chunks b) -> 4 <= b < 12) by (intros b p Hp; by apply (ho_chunks _ _ _ _ _ _ _ _ Hok p)).
  destruct (live_page _ _ _ _ _ _ a (ho_live _ _ _ _ _ _ _ _ Hok x n Hx) (ho_sizes _ _ _ _ _ _ _ _ Hok x n Hx) Ha Hch)
    as (u & Hu & Hc1 & Hb1).
  destruct (live_page _ _ _ _ _ _ a (ho_live _ _ _ _ _ _ _ _ Hok y m Hy) (ho_sizes _ _ _ _ _ _ _ _ Hok y m Hy) Hb Hch)
    as (u' & Hu' & Hc2 & Hb2).
  rewrite Hu in Hu'. injection Hu' as <-. destruct u as [b|z].
  - destruct (Hc1 b eq_refl) as (_ & _ & Hmx & Hnx), (Hc2 b eq_refl) as (_ & _ & Hmy & Hny).
    pose proof (Hch b _ Hu) as Hbr. assert (0 < 2 ^ b) by lia.
    assert (x / 2 ^ b = a / 2 ^ b) by (apply (Z.div_unique a (2 ^ b) (x / 2 ^ b) (a - x)); [lia|]; pose proof (Z.div_mod x (2 ^ b)); lia).
    assert (y / 2 ^ b = a / 2 ^ b) by (apply (Z.div_unique a (2 ^ b) (y / 2 ^ b) (a - y)); [lia|]; pose proof (Z.div_mod y (2 ^ b)); lia).
    pose proof (Z.div_mod x (2 ^ b)). pose proof (Z.div_mod y (2 ^ b)). lia.
  - by rewrite <- (Hb1 z eq_refl), <- (Hb2 z eq_refl).
Qed.

Lemma heap_ok_drop h fs lo use L l1 x n l2 :
  heap_ok h fs lu lo lk use L (l1 ++ (x, n) :: l2) ->
  heap_ok h fs lu lo lk use L (l1 ++ l2) /\ x ∉ (l1 ++ l2).*1.
Proof.
  intros [Hm Hb Hp Hc Hf Hn Hl Hd Hs].
  assert (Hsub : forall y m, (y, m) ∈ l1 ++ l2 -> (y, m) ∈ l1 ++ (x, n) :: l2) by (intros y m; set_solver).
  rewrite fmap_app, fmap_cons in Hd. apply NoDup_app in Hd as (H1 & H2 & H3). apply NoDup_cons in H3 as [H3 H4].
  split; [constructor; try done; auto|].
  - rewrite fmap_app. apply NoDup_app. split_and!; [done| |done]. intros z Hz. specialize (H2 z Hz). set_solver.
  - intros y m Hy. by apply (Hs y m), Hsub.
  - rewrite fmap_app. intros [Hx|Hx]%elem_of_app; [|done]. specialize (H2 x Hx). set_solver.
Qed.

(** The contents of the live blocks. *)
Definition contents (live : list (Z * Z)) (h h' : heap) : Prop :=
  forall x n a, (x, n) ∈ live -> x <= a < x + n -> load32 (hp_machine h') a = load32 (hp_machine h) a.

Lemma live_byte h fs lo use L live x n a :
  heap_ok h fs lu lo lk use L live -> (x, n) ∈ live -> x <= a < x + n ->
  exists u, use (a / 4096) = Some u /\ is_u32 a /\ (forall y, u = Block y -> y = x).
Proof.
  intros Hok Hx Ha.
  destruct (live_page _ _ _ _ _ _ a (ho_live _ _ _ _ _ _ _ _ Hok x n Hx) (ho_sizes _ _ _ _ _ _ _ _ Hok x n Hx) Ha)
    as (u & Hu & _ & Hb); [intros b p Hp; by apply (ho_chunks _ _ _ _ _ _ _ _ Hok p)|].
  exists u. split; [done|]. split; [|done]. eapply used_u32; [|exact Hu].
  intros p w Hw. by apply (ho_page _ _ _ _ _ _ _ _ Hok p w).
Qed.

Lemma keeps_contents h fs lo use L live h' :
  heap_ok h fs lu lo lk use L live -> keeps use h h' -> contents live h h'.
Proof.
  intros Hok Hk x n a Hx Ha. destruct (live_byte _ _ _ _ _ _ _ _ a Hok Hx Ha) as (u & Hu & H32 & _). by apply (Hk a u).
Qed.

(** Freeing a chunk. *)
Lemma kfree_small h fs lo use L live x n :
  heap_ok h fs lu lo lk use L live -> x ∉ live.*1 -> 0 < n <= 2048 ->
  live_ok (hp_machine h) (hp_size h) use L x n ->
  (forall y m a, (y, m) ∈ live -> y <= a < y + m -> a / 4 <> x / 4) ->
  exists h' L', kfree h x = Ret h' /\ heap_ok h' fs lu lo lk use L' live /\ contents live h h'.
Proof.
  intros Hok Hnx Hn Hl Hfar. unfold live_ok in Hl. rewrite (proj2 (Z.leb_le n 2048)) in Hl by lia.
  destruct Hl as (b & Hu & Hmd & Hnb & Hni & H0).
  destruct (ho_chunks _ _ _ _ _ _ _ _ Hok _ _ Hu) as [Hb Hsz]. destruct (ho_page _ _ _ _ _ _ _ _ Hok _ _ Hu) as [Hkp Hpr].
  pose proof (kheap_area _ Hkp) as Har. pose proof (ho_mem _ _ _ _ _ _ _ _ Hok) as Hm.
  assert (Hxu : is_u32 x) by (unfold kheappage, is_u32 in *; lia_mod).
  pose proof (mo_own _ _ _ _ _ Hm) as How. destruct (ow_frame _ _ _ How _ Har Hpr) as (Hr & _).
  unfold kfree. rewrite (proj2 (Z.eqb_neq x 0)) by lia.
  destruct (virt2phys_frame _ fs x (mo_vm _ _ _ _ _ Hm) Hxu (ow_u32 _ _ _ How _ Har) Hpr) as (ph & Hph & Hbp).
  change (mach (hp_mem h)) with (hp_machine h) in *. rewrite Hph. cbn [obind]. rewrite Hbp.
  destruct (lookup_lt_is_Some_2 (pfdb (frames (hp_machine h))) (Z.to_nat (BTOP (view (hp_machine h) (x / 4096)))))
    as [fr ->]; [lia|]. cbn [deref obind]. rewrite Hsz, (proj2 (Z.leb_gt _ _)) by (unfold PAGESHIFT; lia).
  destruct (ho_buckets _ _ _ _ _ _ _ _ Hok b ltac:(lia)) as (k & Hk & Hks & Hch). rewrite Hk. cbn [deref obind].
  destruct (store_spec (hp_mem h) fs lu lo lk x (b_mem k) Hm Hxu Har Hpr) as (s' & Hst & Hm' & Hv & Hf & Hld & Hoth).
  change (mach (hp_mem h)) with (hp_machine h) in *. rewrite Hst. cbn [obind].
  assert (H4 : x mod 4 = 0).
  { assert (x = x / 2 ^ b * 2 ^ b) as -> by (pose proof (Z.div_mod x (2 ^ b)); lia).
    replace b with (2 + (b - 2)) at 2 by lia. rewrite Z.pow_add_r by lia. change (2 ^ 2) with 4.
    replace (x / 2 ^ b * (4 * 2 ^ (b - 2))) with (x / 2 ^ b * 2 ^ (b - 2) * 4) by ring. apply Z.mod_mul. lia. }
  assert (Hfree : forall b' y, y ∈ L b' -> load32 s' y = load32 (hp_machine h) y).
  { intros b' y Hy. destruct (ho_free _ _ _ _ _ _ _ _ Hok b' y Hy) as [Huy Hmy].
    destruct (ho_page _ _ _ _ _ _ _ _ Hok _ _ Huy) as [Hky Hpy].
    apply Hoth; [unfold kheappage, is_u32 in *; lia_mod|by apply kheap_area|done|]. intros He.
    assert (y / 4096 = x / 4096) as Hpg by lia_mod. rewrite Hpg, Hu in Huy. injection Huy as <-.
    apply Hni. enough (y = x) as <- by done.
    assert (y mod 4 = 0); [|lia_mod].
    assert (y = y / 2 ^ b * 2 ^ b) as -> by (pose proof (Z.div_mod y (2 ^ b)); lia).
    replace b with (2 + (b - 2)) at 2 by lia. rewrite Z.pow_add_r by lia. change (2 ^ 2) with 4.
    replace (y / 2 ^ b * (4 * 2 ^ (b - 2))) with (y / 2 ^ b * 2 ^ (b - 2) * 4) by ring. apply Z.mod_mul. lia. }
  eexists _, (<[b := x :: L b]> L). split; [reflexivity|]. split.
  - eapply heap_ok_bucket; try done; [lia|by intros; eapply Hfree| | | |].
    + simpl. split; [done|]. exists (b_mem k). split; [done|]. eapply chain_ext; [|exact Hch]. intros y Hy. by eapply Hfree.
    + apply NoDup_cons. split; [done|apply (ho_nodup _ _ _ _ _ _ _ _ Hok)].
    + intros y [->|Hy]%elem_of_cons; [done|by apply (ho_free _ _ _ _ _ _ _ _ Hok)].
    + intros y m Hy [->|Hyl]%elem_of_cons.
      * apply Hnx. apply list_elem_of_fmap. by exists (x, m).
      * eapply (live_not_free _ _ _ _ _ _ _ _ Hok Hyl). apply list_elem_of_fmap. by exists (y, m).
  - intros y m a Hy Ha. destruct (live_byte _ _ _ _ _ _ _ _ a Hok Hy Ha) as (u & Hua & H32 & _).
    destruct (ho_page _ _ _ _ _ _ _ _ Hok _ _ Hua) as [Hka Hpa].
    apply (Hoth a H32); [by apply kheap_area|done|by eapply Hfar].
Qed.

(** The pages of a block go out of use. *)
Lemma heap_ok_unuse h fs lo use L live x n :
  heap_ok h fs lu lo lk use L live -> x ∉ live.*1 ->
  (forall q, x / 4096 <= q < x / 4096 + n -> use q = Some (Block x)) ->
  heap_ok h fs lu lo lk (set_use use (x / 4096) n None) L live.
Proof.
  intros [Hm Hb Hp Hc Hf Hn Hl Hd Hs] Hnx Hu.
  assert (Hin : forall q u, set_use use (x / 4096) n None q = Some u -> use q = Some u).
  { intros q u. unfold set_use. by case_decide. }
  assert (Hout : forall q u, use q = Some u -> u <> Block x -> set_use use (x / 4096) n None q = Some u).
  { intros q u Hq Hne. unfold set_use. rewrite decide_False; [done|]. intros Hr. rewrite (Hu q Hr) in Hq. congruence. }
  constructor; try done.
  - intros p u Hpu%Hin. by apply (Hp p u).
  - intros p b Hpb%Hin. by apply Hc.
  - intros b y Hy. destruct (Hf b y Hy) as [? ?]. split; [by apply Hout|done].
  - intros y m Hy. pose proof (Hl y m Hy) as Ho. unfold live_ok in *. destruct (m <=? 2048).
    + destruct Ho as (b & Hub & ?). exists b. split; [by apply Hout|done].
    + destruct Ho as (H1 & H2 & H3 & Huy & Hsz). split_and!; try done.
      intros q Hr. apply Hout; [by apply Huy|]. intros [= ->]. apply Hnx, list_elem_of_fmap. by exists (x, m).
Qed.

(** Freeing a block of pages. *)
Lemma kfree_large h fs lo use L live x n :
  heap_ok h fs lu lo lk use L live -> x ∉ live.*1 -> 2048 < n < 2 ^ 31 ->
  live_ok (hp_machine h) (hp_size h) use L x n ->
  exists h' fs' lo' use', kfree h x = Ret h' /\ heap_ok h' fs' lu lo' lk use' L live /\ contents live h h'.
Proof.
  intros Hok Hnx Hn Hl. unfold live_ok in Hl. rewrite (proj2 (Z.leb_gt n 2048)) in Hl by lia.
  destruct Hl as (Hm0 & H0 & Hend & Hu & Hsz). pose proof (size_pages n ltac:(lia)) as Hpg.
  assert (Hx : x = PTOB (x / 4096)) by (rewrite PTOB_mul by lia_mod; lia_mod).
  assert (Hpage : forall q, x / 4096 <= q < x / 4096 + PAGES n -> kheappage q /\ present (view (hp_machine h) q) = true).
  { intros q Hr. exact (ho_page _ _ _ _ _ _ _ _ Hok q _ (Hu q Hr)). }
  destruct (Hpage (x / 4096) ltac:(lia)) as [Hkp Hpr]. pose proof (kheap_area _ Hkp) as Har.
  pose proof (ho_mem _ _ _ _ _ _ _ _ Hok) as Hm. pose proof (mo_own _ _ _ _ _ Hm) as How.
  assert (Hxu : is_u32 x) by (unfold kheappage, is_u32 in *; lia_mod).
  destruct (ow_frame _ _ _ How _ Har Hpr) as (Hr & _).
  unfold kfree. rewrite (proj2 (Z.eqb_neq x 0)) by lia.
  destruct (virt2phys_frame _ fs x (mo_vm _ _ _ _ _ Hm) Hxu (ow_u32 _ _ _ How _ Har) Hpr) as (ph & Hph & Hbp).
  change (mach (hp_mem h)) with (hp_machine h) in *. rewrite Hph. cbn [obind]. rewrite Hbp.
  destruct (lookup_lt_is_Some_2 (pfdb (frames (hp_machine h))) (Z.to_nat (BTOP (view (hp_machine h) (x / 4096)))))
    as [fr ->]; [lia|]. cbn [deref obind].
  rewrite Hsz, (proj2 (Z.leb_le _ _)) by (unfold PAGESHIFT; lia).
  replace (s32 (PAGES n + PAGESHIFT - PAGESHIFT)) with (PAGES n) by (rewrite s32_small; unfold is_s32; lia).
  destruct (free_pages_spec (hp_mem h) fs lu lo lk (x / 4096) (PAGES n) Hm) as (m & lo' & s' & fs' & Hfr & Hm' & Hrp & _);
    [unfold kheappage in Hkp; lia|lia|done| |].
  { intros q Hq. destruct (Hpage q Hq) as [Hkq Hpq]. split; [done|]. split; [|done]. intros Hc.
    pose proof (rg_absent _ _ _ _ (mo_osvmap _ _ _ _ _ Hm) q Hc). unfold hp_machine in Hpq. congruence. }
  rewrite Hx, Hfr. cbn [obind]. pose proof (heap_ok_unuse h fs lo use L live x (PAGES n) Hok Hnx Hu) as Hok1.
  assert (Hk : keeps (set_use use (x / 4096) (PAGES n) None) h (with_hmem h (set_mach (set_osvmap (hp_mem h) m) s'))).
  { intros a u Ha Hua. destruct (ho_page _ _ _ _ _ _ _ _ Hok1 _ u Hua) as [Hka Hpa].
    eapply load_freed; [exact How|exact Hrp|done|by apply kheap_area|done|]. unfold set_use in Hua. by case_decide. }
  eexists _, fs', lo', _. split; [reflexivity|]. split; [|by eapply keeps_contents].
  eapply heap_ok_frame; [exact Hok1|done| |exact Hk]. intros q u Huq.
  destruct (ho_page _ _ _ _ _ _ _ _ Hok1 _ u Huq) as [Hkq _]. simpl.
  rewrite (rp_view _ _ _ _ _ _ _ Hrp) by by apply kheappage_plain.
  rewrite decide_False; [done|]. intros [Hrq _]. unfold set_use in Huq. by rewrite decide_True in Huq.
Qed.

(** Two live chunks share no word. *)
Lemma live_word h fs lo use L l1 x n l2 y m a :
  heap_ok h fs lu lo lk use L (l1 ++ (x, n) :: l2) -> n <= 2048 ->
  (y, m) ∈ l1 ++ l2 -> y <= a < y + m -> a / 4 <> x / 4.
Proof.
  intros Hok Hn Hy Ha He.
  assert (Hx : (x, n) ∈ l1 ++ (x, n) :: l2) by set_solver.
  assert (Hy' : (y, m) ∈ l1 ++ (x, n) :: l2) by set_solver.
  destruct (heap_ok_drop _ _ _ _ _ _ _ _ _ Hok) as [_ Hnx].
  assert (Hxy : x <> y) by (intros <-; apply Hnx, list_elem_of_fmap; by exists (x, m)).
  assert (Hch : forall b p, use p = Some (Chunks b) -> 4 <= b < 12) by (intros b p Hp; by apply (ho_chunks _ _ _ _ _ _ _ _ Hok p)).
  pose proof (ho_live _ _ _ _ _ _ _ _ Hok x n Hx) as Hl. unfold live_ok in Hl.
  rewrite (proj2 (Z.leb_le n 2048)) in Hl by done. destruct Hl as (b & Hu & Hmx & _ & _ & H0).
  destruct (live_page _ _ _ _ _ _ a (ho_live _ _ _ _ _ _ _ _ Hok y m Hy') (ho_sizes _ _ _ _ _ _ _ _ Hok y m Hy') Ha Hch)
    as (u & Hua & Hc & _).
  replace (a / 4096) with (x / 4096) in Hua by lia_mod. rewrite Hu in Hua. injection Hua as <-.
  destruct (Hc b eq_refl) as (_ & _ & Hmy & Hmb). pose proof (Hch b _ Hu).
  assert (Hp : 2 ^ b = 4 * 2 ^ (b - 2)) by (change 4 with (2 ^ 2); rewrite <- Z.pow_add_r by lia; f_equal; lia).
  pose proof (Z.div_mod x (2 ^ b) ltac:(lia)). pose proof (Z.div_mod y (2 ^ b) ltac:(lia)).
  set (k := 2 ^ (b - 2)) in *. assert (0 < k) by (unfold k; lia).
  assert (x / 2 ^ b <> y / 2 ^ b) by (intros Heq; apply Hxy; rewrite Heq in *; lia).
  assert (x / 4 = x / 2 ^ b * k) by (symmetry; apply Z.div_unique with 0; [lia|]; rewrite Hp in *; lia).
  pose proof (Z.div_mod a 4 ltac:(lia)). pose proof (Z.mod_pos_bound a 4 ltac:(lia)).
  rewrite Hp in *. destruct (Z.lt_trichotomy (x / (4 * k)) (y / (4 * k))) as [Hlt|[?|Hlt]]; [nia|done|nia].
Qed.

Lemma kfree_spec h fs lo use L l1 x n l2 :
  heap_ok h fs lu lo lk use L (l1 ++ (x, n) :: l2) ->
  exists h' fs' lo' use' L', kfree h x = Ret h' /\ heap_ok h' fs' lu lo' lk use' L' (l1 ++ l2)
    /\ contents (l1 ++ l2) h h'.
Proof.
  intros Hok. destruct (heap_ok_drop _ _ _ _ _ _ _ _ _ Hok) as [Hok' Hnx].
  assert (Hx : (x, n) ∈ l1 ++ (x, n) :: l2) by set_solver.
  pose proof (ho_live _ _ _ _ _ _ _ _ Hok x n Hx) as Hl. pose proof (ho_sizes _ _ _ _ _ _ _ _ Hok x n Hx) as Hs.
  destruct (Z.leb_spec n 2048) as [Hn|Hn].
  - destruct (kfree_small h fs lo use L (l1 ++ l2) x n Hok' Hnx ltac:(lia) Hl) as (h' & L' & ? & ? & ?).
    { intros y m a Hy Ha. by eapply live_word. }
    by exists h', fs, lo, use, L'.
  - destruct (kfree_large h fs lo use L (l1 ++ l2) x n Hok' Hnx ltac:(lia) Hl) as (h' & fs' & lo' & use' & ? & ? & ?).
    by exists h', fs', lo', use', L.
Qed.

Lemma live_aligned h fs lo use L live x n : heap_ok h fs lu lo lk use L live -> (x, n) ∈ live -> x mod 16 = 0.
Proof.
  intros Hok Hx. pose proof (ho_live _ _ _ _ _ _ _ _ Hok x n Hx) as Hl. unfold live_ok in Hl.
  destruct (n <=? 2048).
  - destruct Hl as (b & Hu & Hm & _). destruct (ho_chunks _ _ _ _ _ _ _ _ Hok _ _ Hu) as [Hb _].
    assert (Hp : 2 ^ b = 2 ^ (b - 4) * 16) by (change 16 with (2 ^ 4); rewrite <- Z.pow_add_r by lia; f_equal; lia).
    apply Z.mod_divide in Hm as [c ->]; [|lia]. rewrite Hp, Z.mul_assoc. apply Z.mod_mul. lia.
  - destruct Hl as (Hm & _). lia_mod.
Qed.

(** A client writes a word of a block of its own. *)
Lemma client_write h fs lo use L live x n a v :
  heap_ok h fs lu lo lk use L live -> (x, n) ∈ live -> x <= a -> a + 4 <= x + n -> a mod 4 = 0 ->
  exists s', store32 (hp_machine h) a v = Ret s' /\ heap_ok (with_hmachine h s') fs lu lo lk use L live
    /\ load32 s' a = Ret v.
Proof.
  intros Hok Hx Ha1 Ha2 Ha4. pose proof (ho_mem _ _ _ _ _ _ _ _ Hok) as Hm.
  assert (Hch : forall b p, use p = Some (Chunks b) -> 4 <= b < 12) by (intros b p Hp; by apply (ho_chunks _ _ _ _ _ _ _ _ Hok p)).
  pose proof (ho_live _ _ _ _ _ _ _ _ Hok x n Hx) as Hl. pose proof (ho_sizes _ _ _ _ _ _ _ _ Hok x n Hx) as Hs.
  destruct (live_page _ _ _ _ _ _ a Hl Hs ltac:(lia) Hch) as (u & Hu & Hc & Hbl).
  destruct (ho_page _ _ _ _ _ _ _ _ Hok _ _ Hu) as [Hkp Hpr]. pose proof (kheap_area _ Hkp) as Har.
  assert (Hau : is_u32 a) by (unfold kheappage, is_u32 in *; lia_mod).
  destruct (store_spec (hp_mem h) fs lu lo lk a v Hm Hau Har Hpr) as (s' & Hst & Hm' & Hv & Hf & Hld & Hoth).
  exists s'. split; [done|]. split; [|done].
  assert (Hfree : forall b y, y ∈ L b -> load32 s' y = load32 (hp_machine h) y).
  { intros b y Hy. destruct (ho_free _ _ _ _ _ _ _ _ Hok b y Hy) as [Huy Hmy].
    destruct (ho_page _ _ _ _ _ _ _ _ Hok _ _ Huy) as [Hky Hpy].
    apply Hoth; [unfold kheappage, is_u32 in *; lia_mod|by apply kheap_area|done|]. intros He.
    replace (y / 4096) with (a / 4096) in Huy by lia_mod. rewrite Hu in Huy. injection Huy as ->.
    destruct (Hc b eq_refl) as (Hn & Hpx & Hmx & Hnb). unfold live_ok in Hl.
    rewrite (proj2 (Z.leb_le n 2048)) in Hl by done. destruct Hl as (b' & Hu' & _ & _ & Hni & _).
    rewrite <- Hpx, Hu in Hu'. injection Hu' as <-. apply Hni. replace x with y; [done|].
    pose proof (Hch b _ Hu). assert (0 < 2 ^ b) by lia.
    assert (y mod 4 = 0).
    { assert (Hp : 2 ^ b = 2 ^ (b - 2) * 4) by (change 4 with (2 ^ 2); rewrite <- Z.pow_add_r by lia; f_equal; lia).
      apply Z.mod_divide in Hmy as [c ->]; [|lia]. rewrite Hp, Z.mul_assoc. apply Z.mod_mul. lia. }
    assert (y = a) as -> by lia_mod.
    pose proof (Z.div_mod x (2 ^ b) ltac:(lia)). pose proof (Z.div_mod a (2 ^ b) ltac:(lia)).
    set (qa := a / 2 ^ b) in *. set (qx := x / 2 ^ b) in *. rewrite Hmx in *. rewrite Hmy in *.
    assert (qa = qx) by (destruct (Z.lt_trichotomy qa qx) as [?|[?|?]]; [nia|done|nia]). lia. }
  destruct Hok as [_ Hb Hp Hc' Hf' Hn Hl' Hd Hs'].
  assert (Hnp : forall q w, use q = Some w -> view s' q = view (hp_machine h) q).
  { intros q w Hw. apply Hv. by apply (area_plain q), kheap_area, (Hp q w). }
  constructor; try done; change (hp_machine (with_hmachine h s')) with s'.
  - intros b Hbr. destruct (Hb b Hbr) as (k & Hk & Hsz & Hchn). exists k. split; [done|]. split; [done|].
    eapply chain_ext; [|exact Hchn]. intros y Hy. by apply (Hfree b).
  - intros q w Hw. rewrite (Hnp q w Hw). by apply (Hp q w).
  - intros q b Hw. rewrite (Hnp q _ Hw). by apply Hc'.
  - intros y m Hy. specialize (Hl' y m Hy). unfold live_ok in *. destruct (m <=? 2048) eqn:Hm2; [done|].
    destruct Hl' as (H1 & H2 & H3 & Huy & Hsz). split_and!; try done. rewrite (Hnp _ (Block y)); [done|].
    apply Huy. pose proof (size_pages m (Hs' y m Hy)). lia.
Qed.

(** The clients of the heap: they allocate while the map of the heap has room, free blocks
    they hold and write words of them. *)
Inductive heap_step : heap * list (Z * Z) -> heap * list (Z * Z) -> Prop :=
| step_kmalloc h live size tag x h' :
    0 < size < 2 ^ 31 -> heap_room h (if 2048 <? size then PAGES size else 1) ->
    kmalloc_tag h size tag = Ret (x, h') -> heap_step (h, live) (h', (x, size) :: live)
| step_kfree h l1 x n l2 h' :
    kfree h x = Ret h' -> heap_step (h, l1 ++ (x, n) :: l2) (h', l1 ++ l2)
| step_write h live x n a v s' :
    (x, n) ∈ live -> x <= a -> a + 4 <= x + n -> a mod 4 = 0 ->
    store32 (hp_machine h) a v = Ret s' -> heap_step (h, live) (with_hmachine h s', live).

Definition heap_inv (c : heap * list (Z * Z)) : Prop :=
  exists fs lo use L, heap_ok c.1 fs lu lo lk use L c.2.

Lemma heap_step_inv c c' : heap_step c c' -> heap_inv c -> heap_inv c'.
Proof.
  intros [h live size tag x h' Hs Hroom Hk|h l1 x n l2 h' Hk|h live x n a v s' Hx Ha1 Ha2 Ha4 Hst];
    intros (fs & lo & use & L & Hok); simpl in *.
  - destruct (kmalloc_tag_spec h fs lo use L live size tag Hok Hs Hroom)
      as [[Hp _]|(y & h1 & fs1 & lo1 & use1 & L1 & Hk1 & Hok1 & _)]; [congruence|].
    rewrite Hk in Hk1. injection Hk1 as <- <-. by exists fs1, lo1, use1, L1.
  - destruct (kfree_spec h fs lo use L l1 x n l2 Hok) as (h1 & fs1 & lo1 & use1 & L1 & Hk1 & Hok1 & _).
    rewrite Hk in Hk1. injection Hk1 as <-. by exists fs1, lo1, use1, L1.
  - destruct (client_write h fs lo use L live x n a v Hok Hx Ha1 Ha2 Ha4) as (s1 & Hst1 & Hok1 & _).
    rewrite Hst in Hst1. injection Hst1 as <-. by exists fs, lo, use, L.
Qed.
End Heap.

(** ** The properties *)

(** C13: [kmalloc_tag] on every size but 0, and [kfree] of its result.  With room in the
    map of the heap it panics only for lack of page frames; else it returns the address of
    a block, aligned to 16 bytes, that overlaps no live block, and no word of a live block
    has changed.  Freeing the block succeeds, leaves the live blocks and their words as they
    were before the allocation, and the invariant of the heap holds throughout. *)
Theorem kmalloc_correct lu lk h fs lo use L live size tag :
  heap_ok h fs lu lo lk use L live -> 0 < size < 2 ^ 31 ->
  heap_room h (if 2048 <? size then PAGES size else 1) ->
  (kmalloc_tag h size tag = Panic /\ (length fs < 2 * Z.to_nat (PAGES size))%nat) \/
  exists x h1 fs1 lo1 use1 L1, kmalloc_tag h size tag = Ret (x, h1)
    /\ heap_ok h1 fs1 lu lo1 lk use1 L1 ((x, size) :: live)
    /\ x mod 16 = 0
    /\ (forall y m a, (y, m) ∈ live -> x <= a < x + size -> ~ (y <= a < y + m))
    /\ contents live h h1
    /\ exists h2 fs2 lo2 use2 L2, kfree h1 x = Ret h2
         /\ heap_ok h2 fs2 lu lo2 lk use2 L2 live /\ contents live h h2.
Proof.
  intros Hok Hs Hroom. destruct (kmalloc_tag_spec lu lk h fs lo use L live size tag Hok Hs Hroom)
    as [?|(x & h1 & fs1 & lo1 & use1 & L1 & Hk & Hok1 & Hkeep)]; [by left|right].
  destruct (kfree_spec lu lk h1 fs1 lo1 use1 L1 [] x size live Hok1) as (h2 & fs2 & lo2 & use2 & L2 & Hf & Hok2 & Hc2).
  pose proof (keeps_contents _ _ _ _ _ _ _ _ _ Hok Hkeep) as Hc1.
  assert (Hx : (x, size) ∈ (x, size) :: live) by set_solver.
  exists x, h1, fs1, lo1, use1, L1. split; [done|]. split; [done|].
  split; [by apply (live_aligned _ _ _ _ _ _ _ _ _ _ Hok1 Hx)|]. split; [|split; [done|]].
  - intros y m a Hy Ha Hb. pose proof (ho_distinct _ _ _ _ _ _ _ _ Hok1) as Hd. simpl in Hd.
    apply NoDup_cons in Hd as [Hd _]. apply Hd, list_elem_of_fmap. exists (y, m). split; [|done]. simpl.
    eapply (live_disjoint _ _ h1); [exact Hok1|exact Hx|by apply elem_of_cons; right|exact Ha|exact Hb].
  - exists h2, fs2, lo2, use2, L2. split; [done|]. split; [done|]. intros y m a Hy Ha.
    rewrite (Hc2 y m a Hy Ha). by apply (Hc1 y m a).
Qed.

(** C4: Clients that allocate, free and write words of their own blocks, in any order,
    never get overlapping blocks: whatever they write, each byte belongs to one live block at
    most and lies in a mapped page of the kernel heap; every live block can be freed, and
    every allocation that the map of the heap has room for returns a block or panics for
    lack of page frames. *)
Theorem heap_safety lu lk c h live :
  heap_inv lu lk c -> rtc heap_step c (h, live) ->
  (forall x n y m a, (x, n) ∈ live -> (y, m) ∈ live -> x <= a < x + n -> y <= a < y + m -> x = y)
  /\ NoDup live.*1
  /\ (forall x n a, (x, n) ∈ live -> x <= a < x + n ->
        kheappage (a / 4096) /\ present (view (hp_machine h) (a / 4096)) = true)
  /\ (forall x n, (x, n) ∈ live -> exists h', kfree h x = Ret h')
  /\ (forall size tag, 0 < size < 2 ^ 31 -> heap_room h (if 2048 <? size then PAGES size else 1) ->
        kmalloc_tag h size tag = Panic \/ exists x h', kmalloc_tag h size tag = Ret (x, h')).
Proof.
  intros Hinv Hsteps. assert (Hi : heap_inv lu lk (h, live)).
  { revert Hinv. induction Hsteps as [|c1 c2 c3 Hst _ IH]; [done|]. intros Hi. by eapply IH, heap_step_inv. }
  clear c Hinv Hsteps. destruct Hi as (fs & lo & use & L & Hok); simpl in Hok.
  split; [by intros; eapply live_disjoint|]. split; [apply (ho_distinct _ _ _ _ _ _ _ _ Hok)|]. split; [|split].
  - intros x n a Hx Ha. destruct (live_byte _ _ _ _ _ _ _ _ _ _ a Hok Hx Ha) as (u & Hu & _).
    by apply (ho_page _ _ _ _ _ _ _ _ Hok _ u).
  - intros x n Hx. apply list_elem_of_split in Hx as (l1 & l2 & ->).
    destruct (kfree_spec _ _ h fs lo use L l1 x n l2 Hok) as (h' & fs' & lo' & use' & L' & Hk & _). by exists h'.
  - intros size tag Hs Hroom. destruct (kmalloc_tag_spec _ _ h fs lo use L live size tag Hok Hs Hroom)
      as [[Hp _]|(x & h' & fs' & lo' & use' & L' & Hk & _)]; [by left|right; by exists x, h'].
Qed.

(** ** An example: the heap after [init_malloc] *)

Definition ex_heap : heap := init_malloc (Heap (ex_mem ex_lo) (replicate 12 (Bucket 0 0 0 0)) (fun _ => 0)).

Lemma init_malloc_ok st fs lu lo lk size : mem_ok st fs lu lo lk ->
  heap_ok (init_malloc (Heap st (replicate 12 (Bucket 0 0 0 0)) size)) fs lu lo lk
    (fun _ => None) (fun _ => []) [].
Proof.
  intros Hok. constructor; try done.
  - intros b Hb. exists (Bucket 0 0 0 (2 ^ b)). split; [|done]. unfold init_malloc. cbn [hp_buckets].
    rewrite list_lookup_imap, lookup_replicate_2 by lia. simpl.
    rewrite Z2Nat.id, Z.shiftl_mul_pow2 by lia. by rewrite Z.mul_1_l.
  - by intros b x ?%elem_of_nil.
  - intros b. by apply NoDup_nil.
  - by intros x n ?%elem_of_nil.
  - by apply NoDup_nil.
  - by intros x n ?%elem_of_nil.
Qed.

Lemma ex_heap_ok : heap_ok ex_heap ex_free ex_lu ex_lo ex_lk (fun _ => None) (fun _ => []) [].
Proof. apply init_malloc_ok, ex_lo_ok. Qed.

Lemma kmalloc_correct_witness : exists x h1, kmalloc_tag ex_heap 100 0 = Ret (x, h1) /\ x mod 16 = 0.
Proof.
  destruct (kmalloc_correct ex_lu ex_lk ex_heap ex_free ex_lo _ _ [] 100 0 ex_heap_ok)
    as [[_ Hlt]|(x & h1 & fs1 & lo1 & use1 & L1 & Hk & _ & Hx & _)].
  - lia.
  - intros Hr. vm_compute in Hr. discriminate Hr.
  - exfalso. vm_compute in Hlt. lia.
  - exists x, h1. split; [exact Hk|exact Hx].
Defined.

Lemma ex_heap_step : exists x h1, heap_step (ex_heap, []) (h1, [(x, 100)]).
Proof.
  destruct (kmalloc_tag_spec ex_lu ex_lk ex_heap ex_free ex_lo _ _ [] 100 0 ex_heap_ok)
    as [[_ Hlt]|(x & h1 & fs1 & lo1 & use1 & L1 & Hk & _)].
  - lia.
  - intros Hr. vm_compute in Hr. discriminate Hr.
  - exfalso. vm_compute in Hlt. lia.
  - exists x, h1. apply (step_kmalloc ex_heap [] 100 0 x h1); [lia| |exact Hk]. intros Hr. vm_compute in Hr. discriminate Hr.
Qed.

Lemma heap_safety_witness : exists x h1 h2, rtc heap_step (ex_heap, []) (h1, [(x, 100)]) /\ kfree h1 x = Ret h2.
Proof.
  destruct ex_heap_step as (x & h1 & Hs).
  assert (Hr : rtc heap_step (ex_heap, []) (h1, [(x, 100)])) by exact (rtc_once _ _ Hs).
  assert (Hi : heap_inv ex_lu ex_lk (ex_heap, [])).
  { exists ex_free, ex_lo, (fun _ => None), (fun _ => []). exact ex_heap_ok. }
  destruct (heap_safety ex_lu ex_lk _ h1 [(x, 100)] Hi Hr) as (_ & _ & _ & Hf & _).
  destruct (Hf x 100) as [h2 Hk]; [apply elem_of_cons; left; reflexivity|].
  exists x, h1, h2. split; [exact Hr|exact Hk].
Defined.
