(* ===== verification/Vmm.v ===== *)
(** * Vmm: user address space, src/src/sys/krnl/vmm.c

    [vmalloc], [vmfree], [vmprotect] and the functions for mapped files and device
    memory, over the page tables (Pdir.v), the page frames and the map [vmap] of free user
    pages (Kmem.v).  The code for mapped files calls the object manager and the virtual file
    system: these calls are the operations of [FileServices], on a state [W] of their own.
    Structures [filemap] are records under a number; [owner] is the member of the page
    frame that names the file map of a page. *)

From stdpp Require Import functions.
From S2P Require Import Prelude Rmap Pframe Pdir Kmem.
Local Open Scope krlean_scope.

Definition VMAP_ENTRIES : Z := 1024.
Definition VMEM_START : Z := 64 * 1024.

(** include/os.h *)
Definition PAGE_NOACCESS : Z := 0x01.
Definition PAGE_READONLY : Z := 0x02.
Definition PAGE_READWRITE : Z := 0x04.
Definition PAGE_EXECUTE : Z := 0x10.
Definition PAGE_EXECUTE_READ : Z := 0x20.
Definition PAGE_EXECUTE_READWRITE : Z := 0x40.
Definition PAGE_GUARD : Z := 0x100.
Definition MEM_COMMIT : Z := 0x1000.
Definition MEM_RESERVE : Z := 0x2000.
Definition MEM_DECOMMIT : Z := 0x4000.
Definition MEM_RELEASE : Z := 0x8000.
Definition MEM_ALIGN64K : Z := 0x10000000.

Definition TAG_VM : Z := tag4 0 0 0x56 0x4D.
Definition TAG_FMAP : Z := tag4 0x46 0x4D 0x41 0x50.
Definition TAG_STK : Z := tag4 0 0x53 0x54 0x4B.
Definition NOFLAGS : Z := 0xFFFFFFFF.

Definition valid_range (vm : list rent) (addr size : Z) : bool :=
  let pages := PAGES (u32 size) in
  if addr <? VMEM_START then false
  else if KERNELSPACE (u32 (addr + pages * PAGESIZE)) then false
  else rmap_status vm (BTOP addr) pages =? 1.

Definition pte_flags_from_protect (protect : Z) : Z :=
  let isp p := protect =? p in
  let guarded p := protect =? Z.lor p PAGE_GUARD in
  if isp PAGE_NOACCESS then 0
  else if isp PAGE_READONLY || isp PAGE_EXECUTE || isp PAGE_EXECUTE_READ then PT_USER
  else if isp PAGE_READWRITE || isp PAGE_EXECUTE_READWRITE then Z.lor PT_USER PT_WRITABLE
  else if guarded PAGE_READONLY || guarded PAGE_EXECUTE || guarded PAGE_EXECUTE_READ then PT_GUARD
  else if guarded PAGE_READWRITE || guarded PAGE_EXECUTE_READWRITE then Z.lor PT_GUARD PT_WRITABLE
  else NOFLAGS.

(** [init_vmm], with the array that [kmalloc] returns. *)
Definition init_vmm (st : mem) (array : list rent) : mem :=
  set_vmap st (rmap_free (rmap_init array VMAP_ENTRIES) (BTOP VMEM_START) (BTOP (OSBASE - VMEM_START))).1.

(** ** vmalloc *)

(** The loop over the pages that [vmalloc] commits; it returns the error, if any. *)
Fixpoint commit_loop (s : machine) (vaddr : Z) (n : nat) (tag flags : Z) : outcome (Z * machine) :=
  match n with
  | O => Ret (0, s)
  | S n =>
      mapped <~ page_mapped s vaddr;
      if mapped then
        s <~ set_page_flags s vaddr (Z.lor flags PT_PRESENT);
        commit_loop s (u32 (vaddr + PAGESIZE)) n tag flags
      else
        '(pfn, p) <~ alloc_pageframe (frames s) tag;
        let s := set_frames s p in
        if pfn =? NOFRAME then Ret (- ENOMEM, s)
        else
          s <~ map_page s vaddr pfn (Z.lor flags PT_PRESENT);
          s <~ clear_page s vaddr;
          commit_loop s (u32 (vaddr + PAGESIZE)) n tag flags
  end.

(** The reservation: the address, 0 when there is no room. *)
Definition reserve (st : mem) (addr pages : Z) (align64k : bool) : Z * mem :=
  if addr =? 0 then
    if align64k then
      let '(idx, m, _) := rmap_alloc_align (vmap st) pages (64 * 1024 / PAGESIZE) in
      (PTOB idx, set_vmap st m)
    else
      let '(idx, m) := rmap_alloc (vmap st) pages in (PTOB idx, set_vmap st m)
  else
    let '(rc, m, _) := rmap_reserve (vmap st) (BTOP addr) pages in
    (if truthy rc then 0 else addr, set_vmap st m).

(** The last part: commit the pages if [type] says so. *)
Definition commit_pages (st : mem) (addr pages type tag flags : Z) : outcome (Z * Z * mem) :=
  if truthy (Z.land type MEM_COMMIT) then
    '(rc, s) <~ commit_loop (mach st) addr (Z.to_nat pages) tag flags;
    if rc <? 0 then Ret (0, rc, set_mach st s) else Ret (addr, 0, set_mach st s)
  else Ret (addr, 0, st).

(** The address, the code stored through [rc], and the state. *)
Definition vmalloc (st : mem) (addr size type protect tag : Z) : outcome (Z * Z * mem) :=
  let pages := PAGES size in
  let flags := pte_flags_from_protect protect in
  if size =? 0 then Ret (0, - EINVAL, st)
  else if truthy (Z.land type MEM_COMMIT) && (flags =? NOFLAGS) then Ret (0, - EINVAL, st)
  else
    let addr := PAGEADDR addr in
    let type := if (addr =? 0) && truthy (Z.land type MEM_COMMIT) then Z.lor type MEM_RESERVE else type in
    let tag := if tag =? 0 then TAG_VM else tag in
    if truthy (Z.land type MEM_RESERVE) then
      let '(addr, st) := reserve st addr pages (truthy (Z.land type MEM_ALIGN64K)) in
      if addr =? 0 then Ret (0, - ENOMEM, st) else commit_pages st addr pages type tag flags
    else
      if negb (valid_range (vmap st) addr size) then Ret (0, - EFAULT, st)
      else commit_pages st addr pages type tag flags.

(** ** vmprotect *)

Fixpoint protect_loop (s : machine) (vaddr : Z) (n : nat) (flags : Z) : outcome machine :=
  match n with
  | O => Ret s
  | S n =>
      mapped <~ page_mapped s vaddr;
      s <~ (if mapped then
              old <~ get_page_flags s vaddr;
              set_page_flags s vaddr (Z.lor (Z.land old (u32 (Z.lnot PT_PROTECTMASK))) flags)
            else Ret s);
      protect_loop s (u32 (vaddr + PAGESIZE)) n flags
  end.

Definition vmprotect (st : mem) (addr size protect : Z) : outcome (Z * mem) :=
  let pages := PAGES size in
  if size =? 0 then Ret (0, st)
  else
    let addr := PAGEADDR addr in
    if negb (valid_range (vmap st) addr size) then Ret (- EINVAL, st)
    else
      let flags := pte_flags_from_protect protect in
      if flags =? NOFLAGS then Ret (- EINVAL, st)
      else s <~ protect_loop (mach st) addr (Z.to_nat pages) flags; Ret (0, set_mach st s).

(** ** Device memory *)

Definition miomap (st : mem) (physaddr size protect : Z) : outcome (Z * mem) :=
  let flags := pte_flags_from_protect protect in
  let pages := PAGES (u32 size) in
  let '(idx, m) := rmap_alloc (vmap st) pages in
  let addr := PTOB idx in
  let st := set_vmap st m in
  if addr =? 0 then Ret (0, st)
  else
    s <~ map_loop (mach st) addr 0 (Z.to_nat pages) (BTOP physaddr) (Z.lor flags PT_PRESENT);
    Ret (addr, set_mach st s).

Definition miounmap (st : mem) (addr size : Z) : outcome mem :=
  let pages := PAGES (u32 size) in
  s <~ unmap_loop (mach st) addr 0 (Z.to_nat pages);
  let '(m, _) := rmap_free (vmap st) (BTOP addr) pages in
  Ret (set_mach (set_vmap st m) s).

(** The thread information block: the bounds of the user stack. *)
Record tib := Tib { stackbase : Z; stacktop : Z; stacklimit : Z }.

Definition guard_page_handler (s : machine) (t : option tib) (addr : Z) : outcome (Z * machine * option tib) :=
  match t with
  | None => Ret (- EFAULT, s, t)
  | Some b =>
      if (addr <? stacklimit b) || (stacktop b <=? addr) then Ret (- EFAULT, s, t)
      else if stacklimit b <=? stackbase b then Ret (- EFAULT, s, t)
      else
        '(pfn, p) <~ alloc_pageframe (frames s) TAG_STK;
        let s := set_frames s p in
        if pfn =? NOFRAME then Ret (- ENOMEM, s, t)
        else
          let limit := u32 (stacklimit b - PAGESIZE) in
          let t := Some (Tib (stackbase b) (stacktop b) limit) in
          s <~ map_page s limit pfn (Z.lor (Z.lor PT_GUARD PT_WRITABLE) PT_PRESENT);
          s <~ clear_page s limit;
          Ret (0, s, t)
  end.

Record meminfo := Meminfo {
  physmem_total : Z; physmem_avail : Z; virtmem_total : Z; virtmem_avail : Z; pagesize : Z;
}.

Definition mem_sysinfo (st : mem) : meminfo :=
  let free := u32 (foldr Z.add 0 (r_size <$> take (rcount (vmap st)) (drop 1 (vmap st)))) in
  Meminfo (u32 (totalmem (frames (mach st)) * PAGESIZE)) (u32 (freemem (frames (mach st)) * PAGESIZE))
    (u32 (OSBASE - VMEM_START)) (u32 (free * PAGESIZE)) PAGESIZE.

(** ** Mapped files *)

Record filemap := Filemap {
  fm_self : Z; fm_file : Z;         (* handles *)
  fm_offset : Z; fm_pages : Z; fm_addr : Z; fm_size : Z; fm_protect : Z;
}.

(** What vmm.c asks of the object manager and of the file system.  A call that waits may
    come back after other threads have run. *)
Class FileServices (W : Type) := {
  hlookup : W -> Z -> option nat;                       (* the file map of a handle *)
  wait_filemap : W -> nat -> outcome (Z * W);           (* wait_for_object(fm, INFINITE) *)
  unlock_filemap : W -> nat -> outcome (Z * W);
  olock_filemap : W -> Z -> option nat * W;             (* olock(h, OBJECT_FILEMAP) *)
  orel_filemap : W -> nat -> W;
  olock_file : W -> Z -> option nat * W;                (* olock(h, OBJECT_FILE) *)
  orel_file : W -> nat -> W;
  pread : W -> machine -> nat -> Z -> Z -> Z -> outcome (Z * W * machine);
  pwrite : W -> machine -> nat -> Z -> Z -> Z -> outcome (Z * W);
  hprotect : W -> Z -> W;
  hunprotect : W -> Z -> W;
  hfree : W -> Z -> outcome (Z * W);
  new_filemap : W -> mem -> outcome (option nat * W * mem);  (* kmalloc and init_object *)
  halloc_filemap : W -> nat -> Z * W;
  halloc_file : W -> nat -> Z * W;
}.

Section Files.
Context `{FileServices W}.

Record vms := Vms {
  vm_mem : mem;
  vm_owner : Z -> Z;                (* pfdb[pfn].owner *)
  vm_fmaps : nat -> filemap;
  vm_world : W;
}.

Definition with_mem (x : vms) (st : mem) : vms := Vms st (vm_owner x) (vm_fmaps x) (vm_world x).
Definition with_machine (x : vms) (s : machine) : vms := with_mem x (set_mach (vm_mem x) s).
Definition with_world (x : vms) (w : W) : vms := Vms (vm_mem x) (vm_owner x) (vm_fmaps x) w.
Definition with_fmap (x : vms) (i : nat) (fm : filemap) : vms :=
  Vms (vm_mem x) (vm_owner x) (<[i := fm]> (vm_fmaps x)) (vm_world x).
Definition vm_machine (x : vms) : machine := mach (vm_mem x).

Definition dec_pages (x : vms) (i : nat) : vms :=
  let fm := vm_fmaps x i in
  with_fmap x i (Filemap (fm_self fm) (fm_file fm) (fm_offset fm) (s32 (fm_pages fm - 1))
    (fm_addr fm) (fm_size fm) (fm_protect fm)).

Definition free_filemap (x : vms) (i : nat) : outcome (Z * vms) :=
  let fm := vm_fmaps x i in
  '(rc, w) <~ hfree (hunprotect (vm_world x) (fm_file fm)) (fm_file fm);
  let x := with_world x w in
  if rc <? 0 then Ret (rc, x)
  else
    let '(m, _) := rmap_free (vmap (vm_mem x)) (BTOP (fm_addr fm)) (PAGES (fm_size fm)) in
    let x := with_mem x (set_vmap (vm_mem x) m) in
    '(rc, w) <~ hfree (hunprotect (vm_world x) (fm_self fm)) (fm_self fm);
    Ret (if rc <? 0 then rc else 0, with_world x w).

Definition fetch_file_page (x : vms) (i : nat) (addr : Z) : outcome (Z * vms) :=
  let fm := vm_fmaps x i in
  let '(filp, w) := olock_file (vm_world x) (fm_file fm) in
  let x := with_world x w in
  match filp with
  | None => Ret (- EBADF, x)
  | Some filp =>
      '(pfn, p) <~ alloc_pageframe (frames (vm_machine x)) TAG_FMAP;
      let x := with_machine x (set_frames (vm_machine x) p) in
      if pfn =? NOFRAME then Ret (- ENOMEM, with_world x (orel_file (vm_world x) filp))
      else
        s <~ map_page (vm_machine x) addr pfn (Z.lor PT_WRITABLE PT_PRESENT);
        let pos := u32 (addr - fm_addr fm) in
        '(rc, w, s) <~ pread (vm_world x) s filp addr PAGESIZE (fm_offset fm + pos);
        let x := with_world (with_machine x s) w in
        if rc <? 0 then
          let x := with_world x (orel_file (vm_world x) filp) in
          s <~ unmap_page (vm_machine x) addr;
          p <~ free_pageframe (frames s) (Z.to_nat pfn);
          Ret (rc, with_machine x (set_frames s p))
        else
          let x := Vms (vm_mem x) (<[pfn := fm_self fm]> (vm_owner x)) (vm_fmaps x) (vm_world x) in
          s <~ map_page (vm_machine x) addr pfn (Z.lor (fm_protect fm) PT_PRESENT);
          let x := with_machine x s in
          Ret (0, with_world x (orel_file (vm_world x) filp))
  end.

Definition save_file_page (x : vms) (i : nat) (addr : Z) : outcome (Z * vms) :=
  let fm := vm_fmaps x i in
  let '(filp, w) := olock_file (vm_world x) (fm_file fm) in
  let x := with_world x w in
  match filp with
  | None => Ret (- EBADF, x)
  | Some filp =>
      let pos := u32 (addr - fm_addr fm) in
      '(rc, w) <~ pwrite (vm_world x) (vm_machine x) filp addr PAGESIZE (fm_offset fm + pos);
      let x := with_world x w in
      if rc <? 0 then Ret (rc, with_world x (orel_file (vm_world x) filp))
      else
        s <~ clear_dirty (vm_machine x) addr;
        Ret (0, with_world (with_machine x s) (orel_file (vm_world x) filp))
  end.

Definition fetch_page (x : vms) (addr : Z) : outcome (Z * vms) :=
  h <~ virt2pfn (vm_machine x) addr;
  let '(fm, w) := olock_filemap (vm_world x) h in
  let x := with_world x w in
  match fm with
  | None => Ret (- EBADF, x)
  | Some fm =>
      '(rc, w) <~ wait_filemap (vm_world x) fm;
      let x := with_world x w in
      if rc <? 0 then Ret (rc, with_world x (orel_filemap (vm_world x) fm))
      else
        mapped <~ page_mapped (vm_machine x) addr;
        '(rc, x) <~ (if mapped then Ret (0, x) else fetch_file_page x fm addr);
        '(rc2, w) <~ unlock_filemap (vm_world x) fm;
        let x := with_world x w in
        if rc <? 0 then Ret (rc, with_world x (orel_filemap (vm_world x) fm))
        else if rc2 <? 0 then Ret (rc2, x)
        else Ret (0, with_world x (orel_filemap (vm_world x) fm))
  end.

Fixpoint vmmap_loop (s : machine) (vaddr : Z) (n : nat) (h flags : Z) : outcome machine :=
  match n with
  | O => Ret s
  | S n => s <~ map_page s vaddr h flags; vmmap_loop s (u32 (vaddr + PAGESIZE)) n h flags
  end.

Definition vmmap (x : vms) (addr size protect : Z) (filp : nat) (offset : Z) : outcome (Z * Z * vms) :=
  let pages := PAGES size in
  let flags := pte_flags_from_protect protect in
  if (size =? 0) || (flags =? NOFLAGS) then Ret (0, - EINVAL, x)
  else
    let '(addr, st) := reserve (vm_mem x) (PAGEADDR addr) pages false in
    let x := with_mem x st in
    if addr =? 0 then Ret (0, - ENOMEM, x)
    else
      '(fm, w, st) <~ new_filemap (vm_world x) (vm_mem x);
      let x := with_world (with_mem x st) w in
      match fm with
      | None =>
          let '(m, _) := rmap_free (vmap (vm_mem x)) (BTOP addr) pages in
          Ret (0, - ENOMEM, with_mem x (set_vmap (vm_mem x) m))
      | Some i =>
          let '(self, w) := halloc_filemap (vm_world x) i in
          let '(file, w) := halloc_file w filp in
          let x := with_world x w in
          if (self <? 0) || (file <? 0) then Ret (0, - ENFILE, x)
          else
            let x := with_world x (hprotect (hprotect (vm_world x) self) file) in
            let x := with_fmap x i (Filemap self file offset pages addr size (Z.lor flags PT_FILE)) in
            s <~ vmmap_loop (vm_machine x) addr (Z.to_nat pages) self
                   (Z.lor (Z.land flags (u32 (Z.lnot PT_USER))) PT_FILE);
            Ret (addr, 0, with_machine x s)
      end.

(** [if (newfm != fm)]: finish with the file map before, and lock the new one; an error is
    returned at once. *)
Definition switch_filemap (finish : vms -> nat -> outcome (Z * vms)) (x : vms) (fm newfm : option nat)
    : outcome (Z * option nat * vms) :=
  if bool_decide (newfm = fm) then Ret (0, fm, x)
  else
    '(rc, x) <~ match fm with Some i => finish x i | None => Ret (0, x) end;
    if rc <? 0 then Ret (rc, fm, x)
    else
      i <~ deref newfm;
      '(rc, w) <~ wait_filemap (vm_world x) i;
      Ret (if rc <? 0 then rc else 0, newfm, with_world x w).

Definition unlock_fm (x : vms) (i : nat) : outcome (Z * vms) :=
  '(rc, w) <~ unlock_filemap (vm_world x) i; Ret (rc, with_world x w).

Definition PT_SYNC : Z := Z.lor (Z.lor PT_FILE PT_PRESENT) PT_DIRTY.

Fixpoint vmsync_loop (x : vms) (vaddr : Z) (n : nat) (fm : option nat) : outcome (Z * option nat * vms) :=
  match n with
  | O => Ret (0, fm, x)
  | S n =>
      mapped <~ page_directory_mapped (vm_machine x) vaddr;
      '(rc, fm, x) <~
        (if mapped then
           flags <~ get_page_flags (vm_machine x) vaddr;
           if Z.land flags PT_SYNC =? PT_SYNC then
             ph <~ virt2phys (vm_machine x) vaddr;
             '(rc, fm, x) <~ switch_filemap unlock_fm x fm (hlookup (vm_world x) (vm_owner x (BTOP ph)));
             if rc <? 0 then Ret (rc, fm, x)
             else
               i <~ deref fm;
               '(rc, x) <~ save_file_page x i vaddr;
               Ret (rc, fm, x)
           else Ret (0, fm, x)
         else Ret (0, fm, x));
      if rc <? 0 then Ret (rc, fm, x) else vmsync_loop x (u32 (vaddr + PAGESIZE)) n fm
  end.

Definition vmsync (x : vms) (addr size : Z) : outcome (Z * vms) :=
  let pages := PAGES size in
  if size =? 0 then Ret (0, x)
  else
    let addr := PAGEADDR addr in
    if negb (valid_range (vmap (vm_mem x)) addr size) then Ret (- EINVAL, x)
    else
      '(rc, fm, x) <~ vmsync_loop x addr (Z.to_nat pages) None;
      if rc <? 0 then Ret (rc, x)
      else
        match fm with
        | Some i => '(rc, x) <~ unlock_fm x i; Ret (if rc <? 0 then rc else 0, x)
        | None => Ret (0, x)
        end.

(** The end of the use of a file map in [vmfree]: freed with its last page. *)
Definition finish_filemap (x : vms) (i : nat) : outcome (Z * vms) :=
  if fm_pages (vm_fmaps x i) =? 0 then free_filemap x i else unlock_fm x i.

(** [unmap_page(vaddr)], and the frame freed if the page was present. *)
Definition drop_page (s : machine) (vaddr pfn flags : Z) : outcome machine :=
  s <~ unmap_page s vaddr;
  if present flags then p <~ free_pageframe (frames s) (Z.to_nat pfn); Ret (set_frames s p) else Ret s.

Definition vmfree_page (x : vms) (vaddr : Z) (fm : option nat) : outcome (Z * option nat * vms) :=
  mapped <~ page_directory_mapped (vm_machine x) vaddr;
  if mapped then
    flags <~ get_page_flags (vm_machine x) vaddr;
    ph <~ virt2phys (vm_machine x) vaddr;
    let pfn := BTOP ph in
    if truthy (Z.land flags PT_FILE) then
      let h := if present flags then vm_owner x pfn else pfn in
      '(rc, fm, x) <~ switch_filemap finish_filemap x fm (hlookup (vm_world x) h);
      if rc <? 0 then Ret (rc, fm, x)
      else
        i <~ deref fm;
        let x := dec_pages x i in
        s <~ drop_page (vm_machine x) vaddr pfn flags;
        Ret (0, fm, with_machine x s)
    else if present flags then
      s <~ drop_page (vm_machine x) vaddr pfn flags; Ret (0, fm, with_machine x s)
    else Ret (0, fm, x)
  else Ret (0, fm, x).

Fixpoint vmfree_loop (x : vms) (vaddr : Z) (n : nat) (fm : option nat) : outcome (Z * option nat * vms) :=
  match n with
  | O => Ret (0, fm, x)
  | S n =>
      '(rc, fm, x) <~ vmfree_page x vaddr fm;
      if rc <? 0 then Ret (rc, fm, x) else vmfree_loop x (u32 (vaddr + PAGESIZE)) n fm
  end.

Definition vmfree (x : vms) (addr size type : Z) : outcome (Z * vms) :=
  let pages := PAGES size in
  if size =? 0 then Ret (0, x)
  else
    let addr := PAGEADDR addr in
    if negb (valid_range (vmap (vm_mem x)) addr size) then Ret (- EINVAL, x)
    else
      '(rc, fm, x) <~
        (if truthy (Z.land type (Z.lor MEM_DECOMMIT MEM_RELEASE))
         then vmfree_loop x addr (Z.to_nat pages) None else Ret (0, None, x));
      if rc <? 0 then Ret (rc, x)
      else
        match fm with
        | Some i => '(rc, x) <~ finish_filemap x i; Ret (if rc <? 0 then rc else 0, x)
        | None =>
            if truthy (Z.land type MEM_RELEASE) then
              let '(m, _) := rmap_free (vmap (vm_mem x)) (BTOP addr) pages in
              Ret (0, with_mem x (set_vmap (vm_mem x) m))
            else Ret (0, x)
        end.
End Files.
Arguments vms W : clear implicits.

(** ** Committing pages *)

Lemma flags_ok protect : pte_flags_from_protect protect <> NOFLAGS ->
  0 <= pte_flags_from_protect protect < 4096
  /\ Z.land (pte_flags_from_protect protect) PT_PROTECTMASK = pte_flags_from_protect protect.
Proof. unfold pte_flags_from_protect. intros H. repeat case_match; by vm_compute. Qed.

Definition fl_present (flags : Z) : Z := Z.lor flags PT_PRESENT.

Lemma fl_present_ok flags : 0 <= flags < 4096 ->
  present (fl_present flags) = true /\ 0 <= fl_present flags < 4096.
Proof.
  intros Hf. unfold fl_present, PT_PRESENT. split.
  - unfold present, PT_PRESENT. rewrite Z.land_lor_distr_l. unfold truthy.
    apply negb_true_iff, Z.eqb_neq. intros H%Z.lor_eq_0_iff. by destruct H as [_ H].
  - split; [apply Z.lor_nonneg; lia|]. change 4096 with (2 ^ 12).
    apply Z.bounded_iff_bits_nonneg; [lia|apply Z.lor_nonneg; lia|]. intros l Hl.
    rewrite Z.lor_spec, !testbit_small; [done|..]; pose proof (Z.pow_le_mono_r 2 12 l); lia.
Qed.

(** New flags for a page that is present. *)
Lemma reflag_spec s fs va tag flags clear (A : Z -> Prop) :
  vm_ok s fs -> owned s fs A -> is_u32 va -> (forall q, A q -> plain q) -> A (va / 4096) ->
  present (view s (va / 4096)) = true -> 0 <= flags < 4096 ->
  exists s', set_page_flags s va flags = Ret s' /\ fresh_pages s fs s' fs A (va / 4096) 1 tag flags clear
    /\ (forall g, ~ is_table s g -> phys s' g = phys s g) /\ (forall g, is_table s' g <-> is_table s g).
Proof.
  intros Hok How Hva HA Hp Hpr Hfl.
  destruct (set_page_flags_spec s fs va flags Hok Hva (HA _ Hp) (present_some _ _ Hpr)) as (s' & Hs & Hst & _).
  pose proof (ow_u32 _ _ _ How _ Hp) as Hu. set (v := view s (va / 4096)) in *.
  assert (Hsum : Z.lor (Z.land v PT_PFNMASK) flags = v / 4096 * 4096 + flags).
  { rewrite land_PFNMASK by done. by apply (lor_low (v / 4096) flags 12). }
  assert (Htb : forall g, is_table s' g <-> is_table s g).
  { intros g. split; [by intros [?|[? ?]]%(vs_tables _ _ _ _ _ Hst)|apply Hst]. }
  assert (Hda : forall g, ~ is_table s g -> phys s' g = phys s g).
  { intros g Hg. apply (vs_data _ _ _ _ _ Hst). by rewrite Htb. }
  exists s'. split; [done|]. split; [|by split]. constructor.
  - apply Hst.
  - eapply owned_set; [done|done|exact Hst| |]; rewrite Hsum.
    + unfold is_u32 in *. lia_mod.
    + intros _. assert (BTOP (v / 4096 * 4096 + flags) = BTOP v) as ->.
      { rewrite !BTOP_div. lia_mod. }
      split; [by apply (ow_frame _ _ _ How)|]. intros q Hq Hne Hpq Heq. by apply Hne, (ow_inj _ _ _ How).
  - exists []. split; [done|simpl; lia].
  - intros q Hq Hne. rewrite (vs_view _ _ _ _ _ Hst) by done. unfold set_view. by rewrite decide_False by lia.
  - intros q Hq. replace q with (va / 4096) by lia. fold v. rewrite Hpr.
    rewrite (vs_view _ _ _ _ _ Hst) by auto. unfold set_view. by rewrite decide_True.
  - intros f Hf. left. by apply Htb.
  - apply Hst.
  - intros g _ _. apply Hda.
  - apply Hst.
Qed.

(** [map_fresh] is the other branch of the loop. *)
Lemma commit_step s vaddr n tag flags mapped : page_mapped s vaddr = Ret mapped ->
  (forall f p, alloc_pageframe (frames s) tag = Ret (f, p) -> f <> NOFRAME) ->
  commit_loop s vaddr (S n) tag flags =
    (s <~ (if mapped then set_page_flags s vaddr (fl_present flags)
           else map_fresh s vaddr tag (fl_present flags) true);
     commit_loop s (u32 (vaddr + PAGESIZE)) n tag flags).
Proof.
  intros Hm Hno. simpl. rewrite Hm. unfold fl_present. destruct mapped; cbn [obind]; [done|].
  unfold map_fresh. destruct (alloc_pageframe (frames s) tag) as [[f p]| | |] eqn:Ha; cbn [obind]; try done.
  rewrite (proj2 (Z.eqb_neq _ _)) by (by eapply Hno).
  destruct (map_page (set_frames s p) vaddr f (Z.lor flags PT_PRESENT)) as [s1| | |]; cbn [obind]; try done.
Qed.

Lemma alloc_not_noframe s fs tag f p : vm_ok s fs -> alloc_pageframe (frames s) tag = Ret (f, p) -> f <> NOFRAME.
Proof.
  intros Hok Ha. pose proof (alloc_frame_spec _ _ tag (vo_frames _ _ Hok)) as H.
  destruct fs as [|g fs]; [congruence|]. destruct H as (st' & Ha' & _ & _ & _ & _ & Hlt).
  rewrite Ha' in Ha. injection Ha as <- <-. pose proof (vo_max _ _ Hok) as Hm.
  rewrite (inv_max _ _ (vo_frames _ _ Hok)) in Hm. unfold NPAGES, NOFRAME in *. lia.
Qed.

Lemma commit_loop_spec n s fs p tag flags (A : Z -> Prop) :
  vm_ok s fs -> owned s fs A -> (forall q, A q -> plain q) ->
  (forall q, p <= q < p + Z.of_nat n -> A q) -> 0 <= p -> p + Z.of_nat n < NPAGES ->
  0 <= flags < 4096 ->
  (commit_loop s (p * 4096) n tag flags = Panic /\ (length fs < 2 * n)%nat) \/
  exists s' fs', commit_loop s (p * 4096) n tag flags = Ret (0, s')
    /\ fresh_pages s fs s' fs' A p (Z.of_nat n) tag (fl_present flags) true.
Proof.
  revert s fs p. induction n as [|n IH]; intros s fs p Hok How HA Hq Hp Hpn Hfl.
  { right. exists s, fs. split; [done|]. by apply fresh_pages_nil. }
  destruct (page_base p ltac:(lia)) as (Hu & Hd & _). destruct (fl_present_ok flags Hfl) as [Hpr Hfr].
  pose proof (Hq p ltac:(lia)) as Ha.
  assert (Hcs := commit_step s (p * 4096) n tag flags (present (view s p))).
  rewrite (page_mapped_spec s (vo_dir _ _ Hok)), Hd in Hcs by done.
  specialize (Hcs eq_refl (fun f pf => alloc_not_noframe s fs tag f pf Hok)).
  set (step := if present (view s p) then _ else _) in Hcs.
  assert (Hstep : (step = Panic /\ (length fs < 2)%nat) \/ exists s1 fs1, step = Ret s1
    /\ fresh_pages s fs s1 fs1 A p 1 tag (fl_present flags) true).
  { unfold step. destruct (present (view s p)) eqn:Hvp.
    - right. destruct (reflag_spec s fs (p * 4096) tag (fl_present flags) true A) as (s1 & Hs & Hf & _);
        rewrite ?Hd; try done. rewrite Hd in Hf. by exists s1, fs.
    - destruct (map_fresh_spec s fs (p * 4096) tag (fl_present flags) true A) as [?|(s1 & fs1 & Hs & Hf)];
        rewrite ?Hd; try done; [by left|]. right. rewrite Hd in Hf. by exists s1, fs1. }
  destruct Hstep as [[Hs Hlt]|(s1 & fs1 & Hs & H1)]; rewrite Hs in Hcs; rewrite Hcs; cbn [obind].
  { left. split; [done|lia]. }
  rewrite page_succ by lia. destruct (fp_suffix _ _ _ _ _ _ _ _ _ _ H1) as (t & E & L).
  destruct (IH s1 fs1 (p + 1) (fp_ok _ _ _ _ _ _ _ _ _ _ H1) (fp_own _ _ _ _ _ _ _ _ _ _ H1) HA)
    as [[Hl Hlt]|(s2 & fs2 & Hl & H2)]; [intros q Hr; apply Hq; lia|lia|lia|done| |].
  { left. split; [done|]. rewrite E, length_app. lia. }
  right. exists s2, fs2. split; [done|]. replace (Z.of_nat (S n)) with (1 + Z.of_nat n) by lia.
  eapply fresh_pages_app; [lia|lia|exact H1|exact H2|]. intros q Hr. apply HA, Hq. lia.
Qed.

(** ** Reserving a range *)

Definition all_free (l : list rent) (p n : Z) : Prop := forall x, in_range p n x -> covers l x.

(** Is there room for [n] pages, at page [a] if that is not 0? *)
Definition can_reserve (l : list rent) (a n : Z) (align64k : bool) : Prop :=
  if a =? 0 then exists p, (if align64k then p mod 16 = 0 else True) /\ all_free l p n
  else all_free l a n.

Lemma no_fit l n : wf l -> 0 < n -> Forall (fun e => r_size e < n) l -> forall p, ~ all_free l p n.
Proof.
  intros Hw Hn Hall p Hf. destruct (Hf p) as (e & He & Hr); [unfold in_range; lia|].
  apply list_elem_of_split in He as (a & b & ->).
  pose proof (covered_in_one (a ++ e :: b) p n a e b Hw eq_refl) as Hone. unfold rend, in_range in *.
  specialize (Hone ltac:(lia) Hf). apply Forall_app in Hall as [_ [He _]%Forall_cons]. lia.
Qed.

Lemma reserve_spec st lu a n al :
  region (mach st) upage (vmap st) lu -> 0 <= a < NPAGES -> 0 < n <= NPAGES ->
  exists p m lu', reserve st (a * 4096) n al = (PTOB p, set_vmap st m)
    /\ region (mach st) upage m lu'
    /\ ((p = 0 /\ lu' = lu /\ ~ can_reserve lu a n al)
        \/ (0 < p /\ can_reserve lu a n al /\ (a <> 0 -> p = a) /\ (a = 0 -> al = true -> p mod 16 = 0)
            /\ (forall q, in_range p n q -> upage q /\ present (view (mach st) q) = false
                  /\ covers lu q /\ ~ covers lu' q)
            /\ (forall x, covers lu' x -> covers lu x))).
Proof.
  intros Hreg Ha Hn. pose proof (rg_rep _ _ _ _ Hreg) as Hrep. pose proof (rg_wf _ _ _ _ Hreg) as Hwf.
  assert (Hrange : forall p lu', all_free lu p n -> (forall x, covers lu' x -> covers lu x /\ ~ in_range p n x) ->
    forall q, in_range p n q -> upage q /\ present (view (mach st) q) = false /\ covers lu q /\ ~ covers lu' q).
  { intros p lu' Hf Hc q Hq. split_and!; [by apply (rg_area _ _ _ _ Hreg), Hf|by apply (rg_absent _ _ _ _ Hreg), Hf|by apply Hf|].
    intros Hq'. by destruct (Hc q Hq'). }
  assert (Hmul : a * 4096 = PTOB a) by (by rewrite PTOB_mul).
  unfold reserve, can_reserve. destruct (Z.eqb_spec a 0) as [->|Hne].
  - rewrite Z.mul_0_l, Z.eqb_refl. destruct al.
    + pose proof (rmap_alloc_align_spec (vmap st) lu n 16 Hrep Hwf ltac:(lia) ltac:(lia)
        ltac:(unfold NPAGES in *; lia)) as H.
      change (64 * 1024 / PAGESIZE) with 16. destruct (rmap_alloc_align _ _ _) as [[p m] lost].
      destruct H as (lu' & Hr' & Hw' & _ & [(-> & -> & _ & Hno)|(Hp & Hmod & Hf & Hl & _ & Hc)]).
      * exists 0, (vmap st), lu. split; [done|]. split; [done|]. left. split_and!; [done..|].
        intros (p & Hp & Hall). by apply (Hno p).
      * assert (Hc' : forall x, covers lu' x -> covers lu x /\ ~ in_range p n x).
        { intros x Hx%Hc. unfold in_range in *. split; [apply Hx|lia]. }
        exists p, m, lu'. split; [done|]. split; [eapply region_shrink; [done..|apply Hc']|]. right.
        destruct (covered_range _ _ _ _ p n Hreg (fun q H => or_introl H)) as (Hp0 & _); [lia|done|].
        split_and!; [lia|by exists p|done|done|by apply Hrange|apply Hc'].
    + destruct (rmap_alloc (vmap st) n) as [p m] eqn:Hal.
      destruct (rmap_alloc_spec _ lu n p m Hrep Hwf ltac:(unfold NPAGES in *; lia) Hal)
        as (lu' & Hr' & Hw' & _ & [(-> & -> & Hno)|(Hp & Hf & Hc & _)]).
      * exists 0, m, lu. split; [done|]. split; [by eapply region_shrink|]. left. split_and!; [done..|].
        intros (p & _ & Hall). by apply (no_fit lu n Hwf ltac:(lia) Hno p).
      * exists p, m, lu'. split; [done|]. split; [eapply region_shrink; [done..|apply Hc]|]. right.
        destruct (covered_range _ _ _ _ p n Hreg (fun q H => or_introl H)) as (Hp0 & _); [lia|done|].
        split_and!; [lia|by exists p|done|done|by apply Hrange, Hc|apply Hc].
  - rewrite (proj2 (Z.eqb_neq (a * 4096) 0)) by lia.
    pose proof (rmap_reserve_spec (vmap st) lu a n Hrep Hwf ltac:(lia) ltac:(unfold NPAGES in *; lia)) as H.
    rewrite Hmul. assert (BTOP (PTOB a) = a) as -> by (rewrite PTOB_mul, BTOP_div by done; lia_mod).
    destruct (rmap_reserve _ _ _) as [[rc m] lost].
    destruct H as (lu' & Hr' & Hw' & _ & [(-> & _ & -> & Hno)|(-> & Hf & Hl & _ & Hc)]).
    + exists 0, (vmap st), lu. split; [done|]. split; [done|]. left. split_and!; done.
    + assert (Hc' : forall x, covers lu' x -> covers lu x /\ ~ in_range a n x).
      { intros x Hx%Hc. unfold in_range in *. split; [apply Hx|lia]. }
      exists a, m, lu'. split; [done|]. split; [eapply region_shrink; [done..|apply Hc']|]. right.
      split_and!; [lia|done|done|done|by apply Hrange|apply Hc'].
Qed.

(** [valid_range] for a range that ends below 4 GB. *)
Lemma valid_range_spec s lu m a size :
  region s upage m lu -> 0 <= a < NPAGES -> 0 < size <= 0xFFFFF000 -> a + PAGES size < NPAGES ->
  valid_range m (a * 4096) size = true <->
  16 <= a /\ a + PAGES size < 0x80000 /\ forall q, in_range a (PAGES size) q -> ~ covers lu q.
Proof.
  intros Hreg Ha Hs Hn. unfold valid_range, NPAGES in *.
  rewrite (u32_small size) by (unfold is_u32; lia). set (n := PAGES size) in *.
  assert (Hn0 : 0 < n <= 0xFFFFF).
  { unfold n, PAGES, PAGESIZE. rewrite u32_small by (unfold is_u32; lia).
    rewrite Z.shiftr_div_pow2 by lia. change (2 ^ 12) with 4096. lia_mod. }
  unfold VMEM_START, KERNELSPACE, OSBASE, PAGESIZE. rewrite u32_small by (unfold is_u32; lia).
  destruct (Z.ltb_spec (a * 4096) (64 * 1024)); [split; [done|lia]|].
  destruct (Z.leb_spec 0x80000000 (a * 4096 + n * 4096)); [split; [done|lia]|].
  rewrite BTOP_div, Z.div_mul by lia.
  pose proof (rmap_status_spec m lu a n (rg_rep _ _ _ _ Hreg) (rg_wf _ _ _ _ Hreg)
    ltac:(lia) ltac:(lia) ltac:(lia)) as [[-> Hc]|[[-> Hc]|(-> & (x & Hx & Hc) & _)]].
  - split; [done|]. intros (_ & _ & Hno). exfalso. apply (Hno a); [unfold in_range; lia|].
    apply Hc. unfold in_range. lia.
  - split; [|done]. intros _. split_and!; [lia|lia|done].
  - split; [done|]. intros (_ & _ & Hno). exfalso. by apply (Hno x).
Qed.

(** ** Committing and the result of [vmalloc] *)

(** What [vmalloc] has done to the pages of a range when it succeeds. *)
Definition committed (st st' : mem) (fs fs' : list nat) (p n flags tag : Z) : Prop :=
  forall q, in_range p n q ->
    if present (view (mach st) q) then view (mach st') q = Z.lor (Z.land (view (mach st) q) PT_PFNMASK) (fl_present flags)
    else exists f, f ∈ fs /\ (f ∉ fs') /\ view (mach st') q = Z.of_nat f * 4096 + fl_present flags
      /\ has_tag (frames (mach st')) tag f /\ forall i, phys (mach st') (Z.of_nat f) i = 0.

Lemma commit_pages_spec st fs lu lo lk p n type tag flags :
  mem_ok st fs lu lo lk -> 0 <= p -> 0 <= n -> p + n < NPAGES ->
  (forall q, in_range p n q -> upage q /\ ~ covers lu q) ->
  (truthy (Z.land type MEM_COMMIT) = true -> 0 <= flags < 4096) ->
  (commit_pages st (p * 4096) n type tag flags = Panic /\ (length fs < 2 * Z.to_nat n)%nat) \/
  exists s' fs', commit_pages st (p * 4096) n type tag flags = Ret (p * 4096, 0, set_mach st s')
    /\ mem_ok (set_mach st s') fs' lu lo lk
    /\ (forall q, plain q -> ~ in_range p n q -> view s' q = view (mach st) q)
    /\ (forall g, 0 <= g -> Z.to_nat g ∉ fs -> ~ is_table (mach st) g -> phys s' g = phys (mach st) g)
    /\ (if truthy (Z.land type MEM_COMMIT) then committed st (set_mach st s') fs fs' p n flags tag
        else s' = mach st).
Proof.
  intros Hok Hp Hn Hpn Hq Hc. unfold commit_pages. destruct (truthy _).
  2:{ right. exists (mach st), fs. destruct st. split_and!; try done. }
  specialize (Hc eq_refl).
  destruct (commit_loop_spec (Z.to_nat n) (mach st) fs p tag flags area)
    as [[Hl Hlt]|(s' & fs' & Hl & Hf)];
    [apply Hok|apply Hok|auto with krlean| |done|lia|done|left; by rewrite Hl|right].
  { intros q Hr. left. apply Hq. unfold in_range. lia. }
  rewrite Hl. simpl. rewrite Z2Nat.id in Hf by done. exists s', fs'.
  destruct (fl_present_ok flags Hc) as [Hpr Hfr]. split_and!.
  - done.
  - eapply mem_ok_fresh; [exact Hok|exact Hf|]. intros q Hr. destruct (Hq q Hr) as [Hu Hn'].
    destruct (areas_disjoint q) as (Hd1 & Hd2 & Hd3). split_and!; [done| |].
    + intros Hco. apply (rg_area _ _ _ _ (mo_osvmap _ _ _ _ _ Hok)) in Hco. by destruct (Hd1 Hco).
    + intros Hco. apply (rg_area _ _ _ _ (mo_kmodmap _ _ _ _ _ Hok)) in Hco. by destruct (Hd3 Hu).
  - intros q Hpl Hr. apply (fp_out _ _ _ _ _ _ _ _ _ _ Hf); [done|exact Hr].
  - apply (fp_data _ _ _ _ _ _ _ _ _ _ Hf).
  - intros q Hr. pose proof (fp_in _ _ _ _ _ _ _ _ _ _ Hf q Hr) as Hi. destruct (present (view (mach st) q)); [exact Hi|].
    destruct Hi as (f & Hv & Hin & Hni & Ht & _ & Hz). exists f.
    rewrite pte_sum in Hv; [by split_and!; try done; apply Hz| |done].
    by eapply tagged_frame, Ht; apply Hf.
Qed.

Lemma has_commit t : truthy (Z.land t MEM_COMMIT) = Z.testbit t 12.
Proof. apply (truthy_land_pow2 t 12). lia. Qed.
Lemma has_reserve t : truthy (Z.land t MEM_RESERVE) = Z.testbit t 13.
Proof. apply (truthy_land_pow2 t 13). lia. Qed.
Lemma has_align t : truthy (Z.land t MEM_ALIGN64K) = Z.testbit t 28.
Proof. apply (truthy_land_pow2 t 28). lia. Qed.

Lemma or_reserve t k : 0 <= k -> Z.testbit (Z.lor t MEM_RESERVE) k = Z.testbit t k || (k =? 13).
Proof.
  intros Hk. rewrite Z.lor_spec. f_equal. change MEM_RESERVE with (2 ^ 13).
  rewrite Z.pow2_bits_eqb by lia. apply Z.eqb_sym.
Qed.

(** The tests of [vmalloc], in terms of the bits of [type]. *)
Lemma vmalloc_unfold st addr size type protect tag :
  is_u32 addr -> size <> 0 ->
  let a := addr / 4096 in
  let n := PAGES size in
  let flags := pte_flags_from_protect protect in
  let tag' := if tag =? 0 then TAG_VM else tag in
  let resv := Z.testbit type 13 || (a =? 0) && Z.testbit type 12 in
  (Z.testbit type 12 = true -> flags <> NOFLAGS) ->
  exists type', truthy (Z.land type' MEM_COMMIT) = Z.testbit type 12 /\
  vmalloc st addr size type protect tag =
    if resv then
      let '(addr, st) := reserve st (a * 4096) n (Z.testbit type 28) in
      if addr =? 0 then Ret (0, - ENOMEM, st) else commit_pages st addr n type' tag' flags
    else if negb (valid_range (vmap st) (a * 4096) size) then Ret (0, - EFAULT, st)
         else commit_pages st (a * 4096) n type' tag' flags.
Proof.
  intros Ha Hs a n flags tag' resv Hfl. unfold vmalloc. fold n flags tag'.
  rewrite (proj2 (Z.eqb_neq size 0)) by done. rewrite has_commit.
  assert (Z.testbit type 12 && (flags =? NOFLAGS) = false) as ->.
  { destruct (Z.testbit type 12); [|done]. by rewrite (proj2 (Z.eqb_neq _ _)) by auto. }
  rewrite PAGEADDR_div by done. fold a.
  replace (a * 4096 =? 0) with (a =? 0) by (destruct (Z.eqb_spec a 0), (Z.eqb_spec (a * 4096) 0); lia).
  exists (if (a =? 0) && Z.testbit type 12 then Z.lor type MEM_RESERVE else type).
  rewrite !has_commit, !has_reserve, has_align. unfold resv.
  destruct ((a =? 0) && Z.testbit type 12); rewrite ?or_reserve by lia; simpl;
    rewrite ?orb_true_r, ?orb_false_r; done.
Qed.

(** ** Freeing *)

Lemma flags_mask v m : Z.land PT_FLAGMASK m = m -> Z.land (Z.land v PT_FLAGMASK) m = Z.land v m.
Proof. intros Hm. by rewrite <- Z.land_assoc, Hm. Qed.

Definition is_file (s : machine) (q : Z) : bool := truthy (Z.land (view s q) PT_FILE).

Section Freeing.
Context `{FileServices W}.

Lemma vmfree_page_spec x fs p fm (A : Z -> Prop) :
  vm_ok (vm_machine x) fs -> owned (vm_machine x) fs A -> (forall q, A q -> plain q) -> A p ->
  is_file (vm_machine x) p = false ->
  exists s' fs', vmfree_page x (p * 4096) fm = Ret (0, fm, with_machine x s')
    /\ freed_pages (vm_machine x) fs s' fs' A p 1.
Proof.
  intros Hok How HA Hp Hnf. destruct (page_base p) as (Hu & Hd & _); [apply (HA _ Hp)|].
  pose proof (vo_dir _ _ Hok) as Hdir. set (s := vm_machine x) in *. unfold vmfree_page. fold s.
  assert (Hx : with_machine x s = x) by (destruct x as [[] ? ? ?]; done).
  assert (Hskip : present (view s p) = false -> freed_pages s fs s fs A p 1) by (by apply freed_pages_skip).
  rewrite (page_directory_mapped_spec s Hdir) by done. rewrite Hd. cbn [obind].
  destruct (bool_decide (is_Some (pte_at s p))) eqn:Hb.
  2:{ exists s, fs. rewrite Hx. split; [done|]. apply Hskip. apply bool_decide_eq_false in Hb.
      unfold view. destruct (pte_at s p); [by destruct Hb|done]. }
  apply bool_decide_eq_true in Hb.
  rewrite (get_page_flags_spec s Hdir) by (done || by rewrite Hd). rewrite Hd. cbn [obind].
  set (v := view s p) in *.
  assert (Hph : exists ph, virt2phys s (p * 4096) = Ret ph /\ (present v = true -> BTOP ph = BTOP v)).
  { destruct (present v) eqn:Hpv.
    - destruct (virt2phys_frame s fs (p * 4096) Hok Hu) as (ph & Hph & Hbp);
        rewrite ?Hd; try done; [by apply (ow_u32 _ _ _ How)|]. rewrite Hd in Hbp. by exists ph.
    - unfold virt2phys. rewrite (GET_PTE_view s Hdir) by (done || by rewrite Hd). by eexists. }
  destruct Hph as (ph & -> & Hbp). cbn [obind].
  rewrite flags_mask by done. unfold is_file in Hnf. fold v in Hnf. rewrite Hnf.
  assert (Hpf : present (Z.land v PT_FLAGMASK) = present v) by (unfold present; by rewrite flags_mask).
  rewrite Hpf. destruct (present v) eqn:Hpv.
  2:{ exists s, fs. rewrite Hx. split; [done|]. by apply Hskip. }
  destruct (free_one s fs (p * 4096) A Hok How HA Hu) as (p' & Hf & s' & _ & Hun & Hfr); rewrite ?Hd; try done.
  rewrite Hd in Hf, Hfr. fold v in Hf, Hfr. unfold drop_page. rewrite Hpf, Hbp by done.
  apply obind_ret in Hun as (s1 & Hs1 & [= <-]). rewrite Hs1. cbn [obind].
  destruct (unmap_page_spec s fs (p * 4096) Hok Hu) as (s1' & Hs1' & _ & Hfs); [by rewrite Hd; apply HA|by rewrite Hd|].
  rewrite Hs1 in Hs1'. injection Hs1' as <-. rewrite Hfs, Hf. cbn [obind].
  by exists (set_frames s1 p'), (Z.to_nat (BTOP v) :: fs).
Qed.

Lemma vmfree_loop_spec n x fs p fm (A : Z -> Prop) :
  vm_ok (vm_machine x) fs -> owned (vm_machine x) fs A -> (forall q, A q -> plain q) ->
  0 <= p -> p + Z.of_nat n < NPAGES ->
  (forall q, p <= q < p + Z.of_nat n -> A q /\ is_file (vm_machine x) q = false) ->
  exists s' fs', vmfree_loop x (p * 4096) n fm = Ret (0, fm, with_machine x s')
    /\ freed_pages (vm_machine x) fs s' fs' A p (Z.of_nat n).
Proof.
  revert x fs p. induction n as [|n IH]; intros x fs p Hok How HA Hp Hpn Hq.
  { exists (vm_machine x), fs. split; [by destruct x as [[] ? ? ?]|by apply freed_pages_nil]. }
  destruct (Hq p ltac:(lia)) as [Ha Hnf].
  destruct (vmfree_page_spec x fs p fm A Hok How HA Ha Hnf) as (s1 & fs1 & Hs & H1).
  destruct (IH (with_machine x s1) fs1 (p + 1) (rp_ok _ _ _ _ _ _ _ H1) (rp_own _ _ _ _ _ _ _ H1) HA)
    as (s2 & fs2 & Hl & H2); [lia|lia| |].
  { intros q Hr. destruct (Hq q ltac:(lia)) as [Haq Hfq]. split; [done|]. unfold is_file in *.
    change (vm_machine (with_machine x s1)) with s1.
    rewrite (rp_view _ _ _ _ _ _ _ H1) by auto. by rewrite decide_False by lia. }
  exists s2, fs2. simpl. rewrite Hs. cbn [obind]. rewrite page_succ by lia. split; [exact Hl|].
  replace (Z.of_nat (S n)) with (1 + Z.of_nat n) by lia.
  eapply freed_pages_app; [lia|lia| |exact H1|exact H2]. intros q Hr. apply HA, Hq. lia.
Qed.
End Freeing.

(** ** Changing the protection *)

(** The entry [v] of a page with the protection [flags]. *)
Definition reprotect (v flags : Z) : Z :=
  Z.lor (Z.land v PT_PFNMASK) (Z.lor (Z.land (Z.land v PT_FLAGMASK) (u32 (Z.lnot PT_PROTECTMASK))) flags).

Record protected_pages (s : machine) (fs : list nat) (s' : machine) (A : Z -> Prop) (p n flags : Z) : Prop := {
  pp_ok : vm_ok s' fs;
  pp_own : owned s' fs A;
  pp_view : forall q, plain q -> view s' q =
    if decide (p <= q < p + n /\ present (view s q) = true) then reprotect (view s q) flags else view s q;
  pp_data : forall g, ~ is_table s g -> phys s' g = phys s g;
  pp_tables : forall g, is_table s' g <-> is_table s g;
}.

Lemma protect_flags v flags : 0 <= flags < 4096 ->
  0 <= Z.lor (Z.land (Z.land v PT_FLAGMASK) (u32 (Z.lnot PT_PROTECTMASK))) flags < 4096.
Proof.
  intros Hf. assert (0 <= Z.land (Z.land v PT_FLAGMASK) (u32 (Z.lnot PT_PROTECTMASK))).
  { apply Z.land_nonneg. right. by vm_compute. }
  split; [apply Z.lor_nonneg; lia|]. change 4096 with (2 ^ 12).
  apply Z.bounded_iff_bits_nonneg; [lia|apply Z.lor_nonneg; lia|]. intros l Hl.
  rewrite Z.lor_spec, !Z.land_spec, (testbit_small PT_FLAGMASK l), (testbit_small flags l).
  - by rewrite andb_false_r.
  - pose proof (Z.pow_le_mono_r 2 12 l). lia.
  - pose proof (Z.pow_le_mono_r 2 12 l). change PT_FLAGMASK with 0x667. lia.
Qed.

Lemma protect_loop_spec n s fs p flags (A : Z -> Prop) :
  vm_ok s fs -> owned s fs A -> (forall q, A q -> plain q) ->
  (forall q, p <= q < p + Z.of_nat n -> A q) -> 0 <= p -> p + Z.of_nat n < NPAGES -> 0 <= flags < 4096 ->
  exists s', protect_loop s (p * 4096) n flags = Ret s' /\ protected_pages s fs s' A p (Z.of_nat n) flags.
Proof.
  revert s p. induction n as [|n IH]; intros s p Hok How HA Hq Hp Hpn Hfl.
  { exists s. split; [done|]. constructor; try done. intros q _. by rewrite decide_False by lia. }
  destruct (page_base p ltac:(lia)) as (Hu & Hd & _). pose proof (Hq p ltac:(lia)) as Ha.
  pose proof (vo_dir _ _ Hok) as Hdir. simpl. rewrite (page_mapped_spec s Hdir), Hd by done. cbn [obind].
  assert (Hstep : exists s1, (if present (view s p) then
      old <~ get_page_flags s (p * 4096);
      set_page_flags s (p * 4096) (Z.lor (Z.land old (u32 (Z.lnot PT_PROTECTMASK))) flags) else Ret s) = Ret s1
    /\ protected_pages s fs s1 A p 1 flags).
  { destruct (present (view s p)) eqn:Hpv.
    2:{ exists s. split; [done|]. constructor; try done. intros q _. rewrite decide_False; [done|].
        intros [Hr Hpq]. replace q with p in Hpq by lia. congruence. }
    pose proof (present_some _ _ Hpv) as Hso.
    rewrite (get_page_flags_spec s Hdir) by (done || by rewrite Hd). rewrite Hd. cbn [obind].
    destruct (reflag_spec s fs (p * 4096) 0 _ false A Hok How Hu HA ltac:(by rewrite Hd) ltac:(by rewrite Hd)
      (protect_flags (view s p) flags Hfl)) as (s1 & Hs1 & Hf & Hda & Htb). rewrite Hd in Hf.
    exists s1. split; [done|]. constructor; [apply (fp_ok _ _ _ _ _ _ _ _ _ _ Hf)|apply (fp_own _ _ _ _ _ _ _ _ _ _ Hf)| | |].
    - intros q Hpl. destruct (decide (_ /\ _)) as [[Hr Hpq]|Hn].
      + pose proof (fp_in _ _ _ _ _ _ _ _ _ _ Hf q Hr) as Hi. replace q with p in * by lia. by rewrite Hpv in Hi.
      + apply (fp_out _ _ _ _ _ _ _ _ _ _ Hf); [done|]. intros Hr. apply Hn. replace q with p by lia. split; [lia|done].
    - done.
    - done. }
  destruct Hstep as (s1 & -> & H1). cbn [obind]. rewrite page_succ by lia.
  destruct (IH s1 (p + 1) (pp_ok _ _ _ _ _ _ _ H1) (pp_own _ _ _ _ _ _ _ H1) HA) as (s2 & -> & H2);
    [intros q Hr; apply Hq; lia|lia|lia|done|].
  exists s2. split; [done|]. constructor; [apply H2|apply H2| | |].
  - intros q Hpl. rewrite (pp_view _ _ _ _ _ _ _ H2) by done. rewrite (pp_view _ _ _ _ _ _ _ H1) by done.
    destruct (decide (p <= q < p + 1 /\ _)) as [[Hr Hpq]|Hn].
    + rewrite decide_False by lia. by rewrite decide_True by (split; [lia|done]).
    + destruct (decide (p + 1 <= q < _ /\ _)) as [[Hr Hpq]|Hn'].
      * by rewrite decide_True by (split; [lia|done]).
      * rewrite decide_False; [done|]. intros [Hr Hpq]. destruct (decide (q = p)) as [->|].
        -- apply Hn. split; [lia|done].
        -- apply Hn'. split; [lia|done].
  - intros g Hg. rewrite (pp_data _ _ _ _ _ _ _ H2); [by apply H1|]. by rewrite (pp_tables _ _ _ _ _ _ _ H1).
  - intros g. by rewrite (pp_tables _ _ _ _ _ _ _ H2), (pp_tables _ _ _ _ _ _ _ H1).
Qed.

(** The answers of [vmalloc] for [n] pages at page [a]; the four cases exclude each
    other. *)
Inductive vmalloc_answer (lu : list rent) (a n size flags : Z) (commit resv al : bool) : Z -> Prop :=
  | va_einval : size = 0 \/ (commit = true /\ flags = NOFLAGS) ->
      vmalloc_answer lu a n size flags commit resv al (- EINVAL)
  | va_enomem : size <> 0 -> (commit = true -> flags <> NOFLAGS) -> resv = true ->
      ~ can_reserve lu a n al -> vmalloc_answer lu a n size flags commit resv al (- ENOMEM)
  | va_efault : size <> 0 -> (commit = true -> flags <> NOFLAGS) -> resv = false ->
      ~ (16 <= a /\ a + n < 0x80000 /\ forall q, in_range a n q -> ~ covers lu q) ->
      vmalloc_answer lu a n size flags commit resv al (- EFAULT)
  | va_ok : size <> 0 -> (commit = true -> flags <> NOFLAGS) ->
      (if resv then can_reserve lu a n al
       else 16 <= a /\ a + n < 0x80000 /\ forall q, in_range a n q -> ~ covers lu q) ->
      vmalloc_answer lu a n size flags commit resv al 0.

(** What holds when it succeeds with the pages from [p]. *)
Record vmalloc_done (st : mem) (fs : list nat) (lu : list rent) (st' : mem) (fs' : list nat)
    (lu' : list rent) (p n flags tag : Z) (commit resv : bool) : Prop := {
  vd_free : resv = true -> all_free lu p n;
  vd_taken : forall q, in_range p n q -> upage q /\ ~ covers lu' q;
  vd_less : forall q, covers lu' q -> covers lu q;
  vd_other : forall q, plain q -> ~ in_range p n q -> view (mach st') q = view (mach st) q;
  vd_data : forall g, 0 <= g -> Z.to_nat g ∉ fs -> ~ is_table (mach st) g ->
    phys (mach st') g = phys (mach st) g;
  vd_pages : if commit then committed st st' fs fs' p n flags tag else mach st' = mach st;
}.

(** The second half of [vmalloc], once the range is known. *)
Lemma commit_done st fs lu lu' lo lk m p n type tag flags (resv : bool) :
  mem_ok st fs lu lo lk -> region (mach st) upage m lu' -> 0 <= p -> 0 <= n -> p + n < NPAGES ->
  (resv = true -> all_free lu p n) -> (forall q, covers lu' q -> covers lu q) ->
  (forall q, in_range p n q -> upage q /\ ~ covers lu' q) ->
  (truthy (Z.land type MEM_COMMIT) = true -> 0 <= flags < 4096) ->
  (commit_pages (set_vmap st m) (p * 4096) n type tag flags = Panic /\ (length fs < 2 * Z.to_nat n)%nat) \/
  exists st' fs', commit_pages (set_vmap st m) (p * 4096) n type tag flags = Ret (p * 4096, 0, st')
    /\ mem_ok st' fs' lu' lo lk
    /\ vmalloc_done st fs lu st' fs' lu' p n flags tag (truthy (Z.land type MEM_COMMIT)) resv.
Proof.
  intros [Hv Ho Hu Hk Hm] Hreg Hp Hn Hpn Hres Hle Hq Hc.
  destruct (commit_pages_spec (set_vmap st m) fs lu' lo lk p n type tag flags)
    as [?|(s' & fs' & Hr & Hok' & Hout & Hda & Hpg)]; [by constructor|done..|by left|].
  right. exists (set_mach (set_vmap st m) s'), fs'. split; [done|]. split; [done|].
  constructor; try done.
Qed.

Lemma region_protected s fs s' A P m l p n flags :
  region s P m l -> protected_pages s fs s' A p n flags -> (forall q, P q -> plain q) -> region s' P m l.
Proof.
  intros [Hr Hw Ha Hn] Hf Hpl. constructor; [done..|]. intros q Hq.
  rewrite (pp_view _ _ _ _ _ _ _ Hf) by auto. rewrite decide_False; [auto|]. rewrite Hn by done. by intros [].
Qed.

(** ** [vmprotect] and [vmfree] *)

Definition user_range (lu : list rent) (a n : Z) : Prop :=
  16 <= a /\ a + n < 0x80000 /\ forall q, in_range a n q -> ~ covers lu q.

Section Calls.
Context (st : mem) (fs : list nat) (lu lo lk : list rent) (Hok : mem_ok st fs lu lo lk).
Context (addr size : Z) (Ha : is_u32 addr) (Hs : 0 < size <= 0xFFFFF000).
Context (Hn : addr / 4096 + PAGES size < NPAGES).

Lemma call_range :
  PAGEADDR addr = addr / 4096 * 4096
  /\ (valid_range (vmap st) (addr / 4096 * 4096) size = true <-> user_range lu (addr / 4096) (PAGES size))
  /\ 0 < PAGES size.
Proof.
  split; [by apply PAGEADDR_div|]. split; [|by apply PAGES_small; lia].
  by apply (valid_range_spec (mach st)); [apply Hok|apply page_range|..].
Qed.

Lemma user_upage q : user_range lu (addr / 4096) (PAGES size) ->
  addr / 4096 <= q < addr / 4096 + PAGES size -> upage q /\ ~ covers lu q.
Proof. intros (H1 & H2 & H3) Hq. split; [unfold upage; lia|by apply H3]. Qed.

Lemma vmprotect_spec protect :
  let flags := pte_flags_from_protect protect in
  let a := addr / 4096 in
  ((~ user_range lu a (PAGES size) \/ flags = NOFLAGS) /\ vmprotect st addr size protect = Ret (- EINVAL, st)) \/
  (user_range lu a (PAGES size) /\ flags <> NOFLAGS /\
   exists s', vmprotect st addr size protect = Ret (0, set_mach st s')
     /\ mem_ok (set_mach st s') fs lu lo lk
     /\ protected_pages (mach st) fs s' area a (PAGES size) flags).
Proof.
  intros flags a. destruct call_range as (Hpa & Hvr & Hpos). unfold vmprotect.
  rewrite (proj2 (Z.eqb_neq size 0)), Hpa by lia. fold a in Hvr |- *.
  destruct (valid_range (vmap st) (a * 4096) size); simpl.
  2:{ left. split; [|done]. left. intros Hu. by apply Hvr in Hu. }
  destruct Hvr as [Hu _]. specialize (Hu eq_refl). fold flags.
  destruct (Z.eqb_spec flags NOFLAGS) as [Hno|Hfl]; [left; auto|right]. split; [done|]. split; [done|].
  pose proof (page_range addr Ha) as Hpr. fold a in Hn, Hpr.
  destruct (protect_loop_spec (Z.to_nat (PAGES size)) (mach st) fs a flags area) as (s' & Hl & Hp);
    [apply Hok|apply Hok|auto with krlean| |lia|lia|by apply flags_ok|].
  { intros q Hq. left. apply user_upage; [done|]. fold a. lia. }
  rewrite Hl. simpl. rewrite Z2Nat.id in Hp by lia. exists s'. split; [done|]. split; [|done].
  destruct Hok as [Hv Ho Hru Hrk Hrm].
  constructor; [apply (pp_ok _ _ _ _ _ _ _ Hp)|apply (pp_own _ _ _ _ _ _ _ Hp)|..];
    (eapply region_protected; [done|exact Hp|auto with krlean]).
Qed.
End Calls.

Lemma vmalloc_spec st fs lu lo lk addr size type protect tag :
  mem_ok st fs lu lo lk -> is_u32 addr -> 0 <= size <= 0xFFFFF000 ->
  addr / 4096 + PAGES size < NPAGES ->
  let a := addr / 4096 in
  let n := PAGES size in
  let flags := pte_flags_from_protect protect in
  let commit := Z.testbit type 12 in
  let resv := Z.testbit type 13 || (a =? 0) && commit in
  (vmalloc st addr size type protect tag = Panic /\ (length fs < 2 * Z.to_nat n)%nat) \/
  exists p rc st' fs' lu', vmalloc st addr size type protect tag = Ret (p * 4096, rc, st')
    /\ mem_ok st' fs' lu' lo lk
    /\ vmalloc_answer lu a n size flags commit resv (Z.testbit type 28) rc
    /\ (rc <> 0 -> p = 0 /\ mach st' = mach st /\ fs' = fs /\ lu' = lu)
    /\ (rc = 0 -> (a <> 0 -> p = a)
         /\ vmalloc_done st fs lu st' fs' lu' p n flags (if tag =? 0 then TAG_VM else tag) commit resv).
Proof.
  intros Hok Ha Hs Hn a n flags commit resv.
  destruct (PAGES_small size Hs) as (_ & Hn0 & Hnpos). fold n in Hn, Hn0, Hnpos.
  pose proof (mo_vmap _ _ _ _ _ Hok) as Hreg. pose proof (page_range addr Ha) as Hpr. fold a in Hn, Hpr.
  destruct (decide (size = 0 \/ (commit = true /\ flags = NOFLAGS))) as [Hbad|Hgood].
  { right. exists 0, (- EINVAL), st, fs, lu. split_and!; [|done|by constructor|done|done].
    unfold vmalloc. rewrite has_commit. fold flags commit.
    destruct Hbad as [->|[-> ->]]; [done|]. by destruct (size =? 0). }
  assert (Hs0 : size <> 0) by tauto. assert (Hfl : commit = true -> flags <> NOFLAGS) by tauto.
  destruct (vmalloc_unfold st addr size type protect tag Ha Hs0 Hfl) as (type' & Hty & Heq).
  fold a n flags commit resv in Heq, Hty.
  assert (Hcm : truthy (Z.land type' MEM_COMMIT) = true -> 0 <= flags < 4096).
  { rewrite Hty. intros Hc. by apply flags_ok, Hfl. }
  destruct resv eqn:Hresv.
  - destruct (reserve_spec st lu a n (Z.testbit type 28) Hreg Hpr ltac:(unfold NPAGES; lia))
      as (p & m & lu' & Hr & Hreg' & [(-> & -> & Hno)|(Hp & Hcan & Hpa & _ & Hq & Hle)]); rewrite Hr in Heq.
    + right. exists 0, (- ENOMEM), (set_vmap st m), fs, lu. split_and!; [done| |by constructor|done|done].
      destruct Hok. by constructor.
    + assert (Hfree : all_free lu p n) by (intros q Hqr; by apply Hq).
      destruct (covered_range _ _ _ _ p n Hreg (fun q H => or_introl H)) as (_ & Hpn & Hup); [lia|done|].
      assert (p + n < NPAGES).
      { destruct (Hup (p + n - 1) ltac:(lia)) as [Hu _]. unfold upage, NPAGES in *. lia. }
      rewrite PTOB_mul in Heq by lia. rewrite (proj2 (Z.eqb_neq (p * 4096) 0)) in Heq by lia.
      destruct (commit_done st fs lu lu' lo lk m p n type' (if tag =? 0 then TAG_VM else tag) flags true Hok Hreg')
        as [[Hc ?]|(st' & fs' & Hc & Hok' & Hd)]; [lia|lia|done|done|done| |done|left; by rewrite Heq|].
      { intros q Hqr. by destruct (Hq q Hqr) as (? & _ & _ & ?). }
      right. exists p, 0, st', fs', lu'. rewrite Hty in Hd. split_and!; [by rewrite Heq|done|by constructor|done|done].
  - pose proof (valid_range_spec (mach st) lu (vmap st) a size Hreg Hpr ltac:(lia) Hn) as Hvr. fold n in Hvr.
    destruct (valid_range (vmap st) (a * 4096) size); simpl in Heq.
    + destruct Hvr as [Hvr _]. destruct (Hvr eq_refl) as (H16 & Htop & Hno).
      assert (Hsame : set_vmap st (vmap st) = st) by (by destruct st).
      destruct (commit_done st fs lu lu lo lk (vmap st) a n type' (if tag =? 0 then TAG_VM else tag) flags false Hok Hreg)
        as [[Hc ?]|(st' & fs' & Hc & Hok' & Hd)]; [lia|lia|done|done|done| |done|left; by rewrite Heq, <- Hsame at 1|].
      { intros q Hqr. split; [|by apply Hno]. unfold in_range, upage in *. lia. }
      right. exists a, 0, st', fs', lu. rewrite Hty in Hd. rewrite Hsame in Hc.
      split_and!; [by rewrite Heq|done|by constructor|done|done].
    + right. exists 0, (- EFAULT), st, fs, lu. split_and!; [done|done| |done|done].
      constructor; [done..|]. intros Hu. apply Hvr in Hu. done.
Qed.

(** ** The properties *)


(** [vmprotect] on a range that ends below 4 GB: [-EINVAL] if the range is not in user
    space, has a free page or the protection does not exist; else the pages of the range
    that are present keep their frames and get the protection, and nothing else
    changes.  The ownership invariant holds after every answer. *)
Lemma vmprotect_correct st fs lu lo lk addr size protect :
  mem_ok st fs lu lo lk -> is_u32 addr -> 0 <= size <= 0xFFFFF000 ->
  addr / 4096 + PAGES size < NPAGES ->
  let a := addr / 4096 in
  let n := PAGES size in
  let flags := pte_flags_from_protect protect in
  exists rc st', vmprotect st addr size protect = Ret (rc, st') /\ mem_ok st' fs lu lo lk
    /\ ((size = 0 /\ rc = 0 /\ st' = st)
        \/ (size <> 0 /\ (~ user_range lu a n \/ flags = NOFLAGS) /\ rc = - EINVAL /\ st' = st)
        \/ (size <> 0 /\ user_range lu a n /\ flags <> NOFLAGS /\ rc = 0
            /\ (forall q, plain q -> view (mach st') q =
                  if decide (a <= q < a + n /\ present (view (mach st) q) = true)
                  then reprotect (view (mach st) q) flags else view (mach st) q)
            /\ (forall g, ~ is_table (mach st) g -> phys (mach st') g = phys (mach st) g))).
Proof.
  intros Hok Ha Hs Hn a n flags. destruct (decide (size = 0)) as [->|Hs0].
  { exists 0, st. split; [done|]. split; [done|]. by left. }
  destruct (vmprotect_spec st fs lu lo lk Hok addr size Ha ltac:(lia) Hn protect)
    as [[He Hr]|(Hu & Hf & s' & Hr & Hok' & Hp)].
  - exists (- EINVAL), st. split; [done|]. split; [done|]. right. left. by split_and!.
  - exists 0, (set_mach st s'). split; [done|]. split; [done|]. right. right.
    split_and!; [done|apply Hu|done|done|apply (pp_view _ _ _ _ _ _ _ Hp)|apply (pp_data _ _ _ _ _ _ _ Hp)].
Qed.

Section VmFree.
Context `{FileServices W}.

(** The answer of [vmfree] where no page of the range belongs to a file. *)
Lemma vmfree_spec x fs lu lo lk addr size type :
  mem_ok (vm_mem x) fs lu lo lk -> is_u32 addr -> 0 < size <= 0xFFFFF000 ->
  addr / 4096 + PAGES size < NPAGES ->
  let a := addr / 4096 in
  let n := PAGES size in
  let drop := Z.testbit type 14 || Z.testbit type 15 in
  (user_range lu a n -> forall q, in_range a n q -> is_file (vm_machine x) q = false) ->
  (~ user_range lu a n /\ vmfree x addr size type = Ret (- EINVAL, x)) \/
  (user_range lu a n /\ exists s' fs' m lu',
     vmfree x addr size type = Ret (0, with_mem x (set_mach (set_vmap (vm_mem x) m) s'))
     /\ mem_ok (set_mach (set_vmap (vm_mem x) m) s') fs' lu' lo lk
     /\ (if drop then freed_pages (vm_machine x) fs s' fs' area a n else s' = vm_machine x /\ fs' = fs)
     /\ (if Z.testbit type 15
         then (forall q, covers lu' q <-> covers lu q \/ in_range a n q)
              \/ (lu' = lu /\ length lu = capacity (vmap (vm_mem x)))
         else lu' = lu)).
Proof.
  intros Hok Ha Hs Hn a n drop Hnf.
  destruct (call_range (vm_mem x) fs lu lo lk Hok addr size Ha Hs Hn) as (Hpa & Hvr & Hpos).
  fold a n in Hpa, Hvr, Hpos, Hn. unfold vmfree. rewrite (proj2 (Z.eqb_neq size 0)), Hpa by lia. fold n.
  destruct (valid_range (vmap (vm_mem x)) (a * 4096) size); cbn [negb].
  2:{ left. split; [|done]. intros Hu. by apply Hvr in Hu. }
  destruct Hvr as [Hu _]. specialize (Hu eq_refl). right. split; [done|].
  assert (truthy (Z.land type (Z.lor MEM_DECOMMIT MEM_RELEASE)) = drop) as ->.
  { unfold drop. rewrite Z.land_lor_distr_r. rewrite <- (truthy_land_pow2 type 14), <- (truthy_land_pow2 type 15) by lia.
    unfold truthy. change MEM_DECOMMIT with (2 ^ 14). change MEM_RELEASE with (2 ^ 15).
    destruct (Z.eqb_spec (Z.land type (2 ^ 14)) 0) as [->|H1]; [by rewrite Z.lor_0_l|]. simpl.
    apply negb_true_iff, Z.eqb_neq. intros H0%Z.lor_eq_0_iff. by destruct H0. }
  rewrite (truthy_land_pow2 type 15 ltac:(lia) : truthy (Z.land type MEM_RELEASE) = _).
  pose proof (page_range addr Ha) as Hpr. fold a in Hpr.
  set (s := vm_machine x) in *.
  assert (Hloop : exists s' fs', (if drop then vmfree_loop x (a * 4096) (Z.to_nat n) None else Ret (0, None, x))
      = Ret (0, None, with_machine x s')
    /\ mem_ok (set_mach (vm_mem x) s') fs' lu lo lk
    /\ (if drop then freed_pages s fs s' fs' area a n else s' = s /\ fs' = fs)).
  { destruct drop.
    - destruct (vmfree_loop_spec (Z.to_nat n) x fs a None area) as (s' & fs' & Hl & Hf);
        [apply Hok|apply Hok|auto with krlean|lia|lia| |].
      { intros q Hq. split; [left; apply (user_upage lu addr size q Hu); lia|apply (Hnf Hu); unfold in_range; lia]. }
      rewrite Z2Nat.id in Hf by lia. exists s', fs'. split; [done|]. split; [|done].
      by eapply mem_ok_freed.
    - exists s, fs. destruct x as [[] ? ? ?]. by split_and!. }
  destruct Hloop as (s' & fs' & -> & Hok' & Hfr). cbn [obind].
  destruct (Z.testbit type 15) eqn:H15.
  2:{ exists s', fs', (vmap (vm_mem x)), lu. split_and!; [|by destruct (vm_mem x)|done|done].
      unfold with_machine. by destruct x as [[] ? ? ?]. }
  assert (Hd : drop = true) by (unfold drop; by rewrite orb_true_r). rewrite Hd in Hfr |- *.
  assert (Hab : forall q, in_range a n q -> upage q /\ present (view s' q) = false).
  { intros q Hq. assert (upage q) as Hup by (apply (user_upage lu addr size q Hu); exact Hq). split; [done|].
    rewrite (rp_view _ _ _ _ _ _ _ Hfr) by auto with krlean.
    destruct (decide _) as [|Hn']; [done|]. destruct (present (view (vm_machine x) q)) eqn:Hp; [|done].
    exfalso. apply Hn'. split; [exact Hq|done]. }
  pose proof (mo_vmap _ _ _ _ _ Hok') as Hreg.
  change (vmap (vm_mem (with_machine x s'))) with (vmap (set_mach (vm_mem x) s')).
  assert (BTOP (a * 4096) = a) as -> by (rewrite BTOP_div, Z.div_mul by lia; done).
  pose proof (rmap_free_spec _ lu a n (rg_rep _ _ _ _ Hreg) (rg_wf _ _ _ _ Hreg)) as Hfree.
  destruct Hu as (H16 & Htop & Hno).
  specialize (Hfree ltac:(lia) Hpos ltac:(lia) Hno).
  destruct (rmap_free (vmap (set_mach (vm_mem x) s')) a n) as [m lost].
  destruct Hfree as (lu' & Hrep & Hwf & _ & Hc).
  exists s', fs', m, lu'. split; [by destruct x as [[] ? ? ?]|]. split; [|split; [done|]].
  - destruct Hok' as [Hv Ho Hru Hrk Hrm]. constructor; [done..| |done|done].
    eapply region_grow; [exact Hreg|done|done|]. intros q Hq.
    destruct Hc as [[_ Hc]|(_ & -> & _)]; [|by left]. apply Hc in Hq as [?|Hq]; [by left|]. right. by apply Hab.
  - destruct Hc as [[_ Hc]|(_ & -> & Hl)]; [by left|right]. by split.
Qed.

End VmFree.

(** ** Isolation *)

Section Isolation.
Context `{FileServices W}.

Definition in_limits (addr size : Z) : Prop :=
  is_u32 addr /\ 0 <= size <= 0xFFFFF000 /\ addr / 4096 + PAGES size < NPAGES.

(** Calls of processes and of the kernel that return.  The kernel frees only pages of the
    heap that are there. *)
Inductive vm_call : vms W -> vms W -> Prop :=
  | call_vmalloc x addr size type protect tag r rc st' : in_limits addr size ->
      vmalloc (vm_mem x) addr size type protect tag = Ret (r, rc, st') -> vm_call x (with_mem x st')
  | call_vmprotect x addr size protect rc st' : in_limits addr size ->
      vmprotect (vm_mem x) addr size protect = Ret (rc, st') -> vm_call x (with_mem x st')
  | call_vmfree x addr size type rc x' : in_limits addr size ->
      vmfree x addr size type = Ret (rc, x') -> vm_call x x'
  | call_alloc_pages x n tag v st' : 0 < n < NPAGES -> v <> 0 ->
      alloc_pages (vm_mem x) n tag = Ret (v, st') -> vm_call x (with_mem x st')
  | call_free_pages x p n st' : 0 < p -> 0 < n ->
      (forall q, in_range p n q -> kheappage q /\ present (view (vm_machine x) q) = true) ->
      free_pages (vm_mem x) (PTOB p) n = Ret st' -> vm_call x (with_mem x st').

(** The invariant, where no file is mapped. *)
Definition vm_safe (x : vms W) : Prop :=
  (exists fs lu lo lk, mem_ok (vm_mem x) fs lu lo lk)
  /\ forall q, upage q -> is_file (vm_machine x) q = false.

Lemma is_file_bit s q : is_file s q = Z.testbit (view s q) 10.
Proof. apply (truthy_land_pow2 _ 10). lia. Qed.

Lemma protect_no_file protect : pte_flags_from_protect protect <> NOFLAGS ->
  Z.testbit (pte_flags_from_protect protect) 10 = false.
Proof. unfold pte_flags_from_protect. intros Hn. by repeat case_match. Qed.

Lemma frame_no_file f fl : 0 <= f < NPAGES -> 0 <= fl < 4096 -> Z.testbit (f * 4096 + fl) 10 = Z.testbit fl 10.
Proof.
  intros Hf Hl. rewrite <- pte_sum, Z.lor_spec by done. rewrite PTOB_mul by done.
  change 4096 with (2 ^ 12). by rewrite Z.mul_pow2_bits_low by lia.
Qed.

Lemma vmalloc_files st fs lu st' fs' lu' p n protect tag commit resv q :
  vmalloc_done st fs lu st' fs' lu' p n (pte_flags_from_protect protect) tag commit resv ->
  (commit = true -> pte_flags_from_protect protect <> NOFLAGS) -> vm_ok (mach st') fs' -> upage q ->
  is_file (mach st) q = false -> is_file (mach st') q = false.
Proof.
  intros Hd Hfl Hok Hq Hf. destruct (decide (in_range p n q)) as [Hr|Hr].
  2:{ unfold is_file. rewrite (vd_other _ _ _ _ _ _ _ _ _ _ _ _ Hd) by auto with krlean. done. }
  pose proof (vd_pages _ _ _ _ _ _ _ _ _ _ _ _ Hd) as Hp. destruct commit; [|by rewrite Hp].
  specialize (Hp q Hr). specialize (Hfl eq_refl). pose proof (flags_ok _ Hfl) as [Hb _].
  assert (Hz : Z.testbit (fl_present (pte_flags_from_protect protect)) 10 = false).
  { unfold fl_present. by rewrite Z.lor_spec, protect_no_file. }
  rewrite is_file_bit. destruct (present (view (mach st) q)).
  - rewrite Hp, Z.lor_spec, Z.land_spec, Hz. by rewrite andb_false_r.
  - destruct Hp as (f & _ & _ & -> & Ht & _).
    rewrite frame_no_file; [done|by eapply tagged_frame|by apply fl_present_ok].
Qed.

Lemma reprotect_files v protect : pte_flags_from_protect protect <> NOFLAGS ->
  Z.testbit v 10 = false -> Z.testbit (reprotect v (pte_flags_from_protect protect)) 10 = false.
Proof.
  intros Hf Hv. unfold reprotect. rewrite !Z.lor_spec, !Z.land_spec, Hv, protect_no_file by done. done.
Qed.

Lemma vm_call_safe x x' : vm_call x x' -> vm_safe x -> vm_safe x'.
Proof.
  intros Hcall [(fs & lu & lo & lk & Hok) Hnf]. destruct Hcall as
    [x addr size type protect tag r rc st' (Ha & Hs & Hn) Hr|x addr size protect rc st' (Ha & Hs & Hn) Hr
    |x addr size type rc x' (Ha & Hs & Hn) Hr|x n tag v st' Hn Hv Hr|x p n st' Hp Hn Hq Hr].
  - destruct (vmalloc_spec _ fs lu lo lk addr size type protect tag Hok Ha Hs Hn)
      as [[Hr' _]|(p & rc' & st1 & fs' & lu' & Hr' & Hok' & Hans & He & Hd)]; rewrite Hr in Hr'; [done|].
    injection Hr' as _ <- <-. split; [by exists fs', lu', lo, lk|]. intros q Hq.
    change (is_file (mach st') q = false). destruct (decide (rc = 0)) as [->|Hne].
    + destruct (Hd eq_refl) as [_ Hd']. eapply vmalloc_files; [exact Hd'| |apply Hok'|done|by apply Hnf].
      intros Hc. inversion Hans; naive_solver.
    + destruct (He Hne) as (_ & -> & _). by apply Hnf.
  - destruct (decide (size = 0)) as [->|Hs0].
    { injection Hr as _ <-. split; [|by destruct x]. by exists fs, lu, lo, lk. }
    destruct (vmprotect_spec _ fs lu lo lk Hok addr size Ha ltac:(lia) Hn protect)
      as [[_ Hr']|(Hu & Hf & s' & Hr' & Hok' & Hpp)]; rewrite Hr in Hr'; injection Hr' as _ ->.
    + split; [by exists fs, lu, lo, lk|by destruct x].
    + split; [by exists fs, lu, lo, lk|]. intros q Hq. change (is_file s' q = false).
      specialize (Hnf q Hq). rewrite is_file_bit in *. rewrite (pp_view _ _ _ _ _ _ _ Hpp) by auto with krlean.
      case_decide; [by apply reprotect_files|done].
  - destruct (decide (size = 0)) as [->|Hs0].
    { injection Hr as _ <-. split; [by exists fs, lu, lo, lk|done]. }
    destruct (vmfree_spec x fs lu lo lk addr size type Hok Ha ltac:(lia) Hn)
      as [[_ Hr']|(Hu & s' & fs' & m & lu' & Hr' & Hok' & Hf & _)].
    { intros Hu q Hq. apply Hnf. by apply (user_upage lu addr size q Hu). }
    + rewrite Hr in Hr'. injection Hr' as _ ->. split; [by exists fs, lu, lo, lk|done].
    + rewrite Hr in Hr'. injection Hr' as _ ->. split; [by exists fs', lu', lo, lk|].
      intros q Hq. change (is_file s' q = false). specialize (Hnf q Hq). destruct (_ || _).
      * unfold is_file in *. rewrite (rp_view _ _ _ _ _ _ _ Hf) by auto with krlean. by case_decide.
      * by destruct Hf as [-> _].
  - destruct (fits_dec lo n) as [Hno|Hfit].
    { exfalso. apply Hv. eapply alloc_pages_null; [apply Hok|done|done|exact Hr]. }
    destruct (alloc_pages_spec _ fs lu lo lk n tag Hok Hn Hfit)
      as [[Hr' _]|(p & m & lo' & s' & fs' & Hr' & Hok' & _ & _ & Hq & Hf)]; rewrite Hr in Hr'; [done|].
    injection Hr' as _ ->. split; [by exists fs', lu, lo', lk|]. intros q Hu. change (is_file s' q = false).
    unfold is_file in *. rewrite (fp_out _ _ _ _ _ _ _ _ _ _ Hf) by
      (auto with krlean || (intros Hqr; destruct (Hq q Hqr) as [Hk _]; unfold upage, kheappage in *; lia)).
    by apply Hnf.
  - assert (Hall : forall q, p <= q < p + n -> kheappage q /\ (~ covers lo q) /\ present (view (vm_machine x) q) = true).
    { intros q Hqr. destruct (Hq q Hqr) as [Hk Hpr]. split_and!; [done| |done]. intros Hc.
      apply (rg_absent _ _ _ _ (mo_osvmap _ _ _ _ _ Hok)) in Hc. unfold vm_machine in Hpr. congruence. }
    assert (p + n <= NPAGES).
    { destruct (Hall (p + n - 1) ltac:(lia)) as [Hk _]. unfold kheappage, NPAGES in *. lia. }
    destruct (free_pages_spec _ fs lu lo lk p n Hok Hp Hn) as (m & lo' & s' & fs' & Hr' & Hok' & Hf & _); [done|done|].
    rewrite Hr in Hr'. injection Hr' as ->. split; [by exists fs', lu, lo', lk|]. intros q Hu.
    change (is_file s' q = false). unfold is_file in *.
    rewrite (rp_view _ _ _ _ _ _ _ Hf) by auto with krlean. case_decide; [done|by apply Hnf].
Qed.

End Isolation.

(** ** Protection without the bounds of user space

    [vmprotect] writes entries through the self-mapping: on a page of the page tables it
    changes an entry of the directory.  What every such change keeps is the frame and
    the presence of each word of memory. *)

Definition same_words (s s' : machine) : Prop :=
  cr3 s' = cr3 s /\ forall f i, present (phys s' f i) = present (phys s f i)
    /\ BTOP (phys s' f i) = BTOP (phys s f i) /\ (is_u32 (phys s f i) -> is_u32 (phys s' f i)).

Lemma same_words_trans s1 s2 s3 : same_words s1 s2 -> same_words s2 s3 -> same_words s1 s3.
Proof.
  intros [C1 H1] [C2 H2]. split; [congruence|]. intros f i.
  destruct (H1 f i) as (P1 & B1 & U1), (H2 f i) as (P2 & B2 & U2). split_and!; [congruence|congruence|auto].
Qed.

Section SameWords.
Context (s s' : machine) (Hw : same_words s s').

Lemma same_dirent i : present (dirent s' i) = present (dirent s i) /\ BTOP (dirent s' i) = BTOP (dirent s i).
Proof. unfold dirent. destruct Hw as [-> H]. by destruct (H (cr3 s) i) as (? & ? & _). Qed.

Lemma same_dir_ok : dir_ok s -> dir_ok s'.
Proof.
  intros [[Hp5 Hb5] Hs Hd Hi]. pose proof same_dirent as Hde. pose proof (proj1 Hw) as Hc.
  constructor; try (destruct (Hde 576) as [-> ->]; by rewrite Hc).
  - by destruct (Hde 577) as [-> _].
  - destruct (Hde 577) as [_ ->]. simpl in *. destruct (proj2 Hw (BTOP (dirent s 577)) 1) as (-> & -> & _). by rewrite Hc.
  - intros i j Hir Hjr. destruct (Hde i) as [-> ->], (Hde j) as [-> ->]. by apply Hi.
Qed.
End SameWords.

Lemma present_bit e : present e = Z.testbit e 0.
Proof. apply (truthy_land_pow2 e 0). lia. Qed.

Lemma reprotect_word v flags : is_u32 v -> present v = true -> 0 <= flags < 4096 ->
  present (reprotect v flags) = true /\ BTOP (reprotect v flags) = BTOP v /\ is_u32 (reprotect v flags).
Proof.
  intros Hu Hp Hf. pose proof (protect_flags v flags Hf) as Hl. unfold reprotect.
  set (g := Z.lor (Z.land (Z.land v PT_FLAGMASK) _) flags) in *.
  assert (Hsum : Z.lor (Z.land v PT_PFNMASK) g = v / 4096 * 4096 + g).
  { rewrite land_PFNMASK by done. by apply (lor_low (v / 4096) g 12). }
  split_and!.
  - rewrite present_bit in *. rewrite Z.lor_spec, Z.land_spec. unfold g. rewrite Z.lor_spec, !Z.land_spec, Hp. done.
  - rewrite Hsum, !BTOP_div. lia_mod.
  - rewrite Hsum. unfold is_u32 in *. lia_mod.
Qed.

(** The word that holds the entry of page [q]. *)
Lemma entry_word s q r : dir_ok s -> 0 <= q < NPAGES -> 0 <= r < NPAGES ->
  present (dirent s (q / 1024)) = true -> present (dirent s (r / 1024)) = true ->
  BTOP (dirent s (q / 1024)) = BTOP (dirent s (r / 1024)) -> q mod 1024 = r mod 1024 -> q = r.
Proof.
  intros Hd Hq Hr Hpq Hpr Hb Hm. apply (do_inj _ Hd) in Hb; [|unfold NPAGES in *; lia_mod..|done|done]. lia_mod.
Qed.

(** One page, whatever it holds. *)
Lemma protect_any s q flags : dir_ok s -> (forall f i, is_u32 (phys s f i)) -> 0 <= q < NPAGES -> 0 <= flags < 4096 ->
  exists s', (if present (view s q) then
      old <~ get_page_flags s (q * 4096);
      set_page_flags s (q * 4096) (Z.lor (Z.land old (u32 (Z.lnot PT_PROTECTMASK))) flags) else Ret s) = Ret s'
    /\ same_words s s'
    /\ forall r, 0 <= r < NPAGES -> present (view s r) = true ->
         view s' r = if decide (r = q) then reprotect (view s q) flags else view s r.
Proof.
  intros Hd Hu Hq Hf. destruct (page_base q Hq) as (Hua & Hdv & _). destruct (present (view s q)) eqn:Hp.
  2:{ exists s. split; [done|]. split; [by split|]. intros r Hr Hpr. rewrite decide_False; [done|]. intros ->. congruence. }
  assert (Hso : is_Some (pte_at s (q * 4096 / 4096))) by (rewrite Hdv; by apply present_some).
  rewrite (get_page_flags_spec s Hd _ Hua Hso), Hdv. cbn [obind]. unfold set_page_flags.
  rewrite (GET_PTE_view s Hd _ Hua Hso), Hdv. cbn [obind]. rewrite Hdv in Hso.
  assert (Hpd : present (dirent s (q / 1024)) = true).
  { unfold pte_at in Hso. destruct (present (dirent _ _)); [done|]. by destruct Hso. }
  unfold SET_PTE, PTABIDX. rewrite Z.shiftr_div_pow2 by lia. change (2 ^ 12) with 4096.
  rewrite Hdv, (store_pte s Hd) by done. eexists. split; [reflexivity|].
  set (t := BTOP (dirent s (q / 1024))) in *. set (v := view s q) in *. fold (reprotect v flags).
  assert (Hv : phys s t (q mod 1024) = v).
  { unfold v, view, pte_at. by rewrite Hpd. }
  destruct (reprotect_word v flags) as (Hrp & Hrb & Hru); [rewrite <- Hv; apply Hu|done|done|].
  set (s' := set_phys s _).
  assert (Hw : same_words s s').
  { split; [done|]. intros f i. simpl. unfold put_word. destruct (Z.eqb_spec f t) as [->|]; [|done].
    destruct (Z.eqb_spec i (q mod 1024)) as [->|]; [|done]. rewrite Hv, Hrp, Hrb. done. }
  split; [done|]. intros r Hr Hpr. unfold view, pte_at.
  destruct (same_dirent s s' Hw (r / 1024)) as [-> ->].
  destruct (present (dirent s (r / 1024))) eqn:Hpdr.
  2:{ unfold view, pte_at in Hpr. by rewrite Hpdr in Hpr. }
  simpl. unfold put_word. destruct (decide (r = q)) as [->|Hne]; [fold t; by rewrite !Z.eqb_refl|].
  destruct (Z.eqb_spec (BTOP (dirent s (r / 1024))) t) as [Hb|]; [|done].
  destruct (Z.eqb_spec (r mod 1024) (q mod 1024)) as [Hm|]; [|done].
  exfalso. apply Hne. by apply (entry_word s).
Qed.

Lemma protect_any_loop n s p flags : dir_ok s -> (forall f i, is_u32 (phys s f i)) ->
  0 <= p -> p + Z.of_nat n <= NPAGES -> 0 <= flags < 4096 ->
  exists s', protect_loop s (u32 (p * 4096)) n flags = Ret s' /\ same_words s s'
    /\ forall r, 0 <= r < NPAGES -> present (view s r) = true ->
         view s' r = if decide (p <= r < p + Z.of_nat n) then reprotect (view s r) flags else view s r.
Proof.
  revert s p. induction n as [|n IH]; intros s p Hd Hu Hp Hpn Hf.
  { exists s. split; [done|]. split; [by split|]. intros r _ _. by rewrite decide_False by lia. }
  destruct (page_base p ltac:(lia)) as (Hua & Hdv & _). rewrite u32_small by done.
  destruct (protect_any s p flags Hd Hu ltac:(lia) Hf) as (s1 & Hs1 & Hw1 & Hv1).
  simpl. rewrite (page_mapped_spec s Hd), Hdv by done. cbn [obind]. rewrite Hs1. cbn [obind].
  replace (u32 (p * 4096 + PAGESIZE)) with (u32 ((p + 1) * 4096)) by (f_equal; unfold PAGESIZE; lia).
  destruct (IH s1 (p + 1)) as (s2 & Hs2 & Hw2 & Hv2); [by eapply same_dir_ok| |lia|lia|done|].
  { intros f i. by apply (proj2 Hw1 f i). }
  exists s2. split; [done|]. split; [by eapply same_words_trans|]. intros r Hr Hpr.
  assert (Hpr1 : present (view s1 r) = true).
  { rewrite Hv1 by done. case_decide; [|done]. subst r. apply reprotect_word; [|done|done].
    unfold view, pte_at. destruct (present (dirent _ _)); [apply Hu|by vm_compute]. }
  rewrite Hv2, Hv1 by done.
  destruct (decide (p + 1 <= r < _)), (decide (r = p)), (decide (p <= r < _)); subst; (done || lia).
Qed.

Lemma reprotect_user v : present v = true ->
  Z.land (reprotect v (Z.lor PT_USER PT_WRITABLE)) PT_USER_WRITE = PT_USER_WRITE.
Proof.
  intros Hp. rewrite present_bit in Hp.
  change PT_USER_WRITE with 7. apply Z.bits_inj_iff'. intros k Hk. unfold reprotect.
  rewrite Z.land_spec, !Z.lor_spec, !Z.land_spec.
  destruct (decide (k = 0)) as [->|]; [by rewrite Hp|].
  destruct (decide (k = 1)) as [->|]; [by rewrite !orb_true_r|].
  destruct (decide (k = 2)) as [->|]; [by rewrite !orb_true_r|].
  rewrite (testbit_small 7 k); [by rewrite andb_false_r|]. pose proof (Z.pow_le_mono_r 2 3 k). lia.
Qed.

(** ** Where the limits are not kept

    Neither [valid_range] nor [PAGES] looks at the carry. *)

(** [PAGES] wraps: for a size of the last page below 4 GB the number of pages is 0, and
    [vmalloc] of almost 4 GB succeeds whenever any range is free.  It answers the start of
    the first free range and reserves nothing. *)
Lemma vmalloc_size_wraps st lu e l protect size tag :
  region (mach st) upage (vmap st) lu -> lu = e :: l -> 0xFFFFF000 < size < 2 ^ 32 ->
  exists m, vmalloc st 0 size MEM_RESERVE protect tag
      = Ret (r_offset e * 4096, 0, set_vmap st m) /\ r_offset e <> 0 /\ rep m lu.
Proof.
  intros Hreg -> Hs. pose proof (rg_rep _ _ _ _ Hreg) as Hrep.
  assert (He : 16 <= r_offset e < 0x80000 /\ 0 < r_size e /\ rend e < 2 ^ 32).
  { pose proof (rg_wf _ _ _ _ Hreg) as (H1 & H2 & H3 & _).
    assert (upage (r_offset e)) as Hu by (apply (rg_area _ _ _ _ Hreg); exists e; unfold in_range; split; [set_solver|lia]).
    unfold upage in Hu. lia. }
  assert (Hp : PAGES size = 0).
  { unfold PAGES, PAGESIZE, u32, uwrap. rewrite Z.shiftr_div_pow2 by lia. change (2 ^ 12) with 4096. lia_mod. }
  unfold vmalloc. rewrite (proj2 (Z.eqb_neq size 0)) by lia. rewrite Hp. simpl.
  unfold reserve. simpl. unfold rmap_alloc.
  pose proof (slot_scan_result (fun x => 0 <=? r_size x) _ _ Hrep) as Hr. cbn [first_fit] in Hr.
  rewrite (proj2 (Z.leb_le 0 (r_size e))) in Hr by lia. destruct Hr as (_ & _ & _ & Hsl & -> & ->).
  rewrite (proj2 (Z.ltb_lt 0 (r_size e))) by lia. rewrite PTOB_mul by (unfold NPAGES; lia).
  rewrite (proj2 (Z.eqb_neq (r_offset e * 4096) 0)) by lia. unfold commit_pages. simpl.
  eexists. split; [reflexivity|]. split; [lia|].
  rewrite Z.add_0_r, Z.sub_0_r, !u32_small by (unfold is_u32, rend in *; lia).
  replace (Rent (r_offset e) (r_size e)) with e by (by destruct e). by apply (rep_update _ [] e e l).
Qed.

(** [valid_range] does not look at the carry either.  Let a process have reserved the
    last [k] pages of user space, so that no free range lies behind.  For a size up to the
    end of the address space the end of the range is 0, which is not a kernel address,
    and [rmap_status] finds nothing free: [vmprotect] of the range succeeds, every frame
    stays where it was, and every present page of the kernel passes the check that
    system calls make of the buffers of a process. *)
Lemma vmprotect_exposes_kernel st lu k :
  dir_ok (mach st) -> (forall f i, is_u32 (phys (mach st) f i)) -> region (mach st) upage (vmap st) lu ->
  0 < k < 0x80000 - 16 -> (forall p, covers lu p -> p < 0x80000 - k) ->
  exists s', vmprotect st ((0x80000 - k) * 4096) (2 ^ 32 - (0x80000 - k) * 4096) PAGE_READWRITE
      = Ret (0, set_mach st s')
    /\ forall q, 0x80000 <= q < NPAGES -> present (view (mach st) q) = true ->
         BTOP (view s' q) = BTOP (view (mach st) q) /\ accessible s' q PT_USER_WRITE.
Proof.
  intros Hd Hu Hreg Hk Hfree. set (a := 0x80000 - k). set (size := 2 ^ 32 - a * 4096).
  assert (Hp : PAGES size = NPAGES - a).
  { unfold PAGES, PAGESIZE, NPAGES. rewrite u32_small by (unfold is_u32; lia).
    rewrite Z.shiftr_div_pow2 by lia. change (2 ^ 12) with 4096. lia_mod. }
  assert (Ha : is_u32 (a * 4096)) by (unfold is_u32; lia).
  destruct (protect_any_loop (Z.to_nat (NPAGES - a)) (mach st) a (Z.lor PT_USER PT_WRITABLE) Hd Hu)
    as (s' & Hl & Hw & Hv); [lia|unfold NPAGES; lia|by vm_compute|]. rewrite u32_small in Hl by done.
  exists s'. unfold vmprotect. rewrite (proj2 (Z.eqb_neq size 0)) by lia.
  rewrite PAGEADDR_div, Z.div_mul by (done || lia).
  assert (valid_range (vmap st) (a * 4096) size = true) as ->.
  { unfold valid_range. rewrite (u32_small size), Hp by (unfold is_u32; lia).
    rewrite (proj2 (Z.ltb_ge _ _)) by (unfold VMEM_START; lia).
    replace (u32 _) with 0; [|unfold u32, uwrap, PAGESIZE, NPAGES; lia_mod].
    change (KERNELSPACE 0) with false. rewrite BTOP_div, Z.div_mul by lia.
    pose proof (rmap_status_spec (vmap st) lu a (NPAGES - a) (rg_rep _ _ _ _ Hreg) (rg_wf _ _ _ _ Hreg)
      ltac:(unfold NPAGES; lia) ltac:(unfold NPAGES; lia) ltac:(lia)) as [[_ Hc]|[[-> _]|(_ & (y & Hy & Hc) & _)]]; [|done|].
    - specialize (Hfree a (Hc a ltac:(unfold in_range, NPAGES; lia))). lia.
    - apply Hfree in Hc. unfold in_range in Hy. lia. }
  rewrite Hp. change (pte_flags_from_protect PAGE_READWRITE) with (Z.lor PT_USER PT_WRITABLE).
  simpl negb. cbn match. rewrite (proj2 (Z.eqb_neq _ NOFLAGS)) by done. rewrite Hl. split; [done|].
  intros q Hq Hpq. assert (Hvq := Hv q ltac:(lia) Hpq). rewrite decide_True in Hvq by (unfold NPAGES in *; lia).
  assert (Huq : is_u32 (view (mach st) q)).
  { unfold view, pte_at. destruct (present (dirent _ _)); [apply Hu|by vm_compute]. }
  destruct (reprotect_word (view (mach st) q) (Z.lor PT_USER PT_WRITABLE) Huq Hpq) as (Hrp & Hrb & _); [by vm_compute|].
  rewrite Hvq. split; [done|]. exists (view s' q). split; [|rewrite Hvq; by apply reprotect_user].
  apply view_some, present_some. by rewrite Hvq.
Qed.

(** ** Witnesses *)

Lemma ex_vmalloc : exists p rc st' fs' lu',
  vmalloc (ex_mem ex_lo) 0 8192 (Z.lor MEM_COMMIT MEM_RESERVE) PAGE_READWRITE 0 = Ret (p * 4096, rc, st')
  /\ mem_ok st' fs' lu' ex_lo ex_lk.
Proof.
  destruct (vmalloc_spec (ex_mem ex_lo) ex_free ex_lu ex_lo ex_lk 0 8192 (Z.lor MEM_COMMIT MEM_RESERVE)
    PAGE_READWRITE 0 ex_lo_ok) as [[_ Hl]|(p & rc & st' & fs' & lu' & Hr & Hok & _)];
    [by vm_compute|by vm_compute|by vm_compute|vm_compute in Hl; lia|].
  exists p, rc, st', fs', lu'. split; [exact Hr|exact Hok].
Qed.


Lemma ex_user_range : user_range ex_lu 0x12 1.
Proof.
  split; [done|]. split; [done|]. intros q Hq. unfold ex_lu. rewrite !covers_cons, covers_nil.
  unfold in_range in *. simpl. lia.
Qed.

#[export] Instance ex_services : FileServices unit := {
  hlookup _ _ := None;
  wait_filemap w _ := Ret (0, w);
  unlock_filemap w _ := Ret (0, w);
  olock_filemap w _ := (None, w);
  orel_filemap w _ := w;
  olock_file w _ := (None, w);
  orel_file w _ := w;
  pread w s _ _ _ _ := Ret (0, w, s);
  pwrite w _ _ _ _ _ := Ret (0, w);
  hprotect w _ := w;
  hunprotect w _ := w;
  hfree w _ := Ret (0, w);
  new_filemap w st := Ret (None, w, st);
  halloc_filemap w _ := (0, w);
  halloc_file w _ := (0, w);
}.

Definition ex_vms : vms unit := Vms (ex_mem ex_lo) (fun _ => 0) (fun _ => Filemap 0 0 0 0 0 0 0) tt.

Lemma ex_no_file q : upage q -> is_file (vm_machine ex_vms) q = false.
Proof.
  intros Hq. unfold is_file. change (vm_machine ex_vms) with ex_machine.
  rewrite ex_view; [|apply (upage_plain q Hq)|left; by left]. by destruct (q =? 0x12).
Qed.



(** The last 16 pages of user space are reserved. *)
Definition ex_top : list rent := [Rent 16 2; Rent 19 (0x80000 - 16 - 19)].

Lemma ex_words f i : is_u32 (ex_phys f i).
Proof. unfold ex_phys. repeat case_match; by vm_compute. Qed.

