(* ===== verification/Hndl.v ===== *)
(** * Hndl: the object handle table of src/src/sys/krnl/hndl.c

    [htab] is an array of machine words.  A word with bit 31 set is the address of
    an object, with bit 0 as its protection flag; any other word links the slot
    into the list of free slots, which [HEND] ends.  Objects are reached through
    the handle manager's view of [struct object]: their type and two counts. *)

From S2P Require Import Prelude Pframe.
Local Open Scope krlean_scope.

Definition OSBASE : Z := 0x80000000.
Definition HPROTECT : Z := 1.
Definition HEND : Z := 0x7FFFFFFF.
Definition HTABSIZE : Z := 0x01000000.
Definition HANDLES_PER_PAGE : nat := 1024.
Definition OBJECT_ANY : Z := -1.
Definition TAG_HTAB : Z := tag4 0x48 0x54 0x41 0x42.

Definition HOBJ (x : Z) : Z := Z.land x (Z.lnot HPROTECT).
Definition HPROT (x : Z) : bool := truthy (Z.land x HPROTECT).
Definition HUSED (x : Z) : bool := truthy (Z.land x OSBASE).

Record object := Object { o_type : Z; handle_count : Z; lock_count : Z }.

Record hstate := HState {
  htab : list Z;               (* the mapped part of the table: [htabsize] words *)
  hfreelist : Z;
  objs : gmap Z object;        (* the live objects, by address *)
  pages : pfstate;
}.

Definition htabsize (s : hstate) : Z := Z.of_nat (length (htab s)).

Definition set_htab (s : hstate) (h : nat) (w : Z) : hstate :=
  HState (<[h := w]> (htab s)) (hfreelist s) (objs s) (pages s).
Definition set_hfreelist (s : hstate) (w : Z) : hstate :=
  HState (htab s) w (objs s) (pages s).
Definition set_objs (s : hstate) (os : gmap Z object) : hstate :=
  HState (htab s) (hfreelist s) os (pages s).
Definition upd_obj (s : hstate) (o : Z) (x : object) : hstate := set_objs s (<[o := x]> (objs s)).

(** What the handle manager calls in the object manager (object.c): the two
    results of [close_object] and [destroy_object] and their effect on the
    objects.  The laws are what it relies on: closing changes no count and frees
    nothing, destroying frees the object and nothing else. *)
Class ObjectManager := {
  close_object : gmap Z object -> Z -> Z * gmap Z object;
  destroy_object : gmap Z object -> Z -> Z * gmap Z object;
  close_object_frame : forall os o rc os', close_object os o = (rc, os') -> os' = os;
  destroy_object_frame : forall os o rc os', destroy_object os o = (rc, os') -> os' = delete o os;
}.

Section Handles.
Context `{OM : ObjectManager}.

(** [for (h = htabsize + HANDLES_PER_PAGE - 1; h >= htabsize; h--)] *)
Fixpoint link_page (s : hstate) (base n : nat) : hstate :=
  match n with
  | O => s
  | S n' =>
      let h := (base + n')%nat in
      link_page (set_hfreelist (set_htab s h (hfreelist s)) (Z.of_nat h)) base n'
  end.

Definition expand_htab (s : hstate) : outcome (Z * hstate) :=
  if htabsize s =? HTABSIZE / 4 then Ret (- ENFILE, s)
  else
    '(_, pf) <~ alloc_pageframe (pages s) TAG_HTAB;
    (* the page mapped behind the table: its words are undefined until linked *)
    let s := HState (htab s ++ replicate HANDLES_PER_PAGE 0) (hfreelist s) (objs s) pf in
    Ret (0, link_page s (length (htab s) - HANDLES_PER_PAGE) HANDLES_PER_PAGE).

(** The loop of [remove_from_freelist] never changes [fl]. *)
Fixpoint unlink_loop (fuel : nat) (s : hstate) (h : nat) (fl : Z) : outcome (Z * hstate) :=
  if fl =? HEND then Ret (- EBADF, s)
  else
    match fuel with
    | O => Diverge
    | S fuel =>
        w <~ deref (htab s !! Z.to_nat fl);
        if Z.of_nat h =? w then
          x <~ deref (htab s !! h);
          Ret (0, set_htab s (Z.to_nat fl) x)
        else unlink_loop fuel s h fl
    end.

Definition remove_from_freelist (fuel : nat) (s : hstate) (h : nat) : outcome (Z * hstate) :=
  if Z.of_nat h =? hfreelist s then
    x <~ deref (htab s !! h);
    Ret (0, set_hfreelist s x)
  else unlink_loop fuel s h (hfreelist s).

(** NULL is [None]. *)
Definition hlookup (s : hstate) (h : Z) : option Z :=
  if (h <? 0) || (htabsize s <=? h) then None
  else
    w ← htab s !! Z.to_nat h;
    if HUSED w then Some (HOBJ w) else None.

Definition add_handle (s : hstate) (o : Z) : outcome hstate :=
  x <~ deref (objs s !! o);
  Ret (upd_obj s o (Object (o_type x) (u16 (handle_count x + 1)) (lock_count x))).

Definition halloc (s : hstate) (o : Z) : outcome (Z * hstate) :=
  '(rc, s) <~ (if hfreelist s =? HEND then expand_htab s else Ret (0, s));
  if rc <? 0 then Ret (rc, s)
  else
    let h := hfreelist s in
    w <~ deref (htab s !! Z.to_nat h);
    let s := set_htab (set_hfreelist s w) (Z.to_nat h) o in
    s <~ add_handle s o;
    Ret (h, s).

(** [--o->handle_count], with the new count. *)
Definition drop_handle (s : hstate) (o : Z) : outcome (Z * hstate) :=
  x <~ deref (objs s !! o);
  let n := u16 (handle_count x - 1) in
  Ret (n, upd_obj s o (Object (o_type x) n (lock_count x))).

(** [rc = close_object(o); if (o->lock_count == 0) destroy_object(o);] *)
Definition close_last (s : hstate) (o : Z) : outcome (Z * hstate) :=
  let '(rc, os) := close_object (objs s) o in
  let s := set_objs s os in
  x <~ deref (objs s !! o);
  Ret (rc, if lock_count x =? 0 then set_objs s (destroy_object (objs s) o).2 else s).

Definition hfree (s : hstate) (h : Z) : outcome (Z * hstate) :=
  match hlookup s h with
  | None => Ret (- EBADF, s)
  | Some o =>
      w <~ deref (htab s !! Z.to_nat h);
      if HPROT w then Ret (- EACCES, s)
      else
        let s := set_hfreelist (set_htab s (Z.to_nat h) (hfreelist s)) h in
        '(n, s) <~ drop_handle s o;
        if 0 <? n then Ret (0, s) else close_last s o
  end.

Fixpoint grow (fuel : nat) (s : hstate) (h : Z) : outcome (Z * hstate) :=
  if htabsize s <=? h then
    match fuel with
    | O => Diverge
    | S fuel =>
        '(rc, s) <~ expand_htab s;
        if rc <? 0 then Ret (rc, s) else grow fuel s h
    end
  else Ret (0, s).

Definition hassign (fuel : nat) (s : hstate) (o h : Z) : outcome (Z * hstate) :=
  if HTABSIZE / 4 <? u32 h then Ret (- EBADF, s)
  else
    '(rc, s) <~ grow fuel s h;
    if rc <? 0 then Ret (rc, s)
    else
      w <~ deref (htab s !! Z.to_nat h);
      '(rc, s) <~
        (if negb (HUSED w) then remove_from_freelist fuel s (Z.to_nat h)
         else if HPROT w then Ret (- EACCES, s)
         else
           '(n, s) <~ drop_handle s (HOBJ w);
           if n =? 0 then close_last s (HOBJ w) else Ret (0, s));
      if rc <? 0 then Ret (rc, s)
      else
        s <~ add_handle (set_htab s (Z.to_nat h) o) o;
        Ret (0, s).

Definition hprotect (s : hstate) (h : Z) : outcome (Z * hstate) :=
  match hlookup s h with
  | None => Ret (- EBADF, s)
  | Some _ =>
      w <~ deref (htab s !! Z.to_nat h);
      Ret (0, set_htab s (Z.to_nat h) (Z.lor w HPROTECT))
  end.

Definition hunprotect (s : hstate) (h : Z) : outcome (Z * hstate) :=
  match hlookup s h with
  | None => Ret (- EBADF, s)
  | Some _ =>
      w <~ deref (htab s !! Z.to_nat h);
      Ret (0, set_htab s (Z.to_nat h) (Z.land w (Z.lnot HPROTECT)))
  end.

Definition olock (s : hstate) (h type : Z) : outcome (option Z * hstate) :=
  match hlookup s h with
  | None => Ret (None, s)
  | Some o =>
      x <~ deref (objs s !! o);
      if negb (o_type x =? type) && negb (type =? OBJECT_ANY) then Ret (None, s)
      else if handle_count x =? 0 then Ret (None, s)
      else Ret (Some o, upd_obj s o (Object (o_type x) (handle_count x) (u16 (lock_count x + 1))))
  end.

Definition orel (s : hstate) (o : Z) : outcome (Z * hstate) :=
  x <~ deref (objs s !! o);
  let n := u16 (lock_count x - 1) in
  let s := upd_obj s o (Object (o_type x) (handle_count x) n) in
  if (n =? 0) && (handle_count x =? 0)
  then let '(rc, os) := destroy_object (objs s) o in Ret (rc, set_objs s os)
  else Ret (0, s).
End Handles.

(** ** The invariant *)

Definition hptr (w : Z) : option nat := if w =? HEND then None else Some (Z.to_nat w).
Definition hnx (s : hstate) (i : nat) : option nat := w ← htab s !! i; hptr w.

Definition refers (o w : Z) : bool := HUSED w && (HOBJ w =? o).
Definition nrefs (s : hstate) (o : Z) : nat := countb (refers o) (htab s).

(** Objects live in the kernel half of the address space, at even addresses. *)
Definition obj_addr (o : Z) : Prop := OSBASE <= o < 2 ^ 32 /\ Z.testbit o 0 = false.

(** A link is [HEND] or the index of a slot; it never looks like an address. *)
Definition link_ok (s : hstate) (w : Z) : Prop := w = HEND \/ 0 <= w < htabsize s.

(** References from the slot [ex], which an operation is about to overwrite. *)
Definition hole_refs (s : hstate) (ex : option nat) (o : Z) : nat :=
  match ex with
  | Some h => match htab s !! h with Some w => Nat.b2n (refers o w) | None => 0%nat end
  | None => 0%nat
  end.

(** [hinv_but ex s fl]: the table is well-formed, [fl] is its free list, every other
    slot but [ex] holds a live object, and the count of an object is the number of
    slots but [ex] that hold it. *)
Record hinv_but (ex : option nat) (s : hstate) (fl : list nat) : Prop := {
  hi_list : seg (hnx s) (hptr (hfreelist s)) fl None;
  hi_head : link_ok s (hfreelist s);
  hi_nodup : NoDup fl;
  hi_links : forall i, i ∈ fl -> exists w, htab s !! i = Some w /\ link_ok s w;
  hi_used : forall i w, htab s !! i = Some w -> i ∉ fl -> ex <> Some i ->
              0 <= w < 2 ^ 32 /\ HUSED w = true /\ is_Some (objs s !! HOBJ w);
  hi_hole : forall h, ex = Some h -> (h ∉ fl) /\ (h < length (htab s))%nat;
  hi_addr : forall o, is_Some (objs s !! o) -> obj_addr o;
  hi_count : forall o x, objs s !! o = Some x ->
              handle_count x + Z.of_nat (hole_refs s ex o) = Z.of_nat (nrefs s o)
              /\ 0 <= handle_count x < 2 ^ 16;
  hi_size : htabsize s <= HTABSIZE / 4 /\ htabsize s mod Z.of_nat HANDLES_PER_PAGE = 0;
  hi_pages : exists fs, inv (pages s) fs;
}.

Definition hinv := hinv_but None.

(** ** Lemmas *)

Lemma HANDLES_PER_PAGE_Z : Z.of_nat HANDLES_PER_PAGE = 1024.
Proof. reflexivity. Qed.

Local Opaque HANDLES_PER_PAGE.

Lemma HUSED_bit w : HUSED w = Z.testbit w 31.
Proof. apply (truthy_land_pow2 w 31). lia. Qed.

Lemma HUSED_addr o : obj_addr o -> HUSED o = true.
Proof. intros [? _]. rewrite HUSED_bit. apply testbit_top; unfold OSBASE in *; lia. Qed.

Lemma HUSED_link s w : htabsize s <= HTABSIZE / 4 -> link_ok s w -> HUSED w = false.
Proof.
  intros Hs Hw. rewrite HUSED_bit. apply testbit_small.
  change (HTABSIZE / 4) with 4194304 in Hs. destruct Hw; unfold HEND in *; lia.
Qed.

Lemma HOBJ_addr o : obj_addr o -> HOBJ o = o.
Proof.
  intros [_ H0]. unfold HOBJ, HPROTECT. rewrite <- Z.ldiff_land. apply Z.bits_inj_iff'.
  intros n Hn. rewrite Z.ldiff_spec. destruct (decide (n = 0)) as [->|].
  - by rewrite H0.
  - change 1 with (2 ^ 0). rewrite Z.pow2_bits_false by lia. apply andb_true_r.
Qed.

Lemma HOBJ_bits w n : 0 <= n -> Z.testbit (HOBJ w) n = Z.testbit w n && negb (n =? 0).
Proof.
  intros Hn. unfold HOBJ, HPROTECT. rewrite <- Z.ldiff_land, Z.ldiff_spec.
  change 1 with (2 ^ 0). by rewrite Z.pow2_bits_eqb, Z.eqb_sym by lia.
Qed.

Lemma hptr_link s w i : link_ok s w -> hptr w = Some i -> w = Z.of_nat i /\ (i < length (htab s))%nat.
Proof.
  unfold hptr, htabsize, link_ok. zcase; [done|]. intros [?|?] [= <-]; unfold htabsize in *; lia.
Qed.

Lemma hinv_head s fl : hinv s fl ->
  match fl with
  | [] => hfreelist s = HEND
  | h :: _ => hfreelist s = Z.of_nat h /\ (h < length (htab s))%nat
  end.
Proof.
  intros Hi. pose proof (hi_list _ _ _ Hi) as Hl. destruct fl as [|h fl]; simpl in Hl.
  - unfold hptr in Hl. destruct (_ =? HEND) eqn:?; by zify_bool.
  - destruct Hl as [Hl _]. eapply hptr_link; [apply Hi|done].
Qed.

Lemma nrefs_insert s h w w' o :
  htab s !! h = Some w ->
  (nrefs (set_htab s h w') o + Nat.b2n (refers o w) = nrefs s o + Nat.b2n (refers o w'))%nat.
Proof. intros Hw. unfold nrefs. simpl. by apply countb_insert. Qed.

Lemma hnx_insert_ne s h w i : i <> h -> hnx (set_htab s h w) i = hnx s i.
Proof. intros. unfold hnx. simpl. by rewrite list_lookup_insert_ne. Qed.

Lemma hnx_insert_eq s h w : (h < length (htab s))%nat -> hnx (set_htab s h w) h = hptr w.
Proof. intros. unfold hnx. simpl. by rewrite list_lookup_insert_eq. Qed.

Lemma refers_link s w o : htabsize s <= HTABSIZE / 4 -> link_ok s w -> refers o w = false.
Proof. intros Hs Hw. unfold refers. by rewrite (HUSED_link s). Qed.

(** A slot of the free list, or a slot in use, seen through [hlookup]. *)
Lemma hlookup_slot s h w :
  htab s !! h = Some w ->
  hlookup s (Z.of_nat h) = if HUSED w then Some (HOBJ w) else None.
Proof.
  intros Hw. apply lookup_lt_Some in Hw as Hlt. unfold hlookup, htabsize.
  rewrite (proj2 (Z.ltb_ge _ 0)), (proj2 (Z.leb_gt _ _)), Nat2Z.id, Hw by lia. done.
Qed.

Lemma hlookup_Some s h o :
  hlookup s h = Some o <->
  exists w, 0 <= h /\ htab s !! Z.to_nat h = Some w /\ HUSED w = true /\ HOBJ w = o.
Proof.
  unfold hlookup, htabsize. split.
  - destruct (_ || _) eqn:Hr; [done|]. zify_bool.
    destruct (htab s !! Z.to_nat h) as [w|] eqn:Hw; simpl; [|done].
    destruct (HUSED w) eqn:Hu; [|done]. intros [= <-]. by exists w.
  - intros (w & H0 & Hw & Hu & <-). apply lookup_lt_Some in Hw as Hlt.
    rewrite (proj2 (Z.ltb_ge _ 0)), (proj2 (Z.leb_gt _ _)), Hw by lia. simpl. by rewrite Hu.
Qed.

Lemma hlookup_insert_ne s h h' w :
  h' <> Z.of_nat h -> hlookup (set_htab s h w) h' = hlookup s h'.
Proof.
  intros Hne. unfold hlookup, htabsize. simpl. rewrite length_insert.
  destruct (_ || _) eqn:Hr; [done|]. zify_bool.
  by rewrite list_lookup_insert_ne by lia.
Qed.

Lemma hlookup_set_objs s os h : hlookup (set_objs s os) h = hlookup s h.
Proof. done. Qed.

Lemma link_page_spec s base n l :
  (base + n <= length (htab s))%nat -> Z.of_nat (length (htab s)) < HEND ->
  link_ok s (hfreelist s) -> (forall i, i ∈ l -> i < base \/ base + n <= i)%nat ->
  seg (hnx s) (hptr (hfreelist s)) l None ->
  let s' := link_page s base n in
  objs s' = objs s /\ pages s' = pages s /\ length (htab s') = length (htab s)
  /\ (forall i, (i < base \/ base + n <= i)%nat -> htab s' !! i = htab s !! i)
  /\ seg (hnx s') (hptr (hfreelist s')) (seq base n ++ l) None /\ link_ok s (hfreelist s')
  /\ (forall i, (base <= i < base + n)%nat -> exists w, htab s' !! i = Some w /\ link_ok s w).
Proof.
  revert s l. induction n as [|n IH]; intros s l Hlen Hend Hok Hl Hseg; simpl.
  { split_and!; try done. lia. }
  set (s1 := set_hfreelist (set_htab s (base + n) (hfreelist s)) (Z.of_nat (base + n))).
  assert (Hs1 : htabsize s1 = htabsize s) by (unfold htabsize; simpl; by rewrite length_insert).
  assert (Hlk : forall w, link_ok s1 w <-> link_ok s w) by (unfold link_ok; by rewrite Hs1).
  assert (Hseg1 : seg (hnx s1) (hptr (hfreelist s1)) ((base + n)%nat :: l) None).
  { simpl. unfold hptr at 1. rewrite (proj2 (Z.eqb_neq _ HEND)), Nat2Z.id by lia.
    split; [done|]. change (hnx s1) with (hnx (set_htab s (base + n) (hfreelist s))).
    rewrite hnx_insert_eq by lia. eapply seg_ext; [|exact Hseg].
    intros i Hi. apply hnx_insert_ne. specialize (Hl i Hi). lia. }
  destruct (IH s1 ((base + n)%nat :: l)) as (-> & -> & -> & Hsame & Hsg & Hhd & Hlinks).
  - simpl. rewrite length_insert. lia.
  - simpl. rewrite length_insert. lia.
  - right. unfold htabsize. simpl. rewrite length_insert. lia.
  - intros i [->|Hi]%elem_of_cons; [lia|]. specialize (Hl i Hi). lia.
  - done.
  - rewrite cons_middle, (assoc_L (++)), <- seq_S in Hsg. simpl in Hsg |- *.
    rewrite length_insert. split_and!; try done; try apply Hsg.
    + intros i Hi. rewrite Hsame by lia. simpl. apply list_lookup_insert_ne. lia.
    + by apply Hlk.
    + intros i Hi. destruct (decide (i = base + n)%nat) as [->|].
      * rewrite Hsame by lia. simpl. rewrite list_lookup_insert_eq by lia. by eexists.
      * destruct (Hlinks i) as (w & ? & ?%Hlk); [lia|]. by eexists.
Qed.

Lemma countb_links s s' o k :
  htabsize s <= HTABSIZE / 4 ->
  (forall i w, k !! i = Some w -> link_ok s w) -> countb (refers o) (s' ++ k) = countb (refers o) s'.
Proof.
  intros Hs Hk. rewrite countb_app. rewrite (proj2 (countb_zero _ k)); [lia|].
  apply Forall_lookup. intros i w Hi. eapply refers_link; eauto.
Qed.

(** A new page of the table: its slots join the free list, the others keep theirs. *)
Lemma expand_htab_spec s fl :
  hinv s fl ->
  (exists s', expand_htab s = Ret (0, s') /\ hinv s' (seq (length (htab s)) HANDLES_PER_PAGE ++ fl)
     /\ objs s' = objs s /\ (forall o, nrefs s' o = nrefs s o)
     /\ (forall h, hlookup s' h = hlookup s h)
     /\ htabsize s' = htabsize s + Z.of_nat HANDLES_PER_PAGE)
  \/ (expand_htab s = Ret (- ENFILE, s) /\ htabsize s = HTABSIZE / 4)
  \/ (expand_htab s = Panic /\ freemem (pages s) = 0).
Proof.
  intros Hi. destruct (hi_pages _ _ _ Hi) as [fs Hpg]. destruct (hi_size _ _ _ Hi) as [Hsz Hmod].
  unfold expand_htab. zcase; [by right; left|].
  pose proof (alloc_pageframe_spec _ _ TAG_HTAB Hpg) as Ha. destruct fs as [|f fs].
  { right. right. rewrite Ha. split; [done|]. by rewrite (inv_count _ _ Hpg). }
  destruct Ha as (pf & -> & Hpg' & _). left. simpl obind.
  set (s0 := HState (htab s ++ replicate HANDLES_PER_PAGE 0) (hfreelist s) (objs s) pf).
  assert (Hl0 : length (htab s0) = (length (htab s) + HANDLES_PER_PAGE)%nat)
    by (unfold s0; cbn [htab]; by rewrite length_app, length_replicate).
  assert (Hz0 : htabsize s0 = htabsize s + Z.of_nat HANDLES_PER_PAGE)
    by (unfold htabsize; lia).
  assert (Hsz0 : htabsize s0 <= HTABSIZE / 4).
  { rewrite Hz0. change (HTABSIZE / 4) with (4096 * 1024) in *.
    rewrite HANDLES_PER_PAGE_Z in *.
    pose proof (Z.div_mod (htabsize s) 1024 ltac:(done)). lia. }
  assert (Hold : forall i w, htab s !! i = Some w -> htab s0 !! i = Some w)
    by (intros i w Hiw; simpl; by apply lookup_app_l_Some).
  assert (Hlk : forall w, link_ok s w -> link_ok s0 w).
  { unfold link_ok. rewrite Hz0. intros w [->|?]; [by left|right]. lia. }
  assert (Hfl : forall i, i ∈ fl -> (i < length (htab s))%nat).
  { intros i (w & Hw & _)%(hi_links _ _ _ Hi). by apply lookup_lt_Some in Hw. }
  replace (length (htab s ++ replicate HANDLES_PER_PAGE (0 : Z)) - HANDLES_PER_PAGE)%nat
    with (length (htab s)) by (rewrite length_app, length_replicate; lia).
  destruct (link_page_spec s0 (length (htab s)) HANDLES_PER_PAGE fl) as
    (Ho & Hp & Hln & Hsame & Hsg & Hhd & Hlinks).
  { lia. } { change HEND with 2147483647. change (HTABSIZE / 4) with 4194304 in Hsz0.
    unfold htabsize in *. lia. } { apply Hlk, Hi. } { intros i Hin. left. auto. }
  { eapply seg_ext; [|apply Hi]. intros i (w & Hw & _)%(hi_links _ _ _ Hi).
    unfold hnx. by rewrite Hw, (Hold _ _ Hw). }
  set (s' := link_page s0 _ _) in *. clearbody s'.
  assert (Hold' : forall i w, htab s !! i = Some w -> htab s' !! i = Some w).
  { intros i w Hw. rewrite Hsame; [auto|]. apply lookup_lt_Some in Hw. lia. }
  assert (Hz' : htabsize s' = htabsize s0) by (unfold htabsize; congruence).
  assert (Hlk' : forall w, link_ok s' w <-> link_ok s0 w) by (unfold link_ok; by rewrite Hz').
  assert (Hcases : forall i w, htab s' !! i = Some w ->
    htab s !! i = Some w \/ (length (htab s) <= i)%nat /\ link_ok s0 w).
  { intros i w Hw. destruct (decide (i < length (htab s))%nat).
    - left. destruct (lookup_lt_is_Some_2 (htab s) i) as [w' Hw']; [done|].
      rewrite (Hold' _ _ Hw') in Hw. congruence.
    - right. split; [lia|]. apply lookup_lt_Some in Hw as Hlt.
      destruct (Hlinks i) as (w' & Hw' & ?); [lia|]. congruence. }
  assert (Hnr : forall o, nrefs s' o = nrefs s o).
  { intros o. unfold nrefs.
    assert (Htk : take (length (htab s)) (htab s') = htab s).
    { apply list_eq. intros i. destruct (decide (i < length (htab s))%nat).
      - rewrite lookup_take_lt by done. destruct (lookup_lt_is_Some_2 (htab s) i) as [w Hw]; [done|].
        by rewrite Hw, (Hold' _ _ Hw).
      - rewrite lookup_take_ge, (lookup_ge_None_2 (htab s)) by lia. done. }
    rewrite <- (take_drop (length (htab s)) (htab s')), Htk.
    apply (countb_links s0); [done|]. intros i w. rewrite lookup_drop.
    intros [Hw|[_ ?]]%Hcases; [apply lookup_lt_Some in Hw; lia|done]. }
  exists s'. split_and!; try done.
  - constructor; try done.
    + by apply Hlk'.
    + apply NoDup_app. split_and!; [apply NoDup_seq| |apply Hi].
      intros i Hin%elem_of_seq ?%Hfl. lia.
    + intros i [Hin|Hin]%elem_of_app.
      * destruct (Hlinks i) as (w & ? & ?); [apply elem_of_seq in Hin; lia|].
        exists w. by rewrite Hlk'.
      * destruct (hi_links _ _ _ Hi i Hin) as (w & Hw & ?). exists w.
        rewrite Hlk', (Hold' _ _ Hw). auto.
    + intros i w Hw Hin _. rewrite Ho. apply (hi_used _ _ _ Hi i); [|intros ?|done].
      * destruct (Hcases _ _ Hw) as [?|[? _]]; [done|]. destruct Hin.
        apply elem_of_app. left. apply elem_of_seq. apply lookup_lt_Some in Hw. lia.
      * apply Hin. apply elem_of_app. by right.
    + rewrite Ho. apply Hi.
    + rewrite Ho. intros o x Hx. rewrite Hnr. by apply (hi_count _ _ _ Hi).
    + rewrite Hz'. split; [done|]. rewrite Hz0, HANDLES_PER_PAGE_Z in *.
      by rewrite Zplus_mod, Hmod.
    + rewrite Hp. by exists fs.
  - intros h. apply option_eq. intros o. rewrite !hlookup_Some. split; intros (w & H0 & Hw & Hu & Ho').
    + destruct (Hcases _ _ Hw) as [?|[_ Hlkw]]; [by exists w|].
      rewrite (HUSED_link s0) in Hu by done. done.
    + exists w. auto.
  - lia.
Qed.

(** *** Slots and counts *)

Lemma hole_pop s fl h :
  hinv s (h :: fl) ->
  exists w, htab s !! h = Some w /\ HUSED w = false /\ hfreelist s = Z.of_nat h
    /\ hinv_but (Some h) (set_hfreelist s w) fl.
Proof.
  intros Hi. destruct (hi_links _ _ _ Hi h) as (w & Hw & Hlk); [left|].
  destruct (hi_size _ _ _ Hi) as [Hsz _].
  pose proof (hi_list _ _ _ Hi) as [Hh Hl]. pose proof (hi_nodup _ _ _ Hi) as [? ?]%NoDup_cons.
  exists w. split_and!; [done|by eapply HUSED_link|by apply (hinv_head _ _ Hi)|].
  constructor; simpl; try apply Hi; try done.
  - unfold hnx in Hl at 2. by rewrite Hw in Hl.
  - intros i Hin. apply (hi_links _ _ _ Hi). by right.
  - intros i w' Hw' Hin Hne. apply (hi_used _ _ _ Hi i); [done| |done].
    intros [->|?]%elem_of_cons; done.
  - intros h' [= <-]. split; [done|]. by eapply lookup_lt_Some.
  - intros o x Hx. rewrite Hw, (refers_link s) by done. apply (hi_count _ _ _ Hi o x Hx).
Qed.

Lemma hole_link s fl h :
  hinv_but (Some h) s fl ->
  hinv (set_hfreelist (set_htab s h (hfreelist s)) (Z.of_nat h)) (h :: fl).
Proof.
  intros Hi. destruct (hi_hole _ _ _ Hi h eq_refl) as [Hnf Hlt].
  destruct (hi_size _ _ _ Hi) as [Hsz Hmod]. pose proof (hi_head _ _ _ Hi) as Hhd.
  destruct (lookup_lt_is_Some_2 _ _ Hlt) as [w Hw].
  assert (Hz : forall x, htabsize (set_hfreelist (set_htab s h (hfreelist s)) x) = htabsize s)
    by (intros; unfold htabsize; simpl; by rewrite length_insert).
  assert (Hlk : forall x y, link_ok (set_hfreelist (set_htab s h (hfreelist s)) x) y <-> link_ok s y)
    by (intros; unfold link_ok; by rewrite Hz).
  constructor; try rewrite !Hz; try done; try apply Hi.
  - simpl. unfold hptr at 1. rewrite (proj2 (Z.eqb_neq _ HEND)), Nat2Z.id
      by (change (HTABSIZE / 4) with 4194304 in Hsz; unfold htabsize, HEND in *; lia).
    split; [done|]. change (hnx _ h) with (hnx (set_htab s h (hfreelist s)) h).
    rewrite hnx_insert_eq by done. eapply seg_ext; [|apply Hi].
    intros i Hin. apply (hnx_insert_ne s). intros ->. done.
  - apply Hlk. right. unfold htabsize. simpl. lia.
  - apply NoDup_cons. split; [done|apply Hi].
  - intros i Hin. destruct (decide (i = h)) as [->|].
    + exists (hfreelist s). simpl. by rewrite list_lookup_insert_eq, Hlk by done.
    + apply elem_of_cons in Hin as [?|Hin]; [done|].
      destruct (hi_links _ _ _ Hi i Hin) as (w' & ? & ?). exists w'. simpl.
      by rewrite list_lookup_insert_ne, Hlk by done.
  - intros i w' Hw' Hin _. simpl in *. apply not_elem_of_cons in Hin as [? ?].
    rewrite list_lookup_insert_ne in Hw' by done. apply (hi_used _ _ _ Hi i); congruence.
  - intros o x Hx. destruct (hi_count _ _ _ Hi o x Hx) as [Hc Hr].
    pose proof (nrefs_insert s h w (hfreelist s) o Hw) as Hn.
    rewrite (refers_link s _ o Hsz Hhd) in Hn. simpl in *. rewrite Hw in Hc.
    change (nrefs (set_hfreelist _ _) o) with (nrefs (set_htab s h (hfreelist s)) o). lia.
Qed.

Lemma hole_assign s fl h o x :
  hinv_but (Some h) s fl -> objs s !! o = Some x -> handle_count x + 1 < 2 ^ 16 ->
  let s' := upd_obj (set_htab s h o) o (Object (o_type x) (handle_count x + 1) (lock_count x)) in
  add_handle (set_htab s h o) o = Ret s' /\ hinv s' fl.
Proof.
  intros Hi Hx Hlt s'. unfold add_handle. simpl. rewrite Hx. simpl.
  destruct (hi_count _ _ _ Hi o x Hx) as [_ Hr].
  unfold u16, uwrap. rewrite Z.mod_small by lia. split; [done|].
  destruct (hi_hole _ _ _ Hi h eq_refl) as [Hnf Hh].
  pose proof (hi_addr _ _ _ Hi o (ex_intro _ _ Hx)) as Ha.
  destruct (lookup_lt_is_Some_2 _ _ Hh) as [w Hw].
  assert (Hz : htabsize s' = htabsize s) by (unfold htabsize; simpl; by rewrite length_insert).
  assert (Hlk : forall y, link_ok s' y <-> link_ok s y) by (intros; unfold link_ok; by rewrite Hz).
  assert (Hdom : forall a, is_Some (objs s' !! a) <-> is_Some (objs s !! a)).
  { intros a. simpl. destruct (decide (a = o)) as [->|].
    - rewrite lookup_insert_eq, Hx. by split.
    - by rewrite lookup_insert_ne. }
  constructor; try rewrite !Hz; try done; try apply Hi.
  - eapply seg_ext; [|apply Hi]. intros i Hin. apply (hnx_insert_ne s). intros ->. done.
  - apply Hlk, Hi.
  - intros i Hin. destruct (hi_links _ _ _ Hi i Hin) as (w' & ? & ?). exists w'. simpl.
    rewrite list_lookup_insert_ne, Hlk by (intros ->; done). done.
  - intros i w' Hw' Hin _. rewrite Hdom. simpl in Hw'. destruct (decide (i = h)) as [->|].
    + rewrite list_lookup_insert_eq in Hw' by done. injection Hw' as <-.
      rewrite HOBJ_addr, Hx by done.
      split_and!; try (destruct Ha; unfold OSBASE in *; lia); [by apply HUSED_addr|by eexists].
    + rewrite list_lookup_insert_ne in Hw' by done. apply (hi_used _ _ _ Hi i); congruence.
  - intros a Ha'%Hdom. by apply Hi.
  - intros a y Hy. pose proof (nrefs_insert s h w o a Hw) as Hn.
    change (nrefs s' a) with (nrefs (set_htab s h o) a). simpl hole_refs.
    unfold refers at 2 in Hn. rewrite (HUSED_addr o Ha), (HOBJ_addr o Ha) in Hn.
    simpl in Hy, Hn. destruct (decide (a = o)) as [->|Hne].
    + rewrite lookup_insert_eq in Hy. injection Hy as <-. simpl.
      destruct (hi_count _ _ _ Hi o x Hx) as [Hc _]. simpl in Hc. rewrite Hw in Hc.
      rewrite Z.eqb_refl in Hn. simpl in Hn. lia.
    + rewrite lookup_insert_ne in Hy by done.
      destruct (hi_count _ _ _ Hi a y Hy) as [Hc ?]. simpl in Hc. rewrite Hw in Hc.
      rewrite (proj2 (Z.eqb_neq _ _)) in Hn by done. simpl in Hn. lia.
Qed.

(** Dropping the reference of a used slot. *)
Lemma hole_drop s fl h w :
  hinv s fl -> htab s !! h = Some w -> HUSED w = true ->
  exists x, objs s !! HOBJ w = Some x /\ 0 < handle_count x /\
    let x' := Object (o_type x) (handle_count x - 1) (lock_count x) in
    drop_handle s (HOBJ w) = Ret (handle_count x - 1, upd_obj s (HOBJ w) x')
    /\ hinv_but (Some h) (upd_obj s (HOBJ w) x') fl.
Proof.
  intros Hi Hw Hu. destruct (hi_size _ _ _ Hi) as [Hsz _].
  assert (Hnf : h ∉ fl).
  { intros (w' & Hw' & Hl)%(hi_links _ _ _ Hi). rewrite Hw in Hw'. injection Hw' as <-.
    rewrite (HUSED_link s) in Hu by done. done. }
  destruct (hi_used _ _ _ Hi h w Hw Hnf ltac:(done)) as (_ & _ & [x Hx]).
  destruct (hi_count _ _ _ Hi _ x Hx) as [Hc Hr]. simpl in Hc.
  assert (Href : refers (HOBJ w) w = true) by (unfold refers; by rewrite Hu, Z.eqb_refl).
  pose proof (countb_pos _ _ _ _ Hw Href) as Hpos. fold (nrefs s (HOBJ w)) in Hpos.
  exists x. unfold drop_handle. rewrite Hx. simpl. unfold u16, uwrap.
  rewrite Z.mod_small by lia. split_and!; [done|lia|done|].
  constructor; try done; try apply Hi; simpl.
  - intros i w' Hw' Hin Hne. destruct (hi_used _ _ _ Hi i w' Hw' Hin ltac:(done)) as (?&?&Hs).
    split_and!; [lia|lia|done|]. destruct (decide (HOBJ w = HOBJ w')) as [->|].
    + by rewrite lookup_insert_eq.
    + by rewrite lookup_insert_ne.
  - intros h' [= <-]. split; [done|]. by eapply lookup_lt_Some.
  - intros a [y Hy]. apply (hi_addr _ _ _ Hi). destruct (decide (HOBJ w = a)) as [<-|].
    + by eexists.
    + rewrite lookup_insert_ne in Hy by done. by eexists.
  - intros a y Hy. rewrite Hw. change (nrefs (upd_obj _ _ _) a) with (nrefs s a).
    destruct (decide (HOBJ w = a)) as [<-|Hne].
    + rewrite lookup_insert_eq in Hy. injection Hy as <-. rewrite Href. simpl. lia.
    + rewrite lookup_insert_ne in Hy by done. destruct (hi_count _ _ _ Hi a y Hy) as [Hc' ?].
      simpl in Hc'. unfold refers. rewrite (proj2 (Z.eqb_neq _ _)) by done.
      rewrite andb_false_r. simpl. lia.
Qed.

Section Theorems.
Context `{OM : ObjectManager}.

(** The last handle is gone: the object is closed, and destroyed if it is not locked. *)
Lemma close_last_spec ex s fl o x :
  hinv_but ex s fl -> objs s !! o = Some x -> handle_count x = 0 ->
  let s' := set_objs s (if lock_count x =? 0 then delete o (objs s) else objs s) in
  exists rc, close_last s o = Ret (rc, s') /\ hinv_but ex s' fl.
Proof.
  intros Hi Hx H0 s'. unfold close_last.
  destruct (close_object (objs s) o) as [rc os] eqn:Hc. apply close_object_frame in Hc as ->.
  simpl. rewrite Hx. simpl. exists rc.
  destruct (destroy_object (objs s) o) as [rc' os] eqn:Hd.
  apply destroy_object_frame in Hd as ->. unfold s'. simpl.
  destruct (hi_count _ _ _ Hi o x Hx) as [Hn _].
  zcase; (split; [done|]); [|by destruct s].
  assert (Hno : forall i w, htab s !! i = Some w -> ex <> Some i -> refers o w = false).
  { intros i w Hw Hex. destruct (refers o w) eqn:Hr; [|done].
    pose proof (countb_pos _ _ _ _ Hw Hr) as Hp. fold (nrefs s o) in Hp.
    destruct ex as [h|]; simpl in Hn; [|lia].
    destruct (htab s !! h) as [wh|] eqn:Hwh; [|simpl in Hn; lia].
    destruct (refers o wh) eqn:Hrh; simpl in Hn; [|lia].
    pose proof (nrefs_insert s h wh 0 o Hwh) as Hins. rewrite Hrh in Hins. simpl in Hins.
    assert (htab (set_htab s h 0) !! i = Some w) as Hw'
      by (simpl; rewrite list_lookup_insert_ne; congruence).
    pose proof (countb_pos _ _ _ _ Hw' Hr) as Hp'. fold (nrefs (set_htab s h 0) o) in Hp'. lia. }
  constructor; try done; try apply Hi; simpl.
  - intros i w Hw Hin Hex. destruct (hi_used _ _ _ Hi i w Hw Hin Hex) as (? & Hu & Hs).
    split_and!; [lia|lia|done|]. rewrite lookup_delete_ne; [done|].
    intros ->. specialize (Hno i w Hw Hex). unfold refers in Hno.
    by rewrite Hu, Z.eqb_refl in Hno.
  - intros a [y Hy]. apply (hi_addr _ _ _ Hi). apply lookup_delete_Some in Hy as [_ ?]. by eexists.
  - intros a y Hy. apply lookup_delete_Some in Hy as [_ Hy]. apply (hi_count _ _ _ Hi a y Hy).
Qed.



Lemma hassign_mapped fuel s h :
  htabsize s <= HTABSIZE / 4 -> 0 <= h < htabsize s ->
  (HTABSIZE / 4 <? u32 h) = false /\ grow fuel s h = Ret (0, s).
Proof.
  intros Hs Hh. change (HTABSIZE / 4) with 4194304 in *.
  rewrite u32_small by (unfold is_u32; lia). split; [lia|].
  destruct fuel; simpl; rewrite (proj2 (Z.leb_gt _ _)) by lia; done.
Qed.

(** [hassign] on a handle in use: the old object loses the
    handle, and is closed when it was the last one; the handle, and no other, then
    looks up to the new object.  If that close fails, [hassign] returns its error
    code with the table unchanged, although the old object may be destroyed: an
    unlocked one is, and the handle still looks up to it. *)
Lemma hassign_in_use fuel s fl h w o x :
  hinv s fl -> 0 <= h -> htab s !! Z.to_nat h = Some w -> HUSED w = true -> HPROT w = false ->
  objs s !! o = Some x -> handle_count x + 1 < 2 ^ 16 -> o <> HOBJ w ->
  exists rc s', hassign fuel s o h = Ret (rc, s') /\
    ((rc = 0 /\ hinv s' fl /\ hlookup s' h = Some o
        /\ (forall h', h' <> h -> hlookup s' h' = hlookup s h'))
     \/ (rc < 0 /\ htab s' = htab s
        /\ forall x', objs s !! HOBJ w = Some x' -> handle_count x' = 1
             /\ (lock_count x' = 0 -> hlookup s' h = Some (HOBJ w) /\ objs s' !! HOBJ w = None))).
Proof.
  intros Hi H0 Hw Hu Hp Hx Hlt Hne. apply lookup_lt_Some in Hw as Hlen.
  destruct (hi_size _ _ _ Hi) as [Hsz _].
  destruct (hassign_mapped fuel s h Hsz) as [Hr Hg]; [unfold htabsize; lia|].
  unfold hassign. rewrite Hr, Hg. cbn [obind Z.ltb Z.compare]. rewrite Hw. cbn [deref obind].
  rewrite Hu, Hp. cbn [negb].
  destruct (hole_drop s fl (Z.to_nat h) w Hi Hw Hu) as (y & Hy & Hpos & -> & Hhole).
  cbn [obind]. set (y' := Object _ _ _) in *. set (s1 := upd_obj s (HOBJ w) y') in *.
  assert (Hdone : forall s2, hinv_but (Some (Z.to_nat h)) s2 fl -> htab s2 = htab s ->
    objs s2 !! o = Some x ->
    exists s', (s <~ add_handle (set_htab s2 (Z.to_nat h) o) o; Ret (0, s)) = Ret (0, s')
      /\ hinv s' fl /\ hlookup s' h = Some o
      /\ forall h', h' <> h -> hlookup s' h' = hlookup s h').
  { intros s2 Hh2 Ht2 Hx2. destruct (hole_assign _ _ _ o x Hh2 Hx2 Hlt) as [-> Hi'].
    pose proof (hi_addr _ _ _ Hh2 o (ex_intro _ _ Hx2)) as Ha.
    cbn [obind]. eexists. split_and!; [done|done| |].
    - unfold upd_obj. rewrite hlookup_set_objs. rewrite <- (Z2Nat.id h) at 2 by lia.
      rewrite (hlookup_slot _ _ o) by (simpl; apply list_lookup_insert_eq; by rewrite Ht2).
      by rewrite HUSED_addr, HOBJ_addr.
    - intros h' Hne'. unfold upd_obj. rewrite hlookup_set_objs, hlookup_insert_ne by lia.
      unfold hlookup, htabsize. by rewrite Ht2. }
  assert (Hx1 : objs s1 !! o = Some x) by (simpl; by rewrite lookup_insert_ne).
  zcase.
  - destruct (close_last_spec _ _ _ (HOBJ w) y' Hhole) as (rc & -> & Hh2).
    { simpl. apply lookup_insert_eq. } { simpl. lia. }
    cbn [obind]. set (s2 := set_objs s1 _) in *. zcase.
    + exists rc, s2. split; [done|]. right. split_and!; [done|done|].
      intros x' Hx'. rewrite Hy in Hx'. injection Hx' as <-. split; [lia|]. intros Hlk.
      split; [apply hlookup_Some; by exists w|].
      unfold s2. simpl. rewrite Hlk. simpl. apply lookup_delete_eq.
    + destruct (Hdone s2 Hh2 eq_refl) as (s' & Hs' & ?).
      { unfold s2. simpl. zcase; [rewrite lookup_delete_ne by done|]; done. }
      exists 0, s'. split; [done|]. left. done.
  - cbn [obind Z.ltb Z.compare]. destruct (Hdone s1 Hhole eq_refl Hx1) as (s' & Hs' & ?).
    exists 0, s'. split; [done|]. left. done.
Qed.

(** [hassign] to a free handle never returns unless the handle is one of the
    first two of the free list: the search loop of [remove_from_freelist] does not
    advance. *)
Lemma hassign_free_diverges fuel s a b rest h o :
  hinv s (a :: b :: rest) -> h ∈ rest -> hassign fuel s o (Z.of_nat h) = Diverge.
Proof.
  intros Hi Hin. destruct (hi_size _ _ _ Hi) as [Hsz _].
  destruct (hi_links _ _ _ Hi h) as (w & Hw & Hlk); [set_solver|].
  apply lookup_lt_Some in Hw as Hlen.
  destruct (hassign_mapped fuel s (Z.of_nat h) Hsz) as [Hr Hg]; [unfold htabsize; lia|].
  unfold hassign. rewrite Hr, Hg. cbn [obind Z.ltb Z.compare]. rewrite Nat2Z.id, Hw.
  cbn [deref obind]. rewrite (HUSED_link s) by done. cbn [negb].
  pose proof (hi_nodup _ _ _ Hi) as Hnd. rewrite !NoDup_cons in Hnd.
  destruct Hnd as (Hna & Hnb & _).
  destruct (hinv_head _ _ Hi) as [Hh Hla]. unfold remove_from_freelist. rewrite Hh.
  rewrite (proj2 (Z.eqb_neq _ _)) by (intros ?; set_solver by lia).
  pose proof (hi_list _ _ _ Hi) as (_ & Hl & _). unfold hnx in Hl.
  destruct (lookup_lt_is_Some_2 _ _ Hla) as [wa Hwa]. rewrite Hwa in Hl. simpl in Hl.
  destruct (hi_links _ _ _ Hi a) as (wa' & Hwa' & Hlka); [left|]. rewrite Hwa in Hwa'.
  injection Hwa' as <-. destruct (hptr_link _ _ _ Hlka Hl) as [-> _].
  assert (Hloop : forall n, unlink_loop n s h (Z.of_nat a) = Diverge).
  { change (HTABSIZE / 4) with 4194304 in Hsz.
    induction n as [|n IH]; simpl; rewrite (proj2 (Z.eqb_neq _ HEND))
      by (unfold htabsize, HEND in *; lia); [done|].
    rewrite Nat2Z.id, Hwa. cbn [deref obind].
    rewrite (proj2 (Z.eqb_neq _ _)) by (intros ?%Nat2Z.inj; set_solver). done. }
  by rewrite Hloop.
Qed.


(** The lock count is no part of the invariant. *)
Lemma hinv_lock s fl o x n :
  hinv s fl -> objs s !! o = Some x ->
  hinv (upd_obj s o (Object (o_type x) (handle_count x) n)) fl.
Proof.
  intros Hi Hx. set (s1 := upd_obj _ _ _).
  assert (Hdom : forall a, is_Some (objs s1 !! a) <-> is_Some (objs s !! a)).
  { intros a. simpl. destruct (decide (o = a)) as [<-|].
    - rewrite lookup_insert_eq, Hx. split; by eexists.
    - by rewrite lookup_insert_ne. }
  constructor; try done; try apply Hi.
  - intros i w Hw Hin Hex. rewrite Hdom. by apply (hi_used _ _ _ Hi i).
  - intros a Ha%Hdom. by apply Hi.
  - intros a y Hy. simpl in Hy. destruct (decide (o = a)) as [<-|].
    + rewrite lookup_insert_eq in Hy. injection Hy as <-. apply (hi_count _ _ _ Hi _ _ Hx).
    + rewrite lookup_insert_ne in Hy by done. apply (hi_count _ _ _ Hi _ _ Hy).
Qed.

Lemma orel_spec s fl o x :
  hinv s fl -> objs s !! o = Some x -> 0 < lock_count x < 2 ^ 16 ->
  exists rc s', orel s o = Ret (rc, s') /\ hinv s' fl
    /\ objs s' = if (lock_count x =? 1) && (handle_count x =? 0) then delete o (objs s)
                 else <[o := Object (o_type x) (handle_count x) (lock_count x - 1)]> (objs s).
Proof.
  intros Hi Hx Hl. unfold orel. rewrite Hx. cbn [deref obind]. unfold u16, uwrap.
  rewrite Z.mod_small by lia.
  pose proof (hinv_lock s fl o x (lock_count x - 1) Hi Hx) as Hi1.
  set (s1 := upd_obj _ _ _) in *.
  replace (lock_count x =? 1) with (lock_count x - 1 =? 0) by lia.
  destruct (_ && _) eqn:Hz; [|by eauto].
  zify_bool. destruct (destroy_object (objs s1) o) as [rc os] eqn:Hd.
  apply destroy_object_frame in Hd as ->. do 2 eexists. split; [done|].
  assert (Hx1 : objs s1 !! o = Some (Object (o_type x) (handle_count x) (lock_count x - 1)))
    by (simpl; apply lookup_insert_eq).
  destruct (close_last_spec None s1 fl o _ Hi1 Hx1 ltac:(done)) as (_ & _ & Hi2).
  simpl in Hi2. rewrite (proj2 (Z.eqb_eq _ 0)) in Hi2 by lia.
  split; [exact Hi2|]. simpl. apply delete_insert_eq.
Qed.

(** C17: [olock] hands out only an object that the handle looks up to, that has a
    handle and the type asked for, with one more lock; [orel] takes a lock away and
    destroys the object exactly when that was its last lock and no handle is left.
    Both keep the table well-formed, and [orel] undoes [olock]. *)
Theorem olock_orel_correct s fl h type o s' :
  hinv s fl -> olock s h type = Ret (Some o, s') ->
  exists x, hlookup s h = Some o /\ objs s !! o = Some x /\ 0 < handle_count x
    /\ (o_type x = type \/ type = OBJECT_ANY) /\ hinv s' fl
    /\ objs s' = <[o := Object (o_type x) (handle_count x) (u16 (lock_count x + 1))]> (objs s)
    /\ forall s1 fl1 y, hinv s1 fl1 -> objs s1 !! o = Some y -> 0 < lock_count y < 2 ^ 16 ->
         exists rc s2, orel s1 o = Ret (rc, s2) /\ hinv s2 fl1
           /\ objs s2 = if (lock_count y =? 1) && (handle_count y =? 0) then delete o (objs s1)
               else <[o := Object (o_type y) (handle_count y) (lock_count y - 1)]> (objs s1).
Proof.
  intros Hi. unfold olock. destruct (hlookup s h) as [o'|] eqn:Hl; [|intros [=]].
  destruct (objs s !! o') as [x|] eqn:Hx; [|done]. cbn [deref obind].
  destruct (_ && _) eqn:Ht; [intros [=]|]. zcase; [intros [=]|]. intros [= <- <-].
  destruct (hi_count _ _ _ Hi _ _ Hx) as [_ Hr].
  exists x. split_and!; try done; [lia| |by apply hinv_lock|].
  - destruct Ht as [Ht|Ht]; zify_bool; auto.
  - intros s1 fl1 y. apply orel_spec.
Qed.
End Theorems.

(** ** Witnesses *)

#[local] Program Instance plain_objects : ObjectManager := {
  close_object os _ := (0, os);
  destroy_object os o := (0, delete o os);
}.
Solve Obligations with by intros ???? [= _ <-].

Definition ex_o : Z := 0x80001000.
Definition ex_o2 : Z := 0x80002000.

(** No table yet and two objects; one page of free slots; the first handle in use. *)
Definition ex_empty : hstate :=
  HState [] HEND {[ex_o := Object 3 0 0; ex_o2 := Object 4 0 0]} ex_pfdb.
Definition ex_tab : hstate :=
  match expand_htab ex_empty with Ret (_, s) => s | _ => ex_empty end.
Definition ex_used : hstate :=
  upd_obj (set_htab (set_hfreelist ex_tab 1) 0 ex_o) ex_o (Object 3 1 0).

Lemma ex_objs_lookup o x :
  ({[ex_o := Object 3 0 0; ex_o2 := Object 4 0 0]} : gmap Z object) !! o = Some x ->
  (o = ex_o \/ o = ex_o2) /\ handle_count x = 0.
Proof.
  intros [[<- <-]|[_ [<- <-]%lookup_singleton_Some]]%lookup_insert_Some; auto.
Qed.

Lemma ex_empty_inv : hinv ex_empty [].
Proof.
  constructor; simpl; try done.
  - by left.
  - apply NoDup_nil_2.
  - intros i Hi. by apply elem_of_nil in Hi.
  - intros o [x [[-> | ->] _]%ex_objs_lookup]; (split; [unfold OSBASE, ex_o, ex_o2; lia|done]).
  - intros o x [_ ->]%ex_objs_lookup. done.
  - eexists. apply ex_pfdb_inv.
Qed.

Lemma ex_tab_inv :
  hinv ex_tab (seq 0 HANDLES_PER_PAGE) /\ objs ex_tab = objs ex_empty.
Proof.
  unfold ex_tab.
  destruct (expand_htab_spec ex_empty [] ex_empty_inv) as
    [(s' & -> & Hi & Ho & _)|[[_ H]|[_ H]]]; [|exfalso; vm_compute in H; discriminate H..].
  rewrite app_nil_r in Hi. done.
Qed.

Local Opaque ex_tab.

Lemma ex_tab_head : htab ex_tab !! 0%nat = Some 1.
Proof. vm_compute. reflexivity. Qed.

Lemma ex_hole : hinv_but (Some 0%nat) (set_hfreelist ex_tab 1) (seq 1 (pred HANDLES_PER_PAGE)).
Proof.
  destruct ex_tab_inv as [Hi _].
  replace (seq 0 HANDLES_PER_PAGE) with (0%nat :: seq 1 (pred HANDLES_PER_PAGE)) in Hi
    by reflexivity.
  destruct (hole_pop _ _ _ Hi) as (w & Hw & _ & _ & Hh).
  rewrite ex_tab_head in Hw. by injection Hw as <-.
Qed.

Lemma objs_set_hfreelist s w : objs (set_hfreelist s w) = objs s.
Proof. reflexivity. Qed.

Lemma ex_used_inv : hinv ex_used (seq 1 (pred HANDLES_PER_PAGE)).
Proof.
  destruct ex_tab_inv as [_ Ho].
  destruct (hole_assign _ _ 0 ex_o (Object 3 0 0) ex_hole) as [_ H].
  - rewrite objs_set_hfreelist, Ho. reflexivity.
  - reflexivity.
  - exact H.
Qed.




Definition ex_locked : hstate := upd_obj ex_used ex_o (Object 3 1 1).

Lemma ex_olock : olock ex_used 0 3 = Ret (Some ex_o, ex_locked).
Proof. vm_compute. reflexivity. Qed.

Lemma olock_orel_correct_witness :
  olock ex_used 0 3 = Ret (Some ex_o, ex_locked)
  /\ exists x, hlookup ex_used 0 = Some ex_o /\ objs ex_used !! ex_o = Some x.
Proof.
  split; [exact ex_olock|].
  destruct (olock_orel_correct ex_used _ 0 3 ex_o ex_locked ex_used_inv ex_olock)
    as (x & H1 & H2 & _).
  exists x. exact (conj H1 H2).
Defined.
