(* ===== verification/Dlist.v ===== *)
(** * Dlist: doubly linked lists

    The kernel links its timers, threads, wait blocks and buffers into doubly linked
    lists, through two pointer fields of the nodes.  [links] is the two fields of all
    nodes; [ring] is a circular list through a header node, [dlist] a list that ends
    with NULL and is reached from a head and a tail variable.  The components translate
    their pointer stores into [set_nx] and [set_pv]; the lemmas say what the stores do
    to the lists. *)

From stdpp Require Import functions.
From S2P Require Import Prelude.
Local Open Scope krlean_scope.

Section Definitions.
Context {A : Type} `{EqDecision A}.

Record links := Links { nx : A -> option A; pv : A -> option A }.

Definition set_nx (k : links) (x : A) (y : option A) : links := Links (<[x := y]> (nx k)) (pv k).
Definition set_pv (k : links) (x : A) (y : option A) : links := Links (nx k) (<[x := y]> (pv k)).

(** All links NULL. *)
Definition no_links : links := Links (fun _ => None) (fun _ => None).

(** The circular list through the header [h] with the nodes [l]. *)
Definition ring (k : links) (h : A) (l : list A) : Prop :=
  seg (nx k) (Some h) (h :: l) (Some h) /\ seg (pv k) (Some h) (h :: reverse l) (Some h)
  /\ NoDup (h :: l).

(** The list with the nodes [l] between the variables [first] and [last]. *)
Definition dlist (k : links) (first last : option A) (l : list A) : Prop :=
  seg (nx k) first l None /\ seg (pv k) last (reverse l) None /\ NoDup l.

(** [x->next = h; x->prev = h->prev; h->prev->next = x; h->prev = x;] *)
Definition ring_add (k : links) (h x : A) : outcome links :=
  let k := set_nx k x (Some h) in
  let k := set_pv k x (pv k h) in
  p <~ deref (pv k h);
  let k := set_nx k p (Some x) in
  Ret (set_pv k h (Some x)).

(** [x->next->prev = x->prev; x->prev->next = x->next;] *)
Definition ring_del (k : links) (x : A) : outcome links :=
  n <~ deref (nx k x);
  let k := set_pv k n (pv k x) in
  p <~ deref (pv k x);
  Ret (set_nx k p (nx k x)).
End Definitions.
Arguments links A : clear implicits.

Section Lemmas.
Context {A : Type} `{EqDecision A}.
Implicit Types (f : A -> option A) (k : links A) (l : list A).

Lemma seg_store f s l t z y : z ∉ l -> seg (<[z := y]> f) s l t <-> seg f s l t.
Proof.
  intros Hz. split; apply seg_ext; intros i Hi; rewrite fn_lookup_insert_ne; congruence.
Qed.

(** [x], which points where [z] points, is linked in after [z]. *)
Lemma seg_insert_after f s a z b t x :
  seg f s (a ++ z :: b) t -> f x = f z -> z ∉ a ++ b -> x ∉ a ++ z :: b ->
  seg (<[z := Some x]> f) s (a ++ z :: x :: b) t.
Proof.
  rewrite !seg_app. intros (m & Ha & -> & Hb) Hx Hz Hn. exists (Some z).
  rewrite seg_store by set_solver. split; [done|]. simpl. split; [done|].
  rewrite fn_lookup_insert. split; [done|].
  rewrite fn_lookup_insert_ne, Hx by set_solver. rewrite seg_store by set_solver. done.
Qed.

(** [z] is made to point where its successor [x] points. *)
Lemma seg_skip f s a z x b t :
  seg f s (a ++ z :: x :: b) t -> z ∉ a ++ b ->
  seg (<[z := f x]> f) s (a ++ z :: b) t.
Proof.
  rewrite !seg_app. intros (m & Ha & -> & Hz & Hb) Hn. exists (Some z).
  rewrite seg_store by set_solver. split; [done|]. simpl. split; [done|].
  rewrite fn_lookup_insert. by rewrite seg_store by set_solver.
Qed.

Lemma ring_nodup k h l : ring k h l -> NoDup (h :: l).
Proof. by intros (_ & _ & ?). Qed.

Lemma ring_next k h l : ring k h l -> nx k h = head (l ++ [h]).
Proof. intros ((_ & Hf) & _). destruct l; [done|]. by destruct Hf as [-> _]. Qed.

Lemma ring_empty k h : nx k h = Some h -> pv k h = Some h -> ring k h [].
Proof. intros Hn Hp. split_and!; [done|done|]. apply NoDup_singleton. Qed.

(** Stores to other nodes do not matter. *)
Lemma ring_ext k k' h l :
  (forall x, x ∈ h :: l -> nx k' x = nx k x /\ pv k' x = pv k x) -> ring k h l -> ring k' h l.
Proof.
  intros Heq (Hf & Hb & Hn). split_and!; [| |done].
  - eapply seg_ext; [|exact Hf]. intros i Hi. by apply Heq.
  - eapply seg_ext; [|exact Hb]. intros i Hi. apply Heq.
    rewrite elem_of_cons, elem_of_reverse in Hi. by rewrite elem_of_cons.
Qed.

Lemma ring_prev k h l : ring k h l -> pv k h = last (h :: l).
Proof.
  intros (_ & (_ & Hb) & _). destruct l as [|z l _] using rev_ind; [done|].
  rewrite reverse_snoc in Hb. destruct Hb as [-> _]. by rewrite app_comm_cons, last_snoc.
Qed.

Lemma ring_add_spec k h l x :
  ring k h l -> x ∉ h :: l ->
  exists k', ring_add k h x = Ret k' /\ ring k' h (l ++ [x])
    /\ forall y, y ∉ x :: h :: l -> nx k' y = nx k y /\ pv k' y = pv k y.
Proof.
  intros Hr Hx. pose proof (ring_prev _ _ _ Hr) as Hp. destruct Hr as (Hf & Hb & Hn).
  destruct (exists_last (l:=h :: l)) as (l' & z & Hz); [done|].
  rewrite Hz, last_snoc in Hp. unfold ring_add. cbn [set_nx set_pv nx pv].
  rewrite fn_lookup_insert_ne by set_solver. rewrite Hp. cbn [deref obind].
  eexists. split; [done|].
  rewrite Hz in Hn, Hx, Hf. assert (z ∉ l') by (apply NoDup_app in Hn; set_solver).
  split.
  - split_and!; simpl nx; simpl pv; cbn [set_nx set_pv nx pv].
    + rewrite app_comm_cons, Hz, <- (assoc_L (++)). simpl. apply seg_insert_after.
      * rewrite seg_store; done.
      * rewrite fn_lookup_insert, fn_lookup_insert_ne by set_solver.
        apply seg_app in Hf as (m & _ & _ & ->). done.
      * by rewrite app_nil_r.
      * done.
    + rewrite reverse_snoc. rewrite <- Hz in Hx, Hn. apply NoDup_cons in Hn as [Hn _].
      apply (seg_insert_after _ (Some h) [] h (reverse l)); simpl.
      * rewrite <- Hp. rewrite fn_lookup_insert_ne by set_solver. split; [done|].
        rewrite seg_store by (rewrite elem_of_reverse; set_solver). apply Hb.
      * rewrite fn_lookup_insert, fn_lookup_insert_ne by set_solver. done.
      * by rewrite elem_of_reverse.
      * rewrite elem_of_cons, elem_of_reverse. set_solver.
    + rewrite app_comm_cons, Hz. apply NoDup_app. split_and!; [done| |apply NoDup_singleton].
      set_solver.
  - intros y Hy. assert (z ∈ h :: l) by (rewrite Hz; set_solver).
    cbn [set_nx set_pv nx pv]. rewrite !fn_lookup_insert_ne by set_solver. done.
Qed.

Lemma ring_del_spec k h a x b :
  ring k h (a ++ x :: b) ->
  exists k', ring_del k x = Ret k' /\ ring k' h (a ++ b)
    /\ forall y, y ∉ h :: a ++ b -> nx k' y = nx k y /\ pv k' y = pv k y.
Proof.
  intros (Hf & Hb & Hn). destruct (exists_last (l:=h :: a)) as (a' & p & Hp); [done|].
  destruct (exists_last (l:=h :: reverse b)) as (b' & n & Hq); [done|].
  rewrite app_comm_cons, Hp, <- (assoc_L (++)) in Hf. simpl in Hf.
  rewrite reverse_app, reverse_cons, app_comm_cons, app_comm_cons, Hq in Hb.
  rewrite <- !(assoc_L (++)) in Hb. simpl in Hb.
  assert (Hnx : nx k x = Some n).
  { apply seg_app in Hf as (m & _ & _ & _ & Hf). destruct b as [|y b].
    - simpl in Hf. rewrite reverse_nil in Hq. destruct b'; [by injection Hq as <-|].
      by destruct b'.
    - destruct Hf as [-> _]. rewrite reverse_cons, app_comm_cons in Hq.
      by apply app_inj_tail in Hq as [_ <-]. }
  assert (Hpv : pv k x = Some p).
  { apply seg_app in Hb as (m & _ & _ & _ & Hb). destruct a as [|y a].
    - simpl in Hb. destruct a'; [by injection Hp as <-|]. by destruct a'.
    - destruct (exists_last (l:=y :: a)) as (a1 & z & Hz); [done|].
      rewrite Hz, reverse_snoc in Hb. destruct Hb as [-> _].
      rewrite Hz, app_comm_cons in Hp. by apply app_inj_tail in Hp as [_ <-]. }
  assert (Hdis : (x ∉ h :: a ++ b) /\ (p ∉ a' ++ b) /\ (n ∉ b' ++ reverse a)).
  { pose proof Hn as Hm. apply NoDup_cons in Hm as [Hh Hm].
    apply NoDup_app in Hm as (Ha & Hab & [Hxb Hnb]%NoDup_cons).
    assert (Hap : NoDup (a' ++ [p])) by (rewrite <- Hp; apply NoDup_cons; set_solver).
    assert (Hbn : NoDup (b' ++ [n])).
    { rewrite <- Hq. apply NoDup_cons. rewrite elem_of_reverse. split; [set_solver|].
      by rewrite reverse_Permutation. }
    apply NoDup_app in Hap as (_ & Hap & _). apply NoDup_app in Hbn as (_ & Hbn & _).
    assert (Hpi : p ∈ h :: a) by (rewrite Hp; set_solver).
    assert (Hni : n ∈ h :: reverse b) by (rewrite Hq; set_solver).
    rewrite elem_of_cons, elem_of_reverse in Hni.
    rewrite !elem_of_app, elem_of_reverse. set_solver. }
  destruct Hdis as (Hx & Hpn & Hnn).
  unfold ring_del. rewrite Hnx. cbn [deref obind set_pv pv nx].
  assert (n <> x) by (assert (n ∈ h :: reverse b) as Hin by (rewrite Hq; set_solver);
    rewrite elem_of_cons, elem_of_reverse in Hin; set_solver).
  rewrite fn_lookup_insert_ne, Hpv by done. cbn [deref obind].
  eexists. split; [done|]. split.
  - split_and!; cbn [set_nx set_pv nx pv].
    + rewrite app_comm_cons, Hp, <- (assoc_L (++)). by apply seg_skip.
    + rewrite reverse_app, app_comm_cons, Hq, <- (assoc_L (++)), <- Hpv. by apply seg_skip.
    + apply NoDup_cons in Hn as [Hh Hn]. apply NoDup_app in Hn as (Ha & Hab & [Hxb Hnb]%NoDup_cons).
      apply NoDup_cons. split; [set_solver|]. apply NoDup_app. set_solver.
  - intros y Hy.
    assert (p ∈ h :: a) by (rewrite Hp; set_solver).
    assert (n ∈ h :: reverse b) as Hin by (rewrite Hq; set_solver).
    rewrite elem_of_cons, elem_of_reverse in Hin. cbn [set_nx set_pv nx pv].
    rewrite !fn_lookup_insert_ne by set_solver. done.
Qed.
End Lemmas.

(** ** Lists with a head and a tail variable

    [insert_in_waitlist], the queues of an I/O multiplexer and the ready queues append
    and remove in the same way. *)

Section Queues.
Context {A : Type} `{EqDecision A}.
Implicit Types (k : links A) (l : list A) (x : A).

Record ends := Ends { first : option A; last_ : option A }.

(** [dl k q l]: between the ends [q] hang the nodes [l]. *)
Definition dl k (q : ends) l : Prop := dlist k (first q) (last_ q) l.

Definition set_nx_of k (o : option A) (y : option A) : links A :=
  match o with Some x => set_nx k x y | None => k end.
Definition set_pv_of k (o : option A) (y : option A) : links A :=
  match o with Some x => set_pv k x y | None => k end.

(** [x->next = NULL; x->prev = tail; if (tail) tail->next = x; tail = x;
    if (!head) head = x;] *)
Definition dl_append k (q : ends) x : links A * ends :=
  let k := set_pv (set_nx k x None) x (last_ q) in
  let k := set_nx_of k (last_ q) (Some x) in
  (k, Ends (match first q with None => Some x | f => f end) (Some x)).

(** [x->next = head; x->prev = NULL; x->next->prev = x; head = x;], the empty list
    apart. *)
Definition dl_push k (q : ends) x : links A * ends :=
  let k := set_pv (set_nx k x (first q)) x None in
  let k := set_pv_of k (first q) (Some x) in
  (k, Ends (Some x) (match last_ q with None => Some x | t => t end)).

(** [if (x->next) x->next->prev = x->prev; if (x->prev) x->prev->next = x->next;
    if (x == head) head = x->next; if (x == tail) tail = x->prev;] *)
Definition dl_remove k (q : ends) x : links A * ends :=
  let k := set_pv_of k (nx k x) (pv k x) in
  let k := set_nx_of k (pv k x) (nx k x) in
  (k, Ends (if decide (first q = Some x) then nx k x else first q)
           (if decide (last_ q = Some x) then pv k x else last_ q)).

Lemma nx_set_pv_of k o y : nx (set_pv_of k o y) = nx k.
Proof. by destruct o. Qed.

Lemma pv_set_nx_of k o y : pv (set_nx_of k o y) = pv k.
Proof. by destruct o. Qed.

Definition no_ends : ends := Ends None None.

Lemma dl_nil k : dl k no_ends [].
Proof. split_and!; [done|done|constructor]. Qed.

Lemma dl_empty k q : dl k q [] -> q = no_ends.
Proof. destruct q. intros (Hf & Hb & _). simpl in *. by rewrite Hf, Hb. Qed.

Lemma dl_nodup k q l : dl k q l -> NoDup l.
Proof. by intros (_ & _ & ?). Qed.

Lemma dl_first k q l : dl k q l -> first q = head l.
Proof. intros (Hf & _). by apply seg_head in Hf. Qed.

Lemma dl_last k q l : dl k q l -> last_ q = last l.
Proof.
  intros (_ & Hb & _). apply seg_head in Hb. rewrite Hb.
  destruct l as [|x l _] using rev_ind; [done|]. by rewrite reverse_snoc, last_snoc.
Qed.

Lemma dl_ends k q l : dl k q l -> q = Ends (head l) (last l).
Proof. intros Hd. destruct q as [f t]. f_equal; [exact (dl_first k _ l Hd)|exact (dl_last k _ l Hd)]. Qed.

Lemma dl_next k q a x b : dl k q (a ++ x :: b) -> nx k x = head b.
Proof. intros (Hf & _). apply seg_app in Hf as (m & _ & _ & Hf). by apply seg_head in Hf. Qed.

Lemma dl_prev k q a x b : dl k q (a ++ x :: b) -> pv k x = last a.
Proof.
  intros (_ & Hb & _). rewrite reverse_app, reverse_cons, <- (assoc_L (++)) in Hb.
  apply seg_app in Hb as (m & _ & Hb). simpl in Hb. destruct Hb as [_ Hb].
  apply seg_head in Hb. rewrite Hb.
  destruct a as [|y a _] using rev_ind; [done|]. by rewrite reverse_snoc, last_snoc.
Qed.

Lemma dl_unique k q l l' : dl k q l -> dl k q l' -> l = l'.
Proof. intros (H & _) (H' & _). by eapply seg_unique. Qed.

Lemma dl_ext k k' q l :
  (forall x, x ∈ l -> nx k' x = nx k x /\ pv k' x = pv k x) -> dl k q l -> dl k' q l.
Proof.
  intros Heq (Hf & Hb & Hn). split_and!; [| |done].
  - eapply seg_ext; [|exact Hf]. intros i Hi. by apply Heq.
  - eapply seg_ext; [|exact Hb]. intros i Hi. apply Heq. by apply elem_of_reverse.
Qed.

(** The list, written out: what every node points to. *)
Lemma seg_intro (f : A -> option A) l t :
  (forall i x, l !! i = Some x -> f x = match l !! S i with Some y => Some y | None => t end) ->
  seg f (match l with x :: _ => Some x | [] => t end) l t.
Proof.
  induction l as [|x l IH]; intros Hf; [done|]. simpl. split; [done|].
  rewrite (Hf 0%nat x) by done. simpl.
  replace (match l !! 0%nat with Some y => Some y | None => t end)
    with (match l with y :: _ => Some y | [] => t end) by (by destruct l).
  apply IH. intros i y Hi. by apply (Hf (S i)).
Qed.

Lemma seg_snoc (f : A -> option A) s l x t : seg f s (l ++ [x]) t <-> seg f s l (Some x) /\ f x = t.
Proof. rewrite seg_app. simpl. naive_solver. Qed.

Lemma seg_end (f : A -> option A) s l z t y :
  seg f s (l ++ [z]) t -> z ∉ l -> seg (<[z := y]> f) s (l ++ [z]) y.
Proof.
  rewrite !seg_snoc. intros [Hs Hz] Hn. split; [by apply seg_store|]. apply fn_lookup_insert.
Qed.

Lemma dl_append_spec k q l x :
  dl k q l -> x ∉ l ->
  let '(k', q') := dl_append k q x in
  dl k' q' (l ++ [x]) /\ forall y, y ∉ l ++ [x] -> nx k' y = nx k y /\ pv k' y = pv k y.
Proof.
  intros Hd Hx. pose proof (dl_ends _ _ _ Hd) as ->. pose proof (dl_nodup _ _ _ Hd) as Hn.
  unfold dl_append. simpl. destruct Hd as (Hf & Hb & _). simpl in Hf, Hb.
  destruct l as [|z l _] using rev_ind.
  - simpl. split.
    + split_and!; simpl; [|rewrite fn_lookup_insert|apply NoDup_singleton].
      * split; [done|]. by rewrite fn_lookup_insert.
      * done.
    + intros y Hy. rewrite !fn_lookup_insert_ne by set_solver. done.
  - rewrite last_snoc. simpl. apply NoDup_app in Hn as (Hl & Hz & _).
    assert (z ∉ l) by set_solver. split.
    + split_and!; simpl.
      * rewrite seg_snoc, fn_lookup_insert_ne, fn_lookup_insert by set_solver. split; [|done].
        rewrite last_snoc in Hb.
        replace (match head (l ++ [z]) with Some _ => _ | None => _ end) with (head (l ++ [z]))
          by (by destruct l).
        eapply seg_end; [|done]. rewrite seg_store by set_solver. exact Hf.
      * rewrite reverse_snoc. simpl. split; [done|]. rewrite fn_lookup_insert.
        rewrite seg_store by (rewrite elem_of_reverse; set_solver).
        by rewrite last_snoc in Hb.
      * apply NoDup_app. split_and!; [apply NoDup_app; split_and!; [done|done|apply NoDup_singleton]
        |set_solver|apply NoDup_singleton].
    + intros y Hy. rewrite !fn_lookup_insert_ne by set_solver. done.
Qed.

Lemma seg_unlink (f : A -> option A) s a x b :
  seg f s (a ++ x :: b) None -> NoDup (a ++ x :: b) ->
  seg (match last a with Some z => <[z := f x]> f | None => f end) (head (a ++ b)) (a ++ b) None.
Proof.
  intros Hf Hn. destruct a as [|z a _] using rev_ind.
  - simpl in *. destruct Hf as [-> Hf]. pose proof (seg_head _ _ _ Hf) as Hh. by rewrite <- Hh.
  - rewrite last_snoc. rewrite <- (assoc_L (++)) in Hf, Hn. simpl in Hf, Hn.
    rewrite <- (assoc_L (++)). simpl.
    assert (s = head (a ++ z :: b)) as <-.
    { apply seg_head in Hf. rewrite Hf. by destruct a. }
    apply seg_skip; [done|]. apply NoDup_app in Hn as (_ & Ha & [Hz _]%NoDup_cons). set_solver.
Qed.

Lemma dl_remove_spec k q a x b :
  dl k q (a ++ x :: b) ->
  let '(k', q') := dl_remove k q x in
  dl k' q' (a ++ b)
  /\ (forall y, y ∉ a ++ b -> nx k' y = nx k y /\ pv k' y = pv k y)
  /\ nx k' x = head b /\ pv k' x = last a.
Proof.
  intros Hd. pose proof (dl_ends _ _ _ Hd) as ->. pose proof (dl_nodup _ _ _ Hd) as Hn.
  pose proof (dl_next _ _ _ _ _ Hd) as Hnx. pose proof (dl_prev _ _ _ _ _ Hd) as Hpv.
  unfold dl_remove. rewrite Hpv. cbn [first last_].
  replace (pv (set_pv_of k (nx k x) (last a)) x) with (last a); last first.
  { rewrite Hnx. destruct b as [|y b]; simpl; [done|]. rewrite fn_lookup_insert_ne; [done|].
    apply NoDup_app in Hn as (_ & _ & [Hxb _]%NoDup_cons). set_solver. }
  rewrite nx_set_pv_of.
  assert (Hax : forall z, last a = Some z -> x <> z).
  { intros z Hz%last_Some_elem_of ->. apply NoDup_app in Hn as (_ & Hab & _). set_solver. }
  assert (Hbx : forall z, head b = Some z -> x <> z).
  { intros z Hz ->. apply NoDup_app in Hn as (_ & _ & [Hxb _]%NoDup_cons).
    destruct b; set_solver. }
  replace (nx (set_nx_of (set_pv_of k (nx k x) (last a)) (last a) (nx k x)) x) with (nx k x);
    last first.
  { destruct (last a) eqn:?; simpl; rewrite ?nx_set_pv_of, ?fn_lookup_insert_ne by naive_solver;
      done. }
  replace (pv (set_nx_of (set_pv_of k (nx k x) (last a)) (last a) (nx k x)) x) with (last a);
    last first.
  { rewrite pv_set_nx_of, Hnx. destruct (head b) eqn:?; simpl;
      rewrite ?fn_lookup_insert_ne by naive_solver; done. }
  destruct Hd as (Hf & Hb & _). cbn [first last_] in Hf, Hb.
  pose proof (seg_unlink _ _ _ _ _ Hf Hn) as Hf'.
  rewrite reverse_app, reverse_cons, <- (assoc_L (++)) in Hb. simpl in Hb.
  assert (NoDup (reverse b ++ x :: reverse a)) as Hnr.
  { replace (reverse b ++ x :: reverse a) with (reverse (a ++ x :: b))
      by (by rewrite reverse_app, reverse_cons, <- (assoc_L (++))).
    by rewrite reverse_Permutation. }
  pose proof (seg_unlink _ _ _ _ _ Hb Hnr) as Hb'.
  assert (Hlb : last (reverse b) = head b) by (destruct b; [done|by rewrite reverse_cons, last_snoc]).
  assert (Hdis : x ∉ a ++ b).
  { apply NoDup_app in Hn as (_ & Hab & [Hxb _]%NoDup_cons). set_solver. }
  assert (Hends : Ends (if decide (head (a ++ x :: b) = Some x) then nx k x else head (a ++ x :: b))
    (if decide (last (a ++ x :: b) = Some x) then last a else last (a ++ x :: b))
    = Ends (head (a ++ b)) (last (a ++ b))).
  { rewrite Hnx. f_equal.
    - destruct a as [|z a]; simpl; case_decide; set_solver.
    - destruct b as [|z b _] using rev_ind.
      + rewrite last_snoc, app_nil_r. by case_decide.
      + rewrite app_comm_cons, !(assoc_L (++)), !last_snoc. case_decide; set_solver. }
  rewrite Hends. split_and!.
  - split_and!; simpl.
    + rewrite Hnx in *. destruct (last a); simpl; [|by destruct (head b)].
      destruct (head b); exact Hf'.
    + rewrite Hlb, Hpv, <- reverse_app in Hb'.
      replace (head (reverse (a ++ b))) with (last (a ++ b)) in Hb'.
      2:{ destruct (a ++ b) as [|? ? _] using rev_ind; [done|].
          by rewrite reverse_snoc, last_snoc. }
      rewrite Hnx. destruct (last a), (head b); exact Hb'.
    + apply NoDup_app in Hn as (Ha & Hab & [_ Hnb]%NoDup_cons). apply NoDup_app. set_solver.
  - intros y Hy. rewrite Hnx.
    assert (forall z, last a = Some z -> y <> z) by (intros z Hz%last_Some_elem_of; set_solver).
    assert (forall z, head b = Some z -> y <> z) by (intros z Hz; destruct b; set_solver).
    destruct (last a) eqn:?, (head b) eqn:?; simpl; rewrite ?fn_lookup_insert_ne by naive_solver;
      done.
  - done.
  - done.
Qed.

Lemma dl_push_spec k q l x :
  dl k q l -> x ∉ l ->
  let '(k', q') := dl_push k q x in
  dl k' q' (x :: l) /\ forall y, y ∉ x :: l -> nx k' y = nx k y /\ pv k' y = pv k y.
Proof.
  intros Hd Hx. pose proof (dl_ends _ _ _ Hd) as ->. pose proof (dl_nodup _ _ _ Hd) as Hn.
  unfold dl_push. cbn [first last_]. destruct Hd as (Hf & Hb & _). cbn [first last_] in Hf, Hb.
  destruct l as [|z l].
  - simpl. split.
    + split_and!; simpl; [rewrite fn_lookup_insert|rewrite fn_lookup_insert|apply NoDup_singleton];
        done.
    + intros y Hy. rewrite !fn_lookup_insert_ne by set_solver. done.
  - cbn [head set_pv_of]. cbn [head] in Hf. split.
    + split_and!; cbn [first last_ set_nx set_pv nx pv].
      * split; [done|]. rewrite fn_lookup_insert. by apply seg_store.
      * replace (match last (z :: l) with Some _ => _ | None => _ end) with (last (z :: l))
          by (by destruct (last (z :: l)) eqn:Hl; [|apply last_None in Hl]).
        rewrite reverse_cons, seg_snoc, fn_lookup_insert_ne, fn_lookup_insert by set_solver.
        split; [|done]. rewrite reverse_cons in Hb |- *. apply NoDup_cons in Hn as [Hz _].
        eapply seg_end; [|by rewrite elem_of_reverse]. apply seg_store; [|exact Hb].
        rewrite elem_of_app, elem_of_reverse. set_solver.
      * by apply NoDup_cons.
    + intros y Hy. cbn [set_nx set_pv nx pv]. rewrite !fn_lookup_insert_ne by set_solver. done.
Qed.
End Queues.
