(* ===== verification/Timer.v ===== *)
(** * Timer: the timer wheel of src/src/sys/krnl/timer.c

    Five vectors of circular lists: [tv1] has a list for each of the next 256 ticks,
    [tv2] to [tv5] have 64 lists each, for stretches of 2^8, 2^14, 2^20 and 2^26 ticks.
    A level is 0 for [tv1] up to 4 for [tv5].  The list heads and the timers are the
    nodes of one [links]; [calls] is the record of the handlers called, newest first. *)

From stdpp Require Import functions.
From S2P Require Import Prelude Dlist.
Local Open Scope krlean_scope.

Definition TVN_BITS : Z := 6.
Definition TVR_BITS : Z := 8.
Definition TVN_SIZE : Z := Z.shiftl 1 TVN_BITS.
Definition TVR_SIZE : Z := Z.shiftl 1 TVR_BITS.
Definition TVN_MASK : Z := TVN_SIZE - 1.
Definition TVR_MASK : Z := TVR_SIZE - 1.
Definition NOOF_TVECS : nat := 5.

Inductive tnode := Head (lv : nat) (i : Z) | Tmr (t : nat).
#[export] Instance tnode_eq_dec : EqDecision tnode.
Proof. solve_decision. Defined.

Record wheel := Wheel {
  wlinks : links tnode;
  expires : nat -> Z;
  active : nat -> bool;
  tindex : nat -> Z;          (* the [index] of each vector *)
  timer_ticks : Z;
  calls : list (Z * nat);
}.

Definition set_links (w : wheel) (k : links tnode) : wheel :=
  Wheel k (expires w) (active w) (tindex w) (timer_ticks w) (calls w).
Definition set_active (w : wheel) (t : nat) (b : bool) : wheel :=
  Wheel (wlinks w) (expires w) (<[t := b]> (active w)) (tindex w) (timer_ticks w) (calls w).
Definition set_expires (w : wheel) (t : nat) (e : Z) : wheel :=
  Wheel (wlinks w) (<[t := u32 e]> (expires w)) (active w) (tindex w) (timer_ticks w) (calls w).
Definition set_index (w : wheel) (lv : nat) (i : Z) : wheel :=
  Wheel (wlinks w) (expires w) (active w) (<[lv := i]> (tindex w)) (timer_ticks w) (calls w).

(** ** The operations *)

(** The list [attach_timer] chooses. *)
Definition timer_vec_of (w : wheel) (t : nat) : tnode :=
  let e := expires w t in
  let idx := u32 (e - timer_ticks w) in
  if idx <? TVR_SIZE then Head 0 (Z.land e TVR_MASK)
  else if idx <? Z.shiftl 1 (TVR_BITS + TVN_BITS) then
    Head 1 (Z.land (Z.shiftr e TVR_BITS) TVN_MASK)
  else if idx <? Z.shiftl 1 (TVR_BITS + 2 * TVN_BITS) then
    Head 2 (Z.land (Z.shiftr e (TVR_BITS + TVN_BITS)) TVN_MASK)
  else if idx <? Z.shiftl 1 (TVR_BITS + 3 * TVN_BITS) then
    Head 3 (Z.land (Z.shiftr e (TVR_BITS + 2 * TVN_BITS)) TVN_MASK)
  else if s32 idx <? 0 then Head 0 (tindex w 0%nat)
  else Head 4 (Z.land (Z.shiftr e (TVR_BITS + 3 * TVN_BITS)) TVN_MASK).

Definition attach_timer (w : wheel) (t : nat) : outcome wheel :=
  k <~ ring_add (wlinks w) (timer_vec_of w t) (Tmr t);
  Ret (set_active (set_links w k) t true).

Definition detach_timer (w : wheel) (t : nat) : outcome (Z * wheel) :=
  if negb (active w t) then Ret (0, w)
  else
    k <~ ring_del (wlinks w) (Tmr t);
    Ret (1, set_active (set_links w k) t false).

(** [vec[i].next = vec[i].prev = vec + i] for the [n] lists from [i] down. *)
Definition self_link (k : links tnode) (h : tnode) : links tnode :=
  set_nx (set_pv k h (Some h)) h (Some h).

Fixpoint init_vec (k : links tnode) (lv n : nat) : links tnode :=
  match n with
  | O => k
  | S n => init_vec (self_link k (Head lv (Z.of_nat n))) lv n
  end.

Definition init_timers (w : wheel) : wheel :=
  let k := init_vec (wlinks w) 4 (Z.to_nat TVN_SIZE) in
  let k := init_vec k 3 (Z.to_nat TVN_SIZE) in
  let k := init_vec k 2 (Z.to_nat TVN_SIZE) in
  let k := init_vec k 1 (Z.to_nat TVN_SIZE) in
  set_links w (init_vec k 0 (Z.to_nat TVR_SIZE)).

(** [init_timer] clears [link.next] twice and leaves [link.prev] as it is. *)
Definition init_timer (w : wheel) (t : nat) : wheel :=
  set_active (set_expires (set_links w (set_nx (wlinks w) (Tmr t) None)) t 0) t false.

(** [link.next = link.prev = NULL] *)
Definition unlink_timer (w : wheel) (t : nat) : wheel :=
  set_links w (set_pv (set_nx (wlinks w) (Tmr t) None) (Tmr t) None).

Definition add_timer (w : wheel) (t : nat) : outcome wheel :=
  if active w t then Ret w else attach_timer w t.

Definition del_timer (w : wheel) (t : nat) : outcome (Z * wheel) :=
  '(rc, w) <~ detach_timer w t;
  Ret (rc, unlink_timer w t).

Definition mod_timer (w : wheel) (t : nat) (e : Z) : outcome (Z * wheel) :=
  let w := set_expires w t e in
  '(rc, w) <~ detach_timer w t;
  w <~ attach_timer w t;
  Ret (rc, w).

(** The walk of [cascade_timers] from [curr]; the fuel bounds the list. *)
Fixpoint cascade_loop (fuel : nat) (w : wheel) (head curr : tnode) : outcome wheel :=
  if decide (curr = head) then Ret w
  else
    match fuel, curr with
    | O, _ => Diverge
    | S _, Head _ _ => Fault
    | S fuel, Tmr t =>
        next <~ deref (nx (wlinks w) curr);
        w <~ attach_timer w t;
        cascade_loop fuel w head next
    end.

Definition cascade_timers (fuel : nat) (w : wheel) (lv : nat) : outcome wheel :=
  let head := Head lv (tindex w lv) in
  curr <~ deref (nx (wlinks w) head);
  w <~ cascade_loop fuel w head curr;
  let w := set_links w (self_link (wlinks w) head) in
  Ret (set_index w lv (Z.land (tindex w lv + 1) TVN_MASK)).

(** [do cascade_timers(tvecs[n]) while (tvecs[n]->index == 1 && ++n < NOOF_TVECS)],
    with [m] vectors to go. *)
Fixpoint cascade_all (fuel : nat) (w : wheel) (n m : nat) : outcome wheel :=
  match m with
  | O => Ret w
  | S m =>
      w <~ cascade_timers fuel w n;
      if tindex w n =? 1 then cascade_all fuel w (S n) m else Ret w
  end.

(** What the handler of a timer does to the timers: it may arm an idle timer, delete
    one, or move one.  [handler] says what it does after the calls so far. *)
Inductive tmr_op := Arm (t : nat) (e : Z) | Del (t : nat) | Mod (t : nat) (e : Z).

Definition exec_op (w : wheel) (op : tmr_op) : outcome wheel :=
  match op with
  | Arm t e => if active w t then Ret w else add_timer (set_expires w t e) t
  | Del t => '(_, w) <~ del_timer w t; Ret w
  | Mod t e => '(_, w) <~ mod_timer w t e; Ret w
  end.

Fixpoint exec_ops (w : wheel) (ops : list tmr_op) : outcome wheel :=
  match ops with
  | [] => Ret w
  | op :: ops => w <~ exec_op w op; exec_ops w ops
  end.

Section Run.
Context (handler : list (Z * nat) -> list tmr_op).

Definition call_handler (w : wheel) (t : nat) : outcome wheel :=
  let cs := (timer_ticks w, t) :: calls w in
  exec_ops (Wheel (wlinks w) (expires w) (active w) (tindex w) (timer_ticks w) cs) (handler cs).

(** [while (1)]: the timers of the current list; the fuel bounds their number. *)
Fixpoint expire_loop (fuel : nat) (w : wheel) : outcome wheel :=
  let head := Head 0 (tindex w 0%nat) in
  curr <~ deref (nx (wlinks w) head);
  if decide (curr = head) then Ret w
  else
    match fuel, curr with
    | O, _ => Diverge
    | S _, Head _ _ => Fault
    | S fuel, Tmr t =>
        '(_, w) <~ detach_timer w t;
        w <~ call_handler (unlink_timer w t) t;
        expire_loop fuel w
    end.

Definition next_tick (w : wheel) : wheel :=
  Wheel (wlinks w) (expires w) (active w)
    (<[0%nat := Z.land (tindex w 0%nat + 1) TVR_MASK]> (tindex w))
    (u32 (timer_ticks w + 1)) (calls w).

Definition run_tick (fuel : nat) (w : wheel) : outcome wheel :=
  w <~ (if tindex w 0%nat =? 0 then cascade_all fuel w 1 (NOOF_TVECS - 1) else Ret w);
  w <~ expire_loop fuel w;
  Ret (next_tick w).

(** [ticks] is the clock of sched.c; [n] bounds the ticks to catch up with. *)
Fixpoint run_timer_list (n fuel : nat) (w : wheel) (ticks : Z) : outcome wheel :=
  if 0 <=? s32 (u32 (ticks - timer_ticks w)) then
    match n with
    | O => Diverge
    | S n => w <~ run_tick fuel w; run_timer_list n fuel w ticks
    end
  else Ret w.
End Run.

(** ** The contract: a set of deadlines on an unbounded time line

    [due now e]: the tick at which a timer that is set to the 32-bit time [e] at tick
    [now] expires: the coming one, or [now] itself for a time in the past. *)

Definition due (now e : Z) : Z :=
  if u32 (e - now) <? 2 ^ 31 then now + u32 (e - now) else now.

Abbreviation deadlines := (gmap nat Z).

Definition spec_op (now : Z) (dl : deadlines) (op : tmr_op) : deadlines :=
  match op with
  | Arm t e => match dl !! t with Some _ => dl | None => <[t := due now e]> dl end
  | Del t => delete t dl
  | Mod t e => <[t := due now e]> dl
  end.

Definition spec_ops (now : Z) (dl : deadlines) (ops : list tmr_op) : deadlines :=
  foldl (spec_op now) dl ops.

Record tspec := TSpec { ts_now : Z; ts_due : deadlines; ts_calls : list (Z * nat) }.

Section Spec.
Context (handler : list (Z * nat) -> list tmr_op).

(** Time advances only when nothing is due; a due timer is called and is idle from
    then on, until its handler or another arms it. *)
Inductive tstep : tspec -> tspec -> Prop :=
  | tstep_fire now dl cs t :
      dl !! t = Some now ->
      let cs' := (u32 now, t) :: cs in
      tstep (TSpec now dl cs) (TSpec now (spec_ops now (delete t dl) (handler cs')) cs')
  | tstep_tick now dl cs :
      (forall t d, dl !! t = Some d -> now < d) -> tstep (TSpec now dl cs) (TSpec (now + 1) dl cs).

(** Handlers that do not ask to be called again at the tick they are called at. *)
Definition future_handler : Prop :=
  forall cs tick t, Forall (fun op => match op with
    | Arm _ e | Mod _ e => 0 < u32 (e - tick) < 2 ^ 31
    | Del _ => True end) (handler ((tick, t) :: cs)).
End Spec.

(** ** The invariant of the wheel *)

Definition gran (lv : nat) : Z :=
  match lv with O => 1 | S O => 2 ^ 8 | S (S O) => 2 ^ 14 | S (S (S O)) => 2 ^ 20 | _ => 2 ^ 26 end.
Definition nslots (lv : nat) : Z := match lv with O => 256 | _ => 64 end.
Definition valid (lv : nat) (i : Z) : Prop := (lv < NOOF_TVECS)%nat /\ 0 <= i < nslots lv.

(** The first stretch of level [lv] that begins at tick [p] or later. *)
Definition ceil (lv : nat) (p : Z) : Z := (p + gran lv - 1) / gran lv.

(** A timer due at [d] is in list [i] of level [lv]; [p] is the first tick for which
    the level is still to be cascaded. *)
Definition placed (p : Z) (lv : nat) (i d : Z) : Prop :=
  i = (d / gran lv) mod nslots lv /\ ceil lv p <= d / gran lv < ceil lv p + nslots lv.

(** [sl]: the timers of every list; [loc]: the list of every timer that is in one;
    [dl]: the deadlines; [rest]: timers that are out of the lists for the moment;
    [ex]: a list that is not linked up at the moment. *)
Record wrep (ex : option (nat * Z)) (rest : list nat) (now : Z) (p : nat -> Z)
    (w : wheel) (dl : deadlines) (sl : nat -> Z -> list nat) (loc : gmap nat (nat * Z)) : Prop := {
  wr_ring : forall lv i, valid lv i -> ex <> Some (lv, i) ->
      ring (wlinks w) (Head lv i) (Tmr <$> sl lv i);
  wr_loc : forall lv i t, valid lv i -> t ∈ sl lv i <-> loc !! t = Some (lv, i);
  wr_place : forall t lv i, loc !! t = Some (lv, i) ->
      valid lv i /\ active w t = true /\
      exists d, dl !! t = Some d /\ placed (p lv) lv i d /\ (lv <> 0%nat -> u32 d = expires w t);
  wr_rest : forall t, t ∈ rest -> loc !! t = None /\ is_Some (dl !! t);
  wr_rest_nodup : NoDup rest;
  wr_dom : forall t, is_Some (dl !! t) -> t ∈ rest \/ is_Some (loc !! t);
  wr_idle : forall t, dl !! t = None -> active w t = false;
  wr_exp : forall t, is_u32 (expires w t);
  wr_now : timer_ticks w = u32 now;
  wr_index0 : tindex w 0%nat = now mod 256;
  wr_index : forall lv, (0 < lv < NOOF_TVECS)%nat -> tindex w lv = ceil lv (p lv) mod 64;
  wr_p : p 0%nat = now /\ forall lv, p lv = now \/ p lv = now + 1;
}.

(** Between calls: all levels wait for the coming tick [now], or, in the course of the
    tick, for the one after it. *)
Definition wheel_at (now more : Z) (w : wheel) (dl : deadlines) : Prop :=
  exists sl loc, wrep None [] now (fun lv => if (0 <? lv)%nat then now + more else now) w dl sl loc.

(** ** Lemmas *)

Lemma gran_pos lv : 0 < gran lv <= 2 ^ 26.
Proof. unfold gran. destruct lv as [|[|[|[|]]]]; lia. Qed.

Lemma nslots_pos lv : 0 < nslots lv.
Proof. by destruct lv. Qed.

(** Adding multiples of [2^32] does not change the slot. *)
Lemma slot_wrap g n k e y q :
  0 < g -> 0 < n -> 2 ^ 32 = g * n * k -> y = e + 2 ^ 32 * q -> (e / g) mod n = (y / g) mod n.
Proof.
  intros Hg Hn Hk ->. rewrite Hk. replace (e + g * n * k * q) with (e + n * k * q * g) by ring.
  rewrite Z.div_add by lia. replace (n * k * q) with (k * q * n) by ring.
  by rewrite Z.mod_add by lia.
Qed.

Lemma stretch_range g now p x :
  0 < g -> g <= x < 64 * g -> p = now \/ p = now + 1 ->
  (p + g - 1) / g <= (now + x) / g < (p + g - 1) / g + 64.
Proof.
  intros Hg Hx Hp. split.
  - apply Z.div_le_mono; lia.
  - apply Z.le_lt_trans with ((now + g - 1 + 63 * g) / g); [apply Z.div_le_mono; lia|].
    rewrite Z.div_add by lia. pose proof (Z.div_le_mono (now + g - 1) (p + g - 1) g Hg). lia.
Qed.

(** The list chosen by [attach_timer] is one the timer is due in. *)
Lemma timer_vec_spec w t now :
  timer_ticks w = u32 now -> tindex w 0%nat = now mod 256 -> is_u32 (expires w t) ->
  let d := due now (expires w t) in
  exists lv i, timer_vec_of w t = Head lv i /\ valid lv i
    /\ (forall p, (lv = 0%nat -> p = now) -> p = now \/ p = now + 1 -> placed p lv i d)
    /\ (lv <> 0%nat -> u32 d = expires w t /\ gran lv <= d - now) /\ now <= d.
Proof.
  intros Hn Hi He d. unfold timer_vec_of. rewrite Hn, Hi. clear Hn Hi.
  set (e := expires w t) in *. clearbody e. clear w t.
  assert (Hx : u32 (e - u32 now) = u32 (e - now)).
  { unfold u32, uwrap. by rewrite Zminus_mod_idemp_r. }
  rewrite Hx. unfold d, due. pose proof (u32_range (e - now)) as Hr.
  assert (Hd : u32 (now + u32 (e - now)) = e).
  { unfold u32, uwrap in *. rewrite Zplus_mod_idemp_r.
    replace (now + (e - now)) with e by lia. by apply Z.mod_small. }
  set (x := u32 (e - now)) in *. clearbody x. clear Hx.
  unfold is_u32 in *.
  change TVR_SIZE with (2 ^ 8). change TVR_BITS with 8. change TVN_BITS with 6.
  change TVR_MASK with (Z.ones 8). change TVN_MASK with (Z.ones 6).
  rewrite !Z.land_ones, !Z.shiftr_div_pow2, !Z.shiftl_1_l by lia.
  change (8 + 6) with 14. change (8 + 2 * 6) with 20. change (8 + 3 * 6) with 26.
  assert (Hq : exists q, now + x = e + 2 ^ 32 * q).
  { exists ((now + x) / 2 ^ 32). unfold u32, uwrap in Hd.
    pose proof (Z.div_mod (now + x) (2 ^ 32) ltac:(done)). lia. }
  destruct Hq as [q Hq].
  assert (Hs : s32 x = if x <? 2 ^ 31 then x else x - 2 ^ 32).
  { unfold s32, swrap. rewrite Z.mod_small by lia. done. }
  rewrite Hs.
  destruct (Z.ltb_spec x (2 ^ 8)); [exists 0%nat, (e mod 2 ^ 8)|
  destruct (Z.ltb_spec x (2 ^ 14)); [exists 1%nat, ((e / 2 ^ 8) mod 2 ^ 6)|
  destruct (Z.ltb_spec x (2 ^ 20)); [exists 2%nat, ((e / 2 ^ 14) mod 2 ^ 6)|
  destruct (Z.ltb_spec x (2 ^ 26)); [exists 3%nat, ((e / 2 ^ 20) mod 2 ^ 6)|
  destruct (Z.ltb_spec x (2 ^ 31)) as [Hlt|Hge];
    [rewrite (proj2 (Z.ltb_ge x 0)) by lia; exists 4%nat, ((e / 2 ^ 26) mod 2 ^ 6)
    |rewrite (proj2 (Z.ltb_lt (x - 2 ^ 32) 0)) by lia; exists 0%nat, (now mod 256)]]]]].
  1-5: rewrite ?(proj2 (Z.ltb_lt x (2 ^ 31))) by lia.
  1-6: unfold valid, placed, ceil, nslots, gran, NOOF_TVECS.
  1-6: split; [done|]; split; [split; [lia|apply Z.mod_pos_bound; lia]|];
    split; [|split; [|lia]]; [intros p Hp0 Hp|].
  all: try (intros Hlv; first [congruence|split; [done|lia]]).
  all: clear Hd Hs.
  - rewrite Hp0 by done. rewrite !Z.div_1_r. change (2 ^ 8) with 256. split; [|lia].
    rewrite <- (Z.div_1_r e), <- (Z.div_1_r (now + x)). by apply (slot_wrap 1 256 (2 ^ 24)) with q.
  - split; [by apply (slot_wrap (2 ^ 8) 64 (2 ^ 18)) with q|apply stretch_range; lia].
  - split; [by apply (slot_wrap (2 ^ 14) 64 (2 ^ 12)) with q|apply stretch_range; lia].
  - split; [by apply (slot_wrap (2 ^ 20) 64 (2 ^ 6)) with q|apply stretch_range; lia].
  - split; [by apply (slot_wrap (2 ^ 26) 64 1) with q|apply stretch_range; lia].
  - rewrite Hp0 by done. rewrite !Z.div_1_r. lia.
Qed.

Definition put (sl : nat -> Z -> list nat) (lv : nat) (i : Z) (l : list nat) : nat -> Z -> list nat :=
  fun lv' i' => if decide ((lv', i') = (lv, i)) then l else sl lv' i'.

Lemma put_eq sl lv i l : put sl lv i l lv i = l.
Proof. unfold put. by rewrite decide_True. Qed.

Lemma put_ne sl lv i l lv' i' : (lv', i') <> (lv, i) -> put sl lv i l lv' i' = sl lv' i'.
Proof. intros. unfold put. by rewrite decide_False. Qed.

Section Rep.
Context (now : Z) (p : nat -> Z).

(** The other lists do not notice stores to the nodes of one of them. *)
Lemma wrep_other_ring ex rest w dl sl loc k lv i lv' i' :
  wrep ex rest now p w dl sl loc -> valid lv' i' -> ex <> Some (lv', i') -> (lv', i') <> (lv, i) ->
  (forall t, t ∈ sl lv' i' -> nx k (Tmr t) = nx (wlinks w) (Tmr t) /\ pv k (Tmr t) = pv (wlinks w) (Tmr t)) ->
  nx k (Head lv' i') = nx (wlinks w) (Head lv' i') ->
  pv k (Head lv' i') = pv (wlinks w) (Head lv' i') ->
  ring k (Head lv' i') (Tmr <$> sl lv' i').
Proof.
  intros Hw Hv Hex Hne Ht Hn Hp. eapply ring_ext; [|by eapply (wr_ring _ _ _ _ _ _ _ _ Hw)].
  intros x [->|(t & -> & Hin)%list_elem_of_fmap]%elem_of_cons; auto.
Qed.

Lemma attach_spec ex t rest w dl sl loc :
  wrep ex (t :: rest) now p w dl sl loc -> dl !! t = Some (due now (expires w t)) ->
  (forall lv i, timer_vec_of w t = Head lv i -> ex <> Some (lv, i)) ->
  exists w' sl' loc', attach_timer w t = Ret w' /\ wrep ex rest now p w' dl sl' loc'
    /\ expires w' = expires w /\ tindex w' = tindex w /\ calls w' = calls w
    /\ (forall r, r ∈ rest -> nx (wlinks w') (Tmr r) = nx (wlinks w) (Tmr r))
    /\ (forall lv i, ex = Some (lv, i) -> sl' lv i = sl lv i
          /\ nx (wlinks w') (Head lv i) = nx (wlinks w) (Head lv i)).
Proof.
  intros Hw Hdl Hvec. destruct (wr_p _ _ _ _ _ _ _ _ Hw) as [Hp0 Hpn].
  destruct (timer_vec_spec w t now (wr_now _ _ _ _ _ _ _ _ Hw) (wr_index0 _ _ _ _ _ _ _ _ Hw)
    (wr_exp _ _ _ _ _ _ _ _ Hw t)) as (lv & i & Hv & Hval & Hplace & Hexp & _).
  specialize (Hvec lv i Hv). specialize (Hplace (p lv)).
  destruct (wr_rest _ _ _ _ _ _ _ _ Hw t) as [Hloc _]; [left|].
  assert (Hnin : Tmr t ∉ Head lv i :: (Tmr <$> sl lv i)).
  { rewrite elem_of_cons, list_elem_of_fmap. intros [?|(t' & [= <-] & Hin)]; [done|].
    apply (wr_loc _ _ _ _ _ _ _ _ Hw) in Hin; [congruence|done]. }
  destruct (ring_add_spec _ _ _ (Tmr t) (wr_ring _ _ _ _ _ _ _ _ Hw lv i Hval Hvec) Hnin)
    as (k & Hk & Hring & Hframe).
  unfold attach_timer. rewrite Hv, Hk. cbn [obind].
  assert (Hother : forall r, t <> r -> loc !! r <> Some (lv, i) ->
    nx k (Tmr r) = nx (wlinks w) (Tmr r) /\ pv k (Tmr r) = pv (wlinks w) (Tmr r)).
  { intros r Hne Hr. apply Hframe. rewrite !elem_of_cons, list_elem_of_fmap.
    intros [?|[?|(t' & [= <-] & Hin)]]; [congruence|congruence|].
    by apply (wr_loc _ _ _ _ _ _ _ _ Hw) in Hin. }
  assert (Hheads : forall lv' i', (lv', i') <> (lv, i) ->
    nx k (Head lv' i') = nx (wlinks w) (Head lv' i')
    /\ pv k (Head lv' i') = pv (wlinks w) (Head lv' i')).
  { intros lv' i' Hne. apply Hframe. rewrite !elem_of_cons, list_elem_of_fmap.
    intros [?|[?|(t' & ? & Hin)]]; congruence. }
  eexists _, (put sl lv i (sl lv i ++ [t])), (<[t := (lv, i)]> loc). split; [done|].
  split; [|split_and!; try done].
  - pose proof (wr_rest_nodup _ _ _ _ _ _ _ _ Hw) as [Htr Hnd]%NoDup_cons.
    constructor; cbn [set_active set_links wlinks expires active tindex timer_ticks]; try apply Hw;
      try done.
    + intros lv' i' Hv' Hex'. destruct (decide ((lv', i') = (lv, i))) as [[= -> ->]|Hne].
      * by rewrite put_eq, fmap_app.
      * rewrite put_ne by done. eapply wrep_other_ring; try done; try by apply Hheads.
        intros r Hin%(wr_loc _ _ _ _ _ _ _ _ Hw); [|done]. apply Hother; congruence.
    + intros lv' i' r Hv'. destruct (decide (t = r)) as [<-|Hr].
      * rewrite lookup_insert_eq. destruct (decide ((lv', i') = (lv, i))) as [[= -> ->]|Hne].
        -- rewrite put_eq. set_solver.
        -- rewrite put_ne, (wr_loc _ _ _ _ _ _ _ _ Hw), Hloc by done. split; congruence.
      * rewrite lookup_insert_ne by done. rewrite <- (wr_loc _ _ _ _ _ _ _ _ Hw) by done.
        destruct (decide ((lv', i') = (lv, i))) as [[= -> ->]|Hne];
          [rewrite put_eq; set_solver|by rewrite put_ne].
    + intros r lv' i'. destruct (decide (t = r)) as [<-|Hr].
      * rewrite lookup_insert_eq, fn_lookup_insert. intros [= <- <-]. split_and!; try done.
        exists (due now (expires w t)). split_and!; [done| |apply Hexp].
        apply Hplace; [by intros ->|auto].
      * rewrite lookup_insert_ne, fn_lookup_insert_ne by done. apply Hw.
    + intros r Hr. rewrite lookup_insert_ne by congruence. apply Hw. by right.
    + intros r Hr. destruct (decide (t = r)) as [<-|Hne].
      * right. rewrite lookup_insert_eq. by eexists.
      * rewrite lookup_insert_ne by done. destruct (wr_dom _ _ _ _ _ _ _ _ Hw r Hr) as [Hin|]; [|by right].
        apply elem_of_cons in Hin as [?|?]; [congruence|by left].
    + intros r Hr. rewrite fn_lookup_insert_ne by congruence. by apply Hw.
  - intros r Hr. apply Hother.
    + pose proof (wr_rest_nodup _ _ _ _ _ _ _ _ Hw) as [? _]%NoDup_cons. congruence.
    + destruct (wr_rest _ _ _ _ _ _ _ _ Hw r) as [-> _]; [by right|done].
  - intros lv' i' Hex. split; [apply put_ne|apply Hheads]; congruence.
Qed.

Lemma detach_spec t lv i w dl sl loc :
  wrep None [] now p w dl sl loc -> loc !! t = Some (lv, i) ->
  exists w' sl', detach_timer w t = Ret (1, w') /\ wrep None [t] now p w' dl sl' (delete t loc)
    /\ expires w' = expires w /\ tindex w' = tindex w /\ calls w' = calls w
    /\ timer_ticks w' = timer_ticks w /\ active w' t = false
    /\ sl' = put sl lv i (sl' lv i) /\ (forall r, r ∈ sl' lv i <-> r ∈ sl lv i /\ r <> t).
Proof.
  intros Hw Hloc. destruct (wr_place _ _ _ _ _ _ _ _ Hw _ _ _ Hloc) as (Hv & Hact & d & Hd & _).
  assert (Hin : t ∈ sl lv i) by by apply (wr_loc _ _ _ _ _ _ _ _ Hw).
  apply list_elem_of_split in Hin as (a & b & Hab).
  pose proof (wr_ring _ _ _ _ _ _ _ _ Hw lv i Hv ltac:(done)) as Hring.
  rewrite Hab, fmap_app, fmap_cons in Hring.
  pose proof (ring_nodup _ _ _ Hring) as [_ Hnd]%NoDup_cons.
  rewrite <- fmap_cons, <- fmap_app in Hnd. apply NoDup_fmap_1 in Hnd.
  assert (Hta : (t ∉ a) /\ (t ∉ b)).
  { apply NoDup_app in Hnd as (_ & ? & [? _]%NoDup_cons). set_solver. }
  destruct (ring_del_spec _ _ _ _ _ Hring) as (k & Hk & Hring' & Hframe).
  rewrite <- fmap_app in Hring', Hframe.
  unfold detach_timer. rewrite Hact, Hk. cbn [negb obind].
  eexists _, (put sl lv i (a ++ b)). split; [done|].
  assert (Hother : forall x, x <> Head lv i ->
      (forall r, x = Tmr r -> r = t \/ loc !! r <> Some (lv, i)) ->
      nx k x = nx (wlinks w) x /\ pv k x = pv (wlinks w) x).
  { intros x Hx Hr. apply Hframe. rewrite elem_of_cons, list_elem_of_fmap.
    intros [?|(r & -> & Hin)]; [done|]. destruct (Hr r eq_refl) as [->|Hno]; [set_solver|].
    apply Hno, (wr_loc _ _ _ _ _ _ _ _ Hw); [done|]. rewrite Hab. set_solver. }
  split; [|split_and!; try done].
  - constructor; cbn [set_active set_links wlinks expires active tindex timer_ticks]; try apply Hw;
      try done.
    + intros lv' i' Hv' _. destruct (decide ((lv', i') = (lv, i))) as [[= -> ->]|Hne].
      * by rewrite put_eq.
      * rewrite put_ne by done. eapply wrep_other_ring; try done.
        -- intros r Hin%(wr_loc _ _ _ _ _ _ _ _ Hw); [|done]. apply Hother; [done|].
           intros r' [= <-]. right. congruence.
        -- apply Hother; congruence.
        -- apply Hother; congruence.
    + intros lv' i' r Hv'. rewrite lookup_delete_Some, <- (wr_loc _ _ _ _ _ _ _ _ Hw) by done.
      destruct (decide ((lv', i') = (lv, i))) as [[= -> ->]|Hne].
      * rewrite put_eq, Hab. set_solver.
      * rewrite put_ne by done. split; [|tauto]. intros Hin. split; [|done]. intros ->.
        apply (wr_loc _ _ _ _ _ _ _ _ Hw) in Hin; [congruence|done].
    + intros r lv' i' [Hne Hr]%lookup_delete_Some. rewrite fn_lookup_insert_ne by done. by apply Hw.
    + intros r ->%list_elem_of_singleton. rewrite lookup_delete_eq. split; [done|by eexists].
    + apply NoDup_singleton.
    + intros r Hr. destruct (decide (t = r)) as [<-|Hne]; [left; set_solver|].
      rewrite lookup_delete_ne by done. destruct (wr_dom _ _ _ _ _ _ _ _ Hw r Hr) as [?|]; [set_solver|by right].
    + intros r Hr. destruct (decide (t = r)) as [<-|Hne]; [congruence|].
      rewrite fn_lookup_insert_ne by done. by apply Hw.
  - cbn [set_active active]. apply fn_lookup_insert.
  - by rewrite put_eq.
  - intros r. rewrite put_eq, Hab. set_solver.
Qed.

Lemma wrep_drop ex t rest w dl sl loc :
  wrep ex (t :: rest) now p w dl sl loc -> active w t = false ->
  wrep ex rest now p w (delete t dl) sl loc.
Proof.
  intros Hw Hact. pose proof (wr_rest_nodup _ _ _ _ _ _ _ _ Hw) as [Htr Hnd]%NoDup_cons.
  destruct (wr_rest _ _ _ _ _ _ _ _ Hw t) as [Hloc _]; [left|].
  constructor; try apply Hw; try done.
  - intros r lv i Hr. destruct (wr_place _ _ _ _ _ _ _ _ Hw _ _ _ Hr) as (? & ? & d & ? & ?).
    split_and!; try done. exists d. by rewrite lookup_delete_ne by congruence.
  - intros r Hr. rewrite lookup_delete_ne by congruence. apply Hw. by right.
  - intros r [Hne Hr]%lookup_delete_is_Some.
    destruct (wr_dom _ _ _ _ _ _ _ _ Hw r Hr) as [Hin|]; [|by right].
    apply elem_of_cons in Hin as [?|?]; [congruence|by left].
  - intros r [<-|Hr]%lookup_delete_None; [done|by apply Hw].
Qed.

(** A timer outside the lists gets a new time. *)
Lemma wrep_set t w dl sl loc e d :
  (wrep None [] now p w dl sl loc /\ dl !! t = None) \/ wrep None [t] now p w dl sl loc ->
  wrep None [t] now p (set_expires w t e) (<[t := d]> dl) sl loc.
Proof.
  intros Hor. assert (exists rest, wrep None rest now p w dl sl loc
    /\ (forall r, r ∈ rest -> r = t) /\ loc !! t = None) as (rest & Hw & Hrest & Hloc).
  { destruct Hor as [[Hw Hn]|Hw].
    - exists []. split_and!; [done|set_solver|]. destruct (loc !! t) as [[lv i]|] eqn:Hl; [|done].
      destruct (wr_place _ _ _ _ _ _ _ _ Hw _ _ _ Hl) as (_ & _ & d' & ? & _). congruence.
    - exists [t]. split_and!; [done|set_solver|]. apply Hw. left. }
  constructor; cbn [set_expires wlinks expires active tindex timer_ticks]; try apply Hw.
  - intros r lv i Hr. destruct (wr_place _ _ _ _ _ _ _ _ Hw _ _ _ Hr) as (? & ? & d' & ? & ?).
    split_and!; try done. exists d'. rewrite lookup_insert_ne, fn_lookup_insert_ne by congruence. done.
  - intros r ->%list_elem_of_singleton. rewrite lookup_insert_eq. split; [done|by eexists].
  - apply NoDup_singleton.
  - intros r Hr. destruct (decide (t = r)) as [<-|Hne]; [left; set_solver|].
    rewrite lookup_insert_ne in Hr by done.
    destruct (wr_dom _ _ _ _ _ _ _ _ Hw r Hr) as [?%Hrest|]; [congruence|by right].
  - intros r [Hr Hne]%lookup_insert_None. by apply Hw.
  - intros r. destruct (decide (t = r)) as [<-|Hne].
    + rewrite fn_lookup_insert. apply u32_range.
    + rewrite fn_lookup_insert_ne by done. apply Hw.
Qed.

Lemma wrep_unlink t w dl sl loc :
  wrep None [] now p w dl sl loc -> dl !! t = None ->
  wrep None [] now p (unlink_timer w t) dl sl loc.
Proof.
  intros Hw Hn. constructor; cbn [unlink_timer set_links wlinks expires active tindex timer_ticks];
    try apply Hw.
  intros lv i Hv Hex. eapply ring_ext; [|by apply Hw].
  intros x Hx. cbn [set_nx set_pv nx pv]. rewrite !fn_lookup_insert_ne; [done|..].
  all: intros <-; apply elem_of_cons in Hx as [?|(r & [= <-] & Hr)%list_elem_of_fmap]; [done|].
  all: apply (wr_loc _ _ _ _ _ _ _ _ Hw) in Hr; [|done].
  all: destruct (wr_place _ _ _ _ _ _ _ _ Hw _ _ _ Hr) as (_ & _ & d' & ? & _); congruence.
Qed.

Lemma wrep_active t w dl sl loc :
  wrep None [] now p w dl sl loc ->
  match dl !! t with
  | Some _ => active w t = true /\ exists lv i, loc !! t = Some (lv, i)
  | None => active w t = false /\ loc !! t = None
  end.
Proof.
  intros Hw. destruct (dl !! t) as [d|] eqn:Hd.
  - destruct (wr_dom _ _ _ _ _ _ _ _ Hw t) as [?|[[lv i] Hl]]; [by eexists|set_solver|].
    split; [by apply (wr_place _ _ _ _ _ _ _ _ Hw _ _ _ Hl)|by exists lv, i].
  - split; [by apply Hw|]. destruct (loc !! t) as [[lv i]|] eqn:Hl; [|done].
    destruct (wr_place _ _ _ _ _ _ _ _ Hw _ _ _ Hl) as (_ & _ & d' & ? & _). congruence.
Qed.
End Rep.

Lemma due_u32 now e : due now (u32 e) = due now e.
Proof.
  unfold due. assert (u32 (u32 e - now) = u32 (e - now)) as ->; [|done].
  unfold u32, uwrap. by rewrite Zminus_mod_idemp_l.
Qed.

Lemma detach_set_expires w s e t rc w1 :
  detach_timer w t = Ret (rc, w1) ->
  detach_timer (set_expires w s e) t = Ret (rc, set_expires w1 s e).
Proof.
  unfold detach_timer. cbn [set_expires active]. destruct (active w t); cbn [negb].
  - cbn [set_expires wlinks]. destruct (ring_del _ _); cbn [obind]; try done. by intros [= <- <-].
  - by intros [= <- <-].
Qed.

Section Operations.
Context (now : Z) (p : nat -> Z).

Lemma set_attach_spec w t e dl sl loc :
  (wrep None [] now p w dl sl loc /\ dl !! t = None) \/ wrep None [t] now p w dl sl loc ->
  exists w' sl' loc', attach_timer (set_expires w t e) t = Ret w'
    /\ wrep None [] now p w' (<[t := due now e]> dl) sl' loc'
    /\ tindex w' = tindex w /\ calls w' = calls w.
Proof.
  intros Hw. apply (wrep_set _ _ _ _ _ _ _ e (due now e)) in Hw.
  destruct (attach_spec _ _ _ _ _ _ _ _ _ Hw) as (w' & sl' & loc' & ? & ? & _ & ? & ? & _).
  - rewrite lookup_insert_eq. cbn [set_expires expires]. by rewrite fn_lookup_insert, due_u32.
  - done.
  - by exists w', sl', loc'.
Qed.

Lemma del_timer_spec w t dl sl loc :
  wrep None [] now p w dl sl loc ->
  exists w' sl' loc', del_timer w t = Ret (of_bool (bool_decide (is_Some (dl !! t))), w')
    /\ wrep None [] now p w' (delete t dl) sl' loc'
    /\ tindex w' = tindex w /\ calls w' = calls w
    /\ timer_ticks w' = timer_ticks w
    /\ forall lv i, loc !! t = Some (lv, i) -> forall r, r ∈ sl' lv i <-> r ∈ sl lv i /\ r <> t.
Proof.
  intros Hw. pose proof (wrep_active _ _ t _ _ _ _ Hw) as Ha. unfold del_timer.
  destruct (dl !! t) as [d|] eqn:Hd.
  - destruct Ha as (_ & lv & i & Hloc).
    destruct (detach_spec _ _ _ _ _ _ _ _ _ Hw Hloc)
      as (w1 & sl1 & -> & Hw1 & _ & Hti & Hca & Htt & Hact & Hsl & Hin). cbn [obind].
    apply (wrep_drop _ _ _ _ _ _ _ _ _ Hw1) in Hact.
    apply (wrep_unlink _ _ t) in Hact; [|apply lookup_delete_eq].
    do 3 eexists. split; [done|]. split; [exact Hact|]. split_and!; try done.
    intros lv' i' Hl. rewrite Hl in Hloc. by injection Hloc as -> ->.
  - destruct Ha as [Ha Hl]. unfold detach_timer. rewrite Ha. cbn [negb obind].
    apply (wrep_unlink _ _ t) in Hw; [|done].
    do 3 eexists. split; [done|]. split; [by rewrite delete_id|]. split_and!; try done.
    intros lv' i' Hl'. congruence.
Qed.

Lemma mod_timer_spec w t e dl sl loc :
  wrep None [] now p w dl sl loc ->
  exists w' sl' loc', mod_timer w t e = Ret (of_bool (bool_decide (is_Some (dl !! t))), w')
    /\ wrep None [] now p w' (<[t := due now e]> dl) sl' loc'
    /\ tindex w' = tindex w /\ calls w' = calls w.
Proof.
  intros Hw. pose proof (wrep_active _ _ t _ _ _ _ Hw) as Ha. unfold mod_timer.
  destruct (dl !! t) as [d|] eqn:Hd.
  - destruct Ha as (_ & lv & i & Hloc).
    destruct (detach_spec _ _ _ _ _ _ _ _ _ Hw Hloc)
      as (w1 & sl1 & Hdet & Hw1 & _ & Hti & Hca & _).
    rewrite (detach_set_expires _ _ e _ _ _ Hdet). cbn [obind].
    destruct (set_attach_spec w1 t e dl sl1 (delete t loc) (or_intror Hw1))
      as (w' & sl' & loc' & -> & ? & ? & ?). cbn [obind].
    exists w', sl', loc'. split_and!; [done|done|congruence|congruence].
  - destruct Ha as [Ha _]. unfold detach_timer at 1. cbn [set_expires active].
    rewrite Ha. cbn [negb obind].
    destruct (set_attach_spec w t e dl sl loc) as (w' & sl' & loc' & Hat & ? & ? & ?); [auto|].
    rewrite Hat. cbn [obind]. by exists w', sl', loc'.
Qed.

Lemma exec_op_spec w op dl sl loc :
  wrep None [] now p w dl sl loc ->
  exists w' sl' loc', exec_op w op = Ret w'
    /\ wrep None [] now p w' (spec_op now dl op) sl' loc'
    /\ tindex w' = tindex w /\ calls w' = calls w.
Proof.
  intros Hw. destruct op as [t e|t|t e]; cbn [exec_op spec_op].
  - pose proof (wrep_active _ _ t _ _ _ _ Hw) as Ha. destruct (dl !! t) as [d|] eqn:Hd.
    + destruct Ha as [-> _]. by exists w, sl, loc.
    + destruct Ha as [Ha _]. rewrite Ha. unfold add_timer. cbn [set_expires active]. rewrite Ha.
      apply (set_attach_spec w t e dl sl loc). auto.
  - destruct (del_timer_spec w t dl sl loc Hw) as (w' & sl' & loc' & -> & ? & ? & ? & _).
    cbn [obind]. by exists w', sl', loc'.
  - destruct (mod_timer_spec w t e dl sl loc Hw) as (w' & sl' & loc' & -> & ? & ? & ?).
    cbn [obind]. by exists w', sl', loc'.
Qed.

Lemma exec_ops_spec ops w dl sl loc :
  wrep None [] now p w dl sl loc ->
  exists w' sl' loc', exec_ops w ops = Ret w'
    /\ wrep None [] now p w' (spec_ops now dl ops) sl' loc'
    /\ tindex w' = tindex w /\ calls w' = calls w.
Proof.
  revert w dl sl loc. induction ops as [|op ops IH]; intros w dl sl loc Hw; cbn [exec_ops].
  - by exists w, sl, loc.
  - destruct (exec_op_spec w op dl sl loc Hw) as (w1 & sl1 & loc1 & -> & Hw1 & Hi1 & Hc1).
    cbn [obind]. destruct (IH _ _ _ _ Hw1) as (w' & sl' & loc' & Hr & ? & Hi & Hc).
    exists w', sl', loc'. split_and!; [done|done|congruence|congruence].
Qed.
End Operations.

Lemma due_exact now d e : now <= d < now + 2 ^ 31 -> u32 d = e -> due now e = d.
Proof.
  intros Hd <-. rewrite due_u32. unfold due. rewrite u32_small by (unfold is_u32; lia).
  rewrite (proj2 (Z.ltb_lt _ _)) by lia. lia.
Qed.

Lemma wrep_slot_nodup ex rest now p w dl sl loc lv i :
  wrep ex rest now p w dl sl loc -> valid lv i -> ex <> Some (lv, i) ->
  NoDup (sl lv i) /\ (length (sl lv i) <= size dl)%nat.
Proof.
  intros Hw Hv Hex. pose proof (ring_nodup _ _ _ (wr_ring _ _ _ _ _ _ _ _ Hw lv i Hv Hex)) as Hnd.
  apply NoDup_cons in Hnd as [_ Hnd%NoDup_fmap_1]. split; [done|].
  rewrite <- (size_list_to_set (C:=gset nat)) by done. rewrite <- (size_dom (D:=gset nat)).
  apply subseteq_size. intros t Ht%elem_of_list_to_set. apply elem_of_dom.
  apply (wr_loc _ _ _ _ _ _ _ _ Hw) in Ht; [|done].
  destruct (wr_place _ _ _ _ _ _ _ _ Hw _ _ _ Ht) as (_ & _ & d & ? & _). by eexists.
Qed.

Section Cascade.
Context (now : Z).

Lemma cascade_loop_spec p lv i : (0 < lv)%nat ->
  forall rest fuel w curr dl sl loc,
  wrep (Some (lv, i)) rest now p w dl sl loc ->
  (forall t, t ∈ rest -> exists d, dl !! t = Some d /\ now <= d < now + gran lv /\ u32 d = expires w t) ->
  seg (nx (wlinks w)) (Some curr) (Tmr <$> rest) (Some (Head lv i)) ->
  (length rest <= fuel)%nat ->
  exists w' sl' loc', cascade_loop fuel w (Head lv i) curr = Ret w'
    /\ wrep (Some (lv, i)) [] now p w' dl sl' loc' /\ sl' lv i = sl lv i
    /\ tindex w' = tindex w /\ calls w' = calls w.
Proof.
  intros Hlv. induction rest as [|t rest IH]; intros fuel w curr dl sl loc Hw Hd Hseg Hf.
  - simpl in Hseg. injection Hseg as ->. exists w, sl, loc.
    destruct fuel; simpl; rewrite decide_True; done.
  - destruct Hseg as [[= ->] Hseg]. simpl in Hf. destruct fuel as [|fuel]; [lia|].
    cbn [cascade_loop]. rewrite decide_False by done.
    destruct (Hd t) as (d & Hdt & Hr & He); [left|].
    pose proof (gran_pos lv).
    assert (Hdue : due now (expires w t) = d) by (apply due_exact; lia || done).
    assert (Hnext : exists next, nx (wlinks w) (Tmr t) = Some next).
    { destruct rest; simpl in Hseg; [by eexists|]. destruct Hseg as [-> _]. by eexists. }
    destruct Hnext as [next Hnext]. rewrite Hnext in *. cbn [deref obind].
    destruct (attach_spec _ _ _ _ _ _ _ _ _ Hw) as (w1 & sl1 & loc1 & -> & Hw1 & Hex & Hti & Hca & Hnx & Hhd).
    { by rewrite Hdue. }
    { intros lv' i' Hvec [= <- <-].
      destruct (timer_vec_spec w t now (wr_now _ _ _ _ _ _ _ _ Hw) (wr_index0 _ _ _ _ _ _ _ _ Hw)
        (wr_exp _ _ _ _ _ _ _ _ Hw t)) as (lv' & i' & Hv & _ & _ & Hg & _).
      rewrite Hvec in Hv. injection Hv as <- <-. destruct Hg as [_ Hg]; [lia|].
      rewrite Hdue in Hg. lia. }
    cbn [obind]. destruct (Hhd lv i eq_refl) as [Hsl _].
    destruct (IH fuel w1 next dl sl1 loc1 Hw1) as (w' & sl' & loc' & Hr' & ? & Hs' & ? & ?).
    + intros r Hin. rewrite Hex. apply Hd. by right.
    + eapply seg_ext; [|exact Hseg]. intros x (r & -> & Hin)%list_elem_of_fmap. by apply Hnx.
    + lia.
    + exists w', sl', loc'. split_and!; [done|done|congruence|congruence|congruence].
Qed.

(** The list at the index of level [lv] is taken out of the rings. *)
Lemma wrep_open p w dl sl loc lv i :
  wrep None [] now p w dl sl loc -> valid lv i ->
  exists loc', wrep (Some (lv, i)) (sl lv i) now p w dl (put sl lv i []) loc'.
Proof.
  intros Hw Hv. exists (filter (fun kv => kv.2 <> (lv, i)) loc).
  destruct (wrep_slot_nodup _ _ _ _ _ _ _ _ lv i Hw Hv ltac:(done)) as [Hnd _].
  constructor; try apply Hw; try done.
  - intros lv' i' Hv' Hne. rewrite put_ne by congruence. by apply Hw.
  - intros lv' i' t Hv'. rewrite map_lookup_filter_Some. simpl.
    destruct (decide ((lv', i') = (lv, i))) as [[= -> ->]|Hne].
    + rewrite put_eq. split; [set_solver|tauto].
    + rewrite put_ne, (wr_loc _ _ _ _ _ _ _ _ Hw) by done. tauto.
  - intros t lv' i' [Hl _]%map_lookup_filter_Some. by apply Hw.
  - intros t Ht%(wr_loc _ _ _ _ _ _ _ _ Hw); [|done]. split.
    + apply map_lookup_filter_None. right. rewrite Ht. intros x [= <-] ?. done.
    + destruct (wr_place _ _ _ _ _ _ _ _ Hw _ _ _ Ht) as (_ & _ & d & ? & _). by eexists.
  - intros t Ht. destruct (wr_dom _ _ _ _ _ _ _ _ Hw t Ht) as [?|[[lv' i'] Hl]]; [set_solver|].
    destruct (decide ((lv', i') = (lv, i))) as [[= -> ->]|Hne].
    + left. by apply (wr_loc _ _ _ _ _ _ _ _ Hw).
    + right. exists (lv', i'). by apply map_lookup_filter_Some.
Qed.

Lemma ceil_here lv : now mod gran lv = 0 -> ceil lv now = now / gran lv /\ ceil lv (now + 1) = now / gran lv + 1.
Proof.
  pose proof (gran_pos lv). intros Hm. unfold ceil.
  pose proof (Z.div_mod now (gran lv) ltac:(lia)) as Hdm. rewrite Hm in Hdm.
  set (q := now / gran lv) in *. split.
  - symmetry. apply Z.div_unique with (gran lv - 1); lia.
  - symmetry. apply Z.div_unique with 0; lia.
Qed.

Lemma ceil_skip lv : now mod gran lv <> 0 -> ceil lv (now + 1) = ceil lv now.
Proof.
  pose proof (gran_pos lv). intros Hm. unfold ceil.
  pose proof (Z.div_mod now (gran lv) ltac:(lia)) as Hdm.
  pose proof (Z.mod_pos_bound now (gran lv) ltac:(lia)).
  set (q := now / gran lv) in *. transitivity (q + 1).
  - symmetry. apply Z.div_unique with (now mod gran lv + 1 + gran lv - 1 - gran lv); lia.
  - apply Z.div_unique with (now mod gran lv - 1); lia.
Qed.

(** A level that need not be cascaded at [now] waits for the next tick. *)
Lemma wrep_bump p p' w dl sl loc :
  wrep None [] now p w dl sl loc ->
  p' 0%nat = p 0%nat ->
  (forall lv, (0 < lv < NOOF_TVECS)%nat -> ceil lv (p' lv) = ceil lv (p lv)) ->
  (forall lv, p' lv = now \/ p' lv = now + 1) ->
  wrep None [] now p' w dl sl loc.
Proof.
  intros Hw H0 Hc Hp. destruct (wr_p _ _ _ _ _ _ _ _ Hw) as [Hz _].
  constructor; try apply Hw; try congruence.
  - intros t lv i Hl. destruct (wr_place _ _ _ _ _ _ _ _ Hw _ _ _ Hl) as (Hv & ? & d & ? & Hpl & ?).
    split_and!; try apply Hv; try done. exists d. split; [done|]. split; [|done]. unfold placed in *.
    destruct lv; [by rewrite H0|]. by rewrite Hc by (destruct Hv; lia).
  - intros lv Hlv. rewrite Hc by done. by apply Hw.
  - split; [congruence|done].
Qed.

Lemma cascade_timers_spec p fuel w dl sl loc lv :
  wrep None [] now p w dl sl loc -> (0 < lv < NOOF_TVECS)%nat -> p lv = now ->
  now mod gran lv = 0 -> (size dl <= fuel)%nat ->
  exists w' sl' loc', cascade_timers fuel w lv = Ret w'
    /\ wrep None [] now (<[lv := now + 1]> p) w' dl sl' loc'
    /\ tindex w' 0%nat = tindex w 0%nat /\ calls w' = calls w.
Proof.
  intros Hw Hlv Hp Hm Hf. destruct (ceil_here lv Hm) as [Hc Hc1]. pose proof (gran_pos lv) as Hg.
  pose proof (wr_index _ _ _ _ _ _ _ _ Hw lv Hlv) as Hix. rewrite Hp, Hc in Hix.
  assert (Hns : nslots lv = 64) by (by destruct lv; [lia|]).
  set (i := tindex w lv) in *. assert (Hv : valid lv i).
  { split; [lia|]. rewrite Hns, Hix. apply Z.mod_pos_bound. lia. }
  destruct (wrep_slot_nodup _ _ _ _ _ _ _ _ lv i Hw Hv ltac:(done)) as [_ Hlen].
  pose proof (wr_ring _ _ _ _ _ _ _ _ Hw lv i Hv ltac:(done)) as Hring.
  pose proof (ring_next _ _ _ Hring) as Hnx. destruct Hring as ([_ Hseg] & _ & _).
  destruct (wrep_open _ _ _ _ _ _ _ Hw Hv) as [loc1 Hw1].
  assert (Hcurr : exists curr, nx (wlinks w) (Head lv i) = Some curr)
    by (rewrite Hnx; destruct (sl lv i); by eexists).
  destruct Hcurr as [curr Hcurr]. rewrite Hcurr in Hseg.
  assert (Hrange : forall t d, loc !! t = Some (lv, i) -> dl !! t = Some d -> placed (p lv) lv i d ->
    now <= d < now + gran lv).
  { intros t d _ _ [Hi Hr]. rewrite Hp, Hc, Hns in *. rewrite Hix in Hi.
    pose proof (Z.div_mod now (gran lv) ltac:(lia)). pose proof (Z.div_mod d (gran lv) ltac:(lia)).
    pose proof (Z.mod_pos_bound d (gran lv) ltac:(lia)).
    assert (d / gran lv = now / gran lv) as Heq.
    { pose proof (Z.div_mod (d / gran lv) 64 ltac:(lia)).
      pose proof (Z.div_mod (now / gran lv) 64 ltac:(lia)). lia. }
    rewrite Heq in *. lia. }
  destruct (cascade_loop_spec p lv i ltac:(lia) _ fuel _ curr _ _ _ Hw1)
    as (w2 & sl2 & loc2 & Hloop & Hw2 & Hsl2 & Hti & Hca).
  { intros t Ht%(wr_loc _ _ _ _ _ _ _ _ Hw); [|done].
    destruct (wr_place _ _ _ _ _ _ _ _ Hw _ _ _ Ht) as (_ & _ & d & Hd & Hpl & He).
    exists d. split_and!; [done|by eapply Hrange|by eapply Hrange|]. apply He. lia. }
  { exact Hseg. } { lia. }
  unfold cascade_timers. fold i. rewrite Hcurr. cbn [deref obind]. rewrite Hloop. cbn [obind].
  rewrite put_eq in Hsl2. do 3 eexists. split; [done|]. split; [|split; [|done]].
  - constructor; cbn [set_index set_links wlinks expires active tindex timer_ticks]; try apply Hw2; try done.
    + intros lv' i' Hv' _. destruct (decide ((lv', i') = (lv, i))) as [[= -> ->]|Hne].
      * rewrite Hsl2. simpl. unfold self_link. apply ring_empty; cbn [set_nx set_pv nx pv];
          apply fn_lookup_insert.
      * eapply ring_ext; [|apply (wr_ring _ _ _ _ _ _ _ _ Hw2 lv' i' Hv'); congruence].
        intros x Hx. unfold self_link. cbn [set_nx set_pv nx pv].
        rewrite !fn_lookup_insert_ne; [done|..];
          intros <-; apply elem_of_cons in Hx as [?|(r & ? & _)%list_elem_of_fmap]; congruence.
    + intros t lv' i' Hl. destruct (wr_place _ _ _ _ _ _ _ _ Hw2 _ _ _ Hl) as (Hv' & ? & d & ? & Hpl & ?).
      split_and!; try apply Hv'; try done. exists d. split; [done|]. split; [|done].
      destruct (decide (lv = lv')) as [<-|Hne]; [|by rewrite fn_lookup_insert_ne].
      rewrite fn_lookup_insert. destruct Hpl as [Hi Hr]. split; [done|].
      rewrite Hc1. rewrite Hp, Hc, Hns in *.
      assert (i' <> i).
      { intros ->. apply (wr_loc _ _ _ _ _ _ _ _ Hw2) in Hl; [|done]. rewrite Hsl2 in Hl. set_solver. }
      assert (d / gran lv <> now / gran lv) by congruence. lia.
    + rewrite fn_lookup_insert_ne by lia. by apply Hw2.
    + intros lv' Hlv'. rewrite Hti. destruct (decide (lv = lv')) as [<-|Hne].
      * rewrite !fn_lookup_insert, Hc1. fold i. change TVN_MASK with (Z.ones 6).
        rewrite Z.land_ones, Hix by lia. change (2 ^ 6) with 64. by rewrite Zplus_mod_idemp_l.
      * rewrite !fn_lookup_insert_ne by done. rewrite <- Hti. by apply Hw2.
    + destruct (wr_p _ _ _ _ _ _ _ _ Hw2) as [? Hpp]. split.
      * by rewrite fn_lookup_insert_ne by lia.
      * intros lv'. destruct (decide (lv = lv')) as [<-|Hne].
        -- rewrite fn_lookup_insert. auto.
        -- by rewrite fn_lookup_insert_ne.
  - cbn [set_index set_links tindex]. rewrite fn_lookup_insert_ne by lia. by rewrite Hti.
Qed.
End Cascade.

(** ** Fuel: more of it does not change a result *)

Ltac binds := repeat match goal with
  | H : obind ?c _ = Ret _ |- _ => destruct c eqn:?; cbn [obind] in H; try discriminate H
  end.

Lemma cascade_loop_mono fuel fuel' w head curr w' :
  cascade_loop fuel w head curr = Ret w' -> (fuel <= fuel')%nat ->
  cascade_loop fuel' w head curr = Ret w'.
Proof.
  revert fuel' w curr. induction fuel as [|fuel IH]; intros [|fuel'] w curr Hr Hle;
    cbn [cascade_loop] in *; try lia; destruct (decide (curr = head)); try done.
  destruct curr; [done|]. binds. cbn [obind]. apply IH; [done|lia].
Qed.

Lemma cascade_timers_mono fuel fuel' w lv w' :
  cascade_timers fuel w lv = Ret w' -> (fuel <= fuel')%nat -> cascade_timers fuel' w lv = Ret w'.
Proof.
  unfold cascade_timers. intros Hr Hle. binds. cbn [obind].
  by rewrite (cascade_loop_mono fuel fuel' _ _ _ _ Heqo0 Hle).
Qed.

Lemma cascade_all_mono m fuel fuel' w n w' :
  cascade_all fuel w n m = Ret w' -> (fuel <= fuel')%nat -> cascade_all fuel' w n m = Ret w'.
Proof.
  revert w n. induction m as [|m IH]; intros w n Hr Hle; cbn [cascade_all] in *; [done|].
  binds. rewrite (cascade_timers_mono _ fuel' _ _ _ Heqo Hle). cbn [obind].
  destruct (_ =? 1); [by apply IH|done].
Qed.

Section RunProofs.
Context (handler : list (Z * nat) -> list tmr_op).

Lemma expire_loop_mono fuel fuel' w w' :
  expire_loop handler fuel w = Ret w' -> (fuel <= fuel')%nat -> expire_loop handler fuel' w = Ret w'.
Proof.
  revert fuel' w. induction fuel as [|fuel IH]; intros [|fuel'] w Hr Hle;
    cbn [expire_loop] in *; try lia; destruct (deref _) as [curr| | |]; cbn [obind] in *; try done;
    destruct (decide (curr = _)); try done.
  destruct curr as [|t]; [done|]. binds. cbn [obind]. destruct a as [? w1]. binds. cbn [obind].
  apply IH; [done|lia].
Qed.

Lemma run_tick_mono fuel fuel' w w' :
  run_tick handler fuel w = Ret w' -> (fuel <= fuel')%nat -> run_tick handler fuel' w = Ret w'.
Proof.
  unfold run_tick. intros Hr Hle. destruct (_ =? 0); binds; cbn [obind] in *.
  - rewrite (cascade_all_mono _ fuel fuel' _ _ _ Heqo Hle). cbn [obind].
    by rewrite (expire_loop_mono fuel fuel' _ _ Heqo0 Hle).
  - injection Heqo as ->. by rewrite (expire_loop_mono fuel fuel' _ _ Heqo0 Hle).
Qed.

Lemma run_timer_list_mono n fuel fuel' w ticks w' :
  run_timer_list handler n fuel w ticks = Ret w' -> (fuel <= fuel')%nat ->
  run_timer_list handler n fuel' w ticks = Ret w'.
Proof.
  revert w. induction n as [|n IH]; intros w Hr Hle; cbn [run_timer_list] in *;
    destruct (0 <=? _); try done.
  binds. rewrite (run_tick_mono fuel fuel' _ _ Heqo Hle). cbn [obind]. by apply IH.
Qed.

(** ** A tick *)

Definition waits (now more : Z) (lv : nat) : Z := if (0 <? lv)%nat then now + more else now.

Lemma gran_down now n k :
  (0 < n < k)%nat -> (k < NOOF_TVECS)%nat -> now mod gran k = 0 -> (now / gran n) mod 64 = 0.
Proof.
  unfold NOOF_TVECS. intros Hn Hk Hm.
  assert (exists c, gran k = 64 * c * gran n) as [c Hc].
  { exists (gran k / (64 * gran n)).
    destruct n as [|[|[|[|n]]]]; try lia; destruct k as [|[|[|[|[|k]]]]]; try lia; reflexivity. }
  pose proof (gran_pos k). pose proof (gran_pos n).
  pose proof (Z.div_mod now (gran k) ltac:(lia)) as Hd. rewrite Hm, Z.add_0_r in Hd.
  set (q := now / gran k) in *. clearbody q.
  replace now with (c * q * 64 * gran n) by (rewrite Hd, Hc; ring).
  rewrite Z.div_mul by lia. apply Z.mod_mul. lia.
Qed.

Lemma gran_up now n :
  (0 < n)%nat -> (S n < NOOF_TVECS)%nat -> now mod gran n = 0 -> (now / gran n) mod 64 = 0 ->
  now mod gran (S n) = 0.
Proof.
  unfold NOOF_TVECS. intros Hn Hk Hm Hz.
  assert (gran (S n) = 64 * gran n) as -> by (destruct n as [|[|[|[|n]]]]; lia || reflexivity).
  pose proof (gran_pos n). pose proof (Z.div_mod now (gran n) ltac:(lia)) as Hd.
  pose proof (Z.div_mod (now / gran n) 64 ltac:(lia)) as Hd2. rewrite Hm in Hd. rewrite Hz in Hd2.
  replace now with ((now / gran n) / 64 * (64 * gran n)) by lia. apply Z.mod_mul. lia.
Qed.

Lemma cascade_all_spec now fuel dl m : forall n p w sl loc,
  wrep None [] now p w dl sl loc -> (0 < n)%nat -> (n + m)%nat = NOOF_TVECS ->
  (forall k, (0 < k < n)%nat -> p k = now + 1) -> (forall k, (n <= k)%nat -> p k = now) ->
  (m <> 0%nat -> now mod gran n = 0) -> (size dl <= fuel)%nat ->
  exists w' sl' loc', cascade_all fuel w n m = Ret w'
    /\ wrep None [] now (waits now 1) w' dl sl' loc' /\ calls w' = calls w.
Proof.
  induction m as [|m IH]; intros n p w sl loc Hw Hn Hnm Hlo Hhi Hm Hf; cbn [cascade_all].
  - exists w, sl, loc. split_and!; try done. destruct (wr_p _ _ _ _ _ _ _ _ Hw) as [H0 _].
    apply (wrep_bump _ p); try done; unfold waits.
    + intros lv Hlv. destruct (Nat.ltb_spec 0 lv); [|lia]. by rewrite Hlo by lia.
    + intros lv. destruct (0 <? lv)%nat; auto.
  - specialize (Hm ltac:(done)).
    destruct (cascade_timers_spec now p fuel w dl sl loc n Hw) as (w1 & sl1 & loc1 & -> & Hw1 & _ & Hc1);
      [lia|by apply Hhi|done|done|].
    cbn [obind]. pose proof (wr_index _ _ _ _ _ _ _ _ Hw1 n ltac:(lia)) as Hi.
    rewrite fn_lookup_insert, (proj2 (ceil_here now n Hm)) in Hi.
    pose proof (Z.mod_pos_bound (now / gran n) 64 ltac:(lia)).
    assert (Hi1 : tindex w1 n = 1 <-> (now / gran n) mod 64 = 0).
    { rewrite Hi. pose proof (Z.div_mod (now / gran n) 64 ltac:(lia)).
      rewrite Z.add_mod by lia. change (1 mod 64) with 1. split; intros Hz.
      - destruct (decide ((now / gran n) mod 64 = 63)) as [He|]; [by rewrite He in Hz|].
        rewrite Z.mod_small in Hz; lia.
      - by rewrite Hz. }
    zcase.
    + destruct (IH (S n) (<[n:=now + 1]> p) w1 sl1 loc1 Hw1) as (w' & sl' & loc' & ? & ? & ?); try lia.
      * intros k Hk. destruct (decide (n = k)) as [<-|]; [by rewrite fn_lookup_insert|].
        rewrite fn_lookup_insert_ne by done. apply Hlo. lia.
      * intros k Hk. rewrite fn_lookup_insert_ne by lia. apply Hhi. lia.
      * intros ?. apply gran_up; lia.
      * exists w', sl', loc'. split_and!; [done|done|congruence].
    + exists w1, sl1, loc1. split_and!; try done. destruct (wr_p _ _ _ _ _ _ _ _ Hw1) as [H0 _].
      apply (wrep_bump _ _ _ _ _ _ _ Hw1); unfold waits; [done| |].
      * intros lv Hlv. destruct (Nat.ltb_spec 0 lv); [|lia].
        destruct (decide (n = lv)) as [<-|]; [by rewrite fn_lookup_insert|].
        rewrite fn_lookup_insert_ne by done. destruct (decide (lv < n)%nat); [by rewrite Hlo by lia|].
        rewrite (Hhi lv) by lia. apply ceil_skip. intros Hz.
        rewrite (gran_down now n lv) in Hi1 by (done || lia). tauto.
      * intros lv. destruct (0 <? lv)%nat; auto.
Qed.

Definition pending (now : Z) (dl : deadlines) : gset nat := dom (filter (fun kv => kv.2 = now) dl).

Lemma elem_of_pending now dl t : t ∈ pending now dl <-> dl !! t = Some now.
Proof.
  unfold pending. rewrite elem_of_dom. split.
  - intros [d [Hd Hn]%map_lookup_filter_Some]. simpl in Hn. by subst.
  - intros Hd. exists now. by apply map_lookup_filter_Some.
Qed.

Lemma due_future now e : 0 < u32 (e - u32 now) < 2 ^ 31 -> now < due now e.
Proof.
  assert (u32 (e - u32 now) = u32 (e - now)) as ->
    by (unfold u32, uwrap; by rewrite Zminus_mod_idemp_r).
  intros H. unfold due. rewrite (proj2 (Z.ltb_lt _ _)) by lia. lia.
Qed.

Lemma pending_ops now t dl ops :
  Forall (fun op => match op with
    | Arm _ e | Mod _ e => 0 < u32 (e - u32 now) < 2 ^ 31 | Del _ => True end) ops ->
  pending now (spec_ops now (delete t dl) ops) ⊆ pending now dl ∖ {[t]}.
Proof.
  intros Hops.
  assert (pending now (delete t dl) ⊆ pending now dl ∖ {[t]}) as Hd.
  { intros r. rewrite elem_of_difference, !elem_of_pending, lookup_delete_Some. set_solver. }
  revert Hd. generalize (delete t dl). induction Hops as [|op ops Hop _ IH]; intros d Hd; [done|].
  apply (IH (spec_op now d op)). etrans; [|exact Hd]. intros r. rewrite !elem_of_pending.
  destruct op as [u e|u|u e]; simpl.
  - destruct (d !! u); [done|]. intros [[<- Hn]|[_ ?]]%lookup_insert_Some; [|done].
    apply due_future in Hop. lia.
  - by intros [_ ?]%lookup_delete_Some.
  - intros [[<- Hn]|[_ ?]]%lookup_insert_Some; [|done]. apply due_future in Hop. lia.
Qed.

Lemma placed_ge p lv i d : placed p lv i d -> p <= d.
Proof.
  intros [_ [Hc _]]. unfold ceil in Hc. pose proof (gran_pos lv).
  pose proof (Z.div_mod d (gran lv) ltac:(lia)). pose proof (Z.mod_pos_bound d (gran lv) ltac:(lia)).
  pose proof (Z.div_mod (p + gran lv - 1) (gran lv) ltac:(lia)).
  pose proof (Z.mod_pos_bound (p + gran lv - 1) (gran lv) ltac:(lia)).
  pose proof (Z.mul_le_mono_nonneg_l ((p + gran lv - 1) / gran lv) (d / gran lv) (gran lv)). lia.
Qed.

Lemma valid_now now : valid 0 (now mod 256).
Proof. split; [unfold NOOF_TVECS; lia|]. cbn [nslots]. apply Z.mod_pos_bound. lia. Qed.

(** The timers of the current list are those due now. *)
Lemma current_list now w dl sl loc t :
  wrep None [] now (waits now 1) w dl sl loc -> t ∈ sl 0%nat (now mod 256) <-> dl !! t = Some now.
Proof.
  intros Hw. pose proof (valid_now now) as Hv.
  rewrite (wr_loc _ _ _ _ _ _ _ _ Hw) by done. split.
  - intros Hl. destruct (wr_place _ _ _ _ _ _ _ _ Hw _ _ _ Hl) as (_ & _ & d & Hd & [Hi Hr] & _).
    unfold waits, ceil in *. cbn [gran nslots] in *. rewrite !Z.div_1_r in *. simpl in Hr.
    rewrite Hd. f_equal. lia_mod.
  - intros Hd. destruct (wr_dom _ _ _ _ _ _ _ _ Hw t) as [?|[[lv i] Hl]]; [by eexists|set_solver|].
    destruct (wr_place _ _ _ _ _ _ _ _ Hw _ _ _ Hl) as ([Hlv _] & _ & d & Hd' & Hpl & _).
    rewrite Hd in Hd'. injection Hd' as <-. pose proof (placed_ge _ _ _ _ Hpl) as Hge.
    destruct lv as [|lv]; [|unfold waits in Hge; simpl in Hge; lia].
    destruct Hpl as [Hi _]. cbn [gran nslots] in Hi. by rewrite Z.div_1_r in Hi; subst.
Qed.

Lemma expire_loop_spec now : future_handler handler -> forall fuel w dl sl loc,
  wrep None [] now (waits now 1) w dl sl loc -> (size (pending now dl) <= fuel)%nat ->
  exists w' dl' sl' loc', expire_loop handler fuel w = Ret w'
    /\ wrep None [] now (waits now 1) w' dl' sl' loc'
    /\ rtc (tstep handler) (TSpec now dl (calls w)) (TSpec now dl' (calls w'))
    /\ forall t d, dl' !! t = Some d -> now < d.
Proof.
  intros Hfut. pose proof (valid_now now) as Hv.
  induction fuel as [|fuel IH]; intros w dl sl loc Hw Hf.
  all: assert (Hcur := fun t => current_list now w dl sl loc t Hw).
  all: pose proof (ring_next _ _ _ (wr_ring _ _ _ _ _ _ _ _ Hw 0%nat _ Hv ltac:(done))) as Hnx.
  all: cbn [expire_loop]; rewrite (wr_index0 _ _ _ _ _ _ _ _ Hw), Hnx.
  all: assert (Hdone : sl 0%nat (now mod 256) = [] -> forall t d, dl !! t = Some d -> now < d).
  1,3: intros Hnil t d Hd; destruct (wr_dom _ _ _ _ _ _ _ _ Hw t) as [?|[[lv i] Hl]];
    [by eexists|set_solver|];
    destruct (wr_place _ _ _ _ _ _ _ _ Hw _ _ _ Hl) as (_ & _ & d' & Hd' & Hpl & _);
    rewrite Hd in Hd'; injection Hd' as <-; apply placed_ge in Hpl;
    assert (d <> now) by (intros ->; apply Hcur in Hd; rewrite Hnil in Hd; set_solver);
    unfold waits in Hpl; destruct (0 <? lv)%nat; lia.
  all: destruct (sl 0%nat (now mod 256)) as [|t l] eqn:Hsl; cbn [fmap list_fmap app head deref obind].
  - rewrite decide_True by done. exists w, dl, sl, loc.
    split; [done|]. split; [done|]. split; [apply rtc_refl|by apply Hdone].
  - exfalso. assert (Hin : t ∈ pending now dl) by (apply elem_of_pending, Hcur; left).
    assert (pending now dl = ∅) as He by (apply leibniz_equiv, size_empty_inv; lia).
    rewrite He in Hin. set_solver.
  - rewrite decide_True by done. exists w, dl, sl, loc.
    split; [done|]. split; [done|]. split; [apply rtc_refl|by apply Hdone].
  - rewrite decide_False by done. assert (Hdt : dl !! t = Some now) by (apply Hcur; left).
    destruct (del_timer_spec _ _ w t dl sl loc Hw) as (w1 & sl1 & loc1 & Hdel & Hw1 & Hi1 & Hc1 & Ht1 & _).
    unfold del_timer in Hdel. destruct (detach_timer w t) as [[rc w0]| | |]; cbn [obind] in *;
      try discriminate Hdel. injection Hdel as _ ->.
    set (cs := (u32 now, t) :: calls w).
    assert (Hw2 : wrep None [] now (waits now 1)
      (Wheel (wlinks w1) (expires w1) (active w1) (tindex w1) (timer_ticks w1) cs) (delete t dl) sl1 loc1)
      by (constructor; apply Hw1).
    unfold call_handler. rewrite Hc1, Ht1, (wr_now _ _ _ _ _ _ _ _ Hw). fold cs.
    rewrite (wr_now _ _ _ _ _ _ _ _ Hw1) in Hw2.
    destruct (exec_ops_spec _ _ (handler cs) _ _ _ _ Hw2) as (w3 & sl3 & loc3 & -> & Hw3 & _ & Hc3).
    cbn [obind]. pose proof (pending_ops now t dl (handler cs) (Hfut _ _ _)) as Hpend.
    apply subseteq_size in Hpend. assert (Hin : t ∈ pending now dl) by by apply elem_of_pending.
    rewrite size_difference, size_singleton in Hpend by set_solver.
    assert (0 < size (pending now dl))%nat.
    { destruct (size (pending now dl)) eqn:Hz; [|lia]. apply size_empty_inv in Hz. set_solver. }
    destruct (IH w3 _ sl3 loc3 Hw3) as (w' & dl' & sl' & loc' & ? & ? & Hr & ?); [lia|].
    exists w', dl', sl', loc'. split_and!; try done. eapply rtc_l; [|exact Hr].
    rewrite Hc3. cbn [calls]. by apply tstep_fire.
Qed.

Lemma run_tick_spec now w dl : future_handler handler -> wheel_at now 0 w dl ->
  exists fuel w' dl', run_tick handler fuel w = Ret w' /\ wheel_at (now + 1) 0 w' dl'
    /\ rtc (tstep handler) (TSpec now dl (calls w)) (TSpec (now + 1) dl' (calls w')).
Proof.
  intros Hfut (sl & loc & Hw). pose proof (wr_index0 _ _ _ _ _ _ _ _ Hw) as Hi0.
  assert (Hfirst : exists w1 sl1 loc1,
    (forall fuel, (size dl <= fuel)%nat -> (if tindex w 0%nat =? 0
        then cascade_all fuel w 1 (NOOF_TVECS - 1) else Ret w) = Ret w1)
    /\ wrep None [] now (waits now 1) w1 dl sl1 loc1 /\ calls w1 = calls w).
  { rewrite Hi0. destruct (Z.eqb_spec (now mod 256) 0) as [Hz|Hz].
    - destruct (cascade_all_spec now (size dl) dl (NOOF_TVECS - 1) 1 _ w sl loc Hw)
        as (w1 & sl1 & loc1 & Hc & Hw1 & Hc1); try done; try lia.
      + intros k Hk. destruct (Nat.ltb_spec 0 k); [lia|done].
      + exists w1, sl1, loc1. split_and!; try done. intros fuel Hf. by eapply cascade_all_mono.
    - exists w, sl, loc. split_and!; try done. apply (wrep_bump _ _ _ _ _ _ _ Hw); try done.
      + intros lv Hlv. unfold waits. destruct (Nat.ltb_spec 0 lv); [|lia]. rewrite Z.add_0_r.
        apply ceil_skip. intros Hm. apply Hz. unfold NOOF_TVECS in Hlv.
        destruct lv as [|[|[|[|[|lv]]]]]; try lia; cbn [gran] in Hm; lia_mod.
      + intros lv. unfold waits. destruct (0 <? lv)%nat; auto. }
  destruct Hfirst as (w1 & sl1 & loc1 & Hcasc & Hw1 & Hc1).
  destruct (expire_loop_spec now Hfut (size (pending now dl)) w1 dl sl1 loc1 Hw1 ltac:(lia))
    as (w2 & dl2 & sl2 & loc2 & Hexp & Hw2 & Hr & Hlt).
  exists (size dl + size (pending now dl))%nat, (next_tick w2), dl2. split.
  { unfold run_tick. rewrite Hcasc by lia. cbn [obind].
    by rewrite (expire_loop_mono _ _ _ _ Hexp) by lia. }
  split.
  - exists sl2, loc2. pose proof (wr_now _ _ _ _ _ _ _ _ Hw2) as Hn2.
    constructor; cbn [next_tick wlinks expires active tindex timer_ticks]; try apply Hw2.
    + intros t lv i Hl. destruct (wr_place _ _ _ _ _ _ _ _ Hw2 _ _ _ Hl) as (Hv & ? & d & Hd & Hpl & ?).
      split_and!; try apply Hv; try done. exists d. split; [done|]. split; [|done].
      destruct lv as [|lv]; [|unfold waits in Hpl; simpl in *; by rewrite Z.add_0_r].
      specialize (Hlt _ _ Hd). unfold placed, waits, ceil in *. cbn [gran nslots] in *.
      rewrite !Z.div_1_r in *. simpl in *. lia.
    + rewrite Hn2. unfold u32, uwrap. by rewrite Zplus_mod_idemp_l.
    + rewrite fn_lookup_insert, (wr_index0 _ _ _ _ _ _ _ _ Hw2). change TVR_MASK with (Z.ones 8).
      rewrite Z.land_ones by lia. change (2 ^ 8) with 256. by rewrite Zplus_mod_idemp_l.
    + intros lv Hlv. rewrite fn_lookup_insert_ne by lia.
      rewrite (wr_index _ _ _ _ _ _ _ _ Hw2) by done. unfold waits.
      destruct (Nat.ltb_spec 0 lv); [|lia]. by rewrite Z.add_0_r.
    + split; [done|]. intros lv. destruct (0 <? lv)%nat; rewrite ?Z.add_0_r; auto.
  - rewrite <- Hc1. eapply rtc_r; [exact Hr|]. by apply tstep_tick.
Qed.
End RunProofs.

Definition in_vec (lv n : nat) (x : tnode) : bool :=
  match x with
  | Head l i => (l =? lv)%nat && (0 <=? i) && (i <? Z.of_nat n)
  | Tmr _ => false
  end.

Lemma init_vec_spec lv n k x :
  nx (init_vec k lv n) x = (if in_vec lv n x then Some x else nx k x)
  /\ pv (init_vec k lv n) x = (if in_vec lv n x then Some x else pv k x).
Proof.
  revert k. induction n as [|n IH]; intros k; cbn [init_vec].
  { destruct (in_vec lv 0 x) eqn:H; [|done]. destruct x; [|done]. cbn [in_vec] in H.
    zify_bool. lia. }
  destruct (IH (self_link k (Head lv (Z.of_nat n)))) as [-> ->].
  unfold self_link. cbn [set_nx set_pv nx pv].
  destruct (decide (x = Head lv (Z.of_nat n))) as [->|Hne].
  - rewrite !fn_lookup_insert. cbn [in_vec].
    rewrite Nat.eqb_refl, (proj2 (Z.leb_le 0 _)), (proj2 (Z.ltb_lt _ (Z.of_nat (S n)))) by lia.
    cbn [andb]. by destruct (_ <? _).
  - rewrite !fn_lookup_insert_ne by done.
    assert (in_vec lv (S n) x = in_vec lv n x) as ->; [|done].
    destruct x as [l i|]; [|done]. cbn [in_vec].
    destruct (Nat.eqb_spec l lv) as [->|]; [|done].
    assert (i <> Z.of_nat n) by congruence. cbn [andb].
    destruct (Z.ltb_spec i (Z.of_nat (S n))), (Z.ltb_spec i (Z.of_nat n)); lia || by rewrite andb_false_r.
Qed.

Lemma init_timers_spec w :
  timer_ticks w = 0 -> (forall lv, tindex w lv = 0) -> (forall t, active w t = false) ->
  (forall t, is_u32 (expires w t)) -> wheel_at 0 0 (init_timers w) ∅.
Proof.
  intros Ht Hi Ha He. exists (fun _ _ => []), ∅.
  constructor; unfold init_timers; cbn [set_links wlinks expires active tindex timer_ticks]; try done.
  - intros lv i [Hlv Hr] _. cbn [fmap list_fmap]. unfold NOOF_TVECS in Hlv.
    assert (Hin : in_vec lv (Z.to_nat (nslots lv)) (Head lv i) = true)
      by (cbn [in_vec]; rewrite Nat.eqb_refl, (proj2 (Z.leb_le _ _)), (proj2 (Z.ltb_lt _ _)) by lia; done).
    assert (Hno : forall lv' n, lv' <> lv -> in_vec lv' n (Head lv i) = false)
      by (intros lv' n Hne; cbn [in_vec]; rewrite (proj2 (Nat.eqb_neq lv lv')); done).
    assert (Hn : Z.to_nat (nslots lv) = match lv with O => Z.to_nat TVR_SIZE | _ => Z.to_nat TVN_SIZE end)
      by (by destruct lv).
    rewrite Hn in Hin. clear Hn. generalize dependent (Z.to_nat TVR_SIZE).
    generalize dependent (Z.to_nat TVN_SIZE). intros a b Hin.
    apply ring_empty; rewrite ?(proj1 (init_vec_spec _ _ _ _)), ?(proj2 (init_vec_spec _ _ _ _)).
    all: destruct lv as [|[|[|[|[|lv]]]]]; [..|lia].
    all: rewrite ?Hin, ?Hno by lia; done.
  - intros lv i t _. rewrite lookup_empty. set_solver.
  - set_solver.
  - apply NoDup_nil_2.
  - intros t [d Hd]. by rewrite lookup_empty in Hd.
  - intros lv Hlv. rewrite Hi. destruct (Nat.ltb_spec 0 lv); [|lia]. unfold NOOF_TVECS in Hlv.
    destruct lv as [|[|[|[|[|lv]]]]]; try lia; reflexivity.
  - split; [done|]. intros lv. destruct (0 <? lv)%nat; auto.
Qed.

Lemma s32_u32 x : s32 (u32 x) = s32 x.
Proof. unfold s32, swrap, u32, uwrap. by rewrite Zmod_mod. Qed.

Lemma s32_pred x : 0 <= s32 x -> s32 (x - 1) = s32 x - 1.
Proof.
  unfold s32, swrap. change (2 ^ (32 - 1)) with (2 ^ 31). intros H.
  pose proof (Z.mod_pos_bound x (2 ^ 32) ltac:(lia)).
  pose proof (Z.div_mod x (2 ^ 32) ltac:(lia)) as Hd.
  destruct (Z.ltb_spec (x mod 2 ^ 32) (2 ^ 31)); [|lia].
  destruct (decide (x mod 2 ^ 32 = 0)) as [Hz|Hz].
  - replace ((x - 1) mod 2 ^ 32) with (2 ^ 32 - 1); [|].
    + rewrite (proj2 (Z.ltb_ge _ _)) by lia. lia.
    + apply Z.mod_unique with (x / 2 ^ 32 - 1); lia.
  - replace ((x - 1) mod 2 ^ 32) with (x mod 2 ^ 32 - 1).
    + rewrite (proj2 (Z.ltb_lt _ _)) by lia. lia.
    + apply Z.mod_unique with (x / 2 ^ 32); lia.
Qed.

Lemma wheel_at_due now w dl t d : wheel_at now 0 w dl -> dl !! t = Some d -> now <= d.
Proof.
  intros (sl & loc & Hw) Hd. destruct (wr_dom _ _ _ _ _ _ _ _ Hw t) as [?|[[lv i] Hl]];
    [by eexists|set_solver|].
  destruct (wr_place _ _ _ _ _ _ _ _ Hw _ _ _ Hl) as (_ & _ & d' & Hd' & Hpl & _).
  rewrite Hd in Hd'. injection Hd' as <-. apply placed_ge in Hpl.
  destruct (0 <? lv)%nat; lia.
Qed.

(** ** The theorems *)


(** At any time between ticks, and in handlers, [add_timer] sets an idle timer to
    expire at the tick asked for (at the current one if that has passed) and ignores
    one that is active; [mod_timer] sets it whatever it was; [del_timer] idles it, and
    the last two say whether it was active.  No other timer changes. *)
Lemma timer_ops_correct now more w dl t e :
  wheel_at now more w dl ->
  active w t = bool_decide (is_Some (dl !! t))
  /\ (if active w t then add_timer w t = Ret w
      else exists w', add_timer (set_expires w t e) t = Ret w'
        /\ wheel_at now more w' (<[t := due now e]> dl))
  /\ (exists w', del_timer w t = Ret (of_bool (active w t), w') /\ wheel_at now more w' (delete t dl))
  /\ (exists w', mod_timer w t e = Ret (of_bool (active w t), w')
        /\ wheel_at now more w' (<[t := due now e]> dl)).
Proof.
  intros (sl & loc & Hw). pose proof (wrep_active _ _ t _ _ _ _ Hw) as Ha.
  assert (Hact : active w t = bool_decide (is_Some (dl !! t))).
  { destruct (dl !! t); destruct Ha as [-> _]; [by rewrite bool_decide_true|].
    rewrite bool_decide_false; [done|]. by intros [? ?]. }
  split; [done|]. split_and!.
  - unfold add_timer. destruct (active w t) eqn:E; [done|]. cbn [set_expires active]. rewrite E.
    destruct (dl !! t) eqn:Hd; [by destruct Ha|].
    destruct (set_attach_spec now _ w t e dl sl loc (or_introl (conj Hw Hd)))
      as (w' & sl' & loc' & ? & ? & _).
    exists w'. split; [done|]. by exists sl', loc'.
  - destruct (del_timer_spec _ _ w t dl sl loc Hw) as (w' & sl' & loc' & Hd & ? & _).
    exists w'. rewrite Hact. split; [done|]. by exists sl', loc'.
  - destruct (mod_timer_spec _ _ w t e dl sl loc Hw) as (w' & sl' & loc' & Hd & ? & _).
    exists w'. rewrite Hact. split; [done|]. by exists sl', loc'.
Qed.

(** ** Witnesses *)

Definition ex_wheel : wheel :=
  init_timers (Wheel no_links (fun _ => 0) (fun _ => false) (fun _ => 0) 0 []).

Lemma ex_wheel_at : wheel_at 0 0 ex_wheel ∅.
Proof. by apply init_timers_spec. Qed.

(** Timer 1 re-arms itself 300 ticks on, up to three calls. *)
Definition ex_handler (cs : list (Z * nat)) : list tmr_op :=
  match cs with
  | (tick, t) :: _ => if (length cs <? 3)%nat then [Arm t (tick + 300)] else []
  | [] => []
  end.

Lemma ex_future : future_handler ex_handler.
Proof.
  intros cs tick t. unfold ex_handler. destruct (_ <? _)%nat; repeat constructor;
    replace (tick + 300 - tick) with 300 by lia; done.
Qed.


(** The wheel run on a timer that goes off at 5000, through two cascades. *)
Example ex_run :
  match exec_op ex_wheel (Arm 1 5000) with
  | Ret w => match run_timer_list ex_handler (Z.to_nat 6000) 10 w 5599 with
             | Ret w => calls w = [(5600 - 300, 1%nat); (5000, 1%nat)]
             | _ => False
             end
  | _ => False
  end.
Proof. vm_compute. reflexivity. Qed.
