(* ===== verification/Bitmap.v ===== *)
(** * Bitmap: the bit map routines of src/src/lib/bitops.c and src/src/include/bitops.h

    A bit map is an array of 32-bit words.  The bodies of the routines are machine
    code; the definitions follow the instructions: [repe scasd] is [scan_words], and
    the results are what the registers hold at the end.  An access outside the array
    is a fault. *)

From S2P Require Import Prelude.
Local Open Scope krlean_scope.

Definition ALL_ONES : Z := 0xFFFFFFFF.

Definition word (ws : list Z) (i : Z) : outcome Z :=
  if i <? 0 then Fault else deref (ws !! Z.to_nat i).

(** [bt], [bts] and [btr] with a memory operand address the word [pos >> 5]. *)
Definition test_bit (ws : list Z) (pos : Z) : outcome Z :=
  w <~ word ws (Z.shiftr pos 5);
  Ret (if Z.testbit w (Z.land pos 31) then -1 else 0).

Definition set_bit (ws : list Z) (pos : Z) : outcome (list Z) :=
  w <~ word ws (Z.shiftr pos 5);
  Ret (<[Z.to_nat (Z.shiftr pos 5) := Z.lor w (2 ^ Z.land pos 31)]> ws).

Definition clear_bit (ws : list Z) (pos : Z) : outcome (list Z) :=
  w <~ word ws (Z.shiftr pos 5);
  Ret (<[Z.to_nat (Z.shiftr pos 5) := Z.ldiff w (2 ^ Z.land pos 31)]> ws).

(** [while (len-- > 0) set_bit(bitmap, pos++)] *)
Fixpoint set_bits_loop (ws : list Z) (pos : Z) (n : nat) : outcome (list Z) :=
  match n with
  | O => Ret ws
  | S n => ws <~ set_bit ws pos; set_bits_loop ws (pos + 1) n
  end.
Definition set_bits (ws : list Z) (pos len : Z) : outcome (list Z) :=
  set_bits_loop ws pos (Z.to_nat len).

(** [bsf]: the lowest bit of a word that is not zero. *)
Fixpoint bsf_from (n : nat) (i x : Z) : Z :=
  match n with
  | O => i
  | S n => if Z.testbit x i then i else bsf_from n (i + 1) x
  end.
Definition find_lowest_bit (mask : Z) : Z := bsf_from 32 0 mask.

(** [while (n > 0 && !(mask & 0x80000000)) { mask <<= 1; n--; }] *)
Fixpoint find_highest_loop (n : nat) (mask : Z) : Z :=
  match n with
  | O => 0
  | S n' =>
      if truthy (Z.land mask 0x80000000) then Z.of_nat n
      else find_highest_loop n' (u32 (Z.shiftl mask 1))
  end.
Definition find_highest_bit (mask : Z) : Z := find_highest_loop 31 mask.

(** [repe scasd] over [n] words from word [i], and the [bsf] of the complement of the
    word it stops at: the number of the first clear bit, counted from bit 0 of the array. *)
Fixpoint scan_words (ws : list Z) (i n : nat) : outcome Z :=
  match n with
  | O => Ret (32 * Z.of_nat i)
  | S n =>
      w <~ deref (ws !! i);
      if w =? ALL_ONES then scan_words ws (S i) n
      else Ret (32 * Z.of_nat i + find_lowest_bit (Z.lxor ALL_ONES w))
  end.

(** The bit map that begins at word [p] of the array. *)
Definition find_first_zero_bit (ws : list Z) (p : nat) (len : Z) : outcome Z :=
  if len =? 0 then Ret 0
  else
    r <~ scan_words ws p (Z.to_nat (Z.shiftr (u32 (len + 31)) 5));
    Ret (r - 32 * Z.of_nat p).

Definition find_next_zero_bit (ws : list Z) (len start : Z) : outcome Z :=
  let p := Z.to_nat (Z.shiftr start 5) in
  let bit := Z.land start 31 in
  if len <=? start then Ret len
  else if truthy bit then
    w <~ deref (ws !! p);
    let mask := u32 (Z.lnot (Z.shiftr w bit)) in
    let set := find_lowest_bit mask in
    if set <? 32 - bit then Ret (set + start)
    else
      let set := 32 - bit in
      let p := S p in
      result <~ find_first_zero_bit ws p (len - 32 * Z.of_nat p);
      Ret (start + set + result)
  else
    result <~ find_first_zero_bit ws p (len - 32 * Z.of_nat p);
    Ret (start + 0 + result).

(** ** Specification *)

Definition bit (ws : list Z) (i : Z) : bool := Z.testbit (ws !!! Z.to_nat (i / 32)) (i mod 32).

(** The array: 32-bit words, fewer than [2^31] bits. *)
Definition bitmap_ok (ws : list Z) : Prop :=
  Forall is_u32 ws /\ 32 * Z.of_nat (length ws) < 2 ^ 31.

(** [r] is the first clear bit from [start] on, or [stop] when there is none below. *)
Definition first_clear (ws : list Z) (start stop r : Z) : Prop :=
  start <= r <= stop /\ (forall i, start <= i < r -> bit ws i = true)
  /\ (r < stop -> bit ws r = false).

(** The words that hold the first [len] bits. *)
Definition padded (len : Z) : Z := 32 * ((len + 31) / 32).

(** ** Lemmas *)

Lemma bsf_from_spec n i x : 0 <= i ->
  let r := bsf_from n i x in
  i <= r <= i + Z.of_nat n /\ (forall j, i <= j < r -> Z.testbit x j = false)
  /\ (r < i + Z.of_nat n -> Z.testbit x r = true).
Proof.
  revert i. induction n as [|n IH]; intros i Hi; simpl.
  { split_and!; lia. }
  destruct (Z.testbit x i) eqn:Hx.
  { split_and!; try lia; try done. }
  destruct (IH (i + 1) ltac:(lia)) as ([? ?] & Hlo & Hhi). split_and!; try lia.
  - intros j Hj. destruct (decide (j = i)) as [->|]; [done|]. apply Hlo. lia.
  - intros. apply Hhi. lia.
Qed.

Lemma u32_testbit x n : 0 <= n -> Z.testbit (u32 x) n = (n <? 32) && Z.testbit x n.
Proof.
  intros Hn. unfold u32, uwrap. destruct (Z.ltb_spec n 32).
  - rewrite Z.mod_pow2_bits_low by lia. done.
  - rewrite Z.mod_pow2_bits_high by lia. done.
Qed.

Lemma ones_testbit n : 0 <= n < 32 -> Z.testbit ALL_ONES n = true.
Proof. intros. change ALL_ONES with (Z.ones 32). apply Z.ones_spec_low. lia. Qed.

Lemma all_ones_word w : is_u32 w -> (forall j, 0 <= j < 32 -> Z.testbit w j = true) -> w = ALL_ONES.
Proof.
  intros Hw Hb. apply Z.bits_inj_iff'. intros n Hn. destruct (decide (n < 32)).
  - rewrite Hb, ones_testbit by lia. done.
  - rewrite <- (u32_small w Hw), u32_testbit by done. rewrite (proj2 (Z.ltb_ge _ _)) by lia.
    change ALL_ONES with (Z.ones 32). by rewrite Z.ones_spec_high by lia.
Qed.

Lemma is_u32_bits w : (0 <= w) -> (forall n, 32 <= n -> Z.testbit w n = false) -> is_u32 w.
Proof.
  intros H0 Hb. split; [done|]. destruct (decide (w = 0)) as [->|]; [lia|].
  destruct (decide (w < 2 ^ 32)) as [|Hge]; [done|]. exfalso.
  assert (32 <= Z.log2 w) by (apply Z.log2_le_pow2; lia).
  specialize (Hb (Z.log2 w) ltac:(lia)). rewrite Z.bit_log2 in Hb by lia. done.
Qed.

(** The bit numbers of a word. *)
Lemma bit_word ws i j : 0 <= j < 32 -> bit ws (32 * Z.of_nat i + j) = Z.testbit (ws !!! i) j.
Proof.
  intros Hj. unfold bit.
  replace ((32 * Z.of_nat i + j) / 32) with (Z.of_nat i) by lia_mod.
  replace ((32 * Z.of_nat i + j) mod 32) with j by lia_mod. by rewrite Nat2Z.id.
Qed.

Lemma bit_split pos : pos = 32 * (pos / 32) + pos mod 32 /\ 0 <= pos mod 32 < 32.
Proof. lia_mod. Qed.

Lemma word_spec ws pos : 0 <= pos < 32 * Z.of_nat (length ws) ->
  word ws (Z.shiftr pos 5) = Ret (ws !!! Z.to_nat (pos / 32))
  /\ Z.to_nat (Z.shiftr pos 5) = Z.to_nat (pos / 32) /\ Z.land pos 31 = pos mod 32
  /\ (Z.to_nat (pos / 32) < length ws)%nat.
Proof.
  intros Hp. rewrite Z.shiftr_div_pow2 by lia. change (2 ^ 5) with 32.
  assert (Hlt : (Z.to_nat (pos / 32) < length ws)%nat) by lia_mod.
  split_and!; try done.
  - unfold word. rewrite (proj2 (Z.ltb_ge _ _)) by lia_mod.
    destruct (lookup_lt_is_Some_2 _ _ Hlt) as [w Hw]. by rewrite Hw, (list_lookup_total_correct _ _ _ Hw).
  - change 31 with (Z.ones 5). by rewrite Z.land_ones.
Qed.

Lemma lookup_total_insert_Z (ws : list Z) i j w :
  (i < length ws)%nat -> <[i := w]> ws !!! j = if decide (i = j) then w else ws !!! j.
Proof.
  intros Hi. case_decide as He; [subst; by apply list_lookup_total_insert_eq|].
  by apply list_lookup_total_insert_ne.
Qed.

(** A write to one bit: the others stay. *)
Lemma bit_insert ws pos w i :
  0 <= pos < 32 * Z.of_nat (length ws) -> 0 <= i ->
  (forall j, j <> pos mod 32 -> Z.testbit w j = Z.testbit (ws !!! Z.to_nat (pos / 32)) j) ->
  bit (<[Z.to_nat (pos / 32) := w]> ws) i
  = if i =? pos then Z.testbit w (pos mod 32) else bit ws i.
Proof.
  intros Hp Hi Hw. unfold bit. rewrite lookup_total_insert_Z by lia_mod.
  case_decide as He.
  - assert (pos / 32 = i / 32) as Heq by lia_mod. destruct (Z.eqb_spec i pos) as [->|Hne]; [done|].
    rewrite Hw, He; [done|]. lia_mod.
  - destruct (Z.eqb_spec i pos) as [->|]; [done|done].
Qed.

Lemma Forall_u32_lookup ws i : Forall is_u32 ws -> is_u32 (ws !!! i).
Proof.
  intros Hf. destruct (ws !! i) as [w|] eqn:Hw.
  - rewrite (list_lookup_total_correct _ _ _ Hw). by eapply Forall_lookup_1.
  - rewrite list_lookup_total_alt, Hw. unfold is_u32. simpl. lia.
Qed.

Lemma set_bit_spec ws pos :
  bitmap_ok ws -> 0 <= pos < 32 * Z.of_nat (length ws) ->
  exists ws', set_bit ws pos = Ret ws' /\ bitmap_ok ws' /\ length ws' = length ws
    /\ forall i, 0 <= i -> bit ws' i = (i =? pos) || bit ws i.
Proof.
  intros [Hu Hlen] Hp. destruct (word_spec ws pos Hp) as (Hw & Hn & Hl & Hlt).
  unfold set_bit. rewrite Hw, Hn, Hl. cbn [obind]. eexists. split; [done|].
  pose proof (bit_split pos) as [_ Hm]. split_and!.
  - split; [|by rewrite length_insert]. apply Forall_insert; [done|].
    pose proof (Forall_u32_lookup ws (Z.to_nat (pos / 32)) Hu) as [H0 H1].
    apply is_u32_bits.
    + apply Z.lor_nonneg. split; [done|]. apply Z.pow_nonneg. lia.
    + intros n Hn'. rewrite Z.lor_spec, Z.pow2_bits_false, orb_false_r by lia.
      rewrite <- (u32_small _ (conj H0 H1)), u32_testbit by lia. by rewrite (proj2 (Z.ltb_ge _ _)) by lia.
  - apply length_insert.
  - intros i Hi. rewrite bit_insert; try done.
    + rewrite Z.lor_spec, Z.pow2_bits_true, orb_true_r by lia. by destruct (i =? pos).
    + intros j Hj. rewrite Z.lor_spec, Z.pow2_bits_false, orb_false_r by done. done.
Qed.

Lemma clear_bit_spec ws pos :
  bitmap_ok ws -> 0 <= pos < 32 * Z.of_nat (length ws) ->
  exists ws', clear_bit ws pos = Ret ws' /\ bitmap_ok ws' /\ length ws' = length ws
    /\ forall i, 0 <= i -> bit ws' i = negb (i =? pos) && bit ws i.
Proof.
  intros [Hu Hlen] Hp. destruct (word_spec ws pos Hp) as (Hw & Hn & Hl & Hlt).
  unfold clear_bit. rewrite Hw, Hn, Hl. cbn [obind]. eexists. split; [done|].
  pose proof (bit_split pos) as [_ Hm]. split_and!.
  - split; [|by rewrite length_insert]. apply Forall_insert; [done|].
    pose proof (Forall_u32_lookup ws (Z.to_nat (pos / 32)) Hu) as [H0 H1].
    apply is_u32_bits.
    + apply Z.ldiff_nonneg. by left.
    + intros n Hn'. rewrite Z.ldiff_spec.
      rewrite <- (u32_small _ (conj H0 H1)), u32_testbit by lia. by rewrite (proj2 (Z.ltb_ge _ _)) by lia.
  - apply length_insert.
  - intros i Hi. rewrite bit_insert; try done.
    + rewrite Z.ldiff_spec, Z.pow2_bits_true, andb_false_r by lia. by destruct (i =? pos).
    + intros j Hj. rewrite Z.ldiff_spec, Z.pow2_bits_false by done. by rewrite andb_true_r.
Qed.

Lemma test_bit_spec ws pos : 0 <= pos < 32 * Z.of_nat (length ws) ->
  test_bit ws pos = Ret (if bit ws pos then -1 else 0).
Proof.
  intros Hp. destruct (word_spec ws pos Hp) as (Hw & Hn & Hl & Hlt).
  unfold test_bit. rewrite Hw, Hl. done.
Qed.

Lemma scan_words_spec ws n : forall i,
  Forall is_u32 ws -> (i + n <= length ws)%nat ->
  exists r, scan_words ws i n = Ret r
    /\ first_clear ws (32 * Z.of_nat i) (32 * Z.of_nat (i + n)) r.
Proof.
  induction n as [|n IH]; intros i Hu Hlen; cbn [scan_words].
  { exists (32 * Z.of_nat i). split; [done|]. unfold first_clear. split_and!; try lia; intros; lia. }
  destruct (lookup_lt_is_Some_2 ws i) as [w Hw]; [lia|]. rewrite Hw. cbn [deref obind].
  pose proof (list_lookup_total_correct _ _ _ Hw) as Ht.
  destruct (Z.eqb_spec w ALL_ONES) as [He|He].
  - rewrite He in Ht. destruct (IH (S i) Hu ltac:(lia)) as (r & -> & [Hr1 Hr2] & Hset & Hclr).
    exists r. split; [done|]. unfold first_clear. split_and!; try lia.
    + intros j Hj. destruct (decide (32 * Z.of_nat (S i) <= j)); [apply Hset; lia|].
      replace j with (32 * Z.of_nat i + (j - 32 * Z.of_nat i)) by lia.
      rewrite bit_word, Ht by lia. apply ones_testbit. lia.
    + intros. apply Hclr. lia.
  - unfold find_lowest_bit. destruct (bsf_from_spec 32 0 (Z.lxor ALL_ONES w)) as ([Hb0 Hb1] & Hlo & Hhi); [lia|].
    set (b := bsf_from _ _ _) in *.
    assert (Hlx : forall j, 0 <= j < 32 -> Z.testbit (Z.lxor ALL_ONES w) j = negb (Z.testbit w j)).
    { intros j Hj. rewrite Z.lxor_spec, ones_testbit by lia. done. }
    assert (b < 32).
    { destruct (decide (b < 32)); [done|]. exfalso.
      assert (w = ALL_ONES); [|done]. apply all_ones_word; [by eapply Forall_lookup_1|].
      intros j Hj. specialize (Hlo j ltac:(lia)). rewrite Hlx in Hlo by lia.
      by apply negb_false_iff in Hlo. }
    eexists. split; [done|]. unfold first_clear. split_and!; try lia.
    + intros j Hj. replace j with (32 * Z.of_nat i + (j - 32 * Z.of_nat i)) by lia.
      rewrite bit_word, Ht by lia. specialize (Hlo (j - 32 * Z.of_nat i) ltac:(lia)).
      rewrite Hlx in Hlo by lia. by apply negb_false_iff in Hlo.
    + intros _. rewrite bit_word, Ht by lia. specialize (Hhi ltac:(lia)).
      rewrite Hlx in Hhi by lia. by apply negb_true_iff in Hhi.
Qed.

Lemma padded_bounds len : 0 <= len -> len <= padded len < len + 32 /\ padded len mod 32 = 0.
Proof. unfold padded. intros. lia_mod. Qed.

(** The first clear bit of the bit map from word [p] on. *)
Lemma find_first_zero_bit_spec ws p len :
  bitmap_ok ws -> -32 < len -> 32 * Z.of_nat p + padded (Z.max 0 len) <= 32 * Z.of_nat (length ws) ->
  exists r, find_first_zero_bit ws p len = Ret r
    /\ first_clear ws (32 * Z.of_nat p) (32 * Z.of_nat p + padded (Z.max 0 len)) (32 * Z.of_nat p + r).
Proof.
  intros [Hu Hlt] Hl Hp. unfold find_first_zero_bit. destruct (Z.eqb_spec len 0) as [->|Hne].
  - exists 0. split; [done|]. change (padded (Z.max 0 0)) with 0. unfold first_clear.
    split_and!; lia.
  - rewrite Z.shiftr_div_pow2 by lia. change (2 ^ 5) with 32.
    pose proof (padded_bounds (Z.max 0 len) ltac:(lia)).
    rewrite u32_small by (unfold is_u32; lia).
    assert (Hn : 32 * Z.of_nat (Z.to_nat ((len + 31) / 32)) = padded (Z.max 0 len))
      by (unfold padded; lia_mod).
    destruct (scan_words_spec ws (Z.to_nat ((len + 31) / 32)) p Hu) as (r & -> & Hr); [lia|].
    cbn [obind]. eexists. split; [done|].
    replace (32 * Z.of_nat p + (r - 32 * Z.of_nat p)) with r by lia.
    by replace (32 * Z.of_nat p + padded (Z.max 0 len))
      with (32 * Z.of_nat (p + Z.to_nat ((len + 31) / 32))) by lia.
Qed.

Lemma find_next_zero_bit_padded ws len start :
  bitmap_ok ws -> 0 <= start < len -> padded len <= 32 * Z.of_nat (length ws) ->
  exists r, find_next_zero_bit ws len start = Ret r /\ first_clear ws start (padded len) r.
Proof.
  intros Hok Hs Hp. destruct Hok as [Hu Hlt]. unfold find_next_zero_bit.
  pose proof (padded_bounds len ltac:(lia)) as [Hpl Hpm].
  rewrite Z.shiftr_div_pow2 by lia. change (2 ^ 5) with 32. change 31 with (Z.ones 5).
  rewrite Z.land_ones by lia. change (2 ^ 5) with 32.
  rewrite (proj2 (Z.leb_gt _ _)) by lia.
  pose proof (bit_split start) as [Hsplit Hm]. set (b := start mod 32) in *. set (k := start / 32) in *.
  assert (Hk : 0 <= k) by (unfold k; lia_mod).
  assert (Hk1 : 32 * (k + 1) <= padded len) by (unfold padded; lia_mod).
  assert (Hrest : forall p, 32 * p < len + 32 -> k <= p ->
    exists r, find_first_zero_bit ws (Z.to_nat p) (len - 32 * Z.of_nat (Z.to_nat p)) = Ret r
      /\ first_clear ws (32 * p) (padded len) (32 * p + r)).
  { intros p Hp1 Hp2.
    assert (Hpad : 32 * p + padded (Z.max 0 (len - 32 * p)) = padded len) by (unfold padded; lia_mod).
    rewrite Z2Nat.id by lia.
    destruct (find_first_zero_bit_spec ws (Z.to_nat p) (len - 32 * p) (conj Hu Hlt)) as (r & Hr & Hf);
      [lia|rewrite Z2Nat.id by lia; lia|].
    rewrite Z2Nat.id, Hpad in Hf by lia. by exists r. }
  unfold truthy. destruct (Z.eqb_spec b 0) as [Hb|Hb]; cbn [negb].
  - destruct (Hrest k) as (r & -> & Hr); [lia|lia|]. cbn [obind]. eexists. split; [done|].
    replace (start + 0 + r) with (32 * k + r) by lia.
    by replace (32 * k) with start in * by lia.
  - assert (Hlk : (Z.to_nat k < length ws)%nat) by lia.
    destruct (lookup_lt_is_Some_2 ws _ Hlk) as [w Hw]. rewrite Hw. cbn [deref obind].
    pose proof (list_lookup_total_correct _ _ _ Hw) as Ht.
    assert (Hmask : forall j, 0 <= j < 32 -> Z.testbit (u32 (Z.lnot (Z.shiftr w b))) j
      = if b + j <? 32 then negb (bit ws (start + j)) else true).
    { intros j Hj. rewrite u32_testbit, Z.lnot_spec, Z.shiftr_spec by lia.
      rewrite (proj2 (Z.ltb_lt j 32)) by lia. cbn [andb].
      destruct (Z.ltb_spec (b + j) 32).
      - replace (start + j) with (32 * Z.of_nat (Z.to_nat k) + (b + j)) by lia.
        rewrite bit_word, Ht by lia. by rewrite Z.add_comm.
      - rewrite <- (u32_small w), u32_testbit by (lia || by eapply Forall_lookup_1).
        by rewrite (proj2 (Z.ltb_ge _ _)) by lia. }
    unfold find_lowest_bit. set (mask := u32 _) in *. clearbody mask.
    destruct (bsf_from_spec 32 0 mask) as ([Hb0 Hb1] & Hlo & Hhi); [lia|].
    set (s := bsf_from _ _ _) in *. clearbody s.
    destruct (Z.ltb_spec s (32 - b)).
    + eexists. split; [done|]. unfold first_clear. split_and!; try lia.
      * intros i Hi. specialize (Hlo (i - start) ltac:(lia)). rewrite Hmask in Hlo by lia.
        rewrite (proj2 (Z.ltb_lt _ _)) in Hlo by lia. apply negb_false_iff in Hlo.
        by replace (start + (i - start)) with i in Hlo by lia.
      * intros _. specialize (Hhi ltac:(lia)). rewrite Hmask in Hhi by lia.
        rewrite (proj2 (Z.ltb_lt _ _)) in Hhi by lia. apply negb_true_iff in Hhi.
        by rewrite (Z.add_comm s start).
    + replace (S (Z.to_nat k)) with (Z.to_nat (k + 1)) by lia.
      destruct (Hrest (k + 1)) as (r & -> & [Hr1 Hr2] & Hset & Hclr); [lia|lia|].
      cbn [obind]. eexists. split; [done|].
      replace (start + (32 - b) + r) with (32 * (k + 1) + r) by lia.
      unfold first_clear. split_and!; try lia; [|done].
      intros i Hi. destruct (decide (32 * (k + 1) <= i)); [apply Hset; lia|].
      specialize (Hlo (i - start) ltac:(lia)). rewrite Hmask in Hlo by lia.
      rewrite (proj2 (Z.ltb_lt _ _)) in Hlo by lia. apply negb_false_iff in Hlo.
      by replace (start + (i - start)) with i in Hlo by lia.
Qed.

(** With a clear padding the search answers within the map, [len] when it is full. *)
Lemma find_next_zero_bit_spec ws len start :
  bitmap_ok ws -> 0 <= start -> 0 <= len -> padded len <= 32 * Z.of_nat (length ws) ->
  (len < padded len -> bit ws len = false) ->
  exists r, find_next_zero_bit ws len start = Ret r
    /\ if start <? len then first_clear ws start len r else r = len.
Proof.
  intros Hok Hs Hl Hp Hpad. destruct (Z.ltb_spec start len) as [Hlt|Hge].
  - destruct (find_next_zero_bit_padded ws len start Hok ltac:(lia) Hp) as (r & -> & [H1 H2] & Hset & Hclr).
    exists r. split; [done|]. pose proof (padded_bounds len Hl) as [Hb _].
    assert (r <= len).
    { destruct (decide (r <= len)) as [|Hn]; [done|].
      rewrite (Hset len) in Hpad by lia. specialize (Hpad ltac:(lia)). done. }
    unfold first_clear. split_and!; try lia; [done|]. intros. apply Hclr. lia.
  - exists len. unfold find_next_zero_bit. by rewrite (proj2 (Z.leb_le _ _)) by lia.
Qed.

Lemma find_first_zero_spec ws len :
  bitmap_ok ws -> 0 <= len -> padded len <= 32 * Z.of_nat (length ws) ->
  (len < padded len -> bit ws len = false) ->
  exists r, find_first_zero_bit ws 0 len = Ret r /\ first_clear ws 0 len r.
Proof.
  intros Hok Hl Hp Hpad.
  destruct (find_first_zero_bit_spec ws 0 len Hok ltac:(lia)) as (r & -> & Hf).
  { rewrite Z.max_r by lia. simpl. lia. }
  rewrite Z.max_r in Hf by lia. simpl in Hf. destruct Hf as ([H1 H2] & Hset & Hclr).
  exists r. split; [done|]. pose proof (padded_bounds len Hl) as [Hb _].
  assert (r <= len).
  { destruct (decide (r <= len)) as [|Hn]; [done|].
    rewrite (Hset len) in Hpad by lia. specialize (Hpad ltac:(lia)). done. }
  unfold first_clear. split_and!; try lia; [done|]. intros. apply Hclr. lia.
Qed.

Lemma find_highest_loop_spec n mask :
  0 < mask < 2 ^ 32 -> Z.log2 mask >= 31 - Z.of_nat n ->
  find_highest_loop n mask = Z.log2 mask - 31 + Z.of_nat n.
Proof.
  revert mask. induction n as [|n IH]; intros mask Hm Hlog; cbn [find_highest_loop].
  - assert (Z.log2 mask < 32) by (apply Z.log2_lt_pow2; lia). lia.
  - change 0x80000000 with (2 ^ 31). rewrite truthy_land_pow2 by lia.
    assert (Z.log2 mask < 32) by (apply Z.log2_lt_pow2; lia).
    destruct (Z.testbit mask 31) eqn:Hb.
    + assert (31 <= Z.log2 mask); [|lia].
      destruct (decide (31 <= Z.log2 mask)); [done|]. rewrite Z.bits_above_log2 in Hb by lia. done.
    + assert (Hlt : mask < 2 ^ 31).
      { destruct (decide (mask < 2 ^ 31)); [done|].
        rewrite (testbit_top mask 31) in Hb by (rewrite ?Z.pow_add_r; lia). done. }
      rewrite Z.shiftl_mul_pow2 by lia. change (2 ^ 1) with 2.
      rewrite u32_small by (unfold is_u32; lia).
      assert (Z.log2 (mask * 2) = Z.log2 mask + 1) as Hl2.
      { rewrite Z.mul_comm, Z.log2_double by lia. lia. }
      rewrite IH by lia. lia.
Qed.

(** ** The theorems *)

(** C22: the search for a clear bit terminates inside the array and finds the first one
    at or behind [start]; when there is none below [len] the answer is [len] if the
    padding of the last word is clear, and otherwise some number up to the end of
    that word, which need not be [len]. *)
Theorem find_next_zero_bit_correct ws len start :
  bitmap_ok ws -> 0 <= start < len -> padded len <= 32 * Z.of_nat (length ws) ->
  exists r, find_next_zero_bit ws len start = Ret r /\ first_clear ws start (padded len) r
    /\ ((len < padded len -> bit ws len = false) -> first_clear ws start len r).
Proof.
  intros Hok Hs Hp. destruct (find_next_zero_bit_padded ws len start Hok Hs Hp) as (r & Hr & Hf).
  exists r. split_and!; try apply Hf; try done. intros Hpad.
  destruct (find_next_zero_bit_spec ws len start Hok ltac:(lia) ltac:(lia) Hp Hpad) as (r' & Hr' & Hf').
  rewrite Hr in Hr'. injection Hr' as <-. by rewrite (proj2 (Z.ltb_lt _ _)) in Hf' by lia.
Qed.

(** [find_highest_bit] is the integer logarithm, and 0 on 0. *)
Theorem find_highest_bit_correct mask :
  0 <= mask < 2 ^ 32 -> find_highest_bit mask = Z.log2 mask.
Proof.
  intros Hm. destruct (decide (mask = 0)) as [->|]; [reflexivity|].
  pose proof (Z.log2_nonneg mask). unfold find_highest_bit.
  rewrite find_highest_loop_spec by lia. lia.
Qed.

(** ** Witnesses *)

(** A full map of 40 bits whose padding is set: the search answers 64. *)
Lemma find_next_zero_bit_correct_witness :
  exists r, find_next_zero_bit [ALL_ONES; ALL_ONES] 40 7 = Ret r
    /\ first_clear [ALL_ONES; ALL_ONES] 7 64 r.
Proof.
  destruct (find_next_zero_bit_correct [ALL_ONES; ALL_ONES] 40 7) as (r & H1 & H2 & _).
  - split; [|simpl; lia]. repeat constructor; unfold ALL_ONES; lia.
  - lia.
  - reflexivity || (simpl; unfold padded; lia_mod).
  - exists r. split; [exact H1|exact H2].
Defined.

Lemma find_highest_bit_correct_witness : find_highest_bit 0x1234 = 12.
Proof. rewrite (find_highest_bit_correct 0x1234) by lia. reflexivity. Defined.
