(* ===== verification/Cache.v ===== *)
(** * Cache: what the file system asks of the buffer cache (src/src/sys/krnl/buf.c)

    A buffer is named by its block number: the cache has at most one buffer for a
    block.  [block_data] is the contents of a block as its next reader sees them, as
    the 32-bit words the bit maps and block directories consist of; [pins] counts the
    times a buffer is held ([buf->locks]).  The laws are the part of the contract of
    [get_buffer] and its companions that the file system relies on. *)

From S2P Require Import Prelude.

Class BufferCache (C : Type) := {
  block_data : C -> Z -> list Z;
  pins : C -> Z -> nat;
  get_buffer : C -> Z -> bool * C;      (* [false]: NULL, the block cannot be read *)
  alloc_buffer : C -> Z -> bool * C;
  store : C -> Z -> list Z -> C;        (* a store through [buf->data] *)
  mark_buffer_updated : C -> Z -> C;
  mark_buffer_invalid : C -> Z -> C;
  release_buffer : C -> Z -> C;
  invalidate_buffer : C -> Z -> C;

  get_data : forall c b x, block_data (get_buffer c b).2 x = block_data c x;
  get_pins : forall c b x, pins (get_buffer c b).2 x
    = (pins c x + if (get_buffer c b).1 && (x =? b)%Z then 1 else 0)%nat;
  (* the contents of a buffer that was just allocated are undefined *)
  alloc_data : forall c b x, x <> b -> block_data (alloc_buffer c b).2 x = block_data c x;
  alloc_length : forall c b, length (block_data (alloc_buffer c b).2 b) = length (block_data c b);
  alloc_pins : forall c b x, pins (alloc_buffer c b).2 x
    = (pins c x + if (alloc_buffer c b).1 && (x =? b)%Z then 1 else 0)%nat;
  store_data : forall c b d x, (0 < pins c b)%nat ->
    block_data (store c b d) x = if (x =? b)%Z then d else block_data c x;
  store_pins : forall c b d x, pins (store c b d) x = pins c x;
  updated_data : forall c b x, block_data (mark_buffer_updated c b) x = block_data c x;
  updated_pins : forall c b x, pins (mark_buffer_updated c b) x = pins c x;
  invalid_data : forall c b x, x <> b -> block_data (mark_buffer_invalid c b) x = block_data c x;
  invalid_pins : forall c b x, pins (mark_buffer_invalid c b) x = pins c x;
  release_data : forall c b x, block_data (release_buffer c b) x = block_data c x;
  release_pins : forall c b x, pins (release_buffer c b) x
    = (pins c x - if (x =? b)%Z then 1 else 0)%nat;
  invalidate_data : forall c b x, x <> b -> block_data (invalidate_buffer c b) x = block_data c x;
  invalidate_pins : forall c b x, pins (invalidate_buffer c b) x = pins c x;
}.

Create Rewrite HintDb cache.
#[export] Hint Rewrite @get_data @get_pins @alloc_pins @store_pins @updated_data @updated_pins
  @invalid_pins @release_data @release_pins @invalidate_pins : cache.

(** ** An instance: blocks in memory, some of which cannot be read

    A block that was never written is zero. *)

Record memcache := MemCache { mc_blocks : gmap Z (list Z); mc_pins : gmap Z nat; mc_bad : gset Z }.

Definition mc_data (c : memcache) (b : Z) : list Z := default (replicate 1024 0%Z) (mc_blocks c !! b).
Definition mc_pin (c : memcache) (b : Z) : nat := default 0%nat (mc_pins c !! b).
Definition mc_set_pin (c : memcache) (b : Z) (n : nat) : memcache :=
  MemCache (mc_blocks c) (<[b := n]> (mc_pins c)) (mc_bad c).
Definition mc_get (c : memcache) (b : Z) : bool * memcache :=
  if bool_decide (b ∈ mc_bad c) then (false, c) else (true, mc_set_pin c b (S (mc_pin c b))).

#[export] Program Instance memcache_ops : BufferCache memcache := {
  block_data := mc_data;
  pins := mc_pin;
  get_buffer := mc_get;
  alloc_buffer := mc_get;
  store c b d := MemCache (<[b := d]> (mc_blocks c)) (mc_pins c) (mc_bad c);
  mark_buffer_updated c b := c;
  mark_buffer_invalid c b := c;
  release_buffer c b := mc_set_pin c b (pred (mc_pin c b));
  invalidate_buffer c b := c;
}.
Solve Obligations with try done.
Next Obligation. intros c b x. unfold mc_get. by case_bool_decide. Qed.
Next Obligation.
  intros c b x. unfold mc_get. case_bool_decide; simpl; [lia|]. unfold mc_set_pin, mc_pin. simpl.
  destruct (Z.eqb_spec x b) as [->|].
  - rewrite lookup_insert_eq. simpl. lia.
  - rewrite lookup_insert_ne by done. lia.
Qed.
Next Obligation. intros c b x _. unfold mc_get. by case_bool_decide. Qed.
Next Obligation. intros c b. unfold mc_get. by case_bool_decide. Qed.
Next Obligation.
  intros c b x. unfold mc_get. case_bool_decide; simpl; [lia|]. unfold mc_set_pin, mc_pin. simpl.
  destruct (Z.eqb_spec x b) as [->|].
  - rewrite lookup_insert_eq. simpl. lia.
  - rewrite lookup_insert_ne by done. lia.
Qed.
Next Obligation.
  intros c b d x _. unfold mc_data. simpl. destruct (Z.eqb_spec x b) as [->|].
  - by rewrite lookup_insert_eq.
  - by rewrite lookup_insert_ne.
Qed.
Next Obligation.
  intros c b x. unfold mc_set_pin, mc_pin. simpl. destruct (Z.eqb_spec x b) as [->|].
  - rewrite lookup_insert_eq. simpl. lia.
  - rewrite lookup_insert_ne by done. lia.
Qed.
