(* ===== verification/Group.v ===== *)
(** * Group: the allocation of blocks and inodes, src/src/sys/fs/dfs/group.c

    A DFS file system is divided into groups, each with a bit map of its blocks and one
    of its inodes; [groups] is the array [fs->groups] with the group descriptors its
    entries point to.  [free fs n] says that block [n] is free; the theorems say what
    the operations do to that set, and to the counts and hints beside it. *)

From S2P Require Import Prelude Bitmap Cache.
Local Open Scope krlean_scope.

Definition NOBLOCK : Z := 0xFFFFFFFF.
Definition NOINODE : Z := 0xFFFFFFFF.

Record superblock := Super {
  group_count : Z; inode_count : Z; block_count : Z;
  free_inode_count : Z; free_block_count : Z;
  blocks_per_group : Z; inodes_per_group : Z; reserved_inodes : Z;
}.

Record groupdesc := GroupDesc {
  g_block_count : Z; block_bitmap_block : Z; inode_bitmap_block : Z; inode_table_block : Z;
  g_free_block_count : Z; g_free_inode_count : Z;
}.

Record blkgroup := BlkGroup { desc : groupdesc; first_free_block : Z; first_free_inode : Z }.

Record filsys (C : Type) := FilSys {
  cache : C;
  super : superblock;
  groups : list blkgroup;
  super_dirty : bool;
  blocksize : Z; inodes_per_block : Z; log_blkptrs_per_block : Z;
  groupdescs_per_block : Z;
  groupdesc_buffers : list Z;
}.
Arguments FilSys {C}.
Arguments cache {C}.
Arguments super {C}.
Arguments groups {C}.
Arguments super_dirty {C}.
Arguments blocksize {C}.
Arguments inodes_per_block {C}.
Arguments log_blkptrs_per_block {C}.
Arguments groupdescs_per_block {C}.
Arguments groupdesc_buffers {C}.

(** The counts are unsigned: an addition that wraps around is written with [u32]. *)
Definition add_free_blocks (s : superblock) (d : Z) : superblock :=
  Super (group_count s) (inode_count s) (block_count s) (free_inode_count s)
    (u32 (free_block_count s + d)) (blocks_per_group s) (inodes_per_group s) (reserved_inodes s).
Definition add_free_inodes (s : superblock) (d : Z) : superblock :=
  Super (group_count s) (inode_count s) (block_count s) (u32 (free_inode_count s + d))
    (free_block_count s) (blocks_per_group s) (inodes_per_group s) (reserved_inodes s).
Definition add_group_blocks (g : blkgroup) (d : Z) : blkgroup :=
  let x := desc g in
  BlkGroup (GroupDesc (g_block_count x) (block_bitmap_block x) (inode_bitmap_block x)
    (inode_table_block x) (u32 (g_free_block_count x + d)) (g_free_inode_count x))
    (first_free_block g) (first_free_inode g).
Definition add_group_inodes (g : blkgroup) (d : Z) : blkgroup :=
  let x := desc g in
  BlkGroup (GroupDesc (g_block_count x) (block_bitmap_block x) (inode_bitmap_block x)
    (inode_table_block x) (g_free_block_count x) (u32 (g_free_inode_count x + d)))
    (first_free_block g) (first_free_inode g).
Definition set_first_block (g : blkgroup) (b : Z) : blkgroup :=
  BlkGroup (desc g) b (first_free_inode g).
Definition set_first_inode (g : blkgroup) (i : Z) : blkgroup :=
  BlkGroup (desc g) (first_free_block g) i.

(** Division by a field of the super block traps when it is zero. *)
Definition udiv (a b : Z) : outcome Z := if b =? 0 then Fault else Ret (a / b).
Definition umod (a b : Z) : outcome Z := if b =? 0 then Fault else Ret (a mod b).

Section Group.
Context {C : Type} `{BC : BufferCache C}.
Implicit Types fs : filsys C.

Definition set_cache fs (c : C) : filsys C :=
  FilSys c (super fs) (groups fs) (super_dirty fs) (blocksize fs) (inodes_per_block fs)
    (log_blkptrs_per_block fs) (groupdescs_per_block fs) (groupdesc_buffers fs).
Definition set_super fs (s : superblock) : filsys C :=
  FilSys (cache fs) s (groups fs) true (blocksize fs) (inodes_per_block fs)
    (log_blkptrs_per_block fs) (groupdescs_per_block fs) (groupdesc_buffers fs).
Definition set_group fs (i : Z) (g : blkgroup) : filsys C :=
  FilSys (cache fs) (super fs) (<[Z.to_nat i := g]> (groups fs)) (super_dirty fs) (blocksize fs)
    (inodes_per_block fs) (log_blkptrs_per_block fs) (groupdescs_per_block fs) (groupdesc_buffers fs).

Definition group_at fs (i : Z) : outcome blkgroup :=
  if i <? 0 then Fault else deref (groups fs !! Z.to_nat i).

Definition mark_group_desc_dirty fs (group : Z) : outcome (filsys C) :=
  i <~ udiv group (groupdescs_per_block fs);
  b <~ deref (groupdesc_buffers fs !! Z.to_nat i);
  Ret (set_cache fs (mark_buffer_updated (cache fs) b)).

(** ** Blocks *)

(** [block_found:] with the bit map of [group] held in the buffer [blk]. *)
Definition block_found fs (group blk block : Z) : outcome (Z * filsys C) :=
  ws <~ set_bit (block_data (cache fs) blk) (s32 block);
  let fs := set_cache fs (mark_buffer_updated (store (cache fs) blk ws) blk) in
  let fs := set_super fs (add_free_blocks (super fs) (-1)) in
  g <~ group_at fs group;
  let g := if first_free_block g =? block then set_first_block g (u32 (block + 1)) else g in
  let fs := set_group fs group (add_group_blocks g (-1)) in
  fs <~ mark_group_desc_dirty fs group;
  let fs := set_cache fs (release_buffer (cache fs) blk) in
  Ret (u32 (block + group * blocks_per_group (super fs)), fs).

(** The search of one bit map, from the hint if there is one.  The result is the bit
    and the new hint. *)
Definition search_bitmap (ws : list Z) (len hint : Z) : outcome (Z * Z) :=
  if negb (hint =? 0xFFFFFFFF) then
    r <~ find_next_zero_bit ws (s32 len) (s32 hint); Ret (u32 r, hint)
  else
    r <~ find_first_zero_bit ws 0 (s32 len); Ret (u32 r, u32 r).

(** The loop over all groups, with [n] of them to go. *)
Fixpoint new_block_loop fs (n : nat) (group : Z) : outcome (Z * filsys C) :=
  match n with
  | O => Ret (NOBLOCK, fs)
  | S n =>
      g <~ group_at fs group;
      let next fs :=
        let group := u32 (group + 1) in
        new_block_loop fs n (if group_count (super fs) <=? group then 0 else group) in
      if 0 <? g_free_block_count (desc g) then
        let blk := block_bitmap_block (desc g) in
        let '(ok, c) := get_buffer (cache fs) blk in
        let fs := set_cache fs c in
        if negb ok then Ret (NOBLOCK, fs)
        else
          '(block, hint) <~ search_bitmap (block_data (cache fs) blk) (g_block_count (desc g))
                              (first_free_block g);
          let fs := set_group fs group (set_first_block g hint) in
          if negb (block =? g_block_count (desc g)) then block_found fs group blk block
          else next (set_cache fs (release_buffer (cache fs) blk))
      else next fs
  end.

Definition new_block fs (goal : Z) : outcome (Z * filsys C) :=
  let all fs group := new_block_loop fs (Z.to_nat (group_count (super fs))) group in
  if goal <? block_count (super fs) then
    group <~ udiv goal (blocks_per_group (super fs));
    block <~ umod goal (blocks_per_group (super fs));
    g <~ group_at fs group;
    let blk := block_bitmap_block (desc g) in
    let '(ok, c) := get_buffer (cache fs) blk in
    let fs := set_cache fs c in
    if negb ok then Ret (NOBLOCK, fs)
    else
      t <~ test_bit (block_data (cache fs) blk) (s32 block);
      if t =? 0 then block_found fs group blk block
      else
        r <~ find_next_zero_bit (block_data (cache fs) blk) (s32 (g_block_count (desc g)))
               (s32 (block + 1));
        let block := u32 r in
        if negb (block =? g_block_count (desc g)) then block_found fs group blk block
        else all (set_cache fs (release_buffer (cache fs) blk)) group
  else all fs 0.

(** [free_blocks]: [prev] is [prev_group] with the buffer held for it, [None] at first. *)
Definition drop_buffer fs (prev : option (Z * Z)) : filsys C :=
  match prev with
  | Some (_, blk) => set_cache fs (release_buffer (cache fs) blk)
  | None => fs
  end.

(** The body of [if (group != prev_group)]; the buffer is [None] when it cannot be read. *)
Definition switch_group fs (prev : option (Z * Z)) (group : Z) : outcome (filsys C * option Z) :=
  if match prev with Some (p, _) => group =? p | None => group =? 0xFFFFFFFF end then
    '(_, blk) <~ deref prev; Ret (fs, Some blk)
  else
    let fs := drop_buffer fs prev in
    g <~ group_at fs group;
    let blk := block_bitmap_block (desc g) in
    let '(ok, c) := get_buffer (cache fs) blk in
    Ret (set_cache fs c, if ok then Some blk else None).

Fixpoint free_blocks_loop fs (prev : option (Z * Z)) (blocks : list Z) : outcome (filsys C) :=
  match blocks with
  | [] => Ret (drop_buffer fs prev)
  | b :: blocks =>
      group <~ udiv b (blocks_per_group (super fs));
      block <~ umod b (blocks_per_group (super fs));
      '(fs, blk) <~ switch_group fs prev group;
      match blk with
      | None => Ret fs
      | Some blk =>
          ws <~ clear_bit (block_data (cache fs) blk) (s32 block);
          let fs := set_cache fs (mark_buffer_updated (store (cache fs) blk ws) blk) in
          let fs := set_super fs (add_free_blocks (super fs) 1) in
          g <~ group_at fs group;
          let g := if block <? first_free_block g then set_first_block g block else g in
          let fs := set_group fs group (add_group_blocks g 1) in
          fs <~ mark_group_desc_dirty fs group;
          free_blocks_loop fs (Some (group, blk)) blocks
      end
  end.

Definition free_blocks fs (blocks : list Z) : outcome (filsys C) := free_blocks_loop fs None blocks.

(** ** Inodes *)

(** The group for a directory: among those with at least [avefreei] free inodes, the
    first with the most free blocks. *)
Fixpoint pick_dir_group (gs : list blkgroup) (avefreei : Z) (i : Z) (best : option (Z * blkgroup)) : Z :=
  match gs with
  | [] => match best with Some (j, _) => j | None => 0 end
  | g :: gs =>
      let n := g_free_inode_count (desc g) in
      let better := match best with
        | None => true
        | Some (_, b) => g_free_block_count (desc b) <? g_free_block_count (desc g)
        end in
      pick_dir_group gs avefreei (i + 1)
        (if truthy n && (avefreei <=? n) && better then Some (i, g) else best)
  end.

Fixpoint pick_file_group fs (n : nat) (group : Z) : outcome Z :=
  match n with
  | O => Ret group
  | S n =>
      g <~ group_at fs group;
      if truthy (g_free_inode_count (desc g)) then Ret group
      else
        let group := u32 (group + 1) in
        pick_file_group fs n (if group_count (super fs) <=? group then 0 else group)
  end.

Definition pick_group fs (parent : Z) (dir : bool) : outcome Z :=
  if dir then
    ave <~ udiv (free_inode_count (super fs)) (group_count (super fs));
    if Z.of_nat (length (groups fs)) <? group_count (super fs) then Fault
    else Ret (pick_dir_group (take (Z.to_nat (group_count (super fs))) (groups fs)) ave 0 None)
  else
    group <~ udiv parent (inodes_per_group (super fs));
    pick_file_group fs (Z.to_nat (group_count (super fs))) group.

Definition new_inode fs (parent : Z) (dir : bool) : outcome (Z * filsys C) :=
  group <~ pick_group fs parent dir;
  g <~ group_at fs group;
  let blk := inode_bitmap_block (desc g) in
  let '(ok, c) := get_buffer (cache fs) blk in
  let fs := set_cache fs c in
  if negb ok then Ret (NOINODE, fs)
  else
    '(ino, hint) <~ search_bitmap (block_data (cache fs) blk) (inodes_per_group (super fs))
                      (first_free_inode g);
    let g := set_first_inode g hint in
    let fs := set_group fs group g in
    if ino =? inodes_per_group (super fs) then
      Ret (NOINODE, set_cache fs (release_buffer (cache fs) blk))
    else
      ws <~ set_bit (block_data (cache fs) blk) (s32 ino);
      let fs := set_cache fs (mark_buffer_updated (store (cache fs) blk ws) blk) in
      let fs := set_super fs (add_free_inodes (super fs) (-1)) in
      let g := if first_free_inode g =? ino then set_first_inode g (u32 (ino + 1)) else g in
      let fs := set_group fs group (add_group_inodes g (-1)) in
      fs <~ mark_group_desc_dirty fs group;
      let fs := set_cache fs (release_buffer (cache fs) blk) in
      Ret (u32 (ino + group * inodes_per_group (super fs)), fs).

Definition free_inode fs (ino : Z) : outcome (filsys C) :=
  group <~ udiv ino (inodes_per_group (super fs));
  ino <~ umod ino (inodes_per_group (super fs));
  g <~ group_at fs group;
  let blk := inode_bitmap_block (desc g) in
  let '(ok, c) := get_buffer (cache fs) blk in
  let fs := set_cache fs c in
  if negb ok then Ret fs
  else
    ws <~ clear_bit (block_data (cache fs) blk) (s32 ino);
    let fs := set_cache fs (mark_buffer_updated (store (cache fs) blk ws) blk) in
    let fs := set_super fs (add_free_inodes (super fs) 1) in
    let g := if ino <? first_free_inode g then set_first_inode g ino else g in
    let fs := set_group fs group (add_group_inodes g 1) in
    fs <~ mark_group_desc_dirty fs group;
    Ret (set_cache fs (release_buffer (cache fs) blk)).
End Group.

(** ** The invariant and the abstract view *)

Definition zeros (ws : list Z) (n : Z) : Z :=
  Z.of_nat (countb (fun i => negb (bit ws i)) (seqZ 0 n)).

Definition free_total (gs : list blkgroup) : Z :=
  foldr (fun g n => g_free_block_count (desc g) + n) 0 gs.

(** A bit map [ws] of [len] bits, in a block with room for whole words and a clear
    bit behind the last one. *)
Definition map_ok (ws : list Z) (len : Z) : Prop :=
  bitmap_ok ws /\ 0 <= len /\ padded len <= 32 * Z.of_nat (length ws)
  /\ (len < padded len -> bit ws len = false).

Section Invariant.
Context {C : Type} `{BC : BufferCache C}.
Implicit Types fs : filsys C.

Definition block_map fs (g : blkgroup) : list Z :=
  block_data (cache fs) (block_bitmap_block (desc g)).

Record group_ok fs (g : blkgroup) : Prop := {
  go_map : map_ok (block_map fs g) (g_block_count (desc g));
  go_size : g_block_count (desc g) <= blocks_per_group (super fs);
  go_count : g_free_block_count (desc g) = zeros (block_map fs g) (g_block_count (desc g));
  go_hint : first_free_block g = NOBLOCK \/ 0 <= first_free_block g <= g_block_count (desc g);
}.

Record fs_ok fs : Prop := {
  fo_bpg : 0 < blocks_per_group (super fs);
  fo_count : group_count (super fs) = Z.of_nat (length (groups fs));
  fo_some : groups fs <> [];
  fo_fit : group_count (super fs) * blocks_per_group (super fs) < 2 ^ 32;
  fo_groups : forall i g, groups fs !! i = Some g -> group_ok fs g;
  fo_maps : forall i j g h, groups fs !! i = Some g -> groups fs !! j = Some h -> i <> j ->
      block_bitmap_block (desc g) <> block_bitmap_block (desc h);
  fo_goal : forall n, 0 <= n < block_count (super fs) -> exists g,
      groups fs !! Z.to_nat (n / blocks_per_group (super fs)) = Some g
      /\ n mod blocks_per_group (super fs) < g_block_count (desc g);
  fo_total : free_block_count (super fs) = free_total (groups fs);
  fo_descs : 0 < groupdescs_per_block fs /\ forall i : nat, (i < length (groups fs))%nat ->
      is_Some (groupdesc_buffers fs !! Z.to_nat (Z.of_nat i / groupdescs_per_block fs));
}.

(** Block [b] of group [i], counted over the file system. *)
Definition block_no fs (i : nat) (b : Z) : Z := b + Z.of_nat i * blocks_per_group (super fs).

Definition is_block fs (i : nat) (g : blkgroup) (b : Z) : Prop :=
  groups fs !! i = Some g /\ 0 <= b < g_block_count (desc g).

Definition free fs (n : Z) : Prop :=
  exists i g b, is_block fs i g b /\ n = block_no fs i b /\ bit (block_map fs g) b = false.

(** The buffers held and the contents of every block but the bit maps of blocks. *)
Definition same_pins fs fs' : Prop := forall x, pins (cache fs') x = pins (cache fs) x.
Definition same_data_but fs fs' (b : Z) : Prop :=
  forall x, x <> b -> block_data (cache fs') x = block_data (cache fs) x.
End Invariant.

(** ** Lemmas *)

Lemma countb_ext {A} (f h : A -> bool) l : (forall x, x ∈ l -> f x = h x) -> countb f l = countb h l.
Proof.
  induction l as [|x l IH]; intros Hf; [done|]. rewrite !countb_cons, Hf by left.
  rewrite IH; [done|]. intros y Hy. apply Hf. by right.
Qed.

Lemma zeros_flip ws ws' n p :
  0 <= p < n -> (forall i, 0 <= i -> i <> p -> bit ws' i = bit ws i) ->
  zeros ws' n = zeros ws n + Z.b2z (bit ws p) - Z.b2z (bit ws' p).
Proof.
  intros Hp Heq. unfold zeros.
  replace n with (p + (1 + (n - p - 1))) by lia. rewrite !seqZ_app by lia.
  rewrite !countb_app. replace (seqZ (0 + p) 1) with [p]
    by (rewrite seqZ_cons, seqZ_nil by lia; f_equal; lia).
  rewrite !countb_cons.
  rewrite (countb_ext _ (fun i => negb (bit ws i)) (seqZ 0 p)).
  2: { intros i Hi%elem_of_seqZ. by rewrite Heq by lia. }
  rewrite (countb_ext _ (fun i => negb (bit ws i)) (seqZ (0 + p + 1) _)).
  2: { intros i Hi%elem_of_seqZ. by rewrite Heq by lia. }
  simpl. destruct (bit ws p), (bit ws' p); simpl; lia.
Qed.

Lemma zeros_range ws n : 0 <= n -> 0 <= zeros ws n <= n.
Proof.
  intros Hn. unfold zeros, countb. split; [lia|].
  pose proof (length_filter (fun x => negb (bit ws x) = true) (seqZ 0 n)) as H.
  rewrite length_seqZ in H. lia.
Qed.

Lemma zeros_pos ws n p : 0 <= p < n -> bit ws p = false -> 0 < zeros ws n.
Proof.
  intros Hp Hb. unfold zeros.
  assert (Hl : seqZ 0 n !! Z.to_nat p = Some p) by (apply lookup_seqZ; lia).
  pose proof (countb_pos (fun i => negb (bit ws i)) _ _ _ Hl) as H.
  simpl in H. rewrite Hb in H. specialize (H eq_refl). lia.
Qed.

Lemma free_total_insert gs i g h :
  gs !! i = Some g -> free_total (<[i := h]> gs)
    = free_total gs - g_free_block_count (desc g) + g_free_block_count (desc h).
Proof.
  revert i. induction gs as [|x gs IH]; intros [|i] Hi; simpl in *; try done.
  - injection Hi as ->. lia.
  - rewrite IH by done. lia.
Qed.

Lemma free_total_range gs m :
  Forall (fun g => 0 <= g_free_block_count (desc g) <= m) gs ->
  0 <= free_total gs <= Z.of_nat (length gs) * m.
Proof. induction 1; simpl; lia. Qed.

Lemma map_ok_small ws len : map_ok ws len -> 0 <= len < 2 ^ 31.
Proof.
  intros ([_ Hl] & H0 & Hp & _). pose proof (padded_bounds len H0) as [Hb _]. lia.
Qed.

(** The search finds the first clear bit from the hint on. *)
Lemma search_bitmap_spec ws len hint :
  map_ok ws len -> hint = 0xFFFFFFFF \/ 0 <= hint <= len ->
  exists r, search_bitmap ws len hint = Ret (r, if hint =? 0xFFFFFFFF then r else hint)
    /\ first_clear ws (if hint =? 0xFFFFFFFF then 0 else hint) len r.
Proof.
  intros Hm Hh. pose proof (map_ok_small _ _ Hm) as Hsm. destruct Hm as (Hok & H0 & Hp & Hpad).
  unfold search_bitmap. rewrite (s32_small len) by (unfold is_s32; lia).
  destruct (Z.eqb_spec hint 0xFFFFFFFF) as [->|Hne]; cbn [negb].
  - destruct (find_first_zero_spec ws len Hok H0 Hp Hpad) as (r & -> & Hf).
    cbn [obind]. exists r. destruct Hf as [Hr Hf]. rewrite u32_small by (unfold is_u32; lia).
    split; [done|]. by split.
  - destruct Hh as [|Hh]; [lia|]. rewrite (s32_small hint) by (unfold is_s32; lia).
    destruct (find_next_zero_bit_spec ws len hint Hok ltac:(lia) H0 Hp Hpad) as (r & -> & Hf).
    cbn [obind]. exists r. destruct (Z.ltb_spec hint len).
    + destruct Hf as [Hr Hf]. rewrite u32_small by (unfold is_u32; lia). split; [done|]. by split.
    + subst r. rewrite u32_small by (unfold is_u32; lia). split; [done|].
      unfold first_clear. split_and!; try lia.
Qed.

Section Blocks.
Context {C : Type} `{BC : BufferCache C}.
Implicit Types fs : filsys C.

Lemma group_at_spec fs i g : groups fs !! i = Some g -> group_at fs (Z.of_nat i) = Ret g.
Proof.
  intros Hg. unfold group_at. rewrite (proj2 (Z.ltb_ge _ _)) by lia. by rewrite Nat2Z.id, Hg.
Qed.

Lemma mark_desc_spec fs i :
  fs_ok fs -> (i < length (groups fs))%nat ->
  exists b, mark_group_desc_dirty fs (Z.of_nat i) = Ret (set_cache fs (mark_buffer_updated (cache fs) b)).
Proof.
  intros Hok Hi. destruct (fo_descs _ Hok) as [H0 Hd]. destruct (Hd i Hi) as [b Hb].
  unfold mark_group_desc_dirty, udiv. rewrite (proj2 (Z.eqb_neq _ _)) by lia. cbn [obind].
  rewrite Hb. by exists b.
Qed.

(** [fs_ok] does not depend on buffers or dirty marks, only on the contents. *)
Lemma fs_ok_cache fs c :
  (forall x, block_data c x = block_data (cache fs) x) -> fs_ok fs -> fs_ok (set_cache fs c).
Proof.
  intros Hd [? ? ? ? Hg ? ? ? ?]. constructor; try done.
  intros i g Hi. destruct (Hg i g Hi) as [H1 H2 H3 H4].
  constructor; try done; unfold block_map; cbn [set_cache cache]; by rewrite Hd.
Qed.

Lemma free_cache fs c n :
  (forall x, block_data c x = block_data (cache fs) x) -> free (set_cache fs c) n <-> free fs n.
Proof.
  intros Hd. unfold free, block_map, is_block, block_no. cbn [set_cache cache groups super].
  by setoid_rewrite Hd.
Qed.

Lemma set_group_lookup fs i j (g h : blkgroup) :
  (i < length (groups fs))%nat ->
  groups (set_group fs (Z.of_nat i) h) !! j = if decide (i = j) then Some h else groups fs !! j.
Proof.
  intros Hi. cbn [set_group groups]. rewrite Nat2Z.id. case_decide as Hj.
  - subst. by apply list_lookup_insert_eq.
  - by apply list_lookup_insert_ne.
Qed.

(** A new hint. *)
Lemma fs_ok_hint fs i g h :
  fs_ok fs -> groups fs !! i = Some g -> h = NOBLOCK \/ 0 <= h <= g_block_count (desc g) ->
  fs_ok (set_group fs (Z.of_nat i) (set_first_block g h)).
Proof.
  intros Hok Hg Hh. apply lookup_lt_Some in Hg as Hi.
  assert (Hl := fun j => set_group_lookup fs i j g (set_first_block g h) Hi).
  destruct Hok as [? ? ? ? Hgs Hm Hgoal Ht Hd]. constructor; try done.
  - cbn [set_group groups]. by rewrite length_insert.
  - intros He%(f_equal length). cbn [set_group groups] in He. rewrite length_insert in He.
    by destruct (groups fs).
  - intros j x. rewrite Hl. case_decide as Hj.
    + intros [= <-]. destruct (Hgs i g Hg). by constructor.
    + intros Hx. destruct (Hgs j x Hx). by constructor.
  - intros j k x y. rewrite !Hl. intros Hx Hy Hne.
    destruct (decide (i = j)) as [<-|], (decide (i = k)) as [<-|]; [done| | |].
    + injection Hx as <-. by apply (Hm i k g y).
    + injection Hy as <-. by apply (Hm j i x g).
    + by apply (Hm j k x y).
  - intros n Hn. cbn [set_group super]. rewrite Hl. destruct (Hgoal n Hn) as (x & Hx & ?).
    case_decide as Hj; [|by exists x]. eexists. split; [done|]. subst i. by simplify_eq.
  - cbn [set_group groups super]. rewrite Nat2Z.id. rewrite (free_total_insert _ _ g) by done.
    cbn [set_first_block desc]. rewrite Ht. lia.
  - cbn [set_group groups]. by rewrite length_insert.
Qed.

Lemma free_hint fs i g h n :
  groups fs !! i = Some g ->
  free (set_group fs (Z.of_nat i) (set_first_block g h)) n <-> free fs n.
Proof.
  intros Hg. apply lookup_lt_Some in Hg as Hi.
  assert (Hl := fun j => set_group_lookup fs i j g (set_first_block g h) Hi).
  unfold free, is_block. setoid_rewrite Hl. split.
  - intros (j & x & b & [Hx Hb] & Hn & Hc). case_decide as Hj.
    + injection Hx as <-. subst j. by exists i, g, b.
    + by exists j, x, b.
  - intros (j & x & b & [Hx Hb] & Hn & Hc). destruct (decide (i = j)) as [<-|Hj].
    + exists i, (set_first_block g h), b. simplify_eq. by case_decide.
    + exists j, x, b. by case_decide.
Qed.

Lemma fs_ok_total fs : fs_ok fs -> 0 <= free_total (groups fs) < 2 ^ 32.
Proof.
  intros Hok. pose proof (free_total_range (groups fs) (blocks_per_group (super fs))) as Hr.
  rewrite <- (fo_count _ Hok) in Hr. pose proof (fo_fit _ Hok).
  enough (0 <= free_total (groups fs) <= group_count (super fs) * blocks_per_group (super fs)) by lia.
  apply Hr. apply Forall_lookup. intros i g Hg. destruct (fo_groups _ Hok i g Hg) as [Hm Hsz Hc _].
  pose proof (map_ok_small _ _ Hm). rewrite Hc.
  pose proof (zeros_range (block_map fs g) (g_block_count (desc g))). lia.
Qed.

(** The effect of changing bit [p] of the map of group [i] to [v], with the counts. *)
Lemma change_bit fs fs' i g h p v :
  fs_ok fs -> is_block fs i g p ->
  let d := Z.b2z (bit (block_map fs g) p) - Z.b2z v in
  super fs' = add_free_blocks (super fs) d -> groups fs' = <[i := h]> (groups fs) ->
  groupdescs_per_block fs' = groupdescs_per_block fs -> groupdesc_buffers fs' = groupdesc_buffers fs ->
  desc h = desc (add_group_blocks g d) ->
  first_free_block h = NOBLOCK \/ 0 <= first_free_block h <= g_block_count (desc g) ->
  same_data_but fs fs' (block_bitmap_block (desc g)) ->
  bitmap_ok (block_map fs' h) -> length (block_map fs' h) = length (block_map fs g) ->
  (forall k, 0 <= k -> bit (block_map fs' h) k = if k =? p then v else bit (block_map fs g) k) ->
  fs_ok fs' /\ forall n, free fs' n <-> if decide (n = block_no fs i p) then v = false else free fs n.
Proof.
  intros Hok [Hg Hp] d Hsup Hgrp Hgd Hgb Hdesc Hhint Hdata Hbok Hblen Hbit.
  apply lookup_lt_Some in Hg as Hi. pose proof (fs_ok_total _ Hok) as Htot.
  destruct (fo_groups _ Hok i g Hg) as [Hm Hsz Hc Hh].
  pose proof (map_ok_small _ _ Hm) as Hbc. pose proof (zeros_range (block_map fs g) _ (proj1 Hbc)) as Hz.
  assert (Hzeros : zeros (block_map fs' h) (g_block_count (desc g))
    = zeros (block_map fs g) (g_block_count (desc g)) + d).
  { rewrite (zeros_flip (block_map fs g) _ _ p Hp).
    - rewrite (Hbit p), Z.eqb_refl by lia. lia.
    - intros k Hk Hne. by rewrite Hbit, (proj2 (Z.eqb_neq _ _)) by done. }
  pose proof (zeros_range (block_map fs' h) _ (proj1 Hbc)) as Hz'. rewrite Hzeros in Hz'.
  assert (Hcnt : u32 (g_free_block_count (desc g) + d) = zeros (block_map fs' h) (g_block_count (desc g))).
  { rewrite Hc, Hzeros. apply u32_small. unfold is_u32. lia. }
  assert (Hl : forall j, groups fs' !! j = if decide (i = j) then Some h else groups fs !! j).
  { intros j. rewrite Hgrp. case_decide as Hj; [subst; by apply list_lookup_insert_eq|].
    by apply list_lookup_insert_ne. }
  assert (Hdh : g_block_count (desc h) = g_block_count (desc g)
    /\ block_bitmap_block (desc h) = block_bitmap_block (desc g)
    /\ g_free_block_count (desc h) = zeros (block_map fs' h) (g_block_count (desc g))).
  { rewrite Hdesc. by split_and!. }
  destruct Hdh as (Hd1 & Hd2 & Hd3).
  assert (Hother : forall j x, groups fs !! j = Some x -> i <> j -> block_map fs' x = block_map fs x).
  { intros j x Hx Hne. unfold block_map. apply Hdata. by apply (fo_maps _ Hok j i x g). }
  split.
  - destruct Hok as [? ? ? ? Hgs Hmaps Hgoal Ht Hds]. constructor; rewrite ?Hsup; try done.
    + rewrite Hgrp, length_insert. done.
    + rewrite Hgrp. intros He%(f_equal length). rewrite length_insert in He. by destruct (groups fs).
    + intros j x. rewrite Hl. case_decide as Hj.
      * intros [= <-]. constructor; rewrite ?Hd1, ?Hsup; try done.
        destruct Hm as (_ & H0 & Hpad & Hclr). split_and!; [done|done|by rewrite Hblen|].
        intros Hlt. rewrite Hbit, (proj2 (Z.eqb_neq _ _)) by lia. by apply Hclr.
      * intros Hx. destruct (Hgs j x Hx). constructor; rewrite ?Hsup, ?(Hother j x Hx Hj); done.
    + intros j k x y. rewrite !Hl. intros Hx Hy Hne.
      destruct (decide (i = j)) as [<-|], (decide (i = k)) as [<-|]; [done| | |].
      * injection Hx as <-. rewrite Hd2. by apply (Hmaps i k g y).
      * injection Hy as <-. rewrite Hd2. by apply (Hmaps j i x g).
      * by apply (Hmaps j k x y).
    + intros n Hn. destruct (Hgoal n Hn) as (x & Hx & ?). rewrite Hl.
      case_decide as Hj; [|by exists x]. exists h. split; [done|]. rewrite Hd1.
      rewrite Hj in Hg. cbn [add_free_blocks blocks_per_group] in *. congruence.
    + rewrite Hgrp, (free_total_insert _ _ g) by done. cbn [add_free_blocks free_block_count].
      rewrite Ht, Hd3, Hzeros, <- Hc.
      rewrite u32_small; [lia|]. unfold is_u32.
      pose proof (free_total_insert (groups fs) i g h Hg) as Hins. rewrite Hd3, Hzeros, <- Hc in Hins.
      assert (0 <= free_total (<[i:=h]> (groups fs)) < 2 ^ 32); [|lia].
      pose proof (free_total_range (<[i:=h]> (groups fs)) (blocks_per_group (super fs))) as Hr.
      rewrite length_insert in Hr. enough (Hf : 0 <= free_total (<[i:=h]> (groups fs))
        <= Z.of_nat (length (groups fs)) * blocks_per_group (super fs)) by lia.
      apply Hr. apply Forall_insert.
      * apply Forall_lookup. intros j x Hx. destruct (Hgs j x Hx) as [Hm' Hsz' Hc' _].
        pose proof (map_ok_small _ _ Hm'). rewrite Hc'.
        pose proof (zeros_range (block_map fs x) (g_block_count (desc x))). lia.
      * rewrite Hd3, Hzeros. lia.
    + rewrite Hgrp, length_insert, Hgd, Hgb. done.
  - intros n. assert (Hno : forall j b, block_no fs' j b = block_no fs j b)
      by (intros; unfold block_no; by rewrite Hsup).
    assert (Huniq : forall j x b, is_block fs j x b -> block_no fs j b = block_no fs i p -> j = i /\ b = p).
    { intros j x b [Hx Hb]. unfold block_no. pose proof (fo_bpg _ Hok).
      destruct (fo_groups _ Hok j x Hx) as [_ Hsz' _ _]. intros He.
      assert (Z.of_nat j = Z.of_nat i /\ b = p); [|lia].
      apply (Z.div_mod_unique (blocks_per_group (super fs)) (Z.of_nat j) (Z.of_nat i) b p); lia. }
    split.
    + intros (j & x & b & [Hx Hb] & -> & Hc'). rewrite Hno. rewrite Hl in Hx.
      destruct (decide (i = j)) as [<-|Hj].
      * injection Hx as <-. rewrite Hbit in Hc' by lia. rewrite Hd1 in Hb.
        case_decide as Hn.
        -- destruct (Huniq i g b) as [_ ->]; [done|done|]. by rewrite Z.eqb_refl in Hc'.
        -- destruct (Z.eqb_spec b p) as [Hbp|Hbp]; [by rewrite Hbp in Hn|]. by exists i, g, b.
      * case_decide as Hn; [destruct (Huniq j x b) as [-> _]; done|].
        exists j, x, b. split_and!; try done. by rewrite <- (Hother j x Hx Hj).
    + case_decide as Hn.
      * intros ->. exists i, h, p. 
          split; [split; [by rewrite Hl, decide_True|lia]|]. split; [by rewrite Hno|].
        rewrite Hbit, Z.eqb_refl by lia. done.
      * intros (j & x & b & [Hx Hb] & Hnb & Hc'). destruct (decide (i = j)) as [<-|Hj].
        -- rewrite Hg in Hx. injection Hx as <-. exists i, h, b. 
          split; [split; [by rewrite Hl, decide_True|lia]|]. split; [by rewrite Hno|].
           rewrite Hbit by lia. destruct (Z.eqb_spec b p) as [Hbp|Hbp]; [|done].
           by rewrite Hbp in Hnb.
        -- exists j, x, b. 
          split; [split; [by rewrite Hl, decide_False|lia]|]. split; [by rewrite Hno|].
           by rewrite (Hother j x Hx Hj).
Qed.
End Blocks.

Section NewBlock.
Context {C : Type} `{BC : BufferCache C}.
Implicit Types fs : filsys C.

Lemma block_no_range fs i g p : fs_ok fs -> is_block fs i g p -> 0 <= block_no fs i p < NOBLOCK.
Proof.
  intros Hok [Hg Hp]. apply lookup_lt_Some in Hg as Hi. unfold block_no, NOBLOCK.
  pose proof (fo_fit _ Hok) as Hf. rewrite (fo_count _ Hok) in Hf. pose proof (fo_bpg _ Hok).
  destruct (fo_groups _ Hok i g Hg) as [_ Hsz _ _]. nia.
Qed.

(** What [new_block] does when it finds block [n]. *)
Record took fs fs' (n : Z) : Prop := {
  tk_ok : fs_ok fs';
  tk_was_free : free fs n;
  tk_free : forall m, free fs' m <-> free fs m /\ m <> n;
  tk_no : n <> NOBLOCK;
}.

Lemma block_found_spec fs i g p :
  fs_ok fs -> is_block fs i g p -> bit (block_map fs g) p = false ->
  (0 < pins (cache fs) (block_bitmap_block (desc g)))%nat ->
  exists fs', block_found fs (Z.of_nat i) (block_bitmap_block (desc g)) p
      = Ret (block_no fs i p, fs')
    /\ took fs fs' (block_no fs i p)
    /\ forall x, pins (cache fs') x
         = (pins (cache fs) x - if (x =? block_bitmap_block (desc g))%Z then 1 else 0)%nat.
Proof.
  intros Hok Hblk Hbit Hpin. pose proof Hblk as [Hg Hp]. apply lookup_lt_Some in Hg as Hi.
  destruct (fo_groups _ Hok i g Hg) as [Hm Hsz Hc Hh]. pose proof (map_ok_small _ _ Hm) as Hsm.
  pose proof Hm as (Hbok & H0 & Hpad & Hclr). pose proof (padded_bounds _ H0) as [Hpb _].
  set (blk := block_bitmap_block (desc g)) in *. fold blk in Hpin. unfold block_found.
  rewrite (s32_small p) by (unfold is_s32; lia). change (block_data (cache fs) blk) with (block_map fs g).
  destruct (set_bit_spec (block_map fs g) p Hbok ltac:(lia)) as (ws' & -> & Hbok' & Hlen' & Hbit').
  cbn [obind]. set (fs1 := set_super _ _).
  rewrite (group_at_spec fs1 i g Hg). cbn [obind].
  set (g1 := if first_free_block g =? p then _ else _).
  assert (Hg1 : desc g1 = desc g /\ (first_free_block g1 = NOBLOCK
    \/ 0 <= first_free_block g1 <= g_block_count (desc g))).
  { unfold g1. zcase; [|done]. split; [done|]. cbn [set_first_block first_free_block].
    rewrite u32_small by (unfold is_u32; lia). lia. }
  destruct Hg1 as [Hd1 Hh1].
  set (fs2 := set_group fs1 (Z.of_nat i) (add_group_blocks g1 (-1))).
  assert (Hd2 : forall x, block_data (cache fs2) x
    = if x =? blk then ws' else block_data (cache fs) x).
  { intros x. cbn. rewrite updated_data. by apply store_data. }
  assert (Hmap2 : block_map fs2 (add_group_blocks g1 (-1)) = ws').
  { unfold block_map. rewrite Hd2. cbn [add_group_blocks desc block_bitmap_block].
    rewrite Hd1, Z.eqb_refl. done. }
  destruct (change_bit fs fs2 i g (add_group_blocks g1 (-1)) p true Hok Hblk) as [Hok2 Hfree2];
    rewrite ?Hbit; try done; rewrite ?Hmap2; try done.
  { cbn. by rewrite Nat2Z.id. }
  { cbn [add_group_blocks desc]. by rewrite Hd1. }
  { intros x Hx. rewrite Hd2. by rewrite (proj2 (Z.eqb_neq _ _)). }
  destruct (mark_desc_spec fs2 i Hok2) as (b & ->).
  { cbn. by rewrite length_insert. }
  cbn [obind]. set (fs3 := set_cache fs2 _). set (fs4 := set_cache fs3 _).
  pose proof (block_no_range fs i g p Hok Hblk) as Hr.
  exists fs4. split_and!.
  - do 2 f_equal. apply u32_small. unfold is_u32, NOBLOCK, block_no in *. lia.
  - assert (Hd4 : forall x, block_data (cache fs4) x = block_data (cache fs2) x)
      by (intros x; cbn; by rewrite release_data, updated_data).
    constructor.
    + apply (fs_ok_cache fs2 _ Hd4 Hok2).
    + exists i, g, p. done.
    + intros m. etrans; [apply (free_cache fs2 _ m Hd4)|]. rewrite Hfree2.
      case_decide as Hn; [split; [done|intros [_ ?]; congruence]|tauto].
    + lia.
  - intros x. cbn. by rewrite release_pins, updated_pins, updated_pins, store_pins.
Qed.

Lemma first_clear_free fs i g start r :
  groups fs !! i = Some g -> 0 <= start -> first_clear (block_map fs g) start (g_block_count (desc g)) r ->
  r <> g_block_count (desc g) -> is_block fs i g r /\ bit (block_map fs g) r = false.
Proof. intros Hg Hs ([? ?] & _ & Hc) Hne. split; [split; [done|lia]|]. apply Hc. lia. Qed.

(** The result of a search over the groups: a block that was free, or none, and then
    nothing but hints and the cache has changed. *)
Definition found_or_not fs (r : outcome (Z * filsys C)) : Prop :=
  exists n fs', r = Ret (n, fs') /\ fs_ok fs' /\ same_pins fs fs' /\
    (took fs fs' n \/ n = NOBLOCK /\ forall m, free fs' m <-> free fs m).

Lemma found_or_not_trans fs fs1 r :
  same_pins fs fs1 -> (forall m, free fs1 m <-> free fs m) -> found_or_not fs1 r -> found_or_not fs r.
Proof.
  intros Hp Hf (n & fs' & -> & Hok & Hp' & Hor). exists n, fs'. split_and!; try done.
  - intros x. by rewrite Hp', Hp.
  - destruct Hor as [Ht|[-> Hn]]; [left|right].
    + destruct Ht as [? Hw Hfr ?]. constructor; try done; [by apply Hf|].
      intros m. by rewrite Hfr, Hf.
    + split; [done|]. intros m. by rewrite Hn.
Qed.

Lemma block_found_or_not fs fs0 i g p :
  fs_ok fs -> is_block fs i g p -> bit (block_map fs g) p = false ->
  (forall x, pins (cache fs) x = (pins (cache fs0) x
     + if (x =? block_bitmap_block (desc g))%Z then 1 else 0)%nat) ->
  (forall m, free fs m <-> free fs0 m) ->
  found_or_not fs0 (block_found fs (Z.of_nat i) (block_bitmap_block (desc g)) p).
Proof.
  intros Hok Hblk Hbit Hpins Hfree.
  destruct (block_found_spec fs i g p Hok Hblk Hbit) as (fs' & -> & [Hok' Hw Hf Hne] & Hp).
  { rewrite Hpins, Z.eqb_refl. lia. }
  exists (block_no fs i p), fs'. split; [done|]. split; [done|]. split.
  - intros x. rewrite Hp, Hpins. destruct (x =? _); lia.
  - left. constructor; try done; [by apply Hfree|]. intros m. by rewrite Hf, Hfree.
Qed.

Lemma get_buffer_fs fs b :
  let fs1 := set_cache fs (get_buffer (cache fs) b).2 in
  fs_ok fs -> fs_ok fs1 /\ (forall m, free fs1 m <-> free fs m)
    /\ (forall g, block_map fs1 g = block_map fs g)
    /\ forall x, pins (cache fs1) x
        = (pins (cache fs) x + if (get_buffer (cache fs) b).1 && (x =? b)%Z then 1 else 0)%nat.
Proof.
  intros fs1 Hok. assert (Hd : forall x, block_data (get_buffer (cache fs) b).2 x = block_data (cache fs) x)
    by (intros; apply get_data).
  split_and!; [by apply fs_ok_cache|intros; by apply free_cache|intros; apply Hd|intros; apply get_pins].
Qed.

Lemma release_fs fs b :
  let fs1 := set_cache fs (release_buffer (cache fs) b) in
  fs_ok fs -> fs_ok fs1 /\ (forall m, free fs1 m <-> free fs m)
    /\ (forall g, block_map fs1 g = block_map fs g)
    /\ forall x, pins (cache fs1) x = (pins (cache fs) x - if (x =? b)%Z then 1 else 0)%nat.
Proof.
  intros fs1 Hok. assert (Hd : forall x, block_data (release_buffer (cache fs) b) x = block_data (cache fs) x)
    by (intros; apply release_data).
  split_and!; [by apply fs_ok_cache|intros; by apply free_cache|intros; apply Hd|intros; apply release_pins].
Qed.

Lemma next_group fs i : fs_ok fs -> (i < length (groups fs))%nat ->
  exists j, (j < length (groups fs))%nat
    /\ (if group_count (super fs) <=? u32 (Z.of_nat i + 1) then 0 else u32 (Z.of_nat i + 1)) = Z.of_nat j
    /\ j = (S i mod length (groups fs))%nat.
Proof.
  intros Hok Hi. pose proof (fo_fit _ Hok). pose proof (fo_bpg _ Hok). rewrite (fo_count _ Hok) in *.
  rewrite u32_small by (unfold is_u32; nia). zcase.
  - exists 0%nat. split_and!; [lia|done|]. replace (S i) with (length (groups fs)) by lia.
    by rewrite Nat.Div0.mod_same.
  - exists (S i). split_and!; [lia|lia|]. by rewrite Nat.mod_small by lia.
Qed.

Lemma new_block_loop_spec n : forall fs i, fs_ok fs -> (i < length (groups fs))%nat ->
  found_or_not fs (new_block_loop fs n (Z.of_nat i)).
Proof.
  induction n as [|n IH]; intros fs i Hok Hi; cbn [new_block_loop].
  { exists NOBLOCK, fs. split_and!; try done. by right. }
  destruct (lookup_lt_is_Some_2 _ _ Hi) as [g Hg]. rewrite (group_at_spec fs i g Hg). cbn [obind].
  destruct (fo_groups _ Hok i g Hg) as [Hm Hsz Hc Hh].
  zcase.
  2: { destruct (next_group fs i Hok Hi) as (j & Hj & -> & _). by apply IH. }
  set (blk := block_bitmap_block (desc g)).
  pose proof (get_buffer_fs fs blk Hok) as (Hok1 & Hf1 & Hm1 & Hp1).
  destruct (get_buffer (cache fs) blk) as [ok c]. cbn [fst snd] in *.
  set (fs1 := set_cache fs c) in *. destruct ok; cbn [negb andb] in *.
  2: { exists NOBLOCK, fs1. split_and!; try done; [|by right]. intros x. rewrite Hp1. lia. }
  change (block_data (cache fs1) blk) with (block_map fs1 g). rewrite Hm1.
  destruct (search_bitmap_spec (block_map fs g) (g_block_count (desc g)) (first_free_block g) Hm Hh)
    as (r & -> & Hr). cbn [obind].
  set (h := if first_free_block g =? 0xFFFFFFFF then r else first_free_block g).
  assert (Hhint : h = NOBLOCK \/ 0 <= h <= g_block_count (desc g)).
  { unfold h, NOBLOCK in *. destruct Hr as [Hr _]. destruct (first_free_block g =? _) eqn:?; lia. }
  assert (Hg1 : groups fs1 !! i = Some g) by done.
  pose proof (fs_ok_hint fs1 i g h Hok1 Hg1 Hhint) as Hok2.
  set (fs2 := set_group fs1 (Z.of_nat i) (set_first_block g h)) in *.
  assert (Hf2 : forall m, free fs2 m <-> free fs m)
    by (intros m; etrans; [apply (free_hint fs1 i g h m Hg1)|apply Hf1]).
  assert (Hg2 : groups fs2 !! i = Some (set_first_block g h)).
  { unfold fs2. rewrite set_group_lookup with (g := g) by done. by rewrite decide_True. }
  assert (Hstart : 0 <= if first_free_block g =? 0xFFFFFFFF then 0 else first_free_block g)
    by (destruct Hh as [Hh|Hh]; unfold NOBLOCK in *; [rewrite Hh; reflexivity|]; zcase; lia).
  zcase.
  - destruct (first_clear_free fs i g _ r Hg Hstart Hr) as [Hb Hbit]; [done|].
    apply (block_found_or_not fs2 fs i (set_first_block g h) r Hok2); try done.
    + split; [done|]. apply Hb.
    + change (block_map fs2 (set_first_block g h)) with (block_map fs1 g). by rewrite Hm1.
  - pose proof (release_fs fs2 blk Hok2) as (Hok3 & Hf3 & _ & Hp3).
    set (fs3 := set_cache fs2 _) in *.
    assert (Hl3 : length (groups fs3) = length (groups fs)) by (cbn; by rewrite length_insert).
    destruct (next_group fs3 i Hok3 ltac:(lia)) as (j & Hj & -> & _).
    apply (found_or_not_trans fs fs3); [| |by apply IH].
    + intros x. rewrite Hp3. change (cache fs2) with (cache fs1). rewrite Hp1. destruct (x =? blk); lia.
    + intros m. by rewrite Hf3, Hf2.
Qed.

Lemma new_block_spec fs goal : fs_ok fs -> 0 <= goal -> found_or_not fs (new_block fs goal).
Proof.
  intros Hok Hgoal. unfold new_block.
  assert (Hlen : (0 < length (groups fs))%nat) by (pose proof (fo_some _ Hok); by destruct (groups fs); [|simpl; lia]).
  zcase; [|by apply (new_block_loop_spec _ fs 0%nat)].
  pose proof (fo_bpg _ Hok) as Hbpg. unfold udiv, umod. rewrite (proj2 (Z.eqb_neq _ _)) by lia.
  cbn [obind]. destruct (fo_goal _ Hok goal ltac:(lia)) as (g & Hg & Hlt).
  set (i := Z.to_nat (goal / blocks_per_group (super fs))) in *.
  set (p := goal mod blocks_per_group (super fs)) in *.
  assert (Hdiv : goal / blocks_per_group (super fs) = Z.of_nat i)
    by (unfold i; rewrite Z2Nat.id; [done|apply Z.div_pos; lia]).
  assert (Hp : 0 <= p) by (apply Z.mod_pos_bound; lia).
  rewrite Hdiv, (group_at_spec fs i g Hg). cbn [obind].
  destruct (fo_groups _ Hok i g Hg) as [Hm Hsz Hc Hh]. pose proof (map_ok_small _ _ Hm) as Hsm.
  pose proof Hm as (Hbok & H0 & Hpad & Hclr). pose proof (padded_bounds _ H0) as [Hpb _].
  set (blk := block_bitmap_block (desc g)).
  pose proof (get_buffer_fs fs blk Hok) as (Hok1 & Hf1 & Hm1 & Hp1).
  destruct (get_buffer (cache fs) blk) as [ok c]. cbn [fst snd] in *.
  set (fs1 := set_cache fs c) in *. destruct ok; cbn [negb andb] in *.
  2: { exists NOBLOCK, fs1. split_and!; try done; [|by right]. intros x. rewrite Hp1. lia. }
  change (block_data (cache fs1) blk) with (block_map fs1 g). rewrite Hm1.
  rewrite (s32_small p), test_bit_spec by (unfold is_s32; lia). cbn [obind].
  destruct (bit (block_map fs g) p) eqn:Hbit; cbn [Z.eqb].
  - rewrite (s32_small (g_block_count _)), (s32_small (p + 1)) by (unfold is_s32; lia).
    destruct (find_next_zero_bit_spec (block_map fs g) (g_block_count (desc g)) (p + 1) Hbok
      ltac:(lia) H0 Hpad Hclr) as (r & -> & Hr). cbn [obind].
    assert (Hr' : first_clear (block_map fs g) (p + 1) (g_block_count (desc g)) r).
    { destruct (p + 1 <? _) eqn:?; [done|]. zify_bool. subst r. unfold first_clear. split_and!; lia. }
    rewrite u32_small by (destruct Hr' as [? _]; unfold is_u32; lia).
    zcase.
    + destruct (first_clear_free fs i g (p + 1) r Hg ltac:(lia) Hr') as [Hb Hbr]; [done|].
      apply (block_found_or_not fs1 fs i g r Hok1); try done. by rewrite Hm1.
    + pose proof (release_fs fs1 blk Hok1) as (Hok3 & Hf3 & _ & Hp3).
      set (fs3 := set_cache fs1 _) in *. apply lookup_lt_Some in Hg as Hi.
      apply (found_or_not_trans fs fs3); [| |by apply new_block_loop_spec].
      * intros x. rewrite Hp3, Hp1. destruct (x =? blk); lia.
      * intros m. by rewrite Hf3, Hf1.
  - apply (block_found_or_not fs1 fs i g p Hok1); try done.
    by rewrite Hm1.
Qed.
End NewBlock.

Section Completeness.
Context {C : Type} `{BC : BufferCache C}.
Implicit Types fs : filsys C.

Definition full fs (i : nat) : Prop :=
  forall g b, is_block fs i g b -> bit (block_map fs g) b = true.

(** A hint says that the bits below it are set. *)
Definition hints_sound fs : Prop :=
  forall i g b, groups fs !! i = Some g -> first_free_block g <> NOBLOCK ->
    0 <= b < first_free_block g -> bit (block_map fs g) b = true.

Lemma full_zeros fs i g :
  fs_ok fs -> groups fs !! i = Some g -> g_free_block_count (desc g) <= 0 -> full fs i.
Proof.
  intros Hok Hg Hz g' b [Hg' Hb]. rewrite Hg in Hg'. injection Hg' as <-.
  destruct (fo_groups _ Hok i g Hg) as [_ _ Hc _].
  destruct (bit (block_map fs g) b) eqn:Hbit; [done|].
  pose proof (zeros_pos _ _ _ Hb Hbit). lia.
Qed.

Lemma block_found_some fs i g p r fs' :
  fs_ok fs -> is_block fs i g p -> bit (block_map fs g) p = false ->
  (0 < pins (cache fs) (block_bitmap_block (desc g)))%nat ->
  block_found fs (Z.of_nat i) (block_bitmap_block (desc g)) p = Ret (r, fs') -> r <> NOBLOCK.
Proof.
  intros Hok Hb Hbit Hpin Hf. destruct (block_found_spec fs i g p Hok Hb Hbit Hpin) as (fs1 & He & Ht & _).
  rewrite Hf in He. injection He as -> _. apply Ht.
Qed.

Context (Hread : forall (c : C) b, (get_buffer c b).1 = true).

(** A search that fails has seen only full groups. *)
Lemma new_block_loop_full n : forall fs i fs',
  fs_ok fs -> hints_sound fs -> (i < length (groups fs))%nat ->
  new_block_loop fs n (Z.of_nat i) = Ret (NOBLOCK, fs') ->
  forall k, (k < n)%nat -> full fs ((i + k) mod length (groups fs)).
Proof.
  induction n as [|n IH]; intros fs i fs' Hok Hs Hi Hr k Hk; [lia|].
  cbn [new_block_loop] in Hr.
  destruct (lookup_lt_is_Some_2 _ _ Hi) as [g Hg]. rewrite (group_at_spec fs i g Hg) in Hr. cbn [obind] in Hr.
  destruct (fo_groups _ Hok i g Hg) as [Hm Hsz Hc Hh].
  assert (Hstep : forall fs1 j, full fs i -> fs_ok fs1 -> hints_sound fs1 -> (j < length (groups fs1))%nat ->
    j = (S i mod length (groups fs1))%nat -> length (groups fs1) = length (groups fs) ->
    (forall m, full fs1 m -> full fs m) -> new_block_loop fs1 n (Z.of_nat j) = Ret (NOBLOCK, fs') ->
    full fs ((i + k) mod length (groups fs))).
  { intros fs1 j Hfull Hok1 Hs1 Hj Hji Hlen Hback Hrun. destruct k as [|k].
    - by rewrite Nat.add_0_r, Nat.mod_small.
    - apply Hback. pose proof (IH fs1 j fs' Hok1 Hs1 Hj Hrun k ltac:(lia)) as Hk'.
      rewrite Hji, Hlen in Hk'. rewrite Nat.Div0.add_mod_idemp_l in Hk'.
      by replace (i + S k)%nat with (S i + k)%nat by lia. }
  destruct (Z.ltb_spec 0 (g_free_block_count (desc g))) as [Hpos|Hzero].
  2: { destruct (next_group fs i Hok Hi) as (j & Hj & Heq & Hji). rewrite Heq in Hr.
       apply (Hstep fs j); try done. by eapply full_zeros. }
  set (blk := block_bitmap_block (desc g)) in *.
  pose proof (get_buffer_fs fs blk Hok) as (Hok1 & Hf1 & Hm1 & Hp1).
  specialize (Hread (cache fs) blk). destruct (get_buffer (cache fs) blk) as [ok c].
  cbn [fst snd] in *. subst ok. set (fs1 := set_cache fs c) in *. cbn [negb andb] in *.
  change (block_data (cache fs1) blk) with (block_map fs1 g) in Hr. rewrite Hm1 in Hr.
  destruct (search_bitmap_spec (block_map fs g) (g_block_count (desc g)) (first_free_block g) Hm Hh)
    as (r & Hsearch & Hfc). rewrite Hsearch in Hr. cbn [obind] in Hr.
  set (start := if first_free_block g =? 0xFFFFFFFF then 0 else first_free_block g) in *.
  set (h := if first_free_block g =? 0xFFFFFFFF then r else first_free_block g) in *.
  assert (Hhint : h = NOBLOCK \/ 0 <= h <= g_block_count (desc g)).
  { unfold h, NOBLOCK in *. destruct Hfc as [Hfc _]. destruct (first_free_block g =? _) eqn:?; lia. }
  assert (Hg1 : groups fs1 !! i = Some g) by done.
  pose proof (fs_ok_hint fs1 i g h Hok1 Hg1 Hhint) as Hok2.
  set (fs2 := set_group fs1 (Z.of_nat i) (set_first_block g h)) in *.
  assert (Hstart : 0 <= start)
    by (unfold start; destruct Hh as [Hh|Hh]; unfold NOBLOCK in *; [rewrite Hh; reflexivity|]; zcase; lia).
  (* the bits below the first clear one are set *)
  assert (Hbelow : forall b, 0 <= b < r -> bit (block_map fs g) b = true).
  { intros b Hb. destruct (decide (start <= b)); [apply Hfc; lia|].
    unfold start in *. destruct (Z.eqb_spec (first_free_block g) 0xFFFFFFFF); [lia|].
    apply (Hs i g b Hg); [done|lia]. }
  destruct (Z.eqb_spec r (g_block_count (desc g))) as [Hend|Hfound]; cbn [negb] in Hr.
  - pose proof (release_fs fs2 blk Hok2) as (Hok3 & Hf3 & Hm3 & Hp3).
    set (fs3 := set_cache fs2 _) in *.
    assert (Hl3 : forall j, groups fs3 !! j = if decide (i = j) then Some (set_first_block g h) else groups fs !! j)
      by (intros j; apply (set_group_lookup fs1 i j g); done).
    assert (Hmap3 : forall x, block_map fs3 x = block_map fs x).
    { intros x. rewrite Hm3. change (block_map fs2 x) with (block_map fs1 x). by rewrite Hm1. }
    assert (Hlen3 : length (groups fs3) = length (groups fs)) by (cbn; by rewrite length_insert).
    destruct (next_group fs3 i Hok3 ltac:(lia)) as (j & Hj & Heq & Hji). rewrite Heq in Hr.
    apply (Hstep fs3 j); try done.
    + intros g' b [Hg' Hb]. rewrite Hg in Hg'. injection Hg' as <-. apply Hbelow. lia.
    + intros j' x b Hx Hne Hb. rewrite Hl3 in Hx. rewrite Hmap3. case_decide as Hj'.
      * injection Hx as <-. cbn [set_first_block first_free_block] in *.
        change (block_map fs (set_first_block g h)) with (block_map fs g). apply Hbelow.
        destruct Hfc as [Hfc _]. unfold h in Hb. unfold start in Hfc.
        destruct (first_free_block g =? 0xFFFFFFFF); lia.
      * by apply (Hs j' x b).
    + intros m Hfull x b [Hx Hb]. rewrite <- Hmap3. destruct (decide (i = m)) as [<-|Hne].
      * rewrite Hg in Hx. injection Hx as <-.
        change (block_map fs3 g) with (block_map fs3 (set_first_block g h)).
        apply Hfull. split; [by rewrite Hl3, decide_True|done].
      * apply Hfull. split; [by rewrite Hl3, decide_False|done].
  - exfalso. destruct (first_clear_free fs i g start r Hg Hstart Hfc Hfound) as [Hb Hbit].
    apply (block_found_some fs2 i (set_first_block g h) r NOBLOCK fs') in Hr; try done.
    + split; [|apply Hb]. unfold fs2. rewrite set_group_lookup with (g := g) by done. by rewrite decide_True.
    + change (block_map fs2 (set_first_block g h)) with (block_map fs1 g). by rewrite Hm1.
    + change (cache fs2) with (cache fs1). rewrite Hp1. cbn [set_first_block desc]. rewrite Z.eqb_refl. lia.
Qed.

Lemma all_full fs : fs_ok fs -> forall i, (i < length (groups fs))%nat ->
  (forall k, (k < length (groups fs))%nat -> full fs ((i + k) mod length (groups fs))) ->
  forall n, ~ free fs n.
Proof.
  intros Hok i Hi Hall n (j & g & b & Hb & _ & Hbit).
  assert (Hj : (j < length (groups fs))%nat) by (destruct Hb as [Hg _]; by apply lookup_lt_Some in Hg).
  set (m := length (groups fs)) in *.
  specialize (Hall ((j + m - i) mod m)%nat ltac:(apply Nat.mod_upper_bound; lia)). rewrite Nat.Div0.add_mod_idemp_r in Hall.
  replace (i + (j + m - i))%nat with (j + 1 * m)%nat in Hall by lia.
  rewrite Nat.Div0.mod_add, Nat.mod_small in Hall by lia.
  by rewrite (Hall g b Hb) in Hbit.
Qed.
End Completeness.

Section FreeBlocks.
Context {C : Type} `{BC : BufferCache C}.
Implicit Types fs : filsys C.
Context (Hread : forall (c : C) b, (get_buffer c b).1 = true).

(** The body of the loop of [free_blocks], with the bit map of the group held. *)
Lemma clear_step fs i g p :
  fs_ok fs -> is_block fs i g p -> bit (block_map fs g) p = true ->
  (0 < pins (cache fs) (block_bitmap_block (desc g)))%nat ->
  let blk := block_bitmap_block (desc g) in
  exists fs', (ws <~ clear_bit (block_data (cache fs) blk) (s32 p);
      let fs := set_cache fs (mark_buffer_updated (store (cache fs) blk ws) blk) in
      let fs := set_super fs (add_free_blocks (super fs) 1) in
      g <~ group_at fs (Z.of_nat i);
      let g := if p <? first_free_block g then set_first_block g p else g in
      let fs := set_group fs (Z.of_nat i) (add_group_blocks g 1) in
      mark_group_desc_dirty fs (Z.of_nat i)) = Ret fs'
    /\ fs_ok fs' /\ same_pins fs fs'
    /\ (forall n, free fs' n <-> free fs n \/ n = block_no fs i p)
    /\ blocks_per_group (super fs') = blocks_per_group (super fs)
    /\ length (groups fs') = length (groups fs)
    /\ forall j x, groups fs !! j = Some x -> exists y, groups fs' !! j = Some y
         /\ g_block_count (desc y) = g_block_count (desc x)
         /\ block_bitmap_block (desc y) = block_bitmap_block (desc x).
Proof.
  intros Hok Hblk Hbit Hpin blk. pose proof Hblk as [Hg Hp]. apply lookup_lt_Some in Hg as Hi.
  destruct (fo_groups _ Hok i g Hg) as [Hm Hsz Hc Hh]. pose proof (map_ok_small _ _ Hm) as Hsm.
  pose proof Hm as (Hbok & H0 & Hpad & Hclr). pose proof (padded_bounds _ H0) as [Hpb _].
  rewrite (s32_small p) by (unfold is_s32; lia). change (block_data (cache fs) blk) with (block_map fs g).
  destruct (clear_bit_spec (block_map fs g) p Hbok ltac:(lia)) as (ws' & -> & Hbok' & Hlen' & Hbit').
  cbn [obind]. set (fs1 := set_super _ _).
  rewrite (group_at_spec fs1 i g Hg). cbn [obind].
  set (g1 := if p <? first_free_block g then _ else _).
  assert (Hd1 : desc g1 = desc g) by (unfold g1; by destruct (_ <? _)).
  assert (Hh1 : first_free_block g1 = NOBLOCK \/ 0 <= first_free_block g1 <= g_block_count (desc g)).
  { unfold g1. destruct (_ <? _); [|done]. right. cbn [set_first_block first_free_block]. lia. }
  set (fs2 := set_group fs1 (Z.of_nat i) (add_group_blocks g1 1)).
  assert (Hd2 : forall x, block_data (cache fs2) x
    = if x =? blk then ws' else block_data (cache fs) x).
  { intros x. cbn. rewrite updated_data. by apply store_data. }
  assert (Hmap2 : block_map fs2 (add_group_blocks g1 1) = ws').
  { unfold block_map. rewrite Hd2. cbn [add_group_blocks desc block_bitmap_block].
    fold blk. by rewrite Hd1, Z.eqb_refl. }
  destruct (change_bit fs fs2 i g (add_group_blocks g1 1) p false Hok Hblk) as [Hok2 Hfree2];
    rewrite ?Hbit; try done; rewrite ?Hmap2; try done.
  { cbn. by rewrite Nat2Z.id. }
  { cbn [add_group_blocks desc]. by rewrite Hd1. }
  { intros x Hx. rewrite Hd2. by rewrite (proj2 (Z.eqb_neq _ _)). }
  { intros k Hk. rewrite Hbit' by done. by destruct (k =? p). }
  destruct (mark_desc_spec fs2 i Hok2) as (b & ->).
  { cbn. by rewrite length_insert. }
  set (fs3 := set_cache fs2 _).
  assert (Hd3 : forall x, block_data (cache fs3) x = block_data (cache fs2) x)
    by (intros x; cbn; by rewrite updated_data).
  exists fs3. split; [done|]. split_and!.
  - apply (fs_ok_cache fs2 _ Hd3 Hok2).
  - intros x. cbn. by rewrite updated_pins, updated_pins, store_pins.
  - intros n. etrans; [apply (free_cache fs2 _ n Hd3)|]. rewrite Hfree2.
    case_decide as Hn; [split; [auto|done]|tauto].
  - done.
  - cbn. by rewrite length_insert.
  - intros j x Hx. change (groups fs3) with (groups fs2). unfold fs2.
    rewrite set_group_lookup with (g := g) by done. case_decide as Hj; [|by exists x].
    eexists. split; [done|]. subst j. rewrite Hg in Hx. injection Hx as <-.
    cbn [add_group_blocks desc g_block_count block_bitmap_block]. by rewrite Hd1.
Qed.

Definition is_block_no fs (n : Z) : Prop := exists i g b, is_block fs i g b /\ n = block_no fs i b.
Definition used fs (n : Z) : Prop := is_block_no fs n /\ ~ free fs n.

Definition prev_ok fs (prev : option (Z * Z)) : Prop :=
  match prev with
  | None => True
  | Some (p, blk) => exists i g, p = Z.of_nat i /\ blk = block_bitmap_block (desc g)
      /\ groups fs !! i = Some g /\ (0 < pins (cache fs) blk)%nat
  end.
Definition prev_pins (prev : option (Z * Z)) (x : Z) : nat :=
  match prev with Some (_, blk) => if (x =? blk)%Z then 1 else 0 | None => 0 end.

Lemma group_small fs i : fs_ok fs -> (i < length (groups fs))%nat -> Z.of_nat i < 0xFFFFFFFF.
Proof.
  intros Hok Hi. pose proof (fo_fit _ Hok) as Hf. pose proof (fo_bpg _ Hok).
  rewrite (fo_count _ Hok) in Hf. nia.
Qed.

(** The buffer for group [i]: the one held already, or the one got in exchange for it. *)
Lemma switch_group_spec fs prev i g :
  fs_ok fs -> prev_ok fs prev -> groups fs !! i = Some g ->
  exists fs1, switch_group fs prev (Z.of_nat i) = Ret (fs1, Some (block_bitmap_block (desc g)))
  /\ fs_ok fs1 /\ (forall n, free fs1 n <-> free fs n) /\ (forall h, block_map fs1 h = block_map fs h)
  /\ super fs1 = super fs /\ groups fs1 = groups fs
  /\ forall x, pins (cache fs1) x = (pins (cache fs) x - prev_pins prev x
       + if (x =? block_bitmap_block (desc g))%Z then 1 else 0)%nat.
Proof.
  intros Hok Hprev Hg. apply lookup_lt_Some in Hg as Hi. unfold switch_group.
  set (same := match prev with Some _ => _ | None => _ end). destruct same eqn:Hsame.
  - destruct prev as [[p blk]|]; unfold same in Hsame.
    + destruct Hprev as (j & h & -> & -> & Hh & Hpin). zify_bool. apply Nat2Z.inj in Hsame as <-.
      rewrite Hg in Hh. injection Hh as <-. exists fs. cbn [deref obind]. split_and!; try done.
      intros x. simpl. destruct (Z.eqb_spec x (block_bitmap_block (desc g))) as [->|]; lia.
    + zify_bool. pose proof (group_small fs i Hok Hi). lia.
  - clear same Hsame. set (drop := drop_buffer fs prev).
    assert (Hdrop : fs_ok drop /\ (forall n, free drop n <-> free fs n)
      /\ (forall h, block_map drop h = block_map fs h) /\ super drop = super fs /\ groups drop = groups fs
      /\ forall x, pins (cache drop) x = (pins (cache fs) x - prev_pins prev x)%nat).
    { destruct prev as [[p blk]|]; unfold drop; simpl.
      - pose proof (release_fs fs blk Hok) as (? & ? & ? & ?). done.
      - split_and!; try done. intros. lia. }
    destruct Hdrop as (Hokd & Hfd & Hmd & Hsd & Hgd & Hpd).
    rewrite (group_at_spec drop i g) by (by rewrite Hgd). cbn [obind].
    set (blk := block_bitmap_block (desc g)).
    pose proof (get_buffer_fs drop blk Hokd) as (Hok1 & Hf1 & Hm1 & Hp1).
    specialize (Hread (cache drop) blk). destruct (get_buffer (cache drop) blk) as [ok c].
    cbn [fst snd] in *. subst ok. exists (set_cache drop c). split; [done|]. split_and!; try done.
    + intros n. by rewrite Hf1, Hfd.
    + intros h. by rewrite Hm1, Hmd.
    + intros x. rewrite Hp1, Hpd. done.
Qed.

Lemma free_blocks_loop_spec bs : forall fs prev,
  fs_ok fs -> prev_ok fs prev -> NoDup bs -> (forall n, n ∈ bs -> used fs n) ->
  exists fs', free_blocks_loop fs prev bs = Ret fs' /\ fs_ok fs'
    /\ (forall x, pins (cache fs') x = (pins (cache fs) x - prev_pins prev x)%nat)
    /\ (forall n, free fs' n <-> free fs n \/ n ∈ bs).
Proof.
  induction bs as [|b bs IH]; intros fs prev Hok Hprev Hnd Hused; cbn [free_blocks_loop].
  - destruct prev as [[p blk]|]; eexists; (split; [done|]).
    + pose proof (release_fs fs blk Hok) as (? & Hf & _ & ?). split_and!; try done.
      intros n. rewrite Hf. set_solver.
    + split_and!; try done; [intros; simpl; lia|set_solver].
  - apply NoDup_cons in Hnd as [Hb Hnd].
    destruct (Hused b) as [(i & g & p & Hblk & ->) Hnf]; [left|]. pose proof Hblk as [Hg Hp].
    destruct (fo_groups _ Hok i g Hg) as [_ Hsz _ _]. pose proof (fo_bpg _ Hok) as Hbpg.
    unfold udiv, umod. rewrite (proj2 (Z.eqb_neq _ _)) by lia. cbn [obind].
    assert (Hdiv : block_no fs i p / blocks_per_group (super fs) = Z.of_nat i)
      by (unfold block_no; rewrite Z.div_add, Z.div_small by lia; lia).
    assert (Hmod : block_no fs i p mod blocks_per_group (super fs) = p)
      by (unfold block_no; rewrite Z.mod_add, Z.mod_small by lia; lia).
    rewrite Hdiv, Hmod.
    destruct (switch_group_spec fs prev i g Hok Hprev Hg) as (fs1 & -> & Hok1 & Hf1 & Hm1 & Hs1 & Hg1 & Hp1).
    cbn [obind]. set (blk := block_bitmap_block (desc g)) in *.
    assert (Hblk1 : is_block fs1 i g p) by (unfold is_block; by rewrite Hg1).
    assert (Hbit : bit (block_map fs1 g) p = true).
    { rewrite Hm1. destruct (bit (block_map fs g) p) eqn:E; [done|]. exfalso. apply Hnf. by exists i, g, p. }
    destruct (clear_step fs1 i g p Hok1 Hblk1 Hbit) as (fs2 & Hstep & Hok2 & Hp2 & Hf2 & Hs2 & Hl2 & Hg2).
    { fold blk. rewrite Hp1, Z.eqb_refl. lia. }
    fold blk in Hstep. cbn zeta in Hstep. revert Hstep.
    destruct (clear_bit _ _) as [ws| | |]; cbn [obind]; try done.
    destruct (group_at _ (Z.of_nat i)) as [g'| | |]; cbn [obind]; try done. intros Hstep.
    rewrite Hstep. cbn [obind].
    assert (Hno : forall j q, block_no fs2 j q = block_no fs j q)
      by (intros; unfold block_no; by rewrite Hs2, Hs1).
    destruct (Hg2 i g) as (g2 & Hgi & _ & Hblk2); [by rewrite Hg1|].
    destruct (IH fs2 (Some (Z.of_nat i, blk)) Hok2) as (fs' & Hr & Hok' & Hp' & Hf'); [|done| |].
    + exists i, g2. split_and!; try done. rewrite Hp2, Hp1, Z.eqb_refl. lia.
    + intros n Hn. destruct (Hused n) as [(j & h & q & [Hh Hq] & ->) Hnfn]; [by right|].
      destruct (Hg2 j h) as (h' & Hh' & Hc' & _); [by rewrite Hg1|]. split.
      * exists j, h', q. rewrite Hno. split; [split; [done|by rewrite Hc']|done].
      * rewrite Hf2, Hf1. unfold block_no in *. rewrite Hs1. intros [?|He]; [done|]. rewrite He in Hn. done.
    + exists fs'. split_and!; try done.
      * intros x. rewrite Hp', Hp2, Hp1.
        change (prev_pins (Some (Z.of_nat i, blk)) x) with (if (x =? blk)%Z then 1%nat else 0%nat).
        destruct (x =? blk); lia.
      * intros n. rewrite Hf', Hf2, Hf1. unfold block_no. rewrite Hs1. set_solver.
Qed.
End FreeBlocks.

(** ** The theorems on [new_block] and [free_blocks] together *)

Section Theorems.
Context {C : Type} `{BC : BufferCache C}.
Implicit Types fs : filsys C.

Lemma new_block_complete_spec fs goal n fs' :
  (forall (c : C) b, (get_buffer c b).1 = true) ->
  fs_ok fs -> hints_sound fs -> 0 <= goal ->
  new_block fs goal = Ret (n, fs') -> n = NOBLOCK -> forall m, ~ free fs m.
Proof.
  intros Hread Hok Hs Hgoal Hr ->. unfold new_block in Hr.
  assert (Hlen : (0 < length (groups fs))%nat)
    by (pose proof (fo_some _ Hok); by destruct (groups fs); [|simpl; lia]).
  assert (Hgc : Z.to_nat (group_count (super fs)) = length (groups fs)) by (rewrite (fo_count _ Hok); lia).
  destruct (Z.ltb_spec goal (block_count (super fs))).
  2: { rewrite Hgc in Hr. apply (all_full fs Hok 0%nat); [done|].
       by apply (new_block_loop_full Hread _ fs 0 fs'). }
  pose proof (fo_bpg _ Hok) as Hbpg. unfold udiv, umod in Hr. rewrite (proj2 (Z.eqb_neq _ _)) in Hr by lia.
  cbn [obind] in Hr. destruct (fo_goal _ Hok goal ltac:(lia)) as (g & Hg & Hlt).
  set (i := Z.to_nat (goal / blocks_per_group (super fs))) in *.
  set (p := goal mod blocks_per_group (super fs)) in *.
  assert (Hdiv : goal / blocks_per_group (super fs) = Z.of_nat i)
    by (unfold i; rewrite Z2Nat.id; [done|apply Z.div_pos; lia]).
  assert (Hp : 0 <= p) by (apply Z.mod_pos_bound; lia).
  rewrite Hdiv, (group_at_spec fs i g Hg) in Hr. cbn [obind] in Hr. apply lookup_lt_Some in Hg as Hi.
  destruct (fo_groups _ Hok i g Hg) as [Hm Hsz Hc Hh]. pose proof (map_ok_small _ _ Hm) as Hsm.
  pose proof Hm as (Hbok & H0 & Hpad & Hclr). pose proof (padded_bounds _ H0) as [Hpb _].
  set (blk := block_bitmap_block (desc g)) in *.
  pose proof (get_buffer_fs fs blk Hok) as (Hok1 & Hf1 & Hm1 & Hp1).
  specialize (Hread (cache fs) blk) as Hrd. destruct (get_buffer (cache fs) blk) as [ok c].
  cbn [fst snd] in *. subst ok. set (fs1 := set_cache fs c) in *. cbn [negb andb] in *.
  change (block_data (cache fs1) blk) with (block_map fs1 g) in Hr. rewrite Hm1 in Hr.
  rewrite (s32_small p), test_bit_spec in Hr by (unfold is_s32; lia). cbn [obind] in Hr.
  assert (Hpin : (0 < pins (cache fs1) blk)%nat) by (rewrite Hp1, Z.eqb_refl; lia).
  destruct (bit (block_map fs g) p) eqn:Hbit; cbn [Z.eqb] in Hr.
  2: { exfalso. apply (block_found_some fs1 i g p NOBLOCK fs') in Hr; try done. by rewrite Hm1. }
  rewrite (s32_small (g_block_count _)), (s32_small (p + 1)) in Hr by (unfold is_s32; lia).
  destruct (find_next_zero_bit_spec (block_map fs g) (g_block_count (desc g)) (p + 1) Hbok
    ltac:(lia) H0 Hpad Hclr) as (r & Hfind & Hrr). rewrite Hfind in Hr. cbn [obind] in Hr.
  assert (Hr' : first_clear (block_map fs g) (p + 1) (g_block_count (desc g)) r).
  { destruct (p + 1 <? _) eqn:?; [done|]. zify_bool. subst r. unfold first_clear. split_and!; lia. }
  rewrite u32_small in Hr by (destruct Hr' as [? _]; unfold is_u32; lia).
  destruct (Z.eqb_spec r (g_block_count (desc g))) as [He|Hne]; cbn [negb] in Hr.
  - pose proof (release_fs fs1 blk Hok1) as (Hok3 & Hf3 & Hm3 & Hp3).
    set (fs3 := set_cache fs1 _) in *.
    assert (Hmap : forall x, block_map fs3 x = block_map fs x) by (intros x; by rewrite Hm3, Hm1).
    intros m. rewrite <- Hf1, <- Hf3. change (super fs3) with (super fs) in Hr. rewrite Hgc in Hr.
    apply (all_full fs3 Hok3 i Hi).
    apply (new_block_loop_full Hread _ fs3 i fs'); try done.
    intros j x b Hx Hnb Hb. rewrite Hmap. by apply (Hs j x b).
  - exfalso. destruct (first_clear_free fs i g (p + 1) r Hg ltac:(lia) Hr' Hne) as [Hb Hbr].
    apply (block_found_some fs1 i g r NOBLOCK fs') in Hr; try done. by rewrite Hm1.
Qed.

(** C14: [new_block] never leaves its tables and always releases the buffers it takes.
    It answers with a block that was free and is the only one to change, with the
    counts of the group and of the file system and the hints kept right, or with
    [NOBLOCK], and then the free blocks are the same.  When every bit map can be read and
    the hints are right, it gives up only when no block of the file system is free. *)
Theorem new_block_correct fs goal :
  fs_ok fs -> 0 <= goal ->
  exists n fs', new_block fs goal = Ret (n, fs') /\ fs_ok fs' /\ same_pins fs fs' /\
    (took fs fs' n \/ n = NOBLOCK /\ (forall m, free fs' m <-> free fs m)
      /\ ((forall (c : C) b, (get_buffer c b).1 = true) -> hints_sound fs -> forall m, ~ free fs m)).
Proof.
  intros Hok Hg. destruct (new_block_spec fs goal Hok Hg) as (n & fs' & Hr & Hok' & Hp & [Ht|[-> Hm]]);
    exists n, fs' || exists NOBLOCK, fs'; split_and!; try done; [by left|right].
  split_and!; [done|done|]. intros Hread Hs. by apply (new_block_complete_spec fs goal NOBLOCK fs').
Qed.

End Theorems.

(** ** A lost block, and witnesses *)

(** One group of 64 blocks as [open_filesystem] leaves it, without hints; block 3 is
    the only free one. *)
Definition ex_group : blkgroup := BlkGroup (GroupDesc 64 10 11 12 1 0) NOBLOCK NOBLOCK.
Definition ex_words : list Z := [0xFFFFFFF7; 0xFFFFFFFF].
Definition ex_fs : filsys memcache :=
  FilSys (MemCache {[10 := ex_words]} ∅ ∅) (Super 1 0 64 0 1 64 32 0) [ex_group] false
    4096 16 10 128 [2].

Lemma ex_bit b : 0 <= b < 64 -> bit ex_words b = negb (b =? 3).
Proof.
  intros Hb.
  assert (Hc : forallb (fun b => Bool.eqb (bit ex_words b) (negb (b =? 3))) (seqZ 0 64) = true)
    by (vm_compute; reflexivity).
  rewrite forallb_forall in Hc. apply Bool.eqb_prop, (Hc b), list_elem_of_In, elem_of_seqZ. lia.
Qed.

Lemma ex_map_ok : map_ok ex_words 64.
Proof.
  split; [|split_and!; [lia|reflexivity || (vm_compute; discriminate)|intros H; vm_compute in H; discriminate H]].
  split; [|vm_compute; reflexivity]. unfold ex_words. rewrite !Forall_cons. unfold is_u32.
  split_and!; try lia. apply Forall_nil_2.
Qed.

Lemma ex_lookup i g : groups ex_fs !! i = Some g -> i = 0%nat /\ g = ex_group.
Proof. destruct i as [|i]; cbn; [by intros [= <-]|by destruct i]. Qed.

Lemma ex_fs_ok : fs_ok ex_fs.
Proof.
  constructor; cbn [ex_fs super group_count blocks_per_group groups groupdescs_per_block groupdesc_buffers];
    try done; try lia.
  - intros i g [-> ->]%ex_lookup. constructor.
    + apply ex_map_ok.
    + cbn. lia.
    + vm_compute. reflexivity.
    + by left.
  - intros i j g h [-> _]%ex_lookup [-> _]%ex_lookup. done.
  - intros n Hn. cbn in Hn. exists ex_group. rewrite Z.div_small, Z.mod_small by lia. split; [done|cbn; lia].
  - split; [lia|]. intros [|i] Hi; cbn in Hi; [|lia]. by eexists.
Qed.

Lemma ex_free n : free ex_fs n <-> n = 3.
Proof.
  split.
  - intros (i & g & b & [[-> ->]%ex_lookup Hb] & -> & Hbit).
    change (block_map ex_fs ex_group) with ex_words in Hbit. cbn in Hb.
    rewrite ex_bit in Hbit by lia. unfold block_no. cbn. lia.
  - intros ->. by exists 0%nat, ex_group, 3.
Qed.

(** When the hint of a group is unknown, as it is after mounting, [free_blocks]
    sets it to the block it frees although lower blocks may be free; [new_block] then
    reports a full disk while a block is free. *)
Lemma free_blocks_loses_space :
  exists (fs fs1 fs2 fs3 : filsys memcache),
    fs_ok fs /\ free fs 3 /\ free_blocks fs [40] = Ret fs1
    /\ new_block fs1 100 = Ret (40, fs2) /\ new_block fs2 100 = Ret (NOBLOCK, fs3)
    /\ bit (block_data (cache fs3) 10) 3 = false.
Proof.
  exists ex_fs. do 3 eexists. split; [exact ex_fs_ok|]. split; [by apply ex_free|].
  split; [vm_compute; reflexivity|]. split; [vm_compute; reflexivity|].
  split; vm_compute; reflexivity.
Qed.

Lemma new_block_correct_witness :
  exists fs', new_block ex_fs 7 = Ret (3, fs') /\ fs_ok fs' /\ forall m, ~ free fs' m.
Proof.
  destruct (new_block_correct ex_fs 7 ex_fs_ok ltac:(lia)) as (n & fs' & Hr & Hok & _ & [Ht|(-> & _)]).
  - destruct (tk_was_free _ _ _ Ht) as (i & g & b & Hb & Hn & Hbit).
    assert (n = 3) as -> by (apply ex_free; by exists i, g, b).
    exists fs'. split; [exact Hr|]. split; [exact Hok|].
    intros m Hm. apply (tk_free _ _ _ Ht) in Hm as [Hm%ex_free Hne]. congruence.
  - exfalso. vm_compute in Hr. discriminate Hr.
Defined.

(** The cache in memory with every block readable. *)
#[local] Program Instance readable_ops : BufferCache (gmap Z (list Z) * gmap Z nat) := {
  block_data c b := default [] (c.1 !! b);
  pins c b := default 0%nat (c.2 !! b);
  get_buffer c b := (true, (c.1, <[b := S (default 0%nat (c.2 !! b))]> c.2));
  alloc_buffer c b := (true, (c.1, <[b := S (default 0%nat (c.2 !! b))]> c.2));
  store c b d := (<[b := d]> c.1, c.2);
  mark_buffer_updated c b := c;
  mark_buffer_invalid c b := c;
  release_buffer c b := (c.1, <[b := pred (default 0%nat (c.2 !! b))]> c.2);
  invalidate_buffer c b := c;
}.
Solve Obligations with try done.
Next Obligation.
  intros c b x. simpl. destruct (Z.eqb_spec x b) as [->|].
  - rewrite lookup_insert_eq. simpl. lia.
  - rewrite lookup_insert_ne by done. lia.
Qed.
Next Obligation.
  intros c b x. simpl. destruct (Z.eqb_spec x b) as [->|].
  - rewrite lookup_insert_eq. simpl. lia.
  - rewrite lookup_insert_ne by done. lia.
Qed.
Next Obligation.
  intros c b d x _. simpl. destruct (Z.eqb_spec x b) as [->|].
  - by rewrite lookup_insert_eq.
  - by rewrite lookup_insert_ne.
Qed.
Next Obligation.
  intros c b x. simpl. destruct (Z.eqb_spec x b) as [->|].
  - rewrite lookup_insert_eq. simpl. lia.
  - rewrite lookup_insert_ne by done. lia.
Qed.

Definition ex_fs2 (w : Z) (n : Z) : filsys (gmap Z (list Z) * gmap Z nat) :=
  FilSys ({[10 := [w; 0xFFFFFFFF]]}, ∅) (Super 1 0 64 0 n 64 32 0)
    [BlkGroup (GroupDesc 64 10 11 12 n 0) NOBLOCK NOBLOCK] false 4096 16 10 128 [2].

Lemma ex_fs2_ok w n : n = zeros [w; 0xFFFFFFFF] 64 -> is_u32 w -> 0 <= n <= 64 -> fs_ok (ex_fs2 w n).
Proof.
  intros Hz Hw Hn.
  assert (Hlk : forall i g, groups (ex_fs2 w n) !! i = Some g ->
    i = 0%nat /\ g = BlkGroup (GroupDesc 64 10 11 12 n 0) NOBLOCK NOBLOCK)
    by (intros [|i] g; cbn; [by intros [= <-]|by destruct i]).
  constructor; cbn [ex_fs2 super group_count blocks_per_group groups groupdescs_per_block groupdesc_buffers];
    try done; try lia.
  - intros i g [-> ->]%Hlk. constructor; [|cbn; lia|exact Hz|by left].
    split; [|split_and!; [cbn; lia|vm_compute; discriminate|intros H; vm_compute in H; discriminate H]].
    split; [|vm_compute; reflexivity]. change (Forall is_u32 [w; 0xFFFFFFFF]).
    rewrite !Forall_cons. split; [exact Hw|]. split; [unfold is_u32; lia|apply Forall_nil_2].
  - intros i j g h [-> _]%Hlk [-> _]%Hlk. done.
  - intros m Hm. cbn in Hm. eexists. rewrite Z.div_small, Z.mod_small by lia. split; [done|cbn; lia].
  - cbn. lia.
  - split; [lia|]. intros [|i] Hi; cbn in Hi; [|lia]. by eexists.
Qed.

Lemma ex_fs2_full : forall m, ~ free (ex_fs2 0xFFFFFFFF 0) m.
Proof.
  destruct (new_block (ex_fs2 0xFFFFFFFF 0) 5) as [[n fs']| | |] eqn:Hr;
    [|vm_compute in Hr; discriminate Hr..].
  apply (new_block_complete_spec (ex_fs2 0xFFFFFFFF 0) 5 n fs').
  - reflexivity.
  - apply ex_fs2_ok; [vm_compute; reflexivity|unfold is_u32; lia|lia].
  - intros [|i] g b; cbn; [by intros [= <-] ?|by destruct i].
  - lia.
  - exact Hr.
  - assert (match new_block (ex_fs2 0xFFFFFFFF 0) 5 with Ret (n, _) => n = NOBLOCK | _ => False end)
      as H by (vm_compute; reflexivity). by rewrite Hr in H.
Qed.

