(* ===== verification/Inode.v ===== *)
(** * Inode: the block directories of files, src/src/sys/fs/dfs/inode.c

    The blocks of a file hang in a tree of directory pages, [depth] levels of them below
    the sixteen entries in the inode.  An inode is its number, its descriptor and the
    block of the inode table the descriptor lives in; the operations pass the file
    system and the inode along.  A pointer array on disk is the contents of its block. *)

From S2P Require Import Prelude Bitmap Cache Group.
Local Open Scope krlean_scope.

Definition DFS_TOPBLOCKDIR_SIZE : nat := 16.
Definition DFS_MAX_DEPTH : Z := 10.

Record inodedesc := InodeDesc {
  i_mode : Z; i_uid : Z; i_gid : Z; i_atime : Z; i_ctime : Z; i_mtime : Z;
  i_blocks : Z; i_size : Z; i_linkcount : Z; i_depth : Z;
  i_blockdir : list Z;
}.

Record inode := Inode { i_ino : Z; i_desc : inodedesc; i_buf : Z }.

Definition zero_desc : inodedesc :=
  InodeDesc 0 0 0 0 0 0 0 0 0 0 (replicate DFS_TOPBLOCKDIR_SIZE 0).

Definition with_desc (x : inode) (d : inodedesc) : inode := Inode (i_ino x) d (i_buf x).
Definition set_tree (x : inode) (blocks depth : Z) (dir : list Z) : inode :=
  let d := i_desc x in
  with_desc x (InodeDesc (i_mode d) (i_uid d) (i_gid d) (i_atime d) (i_ctime d) (i_mtime d)
    blocks (i_size d) (i_linkcount d) depth dir).
Definition set_blocks (x : inode) (n : Z) : inode :=
  set_tree x n (i_depth (i_desc x)) (i_blockdir (i_desc x)).
Definition set_blockdir (x : inode) (dir : list Z) : inode :=
  set_tree x (i_blocks (i_desc x)) (i_depth (i_desc x)) dir.
Definition set_linkcount (x : inode) (n : Z) : inode :=
  let d := i_desc x in
  with_desc x (InodeDesc (i_mode d) (i_uid d) (i_gid d) (i_atime d) (i_ctime d) (i_mtime d)
    (i_blocks d) (i_size d) n (i_depth d) (i_blockdir d)).

(** An array access [a[i]], and a store to it. *)
Definition at_ (a : list Z) (i : Z) : outcome Z := if i <? 0 then Fault else deref (a !! Z.to_nat i).
Definition put_at (a : list Z) (i v : Z) : outcome (list Z) :=
  _ <~ at_ a i; Ret (<[Z.to_nat i := v]> a).

(** [split_levels]: the offsets of file block [iblock] in the tree, top level first. *)
Fixpoint lower_levels (n : nat) (log iblock shift : Z) : list Z :=
  match n with
  | O => []
  | S n =>
      let iblock := Z.land iblock (Z.shiftl 1 shift - 1) in
      let shift := shift - log in
      Z.shiftr iblock shift :: lower_levels n log iblock shift
  end.

Definition split_levels (depth log iblock : Z) : outcome (Z * list Z) :=
  if DFS_MAX_DEPTH <=? depth then Fault
  else
    let shift := depth * log in
    Ret (Z.shiftr iblock shift, lower_levels (Z.to_nat depth) log iblock shift).

Section Inode.
Context {C : Type} `{BC : BufferCache C}.
Implicit Types (fs : filsys C) (x : inode).

Definition mark_inode_dirty fs x : filsys C :=
  set_cache fs (mark_buffer_updated (cache fs) (i_buf x)).

Definition page fs (b : Z) : list Z := block_data (cache fs) b.
Definition put_page fs (b : Z) (d : list Z) : filsys C := set_cache fs (store (cache fs) b d).
Definition dirty fs (b : Z) : filsys C := set_cache fs (mark_buffer_updated (cache fs) b).
Definition invalid fs (b : Z) : filsys C := set_cache fs (mark_buffer_invalid (cache fs) b).
Definition release fs (b : Z) : filsys C := set_cache fs (release_buffer (cache fs) b).
Definition get fs (b : Z) : bool * filsys C :=
  let '(ok, c) := get_buffer (cache fs) b in (ok, set_cache fs c).
Definition alloc fs (b : Z) : bool * filsys C :=
  let '(ok, c) := alloc_buffer (cache fs) b in (ok, set_cache fs c).
(** [memset(buf->data, 0, blocksize)] *)
Definition zero_page fs (b : Z) : filsys C :=
  put_page fs b (replicate (Z.to_nat (blocksize fs / 4)) 0).

(** ** Lookup *)

Fixpoint get_levels fs (block : Z) (offsets : list Z) : outcome (Z * filsys C) :=
  match offsets with
  | [] => Ret (block, fs)
  | o :: offsets =>
      let '(ok, fs) := get fs block in
      if negb ok then Ret (NOBLOCK, fs)
      else
        next <~ at_ (page fs block) o;
        let fs := release fs block in
        if next =? 0 then Ret (NOBLOCK, fs) else get_levels fs next offsets
  end.

Definition get_inode_block fs x (iblock : Z) : outcome (Z * filsys C) :=
  '(o, offsets) <~ split_levels (i_depth (i_desc x)) (log_blkptrs_per_block fs) iblock;
  block <~ at_ (i_blockdir (i_desc x)) o;
  get_levels fs block offsets.

(** ** Extension *)

(** The loop [for (d = 1; d < depth; d++)]: [buf] says whether the buffer of [dirblock]
    is held.  The result is the block of the leaf page, with [None] for a return of
    [NOBLOCK]. *)
Fixpoint set_levels fs (buf : bool) (dirblock : Z) (offsets : list Z)
    : outcome (option (bool * Z) * filsys C) :=
  match offsets with
  | [] => Ret (Some (buf, dirblock), fs)
  | o :: offsets =>
      let '(ok, fs) := if buf then (true, fs) else get fs dirblock in
      if negb ok then Ret (None, fs)
      else
        let goal := u32 (dirblock + 1) in
        next <~ at_ (page fs dirblock) o;
        if next =? 0 then
          '(n, fs) <~ new_block fs goal;
          if n =? NOBLOCK then Ret (None, fs)
          else
            d <~ put_at (page fs dirblock) o n;
            let fs := release (dirty (put_page fs dirblock d) dirblock) dirblock in
            let '(ok, fs) := alloc fs n in
            if negb ok then Ret (None, fs)
            else set_levels (zero_page fs n) true n offsets
        else set_levels (release fs dirblock) false next offsets
  end.

(** The leaf page: the new block goes near its predecessor. *)
Definition set_leaf fs x (buf : bool) (dirblock o block : Z) : outcome (Z * filsys C * inode) :=
  let '(ok, fs) := if buf then (true, fs) else get fs dirblock in
  if negb ok then Ret (NOBLOCK, fs, x)
  else
    '(block, fs, x) <~
      (if block =? NOBLOCK then
         goal <~ (if o =? 0 then Ret dirblock else at_ (page fs dirblock) (o - 1));
         '(n, fs) <~ new_block fs (u32 (goal + 1));
         if n =? NOBLOCK then Ret (NOBLOCK, fs, x)
         else
           let x := set_blocks x (u32 (i_blocks (i_desc x) + 1)) in
           Ret (n, mark_inode_dirty fs x, x)
       else Ret (block, fs, x));
    if block =? NOBLOCK then Ret (NOBLOCK, fs, x)
    else
      d <~ put_at (page fs dirblock) o block;
      Ret (block, release (dirty (put_page fs dirblock d) dirblock) dirblock, x).

Definition set_inode_block fs x (iblock block : Z) : outcome (Z * filsys C * inode) :=
  g <~ udiv (i_ino x) (inodes_per_group (super fs));
  let goal := u32 (g * blocks_per_group (super fs)) in
  if i_depth (i_desc x) =? 0 then
    '(block, fs, x) <~
      (if block =? NOBLOCK then
         '(n, fs) <~ new_block fs goal;
         if n =? NOBLOCK then Ret (NOBLOCK, fs, x)
         else Ret (n, fs, set_blocks x (u32 (i_blocks (i_desc x) + 1)))
       else Ret (block, fs, x));
    if block =? NOBLOCK then Ret (NOBLOCK, fs, x)
    else
      dir <~ put_at (i_blockdir (i_desc x)) iblock block;
      let x := set_blockdir x dir in
      Ret (block, mark_inode_dirty fs x, x)
  else
    '(o, offsets) <~ split_levels (i_depth (i_desc x)) (log_blkptrs_per_block fs) iblock;
    dirblock <~ at_ (i_blockdir (i_desc x)) o;
    '(top, fs, x) <~
      (if dirblock =? 0 then
         '(n, fs) <~ new_block fs goal;
         if n =? NOBLOCK then Ret (None, fs, x)
         else
           dir <~ put_at (i_blockdir (i_desc x)) o n;
           let x := set_blockdir x dir in
           let '(ok, fs) := alloc (mark_inode_dirty fs x) n in
           if negb ok then Ret (None, fs, x) else Ret (Some (true, n), zero_page fs n, x)
       else Ret (Some (false, dirblock), fs, x));
    match top with
    | None => Ret (NOBLOCK, fs, x)
    | Some (buf, dirblock) =>
        '(leaf, fs) <~ set_levels fs buf dirblock (removelast offsets);
        match leaf with
        | None => Ret (NOBLOCK, fs, x)
        | Some (buf, dirblock) => set_leaf fs x buf dirblock (List.last offsets 0) block
        end
    end.

Definition expand_inode fs x : outcome (Z * filsys C * inode) :=
  let d := i_desc x in
  let maxblocks := u32 (Z.of_nat DFS_TOPBLOCKDIR_SIZE
                        * s32 (Z.shiftl 1 (i_depth d * log_blkptrs_per_block fs))) in
  '(ok, fs, x) <~
    (if i_blocks d =? maxblocks then
       first <~ at_ (i_blockdir d) 0;
       '(n, fs) <~ new_block fs (u32 (first - 1));
       if n =? NOBLOCK then Ret (false, fs, x)
       else
         let '(ok, fs) := alloc fs n in
         if negb ok then Ret (false, fs, x)
         else
           let fs := zero_page fs n in
           let moved := take DFS_TOPBLOCKDIR_SIZE (i_blockdir d) in
           let fs := put_page fs n (moved ++ drop DFS_TOPBLOCKDIR_SIZE (page fs n)) in
           let x := set_tree x (i_blocks d) (i_depth d + 1)
                      (<[0%nat := n]> (replicate DFS_TOPBLOCKDIR_SIZE 0)) in
           Ret (true, release (mark_inode_dirty (dirty fs n) x) n, x)
     else Ret (true, fs, x));
  if negb ok then Ret (NOBLOCK, fs, x)
  else set_inode_block fs x (i_blocks (i_desc x)) NOBLOCK.

(** ** Truncation *)

(** [remove_blocks] on the [n] entries from [i] of an array; the result is the array
    with zeros there. *)
Definition remove_blocks fs (a : list Z) (i n : nat) : outcome (list Z * filsys C) :=
  if (0 <? n)%nat then
    let bs := take n (drop i a) in
    let fs := foldl (fun fs b => set_cache fs (invalidate_buffer (cache fs) b)) fs bs in
    fs <~ free_blocks fs bs;
    Ret (take i a ++ replicate (length bs) 0 ++ drop (i + n) a, fs)
  else Ret (a, fs).

(** The pages along the path, [bufs] being [buf[1..]]: the ones held already stay. *)
Fixpoint get_path fs (bufs : list (option Z)) (blk : Z) (offsets : list Z)
    : outcome (option (list (option Z)) * filsys C) :=
  match offsets, bufs with
  | [], _ => Ret (Some bufs, fs)
  | o :: offsets, cur :: bufs =>
      let '(ok, fs) :=
        match cur with
        | Some b => if b =? blk then (true, fs) else get (release fs b) blk
        | None => get fs blk
        end in
      if negb ok then Ret (None, fs)
      else
        next <~ at_ (page fs blk) o;
        '(rest, fs) <~ get_path fs bufs next offsets;
        match rest with
        | None => Ret (None, fs)
        | Some rest => Ret (Some (Some blk :: rest), fs)
        end
  | _ :: _, [] => Fault
  end.

(** [while (--d > 0)]: clear the entries that led to the page that was freed, and free
    the pages that become empty.  The lists are [buf[1..d]] and [offsets[1..d]] with the
    last ones first; the result says whether the top entry is to be cleared. *)
Fixpoint free_path fs (bufs offsets : list Z) : outcome (bool * filsys C) :=
  match bufs, offsets with
  | b :: bufs, o :: offsets =>
      d <~ put_at (page fs b) o 0;
      let fs := put_page fs b d in
      if o =? 0 then
        fs <~ free_blocks fs [b];
        free_path (invalid fs b) bufs offsets
      else Ret (false, dirty fs b)
  | _, _ => Ret (true, fs)
  end.

(** One round of the loop; [None] is the return of [-EIO]. *)
Definition truncate_step fs x (bufs : list (option Z)) (iblock blocksleft : Z)
    : outcome (option (list (option Z) * Z * Z) * filsys C * inode) :=
  '(o0, offsets) <~ split_levels (i_depth (i_desc x)) (log_blkptrs_per_block fs) iblock;
  blk <~ at_ (i_blockdir (i_desc x)) o0;
  '(path, fs) <~ get_path fs bufs blk offsets;
  match path with
  | None => Ret (None, fs, x)
  | Some bufs =>
      let held := omap id (take (length offsets) bufs) in
      let o := List.last offsets 0 in
      let b := List.last held 0 in
      if o <? blocksleft then
        let count := Z.to_nat (o + 1) in
        '(d, fs) <~ remove_blocks fs (page fs b) 0 count;
        fs <~ free_blocks (put_page fs b d) [b];
        let fs := invalid fs b in
        '(top, fs) <~ free_path fs (reverse (removelast held)) (reverse (removelast offsets));
        let first := if (length offsets =? 1)%nat then 0 else List.hd 0 offsets in
        '(fs, x) <~
          (if top && (first =? 0) then
             dir <~ put_at (i_blockdir (i_desc x)) o0 0;
             let x := set_blockdir x dir in
             Ret (mark_inode_dirty fs x, x)
           else Ret (fs, x));
        Ret (Some (bufs, u32 (iblock - Z.of_nat count), blocksleft - Z.of_nat count), fs, x)
      else
        '(d, fs) <~ remove_blocks fs (page fs b) (Z.to_nat (o + 1 - blocksleft)) (Z.to_nat blocksleft);
        Ret (Some (bufs, u32 (iblock - blocksleft), 0), dirty (put_page fs b d) b, x)
  end.

Fixpoint truncate_loop (fuel : nat) fs x (bufs : list (option Z)) (iblock blocksleft : Z)
    : outcome (option (list (option Z)) * filsys C * inode) :=
  if 0 <? blocksleft then
    match fuel with
    | O => Diverge
    | S fuel =>
        '(r, fs, x) <~ truncate_step fs x bufs iblock blocksleft;
        match r with
        | None => Ret (None, fs, x)
        | Some (bufs, iblock, blocksleft) => truncate_loop fuel fs x bufs iblock blocksleft
        end
    end
  else Ret (Some bufs, fs, x).

Definition truncate_inode fs x (blocks : Z) : outcome (Z * filsys C * inode) :=
  let d := i_desc x in
  if i_blocks d <? blocks then Ret (- EINVAL, fs, x)
  else if blocks =? i_blocks d then Ret (0, fs, x)
  else if i_blocks d =? 0 then Ret (0, fs, x)
  else if i_depth d =? 0 then
    '(dir, fs) <~ remove_blocks fs (i_blockdir d) (Z.to_nat blocks) (Z.to_nat (i_blocks d - blocks));
    let x := set_tree x blocks (i_depth d) dir in
    Ret (0, mark_inode_dirty fs x, x)
  else
    let left := i_blocks d - blocks in
    '(r, fs, x) <~ truncate_loop (Z.to_nat left) fs x
                    (replicate (Z.to_nat (DFS_MAX_DEPTH - 1)) None) (i_blocks d - 1) left;
    match r with
    | None => Ret (- EIO, fs, x)
    | Some bufs =>
        let fs := foldl release fs (omap id bufs) in
        let x := set_tree x blocks (if blocks =? 0 then 0 else i_depth (i_desc x))
                   (i_blockdir (i_desc x)) in
        Ret (0, mark_inode_dirty fs x, x)
    end.

Definition unlink_inode fs x : outcome (Z * filsys C * inode) :=
  let x := set_linkcount x (s32 (i_linkcount (i_desc x) - 1)) in
  let fs := mark_inode_dirty fs x in
  if 0 <? i_linkcount (i_desc x) then Ret (0, fs, x)
  else
    '(rc, fs, x) <~ truncate_inode fs x 0;
    if rc <? 0 then Ret (rc, fs, x)
    else
      let x := with_desc x zero_desc in
      fs <~ (if reserved_inodes (super fs) <=? i_ino x then free_inode fs (i_ino x) else Ret fs);
      Ret (0, fs, x).
End Inode.

(** ** Lemmas *)

(** The file block that the offsets denote. *)
Definition join_levels (log o : Z) (offsets : list Z) : Z :=
  foldl (fun acc o => acc * 2 ^ log + o) o offsets.

Lemma lower_levels_spec n : forall log iblock acc,
  0 <= log -> 0 <= iblock ->
  let os := lower_levels n log iblock (Z.of_nat n * log) in
  length os = n /\ Forall (fun o => 0 <= o < 2 ^ log) os
  /\ join_levels log acc os = acc * 2 ^ (Z.of_nat n * log) + iblock mod 2 ^ (Z.of_nat n * log).
Proof.
  induction n as [|n IH]; intros log iblock acc Hl Hi; cbn [lower_levels].
  { split_and!; [done|constructor|]. change (Z.of_nat 0 * log) with 0.
    rewrite Z.pow_0_r, Z.mod_1_r. unfold join_levels. cbn [foldl]. lia. }
  rewrite Z.shiftl_1_l. replace (2 ^ (Z.of_nat (S n) * log) - 1) with (Z.ones (Z.of_nat (S n) * log))
    by (rewrite Z.ones_equiv; lia).
  rewrite Z.land_ones by lia.
  replace (Z.of_nat (S n) * log - log) with (Z.of_nat n * log) by lia.
  rewrite Z.shiftr_div_pow2 by lia.
  set (s := Z.of_nat n * log). assert (Hs : Z.of_nat (S n) * log = s + log) by lia. rewrite Hs.
  assert (0 <= s) by lia.
  rewrite Z.pow_add_r by lia. set (P := 2 ^ s). set (K := 2 ^ log).
  assert (0 < P) by (apply Z.pow_pos_nonneg; lia). assert (0 < K) by (apply Z.pow_pos_nonneg; lia).
  pose proof (Z.mod_pos_bound iblock (P * K) ltac:(lia)) as Hm.
  set (r := iblock mod (P * K)) in *.
  destruct (IH log r (acc * K + r / P) Hl ltac:(lia)) as (Hlen & Hf & Hj).
  fold s in Hlen, Hf, Hj. fold P in Hj. split_and!.
  - simpl. by rewrite Hlen.
  - constructor; [|done]. split; [apply Z.div_pos; lia|]. apply Z.div_lt_upper_bound; lia.
  - unfold join_levels in *. cbn [foldl]. fold K in Hj |- *. rewrite Hj.
    pose proof (Z.div_mod r P ltac:(lia)). lia.
Qed.

Section Lookup.
Context {C : Type} `{BC : BufferCache C}.
Implicit Types (fs : filsys C) (x : inode).

(** The pointer at the end of a path through the pages, without buffers. *)
Fixpoint follow (data : Z -> list Z) (block : Z) (offsets : list Z) : option Z :=
  match offsets with
  | [] => Some block
  | o :: offsets =>
      match data block !! Z.to_nat o with
      | Some next => if next =? 0 then None else follow data next offsets
      | None => None
      end
  end.

Definition same_data fs fs' : Prop := forall b, page fs' b = page fs b.

Lemma follow_ext (data data' : Z -> list Z) block os :
  (forall b, data' b = data b) -> follow data' block os = follow data block os.
Proof.
  intros He. revert block. induction os as [|o os IH]; intros block; cbn [follow]; [done|].
  rewrite He. destruct (data block !! Z.to_nat o); [|done]. by destruct (_ =? 0).
Qed.

(** A page is read and let go again. *)
Lemma get_release fs b :
  let fs' := release (get fs b).2 b in
  (get fs b).1 = true -> same_data fs fs' /\ same_pins fs fs' /\ page (get fs b).2 b = page fs b.
Proof.
  unfold get. destruct (get_buffer (cache fs) b) as [ok c] eqn:Hg. cbn [fst snd]. intros ->.
  assert (Hd := fun y => get_data (cache fs) b y). assert (Hp := fun y => get_pins (cache fs) b y).
  rewrite Hg in Hd, Hp. cbn [fst snd andb] in *. split_and!.
  - intros x. unfold page. cbn. by rewrite release_data.
  - intros x. cbn. rewrite release_pins, Hp. destruct (x =? b); lia.
  - apply Hd.
Qed.

Lemma get_fails fs b : (get fs b).1 = false -> same_data fs (get fs b).2 /\ same_pins fs (get fs b).2.
Proof.
  unfold get. destruct (get_buffer (cache fs) b) as [ok c] eqn:Hg. cbn [fst snd]. intros ->.
  assert (Hd := fun y => get_data (cache fs) b y). assert (Hp := fun y => get_pins (cache fs) b y).
  rewrite Hg in Hd, Hp. cbn [fst snd andb] in *. split; [done|].
  intros x. cbn. rewrite Hp. lia.
Qed.

Lemma get_levels_spec os : forall fs block,
  (forall b o, 0 <= o < 2 ^ log_blkptrs_per_block fs -> is_Some (page fs b !! Z.to_nat o)) ->
  Forall (fun o => 0 <= o < 2 ^ log_blkptrs_per_block fs) os ->
  exists r fs', get_levels fs block os = Ret (r, fs') /\ same_data fs fs' /\ same_pins fs fs'
    /\ (r = default NOBLOCK (follow (page fs) block os) \/ r = NOBLOCK /\ exists fs1 b, (get fs1 b).1 = false).
Proof.
  induction os as [|o os IH]; intros fs block Hpg Hos; cbn [get_levels].
  { exists block, fs. split_and!; try done. by left. }
  apply Forall_cons in Hos as [Ho Hos].
  pose proof (get_release fs block) as Hr. pose proof (get_fails fs block) as Hf.
  assert (Hl : log_blkptrs_per_block (get fs block).2 = log_blkptrs_per_block fs)
    by (unfold get; by destruct (get_buffer _ _)).
  destruct (get fs block) as [ok fs1] eqn:Hget. cbn [fst snd] in *.
  destruct ok; cbn [negb].
  2: { destruct (Hf eq_refl) as [? ?]. exists NOBLOCK, fs1. split_and!; try done. right.
       split; [done|]. exists fs, block. by rewrite Hget. }
  destruct (Hr eq_refl) as (Hd & Hp & Hpage). rewrite Hpage. unfold at_.
  rewrite (proj2 (Z.ltb_ge _ _)) by lia. cbn [follow].
  destruct (Hpg block o Ho) as [next Hnext]. rewrite Hnext. cbn [deref obind].
  destruct (next =? 0) eqn:Hz.
  { exists NOBLOCK, (release fs1 block). split_and!; try done. by left. }
  destruct (IH (release fs1 block) next) as (r & fs' & -> & Hd' & Hp' & Hor).
  - intros b q Hq. rewrite Hd. apply Hpg. cbn in Hq. by rewrite Hl in Hq.
  - cbn. by rewrite Hl.
  - exists r, fs'. split_and!; try done.
    + intros b. by rewrite Hd', Hd.
    + intros b. by rewrite Hp', Hp.
    + destruct Hor as [->|?]; [left|by right]. f_equal. by apply follow_ext.
Qed.

(** ** The theorems *)

(** The offsets of a file block lie in their pages, one for each level, and the
    block can be recovered from them: two blocks never share a path. *)
Lemma split_levels_roundtrip depth log iblock :
  0 <= depth < DFS_MAX_DEPTH -> 0 <= log -> 0 <= iblock < 16 * 2 ^ (depth * log) ->
  exists o offsets, split_levels depth log iblock = Ret (o, offsets)
    /\ 0 <= o < 16 /\ length offsets = Z.to_nat depth
    /\ Forall (fun o => 0 <= o < 2 ^ log) offsets
    /\ join_levels log o offsets = iblock.
Proof.
  intros Hd Hl Hi. unfold split_levels. rewrite (proj2 (Z.leb_gt _ _)) by lia.
  assert (0 < 2 ^ (depth * log)) by (apply Z.pow_pos_nonneg; lia).
  destruct (lower_levels_spec (Z.to_nat depth) log iblock (Z.shiftr iblock (depth * log)) Hl ltac:(lia))
    as (Hlen & Hf & Hj). rewrite Z2Nat.id in * by lia.
  do 2 eexists. split; [done|]. rewrite Z.shiftr_div_pow2 in * by lia. split_and!; try done.
  - apply Z.div_pos; lia.
  - apply Z.div_lt_upper_bound; lia.
  - rewrite Hj. pose proof (Z.div_mod iblock (2 ^ (depth * log)) ltac:(lia)). lia.
Qed.

(** [get_inode_block] returns the pointer at the end of the block's path, or
    [NOBLOCK] when the path has a hole or a page of it cannot be read; it changes no
    block and releases every buffer it takes. *)
Lemma get_inode_block_correct fs x iblock :
  let log := log_blkptrs_per_block fs in
  0 <= i_depth (i_desc x) < DFS_MAX_DEPTH -> 0 <= log ->
  0 <= iblock < 16 * 2 ^ (i_depth (i_desc x) * log) ->
  length (i_blockdir (i_desc x)) = DFS_TOPBLOCKDIR_SIZE ->
  (forall b o, 0 <= o < 2 ^ log -> is_Some (page fs b !! Z.to_nat o)) ->
  exists o offsets top r fs', split_levels (i_depth (i_desc x)) log iblock = Ret (o, offsets)
    /\ i_blockdir (i_desc x) !! Z.to_nat o = Some top
    /\ get_inode_block fs x iblock = Ret (r, fs') /\ same_data fs fs' /\ same_pins fs fs'
    /\ (r = default NOBLOCK (follow (page fs) top offsets)
        \/ r = NOBLOCK /\ exists fs1 b, (get fs1 b).1 = false).
Proof.
  intros log Hd Hl Hi Hdir Hpg. unfold get_inode_block, split_levels. fold log.
  rewrite (proj2 (Z.leb_gt _ _)) by lia. cbn [obind].
  assert (0 < 2 ^ (i_depth (i_desc x) * log)) by (apply Z.pow_pos_nonneg; lia).
  destruct (lower_levels_spec (Z.to_nat (i_depth (i_desc x))) log iblock 0 Hl ltac:(lia))
    as (Hlen & Hf & _). rewrite Z2Nat.id in * by lia.
  set (o := Z.shiftr iblock (i_depth (i_desc x) * log)). set (os := lower_levels _ _ _ _) in *.
  assert (Ho : 0 <= o < 16).
  { unfold o. rewrite Z.shiftr_div_pow2 by lia. split; [apply Z.div_pos; lia|].
    apply Z.div_lt_upper_bound; lia. }
  destruct (lookup_lt_is_Some_2 (i_blockdir (i_desc x)) (Z.to_nat o)) as [top Htop].
  { rewrite Hdir. unfold DFS_TOPBLOCKDIR_SIZE. lia. }
  unfold at_. rewrite (proj2 (Z.ltb_ge _ _)), Htop by lia. cbn [deref obind].
  destruct (get_levels_spec os fs top Hpg Hf) as (r & fs' & ? & ? & ? & ?).
  by exists o, os, top, r, fs'.
Qed.

(** When the disk is full, the extension of a file whose leaf page exists answers
    [NOBLOCK] and forgets to release the buffer of that page. *)
Lemma set_inode_block_leaks fs x b o :
  fs_ok fs -> (forall m, ~ free fs m) -> (get fs b).1 = true ->
  (forall o, 0 <= o < 2 ^ log_blkptrs_per_block fs -> exists v, 0 <= v /\ page fs b !! Z.to_nat o = Some v) ->
  0 <= b -> 0 <= o < 2 ^ log_blkptrs_per_block fs ->
  exists fs', set_leaf fs x false b o NOBLOCK = Ret (NOBLOCK, fs', x)
    /\ pins (cache fs') b = S (pins (cache fs) b).
Proof.
  intros Hok Hfull Hget Hpage Hb Ho. unfold set_leaf.
  pose proof (get_buffer_fs fs b Hok) as (Hok1 & Hf1 & _ & Hp1). unfold get in *.
  assert (Hd := fun y => get_data (cache fs) b y).
  destruct (get_buffer (cache fs) b) as [ok c] eqn:Hg. cbn [fst snd] in *. subst ok. cbn [negb andb] in *.
  set (fs1 := set_cache fs c) in *. rewrite Z.eqb_refl.
  assert (Hgoal : exists goal, (if o =? 0 then Ret b else at_ (page fs1 b) (o - 1)) = Ret goal).
  { zcase; [by eexists|]. destruct (Hpage (o - 1) ltac:(lia)) as (v & _ & Hv). unfold at_.
    rewrite (proj2 (Z.ltb_ge _ _)) by lia. exists v. unfold page in *. cbn. by rewrite Hd, Hv. }
  destruct Hgoal as [goal ->]. cbn [obind].
  destruct (new_block_spec fs1 (u32 (goal + 1)) Hok1) as (n & fs2 & -> & _ & Hp2 & [Ht|[-> _]]).
  - pose proof (u32_range (goal + 1)) as [? _]. lia.
  - exfalso. apply (Hfull n), Hf1, (tk_was_free _ _ _ Ht).
  - cbn [obind]. rewrite Z.eqb_refl. cbn [obind]. rewrite Z.eqb_refl.
    exists fs2. split; [done|]. rewrite Hp2, Hp1, Z.eqb_refl. lia.
Qed.
End Lookup.

(** ** Witnesses *)

(** A file of depth 1 with its leaf page in block 77, on the full disk of one group. *)
Definition ex_full_fs : filsys memcache :=
  FilSys (MemCache {[10 := [0xFFFFFFFF; 0xFFFFFFFF]; 77 := replicate 1024 5]} ∅ ∅)
    (Super 1 0 64 0 0 64 32 0) [BlkGroup (GroupDesc 64 10 11 12 0 0) 0 0] false
    4096 16 10 128 [2].
Definition ex_inode : inode :=
  Inode 20 (InodeDesc 0 0 0 0 0 0 3 12288 1 1 (77 :: replicate 15 0)) 12.

Lemma ex_full_lookup i g : groups ex_full_fs !! i = Some g ->
  i = 0%nat /\ g = BlkGroup (GroupDesc 64 10 11 12 0 0) 0 0.
Proof. destruct i as [|i]; cbn; [by intros [= <-]|by destruct i]. Qed.

Lemma ex_full_bit b : 0 <= b < 64 -> bit [0xFFFFFFFF; 0xFFFFFFFF] b = true.
Proof.
  intros Hb. assert (Hc : forallb (fun b => bit [0xFFFFFFFF; 0xFFFFFFFF] b) (seqZ 0 64) = true)
    by (vm_compute; reflexivity).
  rewrite forallb_forall in Hc. apply Hc, list_elem_of_In, elem_of_seqZ. lia.
Qed.

Lemma ex_full_ok : fs_ok ex_full_fs.
Proof.
  constructor; cbn [ex_full_fs super group_count blocks_per_group groups groupdescs_per_block groupdesc_buffers];
    try done; try lia.
  - intros i g [-> ->]%ex_full_lookup. constructor; [|cbn; lia|vm_compute; reflexivity|right; cbn; lia].
    split; [|split_and!; [cbn; lia|vm_compute; discriminate|intros H; vm_compute in H; discriminate H]].
    split; [|vm_compute; reflexivity]. change (Forall is_u32 [0xFFFFFFFF; 0xFFFFFFFF]).
    rewrite !Forall_cons. unfold is_u32. split_and!; try lia. apply Forall_nil_2.
  - intros i j g h [-> _]%ex_full_lookup [-> _]%ex_full_lookup. done.
  - intros m Hm. cbn in Hm. eexists. rewrite Z.div_small, Z.mod_small by lia. split; [done|cbn; lia].
  - split; [lia|]. intros [|i] Hi; cbn in Hi; [|lia]. by eexists.
Qed.

Lemma ex_full_none m : ~ free ex_full_fs m.
Proof.
  intros (i & g & b & [[-> ->]%ex_full_lookup Hb] & _ & Hbit).
  change (bit [0xFFFFFFFF; 0xFFFFFFFF] b = false) in Hbit. cbn in Hb.
  by rewrite ex_full_bit in Hbit.
Qed.

(** The same file, with nothing written anywhere else. *)
Definition ex_file_fs : filsys memcache :=
  FilSys (MemCache {[77 := replicate 1024 5]} ∅ ∅) (Super 1 0 64 0 0 64 32 0) [] false
    4096 16 10 128 [2].

