(* ===== verification/Sched.v ===== *)
(** * Sched: threads, ready queues and deferred procedure calls, src/src/sys/krnl/sched.c

    A thread is a number, the address of its control block.  [sched] holds the variables
    of sched.c and the fields of all threads that the scheduler uses; [cur] is the thread
    whose stack the processor is on, what [self()] returns.  [dispatch] makes another
    thread the current one: what is left of the caller runs when that thread is
    dispatched again.  The floating point unit, the segment registers and the
    interrupt flag are not part of the state. *)

From stdpp Require Import functions.
From S2P Require Import Prelude Dlist Bitmap.
Local Open Scope krlean_scope.

Definition THREAD_STATE_INITIALIZED : Z := 0.
Definition THREAD_STATE_READY : Z := 1.
Definition THREAD_STATE_RUNNING : Z := 2.
Definition THREAD_STATE_WAITING : Z := 3.
Definition THREAD_STATE_TERMINATED : Z := 4.
Definition THREAD_STATE_SUSPENDED : Z := 5.
Definition THREAD_STATE_TRANSITION : Z := 6.

Definition THREAD_FPU_ENABLED : Z := 2.
Definition THREAD_ALERTABLE : Z := 4.
Definition THREAD_INTERRUPTED : Z := 8.

Definition DEFAULT_QUANTUM : Z := 36.
Definition THREAD_PRIORITY_LEVELS : Z := 32.
Definition PRIORITY_SYSIDLE : Z := 0.
Definition PRIORITY_TIME_CRITICAL : Z := 15.

Definition DPC_QUEUED_BIT : Z := 0.
Definition DPC_EXECUTING_BIT : Z := 1.
Definition DPC_QUEUED : Z := Z.shiftl 1 DPC_QUEUED_BIT.
Definition DPC_EXECUTING : Z := Z.shiftl 1 DPC_EXECUTING_BIT.

Record thread := Thread {
  state : Z; quantum : Z; wait_reason : Z; flags : Z;
  priority : Z; base_priority : Z; suspend_count : Z;
  pending_signals : Z; blocked_signals : Z;
  context_switches : Z; preempts : Z;
}.

Record dpc := Dpc { d_proc : Z; d_arg : Z; d_next : option nat; d_flags : Z }.

Record sched := Sched {
  thr : nat -> thread;
  rlinks : links nat;                (* [next_ready], [prev_ready] *)
  readyq : Z -> ends (A:=nat);       (* [ready_queue_head], [ready_queue_tail] *)
  thread_ready_summary : Z;
  preempt : Z;
  cur : nat;
  dpcs : nat -> dpc;
  dpc_queue_head : option nat;
  dpc_queue_tail : option nat;
  in_dpc : Z;
  dpc_total : Z;
  dpc_lost : Z;
  dpc_calls : list (Z * Z);          (* the calls of DPC procedures so far, newest first *)
}.

(** ** Stores *)

Definition set_state (t : thread) (x : Z) : thread :=
  Thread x (quantum t) (wait_reason t) (flags t) (priority t) (base_priority t)
    (suspend_count t) (pending_signals t) (blocked_signals t) (context_switches t) (preempts t).
Definition set_quantum (t : thread) (x : Z) : thread :=
  Thread (state t) x (wait_reason t) (flags t) (priority t) (base_priority t)
    (suspend_count t) (pending_signals t) (blocked_signals t) (context_switches t) (preempts t).
Definition set_wait_reason (t : thread) (x : Z) : thread :=
  Thread (state t) (quantum t) x (flags t) (priority t) (base_priority t)
    (suspend_count t) (pending_signals t) (blocked_signals t) (context_switches t) (preempts t).
Definition set_flags (t : thread) (x : Z) : thread :=
  Thread (state t) (quantum t) (wait_reason t) x (priority t) (base_priority t)
    (suspend_count t) (pending_signals t) (blocked_signals t) (context_switches t) (preempts t).
Definition set_priority (t : thread) (x : Z) : thread :=
  Thread (state t) (quantum t) (wait_reason t) (flags t) x (base_priority t)
    (suspend_count t) (pending_signals t) (blocked_signals t) (context_switches t) (preempts t).
Definition set_base_priority (t : thread) (x : Z) : thread :=
  Thread (state t) (quantum t) (wait_reason t) (flags t) (priority t) x
    (suspend_count t) (pending_signals t) (blocked_signals t) (context_switches t) (preempts t).
Definition set_suspend_count (t : thread) (x : Z) : thread :=
  Thread (state t) (quantum t) (wait_reason t) (flags t) (priority t) (base_priority t)
    x (pending_signals t) (blocked_signals t) (context_switches t) (preempts t).
Definition count_switch (t : thread) : thread :=
  Thread (state t) (quantum t) (wait_reason t) (flags t) (priority t) (base_priority t)
    (suspend_count t) (pending_signals t) (blocked_signals t) (u32 (context_switches t + 1)) (preempts t).
Definition count_preempt (t : thread) : thread :=
  Thread (state t) (quantum t) (wait_reason t) (flags t) (priority t) (base_priority t)
    (suspend_count t) (pending_signals t) (blocked_signals t) (context_switches t) (u32 (preempts t + 1)).

Definition set_thr (s : sched) (t : nat) (x : thread) : sched :=
  Sched (<[t := x]> (thr s)) (rlinks s) (readyq s) (thread_ready_summary s) (preempt s) (cur s)
    (dpcs s) (dpc_queue_head s) (dpc_queue_tail s) (in_dpc s) (dpc_total s) (dpc_lost s) (dpc_calls s).
Definition set_ready (s : sched) (k : links nat) (q : Z -> ends) (m : Z) : sched :=
  Sched (thr s) k q m (preempt s) (cur s)
    (dpcs s) (dpc_queue_head s) (dpc_queue_tail s) (in_dpc s) (dpc_total s) (dpc_lost s) (dpc_calls s).
Definition set_preempt (s : sched) (p : Z) : sched :=
  Sched (thr s) (rlinks s) (readyq s) (thread_ready_summary s) p (cur s)
    (dpcs s) (dpc_queue_head s) (dpc_queue_tail s) (in_dpc s) (dpc_total s) (dpc_lost s) (dpc_calls s).
Definition set_cur (s : sched) (t : nat) : sched :=
  Sched (thr s) (rlinks s) (readyq s) (thread_ready_summary s) (preempt s) t
    (dpcs s) (dpc_queue_head s) (dpc_queue_tail s) (in_dpc s) (dpc_total s) (dpc_lost s) (dpc_calls s).
Definition set_dpc (s : sched) (d : nat) (x : dpc) : sched :=
  Sched (thr s) (rlinks s) (readyq s) (thread_ready_summary s) (preempt s) (cur s)
    (<[d := x]> (dpcs s)) (dpc_queue_head s) (dpc_queue_tail s) (in_dpc s) (dpc_total s) (dpc_lost s) (dpc_calls s).
Definition set_dpc_queue (s : sched) (h t : option nat) : sched :=
  Sched (thr s) (rlinks s) (readyq s) (thread_ready_summary s) (preempt s) (cur s)
    (dpcs s) h t (in_dpc s) (dpc_total s) (dpc_lost s) (dpc_calls s).
Definition set_dpc_state (s : sched) (i total lost : Z) (calls : list (Z * Z)) : sched :=
  Sched (thr s) (rlinks s) (readyq s) (thread_ready_summary s) (preempt s) (cur s)
    (dpcs s) (dpc_queue_head s) (dpc_queue_tail s) i total lost calls.
Definition set_in_dpc (s : sched) (i : Z) : sched :=
  set_dpc_state s i (dpc_total s) (dpc_lost s) (dpc_calls s).

(** ** The ready queues *)

(** [ready_queue_head[p]] and [ready_queue_tail[p]], arrays of 32 elements. *)
Definition queue_at (s : sched) (p : Z) : outcome ends :=
  if (0 <=? p) && (p <? THREAD_PRIORITY_LEVELS) then Ret (readyq s p) else Fault.

Definition insert_ready_head (s : sched) (t : nat) : outcome sched :=
  let p := priority (thr s t) in
  q <~ queue_at s p;
  match first q with
  | None =>
      let k := set_pv (set_nx (rlinks s) t None) t None in
      Ret (set_ready s k (<[p := Ends (Some t) (Some t)]> (readyq s))
             (Z.lor (thread_ready_summary s) (u32 (Z.shiftl 1 p))))
  | Some h =>
      let k := set_pv (set_nx (rlinks s) t (Some h)) t None in
      Ret (set_ready s (set_pv k h (Some t)) (<[p := Ends (Some t) (last_ q)]> (readyq s))
             (thread_ready_summary s))
  end.

Definition insert_ready_tail (s : sched) (t : nat) : outcome sched :=
  let p := priority (thr s t) in
  q <~ queue_at s p;
  match last_ q with
  | None =>
      let k := set_pv (set_nx (rlinks s) t None) t None in
      Ret (set_ready s k (<[p := Ends (Some t) (Some t)]> (readyq s))
             (Z.lor (thread_ready_summary s) (u32 (Z.shiftl 1 p))))
  | Some z =>
      let k := set_pv (set_nx (rlinks s) t None) t (Some z) in
      Ret (set_ready s (set_nx k z (Some t)) (<[p := Ends (first q) (Some t)]> (readyq s))
             (thread_ready_summary s))
  end.

Definition remove_from_ready_queue (s : sched) (t : nat) : outcome sched :=
  let p := priority (thr s t) in
  q <~ queue_at s p;
  let '(k, q) := dl_remove (rlinks s) q t in
  let m := match last_ q with
           | None => Z.land (thread_ready_summary s) (u32 (Z.lnot (Z.shiftl 1 p)))
           | Some _ => thread_ready_summary s
           end in
  Ret (set_ready s k (<[p := q]> (readyq s)) m).

Definition find_ready_thread (s : sched) : outcome (option nat * sched) :=
  if thread_ready_summary s =? 0 then Ret (None, s)
  else
    let p := find_highest_bit (thread_ready_summary s) in
    q <~ queue_at s p;
    t <~ deref (first q);
    let '(k, q, m) :=
      match nx (rlinks s) t with
      | None => (rlinks s, no_ends, Z.land (thread_ready_summary s) (u32 (Z.lnot (Z.shiftl 1 p))))
      | Some n => (set_pv (rlinks s) n None, Ends (Some n) (last_ q), thread_ready_summary s)
      end in
    let k := set_pv (set_nx k t None) t None in
    Ret (Some t, set_ready s k (<[p := q]> (readyq s)) m).

Definition upd (s : sched) (t : nat) (f : thread -> thread) : sched := set_thr s t (f (thr s t)).

Definition mark_thread_ready (s : sched) (t : nat) (charge boost : Z) : outcome sched :=
  let x := thr s t in
  if 0 <? suspend_count x then Ret (upd s t (fun x => set_state x THREAD_STATE_SUSPENDED))
  else if truthy (Z.land (flags x) THREAD_INTERRUPTED) && (state x =? THREAD_STATE_READY) then Ret s
  else
    let s := upd s t (fun x => set_quantum x (s32 (quantum x - charge))) in
    let newprio := s32 (base_priority x + boost) in
    let newprio := if PRIORITY_TIME_CRITICAL <? newprio then PRIORITY_TIME_CRITICAL else newprio in
    let s := if priority x <? newprio then upd s t (fun x => set_priority x newprio) else s in
    if state x =? THREAD_STATE_READY then Panic
    else
      let s := upd s t (fun x => set_state x THREAD_STATE_READY) in
      s <~ (if 0 <? quantum (thr s t) then insert_ready_head s t
            else
              let s := upd s t (fun x => set_quantum x DEFAULT_QUANTUM) in
              let s := if base_priority (thr s t) <? priority (thr s t)
                       then upd s t (fun x => set_priority x (priority x - 1)) else s in
              insert_ready_tail s t);
      Ret (if priority (thr s (cur s)) <? priority (thr s t) then set_preempt s 1 else s).

(** ** Deferred procedure calls *)

Definition init_dpc (s : sched) (d : nat) : sched := set_dpc s d (Dpc 0 0 None 0).

(** [queue_dpc] is the same between [cli] and [sti]. *)
Definition queue_irq_dpc (s : sched) (d : nat) (proc arg : Z) : sched :=
  if truthy (Z.land (d_flags (dpcs s d)) DPC_QUEUED) then
    set_dpc_state s (in_dpc s) (dpc_total s) (u32 (dpc_lost s + 1)) (dpc_calls s)
  else
    let s := set_dpc s d (Dpc proc arg None (d_flags (dpcs s d))) in
    let s := match dpc_queue_tail s with
             | Some z => let x := dpcs s z in set_dpc s z (Dpc (d_proc x) (d_arg x) (Some d) (d_flags x))
             | None => s
             end in
    let s := set_dpc_queue s (match dpc_queue_head s with None => Some d | h => h end) (Some d) in
    let x := dpcs s d in
    set_dpc s d (Dpc (d_proc x) (d_arg x) (d_next x) (Z.lor (d_flags x) DPC_QUEUED)).

Definition get_next_dpc (s : sched) : option nat * sched :=
  match dpc_queue_head s with
  | Some d =>
      (Some d, set_dpc_queue s (d_next (dpcs s d))
                 (if decide (dpc_queue_tail s = Some d) then None else dpc_queue_tail s))
  | None => (None, s)
  end.

Definition dpc_flag (s : sched) (d : nat) (f : Z -> Z) : sched :=
  let x := dpcs s d in set_dpc s d (Dpc (d_proc x) (d_arg x) (d_next x) (f (d_flags x))).

Section Dispatch.
(** What a DPC procedure of the drivers does to the scheduler. *)
Context (call : Z -> Z -> sched -> outcome sched).

Definition run_dpc (s : sched) (d : nat) : outcome sched :=
  let proc := d_proc (dpcs s d) in
  let arg := d_arg (dpcs s d) in
  let s := dpc_flag s d (fun f => Z.land f (Z.lnot DPC_QUEUED)) in
  if truthy (Z.land (d_flags (dpcs s d)) DPC_EXECUTING) then Ret s
  else
    let s := dpc_flag s d (fun f => Z.lor f DPC_EXECUTING) in
    s <~ call proc arg (set_dpc_state s (in_dpc s) (dpc_total s) (dpc_lost s) ((proc, arg) :: dpc_calls s));
    let s := dpc_flag s d (fun f => Z.land f (Z.lnot DPC_EXECUTING)) in
    Ret (set_dpc_state s (in_dpc s) (u32 (dpc_total s + 1)) (dpc_lost s) (dpc_calls s)).

(** [while (1)]; the fuel bounds the number of DPCs. *)
Fixpoint dpc_loop (fuel : nat) (s : sched) : outcome sched :=
  let '(d, s) := get_next_dpc s in
  match d, fuel with
  | None, _ => Ret s
  | Some _, O => Diverge
  | Some d, S fuel => s <~ run_dpc s d; dpc_loop fuel s
  end.

Definition dispatch_dpc_queue (fuel : nat) (s : sched) : outcome sched :=
  if truthy (in_dpc s) then Panic
  else s <~ dpc_loop fuel (set_in_dpc s 1); Ret (set_in_dpc s 0).

Definition check_dpc_queue (fuel : nat) (s : sched) : outcome sched :=
  match dpc_queue_head s with Some _ => dispatch_dpc_queue fuel s | None => Ret s end.

(** ** Switching threads *)

Definition mark_thread_running (s : sched) : sched :=
  upd s (cur s) (fun x => count_switch (set_state x THREAD_STATE_RUNNING)).

Definition dispatch (fuel : nat) (s : sched) : outcome sched :=
  let curthread := cur s in
  s <~ check_dpc_queue fuel (set_preempt s 0);
  '(t, s) <~ find_ready_thread s;
  match t with
  | None => Panic
  | Some t =>
      if decide (t = curthread) then Ret (upd s t (fun x => set_state x THREAD_STATE_RUNNING))
      else
        let s := if truthy (Z.land (flags (thr s curthread)) THREAD_FPU_ENABLED)
                 then upd s t (fun x => set_flags x (Z.land (flags x) (Z.lnot THREAD_FPU_ENABLED)))
                 else s in
        Ret (mark_thread_running (set_cur s t))
  end.

Definition enter_wait (fuel : nat) (s : sched) (reason : Z) : outcome sched :=
  dispatch fuel (upd s (cur s) (fun x => set_wait_reason (set_state x THREAD_STATE_WAITING) reason)).

Definition signals_ready (x : thread) : bool :=
  truthy (Z.land (pending_signals x) (Z.lnot (blocked_signals x))).

(** [enter_alertable_wait] up to the switch: [-EINTR], or another thread runs. *)
Definition enter_alertable_wait (fuel : nat) (s : sched) (reason : Z) : outcome (Z * sched) :=
  if signals_ready (thr s (cur s)) then Ret (- EINTR, s)
  else
    let s := upd s (cur s) (fun x => set_wait_reason (set_state x THREAD_STATE_WAITING) reason) in
    let s := upd s (cur s) (fun x => set_flags x (Z.land (flags x) (Z.lnot THREAD_INTERRUPTED))) in
    let s := upd s (cur s) (fun x => set_flags x (Z.lor (flags x) THREAD_ALERTABLE)) in
    s <~ dispatch fuel s; Ret (0, s).

(** ... and after it, when the thread is the current one again. *)
Definition leave_alertable_wait (s : sched) : Z * sched :=
  let s := upd s (cur s) (fun x => set_flags x (Z.land (flags x) (Z.lnot THREAD_ALERTABLE))) in
  if truthy (Z.land (flags (thr s (cur s))) THREAD_INTERRUPTED) then
    (- EINTR, upd s (cur s) (fun x => set_flags x (Z.land (flags x) (Z.lnot THREAD_INTERRUPTED))))
  else (0, s).

Definition interrupt_thread (s : sched) (t : nat) : outcome (Z * sched) :=
  if negb (state (thr s t) =? THREAD_STATE_WAITING) then Ret (- EBUSY, s)
  else if Z.land (flags (thr s t)) THREAD_ALERTABLE =? 0 then Ret (- EPERM, s)
  else
    let s := upd s t (fun x => set_flags x (Z.lor (flags x) THREAD_INTERRUPTED)) in
    s <~ mark_thread_ready s t 1 1; Ret (0, s).

Definition preempt_thread (fuel : nat) (s : sched) : outcome sched :=
  let t := cur s in
  let s := upd s t count_preempt in
  let s := if quantum (thr s t) <=? 0 then
             let s := upd s t (fun x => set_quantum x DEFAULT_QUANTUM) in
             if base_priority (thr s t) <? priority (thr s t)
             then upd s t (fun x => set_priority x (priority x - 1)) else s
           else s in
  let s := upd s t (fun x => set_state x THREAD_STATE_READY) in
  s <~ insert_ready_tail s t;
  dispatch fuel s.

Definition yield (fuel : nat) (s : sched) : outcome sched :=
  let t := cur s in
  let s := upd s t (fun x => set_quantum x 0) in
  s <~ mark_thread_ready s t 0 0;
  dispatch fuel s.

Definition suspend_thread (fuel : nat) (s : sched) (t : nat) : outcome (Z * sched) :=
  let prevcount := suspend_count (thr s t) in
  let s := upd s t (fun x => set_suspend_count x (s32 (suspend_count x + 1))) in
  if prevcount =? 0 then
    if state (thr s t) =? THREAD_STATE_READY then
      s <~ remove_from_ready_queue s t;
      Ret (prevcount, upd s t (fun x => set_state x THREAD_STATE_SUSPENDED))
    else if state (thr s t) =? THREAD_STATE_RUNNING then
      s <~ dispatch fuel (upd s t (fun x => set_state x THREAD_STATE_SUSPENDED));
      Ret (prevcount, s)
    else Ret (prevcount, s)
  else Ret (prevcount, s).

Definition resume_thread (s : sched) (t : nat) : outcome (Z * sched) :=
  let prevcount := suspend_count (thr s t) in
  if 0 <? prevcount then
    let s := upd s t (fun x => set_suspend_count x (suspend_count x - 1)) in
    if (suspend_count (thr s t) =? 0)
       && ((state (thr s t) =? THREAD_STATE_SUSPENDED) || (state (thr s t) =? THREAD_STATE_INITIALIZED))
    then s <~ mark_thread_ready s t 0 0; Ret (prevcount, s)
    else Ret (prevcount, s)
  else Ret (prevcount, s).

Definition get_thread_priority (s : sched) (t : nat) : Z := priority (thr s t).

Definition set_thread_priority (fuel : nat) (s : sched) (t : nat) (p : Z) : outcome (Z * sched) :=
  let both s := upd s t (fun x => set_priority (set_base_priority x p) p) in
  if (p <? 0) || (THREAD_PRIORITY_LEVELS <=? p) then Ret (- EINVAL, s)
  else if base_priority (thr s t) =? p then Ret (0, s)
  else if decide (t = cur s) then
    if p <? priority (thr s t) then
      s <~ mark_thread_ready (both s) t 0 0;
      s <~ dispatch fuel s; Ret (0, s)
    else Ret (0, both s)
  else if state (thr s t) =? THREAD_STATE_READY then
    s <~ remove_from_ready_queue s t;
    s <~ mark_thread_ready (upd (both s) t (fun x => set_state x THREAD_STATE_TRANSITION)) t 0 0;
    Ret (0, s)
  else Ret (0, both s).

(** The end of the timer interrupt handler, [timer_handler] in pit.c. *)
Definition QUANTUM_UNITS_PER_TICK : Z := 3.
Definition charge_tick (s : sched) (timerdpc : nat) (timer_dpc : Z) : sched :=
  let t := cur s in
  let s := upd s t (fun x => set_quantum x (s32 (quantum x - QUANTUM_UNITS_PER_TICK))) in
  let s := if quantum (thr s t) <=? 0 then set_preempt s 1 else s in
  queue_irq_dpc s timerdpc timer_dpc 0.

Definition system_idle (s : sched) : Z :=
  if negb (thread_ready_summary s =? 0) then 0
  else match dpc_queue_head s with Some _ => 0 | None => 1 end.

(** ** The operations as steps of the current thread and of interrupts *)

Inductive sched_op :=
  | Wait (reason : Z)
  | AlertableWait (reason : Z)
  | Awake                              (* the end of an alertable wait *)
  | Yield
  | Preempted
  | Tick (d : nat) (proc : Z)
  | Irq (d : nat) (proc arg : Z)       (* an interrupt handler queues a DPC *)
  | MakeReady (t : nat) (charge boost : Z)
  | Interrupt (t : nat)
  | Suspend (t : nat)
  | Resume (t : nat)
  | SetPriority (t : nat) (p : Z).

Definition exec_op (fuel : nat) (s : sched) (op : sched_op) : outcome sched :=
  match op with
  | Wait r => enter_wait fuel s r
  | AlertableWait r => '(_, s) <~ enter_alertable_wait fuel s r; Ret s
  | Awake => Ret (leave_alertable_wait s).2
  | Yield => yield fuel s
  | Preempted => preempt_thread fuel s
  | Tick d proc => Ret (charge_tick s d proc)
  | Irq d proc arg => Ret (queue_irq_dpc s d proc arg)
  | MakeReady t c b => mark_thread_ready s t c b
  | Interrupt t => '(_, s) <~ interrupt_thread s t; Ret s
  | Suspend t => '(_, s) <~ suspend_thread fuel s t; Ret s
  | Resume t => '(_, s) <~ resume_thread s t; Ret s
  | SetPriority t p => '(_, s) <~ set_thread_priority fuel s t p; Ret s
  end.

(** The code that makes a thread ready has taken it from a queue of waiting threads:
    it is not the current one.  The DPCs of a step are bounded by its [fuel]. *)
Inductive sched_step : sched -> sched -> Prop :=
  | sched_step_op fuel s op s' :
      (forall t c b, op = MakeReady t c b -> t <> cur s) ->
      exec_op fuel s op = Ret s' -> sched_step s s'.
End Dispatch.

(** ** The queues and the summary *)

Definition valid_prio (p : Z) : Prop := 0 <= p < THREAD_PRIORITY_LEVELS.

(** [q p] lists the threads of the queue for priority [p]. *)
Record rq (k : links nat) (r : Z -> ends) (m : Z) (q : Z -> list nat) : Prop := {
  rq_dl : forall p, valid_prio p -> dl k (r p) (q p);
  rq_disj : forall p p' t, valid_prio p -> valid_prio p' -> t ∈ q p -> t ∈ q p' -> p = p';
  rq_sum : forall p, valid_prio p -> Z.testbit m p = bool_decide (q p <> []);
  rq_u32 : is_u32 m;
}.

Definition srq (s : sched) : (Z -> list nat) -> Prop :=
  rq (rlinks s) (readyq s) (thread_ready_summary s).

Lemma u32_testbit_low x i : 0 <= i < 32 -> Z.testbit (u32 x) i = Z.testbit x i.
Proof. intros Hi. unfold u32, uwrap. by rewrite Z.mod_pow2_bits_low by lia. Qed.

Lemma u32_bit x i : is_u32 x -> 32 <= i -> Z.testbit x i = false.
Proof.
  intros Hx Hi. apply testbit_small. unfold is_u32 in Hx.
  pose proof (Z.pow_le_mono_r 2 32 i). lia.
Qed.

Lemma summary_set m p p' : is_u32 m -> valid_prio p -> valid_prio p' ->
  Z.testbit (Z.lor m (u32 (Z.shiftl 1 p))) p' = (p =? p') || Z.testbit m p'.
Proof.
  unfold valid_prio, THREAD_PRIORITY_LEVELS. intros Hm Hp Hp'.
  rewrite Z.lor_spec, u32_testbit_low, Z.shiftl_1_l, Z.pow2_bits_eqb by lia. apply orb_comm.
Qed.

Lemma summary_clear m p p' : is_u32 m -> valid_prio p -> valid_prio p' ->
  Z.testbit (Z.land m (u32 (Z.lnot (Z.shiftl 1 p)))) p' = negb (p =? p') && Z.testbit m p'.
Proof.
  unfold valid_prio, THREAD_PRIORITY_LEVELS. intros Hm Hp Hp'.
  rewrite Z.land_spec, u32_testbit_low, Z.lnot_spec, Z.shiftl_1_l, Z.pow2_bits_eqb by lia.
  apply andb_comm.
Qed.

Lemma u32_lor x y : is_u32 x -> is_u32 y -> is_u32 (Z.lor x y).
Proof.
  intros Hx Hy. apply is_u32_bits; [apply Z.lor_nonneg; unfold is_u32 in *; lia|].
  intros n Hn. by rewrite Z.lor_spec, !u32_bit.
Qed.

Lemma u32_land x y : is_u32 x -> is_u32 (Z.land x y).
Proof.
  intros Hx. apply is_u32_bits; [apply Z.land_nonneg; unfold is_u32 in *; lia|].
  intros n Hn. by rewrite Z.land_spec, u32_bit.
Qed.

#[local] Hint Resolve u32_lor u32_land : krlean.

(** A queue is replaced, the links of its threads being the only ones to change. *)
Lemma rq_update k r m q p k' e' m' (l l' : list nat) :
  rq k r m q -> valid_prio p -> dl k' e' l' ->
  (forall y, y ∉ l -> nx k' y = nx k y /\ pv k' y = pv k y) ->
  (forall p' y, valid_prio p' -> p' <> p -> y ∈ q p' -> (y ∉ l) /\ (y ∉ l')) ->
  (forall p', valid_prio p' ->
     Z.testbit m' p' = (if p =? p' then bool_decide (l' <> []) else Z.testbit m p')) ->
  is_u32 m' -> rq k' (<[p := e']> r) m' (<[p := l']> q).
Proof.
  intros [Hd Hj Hs Hu] Hp Hd' Hk Hl Hm Hu'. split; [| | |done].
  - intros p' Hp'. destruct (decide (p' = p)) as [->|].
    + by rewrite !fn_lookup_insert.
    + rewrite !fn_lookup_insert_ne by done. eapply dl_ext; [|by apply Hd].
      intros y Hy. apply Hk. by eapply Hl.
  - intros p1 p2 t H1 H2.
    destruct (decide (p1 = p)) as [->|], (decide (p2 = p)) as [->|];
      rewrite ?fn_lookup_insert, ?fn_lookup_insert_ne by done; [done| | |by apply Hj].
    + intros Ht1 Ht2. by destruct (Hl _ _ H2 ltac:(done) Ht2).
    + intros Ht1 Ht2. by destruct (Hl _ _ H1 ltac:(done) Ht1).
  - intros p' Hp'. rewrite Hm by done. destruct (Z.eqb_spec p p') as [<-|].
    + by rewrite fn_lookup_insert.
    + rewrite fn_lookup_insert_ne by done. by apply Hs.
Qed.

Lemma rq_others k r m q p p' y (l : list nat) : rq k r m q -> valid_prio p -> valid_prio p' ->
  p' <> p -> (forall z, z ∈ l -> z ∈ q p \/ (forall p, valid_prio p -> z ∉ q p)) ->
  y ∈ q p' -> y ∉ l.
Proof.
  intros Hq Hp Hp' Hne Hl Hy [Hz|Hz]%Hl; [|by eapply Hz].
  by pose proof (rq_disj _ _ _ _ Hq p p' y Hp Hp' Hz Hy) as ->.
Qed.

Lemma queue_at_valid s p : valid_prio p -> queue_at s p = Ret (readyq s p).
Proof.
  unfold queue_at, valid_prio. intros [H1 H2].
  by rewrite (proj2 (Z.leb_le _ _) H1), (proj2 (Z.ltb_lt _ _) H2).
Qed.

Lemma rq_summary_push k r m q p l' : rq k r m q -> valid_prio p -> q p = [] -> l' <> @nil nat ->
  let m' := Z.lor m (u32 (Z.shiftl 1 p)) in
  is_u32 m' /\ forall p', valid_prio p' ->
    Z.testbit m' p' = (if p =? p' then bool_decide (l' <> []) else Z.testbit m p').
Proof.
  intros Hq Hp Hq0 Hl' m'. pose proof (rq_u32 _ _ _ _ Hq). split.
  - apply u32_lor; [done|apply u32_range].
  - intros p' Hp'. unfold m'. rewrite summary_set by done. destruct (p =? p'); [|done].
    by rewrite bool_decide_true.
Qed.

Lemma rq_summary_same k r m q p l' : rq k r m q -> valid_prio p -> q p <> [] -> l' <> @nil nat ->
  forall p', valid_prio p' ->
    Z.testbit m p' = (if p =? p' then bool_decide (l' <> []) else Z.testbit m p').
Proof.
  intros Hq Hp Hne Hl' p' Hp'. destruct (Z.eqb_spec p p') as [<-|]; [|done].
  by rewrite (rq_sum _ _ _ _ Hq), !bool_decide_true.
Qed.

Lemma rq_summary_pop k r m q p : rq k r m q -> valid_prio p ->
  let m' := Z.land m (u32 (Z.lnot (Z.shiftl 1 p))) in
  is_u32 m' /\ forall p', valid_prio p' ->
    Z.testbit m' p' = (if p =? p' then bool_decide (@nil nat <> []) else Z.testbit m p').
Proof.
  intros Hq Hp m'. pose proof (rq_u32 _ _ _ _ Hq). split; [by apply u32_land|].
  intros p' Hp'. unfold m'. rewrite summary_clear by done. destruct (p =? p'); [|done].
  by rewrite bool_decide_false by naive_solver.
Qed.

(** The result of a queue operation: only the queues change. *)
Definition requeued (s s' : sched) (q : Z -> list nat) : Prop :=
  exists k r m, s' = set_ready s k r m /\ rq k r m q.

Section Queue.
Context (s : sched) (q : Z -> list nat) (t : nat).
Context (Hq : srq s q) (Hp : valid_prio (priority (thr s t))).

Lemma insert_ready_head_spec :
  (forall p, valid_prio p -> t ∉ q p) ->
  exists s', insert_ready_head s t = Ret s'
    /\ requeued s s' (<[priority (thr s t) := t :: q (priority (thr s t))]> q).
Proof.
  intros Hn. unfold insert_ready_head. rewrite queue_at_valid by done. cbn [obind].
  set (p := priority (thr s t)) in *. pose proof (rq_dl _ _ _ _ Hq p Hp) as Hd.
  pose proof (dl_push_spec _ _ _ _ Hd (Hn p Hp)) as Hx.
  pose proof (dl_ends _ _ _ Hd) as He. unfold dl_push in Hx. rewrite He in Hx |- *.
  cbn [first last_] in Hx |- *.
  assert (Hoth : forall p' y, valid_prio p' -> p' <> p -> y ∈ q p' -> y ∉ t :: q p).
  { intros p' y Hp' Hne. apply (rq_others _ _ _ _ p p' y _ Hq Hp Hp' Hne). intros z.
    rewrite elem_of_cons. intros [->|]; auto. }
  destruct (q p) as [|h l] eqn:Hqp; cbn [head] in Hx |- *.
  - eexists. split; [reflexivity|]. eexists _, _, _. split; [reflexivity|].
    destruct (rq_summary_push _ _ _ _ p [t] Hq Hp Hqp) as [H1 H2]; [done|].
    eapply rq_update; [exact Hq|done|exact (proj1 Hx)|exact (proj2 Hx)| |exact H2|exact H1].
    intros p' y Hp' Hne Hy. split; by eapply Hoth.
  - eexists. split; [reflexivity|]. eexists _, _, _. split; [reflexivity|].
    replace (match last (h :: l) with Some _ => _ | None => _ end) with (last (h :: l)) in Hx
      by (destruct (last (h :: l)) eqn:Hl; [done|by apply last_None in Hl]).
    eapply rq_update; [exact Hq|done|exact (proj1 Hx)|exact (proj2 Hx)| | |apply Hq].
    + intros p' y Hp' Hne Hy. split; by eapply Hoth.
    + eapply rq_summary_same; [done|done|by rewrite Hqp|done].
Qed.

Lemma insert_ready_tail_spec :
  (forall p, valid_prio p -> t ∉ q p) ->
  exists s', insert_ready_tail s t = Ret s'
    /\ requeued s s' (<[priority (thr s t) := q (priority (thr s t)) ++ [t]]> q).
Proof.
  intros Hn. unfold insert_ready_tail. rewrite queue_at_valid by done. cbn [obind].
  set (p := priority (thr s t)) in *. pose proof (rq_dl _ _ _ _ Hq p Hp) as Hd.
  pose proof (dl_append_spec _ _ _ _ Hd (Hn p Hp)) as Hx.
  pose proof (dl_ends _ _ _ Hd) as He. unfold dl_append in Hx. rewrite He in Hx |- *.
  cbn [first last_] in Hx |- *.
  assert (Hoth : forall p' y, valid_prio p' -> p' <> p -> y ∈ q p' -> y ∉ q p ++ [t]).
  { intros p' y Hp' Hne. apply (rq_others _ _ _ _ p p' y _ Hq Hp Hp' Hne). intros z.
    rewrite elem_of_app, list_elem_of_singleton. intros [?| ->]; auto. }
  assert (Hne0 : q p ++ [t] <> []) by (by destruct (q p)).
  destruct (last (q p)) as [z|] eqn:Hl.
  - eexists. split; [reflexivity|]. eexists _, _, _. split; [reflexivity|].
    replace (match head (q p) with Some _ => _ | None => _ end) with (head (q p)) in Hx
      by (by destruct (q p)).
    eapply rq_update; [exact Hq|done|exact (proj1 Hx)|exact (proj2 Hx)| | |apply Hq].
    + intros p' y Hp' Hne Hy. split; by eapply Hoth.
    + eapply rq_summary_same; [done|done|by intros Hz; rewrite Hz in Hl|done].
  - apply last_None in Hl. rewrite Hl in *. cbn [head app] in *.
    eexists. split; [reflexivity|]. eexists _, _, _. split; [reflexivity|].
    destruct (rq_summary_push _ _ _ _ p [t] Hq Hp Hl) as [H1 H2]; [done|].
    eapply rq_update; [exact Hq|done|exact (proj1 Hx)|exact (proj2 Hx)| |exact H2|exact H1].
    intros p' y Hp' Hne Hy. split; by eapply Hoth.
Qed.

Lemma remove_from_ready_queue_spec a b :
  q (priority (thr s t)) = a ++ t :: b ->
  exists s', remove_from_ready_queue s t = Ret s'
    /\ requeued s s' (<[priority (thr s t) := a ++ b]> q).
Proof.
  intros Hab. unfold remove_from_ready_queue. rewrite queue_at_valid by done. cbn [obind].
  set (p := priority (thr s t)) in *. pose proof (rq_dl _ _ _ _ Hq p Hp) as Hd.
  rewrite Hab in Hd. pose proof (dl_remove_spec _ _ _ _ _ Hd) as Hx.
  destruct (dl_remove (rlinks s) (readyq s p) t) as [k' e']. destruct Hx as (Hd' & Hk & _).
  eexists. split; [reflexivity|]. eexists _, _, _. split; [reflexivity|].
  assert (Hsub : forall p' y, valid_prio p' -> p' <> p -> y ∈ q p' -> y ∉ a ++ b).
  { intros p' y Hp' Hne. apply (rq_others _ _ _ _ p p' y _ Hq Hp Hp' Hne).
    intros z. rewrite Hab. set_solver. }
  pose proof (dl_last _ _ _ Hd') as Hl.
  assert (Hm : let m' := match last_ e' with
      | None => Z.land (thread_ready_summary s) (u32 (Z.lnot (Z.shiftl 1 p)))
      | Some _ => thread_ready_summary s end in
    is_u32 m' /\ forall p', valid_prio p' ->
      Z.testbit m' p' = (if p =? p' then bool_decide (a ++ b <> []) else
        Z.testbit (thread_ready_summary s) p')).
  { rewrite Hl. destruct (last (a ++ b)) eqn:Hlast.
    - split; [apply Hq|]. eapply rq_summary_same; [exact Hq|done|by rewrite Hab; destruct a|].
      intros Hz. by rewrite Hz in Hlast.
    - apply last_None in Hlast. rewrite Hlast. by eapply rq_summary_pop. }
  eapply rq_update; [exact Hq|done|exact Hd'|exact Hk| |apply Hm|apply Hm].
  intros p' y Hp' Hne Hy. split; by eapply Hsub.
Qed.
End Queue.

(** [p] is the highest priority with a queue that is not empty. *)
Definition top (q : Z -> list nat) (p : Z) : Prop :=
  valid_prio p /\ q p <> [] /\ forall p', valid_prio p' -> p < p' -> q p' = [].

Lemma summary_zero k r m q : rq k r m q -> m = 0 <-> forall p, valid_prio p -> q p = [].
Proof.
  intros Hq. split.
  - intros -> p Hp. pose proof (rq_sum _ _ _ _ Hq p Hp) as Hs. rewrite Z.bits_0 in Hs.
    symmetry in Hs. apply bool_decide_eq_false in Hs. by destruct (q p); [|destruct Hs].
  - intros He. apply Z.bits_inj_iff'. intros i Hi. rewrite Z.bits_0.
    destruct (decide (i < 32)).
    + assert (Hp : valid_prio i) by (unfold valid_prio, THREAD_PRIORITY_LEVELS; lia).
      rewrite (rq_sum _ _ _ _ Hq i Hp), He by done. apply bool_decide_eq_false_2. naive_solver.
    + apply u32_bit; [apply Hq|lia].
Qed.

Lemma summary_top k r m q : rq k r m q -> m <> 0 -> top q (find_highest_bit m).
Proof.
  intros Hq Hm. pose proof (rq_u32 _ _ _ _ Hq) as Hu. unfold is_u32 in Hu.
  rewrite find_highest_bit_correct by lia.
  assert (Hv : valid_prio (Z.log2 m)).
  { unfold valid_prio, THREAD_PRIORITY_LEVELS. pose proof (Z.log2_nonneg m).
    pose proof (Z.log2_lt_pow2 m 32). lia. }
  split; [done|]. split.
  - pose proof (rq_sum _ _ _ _ Hq _ Hv) as Hs. rewrite Z.bit_log2 in Hs by lia.
    symmetry in Hs. by apply bool_decide_eq_true in Hs.
  - intros p' Hp' Hlt. pose proof (rq_sum _ _ _ _ Hq p' Hp') as Hs.
    rewrite Z.bits_above_log2 in Hs by lia. symmetry in Hs.
    apply bool_decide_eq_false in Hs. by destruct (q p'); [|destruct Hs].
Qed.

(** [find_ready_thread] removes the head of the highest queue that is not empty. *)
Lemma find_ready_thread_spec s q :
  srq s q ->
  ((forall p, valid_prio p -> q p = []) /\ find_ready_thread s = Ret (None, s))
  \/ exists p t l s', top q p /\ q p = t :: l
      /\ find_ready_thread s = Ret (Some t, s') /\ requeued s s' (<[p := l]> q).
Proof.
  intros Hq. unfold find_ready_thread. destruct (Z.eqb_spec (thread_ready_summary s) 0) as [Hz|Hz].
  { left. split; [|done]. by apply (summary_zero _ _ _ _ Hq). }
  right. pose proof (summary_top _ _ _ _ Hq Hz) as Ht.
  set (p := find_highest_bit (thread_ready_summary s)) in *. pose proof Ht as (Hp & Hne & _).
  rewrite queue_at_valid by done. cbn [obind].
  pose proof (rq_dl _ _ _ _ Hq p Hp) as Hd. rewrite (dl_first _ _ _ Hd).
  destruct (q p) as [|t l] eqn:Hqp; [done|]. cbn [head deref obind].
  exists p, t, l. rewrite (dl_next _ _ [] t l Hd).
  pose proof (dl_remove_spec _ _ [] t l Hd) as Hx. unfold dl_remove in Hx.
  rewrite (dl_next _ _ [] t l Hd), (dl_prev _ _ [] t l Hd) in Hx. cbn [last set_nx_of] in Hx.
  assert (Htl : t ∉ l) by (by apply dl_nodup, NoDup_cons in Hd as [? _]).
  assert (Hext : forall k' e', dl k' e' l ->
      (forall y, y ∉ l -> nx k' y = nx (rlinks s) y /\ pv k' y = pv (rlinks s) y) ->
      let k1 := set_pv (set_nx k' t None) t None in
      dl k1 e' l /\ forall y, y ∉ t :: l -> nx k1 y = nx (rlinks s) y /\ pv k1 y = pv (rlinks s) y).
  { intros k' e' Hk' Hy. split.
    - eapply dl_ext; [|exact Hk']. intros y Hin. simpl.
      rewrite !fn_lookup_insert_ne by set_solver. done.
    - intros y Hin. simpl. rewrite !fn_lookup_insert_ne by set_solver. apply Hy. set_solver. }
  assert (Hoth : forall p' y, valid_prio p' -> p' <> p -> y ∈ q p' -> (y ∉ t :: l) /\ (y ∉ l)).
  { intros p' y Hp' Hn Hy. assert (y ∉ t :: l); [|set_solver].
    apply (rq_others _ _ _ _ p p' y _ Hq Hp Hp' Hn); [|done]. rewrite Hqp. auto. }
  destruct l as [|n l]; cbn [head set_pv_of] in Hx |- *.
  - eexists. split; [exact Ht|]. split; [done|]. split; [reflexivity|].
    eexists _, _, _. split; [reflexivity|].
    destruct (Hext (rlinks s) no_ends (dl_nil _)) as [H1 H2]; [done|].
    pose proof (rq_summary_pop _ _ _ _ p Hq Hp) as [H3 H4].
    eapply rq_update; [exact Hq|done|exact H1|exact H2|exact Hoth|exact H4|exact H3].
  - eexists. split; [exact Ht|]. split; [done|]. split; [reflexivity|].
    eexists _, _, _. split; [reflexivity|].
    assert (Hpvt : pv (set_pv (rlinks s) n None) t = None).
    { simpl. rewrite fn_lookup_insert_ne by set_solver. apply (dl_prev _ _ [] t _ Hd). }
    rewrite Hpvt in Hx. cbn [set_nx_of] in Hx.
    change (nx (set_pv (rlinks s) n None) t) with (nx (rlinks s) t) in Hx.
    rewrite (dl_next _ _ [] t _ Hd) in Hx. cbn [head] in Hx. destruct Hx as (H1 & H2 & _).
    rewrite (dl_first _ _ _ Hd), (decide_True (P:=head _ = _)) in H1 by done.
    rewrite decide_False in H1.
    2:{ rewrite (dl_last _ _ _ Hd). cbn [app last]. intros Heq.
        apply Htl, last_Some_elem_of. exact Heq. }
    destruct (Hext _ _ H1 H2) as [H3 H4].
    eapply rq_update; [exact Hq|done|exact H3|exact H4|exact Hoth| |apply Hq].
    eapply rq_summary_same; [exact Hq|done|by rewrite Hqp|done].
Qed.

(** ** The invariant of the scheduler *)

Definition thread_ok (x : thread) : Prop :=
  valid_prio (priority x) /\ valid_prio (base_priority x) /\ is_s32 (suspend_count x).

(** [ready q s]: the queues [q] hold the threads that are ready, each in the queue for
    its priority. *)
Record ready (q : Z -> list nat) (s : sched) : Prop := {
  ready_rq : srq s q;
  ready_in : forall p t, valid_prio p ->
    t ∈ q p <-> state (thr s t) = THREAD_STATE_READY /\ priority (thr s t) = p;
  ready_prio : forall t, thread_ok (thr s t);
  ready_susp : forall t, state (thr s t) = THREAD_STATE_READY -> suspend_count (thr s t) <= 0;
}.

(** Only the current thread is running. *)
Definition one_running (s : sched) : Prop :=
  forall t, state (thr s t) = THREAD_STATE_RUNNING -> t = cur s.

Definition outranks (s : sched) : Prop :=
  forall t, state (thr s t) = THREAD_STATE_READY -> priority (thr s t) <= priority (thr s (cur s)).

(** Between two operations: the current thread runs, and [preempt] is set if a thread
    with a higher priority is ready. *)
Record sched_inv (s : sched) : Prop := {
  si_ready : exists q, ready q s;
  si_running : state (thr s (cur s)) = THREAD_STATE_RUNNING;
  si_one : one_running s;
  si_susp : suspend_count (thr s (cur s)) <= 0;
  si_preempt : preempt s = 0 -> outranks s;
}.

Lemma upd_eq s t f : thr (upd s t f) t = f (thr s t).
Proof. unfold upd. simpl. apply fn_lookup_insert. Qed.

Lemma cur_upd s t f : cur (upd s t f) = cur s.
Proof. done. Qed.

Lemma upd_ne s t f t' : t' <> t -> thr (upd s t f) t' = thr s t'.
Proof. intros. unfold upd. simpl. by rewrite fn_lookup_insert_ne. Qed.

(** A store that leaves state and priority of a thread alone keeps the queues; so does
    any change of a thread that is not ready before and after. *)
Lemma ready_upd q s t f :
  ready q s ->
  state (thr s t) <> THREAD_STATE_READY -> state (f (thr s t)) <> THREAD_STATE_READY ->
  thread_ok (f (thr s t)) -> ready q (upd s t f).
Proof.
  intros [H1 H2 H3 H4] Hs Hs' Hp. split; [done| | |].
  - intros p t' Hp'. destruct (decide (t' = t)) as [->|]; [|rewrite upd_ne by done; exact (H2 p t' Hp')].
    rewrite upd_eq, H2 by done. naive_solver.
  - intros t'. destruct (decide (t' = t)) as [->|]; [by rewrite upd_eq|by rewrite upd_ne].
  - intros t'. destruct (decide (t' = t)) as [->|]; [by rewrite upd_eq|].
    rewrite upd_ne by done. apply H4.
Qed.

Lemma ready_upd_same q s t f :
  ready q s -> state (f (thr s t)) = state (thr s t) ->
  priority (f (thr s t)) = priority (thr s t) ->
  base_priority (f (thr s t)) = base_priority (thr s t) ->
  suspend_count (f (thr s t)) = suspend_count (thr s t) -> ready q (upd s t f).
Proof.
  intros [H1 H2 H3 H4] Es Ep Eb Ec. split; [done| | |].
  - intros p t' Hp'. destruct (decide (t' = t)) as [->|]; [|rewrite upd_ne by done; exact (H2 p t' Hp')].
    rewrite upd_eq, Es, Ep. exact (H2 p t Hp').
  - intros t'. destruct (decide (t' = t)) as [->|]; [|by rewrite upd_ne].
    rewrite upd_eq. unfold thread_ok. rewrite Ep, Eb, Ec. apply H3.
  - intros t'. destruct (decide (t' = t)) as [->|]; [|rewrite upd_ne by done; apply H4].
    rewrite upd_eq, Es, Ec. apply H4.
Qed.

(** A thread becomes ready and enters its queue. *)
Lemma ready_enter q s s' t l1 l2 p :
  ready q s -> state (thr s t) <> THREAD_STATE_READY ->
  (forall t', t' <> t -> thr s' t' = thr s t') -> srq s' (<[p := l1 ++ t :: l2]> q) ->
  q p = l1 ++ l2 ->
  priority (thr s' t) = p -> state (thr s' t) = THREAD_STATE_READY ->
  suspend_count (thr s' t) <= 0 -> thread_ok (thr s' t) ->
  ready (<[p := l1 ++ t :: l2]> q) s'.
Proof.
  intros [H1 H2 H3 H4] Hs Ht Hq Hqp Hp Hst Hsu Hok. split; [done| | |].
  - intros p' t' Hp'. destruct (decide (p' = p)) as [->|].
    + rewrite fn_lookup_insert. destruct (decide (t' = t)) as [->|].
      * split; [done|]. set_solver.
      * rewrite Ht, <- (H2 p t' Hp'), Hqp by done. set_solver.
    + rewrite fn_lookup_insert_ne by done. destruct (decide (t' = t)) as [->|].
      * rewrite (H2 p' t Hp'). split; [by intros []|]. intros [_ Hx]. congruence.
      * rewrite Ht by done. exact (H2 p' t' Hp').
  - intros t'. destruct (decide (t' = t)) as [->|]; [done|]. by rewrite Ht.
  - intros t'. destruct (decide (t' = t)) as [->|]; [done|]. rewrite Ht by done. apply H4.
Qed.

(** A thread leaves its queue and is no longer ready. *)
Lemma ready_leave q s s' t a b p :
  ready q s -> (forall t', t' <> t -> thr s' t' = thr s t') -> srq s' (<[p := a ++ b]> q) ->
  valid_prio p -> q p = a ++ t :: b -> state (thr s' t) <> THREAD_STATE_READY ->
  thread_ok (thr s' t) -> ready (<[p := a ++ b]> q) s'.
Proof.
  intros [H1 H2 H3 H4] Ht Hq Hv Hqp Hs Hok. split; [done| | |].
  - assert (Hn : NoDup (a ++ t :: b)) by (rewrite <- Hqp; eapply dl_nodup, (rq_dl _ _ _ _ H1 p Hv)).
    apply NoDup_app in Hn as (_ & Hab & [Htb _]%NoDup_cons).
    assert (Hin : t ∈ q p) by (rewrite Hqp; set_solver).
    intros p' t' Hp'. destruct (decide (p' = p)) as [->|].
    + rewrite fn_lookup_insert. destruct (decide (t' = t)) as [->|].
      * split; [set_solver|]. by intros [].
      * rewrite Ht, <- (H2 p t' Hp'), Hqp by done. set_solver.
    + rewrite fn_lookup_insert_ne by done. destruct (decide (t' = t)) as [->|].
      * split; [|by intros []]. intros Hx.
        destruct (rq_disj _ _ _ _ H1 p p' t Hv Hp' Hin Hx). done.
      * rewrite Ht by done. exact (H2 p' t' Hp').
  - intros t'. destruct (decide (t' = t)) as [->|]; [done|]. by rewrite Ht.
  - intros t'. destruct (decide (t' = t)) as [->|]; [done|]. rewrite Ht by done. apply H4.
Qed.

(** What the operations on threads leave alone. *)
Definition dpc_part (s : sched) :=
  (dpcs s, dpc_queue_head s, dpc_queue_tail s, in_dpc s, dpc_total s, dpc_lost s, dpc_calls s).

Definition queues_of (s : sched) := (rlinks s, readyq s, thread_ready_summary s).

Record only (t : nat) (s s' : sched) : Prop := {
  only_thr : forall t', t' <> t -> thr s' t' = thr s t';
  only_cur : cur s' = cur s;
  only_dpc : dpc_part s' = dpc_part s;
}.

Lemma only_refl t s : only t s s.
Proof. by split. Qed.

Lemma only_trans t s1 s2 s3 : only t s1 s2 -> only t s2 s3 -> only t s1 s3.
Proof.
  intros [A1 A2 A3] [B1 B2 B3]. split; [|congruence|congruence].
  intros t' H. by rewrite B1, A1.
Qed.

Lemma only_upd t s f : only t s (upd s t f).
Proof. split; [|done|done]. intros t' H. by apply upd_ne. Qed.

Lemma only_requeued t s s' q : requeued s s' q -> only t s s' /\ thr s' = thr s /\ preempt s' = preempt s.
Proof. by intros (k & r & m & -> & _). Qed.

#[local] Hint Resolve only_refl only_trans only_upd : krlean.

(** The priority and the thread that [mark_thread_ready] puts in a queue. *)
Definition boosted (x : thread) (boost : Z) : Z :=
  Z.max (priority x) (Z.min (s32 (base_priority x + boost)) PRIORITY_TIME_CRITICAL).

Definition has_quantum (x : thread) (charge : Z) : bool := 0 <? s32 (quantum x - charge).

Definition restarted (x : thread) (charge boost : Z) : thread :=
  let p := boosted x boost in
  let y := set_state x THREAD_STATE_READY in
  if has_quantum x charge then set_priority (set_quantum y (s32 (quantum x - charge))) p
  else set_priority (set_quantum y DEFAULT_QUANTUM) (if base_priority x <? p then p - 1 else p).

Definition enqueue (q : Z -> list nat) (x : thread) (head : bool) (t : nat) : Z -> list nat :=
  let p := priority x in <[p := if head then t :: q p else q p ++ [t]]> q.

Lemma boosted_valid x boost :
  valid_prio (priority x) -> priority x <= boosted x boost /\ valid_prio (boosted x boost).
Proof.
  unfold valid_prio, boosted, THREAD_PRIORITY_LEVELS, PRIORITY_TIME_CRITICAL. lia.
Qed.

Lemma restarted_facts x charge boost :
  thread_ok x ->
  let y := restarted x charge boost in
  state y = THREAD_STATE_READY /\ thread_ok y /\ suspend_count y = suspend_count x.
Proof.
  intros (Hp & Hb & Hc). pose proof (boosted_valid x boost Hp) as [_ Hv]. unfold restarted.
  unfold thread_ok, valid_prio in *. destruct (has_quantum _ _); simpl; split_and!; try done; try lia.
  all: destruct (Z.ltb_spec (base_priority x) (boosted x boost)); lia.
Qed.

(** The thread after the steps of [mark_thread_ready] before it enters a queue. *)
Lemma mark_ready_prefix s t charge boost :
  let x := thr s t in
  let s1 := upd s t (fun x => set_quantum x (s32 (quantum x - charge))) in
  let np := s32 (base_priority x + boost) in
  let np := if PRIORITY_TIME_CRITICAL <? np then PRIORITY_TIME_CRITICAL else np in
  let s2 := if priority x <? np then upd s1 t (fun x => set_priority x np) else s1 in
  let s3 := upd s2 t (fun x => set_state x THREAD_STATE_READY) in
  only t s s3 /\ queues_of s3 = queues_of s /\ preempt s3 = preempt s
  /\ thr s3 t = set_priority (set_quantum (set_state x THREAD_STATE_READY) (s32 (quantum x - charge)))
                  (boosted x boost).
Proof.
  intros x s1 np0 np s2 s3.
  assert (Hb : boosted x boost = if priority x <? np then np else priority x).
  { unfold boosted, np, np0, PRIORITY_TIME_CRITICAL.
    destruct (Z.ltb_spec 15 (s32 (base_priority x + boost)));
      [destruct (Z.ltb_spec (priority x) 15)
      |destruct (Z.ltb_spec (priority x) (s32 (base_priority x + boost)))]; lia. }
  rewrite Hb. unfold s3, s2, s1. destruct (priority x <? np).
  - split_and!; [eauto with krlean|done|done|]. rewrite !upd_eq. reflexivity.
  - split_and!; [eauto with krlean|done|done|]. rewrite !upd_eq. reflexivity.
Qed.

(** The insertion at the end of [mark_thread_ready]. *)
Lemma enqueue_spec q s s1 t (h : bool) :
  ready q s -> state (thr s t) <> THREAD_STATE_READY -> only t s s1 ->
  queues_of s1 = queues_of s ->
  let y := thr s1 t in
  state y = THREAD_STATE_READY -> suspend_count y <= 0 -> thread_ok y ->
  exists s', (if h then insert_ready_head s1 t else insert_ready_tail s1 t) = Ret s'
    /\ ready (enqueue q y h t) s' /\ only t s s' /\ thr s' t = y /\ preempt s' = preempt s1.
Proof.
  intros Hr Hs Ho Hq y Hy Hsu Hok. pose proof Hok as (Hp & _). unfold queues_of in Hq. injection Hq as H1 H2 H3.
  assert (Hq1 : srq s1 q) by (unfold srq; rewrite H1, H2, H3; apply Hr).
  assert (Hn : forall p, valid_prio p -> t ∉ q p).
  { intros p Hv Hin. apply (ready_in _ _ Hr p t Hv) in Hin. by destruct Hin. }
  assert (Hfin : forall s' l1 l2, requeued s1 s' (<[priority y := l1 ++ t :: l2]> q) ->
      q (priority y) = l1 ++ l2 ->
      ready (<[priority y := l1 ++ t :: l2]> q) s' /\ only t s s' /\ thr s' t = y
      /\ preempt s' = preempt s1).
  { intros s' l1 l2 Hrq Hl. pose proof (only_requeued t _ _ _ Hrq) as (Ho' & Ht & Hpre).
    pose proof (only_trans _ _ _ _ Ho Ho') as Hos. split_and!; [|done|by rewrite Ht|done].
    apply (ready_enter q s s' t l1 l2 (priority y)); rewrite ?Ht; try done.
    - intros t' Hne. rewrite <- Ht. by apply Hos.
    - destruct Hrq as (k & r & m & -> & Hrq). exact Hrq. }
  unfold enqueue. destruct h.
  - destruct (insert_ready_head_spec s1 q t Hq1 Hp Hn) as (s' & He & Hrq).
    exists s'. split; [done|]. by apply (Hfin s' []).
  - destruct (insert_ready_tail_spec s1 q t Hq1 Hp Hn) as (s' & He & Hrq).
    exists s'. split; [done|]. apply (Hfin s' _ []); [done|]. by rewrite app_nil_r.
Qed.

Lemma mark_thread_ready_spec q s t charge boost :
  ready q s -> state (thr s t) <> THREAD_STATE_READY -> suspend_count (thr s t) <= 0 ->
  let y := restarted (thr s t) charge boost in
  exists s', mark_thread_ready s t charge boost = Ret s'
    /\ ready (enqueue q y (has_quantum (thr s t) charge) t) s' /\ only t s s' /\ thr s' t = y
    /\ preempt s' = (if priority (thr s' (cur s')) <? priority y then 1 else preempt s).
Proof.
  intros Hr Hs Hsu y. unfold mark_thread_ready. set (x := thr s t) in *.
  rewrite (proj2 (Z.ltb_ge _ _)) by done. rewrite (proj2 (Z.eqb_neq _ _) Hs), andb_false_r.
  pose proof (mark_ready_prefix s t charge boost) as Hpre. cbv zeta in Hpre. cbv zeta.
  fold x in Hpre |- *. set (s3 := upd _ t (fun x => set_state x THREAD_STATE_READY)) in *.
  destruct Hpre as (Ho & Hqu & Hpp & Ht). clearbody s3.
  pose proof (ready_prio _ _ Hr t) as Hok. fold x in Hok.
  pose proof (restarted_facts x charge boost Hok) as (Y1 & Y2 & Y3). fold y in Y1, Y2, Y3.
  assert (Hins : exists s4, (if 0 <? quantum (thr s3 t) then insert_ready_head s3 t
      else
        let s := upd s3 t (fun x => set_quantum x DEFAULT_QUANTUM) in
        let s := if base_priority (thr s t) <? priority (thr s t)
                 then upd s t (fun x => set_priority x (priority x - 1)) else s in
        insert_ready_tail s t) = Ret s4
      /\ ready (enqueue q y (has_quantum x charge) t) s4 /\ only t s s4 /\ thr s4 t = y
      /\ preempt s4 = preempt s).
  { assert (Hc : (0 <? quantum (thr s3 t)) = has_quantum x charge) by (by rewrite Ht).
    rewrite Hc. destruct (has_quantum x charge) eqn:Hh.
    - assert (Hx : thr s3 t = y) by (rewrite Ht; unfold y, restarted; by rewrite Hh).
      destruct (enqueue_spec q s s3 t true Hr Hs Ho Hqu) as (s' & A & B & C & D & E);
        rewrite ?Hx; try done; [by rewrite Y3|].
      exists s'. rewrite Hx in B, D. split_and!; try done. congruence.
    - cbv zeta. set (s4 := upd s3 t (fun x => set_quantum x DEFAULT_QUANTUM)).
      set (s5 := if base_priority (thr s4 t) <? priority (thr s4 t) then _ else s4).
      assert (Hx : only t s s5 /\ queues_of s5 = queues_of s /\ preempt s5 = preempt s
        /\ thr s5 t = y).
      { unfold s5, s4, y, restarted. rewrite Hh, !upd_eq, Ht. simpl.
        destruct (base_priority x <? boosted x boost).
        - split_and!; [eauto with krlean|done|done|]. by rewrite !upd_eq, Ht.
        - split_and!; [eauto with krlean|done|done|]. by rewrite !upd_eq, Ht. }
      destruct Hx as (Ho5 & Hq5 & Hp5 & Hx). clearbody s5.
      destruct (enqueue_spec q s s5 t false Hr Hs Ho5 Hq5) as (s' & A & B & C & D & E);
        rewrite ?Hx; try done; [by rewrite Y3|].
      exists s'. rewrite Hx in B, D. split_and!; try done. congruence. }
  cbv zeta in Hins. destruct Hins as (s4 & -> & B & C & D & E). cbn [obind].
  destruct (priority (thr s4 (cur s4)) <? priority (thr s4 t)) eqn:Hpr.
  - exists (set_preempt s4 1). split; [done|]. split_and!.
    + destruct B as [B1 B2 B3 B4]. by split.
    + destruct C as [C1 C2 C3]. by split.
    + done.
    + cbn [set_preempt preempt thr cur]. by rewrite <- D, Hpr.
  - exists s4. split_and!; try done. by rewrite <- D, Hpr.
Qed.

(** A thread that is not ready, or is ready because it was interrupted, can always be
    marked as ready. *)
Lemma mark_ready_total s t charge boost :
  (exists q, ready q s) ->
  (state (thr s t) = THREAD_STATE_READY -> truthy (Z.land (flags (thr s t)) THREAD_INTERRUPTED) = true) ->
  exists s', mark_thread_ready s t charge boost = Ret s' /\ (exists q, ready q s') /\ only t s s'
    /\ (state (thr s' t) = THREAD_STATE_READY \/ state (thr s' t) = THREAD_STATE_SUSPENDED).
Proof.
  intros [q Hq] Hi. destruct (decide (0 < suspend_count (thr s t))) as [Hs|Hs].
  { unfold mark_thread_ready. cbv zeta. rewrite (proj2 (Z.ltb_lt _ _) Hs). eexists.
    assert (state (thr s t) <> THREAD_STATE_READY).
    { intros Hr. pose proof (ready_susp _ _ Hq t Hr). lia. }
    split_and!; [done| |apply only_upd|right; by rewrite upd_eq].
    exists q. pose proof (ready_prio _ _ Hq t). by apply ready_upd. }
  destruct (decide (state (thr s t) = THREAD_STATE_READY)) as [Hr|Hr].
  { exists s. unfold mark_thread_ready. cbv zeta. rewrite (proj2 (Z.ltb_ge _ _)) by lia.
    rewrite (Hi Hr), (proj2 (Z.eqb_eq _ _) Hr). split_and!; [done|by exists q|apply only_refl|by left]. }
  destruct (mark_thread_ready_spec q s t charge boost Hq Hr ltac:(lia)) as (s' & He & Hr' & Ho & Ht & _).
  exists s'. split_and!; [done|by eexists|done|]. left. rewrite Ht.
  apply restarted_facts, (ready_prio _ _ Hq).
Qed.

(** ** [dispatch] *)

Definition not_running (s s' : sched) : Prop :=
  forall t, state (thr s' t) = THREAD_STATE_RUNNING -> state (thr s t) = THREAD_STATE_RUNNING.

(** What DPC procedures may do: anything that keeps the ready queues in order, except to
    start threads or to switch stacks.  They may call [mark_thread_ready]. *)
Definition dpc_contract (call : Z -> Z -> sched -> outcome sched) : Prop :=
  forall proc arg s, (exists q, ready q s) ->
    match call proc arg s with
    | Ret s' => (exists q, ready q s') /\ cur s' = cur s /\ not_running s s'
    | Fault => False
    | Panic | Diverge => True
    end.

Lemma ready_ext q s s' : thr s' = thr s -> queues_of s' = queues_of s -> ready q s -> ready q s'.
Proof.
  intros Ht Hq [H1 H2 H3 H4]. injection Hq as E1 E2 E3.
  split; rewrite ?Ht; try done. unfold srq. by rewrite E1, E2, E3.
Qed.

(** The next thread becomes the current one. *)
Lemma switch_spec q s s' p t l x :
  ready q s -> top q p -> q p = t :: l ->
  srq s' (<[p := l]> q) -> cur s' = t -> thr s' t = x ->
  (forall t', t' <> t -> thr s' t' = thr s t') ->
  state x = THREAD_STATE_RUNNING -> priority x = priority (thr s t) ->
  base_priority x = base_priority (thr s t) -> suspend_count x = suspend_count (thr s t) ->
  ready (<[p := l]> q) s' /\ outranks s'.
Proof.
  intros Hr (Hv & Hne & Habove) Hqp Hq Hc Hx Ht Hs Hp Hb Hsu.
  assert (Hin : state (thr s t) = THREAD_STATE_READY /\ priority (thr s t) = p)
    by (apply (ready_in _ _ Hr p t Hv); rewrite Hqp; set_solver).
  destruct Hin as [_ Hpt]. pose proof (ready_prio _ _ Hr t) as Hok.
  assert (Hr' : ready (<[p := [] ++ l]> q) s').
  { apply (ready_leave q s s' t [] l p); try done; unfold thread_ok;
      rewrite ?Hx, ?Hs, ?Hp, ?Hb, ?Hsu; done. }
  split; [exact Hr'|]. intros t' Hst. rewrite Hc, Hx, Hp, Hpt.
  destruct (decide (t' = t)) as [->|Hn]; [by rewrite Hx, Hs in Hst|].
  rewrite Ht in Hst |- * by done.
  destruct (decide (p < priority (thr s t'))) as [Hlt|]; [|lia].
  destruct (ready_prio _ _ Hr t') as (Hvt & _).
  pose proof (proj2 (ready_in _ _ Hr _ t' Hvt) (conj Hst eq_refl)) as Hi.
  rewrite (Habove _ Hvt Hlt) in Hi. set_solver.
Qed.

Section Invariant.
Context (call : Z -> Z -> sched -> outcome sched) (Hcall : dpc_contract call).

Definition keeps (c : sched -> outcome sched) : Prop :=
  forall s, (exists q, ready q s) ->
    match c s with
    | Ret s' => (exists q, ready q s') /\ cur s' = cur s /\ not_running s s'
    | Fault => False
    | Panic | Diverge => True
    end.

Lemma keeps_ext s s' c :
  keeps c -> thr s' = thr s -> queues_of s' = queues_of s -> cur s' = cur s ->
  (exists q, ready q s) ->
  match c s' with
  | Ret s2 => (exists q, ready q s2) /\ cur s2 = cur s /\ not_running s s2
  | Fault => False
  | Panic | Diverge => True
  end.
Proof.
  intros Hk Ht Hq Hc [q Hr]. specialize (Hk s' (ex_intro _ q (ready_ext q s s' Ht Hq Hr))).
  unfold not_running in *. rewrite Ht, Hc in Hk. exact Hk.
Qed.

Lemma run_dpc_keeps d : keeps (fun s => run_dpc call s d).
Proof.
  intros s Hr. unfold run_dpc. cbv zeta.
  set (s1 := dpc_flag s d (fun f => Z.land f (Z.lnot DPC_QUEUED))).
  destruct (truthy _).
  - split_and!; [|done|by intros t]. destruct Hr as [q Hr]. exists q. by apply (ready_ext q s).
  - set (s2 := dpc_flag s1 d (fun f => Z.lor f DPC_EXECUTING)).
    match goal with |- context [call ?p ?a ?s3] =>
      pose proof (keeps_ext s s3 (call p a) (Hcall p a) eq_refl eq_refl eq_refl Hr) as Hk;
      destruct (call p a s3) as [s4| | |] end; simpl; try done.
    destruct Hk as ([q Hq] & Hc & Hn). split_and!; [|done|done].
    exists q. by apply (ready_ext q s4).
Qed.

Lemma dpc_loop_keeps fuel : keeps (dpc_loop call fuel).
Proof.
  induction fuel as [|fuel IH]; intros s Hr; simpl; unfold get_next_dpc.
  - destruct (dpc_queue_head s); [done|]. split_and!; [done|done|by intros t].
  - destruct (dpc_queue_head s) as [d|].
    + match goal with |- context [run_dpc call ?s1 d] =>
        pose proof (keeps_ext s s1 _ (run_dpc_keeps d) eq_refl eq_refl eq_refl Hr) as Hk; simpl in Hk;
        destruct (run_dpc call s1 d) as [s2| | |] end; try done.
      destruct Hk as (Hr2 & Hc & Hn). cbn [obind]. specialize (IH s2 Hr2).
      destruct (dpc_loop call fuel s2) as [s3| | |]; try done.
      destruct IH as (Hr3 & Hc3 & Hn3). split_and!; [done|congruence|].
      intros t Ht. by apply Hn, Hn3.
    + split_and!; [done|done|by intros t].
Qed.

Lemma check_dpc_keeps fuel : keeps (check_dpc_queue call fuel).
Proof.
  intros s Hr. unfold check_dpc_queue, dispatch_dpc_queue.
  destruct (dpc_queue_head s); [|split_and!; [done|done|by intros t]].
  destruct (truthy (in_dpc s)); [done|].
  pose proof (keeps_ext s (set_in_dpc s 1) _ (dpc_loop_keeps fuel) eq_refl eq_refl eq_refl Hr) as Hk.
  destruct (dpc_loop call fuel (set_in_dpc s 1)) as [s2| | |]; try done. simpl.
  destruct Hk as ([q Hq] & Hc & Hn). split_and!; [|done|done]. exists q. by apply (ready_ext q s2).
Qed.

(** From a state in which no thread runs, [dispatch] leaves with a thread running that
    no ready thread outranks. *)
Lemma dispatch_inv fuel s :
  (exists q, ready q s) -> (forall t, state (thr s t) <> THREAD_STATE_RUNNING) ->
  match dispatch call fuel s with
  | Ret s' => sched_inv s' /\ outranks s'
  | Fault => False
  | Panic | Diverge => True
  end.
Proof.
  intros Hr Hnr. unfold dispatch.
  pose proof (keeps_ext s (set_preempt s 0) _ (check_dpc_keeps fuel) eq_refl eq_refl eq_refl Hr) as Hk.
  destruct (check_dpc_queue call fuel (set_preempt s 0)) as [s1| | |]; try done. cbn [obind].
  destruct Hk as ([q Hq] & Hc & Hn).
  assert (Hnr1 : forall t, state (thr s1 t) <> THREAD_STATE_RUNNING) by (intros t Ht%Hn; by eapply Hnr).
  destruct (find_ready_thread_spec s1 q (ready_rq _ _ Hq)) as
    [[_ ->]|(p & t & l & s2 & Htop & Hqp & -> & k & r & m & -> & Hrq)]; [done|]. cbn [obind].
  assert (Hgo : forall s', srq s' (<[p := l]> q) -> cur s' = t ->
      (forall t', t' <> t -> thr s' t' = thr s1 t') ->
      state (thr s' t) = THREAD_STATE_RUNNING -> priority (thr s' t) = priority (thr s1 t) ->
      base_priority (thr s' t) = base_priority (thr s1 t) ->
      suspend_count (thr s' t) = suspend_count (thr s1 t) -> sched_inv s' /\ outranks s').
  { intros s' H1 H2 H3 H4 H5 H6 H7.
    destruct (switch_spec q s1 s' p t l _ Hq Htop Hqp H1 H2 eq_refl H3 H4 H5 H6 H7) as [Hr' Ho].
    split; [|done]. split; [by eexists|by rewrite H2| | |done].
    2:{ rewrite H2, H7. destruct Htop as (Hv & _). apply (ready_susp _ _ Hq).
        apply (ready_in _ _ Hq p t Hv). rewrite Hqp. set_solver. }
    intros t' Ht'. rewrite H2. destruct (decide (t' = t)) as [|Hne]; [done|].
    rewrite H3 in Ht' by done. by apply Hnr1 in Ht'. }
  destruct (decide (t = cur s)) as [Htc|Htc].
  - apply Hgo; try done; rewrite ?upd_eq; try done.
    + by rewrite Htc.
    + intros t' Hne. by rewrite upd_ne.
  - destruct (truthy _).
    all: apply Hgo; unfold mark_thread_running; rewrite ?upd_eq; try done; simpl;
      try (intros t' Hne; rewrite !fn_lookup_insert_ne by done; done).
    all: rewrite !fn_lookup_insert; reflexivity.
Qed.

Lemma sched_inv_upd_cur s f :
  (forall x, state (f x) = state x /\ priority (f x) = priority x
     /\ base_priority (f x) = base_priority x /\ suspend_count (f x) = suspend_count x) ->
  sched_inv s -> sched_inv (upd s (cur s) f).
Proof.
  intros Hf [[q Hq] H2 H3 H5 H4]. destruct (Hf (thr s (cur s))) as (F1 & F2 & F3 & F4). split.
  - exists q. by apply ready_upd_same.
  - by rewrite cur_upd, upd_eq, F1.
  - intros t Ht. destruct (decide (t = cur s)) as [|Hn]; [done|]. rewrite upd_ne in Ht by done.
    by apply H3.
  - by rewrite cur_upd, upd_eq, F4.
  - intros Hp t Ht. rewrite cur_upd, upd_eq, F2.
    destruct (decide (t = cur s)) as [->|Hn]; [by rewrite upd_eq, F2|].
    rewrite upd_ne in Ht |- * by done. by apply H4.
Qed.

Lemma sched_inv_ext s s' :
  thr s' = thr s -> queues_of s' = queues_of s -> cur s' = cur s ->
  (preempt s' = 0 -> preempt s = 0) -> sched_inv s -> sched_inv s'.
Proof.
  intros Ht Hq Hc Hp [[q Hr] H2 H3 H5 H4].
  split; unfold one_running, outranks in *; rewrite ?Ht, ?Hc; try done; [|intros; apply H4; auto].
  exists q. by apply (ready_ext q s).
Qed.

Lemma queue_irq_dpc_inv s d proc arg : sched_inv s -> sched_inv (queue_irq_dpc s d proc arg).
Proof.
  apply sched_inv_ext; unfold queue_irq_dpc; destruct (truthy _); try done;
    by destruct (dpc_queue_tail _).
Qed.

(** Only a thread other than the current one changes. *)
Lemma sched_inv_other s s' t q :
  t <> cur s -> only t s s' -> ready q s' -> state (thr s' t) <> THREAD_STATE_RUNNING ->
  (preempt s' = 0 -> preempt s = 0 /\ (state (thr s' t) = THREAD_STATE_READY ->
     priority (thr s' t) <= priority (thr s (cur s)))) ->
  sched_inv s -> sched_inv s'.
Proof.
  intros Hne [A1 A2 A3] Hr Hst Hp [_ H2 H3 H5 H4].
  assert (Hc : thr s' (cur s) = thr s (cur s)) by (by apply A1). split.
  - by eexists.
  - by rewrite A2, Hc.
  - intros t' Ht'. rewrite A2. destruct (decide (t' = t)) as [->|]; [done|].
    rewrite A1 in Ht' by done. by apply H3.
  - by rewrite A2, Hc.
  - intros Hz t' Ht'. rewrite A2, Hc. destruct (Hp Hz) as [Hz' Hpt].
    destruct (decide (t' = t)) as [->|]; [by apply Hpt|].
    rewrite A1 in Ht' |- * by done. by apply H4.
Qed.

(** The suspend count changes. *)
Lemma sched_inv_count s t n :
  is_s32 n -> (state (thr s t) = THREAD_STATE_READY \/ t = cur s -> n <= 0) ->
  sched_inv s -> sched_inv (upd s t (fun x => set_suspend_count x n)).
Proof.
  intros Hn Hle [[q [Q1 Q2 Q3 Q4]] H2 H3 H5 H4].
  set (s' := upd s t _).
  assert (Hst : forall t', state (thr s' t') = state (thr s t')
    /\ priority (thr s' t') = priority (thr s t')
    /\ suspend_count (thr s' t') = if decide (t' = t) then n else suspend_count (thr s t')).
  { intros t'. unfold s'. destruct (decide (t' = t)) as [->|]; [by rewrite upd_eq|by rewrite upd_ne]. }
  split.
  - exists q. split; [exact Q1| | |].
    + intros p t' Hp. destruct (Hst t') as (-> & -> & _). exact (Q2 p t' Hp).
    + intros t'. unfold s'. destruct (decide (t' = t)) as [->|]; [|by rewrite upd_ne].
      rewrite upd_eq. destruct (Q3 t) as (? & ? & _). split; [done|split; [done|exact Hn]].
    + intros t'. destruct (Hst t') as (-> & _ & ->). intros Hr.
      case_decide as Heq; [subst; auto|by apply Q4].
  - change (cur s') with (cur s). by rewrite (proj1 (Hst _)).
  - intros t'. rewrite (proj1 (Hst t')). apply H3.
  - change (cur s') with (cur s). rewrite (proj2 (proj2 (Hst (cur s)))).
    case_decide as Heq; [subst; auto|done].
  - intros Hz t'. change (cur s') with (cur s).
    rewrite (proj1 (Hst t')), !(fun t => proj1 (proj2 (Hst t))). by apply H4.
Qed.

(** A thread other than the current one becomes ready. *)
Lemma mark_thread_ready_inv s s0 q t charge boost :
  only t s s0 -> preempt s0 = preempt s -> t <> cur s -> sched_inv s -> ready q s0 ->
  (state (thr s0 t) = THREAD_STATE_READY -> state (thr s t) = THREAD_STATE_READY
     /\ priority (thr s0 t) = priority (thr s t)) ->
  state (thr s0 t) <> THREAD_STATE_RUNNING ->
  match mark_thread_ready s0 t charge boost with
  | Ret s' => sched_inv s'
  | Panic => True
  | Fault | Diverge => False
  end.
Proof.
  intros Ho Hpre Hne Hi Hq Hsame Hrun.
  assert (Hfin : forall s' q', ready q' s' -> only t s0 s' -> state (thr s' t) <> THREAD_STATE_RUNNING ->
    (preempt s' = 0 -> preempt s = 0 /\ (state (thr s' t) = THREAD_STATE_READY ->
       priority (thr s' t) <= priority (thr s (cur s)))) -> sched_inv s').
  { intros s' q' Hr' Ho' Hst Hp'. apply (sched_inv_other s s' t q'); eauto with krlean. }
  destruct (decide (0 < suspend_count (thr s0 t))) as [Hsu|Hsu].
  { unfold mark_thread_ready. cbv zeta. rewrite (proj2 (Z.ltb_lt _ _) Hsu).
    assert (state (thr s0 t) <> THREAD_STATE_READY) as Hnr.
    { intros Hx. pose proof (ready_susp _ _ Hq t Hx). lia. }
    apply (Hfin _ q); [|auto with krlean|by rewrite upd_eq|].
    - pose proof (ready_prio _ _ Hq t). by apply ready_upd.
    - rewrite upd_eq. intros Hz. split; [cbn in Hz; congruence|done]. }
  destruct (decide (state (thr s0 t) = THREAD_STATE_READY)) as [Hst|Hst].
  { unfold mark_thread_ready. cbv zeta. rewrite (proj2 (Z.ltb_ge _ _)) by lia.
    rewrite (proj2 (Z.eqb_eq _ _) Hst). destruct (truthy _); [|done]. simpl.
    destruct (Hsame Hst) as [Hs1 Hs2].
    apply (Hfin _ q); [done|auto with krlean|by rewrite Hst|]. intros Hz. rewrite Hpre in Hz.
    split; [done|]. intros _. rewrite Hs2. by apply (si_preempt _ Hi). }
  destruct (mark_thread_ready_spec q s0 t charge boost Hq Hst ltac:(lia)) as
    (s' & -> & Hr' & Ho' & Ht & Hp').
  pose proof (ready_prio _ _ Hq t) as Hok.
  pose proof (restarted_facts _ charge boost Hok) as (Y1 & _).
  apply (Hfin _ _ Hr' Ho'); rewrite Ht, Y1; [done|]. intros Hz. rewrite Hz in Hp'.
  assert (Hc' : thr s' (cur s') = thr s (cur s)).
  { rewrite (only_cur _ _ _ Ho'), (only_cur _ _ _ Ho), (only_thr _ _ _ Ho') by done. by apply Ho. }
  rewrite Hc' in Hp'. destruct (Z.ltb_spec (priority (thr s (cur s)))
    (priority (restarted (thr s0 t) charge boost))); [done|]. split; [congruence|done].
Qed.

(** The current thread becomes ready, just before it dispatches. *)
Lemma mark_current_ready q s s0 charge boost :
  only (cur s) s s0 -> sched_inv s -> ready q s0 ->
  state (thr s0 (cur s)) <> THREAD_STATE_READY ->
  match mark_thread_ready s0 (cur s) charge boost with
  | Ret s' => (exists q, ready q s') /\ forall t, state (thr s' t) <> THREAD_STATE_RUNNING
  | Panic => True
  | Fault | Diverge => False
  end.
Proof.
  intros Ho Hinv Hq Hst. set (t := cur s) in *.
  assert (Hn : forall s', only t s0 s' -> state (thr s' t) <> THREAD_STATE_RUNNING ->
    forall t', state (thr s' t') <> THREAD_STATE_RUNNING).
  { intros s' Ho' Ht t' Hr. destruct (decide (t' = t)) as [->|Hne]; [done|].
    rewrite (only_thr _ _ _ (only_trans _ _ _ _ Ho Ho')) in Hr by done.
    by apply Hne, (si_one _ Hinv). }
  pose proof (ready_prio _ _ Hq t) as Hok.
  destruct (decide (0 < suspend_count (thr s0 t))) as [Hsu|Hsu].
  { unfold mark_thread_ready. cbv zeta. rewrite (proj2 (Z.ltb_lt _ _) Hsu). split.
    - exists q. by apply ready_upd.
    - apply Hn; [auto with krlean|by rewrite upd_eq]. }
  destruct (mark_thread_ready_spec q s0 t charge boost Hq Hst ltac:(lia)) as
    (s' & -> & Hr' & Ho' & Ht & Hp').
  pose proof (restarted_facts _ charge boost Hok) as (Y1 & _).
  split; [by eexists|]. apply Hn; [done|]. by rewrite Ht, Y1.
Qed.

Definition steps_well (o : outcome sched) : Prop :=
  match o with Ret s' => sched_inv s' | Fault => False | Panic | Diverge => True end.

Lemma dispatch_steps fuel s :
  (exists q, ready q s) -> (forall t, state (thr s t) <> THREAD_STATE_RUNNING) ->
  steps_well (dispatch call fuel s).
Proof.
  intros Hr Hn. pose proof (dispatch_inv fuel s Hr Hn) as Hd.
  destruct (dispatch call fuel s); try done. apply Hd.
Qed.

(** The current thread stops running and another is dispatched. *)
Lemma leave_cpu fuel s s' :
  sched_inv s -> only (cur s) s s' -> (exists q, ready q s') ->
  state (thr s' (cur s)) <> THREAD_STATE_RUNNING -> steps_well (dispatch call fuel s').
Proof.
  intros Hi Ho Hr Hs. apply dispatch_steps; [done|]. intros t Ht.
  destruct (decide (t = cur s)) as [->|Hne]; [done|].
  rewrite (only_thr _ _ _ Ho) in Ht by done. by apply Hne, (si_one _ Hi).
Qed.

(** A store to the current thread that ends its run and leaves its priority alone. *)
Lemma ready_stop q s f :
  sched_inv s -> ready q s -> state (f (thr s (cur s))) <> THREAD_STATE_READY ->
  priority (f (thr s (cur s))) = priority (thr s (cur s)) ->
  base_priority (f (thr s (cur s))) = base_priority (thr s (cur s)) ->
  suspend_count (f (thr s (cur s))) = suspend_count (thr s (cur s)) ->
  ready q (upd s (cur s) f).
Proof.
  intros Hi Hr Hs Hp Hb Hc. pose proof (ready_prio _ _ Hr (cur s)) as Hok.
  apply ready_upd; unfold thread_ok; rewrite ?Hp, ?Hb, ?Hc, ?(si_running _ Hi); done.
Qed.

Lemma enter_wait_inv fuel s r : sched_inv s -> steps_well (enter_wait call fuel s r).
Proof.
  intros Hi. pose proof (si_ready _ Hi) as [q Hq].
  apply (leave_cpu _ s); [done|auto with krlean| |by rewrite upd_eq].
  exists q. by apply ready_stop.
Qed.

Lemma enter_alertable_wait_inv fuel s r :
  sched_inv s -> steps_well ('(_, s) <~ enter_alertable_wait call fuel s r; Ret s).
Proof.
  intros Hi. pose proof (si_ready _ Hi) as [q Hq]. unfold enter_alertable_wait.
  destruct (signals_ready _); [done|]. cbv zeta. rewrite !cur_upd.
  match goal with |- context [dispatch call fuel ?s'] => set (s3 := s') end.
  assert (Hd : steps_well (dispatch call fuel s3)).
  { apply (leave_cpu _ s); [done|unfold s3; eauto 6 with krlean| |].
    - exists q. unfold s3. do 2 (apply ready_upd_same; [|done..]). by apply ready_stop.
    - unfold s3. by rewrite !upd_eq. }
  by destruct (dispatch call fuel s3).
Qed.

Lemma yield_inv fuel s : sched_inv s -> steps_well (yield call fuel s).
Proof.
  intros Hi. pose proof (si_ready _ Hi) as [q Hq]. unfold yield. cbv zeta.
  set (s1 := upd s (cur s) (fun x => set_quantum x 0)).
  assert (Hm : match mark_thread_ready s1 (cur s) 0 0 with
    | Ret s' => (exists q, ready q s') /\ forall t, state (thr s' t) <> THREAD_STATE_RUNNING
    | Panic => True | Fault | Diverge => False end).
  { apply (mark_current_ready q s s1 0 0 (only_upd _ _ _) Hi); [by apply ready_upd_same|].
    unfold s1. rewrite upd_eq. cbn [state set_quantum]. by rewrite (si_running _ Hi). }
  destruct (mark_thread_ready s1 (cur s) 0 0) as [s2| | |]; try done.
  cbn [obind]. apply dispatch_steps; apply Hm.
Qed.

Lemma preempt_thread_inv fuel s :
  sched_inv s -> steps_well (preempt_thread call fuel s).
Proof.
  intros Hi. pose proof (si_susp _ Hi) as Hsu. pose proof (si_ready _ Hi) as [q Hq]. unfold preempt_thread. cbv zeta.
  set (s1 := upd s (cur s) count_preempt). set (s2 := if quantum _ <=? 0 then _ else s1).
  set (s3 := upd s2 (cur s) _). pose proof (ready_prio _ _ Hq (cur s)) as (Hv & Hw & Hc).
  assert (H3 : only (cur s) s s3 /\ queues_of s3 = queues_of s
    /\ state (thr s3 (cur s)) = THREAD_STATE_READY
    /\ suspend_count (thr s3 (cur s)) = suspend_count (thr s (cur s))
    /\ thread_ok (thr s3 (cur s))).
  { unfold s3, s2, s1, thread_ok, valid_prio in *. destruct (quantum _ <=? 0).
    - rewrite !upd_eq. simpl.
      destruct (Z.ltb_spec (base_priority (thr s (cur s))) (priority (thr s (cur s)))).
      all: split; [eauto 6 with krlean|]; split; [done|].
      all: rewrite !upd_eq; simpl; split_and!; try done; lia.
    - split; [eauto 6 with krlean|]; split; [done|]. by rewrite !upd_eq. }
  destruct H3 as (Ho & Hqu & Hst & Hsu3 & Hok). clearbody s3.
  destruct (enqueue_spec q s s3 (cur s) false Hq) as (s4 & -> & Hr & Ho4 & Ht & _); try done.
  { by rewrite (si_running _ Hi). }
  { by rewrite Hsu3. }
  simpl. apply (leave_cpu _ s); [done|done|by eexists|]. by rewrite Ht, Hst.
Qed.

Lemma s32_succ n : is_s32 n -> n < 0 -> s32 (n + 1) = n + 1.
Proof. unfold is_s32. intros ??. apply s32_small. unfold is_s32. lia. Qed.

Lemma suspend_thread_inv fuel s t :
  sched_inv s -> steps_well ('(_, s) <~ suspend_thread call fuel s t; Ret s).
Proof.
  intros Hi. pose proof (si_ready _ Hi) as [q Hq]. unfold suspend_thread. cbv zeta.
  set (x := thr s t). change (upd s t _) with (upd s t (fun y => set_suspend_count y (s32 (suspend_count x + 1)))).
  set (s1 := upd s t _). pose proof (ready_prio _ _ Hq t) as (Hv & Hw & Hc). fold x in Hv, Hw, Hc.
  assert (Hx1 : thr s1 t = set_suspend_count x (s32 (suspend_count x + 1))) by (unfold s1; by rewrite upd_eq).
  rewrite Hx1. cbn [state set_suspend_count].
  assert (Hle : state x = THREAD_STATE_READY \/ t = cur s -> suspend_count x <= 0).
  { intros [Hr|Hr]; [by apply (ready_susp _ _ Hq)|]. unfold x. rewrite Hr. apply Hi. }
  assert (Hkeep : suspend_count x <> 0 \/ (state x <> THREAD_STATE_READY /\ t <> cur s) -> sched_inv s1).
  { intros Hor. apply sched_inv_count; [apply s32_range| |done]. intros Hrc. fold x in Hrc.
    destruct Hor as [Hn|[Hn1 Hn2]]; [|by destruct Hrc]. specialize (Hle Hrc).
    rewrite s32_succ by (done || lia). lia. }
  destruct (Z.eqb_spec (suspend_count x) 0) as [H0|H0]; [|by apply Hkeep; left].
  assert (Hc1 : forall n, thread_ok (set_state (set_suspend_count x (s32 (suspend_count x + 1))) n)).
  { intros n. split; [done|split; [done|apply s32_range]]. }
  destruct (Z.eqb_spec (state x) THREAD_STATE_READY) as [Hr|Hr].
  - assert (Hin : t ∈ q (priority x)) by (by apply (ready_in _ _ Hq _ t Hv)).
    apply list_elem_of_split in Hin as (a & b & Hab).
    assert (Hq1 : srq s1 q) by apply Hq.
    assert (Hp1 : priority (thr s1 t) = priority x) by (by rewrite Hx1).
    destruct (remove_from_ready_queue_spec s1 q t Hq1) with (a := a) (b := b)
      as (s2 & -> & k & r & m & -> & Hrq); [by rewrite Hp1|by rewrite Hp1|].
    simpl. rewrite Hp1 in Hrq.
    assert (Hne : t <> cur s).
    { intros Heq. pose proof (si_running _ Hi) as Hrun. rewrite <- Heq in Hrun. fold x in Hrun.
      rewrite Hr in Hrun. done. }
    apply (sched_inv_other s _ t (<[priority x := a ++ b]> q)); [done| | | | |done].
    + split; [|done|done]. intros t' Hn. rewrite upd_ne by done. cbn. unfold s1.
      by rewrite fn_lookup_insert_ne.
    + apply (ready_leave q s _ t a b (priority x)); [done| | |done|done| |].
      * intros t' Hn. rewrite upd_ne by done. cbn. by rewrite fn_lookup_insert_ne.
      * exact Hrq.
      * by rewrite upd_eq.
      * rewrite upd_eq. cbn [thr set_ready]. rewrite Hx1. apply Hc1.
    + by rewrite upd_eq.
    + rewrite upd_eq. intros Hz. split; [exact Hz|done].
  - destruct (Z.eqb_spec (state x) THREAD_STATE_RUNNING) as [Hrun|Hrun].
    + assert (Htc : t = cur s) by (by apply (si_one _ Hi)).
      assert (Hd : steps_well (dispatch call fuel (upd s1 t (fun x => set_state x THREAD_STATE_SUSPENDED)))).
      { apply (leave_cpu _ s); [done|rewrite <- Htc; unfold s1; eauto with krlean| |].
        - exists q. apply ready_upd; rewrite ?Hx1; [|exact Hr|done|apply Hc1].
          apply ready_upd; fold x; try done. apply (Hc1 (state x)).
        - rewrite <- Htc, upd_eq. done. }
      by destruct (dispatch call fuel _).
    + apply Hkeep. right. split; [done|]. intros Heq. apply Hrun. unfold x. rewrite Heq. apply Hi.
Qed.

Lemma not_current s t n :
  sched_inv s -> state (thr s t) = n -> n <> THREAD_STATE_RUNNING -> t <> cur s.
Proof. intros Hi Hs Hn ->. rewrite (si_running _ Hi) in Hs. by symmetry in Hs. Qed.

Lemma resume_thread_inv s t :
  sched_inv s -> steps_well ('(_, s) <~ resume_thread s t; Ret s).
Proof.
  intros Hi. pose proof (si_ready _ Hi) as [q Hq]. unfold resume_thread. cbv zeta.
  destruct (Z.ltb_spec 0 (suspend_count (thr s t))) as [Hlt|]; [|done].
  set (n := suspend_count (thr s t) - 1).
  change (upd s t _) with (upd s t (fun y => set_suspend_count y n)).
  set (s1 := upd s t _). destruct (ready_prio _ _ Hq t) as (_ & _ & Hc).
  assert (Hn : is_s32 n) by (unfold is_s32, n in *; lia).
  assert (Hnr : state (thr s t) <> THREAD_STATE_READY).
  { intros Hr. pose proof (ready_susp _ _ Hq t Hr). lia. }
  assert (Hne : t <> cur s) by (intros ->; pose proof (si_susp _ Hi); lia).
  assert (Hi1 : sched_inv s1) by (apply sched_inv_count; naive_solver).
  assert (Hst : state (thr s1 t) = state (thr s t)) by (unfold s1; by rewrite upd_eq).
  destruct (_ && _) eqn:Hb; [|done]. apply andb_true_iff in Hb as [_ Hb].
  destruct (si_ready _ Hi1) as [q1 Hq1].
  pose proof (mark_thread_ready_inv s1 s1 q1 t 0 0 (only_refl _ _) eq_refl Hne Hi1 Hq1) as Hm.
  rewrite Hst in *.
  destruct (mark_thread_ready s1 t 0 0); try done; simpl; apply Hm; try done.
  all: by intros Hr; apply Hne, (si_one _ Hi).
Qed.

Lemma interrupt_thread_inv s t :
  sched_inv s -> steps_well ('(_, s) <~ interrupt_thread s t; Ret s).
Proof.
  intros Hi. pose proof (si_ready _ Hi) as [q Hq]. unfold interrupt_thread. cbv zeta.
  destruct (Z.eqb_spec (state (thr s t)) THREAD_STATE_WAITING) as [Hw|]; [|done]. simpl.
  destruct (_ =? 0); [done|].
  pose proof (not_current s t _ Hi Hw ltac:(done)) as Hne.
  match goal with |- context [mark_thread_ready ?s1 t 1 1] =>
    pose proof (mark_thread_ready_inv s s1 q t 1 1 (only_upd _ _ _) eq_refl Hne Hi) as Hm;
    destruct (mark_thread_ready s1 t 1 1) end; try done; simpl; apply Hm.
  all: try (by apply ready_upd_same); rewrite upd_eq; simpl; rewrite Hw; done.
Qed.

Lemma set_thread_priority_inv fuel s t p :
  sched_inv s -> steps_well ('(_, s) <~ set_thread_priority call fuel s t p; Ret s).
Proof.
  intros Hi. pose proof (si_ready _ Hi) as [q Hq]. unfold set_thread_priority. cbv zeta.
  destruct (_ || _) eqn:Hv; [done|]. apply orb_false_iff in Hv as [Hv1 Hv2]. zify_bool.
  assert (Hvp : valid_prio p) by (unfold valid_prio; lia).
  destruct (_ =? p); [done|].
  set (s1 := upd s t _). destruct (ready_prio _ _ Hq t) as (Hp & _ & Hc).
  assert (Hx1 : thr s1 t = set_priority (set_base_priority (thr s t) p) p)
    by (unfold s1; by rewrite upd_eq).
  assert (Ho1 : only t s s1) by apply only_upd.
  assert (Hr1 : state (thr s t) <> THREAD_STATE_READY -> ready q s1).
  { intros Hn. by apply ready_upd. }
  destruct (decide (t = cur s)) as [Htc|Htc].
  { assert (Hnr : state (thr s t) <> THREAD_STATE_READY) by (rewrite Htc, (si_running _ Hi); done).
    specialize (Hr1 Hnr). destruct (Z.ltb_spec p (priority (thr s t))) as [Hlt|Hge].
    - rewrite Htc in *. pose proof (mark_current_ready q s s1 0 0 Ho1 Hi Hr1) as Hm.
      rewrite Hx1 in Hm. specialize (Hm Hnr).
      destruct (mark_thread_ready s1 (cur s) 0 0) as [s2| | |]; try done. simpl.
      pose proof (dispatch_steps fuel s2 (proj1 Hm) (proj2 Hm)) as Hd.
      by destruct (dispatch call fuel s2).
    - destruct Hi as [_ I2 I3 I5 I4]. simpl. split.
      + by eexists.
      + change (cur s1) with (cur s). rewrite <- Htc in *. by rewrite Hx1.
      + intros t' Hr. change (cur s1) with (cur s). destruct (decide (t' = t)) as [->|]; [done|].
        unfold s1 in Hr. rewrite upd_ne in Hr by done. by apply I3.
      + change (cur s1) with (cur s). rewrite <- Htc in *. by rewrite Hx1.
      + intros Hz t' Hr. change (cur s1) with (cur s). rewrite <- Htc, Hx1.
        destruct (decide (t' = t)) as [->|Hn]; [by rewrite Hx1|]. unfold s1 in Hr |- *.
        rewrite upd_ne in Hr |- * by done. specialize (I4 Hz t' Hr). rewrite <- Htc in I4.
        simpl. lia. }
  destruct (Z.eqb_spec (state (thr s t)) THREAD_STATE_READY) as [Hr|Hr].
  - assert (Hin : t ∈ q (priority (thr s t))) by (by apply (ready_in _ _ Hq _ t Hp)).
    apply list_elem_of_split in Hin as (a & b & Hab).
    destruct (remove_from_ready_queue_spec s q t (ready_rq _ _ Hq) Hp a b Hab)
      as (s2 & -> & k & r & m & -> & Hrq). cbn [obind].
    match goal with |- context [mark_thread_ready ?s3 t 0 0] => set (s4 := s3) end.
    assert (Hx4 : thr s4 t = set_state (set_priority (set_base_priority (thr s t) p) p)
      THREAD_STATE_TRANSITION) by (unfold s4; by rewrite !upd_eq).
    assert (Ho : only t s s4).
    { split; [|done|done]. intros t' Hn. unfold s4. by rewrite !upd_ne. }
    assert (Hq4 : ready (<[priority (thr s t) := a ++ b]> q) s4).
    { apply (ready_leave q s s4 t a b); try done; [apply Ho|by rewrite Hx4|by rewrite Hx4]. }
    pose proof (mark_thread_ready_inv s s4 _ t 0 0 Ho eq_refl Htc Hi Hq4) as Hm.
    rewrite Hx4 in Hm. destruct (mark_thread_ready s4 t 0 0); try done; by apply Hm.
  - simpl. apply (sched_inv_other s s1 t q Htc); [apply only_upd|by apply Hr1| | |done].
    + rewrite Hx1. simpl. intros Hrun. by apply Htc, (si_one _ Hi).
    + rewrite Hx1. intros Hz. split; [done|]. simpl. done.
Qed.

Lemma charge_tick_inv s d proc : sched_inv s -> sched_inv (charge_tick s d proc).
Proof.
  intros Hi. unfold charge_tick. cbv zeta. apply queue_irq_dpc_inv.
  set (s1 := upd s (cur s) _). assert (Hi1 : sched_inv s1) by (by apply sched_inv_upd_cur).
  destruct (_ <=? 0); [|done]. by apply (sched_inv_ext s1).
Qed.

Lemma leave_alertable_wait_inv s : sched_inv s -> sched_inv (leave_alertable_wait s).2.
Proof.
  intros Hi. unfold leave_alertable_wait. cbv zeta. set (s1 := upd s (cur s) _).
  assert (Hi1 : sched_inv s1) by (by apply sched_inv_upd_cur).
  destruct (truthy _); [|done]. by apply sched_inv_upd_cur.
Qed.

Lemma exec_op_inv fuel s op :
  (forall t c b, op = MakeReady t c b -> t <> cur s) -> sched_inv s -> steps_well (exec_op call fuel s op).
Proof.
  intros Hg Hi. destruct op; simpl.
  - by apply enter_wait_inv.
  - by apply enter_alertable_wait_inv.
  - by apply leave_alertable_wait_inv.
  - by apply yield_inv.
  - by apply preempt_thread_inv.
  - by apply charge_tick_inv.
  - by apply queue_irq_dpc_inv.
  - specialize (Hg t charge boost eq_refl). destruct (si_ready _ Hi) as [q Hq].
    pose proof (mark_thread_ready_inv s s q t charge boost (only_refl _ _) eq_refl Hg Hi Hq) as Hm.
    destruct (mark_thread_ready s t charge boost); try done; simpl; apply Hm; try done.
    all: by intros Hr; apply Hg, (si_one _ Hi).
  - by apply interrupt_thread_inv.
  - by apply suspend_thread_inv.
  - by apply resume_thread_inv.
  - by apply set_thread_priority_inv.
Qed.
End Invariant.

(** ** The DPC queue *)

(** [dpcq s l]: the queued DPCs are [l], oldest first. *)
Record dpcq (s : sched) (l : list nat) : Prop := {
  dq_seg : seg (fun d => d_next (dpcs s d)) (dpc_queue_head s) l None;
  dq_tail : dpc_queue_tail s = last l;
  dq_nodup : NoDup l;
  dq_flag : forall d, d ∈ l <-> Z.testbit (d_flags (dpcs s d)) DPC_QUEUED_BIT = true;
}.

Lemma dpc_queued_test x : truthy (Z.land x DPC_QUEUED) = Z.testbit x DPC_QUEUED_BIT.
Proof. apply (truthy_land_pow2 x 0). lia. Qed.

Lemma dpc_executing_test x : truthy (Z.land x DPC_EXECUTING) = Z.testbit x DPC_EXECUTING_BIT.
Proof. apply (truthy_land_pow2 x 1). lia. Qed.

Lemma dpc_set_bit x i j : 0 <= i -> 0 <= j ->
  Z.testbit (Z.lor x (Z.shiftl 1 i)) j = (i =? j) || Z.testbit x j.
Proof.
  intros. rewrite Z.lor_spec, Z.shiftl_1_l, Z.pow2_bits_eqb by lia. apply orb_comm.
Qed.

Lemma dpc_clear_bit x i j : 0 <= i -> 0 <= j ->
  Z.testbit (Z.land x (Z.lnot (Z.shiftl 1 i))) j = negb (i =? j) && Z.testbit x j.
Proof.
  intros. rewrite Z.land_spec, Z.lnot_spec, Z.shiftl_1_l, Z.pow2_bits_eqb by lia. apply andb_comm.
Qed.

(** Bits of the flags of a DPC that stores set and clear. *)
Ltac dpc_bits :=
  unfold DPC_QUEUED, DPC_EXECUTING, DPC_QUEUED_BIT, DPC_EXECUTING_BIT in *;
  rewrite ?dpc_set_bit, ?dpc_clear_bit, ?dpc_set_bit, ?dpc_clear_bit by lia;
  cbn [Z.eqb Pos.eqb negb orb andb].

Lemma dpcq_head s l : dpcq s l -> dpc_queue_head s = head l.
Proof. intros [H _ _ _]. by apply seg_head in H. Qed.

Lemma queue_irq_dpc_busy s l d proc arg :
  dpcq s l -> d ∈ l ->
  queue_irq_dpc s d proc arg
  = set_dpc_state s (in_dpc s) (dpc_total s) (u32 (dpc_lost s + 1)) (dpc_calls s).
Proof.
  intros Hq Hd. apply (dq_flag _ _ Hq) in Hd. unfold queue_irq_dpc. by rewrite dpc_queued_test, Hd.
Qed.

Lemma queue_irq_dpc_new s l d proc arg :
  dpcq s l -> d ∉ l ->
  let s' := queue_irq_dpc s d proc arg in
  dpcq s' (l ++ [d]) /\ d_proc (dpcs s' d) = proc /\ d_arg (dpcs s' d) = arg
  /\ (forall d', d' <> d -> d_proc (dpcs s' d') = d_proc (dpcs s d') /\ d_arg (dpcs s' d') = d_arg (dpcs s d'))
  /\ dpc_lost s' = dpc_lost s /\ thr s' = thr s /\ queues_of s' = queues_of s.
Proof.
  intros Hq Hd s'. pose proof (dpcq_head _ _ Hq) as Hh. destruct Hq as [H1 H2 H3 H4].
  assert (Hf : Z.testbit (d_flags (dpcs s d)) DPC_QUEUED_BIT = false).
  { apply not_true_is_false. by rewrite <- H4. }
  assert (Es : s' = queue_irq_dpc s d proc arg) by done. clearbody s'.
  unfold queue_irq_dpc in Es. rewrite dpc_queued_test, Hf in Es.
  cbn [set_dpc dpc_queue_tail] in Es. rewrite H2 in Es.
  assert (Hdpc : forall x, dpcs s' x =
    if decide (x = d) then Dpc proc arg None (Z.lor (d_flags (dpcs s d)) DPC_QUEUED)
    else if decide (last l = Some x)
      then Dpc (d_proc (dpcs s x)) (d_arg (dpcs s x)) (Some d) (d_flags (dpcs s x))
      else dpcs s x).
  { intros x. assert (forall z, last l = Some z -> z <> d) as Hz
      by (intros z Hz%last_Some_elem_of ->; done).
    rewrite Es. destruct (last l) as [z|] eqn:Hl; simpl; case_decide as Hx.
    - subst x. rewrite fn_lookup_insert, fn_lookup_insert_ne by naive_solver.
      by rewrite fn_lookup_insert.
    - rewrite fn_lookup_insert_ne by done. destruct (decide (z = x)) as [->|Hzx].
      + rewrite decide_True, fn_lookup_insert, fn_lookup_insert_ne by done. done.
      + rewrite decide_False, !fn_lookup_insert_ne by congruence. done.
    - subst x. by rewrite !fn_lookup_insert.
    - rewrite !fn_lookup_insert_ne by congruence. done. }
  assert (Hends : dpc_queue_head s' = head (l ++ [d]) /\ dpc_queue_tail s' = Some d
    /\ dpc_lost s' = dpc_lost s /\ thr s' = thr s /\ queues_of s' = queues_of s).
  { rewrite Es. destruct (last l) eqn:Hl; simpl; rewrite Hh; destruct l; try done;
      try (by apply last_None in Hl). }
  destruct Hends as (E1 & E2 & E3 & E4 & E5). clear Es. split_and!; try done.
  - split.
    + rewrite E1. rewrite seg_snoc. rewrite Hdpc, decide_True by done. split; [|done].
      destruct l as [|z l _] using rev_ind; [done|]. rewrite last_snoc in Hdpc.
      rewrite seg_snoc in H1. destruct H1 as [H1 _]. apply NoDup_app in H3 as (_ & Hz & _).
      rewrite seg_snoc. rewrite Hdpc, decide_False, decide_True by set_solver. split; [|done].
      eapply seg_ext; [|].
      2:{ assert (dpc_queue_head s = head ((l ++ [z]) ++ [d])) as <-; [|exact H1].
          rewrite Hh. by destruct l. }
      intros x Hx. simpl. rewrite Hdpc, !decide_False; [done| |]; set_solver.
    + by rewrite last_snoc.
    + apply NoDup_app. split_and!; [done|set_solver|apply NoDup_singleton].
    + intros x. rewrite Hdpc. case_decide as Hx.
      * subst x. cbn [d_flags]. dpc_bits. set_solver.
      * rewrite elem_of_app, list_elem_of_singleton, H4. case_decide; simpl; naive_solver.
  - by rewrite Hdpc, decide_True.
  - by rewrite Hdpc, decide_True.
  - intros d' Hne. rewrite Hdpc, decide_False by done. by case_decide.
Qed.

(** Removing the oldest DPC and running it. *)
Lemma run_next_dpc call s d l s' :
  dpcq s (d :: l) -> Z.testbit (d_flags (dpcs s d)) DPC_EXECUTING_BIT = false ->
  (forall proc arg s, exists s', call proc arg s = Ret s' /\ dpc_part s' = dpc_part s) ->
  get_next_dpc s = (Some d, s') ->
  exists s2, run_dpc call s' d = Ret s2 /\ dpcq s2 l
    /\ dpc_calls s2 = (d_proc (dpcs s d), d_arg (dpcs s d)) :: dpc_calls s
    /\ dpc_total s2 = u32 (dpc_total s + 1) /\ dpc_lost s2 = dpc_lost s /\ in_dpc s2 = in_dpc s
    /\ forall d', d' <> d -> dpcs s2 d' = dpcs s d'.
Proof.
  intros Hq He Hcall Hg. pose proof (dpcq_head _ _ Hq) as Hh. destruct Hq as [H1 H2 H3 H4].
  unfold get_next_dpc in Hg. rewrite Hh in Hg. cbn [head] in Hg. injection Hg as <-.
  unfold run_dpc. cbv zeta.
  match goal with |- context [truthy (Z.land ?x _)] => set (fl := x) end.
  assert (Hfl : Z.testbit fl DPC_EXECUTING_BIT = false).
  { unfold fl, dpc_flag. cbn [set_dpc dpcs]. rewrite fn_lookup_insert.
    cbn [d_flags set_dpc_queue dpcs].
    dpc_bits. exact He. }
  rewrite dpc_executing_test, Hfl.
  match goal with |- context [call ?p ?a ?s3] => destruct (Hcall p a s3) as (s4 & -> & Hp); set (s5 := s3) in * end.
  simpl. eexists. split; [reflexivity|].
  unfold dpc_part in Hp. injection Hp as P1 P2 P3 P4 P5 P6 P7.
  assert (Hdp : forall d', d' <> d -> dpcs s4 d' = dpcs s d').
  { intros d' Hne. rewrite P1. simpl. by rewrite !fn_lookup_insert_ne. }
  assert (Hdd : d_flags (dpcs s4 d) = Z.lor (Z.land (d_flags (dpcs s d)) (Z.lnot DPC_QUEUED)) DPC_EXECUTING).
  { rewrite P1. simpl. by rewrite !fn_lookup_insert. }
  apply NoDup_cons in H3 as [Hd H3].
  split_and!.
  - destruct H1 as [_ H1]. split; unfold dpc_flag;
      cbn [set_dpc_state set_dpc dpcs dpc_queue_head dpc_queue_tail d_next d_flags].
    + rewrite P2. simpl. eapply seg_ext; [|exact H1]. intros x Hx. simpl.
      rewrite fn_lookup_insert_ne, Hdp by set_solver. done.
    + rewrite P3. simpl. destruct l as [|y l]; case_decide as Hc; try done.
      exfalso. apply Hd, last_Some_elem_of. rewrite <- Hc, H2. done.
    + done.
    + intros x. destruct (decide (x = d)) as [->|Hne].
      * rewrite fn_lookup_insert. cbn [d_flags]. rewrite Hdd. split; [by intros ?%Hd|].
        dpc_bits. done.
      * rewrite fn_lookup_insert_ne, Hdp, <- H4 by done. set_solver.
  - rewrite P7. simpl. by rewrite ?fn_lookup_insert.
  - by rewrite P5.
  - by rewrite P6.
  - by rewrite P4.
  - intros d' Hne. unfold dpc_flag. cbn [set_dpc_state set_dpc dpcs].
    rewrite fn_lookup_insert_ne by done. by apply Hdp.
Qed.

Lemma dpc_loop_spec call l : forall s fuel,
  dpcq s l -> (forall d, d ∈ l -> Z.testbit (d_flags (dpcs s d)) DPC_EXECUTING_BIT = false) ->
  (forall proc arg s, exists s', call proc arg s = Ret s' /\ dpc_part s' = dpc_part s) ->
  (length l <= fuel)%nat ->
  exists s', dpc_loop call fuel s = Ret s' /\ dpcq s' []
    /\ dpc_calls s' = reverse ((fun d => (d_proc (dpcs s d), d_arg (dpcs s d))) <$> l) ++ dpc_calls s
    /\ u32 (dpc_total s') = u32 (dpc_total s + Z.of_nat (length l))
    /\ dpc_lost s' = dpc_lost s /\ in_dpc s' = in_dpc s.
Proof.
  induction l as [|d l IH]; intros s fuel Hq He Hcall Hf.
  - exists s. split_and!; try done; [|by rewrite Z.add_0_r].
    pose proof (dpcq_head _ _ Hq) as Hh. destruct fuel; simpl; unfold get_next_dpc; by rewrite Hh.
  - destruct fuel as [|fuel]; [simpl in Hf; lia|]. simpl.
    pose proof (dpcq_head _ _ Hq) as Hh. destruct (get_next_dpc s) as [o s1] eqn:Hg.
    assert (o = Some d) as ->.
    { unfold get_next_dpc in Hg. rewrite Hh in Hg. by injection Hg as <- _. }
    destruct (run_next_dpc call s d l s1 Hq (He d ltac:(set_solver)) Hcall Hg)
      as (s2 & -> & Hq2 & Hc & Ht & Hl & Hi & Hd). cbn [obind].
    pose proof (dq_nodup _ _ Hq) as [Hn _]%NoDup_cons.
    destruct (IH s2 fuel Hq2) as (s3 & -> & Hq3 & Hc3 & Ht3 & Hl3 & Hi3); try done.
    { intros d' Hin. rewrite Hd by set_solver. apply He. set_solver. }
    { simpl in Hf. lia. }
    exists s3. split_and!; try done; try congruence.
    + rewrite Hc3, Hc. cbn [fmap list_fmap]. rewrite reverse_cons, <- (assoc_L (++)). do 2 f_equal.
      apply list_fmap_ext. intros i d' Hd'%list_elem_of_lookup_2. rewrite Hd by set_solver. done.
    + rewrite Ht3, Ht. unfold u32, uwrap. rewrite Zplus_mod_idemp_l. f_equal. lia.
Qed.

(** ** The theorems *)

(** C3: between any two operations of threads, timer ticks and interrupts the scheduler
    is in order: exactly one thread runs, it is not suspended, every ready thread is in
    the queue for its priority and in no other place, the summary has the bits of the
    queues that are not empty, and unless [preempt] is set no ready thread has a higher
    priority than the running one.  No operation follows a NULL pointer or indexes
    outside the arrays of queues; the DPC procedures may do anything that keeps the
    queues. *)
Theorem sched_invariant call s s' :
  dpc_contract call -> sched_inv s -> rtc (sched_step call) s s' ->
  sched_inv s'
  /\ forall fuel op, (forall t c b, op = MakeReady t c b -> t <> cur s') ->
       exec_op call fuel s' op <> Fault.
Proof.
  intros Hc Hi Hst. assert (sched_inv s') as Hi'.
  { induction Hst as [|s1 s2 s3 [fuel s op s' Hg He] _ IH]; [done|]. apply IH.
    pose proof (exec_op_inv call Hc fuel s op Hg Hi) as Hw. by rewrite He in Hw. }
  split; [done|]. intros fuel op Hg He.
  pose proof (exec_op_inv call Hc fuel s' op Hg Hi') as Hw. by rewrite He in Hw.
Qed.

(** When no DPC is queued, [dispatch] takes the thread that has been in the highest
    non-empty queue for longest, makes it the running thread, and clears [preempt];
    it panics exactly when no thread is ready. *)
Lemma dispatch_correct call fuel q s :
  ready q s -> dpc_queue_head s = None ->
  ((forall p, valid_prio p -> q p = []) /\ dispatch call fuel s = Panic)
  \/ exists p t l s', top q p /\ q p = t :: l /\ dispatch call fuel s = Ret s'
     /\ cur s' = t /\ preempt s' = 0 /\ ready (<[p := l]> q) s'
     /\ state (thr s' t) = THREAD_STATE_RUNNING
     /\ context_switches (thr s' t)
        = (if decide (t = cur s) then context_switches (thr s t) else u32 (context_switches (thr s t) + 1))
     /\ (forall t', state (thr s' t') = THREAD_STATE_READY -> priority (thr s' t') <= priority (thr s' t))
     /\ forall t', t' <> t -> thr s' t' = thr s t'.
Proof.
  intros Hq Hd. unfold dispatch, check_dpc_queue. cbn [set_preempt dpc_queue_head]. rewrite Hd.
  cbn [obind]. set (s1 := set_preempt s 0).
  assert (Hq1 : ready q s1) by (by apply (ready_ext q s)).
  destruct (find_ready_thread_spec s1 q (ready_rq _ _ Hq1)) as
    [[He ->]|(p & t & l & s2 & Htop & Hqp & -> & k & r & m & -> & Hrq)]; [by left|].
  right. exists p, t, l. cbn [obind].
  assert (Hgo : forall s', srq s' (<[p := l]> q) -> cur s' = t -> preempt s' = 0 ->
      (forall t', t' <> t -> thr s' t' = thr s t') ->
      state (thr s' t) = THREAD_STATE_RUNNING -> priority (thr s' t) = priority (thr s t) ->
      base_priority (thr s' t) = base_priority (thr s t) ->
      suspend_count (thr s' t) = suspend_count (thr s t) ->
      context_switches (thr s' t) = (if decide (t = cur s) then context_switches (thr s t)
        else u32 (context_switches (thr s t) + 1)) ->
      top q p /\ q p = t :: l /\ Ret s' = Ret s' /\ cur s' = t /\ preempt s' = 0
      /\ ready (<[p := l]> q) s' /\ state (thr s' t) = THREAD_STATE_RUNNING
      /\ context_switches (thr s' t) = (if decide (t = cur s) then context_switches (thr s t)
        else u32 (context_switches (thr s t) + 1))
      /\ (forall t', state (thr s' t') = THREAD_STATE_READY -> priority (thr s' t') <= priority (thr s' t))
      /\ forall t', t' <> t -> thr s' t' = thr s t').
  { intros s' H1 H2 H3 H4 H5 H6 H7 H8 H9.
    destruct (switch_spec q s s' p t l _ Hq Htop Hqp H1 H2 eq_refl H4 H5 H6 H7 H8) as [Hr Ho].
    do 7 (split; [done|]). split; [exact H9|]. split; [|exact H4].
    intros t' Ht'. specialize (Ho t' Ht'). by rewrite H2 in Ho. }
  destruct (decide (t = cur s)) as [Htc|Htc].
  - eexists. apply Hgo; try done; rewrite ?upd_eq; try done.
    intros t' Hne. by rewrite upd_ne.
  - destruct (truthy _); eexists; apply Hgo; unfold mark_thread_running; rewrite ?upd_eq; try done; simpl;
      try (intros t' Hne; rewrite !fn_lookup_insert_ne by done; done);
      rewrite ?fn_lookup_insert; reflexivity.
Qed.

(** C16: [mark_thread_ready] on every branch: a suspended thread only becomes
    SUSPENDED, an interrupted thread that is ready stays as it is, another ready thread
    is a panic; any other thread is charged, boosted towards but never into the realtime
    range, never below its priority, and enters the queue for its priority, in front when
    it has some quantum left, else with a new quantum and decayed priority at the end;
    [preempt] is set when it now outranks the running thread. *)
Theorem mark_thread_ready_correct q s t charge boost :
  ready q s ->
  let x := thr s t in
  let y := restarted x charge boost in
  (0 < suspend_count x ->
     mark_thread_ready s t charge boost = Ret (upd s t (fun x => set_state x THREAD_STATE_SUSPENDED)))
  /\ (state x = THREAD_STATE_READY ->
      mark_thread_ready s t charge boost
      = if truthy (Z.land (flags x) THREAD_INTERRUPTED) then Ret s else Panic)
  /\ (state x <> THREAD_STATE_READY -> suspend_count x <= 0 ->
      exists s', mark_thread_ready s t charge boost = Ret s'
        /\ ready (enqueue q y (has_quantum x charge) t) s'
        /\ thr s' t = y /\ (forall t', t' <> t -> thr s' t' = thr s t') /\ cur s' = cur s
        /\ preempt s' = (if priority (thr s' (cur s)) <? priority y then 1 else preempt s)
        /\ (has_quantum x charge = true -> priority x <= priority y)
        /\ (priority y <= Z.max (priority x) PRIORITY_TIME_CRITICAL)).
Proof.
  intros Hr x y. split_and!.
  - intros Hs. unfold mark_thread_ready. fold x. by rewrite (proj2 (Z.ltb_lt _ _) Hs).
  - intros Hs. unfold mark_thread_ready. fold x.
    rewrite (proj2 (Z.ltb_ge _ _)) by (by apply (ready_susp _ _ Hr)).
    rewrite (proj2 (Z.eqb_eq _ _) Hs). by destruct (truthy _).
  - intros Hs Hsu. destruct (mark_thread_ready_spec q s t charge boost Hr Hs Hsu) as
      (s' & He & Hr' & [O1 O2 O3] & Ht & Hp). rewrite O2 in Hp. exists s'. split_and!; try done.
    + intros Hh. unfold y, restarted. rewrite Hh. simpl. unfold boosted. lia.
    + assert (boosted x boost <= Z.max (priority x) PRIORITY_TIME_CRITICAL) by (unfold boosted; lia).
      unfold y, restarted. destruct (has_quantum x charge); cbn [priority set_priority]; [lia|].
      destruct (base_priority x <? boosted x boost); lia.
Qed.


(** ** Start-up

    [init_sched] makes the caller the idle thread and sets its bit in the summary, but
    puts no thread in its queue: until [idle_task] has marked the thread ready once, a
    wait of the initial thread finds the bit and follows the NULL head of the queue. *)

Definition init_sched (s : sched) : sched :=
  let idle := Thread THREAD_STATE_RUNNING 0 0 0 PRIORITY_SYSIDLE 0 0 0 0 0 0 in
  let s := set_dpc_queue s None None in
  let s := set_ready s (rlinks s) (fun _ => no_ends) (thread_ready_summary s) in
  let s := set_thr s (cur s) idle in
  set_ready s (rlinks s) (readyq s) (u32 (Z.shiftl 1 PRIORITY_SYSIDLE)).

Lemma init_sched_wait_faults call fuel s reason :
  enter_wait call fuel (init_sched s) reason = Fault.
Proof. reflexivity. Qed.

(** ** Witnesses

    The idle thread 0 is ready, thread 1 runs, thread 2 waits. *)

Definition ex_thread (st p : Z) : thread := Thread st 0 0 0 p p 0 0 0 0 0.

Definition ex_sched : sched :=
  Sched (fun t => match t with
           | 0%nat => ex_thread THREAD_STATE_READY PRIORITY_SYSIDLE
           | 1%nat => ex_thread THREAD_STATE_RUNNING 8
           | 2%nat => ex_thread THREAD_STATE_WAITING 9
           | _ => ex_thread THREAD_STATE_TERMINATED 8 end)
    no_links (fun p => if p =? 0 then Ends (Some 0%nat) (Some 0%nat) else no_ends) 1 0 1
    (fun _ => Dpc 0 0 None 0) None None 0 0 0 [].

Definition ex_queues (p : Z) : list nat := if p =? 0 then [0%nat] else [].

Lemma ex_sched_ready : ready ex_queues ex_sched.
Proof.
  assert (Hth : forall t, t = 0%nat \/ state (thr ex_sched t) <> THREAD_STATE_READY)
    by (intros [|[|[|t]]]; [by left|by right..]).
  split.
  - split; simpl.
    + intros p Hp. unfold ex_queues. destruct (Z.eqb_spec p 0); [|apply dl_nil].
      split_and!; [done|done|apply NoDup_singleton].
    + intros p p' t _ _. unfold ex_queues. destruct (Z.eqb_spec p 0), (Z.eqb_spec p' 0); set_solver by lia.
    + intros p [Hp Hp']. unfold ex_queues. destruct (Z.eqb_spec p 0) as [->|]; [done|].
      by destruct p.
    + unfold is_u32. simpl. lia.
  - intros p t Hp. unfold ex_queues. destruct (Hth t) as [->|Hn].
    + destruct (Z.eqb_spec p 0) as [->|]; [split; [done|set_solver]|].
      split; [set_solver|]. by intros [_ <-].
    + split; [|by intros []]. intros Ht. exfalso. apply Hn.
      destruct (p =? 0); [|set_solver]. apply list_elem_of_singleton in Ht as ->. done.
  - intros t. unfold thread_ok, valid_prio, THREAD_PRIORITY_LEVELS, is_s32.
    destruct t as [|[|[|t]]]; simpl; unfold PRIORITY_SYSIDLE; lia.
  - intros t. destruct (Hth t) as [->|]; [done|done].
Qed.

Lemma ex_sched_inv : sched_inv ex_sched.
Proof.
  split; try done.
  - eexists. apply ex_sched_ready.
  - intros [|[|[|t]]]; done.
  - intros _ [|[|[|t]]]; simpl; done || (intros; unfold PRIORITY_SYSIDLE; lia).
Qed.

Definition no_call (proc arg : Z) (s : sched) : outcome sched := Ret s.

Lemma no_call_ok : dpc_contract no_call.
Proof. intros proc arg s Hr. simpl. split_and!; [done|done|by intros t]. Qed.

(** A DPC procedure that wakes the waiting thread [arg] meets the contract. *)
Definition wake_call (proc arg : Z) (s : sched) : outcome sched :=
  let t := Z.to_nat arg in
  if state (thr s t) =? THREAD_STATE_WAITING then mark_thread_ready s t 1 1 else Ret s.

Lemma wake_call_ok : dpc_contract wake_call.
Proof.
  intros proc arg s [q Hq]. unfold wake_call. set (t := Z.to_nat arg). cbv zeta.
  destruct (Z.eqb_spec (state (thr s t)) THREAD_STATE_WAITING) as [Hw|]; [|split_and!; [by eexists|done|by intros t']].
  destruct (decide (0 < suspend_count (thr s t))) as [Hs|Hs].
  - unfold mark_thread_ready. cbv zeta. rewrite (proj2 (Z.ltb_lt _ _) Hs). split_and!; [|done|].
    + exists q. pose proof (ready_prio _ _ Hq t). apply ready_upd; try done. by rewrite Hw.
    + intros t'. destruct (decide (t' = t)) as [->|]; [by rewrite upd_eq|by rewrite upd_ne].
  - destruct (mark_thread_ready_spec q s t 1 1 Hq) as (s' & -> & Hr & [O1 O2 O3] & Ht & _);
      [by rewrite Hw|lia|]. split_and!; [by eexists|done|].
    pose proof (restarted_facts _ 1 1 (ready_prio _ _ Hq t)) as (Y & _).
    intros t'. destruct (decide (t' = t)) as [->|]; [by rewrite Ht, Y|by rewrite O1].
Qed.

Lemma sched_invariant_witness :
  exists s', rtc (sched_step wake_call) ex_sched s' /\ cur s' = 2%nat /\ sched_inv s'.
Proof.
  destruct (exec_op wake_call 5 ex_sched (MakeReady 2 0 1)) as [s1| | |] eqn:H1;
    [|vm_compute in H1; discriminate..].
  destruct (exec_op wake_call 5 s1 Preempted) as [s2| | |] eqn:H2;
    [|vm_compute in H1; injection H1 as <-; vm_compute in H2; discriminate..].
  assert (Hst : rtc (sched_step wake_call) ex_sched s2).
  { apply rtc_l with s1; [|apply rtc_once]; econstructor; [|exact H1| |exact H2]; [|done].
    intros t c b [= <- _ _]. done. }
  exists s2. split; [exact Hst|]. split.
  - vm_compute in H1. injection H1 as <-. vm_compute in H2. by injection H2 as <-.
  - exact (proj1 (sched_invariant wake_call ex_sched s2 wake_call_ok ex_sched_inv Hst)).
Defined.

Lemma mark_thread_ready_correct_witness :
  exists s', mark_thread_ready ex_sched 2 1 1 = Ret s' /\ priority (thr s' 2) = 9 /\ preempt s' = 1.
Proof.
  destruct (mark_thread_ready_correct ex_queues ex_sched 2 1 1 ex_sched_ready) as (_ & _ & H).
  destruct H as (s' & H1 & _ & H2 & _ & _ & H3 & _); [done|done|].
  exists s'. split; [exact H1|]. rewrite H2. split; [reflexivity|]. rewrite H3.
  vm_compute in H1. injection H1 as <-. reflexivity.
Defined.

Definition ex_dpcs : sched := queue_irq_dpc (queue_irq_dpc ex_sched 4 7 1) 3 8 2.

Lemma ex_dpcs_queue : dpcq ex_dpcs [4%nat; 3%nat].
Proof.
  assert (H0 : dpcq ex_sched []).
  { split; [done|done|constructor|]. intros d. simpl. split; [set_solver|done]. }
  destruct (queue_irq_dpc_new ex_sched [] 4 7 1 H0) as [H1 _]; [set_solver|].
  destruct (queue_irq_dpc_new _ _ 3 8 2 H1) as [H2 _]; [set_solver|]. exact H2.
Qed.

