(* ===== verification/Object.v ===== *)
(** * Object: objects, wait blocks and the waits on them, src/src/sys/krnl/object.c

    An object is known by its address: [Addr n], or [OnStack t] for the timer that
    thread [t] keeps on its stack while it waits with a timeout; the object of a thread
    is its control block.  The wait blocks of a wait are on the stack of the waiting
    thread too: [Wb t n] and, for the timeout, [WbTimeout t].  A thread links its wait
    blocks through [w_next]; the blocks of all threads that wait for an object form the
    doubly linked wait list of the object.

    A wait blocks the thread in the middle of the function: [wait_for_one_object] and its
    like run up to the switch to another thread, [finish_wait] is the rest.  The DPC
    procedures that run at a switch act on the scheduler; the one that signals a
    timer, [expire_waitable_timer], is an operation of its own. *)

From stdpp Require Import functions.
From S2P Require Import Prelude Dlist Timer Sched.
Local Open Scope krlean_scope.

Definition MAX_WAIT_OBJECTS : nat := 16.
Definition WAIT_ALL : Z := 0.
Definition WAIT_ANY : Z := 1.
Definition OBJECT_THREAD : Z := 0.
Definition OBJECT_EVENT : Z := 1.
Definition OBJECT_TIMER : Z := 2.
Definition OBJECT_MUTEX : Z := 3.
Definition OBJECT_SEMAPHORE : Z := 4.
Definition OBJECT_FILE : Z := 5.
Definition OBJECT_SOCKET : Z := 6.
Definition OBJECT_IOMUX : Z := 7.
Definition OBJECT_FILEMAP : Z := 8.
Definition THREAD_WAIT_OBJECT : Z := 0.
Definition INFINITE : Z := 0xFFFFFFFF.
Definition MSECS_PER_TICK : Z := 10.

Inductive oid := Addr (n : nat) | OnStack (t : nat).
#[export] Instance oid_eq_dec : EqDecision oid.
Proof. solve_decision. Defined.

Inductive wbid := Wb (t n : nat) | WbTimeout (t : nat).
#[export] Instance wbid_eq_dec : EqDecision wbid.
Proof. solve_decision. Defined.

(** The address of the object of a thread. *)
Definition thread_obj (t : nat) : oid := Addr t.
Definition obj_thread (o : oid) : nat := match o with Addr n => n | OnStack t => t end.

(** The timer of a waitable timer in the wheel. *)
Definition timer_of (o : oid) : nat :=
  match o with Addr n => (2 * n)%nat | OnStack t => S (2 * t) end.

(** [struct object] with the fields of the objects built on it: events, semaphores,
    mutexes, I/O multiplexers and I/O objects. *)
Record obj := Obj {
  otype : Z; signaled : Z; handle_count : Z; lock_count : Z;
  waitq : ends (A:=wbid);
  manual_reset : Z;
  count : Z;
  owner : option nat; recursion : Z;
  mux_ready : ends (A:=oid); mux_waiting : ends (A:=oid);
  mux_of : option oid; context : Z; events_signaled : Z; events_monitored : Z;
}.

Record waitblock := WaitBlock {
  w_thread : nat; w_object : option oid; w_type : Z; w_key : Z; w_next : option wbid }.

Record kernel := Kernel {
  sch : sched;
  whl : wheel;
  ticks : Z;
  objs : oid -> obj;
  waitlinks : links wbid;              (* [next_wait], [prev_wait] *)
  wbs : wbid -> waitblock;
  waitlist : nat -> option wbid;       (* [t->waitlist] *)
  waitkey : nat -> Z;                  (* [t->waitkey] *)
  exitcode : nat -> Z;
  muxlinks : links oid;                (* [next] and [prev] of I/O objects *)
}.

(** ** Stores *)

Definition o_signaled (o : obj) (x : Z) : obj :=
  Obj (otype o) x (handle_count o) (lock_count o) (waitq o) (manual_reset o) (count o) (owner
    o) (recursion o) (mux_ready o) (mux_waiting o) (mux_of o) (context o) (events_signaled o)
    (events_monitored o).
Definition o_waitq (o : obj) (x : ends) : obj :=
  Obj (otype o) (signaled o) (handle_count o) (lock_count o) x (manual_reset o) (count o)
    (owner o) (recursion o) (mux_ready o) (mux_waiting o) (mux_of o) (context o)
    (events_signaled o) (events_monitored o).
Definition o_manual_reset (o : obj) (x : Z) : obj :=
  Obj (otype o) (signaled o) (handle_count o) (lock_count o) (waitq o) x (count o) (owner o)
    (recursion o) (mux_ready o) (mux_waiting o) (mux_of o) (context o) (events_signaled o)
    (events_monitored o).
Definition o_count (o : obj) (x : Z) : obj :=
  Obj (otype o) (signaled o) (handle_count o) (lock_count o) (waitq o) (manual_reset o) x
    (owner o) (recursion o) (mux_ready o) (mux_waiting o) (mux_of o) (context o)
    (events_signaled o) (events_monitored o).
Definition o_owner (o : obj) (x : option nat) : obj :=
  Obj (otype o) (signaled o) (handle_count o) (lock_count o) (waitq o) (manual_reset o) (count
    o) x (recursion o) (mux_ready o) (mux_waiting o) (mux_of o) (context o) (events_signaled o)
    (events_monitored o).
Definition o_recursion (o : obj) (x : Z) : obj :=
  Obj (otype o) (signaled o) (handle_count o) (lock_count o) (waitq o) (manual_reset o) (count
    o) (owner o) x (mux_ready o) (mux_waiting o) (mux_of o) (context o) (events_signaled o)
    (events_monitored o).
Definition o_mux_ready (o : obj) (x : ends) : obj :=
  Obj (otype o) (signaled o) (handle_count o) (lock_count o) (waitq o) (manual_reset o) (count
    o) (owner o) (recursion o) x (mux_waiting o) (mux_of o) (context o) (events_signaled o)
    (events_monitored o).
Definition o_mux_waiting (o : obj) (x : ends) : obj :=
  Obj (otype o) (signaled o) (handle_count o) (lock_count o) (waitq o) (manual_reset o) (count
    o) (owner o) (recursion o) (mux_ready o) x (mux_of o) (context o) (events_signaled o)
    (events_monitored o).
Definition o_mux_of (o : obj) (x : option oid) : obj :=
  Obj (otype o) (signaled o) (handle_count o) (lock_count o) (waitq o) (manual_reset o) (count
    o) (owner o) (recursion o) (mux_ready o) (mux_waiting o) x (context o) (events_signaled o)
    (events_monitored o).
Definition o_context (o : obj) (x : Z) : obj :=
  Obj (otype o) (signaled o) (handle_count o) (lock_count o) (waitq o) (manual_reset o) (count
    o) (owner o) (recursion o) (mux_ready o) (mux_waiting o) (mux_of o) x (events_signaled o)
    (events_monitored o).
Definition o_events_signaled (o : obj) (x : Z) : obj :=
  Obj (otype o) (signaled o) (handle_count o) (lock_count o) (waitq o) (manual_reset o) (count
    o) (owner o) (recursion o) (mux_ready o) (mux_waiting o) (mux_of o) (context o) x
    (events_monitored o).
Definition o_events_monitored (o : obj) (x : Z) : obj :=
  Obj (otype o) (signaled o) (handle_count o) (lock_count o) (waitq o) (manual_reset o) (count
    o) (owner o) (recursion o) (mux_ready o) (mux_waiting o) (mux_of o) (context o)
    (events_signaled o) x.

Definition put_w_thread (w : waitblock) (x : nat) : waitblock :=
  WaitBlock x (w_object w) (w_type w) (w_key w) (w_next w).
Definition put_w_object (w : waitblock) (x : option oid) : waitblock :=
  WaitBlock (w_thread w) x (w_type w) (w_key w) (w_next w).
Definition put_w_type (w : waitblock) (x : Z) : waitblock :=
  WaitBlock (w_thread w) (w_object w) x (w_key w) (w_next w).
Definition put_w_key (w : waitblock) (x : Z) : waitblock :=
  WaitBlock (w_thread w) (w_object w) (w_type w) x (w_next w).
Definition put_w_next (w : waitblock) (x : option wbid) : waitblock :=
  WaitBlock (w_thread w) (w_object w) (w_type w) (w_key w) x.

Definition with_sch (k : kernel) (x : sched) : kernel :=
  Kernel x (whl k) (ticks k) (objs k) (waitlinks k) (wbs k) (waitlist k) (waitkey k) (exitcode
    k) (muxlinks k).
Definition with_whl (k : kernel) (x : wheel) : kernel :=
  Kernel (sch k) x (ticks k) (objs k) (waitlinks k) (wbs k) (waitlist k) (waitkey k) (exitcode
    k) (muxlinks k).
Definition with_objs (k : kernel) (x : oid -> obj) : kernel :=
  Kernel (sch k) (whl k) (ticks k) x (waitlinks k) (wbs k) (waitlist k) (waitkey k) (exitcode
    k) (muxlinks k).
Definition with_waitlinks (k : kernel) (x : links wbid) : kernel :=
  Kernel (sch k) (whl k) (ticks k) (objs k) x (wbs k) (waitlist k) (waitkey k) (exitcode k)
    (muxlinks k).
Definition with_wbs (k : kernel) (x : wbid -> waitblock) : kernel :=
  Kernel (sch k) (whl k) (ticks k) (objs k) (waitlinks k) x (waitlist k) (waitkey k) (exitcode
    k) (muxlinks k).
Definition with_waitlist (k : kernel) (x : nat -> option wbid) : kernel :=
  Kernel (sch k) (whl k) (ticks k) (objs k) (waitlinks k) (wbs k) x (waitkey k) (exitcode k)
    (muxlinks k).
Definition with_waitkey (k : kernel) (x : nat -> Z) : kernel :=
  Kernel (sch k) (whl k) (ticks k) (objs k) (waitlinks k) (wbs k) (waitlist k) x (exitcode k)
    (muxlinks k).
Definition with_muxlinks (k : kernel) (x : links oid) : kernel :=
  Kernel (sch k) (whl k) (ticks k) (objs k) (waitlinks k) (wbs k) (waitlist k) (waitkey k)
    (exitcode k) x.

Definition set_obj (k : kernel) (o : oid) (f : obj -> obj) : kernel :=
  with_objs k (<[o := f (objs k o)]> (objs k)).
Definition set_wb (k : kernel) (b : wbid) (w : waitblock) : kernel :=
  with_wbs k (<[b := w]> (wbs k)).
Definition set_waitlist (k : kernel) (t : nat) (b : option wbid) : kernel :=
  with_waitlist k (<[t := b]> (waitlist k)).
Definition set_waitkey (k : kernel) (t : nat) (x : Z) : kernel :=
  with_waitkey k (<[t := x]> (waitkey k)).
Definition set_signaled (k : kernel) (o : oid) (x : Z) : kernel :=
  set_obj k o (fun b => o_signaled b x).
Definition self (k : kernel) : nat := cur (sch k).

(** ** Wait lists *)

Definition insert_in_waitlist (k : kernel) (o : oid) (b : wbid) : kernel :=
  let '(l, q) := dl_append (waitlinks k) (waitq (objs k o)) b in
  set_obj (with_waitlinks k l) o (fun x => o_waitq x q).

Definition remove_from_waitlist (k : kernel) (b : wbid) : outcome kernel :=
  o <~ deref (w_object (wbs k b));
  let '(l, q) := dl_remove (waitlinks k) (waitq (objs k o)) b in
  let k := set_obj (with_waitlinks k l) o (fun x => o_waitq x q) in
  let k := set_wb k b (put_w_object (wbs k b) None) in
  Ret (with_waitlinks k (set_pv (set_nx (waitlinks k) b None) b None)).

(** The walk over the wait blocks of a thread; a wait has at most 16 objects and a
    timeout. *)
Fixpoint ready_loop (fuel : nat) (k : kernel) (t : nat) (b : option wbid) (any all : bool)
    : outcome (bool * bool * kernel) :=
  match b, fuel with
  | None, _ => Ret (any, all, k)
  | Some _, O => Diverge
  | Some b, S fuel =>
      let w := wbs k b in
      o <~ deref (w_object w);
      let sig := truthy (signaled (objs k o)) in
      let k := if sig then set_waitkey k t (w_key w) else k in
      if w_type w =? WAIT_ANY then ready_loop fuel k t (w_next w) (sig || any) all
      else ready_loop fuel k t (w_next w) any (sig && all)
  end.

Definition wait_fuel : nat := S MAX_WAIT_OBJECTS.

Definition thread_ready_to_run (k : kernel) (t : nat) : outcome (bool * kernel) :=
  '(any, all, k) <~ ready_loop wait_fuel k t (waitlist k t) false true;
  Ret (any || all, k).

Fixpoint cancel_loop (fuel : nat) (k : kernel) (b : option wbid) : outcome kernel :=
  match b, fuel with
  | None, _ => Ret k
  | Some _, O => Diverge
  | Some b, S fuel =>
      k <~ remove_from_waitlist k b;
      cancel_loop fuel k (w_next (wbs k b))
  end.

Definition cancel_wait (k : kernel) (t : nat) : outcome kernel :=
  k <~ cancel_loop wait_fuel k (waitlist k t);
  Ret (set_waitlist k t None).

Definition release_thread (k : kernel) (t : nat) : outcome kernel :=
  k <~ cancel_wait k t;
  s <~ mark_thread_ready (sch k) t 1 1;
  Ret (with_sch k s).

(** The loops over the wait list of an object are alike: the successor is read, and if
    the thread of the block is ready to run, [wake] releases it and says whether to
    stop. *)
Fixpoint wake_loop (wake : kernel -> nat -> outcome (bool * kernel)) (fuel : nat) (k : kernel)
    (b : option wbid) : outcome kernel :=
  match b, fuel with
  | None, _ => Ret k
  | Some _, O => Diverge
  | Some b, S fuel =>
      let next := nx (waitlinks k) b in
      let t := w_thread (wbs k b) in
      '(ready, k) <~ thread_ready_to_run k t;
      if (ready : bool) then
        '(stop, k) <~ wake k t;
        if (stop : bool) then Ret k else wake_loop wake fuel k next
      else wake_loop wake fuel k next
  end.

Definition for_waiters (wake : kernel -> nat -> outcome (bool * kernel)) (fuel : nat) (k : kernel)
    (o : oid) : outcome kernel := wake_loop wake fuel k (first (waitq (objs k o))).

Definition release_waiters (fuel : nat) (k : kernel) (o : oid) (key : Z) : outcome kernel :=
  for_waiters (fun k t => k <~ release_thread (set_waitkey k t key) t; Ret (false, k)) fuel k o.

(** [while (wb) { if (thread_ready_to_run(wb->thread)) break; wb = wb->next_wait; }] *)
Fixpoint find_waiter (fuel : nat) (k : kernel) (b : option wbid) : outcome (option wbid * kernel) :=
  match b, fuel with
  | None, _ => Ret (None, k)
  | Some _, O => Diverge
  | Some b, S fuel =>
      '(ready, k) <~ thread_ready_to_run k (w_thread (wbs k b));
      if (ready : bool) then Ret (Some b, k) else find_waiter fuel k (nx (waitlinks k) b)
  end.

(** ** I/O multiplexers (iomux.c): taking a ready object *)

(** Whether the object is on the ready queue of its multiplexer. *)
Definition io_ready (b : obj) : bool := truthy (Z.land (events_monitored b) (events_signaled b)).

Definition detach_ioobject (k : kernel) (o : oid) : kernel :=
  let b := objs k o in
  match mux_of b with
  | None => k
  | Some m =>
      let q := if io_ready b then mux_ready (objs k m) else mux_waiting (objs k m) in
      let '(l, q) := dl_remove (muxlinks k) q o in
      let k := with_muxlinks k l in
      let k := if io_ready b then
                 let k := set_obj k m (fun x => o_mux_ready x q) in
                 match first q with None => set_signaled k m 0 | Some _ => k end
               else set_obj k m (fun x => o_mux_waiting x q) in
      let k := set_obj k o (fun x => o_mux_of x None) in
      with_muxlinks k (set_pv (set_nx (muxlinks k) o None) o None)
  end.

Definition dequeue_event_from_iomux (k : kernel) (m : oid) : Z * kernel :=
  match first (mux_ready (objs k m)) with
  | None => (- ENOENT, k)
  | Some o => let k := detach_ioobject k o in (context (objs k o), k)
  end.

(** ** Entering a signaled object *)

Definition enter_object (k : kernel) (o : oid) : Z * kernel :=
  let b := objs k o in
  if otype b =? OBJECT_THREAD then (exitcode k (obj_thread o), k)
  else if otype b =? OBJECT_EVENT then
    (0, if manual_reset b =? 0 then set_signaled k o 0 else k)
  else if otype b =? OBJECT_MUTEX then
    let k := set_signaled k o 0 in
    let k := set_obj k o (fun x => o_owner x (Some (self k))) in
    (0, set_obj k o (fun x => o_recursion x 1))
  else if otype b =? OBJECT_SEMAPHORE then
    let k := set_obj k o (fun x => o_count x (u32 (count x - 1))) in
    (0, if count (objs k o) =? 0 then set_signaled k o 0 else k)
  else if otype b =? OBJECT_IOMUX then dequeue_event_from_iomux k o
  else if otype b =? OBJECT_FILEMAP then (0, set_signaled k o 0)
  else (0, k).

(** ** Objects *)

Definition init_object (k : kernel) (o : oid) (type : Z) : kernel :=
  set_obj k o (fun b =>
    Obj type 0 0 0 no_ends (manual_reset b) (count b) (owner b) (recursion b)
      (mux_ready b) (mux_waiting b) (mux_of b) (context b) (events_signaled b) (events_monitored b)).

Definition exit_thread (fuel : nat) (k : kernel) (t : nat) : outcome kernel :=
  let k := set_signaled k (thread_obj t) 1 in
  release_waiters fuel k (thread_obj t) (exitcode k t).

Definition init_event (k : kernel) (e : oid) (manual initial : Z) : kernel :=
  let k := init_object k e OBJECT_EVENT in
  let k := set_obj k e (fun b => o_manual_reset b manual) in
  set_signaled k e (s16 initial).

(** In [pulse_event] the loop goes on to the next block only after a release. *)
Fixpoint pulse_loop (fuel : nat) (k : kernel) (e : oid) (b : option wbid) : outcome kernel :=
  match b, fuel with
  | None, _ => Ret k
  | Some _, O => Diverge
  | Some b, S fuel =>
      let next := nx (waitlinks k) b in
      let t := w_thread (wbs k b) in
      '(ready, k) <~ thread_ready_to_run k t;
      if (ready : bool) then
        k <~ release_thread k t;
        if manual_reset (objs k e) =? 0 then Ret k else pulse_loop fuel k e next
      else pulse_loop fuel k e (Some b)
  end.

Definition pulse_event (fuel : nat) (k : kernel) (e : oid) : outcome kernel :=
  let k := set_signaled k e 1 in
  k <~ pulse_loop fuel k e (first (waitq (objs k e)));
  Ret (set_signaled k e 0).

Definition wake_event (e : oid) (k : kernel) (t : nat) : outcome (bool * kernel) :=
  k <~ release_thread k t;
  if manual_reset (objs k e) =? 0 then Ret (true, set_signaled k e 0) else Ret (false, k).

Definition set_event (fuel : nat) (k : kernel) (e : oid) : outcome kernel :=
  for_waiters (wake_event e) fuel (set_signaled k e 1) e.

Definition reset_event (k : kernel) (e : oid) : kernel := set_signaled k e 0.

Definition init_sem (k : kernel) (s : oid) (initial : Z) : kernel :=
  let k := init_object k s OBJECT_SEMAPHORE in
  let k := set_obj k s (fun b => o_count b initial) in
  set_signaled k s (of_bool (0 <? initial)).

Definition wake_sem (s : oid) (k : kernel) (t : nat) : outcome (bool * kernel) :=
  let k := set_obj k s (fun b => o_count b (u32 (count b - 1))) in
  k <~ release_thread k t;
  if count (objs k s) =? 0 then Ret (true, set_signaled k s 0) else Ret (false, k).

Definition release_sem (fuel : nat) (k : kernel) (s : oid) (n : Z) : outcome (Z * kernel) :=
  let prevcount := count (objs k s) in
  let k := set_obj k s (fun b => o_count b (u32 (count b + n))) in
  if 0 <? count (objs k s) then
    k <~ for_waiters (wake_sem s) fuel (set_signaled k s 1) s;
    Ret (prevcount, k)
  else Ret (prevcount, k).

Definition set_sem (fuel : nat) (k : kernel) (s : oid) (n : Z) : outcome (Z * kernel) :=
  let prevcount := count (objs k s) in
  let k := set_obj k s (fun b => o_count b n) in
  if 0 <? count (objs k s) then
    k <~ for_waiters (wake_sem s) fuel (set_signaled k s 1) s;
    Ret (prevcount, k)
  else Ret (prevcount, k).

Definition init_mutex (k : kernel) (m : oid) (owned : bool) : kernel :=
  let k := init_object k m OBJECT_MUTEX in
  if owned then
    let k := set_obj k m (fun b => o_owner b (Some (self k))) in
    let k := set_signaled k m 0 in
    set_obj k m (fun b => o_recursion b 1)
  else
    let k := set_obj k m (fun b => o_owner b None) in
    let k := set_signaled k m 1 in
    set_obj k m (fun b => o_recursion b 0).

Definition release_mutex (fuel : nat) (k : kernel) (m : oid) : outcome (Z * kernel) :=
  if decide (owner (objs k m) = Some (self k)) then
    let k := set_obj k m (fun b => o_recursion b (s32 (recursion b - 1))) in
    if 0 <? recursion (objs k m) then Ret (0, k)
    else
      let k := set_signaled k m 1 in
      let k := set_obj k m (fun b => o_owner b None) in
      '(b, k) <~ find_waiter fuel k (first (waitq (objs k m)));
      match b with
      | None => Ret (0, k)
      | Some b =>
          let t := w_thread (wbs k b) in
          let k := set_obj k m (fun b => o_owner b (Some t)) in
          let k := set_obj k m (fun b => o_recursion b 1) in
          let k := set_signaled k m 0 in
          k <~ release_thread k t;
          Ret (0, k)
      end
  else Ret (- EPERM, k).

Definition unlock_filemap (fuel : nat) (k : kernel) (m : oid) : outcome (Z * kernel) :=
  let k := set_signaled k m 1 in
  '(b, k) <~ find_waiter fuel k (first (waitq (objs k m)));
  match b with
  | None => Ret (0, k)
  | Some b =>
      let t := w_thread (wbs k b) in
      let k := set_signaled k m 0 in
      k <~ release_thread k t;
      Ret (0, k)
  end.

(** ** Waitable timers *)

(** The handler of the timer. *)
Definition expire_waitable_timer (fuel : nat) (k : kernel) (o : oid) : outcome kernel :=
  release_waiters fuel (set_signaled k o 1) o 0.

Definition init_waitable_timer (k : kernel) (o : oid) (expires : Z) : outcome kernel :=
  let k := init_object k o OBJECT_TIMER in
  let k := with_whl k (init_timer (whl k) (timer_of o)) in
  let k := with_whl k (set_expires (whl k) (timer_of o) expires) in
  if 0 <=? s32 (ticks k - expires) then Ret (set_signaled k o 1)
  else w <~ add_timer (whl k) (timer_of o); Ret (with_whl k w).

Definition modify_waitable_timer (k : kernel) (o : oid) (expires : Z) : outcome kernel :=
  '(_, w) <~ mod_timer (whl k) (timer_of o) expires; Ret (with_whl k w).

Definition cancel_waitable_timer (k : kernel) (o : oid) : outcome kernel :=
  if active (whl k) (timer_of o) then
    '(_, w) <~ del_timer (whl k) (timer_of o); Ret (with_whl k w)
  else Ret k.

(** ** Closing *)

Section Close.
(** The close operations of files (vfs.c), sockets (socket.c) and multiplexers. *)
Context (close closesocket close_iomux : kernel -> oid -> outcome (Z * kernel)).

Fixpoint drain_waiters (fuel : nat) (k : kernel) (o : oid) : outcome kernel :=
  match first (waitq (objs k o)), fuel with
  | None, _ => Ret k
  | Some _, O => Diverge
  | Some b, S fuel =>
      let t := w_thread (wbs k b) in
      k <~ release_thread (set_waitkey k t (- EINTR)) t;
      drain_waiters fuel k o
  end.

Definition close_object (fuel : nat) (k : kernel) (o : oid) : outcome (Z * kernel) :=
  k <~ drain_waiters fuel k o;
  let ty := otype (objs k o) in
  if (ty =? OBJECT_THREAD) || (ty =? OBJECT_EVENT) || (ty =? OBJECT_MUTEX)
     || (ty =? OBJECT_SEMAPHORE) || (ty =? OBJECT_FILEMAP) then Ret (0, k)
  else if ty =? OBJECT_TIMER then k <~ cancel_waitable_timer k o; Ret (0, k)
  else if ty =? OBJECT_FILE then close k o
  else if ty =? OBJECT_SOCKET then closesocket k o
  else if ty =? OBJECT_IOMUX then close_iomux k o
  else Ret (- EBADF, k).
End Close.

(** ** Waiting *)

Inductive wait_result :=
  | Done (rc : Z)                          (* the function returns [rc] *)
  | Blocked (alertable timed : bool)       (* the thread waits; [finish_wait] is the rest *)
  | Sleeping (timeout : Z).                (* [msleep] is called, for a wait for no objects *)

Section Wait.
Context (call : Z -> Z -> sched -> outcome sched) (fuel : nat).

(** After the switch back, or when an alertable wait is refused: the tail of the three
    wait functions. *)
Definition end_wait (k : kernel) (t : nat) (rc : Z) (timed : bool) : outcome (Z * kernel) :=
  k <~ (if rc <? 0 then k <~ cancel_wait k t; Ret (set_waitkey k t rc) else Ret k);
  k <~ (if timed then cancel_waitable_timer k (OnStack t) else Ret k);
  Ret (waitkey k t, k).

Definition finish_wait (k : kernel) (alertable timed : bool) : outcome (Z * kernel) :=
  let t := self k in
  if alertable then
    let '(rc, s) := leave_alertable_wait (sch k) in
    end_wait (with_sch k s) t rc timed
  else end_wait k t 0 timed.

Definition block (k : kernel) (alertable timed : bool) : outcome (wait_result * kernel) :=
  let t := self k in
  if alertable then
    '(rc, s) <~ enter_alertable_wait call fuel (sch k) THREAD_WAIT_OBJECT;
    if rc <? 0 then '(rc, k) <~ end_wait (with_sch k s) t rc timed; Ret (Done rc, k)
    else Ret (Blocked alertable timed, with_sch k s)
  else
    s <~ enter_wait call fuel (sch k) THREAD_WAIT_OBJECT;
    Ret (Blocked alertable timed, with_sch k s).

(** The timer for a timeout, its wait block being linked behind [b]. *)
Definition start_timeout (k : kernel) (b : wbid) (timeout : Z) : outcome kernel :=
  let t := self k in
  let timeout := if timeout <? MSECS_PER_TICK then MSECS_PER_TICK else timeout in
  k <~ init_waitable_timer k (OnStack t) (u32 (ticks k + timeout / MSECS_PER_TICK));
  let k := set_wb k b (put_w_next (wbs k b) (Some (WbTimeout t))) in
  let k := set_wb k (WbTimeout t)
             (WaitBlock t (Some (OnStack t)) WAIT_ANY (- ETIMEOUT) None) in
  Ret (insert_in_waitlist k (OnStack t) (WbTimeout t)).

(** Whether the current thread owns the mutex. *)
Definition owns (k : kernel) (o : oid) : bool :=
  (otype (objs k o) =? OBJECT_MUTEX) && bool_decide (owner (objs k o) = Some (self k)).

Definition enter_again (k : kernel) (o : oid) : kernel :=
  set_obj k o (fun b => o_recursion b (s32 (recursion b + 1))).

Definition wait_for_one_object (k : kernel) (o : oid) (timeout : Z) (alertable : bool)
    : outcome (wait_result * kernel) :=
  let t := self k in
  if truthy (signaled (objs k o)) then let '(rc, k) := enter_object k o in Ret (Done rc, k)
  else if owns k o then Ret (Done 0, enter_again k o)
  else if timeout =? 0 then Ret (Done (- ETIMEOUT), k)
  else
    let b := Wb t 0 in
    let k := set_waitlist k t (Some b) in
    let k := set_wb k b (WaitBlock t (Some o) WAIT_ANY 0 None) in
    let k := insert_in_waitlist k o b in
    if timeout =? INFINITE then block k alertable false
    else
      k <~ start_timeout k b timeout;
      block k alertable true.

Definition wait_for_object (k : kernel) (o : oid) (timeout : Z) : outcome (wait_result * kernel) :=
  wait_for_one_object k o timeout false.

(** The loop that sets up the wait blocks, from the [n]th object on. *)
Fixpoint setup_waitblocks (k : kernel) (type : Z) (n : nat) (os : list oid) : kernel :=
  match os with
  | [] => k
  | o :: os =>
      let t := self k in
      let b := Wb t n in
      let k := match n with
               | O => set_waitlist k t (Some b)
               | S m => set_wb k (Wb t m) (put_w_next (wbs k (Wb t m)) (Some b))
               end in
      let k := set_wb k b (WaitBlock t (Some o) type (Z.of_nat n) None) in
      setup_waitblocks (insert_in_waitlist k o b) type (S n) os
  end.

Definition wait_for_objects (k : kernel) (type : Z) (os : list oid) (timeout : Z) (alertable : bool)
    : outcome (wait_result * kernel) :=
  let t := self k in
  let k := setup_waitblocks k type 0 os in
  if timeout =? INFINITE then block k alertable false
  else
    k <~ start_timeout k (Wb t (length os - 1)) timeout;
    block k alertable true.

(** The test of [wait_for_all_objects] that an object need not be waited for. *)
Definition entered (k : kernel) (o : oid) : bool :=
  if otype (objs k o) =? OBJECT_MUTEX then
    negb (negb (truthy (signaled (objs k o)))
          || negb (bool_decide (owner (objs k o) = Some (self k))))
  else truthy (signaled (objs k o)).

Fixpoint enter_all (k : kernel) (rc : Z) (os : list oid) : Z * kernel :=
  match os with
  | [] => (rc, k)
  | o :: os =>
      if truthy (signaled (objs k o)) then
        let '(r, k) := enter_object k o in enter_all k (Z.lor rc r) os
      else if owns k o then enter_all (enter_again k o) rc os
      else enter_all k rc os
  end.

Definition wait_for_all_objects (k : kernel) (os : list oid) (timeout : Z) (alertable : bool)
    : outcome (wait_result * kernel) :=
  match os with
  | [] => if timeout =? INFINITE then Ret (Done (- EINVAL), k) else Ret (Sleeping timeout, k)
  | _ =>
      if (MAX_WAIT_OBJECTS <? length os)%nat then Ret (Done (- EINVAL), k)
      else if forallb (entered k) os then let '(rc, k) := enter_all k 0 os in Ret (Done rc, k)
      else if timeout =? 0 then Ret (Done (- ETIMEOUT), k)
      else wait_for_objects k WAIT_ALL os timeout alertable
  end.

(** The search of [wait_for_any_object], from the [n]th object on. *)
Fixpoint enter_any (k : kernel) (n : Z) (os : list oid) : option (Z * kernel) :=
  match os with
  | [] => None
  | o :: os =>
      if truthy (signaled (objs k o)) then
        let '(rc, k) := enter_object k o in Some (if rc =? 0 then n else rc, k)
      else if owns k o then Some (n, enter_again k o)
      else enter_any k (n + 1) os
  end.

Definition wait_for_any_object (k : kernel) (os : list oid) (timeout : Z) (alertable : bool)
    : outcome (wait_result * kernel) :=
  match os with
  | [] => if timeout =? INFINITE then Ret (Done (- EINVAL), k) else Ret (Sleeping timeout, k)
  | _ =>
      if (MAX_WAIT_OBJECTS <? length os)%nat then Ret (Done (- EINVAL), k)
      else match enter_any k 0 os with
           | Some (rc, k) => Ret (Done rc, k)
           | None =>
               if timeout =? 0 then Ret (Done (- ETIMEOUT), k)
               else wait_for_objects k WAIT_ANY os timeout alertable
           end
  end.
End Wait.

(** ** The invariant of wait lists

    [W t]: the wait blocks of thread [t]; [Q o]: those on the wait list of [o]. *)

Record waits (k : kernel) (W : nat -> list wbid) (Q : oid -> list wbid) : Prop := {
  ws_thread : forall t, seg (fun b => w_next (wbs k b)) (waitlist k t) (W t) None;
  ws_nodup : forall t, NoDup (W t);
  ws_len : forall t, (length (W t) <= wait_fuel)%nat;
  ws_own : forall t b, b ∈ W t -> w_thread (wbs k b) = t /\ is_Some (w_object (wbs k b));
  ws_obj : forall o, dl (waitlinks k) (waitq (objs k o)) (Q o);
  ws_in : forall o b, b ∈ Q o <-> exists t, b ∈ W t /\ w_object (wbs k b) = Some o;
}.

(** Apart from wait lists, [k'] has the objects [ob] and is like [k]. *)
Record rest_same (k k' : kernel) (ob : oid -> obj) : Prop := {
  rs_objs : forall o, objs k' o = o_waitq (ob o) (waitq (objs k' o));
  rs_whl : whl k' = whl k;
  rs_ticks : ticks k' = ticks k;
  rs_exit : exitcode k' = exitcode k;
  rs_mux : muxlinks k' = muxlinks k;
}.

Lemma rest_same_trans k1 k2 k3 ob : rest_same k1 k2 ob -> rest_same k2 k3 (objs k2) -> rest_same k1 k3 ob.
Proof.
  intros [R1 R2 R3 R4 R5] [T1 T2 T3 T4 T5]. split; try congruence.
  intros o. etransitivity; [apply T1|]. rewrite (R1 o) at 1. reflexivity.
Qed.

Definition minus (l k : list wbid) : list wbid := filter (fun b => b ∉ l) k.

Lemma minus_nil k : minus [] k = k.
Proof. apply filter_id. set_solver. Qed.

Lemma elem_minus b l k : b ∈ minus l k <-> b ∈ k /\ b ∉ l.
Proof. unfold minus. rewrite list_elem_of_filter. naive_solver. Qed.

Lemma minus_cons b l k : minus (b :: l) k = minus l (minus [b] k).
Proof.
  unfold minus. rewrite list_filter_filter. apply list_filter_iff. intros x. set_solver.
Qed.

Lemma minus_middle b a c : NoDup (a ++ b :: c) -> minus [b] (a ++ b :: c) = a ++ c.
Proof.
  intros (Ha & Hab & [Hb Hc]%NoDup_cons)%NoDup_app. unfold minus.
  rewrite filter_app, filter_cons, decide_False by set_solver.
  rewrite !filter_id; [done|set_solver|set_solver].
Qed.

Lemma minus_other l k : (forall b, b ∈ l -> b ∉ k) -> minus l k = k.
Proof. intros H. apply filter_id. set_solver. Qed.

(** [set_obj] and its like, pointwise. *)
Lemma objs_set_obj k o f o' :
  objs (set_obj k o f) o' = if decide (o' = o) then f (objs k o) else objs k o'.
Proof.
  unfold set_obj. simpl. case_decide as H; [subst; apply fn_lookup_insert|by apply fn_lookup_insert_ne].
Qed.

Lemma wbs_set_wb k b w b' :
  wbs (set_wb k b w) b' = if decide (b' = b) then w else wbs k b'.
Proof.
  unfold set_wb. simpl. case_decide as H; [subst; apply fn_lookup_insert|by apply fn_lookup_insert_ne].
Qed.

Lemma o_waitq_id o : o = o_waitq o (waitq o).
Proof. by destruct o. Qed.

Section Cancel.
Implicit Types (Q : oid -> list wbid).

Definition queues_ok (k : kernel) Q : Prop :=
  (forall o, dl (waitlinks k) (waitq (objs k o)) (Q o))
  /\ (forall o o' b, b ∈ Q o -> b ∈ Q o' -> o = o').

Lemma remove_from_waitlist_spec k Q b o :
  queues_ok k Q -> w_object (wbs k b) = Some o -> b ∈ Q o ->
  exists k', remove_from_waitlist k b = Ret k'
    /\ queues_ok k' (fun o => minus [b] (Q o))
    /\ rest_same k k' (objs k) /\ sch k' = sch k /\ waitkey k' = waitkey k /\ waitlist k' = waitlist k
    /\ (forall b', b' <> b -> wbs k' b' = wbs k b') /\ w_next (wbs k' b) = w_next (wbs k b).
Proof.
  intros [Hd Hdis] Ho Hb. unfold remove_from_waitlist. rewrite Ho. cbn [deref obind].
  pose proof Hb as (x & y & Hxy)%list_elem_of_split.
  pose proof (Hd o) as Hdo. rewrite Hxy in Hdo. pose proof (dl_remove_spec _ _ _ _ _ Hdo) as Hr.
  destruct (dl_remove (waitlinks k) (waitq (objs k o)) b) as [l q]. destruct Hr as (Hq & Hl & _).
  eexists. split; [reflexivity|].
  pose proof (dl_nodup _ _ _ Hdo) as Hnd.
  split_and!; try done.
  - split.
    + intros o'. cbn [with_waitlinks waitlinks set_wb with_wbs objs]. rewrite objs_set_obj.
      cbn [with_waitlinks objs].
      assert (Hne : forall l', b ∉ l' -> forall l0 q0, dl l0 q0 l' ->
        dl (set_pv (set_nx l0 b None) b None) q0 l').
      { intros l' Hbl l0 q0. apply dl_ext. intros z Hz. simpl.
        rewrite !fn_lookup_insert_ne by set_solver. done. }
      case_decide as He.
      * subst o'. cbn [o_waitq waitq]. rewrite Hxy, minus_middle by done. apply Hne; [|done].
        apply NoDup_app in Hnd as (_ & ? & [? _]%NoDup_cons). set_solver.
      * rewrite minus_other.
        2:{ intros z ->%list_elem_of_singleton Hz. apply He. by eapply Hdis. }
        apply Hne; [intros Hz; apply He; by eapply Hdis|].
        eapply dl_ext; [|apply Hd]. intros z Hz. apply Hl. intros Hz'. apply He.
        eapply Hdis; [exact Hz|]. rewrite Hxy. set_solver.
    + intros o1 o2 z [H1 _]%elem_minus [H2 _]%elem_minus. by eapply Hdis.
  - split; try done. intros o'. cbn [with_waitlinks set_wb with_wbs objs].
    rewrite objs_set_obj. case_decide as He; [subst; reflexivity|]. apply o_waitq_id.
  - intros b' Hne. cbn [with_waitlinks wbs]. rewrite wbs_set_wb. by rewrite decide_False.
  - cbn [with_waitlinks wbs]. rewrite wbs_set_wb. by rewrite decide_True.
Qed.

Lemma cancel_loop_spec l : forall fuel k b Q,
  seg (fun b => w_next (wbs k b)) b l None -> NoDup l -> queues_ok k Q ->
  (forall b, b ∈ l -> exists o, w_object (wbs k b) = Some o /\ b ∈ Q o) ->
  (length l <= fuel)%nat ->
  exists k', cancel_loop fuel k b = Ret k' /\ queues_ok k' (fun o => minus l (Q o))
    /\ rest_same k k' (objs k) /\ sch k' = sch k /\ waitkey k' = waitkey k /\ waitlist k' = waitlist k
    /\ forall b', b' ∉ l -> wbs k' b' = wbs k b'.
Proof.
  induction l as [|b0 l IH]; intros fuel k b Q Hs Hn Hq Hl Hf.
  - exists k. simpl in Hs. rewrite Hs. split; [by destruct fuel|]. split_and!; try done.
    + split; [intros o; rewrite minus_nil; apply Hq|].
      intros o o' z. rewrite !minus_nil. apply Hq.
    + split; try done. intros o. apply o_waitq_id.
  - destruct Hs as [-> Hs]. destruct fuel as [|fuel]; [simpl in Hf; lia|]. simpl.
    destruct (Hl b0) as (o & Ho & Hb); [set_solver|]. apply NoDup_cons in Hn as [Hb0 Hn].
    destruct (remove_from_waitlist_spec k Q b0 o Hq Ho Hb) as (k1 & -> & Hq1 & Hr1 & S1 & K1 & L1 & Hw & Hnx).
    cbn [obind].
    destruct (IH fuel k1 (w_next (wbs k1 b0)) (fun o => minus [b0] (Q o)))
      as (k2 & -> & Hq2 & Hr2 & S2 & K2 & L2 & Hw2); try done.
    + rewrite Hnx. eapply seg_ext; [|exact Hs]. intros z Hz. simpl. rewrite Hw; [done|set_solver].
    + intros z Hz. destruct (Hl z) as (oz & Hoz & Hzq); [set_solver|]. exists oz.
      rewrite Hw by set_solver. split; [done|]. apply elem_minus. set_solver.
    + simpl in Hf. lia.
    + exists k2. split; [done|]. split_and!; try congruence.
      * destruct Hq2 as [A B]. split.
        -- intros o'. rewrite (minus_cons b0 l). apply A.
        -- intros o1 o2 z. rewrite !(minus_cons b0 l). apply B.
      * by eapply rest_same_trans.
      * intros z Hz. rewrite Hw2, Hw by set_solver. done.
Qed.
End Cancel.

Lemma waits_queues_ok k W Q : waits k W Q -> queues_ok k Q.
Proof.
  intros Hw. split; [apply Hw|]. intros o o' b (t & _ & H1)%(ws_in _ _ _ Hw) (t' & _ & H2)%(ws_in _ _ _ Hw).
  congruence.
Qed.

(** [cancel_wait] takes exactly the blocks of the thread out of all lists. *)
Lemma cancel_wait_spec k W Q t :
  waits k W Q ->
  exists k', cancel_wait k t = Ret k'
    /\ waits k' (<[t := []]> W) (fun o => minus (W t) (Q o))
    /\ rest_same k k' (objs k) /\ sch k' = sch k /\ waitkey k' = waitkey k
    /\ forall b, b ∉ W t -> wbs k' b = wbs k b.
Proof.
  intros Hw. unfold cancel_wait.
  destruct (cancel_loop_spec (W t) wait_fuel k (waitlist k t) Q) as
    (k1 & -> & [Hd Hdis] & [R1 R2 R3 R4 R5] & S1 & K1 & L1 & Hwb); [apply Hw|apply Hw|by eapply waits_queues_ok| |apply Hw|].
  { intros b Hb. destruct (ws_own _ _ _ Hw t b Hb) as [_ [o Ho]]. exists o. split; [done|].
    apply (ws_in _ _ _ Hw). by exists t. }
  cbn [obind]. eexists. split; [reflexivity|].
  assert (Hout : forall t' b, t' <> t -> b ∈ W t' -> b ∉ W t).
  { intros t' b Hne H1 H2. apply Hne. destruct (ws_own _ _ _ Hw t' b H1), (ws_own _ _ _ Hw t b H2).
    congruence. }
  split_and!; try done.
  - split.
    + intros t'. cbn [set_waitlist with_waitlist wbs waitlist]. rewrite L1.
      destruct (decide (t' = t)) as [->|Hne]; [by rewrite !fn_lookup_insert|].
      rewrite !fn_lookup_insert_ne by done. eapply seg_ext; [|apply (ws_thread _ _ _ Hw)].
      intros b Hb. simpl. by rewrite Hwb by (by eapply Hout).
    + intros t'. destruct (decide (t' = t)) as [->|Hne];
        [rewrite fn_lookup_insert; constructor|rewrite fn_lookup_insert_ne by done; apply Hw].
    + intros t'. destruct (decide (t' = t)) as [->|Hne];
        [rewrite fn_lookup_insert; simpl; lia|rewrite fn_lookup_insert_ne by done; apply Hw].
    + intros t' b. destruct (decide (t' = t)) as [->|Hne];
        [rewrite fn_lookup_insert; set_solver|rewrite fn_lookup_insert_ne by done].
      intros Hb. cbn [set_waitlist with_waitlist wbs]. rewrite Hwb by (by eapply Hout). by apply Hw.
    + exact Hd.
    + intros o b. rewrite elem_minus, (ws_in _ _ _ Hw). cbn [set_waitlist with_waitlist wbs]. split.
      * intros ((t' & Hb & Ho) & Hn). exists t'. rewrite Hwb by done.
        rewrite fn_lookup_insert_ne; [done|]. intros ->. done.
      * intros (t' & Hb & Ho). destruct (decide (t' = t)) as [->|Hne];
          [rewrite fn_lookup_insert in Hb; set_solver|rewrite fn_lookup_insert_ne in Hb by done].
        pose proof (Hout t' b Hne Hb) as Hn. rewrite Hwb in Ho by done. split; [by exists t'|done].
Qed.

(** ** Which threads can run *)

Definition lit (wb : wbid -> waitblock) (sg : oid -> bool) (b : wbid) : bool :=
  match w_object (wb b) with Some o => sg o | None => false end.

(** Some WAIT_ANY object is signaled, or all WAIT_ALL objects are. *)
Definition can_run (wb : wbid -> waitblock) (sg : oid -> bool) (bs : list wbid) : bool :=
  existsb (fun b => (w_type (wb b) =? WAIT_ANY) && lit wb sg b) bs
  || forallb (fun b => (w_type (wb b) =? WAIT_ANY) || lit wb sg b) bs.

(** The key of the last signaled object. *)
Definition last_key (wb : wbid -> waitblock) (sg : oid -> bool) (bs : list wbid) (key : Z) : Z :=
  foldl (fun key b => if lit wb sg b then w_key (wb b) else key) key bs.

Definition sig_of (ob : oid -> obj) (o : oid) : bool := truthy (signaled (ob o)).

Lemma ready_loop_spec l : forall fuel k t b any all,
  seg (fun b => w_next (wbs k b)) b l None ->
  (forall b, b ∈ l -> is_Some (w_object (wbs k b))) -> (length l <= fuel)%nat ->
  let sg := sig_of (objs k) in
  exists f, ready_loop fuel k t b any all
      = Ret (existsb (fun b => (w_type (wbs k b) =? WAIT_ANY) && lit (wbs k) sg b) l || any,
             forallb (fun b => (w_type (wbs k b) =? WAIT_ANY) || lit (wbs k) sg b) l && all,
             with_waitkey k f)
    /\ f t = last_key (wbs k) sg l (waitkey k t) /\ forall t', t' <> t -> f t' = waitkey k t'.
Proof.
  induction l as [|b l IH]; intros fuel k t b0 any all Hs Ho Hf sg.
  - simpl in Hs. subst b0. exists (waitkey k). simpl. destruct fuel, k; done.
  - destruct Hs as [-> Hs]. destruct fuel as [|fuel]; [simpl in Hf; lia|].
    destruct (Ho b) as [o Hbo]; [set_solver|]. simpl.
    assert (Hlit : lit (wbs k) sg b = sg o) by (unfold lit; by rewrite Hbo).
    rewrite Hlit, Hbo. cbn [deref obind].
    set (k1 := if truthy (signaled (objs k o)) then _ else k).
    assert (Hk1 : objs k1 = objs k /\ wbs k1 = wbs k /\ (forall f, with_waitkey k1 f = with_waitkey k f)
      /\ waitkey k1 t = (if sg o then w_key (wbs k b) else waitkey k t)
      /\ forall t', t' <> t -> waitkey k1 t' = waitkey k t').
    { unfold k1, sg, sig_of. destruct (truthy (signaled (objs k o))); [|done]. split_and!; try done.
      - simpl. by rewrite fn_lookup_insert.
      - intros t' Hne. simpl. by rewrite fn_lookup_insert_ne. }
    destruct Hk1 as (E1 & E2 & E3 & E4 & E5). clearbody k1.
    assert (IH' : forall any all, exists f, ready_loop fuel k1 t (w_next (wbs k b)) any all
      = Ret (existsb (fun b => (w_type (wbs k b) =? WAIT_ANY) && lit (wbs k) sg b) l || any,
             forallb (fun b => (w_type (wbs k b) =? WAIT_ANY) || lit (wbs k) sg b) l && all,
             with_waitkey k f)
      /\ f t = last_key (wbs k) sg l (if sg o then w_key (wbs k b) else waitkey k t)
      /\ forall t', t' <> t -> f t' = waitkey k t').
    { intros any' all'. destruct (IH fuel k1 t (w_next (wbs k b)) any' all') as (f & H1 & H2 & H3).
      - by rewrite E2.
      - intros z Hz. rewrite E2. apply Ho. set_solver.
      - simpl in Hf. lia.
      - exists f. rewrite H1, H2, E1, E2, E3, E4. split_and!; [done|done|].
        intros t' Hne. by rewrite H3, E5. }
    unfold sg in *. change (truthy (signaled (objs k o))) with (sig_of (objs k) o).
    destruct (w_type (wbs k b) =? WAIT_ANY); simpl.
    + destruct (IH' (sig_of (objs k) o || any) all) as (f & H1 & H2 & H3). exists f.
      rewrite H1. split_and!; try done. do 3 f_equal. by destruct (sig_of _ o), any, (existsb _ l).
    + destruct (IH' any (sig_of (objs k) o && all)) as (f & H1 & H2 & H3). exists f.
      rewrite H1. split_and!; try done. do 3 f_equal. by destruct (sig_of _ o), all, (forallb _ l).
Qed.

(** ** Waking threads

    [woke ob key w]: the state [k] is [k0] after the threads [w] have been taken off
    all wait lists and made ready, with the wait keys [key], in the order [w]; the objects
    are [ob] apart from their wait lists. *)

Section Woke.
Context (k0 : kernel) (W : nat -> list wbid) (Q : oid -> list wbid).

Definition thread_of (b : wbid) : nat := w_thread (wbs k0 b).

Record woke (ob : oid -> obj) (key : nat -> Z) (w : list nat) (k : kernel) : Prop := {
  wk_waits : waits k (fun t => if bool_decide (t ∈ w) then [] else W t)
                     (fun o => filter (fun b => thread_of b ∉ w) (Q o));
  wk_wbs : forall t b, t ∉ w -> b ∈ W t -> wbs k b = wbs k0 b;
  wk_rest : rest_same k0 k ob;
  wk_ready : exists q, ready q (sch k);
  wk_cur : cur (sch k) = cur (sch k0);
  wk_sch : forall t, t ∉ w -> thr (sch k) t = thr (sch k0) t;
  wk_state : forall t, t ∈ w -> state (thr (sch k) t) = THREAD_STATE_READY
                             \/ state (thr (sch k) t) = THREAD_STATE_SUSPENDED;
  wk_key : forall t, t ∈ w -> waitkey k t = key t;
}.

(** Threads that wait are not ready, unless they have been interrupted. *)
Definition wakeable : Prop :=
  (exists q, ready q (sch k0))
  /\ forall t, state (thr (sch k0) t) = THREAD_STATE_READY ->
       W t = [] \/ truthy (Z.land (flags (thr (sch k0) t)) THREAD_INTERRUPTED) = true.

Context (Hwaits : waits k0 W Q) (Hwake : wakeable).

Lemma waits_ext k W1 Q1 W2 Q2 :
  (forall t, W2 t = W1 t) -> (forall o, Q2 o = Q1 o) -> waits k W1 Q1 -> waits k W2 Q2.
Proof.
  intros HW HQ [H1 H2 H3 H4 H5 H6]. split.
  - intros t. rewrite HW. apply H1.
  - intros t. rewrite HW. apply H2.
  - intros t. rewrite HW. apply H3.
  - intros t b. rewrite HW. apply H4.
  - intros o. rewrite HQ. apply H5.
  - intros o b. rewrite HQ, H6. split; intros (t & Hb & Ho); exists t; [by rewrite HW|by rewrite <- HW].
Qed.

Lemma queue_thread o b : b ∈ Q o -> b ∈ W (thread_of b).
Proof.
  intros (t & Hb & _)%(ws_in _ _ _ Hwaits). unfold thread_of.
  by destruct (ws_own _ _ _ Hwaits t b Hb) as [-> _].
Qed.

Lemma minus_thread w t o :
  minus (W t) (filter (fun b => thread_of b ∉ w) (Q o)) = filter (fun b => thread_of b ∉ w ++ [t]) (Q o).
Proof.
  unfold minus. rewrite list_filter_filter. apply filter_ext_elem. intros b Hb.
  pose proof (queue_thread o b Hb) as Ht.
  assert (b ∈ W t <-> thread_of b = t).
  { split; [|by intros <-]. intros Hbt. unfold thread_of. by apply (ws_own _ _ _ Hwaits). }
  rewrite elem_of_app, list_elem_of_singleton. naive_solver.
Qed.

Lemma woke_start ob key k :
  waits k W Q -> wbs k = wbs k0 -> sch k = sch k0 -> rest_same k0 k ob -> woke ob key [] k.
Proof.
  intros Hw Hb Hs Hr. split; try done; try set_solver.
  - eapply waits_ext; [| |exact Hw]; [done|]. intros o. apply filter_id. set_solver.
  - by rewrite Hb.
  - rewrite Hs. apply Hwake.
  - by rewrite Hs.
  - by rewrite Hs.
Qed.

Lemma release_thread_spec ob key w k t :
  woke ob key w k -> t ∉ w -> W t <> [] -> waitkey k t = key t ->
  exists k', release_thread k t = Ret k' /\ woke ob key (w ++ [t]) k'.
Proof.
  intros [H1 H2 H3 H4 H5 H6 H7 H8] Ht Hne Hkey. unfold release_thread.
  destruct (cancel_wait_spec k _ _ t H1) as (k1 & -> & Hw1 & Hr1 & S1 & K1 & B1). cbn [obind].
  rewrite S1. destruct (mark_ready_total (sch k) t 1 1 H4) as (s & -> & Hq & Ho & Hst).
  { rewrite H6 by done. intros Hr. by destruct (proj2 Hwake t Hr). }
  cbn [obind]. eexists. split; [reflexivity|]. split.
  - eapply (waits_ext _ (<[t:=[]]> (fun t0 => if bool_decide (t0 ∈ w) then [] else W t0))
      (fun o => minus (W t) (filter (fun b => thread_of b ∉ w) (Q o)))).
    + intros t'. destruct (decide (t' = t)) as [->|Hn].
      * rewrite fn_lookup_insert, bool_decide_true by set_solver. done.
      * rewrite fn_lookup_insert_ne by done.
        by rewrite (bool_decide_ext (t' ∈ w ++ [t]) (t' ∈ w)) by set_solver.
    + intros o. by rewrite minus_thread.
    + rewrite bool_decide_false in Hw1 by done. by destruct Hw1.
  - intros t' b Hn Hb. cbn [with_sch wbs]. rewrite B1; [apply (H2 t'); set_solver|].
    rewrite bool_decide_false by done. intros Hb'.
    destruct (ws_own _ _ _ Hwaits _ _ Hb), (ws_own _ _ _ Hwaits _ _ Hb'). set_solver by congruence.
  - eapply (rest_same_trans _ _ k1) in Hr1; [|exact H3]. by destruct Hr1.
  - exact Hq.
  - cbn [with_sch sch]. by rewrite (only_cur _ _ _ Ho).
  - intros t' Hn. cbn [with_sch sch]. rewrite (only_thr _ _ _ Ho) by set_solver. apply H6. set_solver.
  - intros t' Hin. cbn [with_sch sch]. destruct (decide (t' = t)) as [->|Hn]; [done|].
    rewrite (only_thr _ _ _ Ho) by done. apply H7. set_solver.
  - intros t' Hin. cbn [with_sch waitkey]. rewrite K1.
    destruct (decide (t' = t)) as [->|Hn]; [done|]. apply H8. set_solver.
Qed.

(** Testing a thread that still waits. *)
Lemma thread_ready_spec ob key w k t :
  woke ob key w k -> t ∉ w ->
  exists k', thread_ready_to_run k t = Ret (can_run (wbs k0) (sig_of ob) (W t), k')
    /\ woke ob key w k' /\ waitlinks k' = waitlinks k /\ wbs k' = wbs k
    /\ objs k' = objs k
    /\ waitkey k' t = last_key (wbs k0) (sig_of ob) (W t) (waitkey k t)
    /\ forall t', t' <> t -> waitkey k' t' = waitkey k t'.
Proof.
  intros Hk Ht. pose proof Hk as [H1 H2 H3 H4 H5 H6 H7 H8]. unfold thread_ready_to_run.
  pose proof (ws_thread _ _ _ H1 t) as Hs. simpl in Hs. rewrite bool_decide_false in Hs by done.
  pose proof (ws_len _ _ _ H1 t) as Hl. simpl in Hl. rewrite bool_decide_false in Hl by done.
  pose proof (ws_own _ _ _ H1 t) as Hown. simpl in Hown. rewrite bool_decide_false in Hown by done.
  destruct (ready_loop_spec (W t) wait_fuel k t (waitlist k t) false true Hs) as (f & -> & Hf & Hf').
  { intros b Hb. by apply Hown. }
  { exact Hl. }
  cbn [obind]. exists (with_waitkey k f).
  assert (Hlit : forall b, b ∈ W t -> wbs k b = wbs k0 b /\ lit (wbs k) (sig_of (objs k)) b = lit (wbs k0) (sig_of ob) b).
  { intros b Hb. rewrite <- (H2 t b Ht Hb). split; [done|]. unfold lit. rewrite (H2 t b Ht Hb).
    destruct (w_object (wbs k0 b)) as [o|]; [|done]. unfold sig_of. by rewrite (rs_objs _ _ _ H3 o). }
  split_and!; try done.
  - do 2 f_equal. unfold can_run. rewrite orb_false_r, andb_true_r. f_equal.
    + apply existsb_ext_elem. intros b Hb. by destruct (Hlit b Hb) as [-> ->].
    + apply forallb_ext_elem. intros b Hb. by destruct (Hlit b Hb) as [-> ->].
  - split; try done; [by destruct H1|by destruct H3|].
    intros t' Hin. cbn [with_waitkey waitkey]. rewrite Hf' by (intros ->; done). by apply H8.
  - cbn [with_waitkey waitkey]. rewrite Hf. unfold last_key. apply foldl_ext_elem.
    intros b x Hb. by destruct (Hlit b Hb) as [-> ->].
Qed.
End Woke.

(** ** The loop over the wait list of an object

    [budget]: how many threads are woken at most.  [I w]: the state after the threads
    [w] have been woken; [F w]: after the last of the budget. *)

Definition up_to {A} (budget : option nat) (l : list A) : list A :=
  match budget with Some n => take n l | None => l end.

Definition spent (budget : option nat) (n : nat) : option nat := (fun m => m - n)%nat <$> budget.

Definition exhausted (budget : option nat) (w : list nat) : bool := bool_decide (budget = Some (length w)).

Section WakeLoop.
Context (k0 : kernel) (o : oid) (l0 : list wbid) (budget : option nat) (rd : nat -> bool).
Context (wake : kernel -> nat -> outcome (bool * kernel)) (I F : list nat -> kernel -> Prop).
Let th (b : wbid) : nat := thread_of k0 b.

Definition loop_links : Prop := forall w k, I w k ->
  dl (waitlinks k) (waitq (objs k o)) (filter (fun b => th b ∉ w) l0)
  /\ forall b, b ∈ l0 -> th b ∉ w -> w_thread (wbs k b) = th b.

Definition loop_step : Prop := forall w k b, I w k -> b ∈ l0 -> th b ∉ w ->
  (forall n, budget = Some n -> (length w < n)%nat) ->
  exists k1, thread_ready_to_run k (th b) = Ret (rd (th b), k1)
    /\ if rd (th b) then
         exists k2, wake k1 (th b) = Ret (exhausted budget (w ++ [th b]), k2)
           /\ (if exhausted budget (w ++ [th b]) then F (w ++ [th b]) k2 else I (w ++ [th b]) k2)
       else I w k1.

Lemma wake_loop_spec l : forall pre w k fuel,
  loop_links -> loop_step -> l0 = pre ++ l -> NoDup (th <$> l0) -> I w k ->
  (forall t, t ∈ w -> t ∈ th <$> pre) -> (forall n, budget = Some n -> (length w < n)%nat) ->
  (length l <= fuel)%nat ->
  let woken := w ++ up_to (spent budget (length w)) (filter (fun t => rd t = true) (th <$> l)) in
  exists k', wake_loop wake fuel k (head l) = Ret k'
    /\ if exhausted budget woken then F woken k' else I woken k'.
Proof.
  induction l as [|b l IH]; intros pre w k fuel Hl Hs Hl0 Hn Hi Hw Hb Hf woken.
  - exists k. unfold woken. simpl. replace (up_to _ []) with (@nil nat) by (destruct budget; simpl; [by rewrite take_nil|done]).
    rewrite app_nil_r. split; [by destruct fuel|]. unfold exhausted. rewrite bool_decide_false; [done|].
    intros Hx. specialize (Hb _ Hx). lia.
  - destruct fuel as [|fuel]; [simpl in Hf; lia|]. cbn [head wake_loop].
    assert (Hbl : b ∈ l0) by (rewrite Hl0; set_solver).
    rewrite Hl0, fmap_app, fmap_cons in Hn. apply NoDup_app in Hn as (Hn1 & Hn2 & [Hn3 Hn4]%NoDup_cons).
    assert (Hbw : th b ∉ w) by (intros Hx%Hw; apply (Hn2 _ Hx); set_solver).
    destruct (Hl w k Hi) as [Hd Hth]. rewrite Hth by done.
    assert (Hfl : filter (fun b => th b ∉ w) (b :: l) = b :: l).
    { apply filter_id. intros z Hz Hx%Hw. apply (Hn2 _ Hx).
      change (th b :: (th <$> l)) with (th <$> b :: l). by apply list_elem_of_fmap_2. }
    rewrite Hl0, filter_app, Hfl in Hd. rewrite (dl_next _ _ _ _ _ Hd).
    destruct (Hs w k b Hi Hbl Hbw Hb) as (k1 & -> & Hk1). cbn [obind].
    assert (HNd : NoDup (th <$> l0)).
    { rewrite Hl0, fmap_app, fmap_cons. apply NoDup_app. split_and!; [done|done|by apply NoDup_cons]. }
    assert (Hpre : l0 = (pre ++ [b]) ++ l) by (by rewrite <- (assoc_L (++))).
    unfold woken. rewrite fmap_cons, filter_cons. destruct (rd (th b)) eqn:Hrd.
    + rewrite decide_True by done. destruct Hk1 as (k2 & -> & Hk2). cbn [obind].
      set (w' := w ++ [th b]) in *.
      assert (Hlen : length w' = S (length w)) by (unfold w'; rewrite length_app; simpl; lia).
      assert (Htake : exhausted budget w' = false ->
        w ++ up_to (spent budget (length w)) (th b :: filter (fun t => rd t = true) (th <$> l))
        = w' ++ up_to (spent budget (length w')) (filter (fun t => rd t = true) (th <$> l))).
      { unfold exhausted. intros He. apply bool_decide_eq_false in He. unfold w' at 1.
        rewrite <- (assoc_L (++)). f_equal. destruct budget as [n|]; [|done]. simpl.
        specialize (Hb n eq_refl). rewrite Hlen in *.
        destruct (n - length w)%nat as [|m] eqn:Hm; [lia|]. simpl. do 2 f_equal. lia. }
      destruct (exhausted budget w') eqn:He.
      * exists k2. split; [done|].
        assert (Hbud : budget = Some (S (length w))).
        { unfold exhausted in He. apply bool_decide_eq_true in He. by rewrite He, Hlen. }
        rewrite Hbud. cbn [spent fmap option_fmap option_map up_to].
        replace (S (length w) - length w)%nat with 1%nat by lia.
        rewrite firstn_cons, take_0.
        assert (He2 : exhausted (Some (S (length w))) (w ++ [th b]) = true) by (rewrite <- Hbud; exact He).
        rewrite He2. exact Hk2.
      * rewrite Htake by done. apply (IH (pre ++ [b]) w' k2 fuel); try done.
        -- intros t Ht. unfold w' in Ht. rewrite fmap_app. set_solver.
        -- intros n Hbud. specialize (Hb n Hbud). rewrite Hlen. unfold exhausted in He.
           apply bool_decide_eq_false in He. rewrite Hbud, Hlen in He. destruct (decide (n = S (length w))); [congruence|lia].
        -- simpl in Hf. lia.
    + rewrite decide_False by done. apply (IH (pre ++ [b]) w k1 fuel); try done.
      * intros t Ht%Hw. rewrite fmap_app. set_solver.
      * simpl in Hf. lia.
Qed.
End WakeLoop.

Lemma last_key_lit wb sg l x y :
  (exists b, b ∈ l /\ lit wb sg b = true) -> last_key wb sg l x = last_key wb sg l y.
Proof.
  unfold last_key. revert x y. induction l as [|b l IH]; intros x y (z & Hz & Hl); [set_solver|].
  simpl. destruct (lit wb sg b) eqn:Hb; [done|]. apply IH. exists z. split; [|done].
  apply elem_of_cons in Hz as [->|Hz]; [congruence|done].
Qed.

(** ** Stores to objects *)

Definition keeps_waitq (f : obj -> obj) : Prop := forall b q, f (o_waitq b q) = o_waitq (f b) q.

Lemma keeps_waitq_eq f b : keeps_waitq f -> waitq (f b) = waitq b.
Proof. intros H. rewrite (o_waitq_id b) at 1. by rewrite H. Qed.

Lemma waits_objs k k' W Q :
  (forall o, waitq (objs k' o) = waitq (objs k o)) -> waitlinks k' = waitlinks k -> wbs k' = wbs k ->
  waitlist k' = waitlist k -> waits k W Q -> waits k' W Q.
Proof.
  intros Ho Hl Hb Hw [H1 H2 H3 H4 H5 H6]. split; rewrite ?Hl, ?Hb, ?Hw; try done.
  intros o. rewrite Ho. apply H5.
Qed.

Lemma rest_same_refl k : rest_same k k (objs k).
Proof. split; try done. intros i. apply o_waitq_id. Qed.

Lemma waits_set_obj k W Q o f : keeps_waitq f -> waits k W Q -> waits (set_obj k o f) W Q.
Proof.
  intros Hf. apply waits_objs; try done. intros o'. rewrite objs_set_obj.
  case_decide as He; [subst; by apply keeps_waitq_eq|done].
Qed.

Lemma rest_same_set_obj k0 k ob o f :
  keeps_waitq f -> rest_same k0 k ob -> rest_same k0 (set_obj k o f) (<[o := f (ob o)]> ob).
Proof.
  intros Hf [R1 R2 R3 R4 R5]. split; try done. intros o'. rewrite objs_set_obj.
  case_decide as He.
  - subst o'. rewrite fn_lookup_insert. rewrite (R1 o) at 1. rewrite Hf. f_equal.
    rewrite (R1 o), Hf. reflexivity.
  - rewrite fn_lookup_insert_ne by done. apply R1.
Qed.

Lemma woke_set_obj k0 W Q ob key w k o f :
  keeps_waitq f -> woke k0 W Q ob key w k ->
  woke k0 W Q (<[o := f (ob o)]> ob) key w (set_obj k o f).
Proof.
  intros Hf [H1 H2 H3 H4 H5 H6 H7 H8]. split; try done;
    [by apply waits_set_obj|by apply rest_same_set_obj].
Qed.

Lemma woke_set_waitkey k0 W Q ob key w k t x :
  t ∉ w -> woke k0 W Q ob key w k -> woke k0 W Q ob key w (set_waitkey k t x).
Proof.
  intros Ht [H1 H2 H3 H4 H5 H6 H7 H8]. split; try done; [by destruct H1|by destruct H3|].
  intros t' Hin. simpl. rewrite fn_lookup_insert_ne by set_solver. by apply H8.
Qed.

Lemma woke_obj k0 W Q ob key w k o : woke k0 W Q ob key w k ->
  exists q, objs k o = o_waitq (ob o) q.
Proof. intros Hk. eexists. apply (rs_objs _ _ _ (wk_rest _ _ _ _ _ _ _ Hk)). Qed.

Lemma woke_links k0 W Q ob key o :
  waits k0 W Q -> loop_links k0 o (Q o) (woke k0 W Q ob key).
Proof.
  intros Hw w k Hk. split; [apply (ws_obj _ _ _ (wk_waits _ _ _ _ _ _ _ Hk) o)|].
  intros b Hb Hn. unfold thread_of at 1.
  pose proof (queue_thread k0 W Q Hw o b Hb) as Ht.
  by rewrite (wk_wbs _ _ _ _ _ _ _ Hk (thread_of k0 b) b Hn Ht).
Qed.

Lemma queue_lit k W Q sg o b :
  waits k W Q -> b ∈ Q o -> sg o = true -> exists z, z ∈ W (thread_of k b) /\ lit (wbs k) sg z = true.
Proof.
  intros Hw Hb Hs. exists b. split; [by eapply queue_thread|].
  apply (ws_in _ _ _ Hw) in Hb as (t & _ & Ho). unfold lit. by rewrite Ho.
Qed.

Lemma waits_nonempty k W Q o b : waits k W Q -> b ∈ Q o -> W (thread_of k b) <> [].
Proof. intros Hw Hb Hn. pose proof (queue_thread k W Q Hw o b Hb). rewrite Hn in *. set_solver. Qed.

(** The threads that wait for [o], the ones of them that can run when the objects
    are [ob], and the key each gets. *)
Definition waiters (k : kernel) (Q : oid -> list wbid) (o : oid) : list nat := thread_of k <$> Q o.

Definition runnable (k : kernel) (W : nat -> list wbid) (ob : oid -> obj) (t : nat) : bool :=
  can_run (wbs k) (sig_of ob) (W t).

Definition key_of (k : kernel) (W : nat -> list wbid) (ob : oid -> obj) (t : nat) : Z :=
  last_key (wbs k) (sig_of ob) (W t) 0.

Definition runners (k : kernel) (W : nat -> list wbid) (Q : oid -> list wbid) (ob : oid -> obj) (o : oid)
    : list nat := filter (fun t => runnable k W ob t = true) (waiters k Q o).

(** Stores to an object that do not change whether it is signaled. *)
Lemma can_run_ext wb sg sg' l : (forall o, sg o = sg' o) -> can_run wb sg l = can_run wb sg' l.
Proof.
  intros He. unfold can_run, lit. f_equal; [apply existsb_ext_elem|apply forallb_ext_elem];
    intros b _; destruct (w_object (wb b)); by rewrite ?He.
Qed.

Lemma last_key_ext wb sg sg' l x : (forall o, sg o = sg' o) -> last_key wb sg l x = last_key wb sg' l x.
Proof.
  intros He. unfold last_key, lit. apply foldl_ext_elem. intros b y _.
  destruct (w_object (wb b)); by rewrite ?He.
Qed.

Section Waking.
Context (k : kernel) (W : nat -> list wbid) (Q : oid -> list wbid).
Context (Hwaits : waits k W Q) (Hwake : wakeable k W).

(** Testing the thread of a waiting block, and its key if it can run. *)
Lemma test_waiter ob ob1 w k1 o b :
  woke k W Q ob (key_of k W ob1) w k1 -> (forall o, sig_of ob o = sig_of ob1 o) ->
  sig_of ob1 o = true -> b ∈ Q o -> thread_of k b ∉ w ->
  exists k2, thread_ready_to_run k1 (thread_of k b) = Ret (runnable k W ob1 (thread_of k b), k2)
    /\ woke k W Q ob (key_of k W ob1) w k2
    /\ waitkey k2 (thread_of k b) = key_of k W ob1 (thread_of k b)
    /\ waitlinks k2 = waitlinks k1 /\ wbs k2 = wbs k1 /\ objs k2 = objs k1.
Proof.
  intros Hk Hsg Hs Hb Hn.
  destruct (thread_ready_spec k W Q ob (key_of k W ob1) w k1 (thread_of k b) Hk Hn)
    as (k2 & -> & H2 & Hl & Hw & Hob & Hkey & _).
  exists k2. split_and!; try done.
  - do 2 f_equal. by apply can_run_ext.
  - rewrite Hkey. unfold key_of. rewrite (last_key_ext _ _ (sig_of ob1)) by done.
    apply last_key_lit. by eapply queue_lit.
Qed.

Context (o : oid) (Hnodup : NoDup (waiters k Q o)).

Lemma set_signaled_woke x ob key w k1 :
  woke k W Q ob key w k1 -> woke k W Q (<[o := o_signaled (ob o) x]> ob) key w (set_signaled k1 o x).
Proof. intros Hk. by apply (woke_set_obj k W Q ob key w k1 o (fun b => o_signaled b x)). Qed.

Lemma fn_insert_twice {B} (f : oid -> B) x y : forall i, <[o := x]> (<[o := y]> f) i = <[o := x]> f i.
Proof.
  intros i. destruct (decide (i = o)) as [->|]; [by rewrite !fn_lookup_insert|].
  by rewrite !fn_lookup_insert_ne.
Qed.

Lemma woke_ext ob ob' key w k1 :
  (forall i, ob' i = ob i) -> woke k W Q ob key w k1 -> woke k W Q ob' key w k1.
Proof.
  intros He [H1 H2 [R1 R2 R3 R4 R5] H4 H5 H6 H7 H8]. split; try done. split; try done.
  intros i. by rewrite He.
Qed.

Lemma first_waiter f : keeps_waitq f -> first (waitq (objs (set_obj k o f) o)) = head (Q o).
Proof.
  intros Hf. rewrite objs_set_obj, decide_True by done. rewrite keeps_waitq_eq by done.
  apply (dl_first _ _ _ (ws_obj _ _ _ Hwaits o)).
Qed.

(** *** Events *)

Definition event_after (woken : bool) : oid -> obj :=
  <[o := o_signaled (objs k o) (if (manual_reset (objs k o) =? 0) && woken then 0 else 1)]> (objs k).

Lemma set_event_spec fuel :
  (length (Q o) <= fuel)%nat ->
  let ob := <[o := o_signaled (objs k o) 1]> (objs k) in
  let w := up_to (if manual_reset (objs k o) =? 0 then Some 1%nat else None) (runners k W Q ob o) in
  exists k', set_event fuel k o = Ret k'
    /\ woke k W Q (event_after (bool_decide (w <> []))) (key_of k W ob) w k'.
Proof.
  intros Hf ob w. unfold set_event, for_waiters.
  set (k1 := set_signaled k o 1). set (key := key_of k W ob).
  set (budget := if manual_reset (objs k o) =? 0 then Some 1%nat else None) in *.
  assert (Hk1 : woke k W Q ob key [] k1).
  { apply woke_start; try done; [by apply waits_set_obj|]. apply (rest_same_set_obj k k (objs k) o (fun b => o_signaled b 1)); [done|].
    apply rest_same_refl. }
  assert (Hso : sig_of ob o = true) by (unfold sig_of, ob; by rewrite fn_lookup_insert).
  destruct (wake_loop_spec k o (Q o) budget (runnable k W ob) (wake_event o)
    (woke k W Q ob key) (woke k W Q (<[o := o_signaled (ob o) 0]> ob) key) (Q o) [] [] k1 fuel)
    as (k2 & Hr & Hpost).
  - by apply woke_links.
  - intros w1 k2 b Hk2 Hb Hn Hbud.
    destruct (test_waiter ob ob w1 k2 o b Hk2 (fun _ => eq_refl) Hso Hb Hn) as (k3 & H3 & Hk3 & Hkey & _).
    exists k3. split; [exact H3|]. destruct (runnable k W ob (thread_of k b)); [|done].
    destruct (release_thread_spec k W Q Hwaits Hwake ob key w1 k3 (thread_of k b) Hk3 Hn) as (k4 & Hr4 & Hk4);
      [by eapply waits_nonempty|exact Hkey|].
    unfold wake_event. rewrite Hr4. cbn [obind].
    destruct (woke_obj _ _ _ _ _ _ _ o Hk4) as [q4 Hq4].
    assert (Hm : manual_reset (objs k4 o) = manual_reset (objs k o)).
    { rewrite Hq4. unfold ob. by rewrite fn_lookup_insert. }
    rewrite Hm. unfold budget, exhausted. destruct (manual_reset (objs k o) =? 0) eqn:Hmr.
    + assert (Hl : (length w1 < 1)%nat) by (by apply Hbud).
      rewrite bool_decide_true by (rewrite length_app; simpl; f_equal; lia).
      eexists. split; [reflexivity|]. by apply set_signaled_woke.
    + rewrite bool_decide_false by done. by eexists.
  - done.
  - done.
  - exact Hk1.
  - set_solver.
  - unfold budget. intros n. destruct (_ =? 0); [|done]. intros [= <-]. simpl. lia.
  - done.
  - cbn [app length] in Hr, Hpost. replace (spent budget 0) with budget in Hpost
      by (unfold budget; by destruct (_ =? 0)).
    exists k2. split.
    { pose proof (first_waiter (fun b => o_signaled b 1) ltac:(done)) as Hfw.
      change (set_obj k o _) with k1 in Hfw. rewrite Hfw. exact Hr. }
    change (filter _ _) with (runners k W Q ob o) in Hpost. fold (runners k W Q ob o) in Hpost. fold w in Hpost.
    assert (He : exhausted budget w = (manual_reset (objs k o) =? 0) && bool_decide (w <> [])).
    { unfold exhausted, w, budget. destruct (manual_reset (objs k o) =? 0); [|by apply bool_decide_false].
      simpl. apply bool_decide_ext. destruct (runners k W Q ob o); simpl; [naive_solver|].
      rewrite take_0. naive_solver. }
    rewrite He in Hpost. unfold event_after.
    destruct (_ && _); (eapply woke_ext; [|exact Hpost]); intros i; unfold ob.
    + symmetry. rewrite fn_insert_twice, fn_lookup_insert. done.
    + done.
Qed.

(** *** Semaphores *)

(** A semaphore with [c] resources after [n] of them have been handed out. *)
Definition sem_after (c : Z) (n : nat) : oid -> obj :=
  <[o := o_signaled (o_count (objs k o) (c - Z.of_nat n)) (of_bool (0 <? c - Z.of_nat n))]> (objs k).

Lemma sem_after_sig c n i : Z.of_nat n < c -> sig_of (sem_after c n) i = sig_of (sem_after c 0) i.
Proof.
  intros Hn. unfold sig_of, sem_after. destruct (decide (i = o)) as [->|];
    [rewrite !fn_lookup_insert|by rewrite !fn_lookup_insert_ne].
  simpl. by rewrite !(proj2 (Z.ltb_lt _ _)) by lia.
Qed.

Lemma wake_sem_step c w1 k2 t :
  0 < c -> is_u32 c -> Z.of_nat (length w1) < c ->
  let key := key_of k W (sem_after c 0) in
  woke k W Q (sem_after c (length w1)) key w1 k2 -> t ∉ w1 -> W t <> [] -> waitkey k2 t = key t ->
  exists k3, wake_sem o k2 t = Ret (c - Z.of_nat (length (w1 ++ [t])) =? 0, k3)
    /\ woke k W Q (sem_after c (length (w1 ++ [t]))) key (w1 ++ [t]) k3.
Proof.
  intros Hc Hu Hl key Hk Ht Hne Hkey. unfold wake_sem.
  set (f := fun b => o_count b (u32 (count b - 1))).
  set (ob1 := <[o := f (sem_after c (length w1) o)]> (sem_after c (length w1))).
  assert (Hk1 : woke k W Q ob1 key w1 (set_obj k2 o f)) by (by apply woke_set_obj).
  destruct (release_thread_spec k W Q Hwaits Hwake ob1 key w1 _ t Hk1 Ht Hne Hkey) as (k4 & -> & Hk4).
  cbn [obind]. rewrite length_app. cbn [length].
  assert (Hob : ob1 o = o_signaled (o_count (objs k o) (c - Z.of_nat (length w1 + 1))) 1).
  { unfold ob1, f, sem_after. rewrite !fn_lookup_insert. simpl.
    rewrite (proj2 (Z.ltb_lt _ _)) by lia. rewrite u32_small by (unfold is_u32 in *; lia). simpl.
    replace (c - Z.of_nat (length w1) - 1) with (c - Z.of_nat (length w1 + 1)) by lia. done. }
  destruct (woke_obj _ _ _ _ _ _ _ o Hk4) as [q4 Hq4]. rewrite Hq4, Hob. cbn [o_waitq o_signaled o_count count].
  assert (Hoth : forall i, i <> o -> ob1 i = objs k i).
  { intros i Hi. unfold ob1, sem_after. by rewrite !fn_lookup_insert_ne. }
  destruct (Z.eqb_spec (c - Z.of_nat (length w1 + 1)) 0) as [Hz|Hz].
  - eexists. split; [reflexivity|]. eapply woke_ext; [|apply set_signaled_woke, Hk4].
    intros i. unfold sem_after. destruct (decide (i = o)) as [->|Hi].
    + rewrite !fn_lookup_insert, Hob. simpl. by rewrite Hz.
    + by rewrite !fn_lookup_insert_ne, Hoth by done.
  - eexists. split; [reflexivity|]. eapply woke_ext; [|exact Hk4].
    intros i. unfold sem_after. destruct (decide (i = o)) as [->|Hi].
    + rewrite !fn_lookup_insert, Hob. by rewrite (proj2 (Z.ltb_lt _ _)) by lia.
    + by rewrite !fn_lookup_insert_ne, Hoth by done.
Qed.

Lemma sem_loop_spec fuel c :
  (length (Q o) <= fuel)%nat -> 0 < c -> is_u32 c ->
  let ob := sem_after c 0 in
  let w := take (Z.to_nat c) (runners k W Q ob o) in
  exists k', for_waiters (wake_sem o) fuel (set_signaled (set_obj k o (fun b => o_count b c)) o 1) o = Ret k'
    /\ woke k W Q (sem_after c (length w)) (key_of k W ob) w k'.
Proof.
  intros Hf Hc Hu ob w. unfold for_waiters.
  set (k1 := set_signaled (set_obj k o (fun b => o_count b c)) o 1). set (key := key_of k W ob).
  assert (Hk1 : woke k W Q ob key [] k1).
  { eapply woke_ext; [|apply set_signaled_woke, (woke_set_obj k W Q (objs k) key [] k o (fun b => o_count b c));
      [done|apply woke_start; try done; apply rest_same_refl]].
    intros i. unfold ob, sem_after. rewrite Z.sub_0_r, fn_insert_twice, (proj2 (Z.ltb_lt _ _)) by lia.
    rewrite fn_lookup_insert. done. }
  assert (Hfirst : first (waitq (objs k1 o)) = head (Q o)).
  { unfold k1, set_signaled. rewrite objs_set_obj, decide_True by done. cbn [o_signaled waitq].
    by apply first_waiter. }
  assert (Hso : sig_of ob o = true).
  { unfold sig_of, ob, sem_after. rewrite fn_lookup_insert. simpl. by rewrite (proj2 (Z.ltb_lt _ _)) by lia. }
  set (R := fun (w : list nat) (k' : kernel) => woke k W Q (sem_after c (length w)) key w k').
  assert (HR : forall w k', R w k' -> woke k W Q (sem_after c (length w)) key w k') by done.
  destruct (wake_loop_spec k o (Q o) (Some (Z.to_nat c)) (runnable k W ob) (wake_sem o) R R (Q o) [] [] k1 fuel)
    as (k2 & Hr & Hpost); try done.
  - intros w1 k2 Hk2. by apply (woke_links k W Q (sem_after c (length w1)) key o Hwaits).
  - intros w1 k2 b Hk2 Hb Hn Hbud. specialize (Hbud _ eq_refl).
    destruct (test_waiter (sem_after c (length w1)) ob w1 k2 o b Hk2) as (k3 & H3 & Hk3 & Hkey & _);
      [intros i; apply sem_after_sig; lia|done|done|done|].
    exists k3. split; [exact H3|]. destruct (runnable k W ob (thread_of k b)); [|done].
    destruct (wake_sem_step c w1 k3 (thread_of k b)) as (k4 & H4 & Hk4); try done; [lia|by eapply waits_nonempty|].
    exists k4. rewrite H4. unfold exhausted. split; [|by destruct (bool_decide _)].
    do 2 f_equal. rewrite length_app. cbn [length].
    destruct (Z.eqb_spec (c - Z.of_nat (length w1 + 1)) 0) as [Hz|Hz].
    + rewrite bool_decide_true; [done|]. f_equal. lia.
    + rewrite bool_decide_false; [done|]. intros [= Hx]. lia.
  - intros n [= <-]. simpl. lia.
  - exists k2. rewrite Hfirst. split; [exact Hr|]. cbn [app length spent fmap option_fmap option_map up_to] in Hpost.
    rewrite Nat.sub_0_r in Hpost. change (filter _ _) with (runners k W Q ob o) in Hpost. fold w in Hpost.
    by destruct (exhausted _ _).
Qed.

Lemma release_sem_spec fuel n :
  (length (Q o) <= fuel)%nat ->
  let c := u32 (count (objs k o) + n) in
  let ob := sem_after c 0 in
  let w := take (Z.to_nat c) (runners k W Q ob o) in
  exists k', release_sem fuel k o n = Ret (count (objs k o), k')
    /\ (0 < c -> woke k W Q (sem_after c (length w)) (key_of k W ob) w k')
    /\ (c = 0 -> k' = set_obj k o (fun b => o_count b 0)).
Proof.
  intros Hf c ob w. unfold release_sem. pose proof (u32_range (count (objs k o) + n)) as Hu. fold c in Hu.
  assert (Hs : set_obj k o (fun b => o_count b (u32 (count b + n))) = set_obj k o (fun b => o_count b c)) by done.
  rewrite Hs, objs_set_obj, decide_True by done. cbn [o_count count].
  destruct (Z.ltb_spec 0 c) as [Hc|Hc].
  - destruct (sem_loop_spec fuel c Hf Hc Hu) as (k' & -> & Hk'). exists k'. split; [done|]. split; [done|lia].
  - unfold is_u32 in Hu. exists (set_obj k o (fun b => o_count b c)). split; [done|]. split; [lia|]. by intros ->.
Qed.

(** *** All waiters: timers and threads that exit *)

Lemma wake_all_spec fuel x :
  (length (Q o) <= fuel)%nat ->
  let ob := <[o := o_signaled (objs k o) 1]> (objs k) in
  exists k', release_waiters fuel (set_signaled k o 1) o x = Ret k'
    /\ woke k W Q ob (fun _ => x) (runners k W Q ob o) k'.
Proof.
  intros Hf ob. unfold release_waiters, for_waiters. set (k1 := set_signaled k o 1).
  assert (Hk1 : woke k W Q ob (fun _ => x) [] k1).
  { apply woke_start; try done; [by apply waits_set_obj|].
    apply (rest_same_set_obj k k (objs k) o (fun b => o_signaled b 1)); [done|]. apply rest_same_refl. }
  pose proof (first_waiter (fun b => o_signaled b 1) ltac:(done)) as Hfw. change (set_obj k o _) with k1 in Hfw.
  destruct (wake_loop_spec k o (Q o) None (runnable k W ob)
    (fun k t => k <~ release_thread (set_waitkey k t x) t; Ret (false, k))
    (woke k W Q ob (fun _ => x)) (woke k W Q ob (fun _ => x)) (Q o) [] [] k1 fuel)
    as (k2 & Hr & Hpost); try done.
  - by apply woke_links.
  - intros w1 k2 b Hk2 Hb Hn _.
    destruct (thread_ready_spec k W Q ob _ w1 k2 (thread_of k b) Hk2 Hn) as (k3 & H3 & Hk3 & _).
    exists k3. split; [exact H3|]. unfold runnable. destruct (can_run _ _ _); [|done].
    destruct (release_thread_spec k W Q Hwaits Hwake ob (fun _ => x) w1
      (set_waitkey k3 (thread_of k b) x) (thread_of k b)) as (k4 & -> & Hk4); try done.
    + by apply woke_set_waitkey.
    + by eapply waits_nonempty.
    + simpl. by rewrite fn_lookup_insert.
    + by exists k4.
  - exists k2. rewrite Hfw. split; [exact Hr|]. exact Hpost.
Qed.
End Waking.

(** *** Mutexes and file maps: the first waiter that can run gets the object *)

Section Handover.
Context (k : kernel) (W : nat -> list wbid) (Q : oid -> list wbid).
Context (Hwaits : waits k W Q) (Hwake : wakeable k W) (o : oid).

Lemma find_waiter_spec ob l : forall pre k1 fuel,
  woke k W Q ob (key_of k W ob) [] k1 -> sig_of ob o = true -> Q o = pre ++ l ->
  (length l <= fuel)%nat ->
  exists k2, woke k W Q ob (key_of k W ob) [] k2 /\ objs k2 = objs k1
    /\ ((filter (fun t => runnable k W ob t = true) (thread_of k <$> l) = []
         /\ find_waiter fuel k1 (head l) = Ret (None, k2))
        \/ exists b ts, b ∈ l
             /\ filter (fun t => runnable k W ob t = true) (thread_of k <$> l) = thread_of k b :: ts
             /\ find_waiter fuel k1 (head l) = Ret (Some b, k2)
             /\ waitkey k2 (thread_of k b) = key_of k W ob (thread_of k b)
             /\ w_thread (wbs k2 b) = thread_of k b).
Proof.
  induction l as [|b l IH]; intros pre k1 fuel Hk Hs Hq Hf.
  - exists k1. split_and!; [done|done|]. left. split; [done|]. by destruct fuel.
  - destruct fuel as [|fuel]; [simpl in Hf; lia|]. cbn [head find_waiter].
    assert (Hb : b ∈ Q o) by (rewrite Hq; set_solver).
    destruct (woke_links k W Q ob (key_of k W ob) o Hwaits [] k1 Hk) as [Hd Hth].
    rewrite Hth by set_solver.
    destruct (test_waiter k W Q Hwaits ob ob [] k1 o b Hk (fun _ => eq_refl) Hs Hb ltac:(set_solver))
      as (k2 & -> & Hk2 & Hkey & Hl & Hwb & Hob).
    cbn [obind]. rewrite fmap_cons, filter_cons.
    destruct (runnable k W ob (thread_of k b)) eqn:Hr.
    + rewrite decide_True by done. exists k2. split_and!; [done|done|]. right.
      exists b. eexists. split_and!; [set_solver|done|done|done|]. rewrite Hwb. apply Hth; set_solver.
    + rewrite decide_False by done. rewrite filter_id in Hd by set_solver.
      rewrite Hl. rewrite Hq in Hd. rewrite (dl_next _ _ _ _ _ Hd).
      destruct (IH (pre ++ [b]) k2 fuel Hk2 Hs) as (k3 & Hk3 & Hob3 & Hres).
      { by rewrite <- (assoc_L (++)). } { simpl in Hf. lia. }
      exists k3. split_and!; [done|congruence|].
      destruct Hres as [?|(z & ts & Hz & ?)]; [by left|]. right. exists z, ts. split; [set_solver|done].
Qed.

(** The mutex when it is free and when thread [t] has been given it. *)
Definition mutex_free (r : Z) : oid -> obj :=
  <[o := o_owner (o_signaled (o_recursion (objs k o) r) 1) None]> (objs k).
Definition mutex_given (t : nat) : oid -> obj :=
  <[o := o_owner (o_signaled (o_recursion (objs k o) 1) 0) (Some t)]> (objs k).

Lemma release_mutex_spec fuel :
  (length (Q o) <= fuel)%nat ->
  (owner (objs k o) <> Some (self k) -> release_mutex fuel k o = Ret (- EPERM, k))
  /\ (owner (objs k o) = Some (self k) ->
      let r := s32 (recursion (objs k o) - 1) in
      (0 < r -> release_mutex fuel k o = Ret (0, set_obj k o (fun b => o_recursion b r)))
      /\ (r <= 0 -> exists k', release_mutex fuel k o = Ret (0, k')
          /\ match runners k W Q (mutex_free r) o with
             | [] => woke k W Q (mutex_free r) (key_of k W (mutex_free r)) [] k'
             | t :: _ => woke k W Q (mutex_given t) (key_of k W (mutex_free r)) [t] k'
             end)).
Proof.
  intros Hf. unfold release_mutex. split; [intros Hn; by rewrite decide_False|].
  intros Hown. set (r := s32 (recursion (objs k o) - 1)). rewrite decide_True by done.
  set (k1 := set_obj k o (fun b => o_recursion b (s32 (recursion b - 1)))).
  assert (Hr1 : recursion (objs k1 o) = r) by (unfold k1; by rewrite objs_set_obj, decide_True).
  rewrite Hr1. split; intros Hr.
  - by rewrite (proj2 (Z.ltb_lt _ _) Hr).
  - rewrite (proj2 (Z.ltb_ge _ _) Hr).
    set (k2 := set_obj (set_signaled k1 o 1) o (fun b => o_owner b None)).
    set (ob := mutex_free r). set (key := key_of k W ob).
    assert (Hk2 : woke k W Q ob key [] k2).
    { eapply woke_ext; [|apply woke_set_obj, set_signaled_woke, woke_set_obj, woke_start;
        try done; apply rest_same_refl].
      intros i. unfold ob, mutex_free. destruct (decide (i = o)) as [->|];
        [rewrite !fn_lookup_insert; done|by rewrite !fn_lookup_insert_ne]. }
    assert (Hso : sig_of ob o = true) by (unfold sig_of, ob, mutex_free; by rewrite fn_lookup_insert).
    assert (Hfw : first (waitq (objs k2 o)) = head (Q o)).
    { pose proof (ws_obj _ _ _ (wk_waits _ _ _ _ _ _ _ Hk2) o) as Hd. cbn beta in Hd.
      rewrite filter_id in Hd by set_solver.
      apply (dl_first _ _ _ Hd). }
    rewrite Hfw.
    destruct (find_waiter_spec ob (Q o) [] k2 fuel Hk2 Hso eq_refl Hf) as
      (k3 & Hk3 & Hob & [[Hnil ->]|(b & ts & Hb & Hts & -> & Hkey & Hth)]); cbn [obind].
    + exists k3. split; [done|]. unfold runners, waiters. by rewrite Hnil.
    + unfold runners, waiters. rewrite Hts. rewrite Hth. set (t := thread_of k b) in *.
      set (k4 := set_signaled (set_obj (set_obj k3 o (fun b => o_owner b (Some t))) o (fun b => o_recursion b 1)) o 0).
      assert (Hk4 : woke k W Q (mutex_given t) key [] k4).
      { eapply woke_ext; [|apply set_signaled_woke, woke_set_obj, woke_set_obj, Hk3; done].
        intros i. unfold ob, mutex_free, mutex_given. destruct (decide (i = o)) as [->|];
          [rewrite !fn_lookup_insert; done|by rewrite !fn_lookup_insert_ne]. }
      destruct (release_thread_spec k W Q Hwaits Hwake (mutex_given t) key [] k4 t Hk4) as (k5 & -> & Hk5);
        [set_solver|by eapply waits_nonempty|exact Hkey|].
      exists k5. split; [done|exact Hk5].
Qed.

Lemma unlock_filemap_spec fuel :
  (length (Q o) <= fuel)%nat ->
  let ob x := <[o := o_signaled (objs k o) x]> (objs k) in
  exists k', unlock_filemap fuel k o = Ret (0, k')
    /\ match runners k W Q (ob 1) o with
       | [] => woke k W Q (ob 1) (key_of k W (ob 1)) [] k'
       | t :: _ => woke k W Q (ob 0) (key_of k W (ob 1)) [t] k'
       end.
Proof.
  intros Hf ob. unfold unlock_filemap. set (k2 := set_signaled k o 1).
  assert (Hk2 : woke k W Q (ob 1) (key_of k W (ob 1)) [] k2).
  { eapply woke_ext; [|apply set_signaled_woke, woke_start; try done; apply rest_same_refl]. done. }
  assert (Hso : sig_of (ob 1) o = true) by (unfold sig_of, ob; by rewrite fn_lookup_insert).
  assert (Hfw : first (waitq (objs k2 o)) = head (Q o)).
  { pose proof (ws_obj _ _ _ (wk_waits _ _ _ _ _ _ _ Hk2) o) as Hd. cbn beta in Hd.
      rewrite filter_id in Hd by set_solver.
    apply (dl_first _ _ _ Hd). }
  rewrite Hfw.
  destruct (find_waiter_spec (ob 1) (Q o) [] k2 fuel Hk2 Hso eq_refl Hf) as
    (k3 & Hk3 & Hob & [[Hnil ->]|(b & ts & Hb & Hts & -> & Hkey & Hth)]); cbn [obind].
  - exists k3. split; [done|]. unfold runners, waiters. by rewrite Hnil.
  - unfold runners, waiters. rewrite Hts. rewrite Hth. set (t := thread_of k b) in *.
    assert (Hk4 : woke k W Q (ob 0) (key_of k W (ob 1)) [] (set_signaled k3 o 0)).
    { eapply woke_ext; [|apply set_signaled_woke, Hk3].
      intros i. unfold ob. destruct (decide (i = o)) as [->|];
        [rewrite !fn_lookup_insert; done|by rewrite !fn_lookup_insert_ne]. }
    destruct (release_thread_spec k W Q Hwaits Hwake (ob 0) _ [] _ t Hk4) as (k5 & -> & Hk5);
      [set_solver|by eapply waits_nonempty|exact Hkey|].
    exists k5. split; [done|exact Hk5].
Qed.
End Handover.

(** ** Setting up a wait *)

Lemma insert_in_waitlist_spec k Q o b :
  (forall o, dl (waitlinks k) (waitq (objs k o)) (Q o)) -> (forall o, b ∉ Q o) ->
  (forall o o' b, b ∈ Q o -> b ∈ Q o' -> o = o') ->
  let k' := insert_in_waitlist k o b in
  (forall o', dl (waitlinks k') (waitq (objs k' o')) (<[o := Q o ++ [b]]> Q o'))
  /\ rest_same k k' (objs k) /\ wbs k' = wbs k /\ waitlist k' = waitlist k /\ waitkey k' = waitkey k
  /\ sch k' = sch k.
Proof.
  intros Hd Hn Hdis. unfold insert_in_waitlist.
  pose proof (dl_append_spec _ _ _ b (Hd o) (Hn o)) as Ha.
  destruct (dl_append (waitlinks k) (waitq (objs k o)) b) as [l q]. destruct Ha as [Hq Hl].
  split_and!; try done.
  - intros o'. cbn [with_waitlinks waitlinks set_obj with_objs objs].
    destruct (decide (o' = o)) as [->|Hne]; [by rewrite !fn_lookup_insert|].
    rewrite !fn_lookup_insert_ne by done. eapply dl_ext; [|apply Hd]. intros y Hy. apply Hl.
    rewrite elem_of_app, list_elem_of_singleton. intros [Hy'| ->]; [|by eapply Hn].
    apply Hne. by eapply Hdis.
  - split; try done. intros o'. rewrite objs_set_obj. case_decide as He; [by subst|apply o_waitq_id].
Qed.

(** The wait blocks of the current thread that have been linked: for the objects [os],
    numbered from 0. *)
Definition blocks_of (t n : nat) : list wbid := Wb t <$> seq 0 n.

(** A thread that waits uses only wait blocks on its own stack. *)
Definition own_blocks (W : nat -> list wbid) : Prop :=
  forall t b, b ∈ W t -> match b with Wb t' _ | WbTimeout t' => t' = t end.

Lemma elem_blocks_of t n b : b ∈ blocks_of t n <-> exists i, b = Wb t i /\ (i < n)%nat.
Proof.
  unfold blocks_of. rewrite list_elem_of_fmap. split.
  - intros (i & -> & Hi). apply elem_of_seq in Hi. exists i. split; [done|lia].
  - intros (i & -> & Hi). exists i. split; [done|]. apply elem_of_seq. lia.
Qed.

Lemma blocks_of_S t n : blocks_of t (S n) = blocks_of t n ++ [Wb t n].
Proof. unfold blocks_of. rewrite seq_S, fmap_app. done. Qed.

Lemma blocks_of_nodup t n : NoDup (blocks_of t n).
Proof. apply NoDup_fmap_2; [by intros ?? [=]|apply NoDup_seq]. Qed.

(** One pass of the loop that sets up wait blocks. *)
Definition setup_one (k : kernel) (type : Z) (n : nat) (o : oid) : kernel :=
  let t := self k in
  let b := Wb t n in
  let k := match n with
           | O => set_waitlist k t (Some b)
           | S m => set_wb k (Wb t m) (put_w_next (wbs k (Wb t m)) (Some b))
           end in
  let k := set_wb k b (WaitBlock t (Some o) type (Z.of_nat n) None) in
  insert_in_waitlist k o b.

Lemma setup_one_spec k W Q type n o :
  let t := self k in
  waits k (<[t := blocks_of t n]> W) Q -> own_blocks W -> (n < wait_fuel)%nat ->
  let k' := setup_one k type n o in
  waits k' (<[t := blocks_of t (S n)]> W) (<[o := Q o ++ [Wb t n]]> Q)
  /\ rest_same k k' (objs k) /\ sch k' = sch k /\ waitkey k' = waitkey k
  /\ wbs k' (Wb t n) = WaitBlock t (Some o) type (Z.of_nat n) None
  /\ (forall i, (i < n)%nat -> w_thread (wbs k' (Wb t i)) = w_thread (wbs k (Wb t i))
       /\ w_object (wbs k' (Wb t i)) = w_object (wbs k (Wb t i))
       /\ w_type (wbs k' (Wb t i)) = w_type (wbs k (Wb t i))
       /\ w_key (wbs k' (Wb t i)) = w_key (wbs k (Wb t i)))
  /\ (forall t' i, t' <> t -> wbs k' (Wb t' i) = wbs k (Wb t' i))
  /\ (forall t', wbs k' (WbTimeout t') = wbs k (WbTimeout t')).
Proof.
  intros t Hw Hown Hn. set (b := Wb t n).
  assert (Hnotin : forall t', b ∉ (<[t := blocks_of t n]> W) t').
  { intros t'. destruct (decide (t' = t)) as [->|Hne].
    - rewrite fn_lookup_insert, elem_blocks_of. intros (i & [= <-] & Hi). lia.
    - rewrite fn_lookup_insert_ne by done. intros Hb. specialize (Hown t' b Hb). simpl in Hown. congruence. }
  assert (HnQ : forall o', b ∉ Q o').
  { intros o' (t' & Hb & _)%(ws_in _ _ _ Hw). by eapply Hnotin. }
  destruct (waits_queues_ok _ _ _ Hw) as [Hd Hdis].
  unfold setup_one. fold t b.
  set (k1 := match n with O => _ | S m => _ end).
  set (k2 := set_wb k1 b (WaitBlock t (Some o) type (Z.of_nat n) None)).
  assert (H1 : objs k2 = objs k /\ waitlinks k2 = waitlinks k /\ sch k2 = sch k /\ waitkey k2 = waitkey k
    /\ whl k2 = whl k /\ ticks k2 = ticks k /\ exitcode k2 = exitcode k /\ muxlinks k2 = muxlinks k)
    by (unfold k2, k1; by destruct n).
  assert (Hwl : waitlist k2 t = Some (Wb t 0) /\ forall t', t' <> t -> waitlist k2 t' = waitlist k t').
  { pose proof (ws_thread _ _ _ Hw t) as Hs. rewrite fn_lookup_insert in Hs. unfold k2, k1. destruct n as [|m].
    - simpl. rewrite fn_lookup_insert. split; [done|]. intros t' Hne. by rewrite fn_lookup_insert_ne.
    - simpl. by destruct Hs as [-> _]. }
  assert (Hwb : forall z, wbs k2 z = if decide (z = b) then WaitBlock t (Some o) type (Z.of_nat n) None
    else if decide (n <> O /\ z = Wb t (pred n)) then put_w_next (wbs k z) (Some b) else wbs k z).
  { intros z. unfold k2. rewrite wbs_set_wb. case_decide; [done|]. unfold k1. destruct n as [|m].
    - rewrite decide_False by naive_solver. done.
    - rewrite wbs_set_wb. simpl. case_decide; [subst; by rewrite decide_True|].
      by rewrite decide_False by naive_solver. }
  clearbody k2. clear k1.
  assert (Hother : forall t' z, z ∈ W t' -> t' <> t -> wbs k2 z = wbs k z).
  { intros t' z Hz Hne. rewrite Hwb, !decide_False; [done| |].
    - intros [_ ->]. specialize (Hown _ _ Hz). simpl in Hown. congruence.
    - intros ->. specialize (Hown _ _ Hz). simpl in Hown. congruence. }
  destruct (insert_in_waitlist_spec k2 Q o b) as (Hq & Hr & E1 & E2 & E3 & E4).
  { intros o'.
    destruct H1 as (-> & -> & _). apply Hd. }
  { done. } { done. }
  set (k3 := insert_in_waitlist k2 o b) in *. clearbody k3.
  assert (Hfield : forall i, (i < n)%nat -> w_thread (wbs k3 (Wb t i)) = w_thread (wbs k (Wb t i))
       /\ w_object (wbs k3 (Wb t i)) = w_object (wbs k (Wb t i))
       /\ w_type (wbs k3 (Wb t i)) = w_type (wbs k (Wb t i))
       /\ w_key (wbs k3 (Wb t i)) = w_key (wbs k (Wb t i))).
  { intros i Hi. rewrite E1, Hwb, decide_False by (intros [= ->]; lia).
    destruct (decide (n <> 0%nat /\ Wb t i = Wb t (pred n))); done. }
  split_and!.
  - split.
    + intros t'. rewrite E2. destruct (decide (t' = t)) as [->|Hne].
      * rewrite (proj1 Hwl), fn_lookup_insert.
        apply (seg_ext (fun z => w_next (wbs k2 z))); [intros; by rewrite E1|].
        pose proof (ws_thread _ _ _ Hw t) as Hs. rewrite fn_lookup_insert in Hs.
        destruct n as [|m].
        -- cbn [blocks_of seq fmap list_fmap seg]. split; [done|]. by rewrite Hwb, decide_True.
        -- rewrite (blocks_of_S t m) in Hs. rewrite (blocks_of_S t (S m)), (blocks_of_S t m).
           rewrite !seg_snoc. rewrite seg_snoc in Hs. destruct Hs as [Hs _].
           assert (Some (Wb t 0) = waitlist k t) as ->.
           { destruct m; simpl in Hs; [by rewrite Hs|by destruct Hs as [-> _]]. }
           rewrite !Hwb. rewrite (decide_False (P:=Wb t m = b)) by (intros [= Hx]; lia).
           rewrite (decide_True (P:=S m <> O /\ _)) by (split; [lia|done]).
           rewrite (decide_True (P:=b = b)) by done. split_and!; [|done|done].
           eapply seg_ext; [|exact Hs]. intros z (i & -> & Hi)%elem_blocks_of. simpl.
           rewrite Hwb, !decide_False; [done| |]; naive_solver lia.
      * rewrite (proj2 Hwl), fn_lookup_insert_ne by done.
        pose proof (ws_thread _ _ _ Hw t') as Hs. rewrite fn_lookup_insert_ne in Hs by done.
        eapply seg_ext; [|exact Hs]. intros z Hz. simpl. rewrite E1. by rewrite (Hother t').
    + intros t'. destruct (decide (t' = t)) as [->|Hne];
        [rewrite fn_lookup_insert; apply blocks_of_nodup|].
      pose proof (ws_nodup _ _ _ Hw t') as Hs. by rewrite fn_lookup_insert_ne in Hs |- * by done.
    + intros t'. destruct (decide (t' = t)) as [->|Hne].
      * rewrite fn_lookup_insert. unfold blocks_of. rewrite length_fmap, length_seq. lia.
      * pose proof (ws_len _ _ _ Hw t') as Hs. by rewrite fn_lookup_insert_ne in Hs |- * by done.
    + intros t' z. destruct (decide (t' = t)) as [->|Hne].
      * rewrite fn_lookup_insert, blocks_of_S, elem_of_app, list_elem_of_singleton.
        intros [(i & -> & Hi)%elem_blocks_of| ->].
        -- destruct (Hfield i Hi) as (-> & -> & _). apply (ws_own _ _ _ Hw).
           rewrite fn_lookup_insert. apply elem_blocks_of. eauto.
        -- rewrite E1, Hwb, decide_True by done. simpl. eauto.
      * rewrite fn_lookup_insert_ne by done. intros Hz. rewrite E1, (Hother t') by done.
        apply (ws_own _ _ _ Hw). by rewrite fn_lookup_insert_ne.
    + exact Hq.
    + intros o' z.
      assert (Hold : z <> b -> w_object (wbs k3 z) = w_object (wbs k z)).
      { intros Hz. rewrite E1, Hwb, decide_False by done. by destruct (decide (n <> 0%nat /\ z = Wb t (pred n))). }
      assert (Hbq : z ∈ (<[o := Q o ++ [b]]> Q) o' <-> z ∈ Q o' \/ (z = b /\ o' = o)).
      { destruct (decide (o' = o)) as [->|]; [rewrite fn_lookup_insert; set_solver|].
        rewrite fn_lookup_insert_ne by done. naive_solver. }
      assert (Hbw : forall t', z ∈ (<[t := blocks_of t (S n)]> W) t' <->
        z ∈ (<[t := blocks_of t n]> W) t' \/ (z = b /\ t' = t)).
      { intros t'. destruct (decide (t' = t)) as [->|]; [rewrite !fn_lookup_insert, blocks_of_S; set_solver|].
        rewrite !fn_lookup_insert_ne by done. naive_solver. }
      rewrite Hbq, (ws_in _ _ _ Hw). destruct (decide (z = b)) as [->|Hz].
      * rewrite E1, Hwb, decide_True by done. cbn [w_object]. split.
        -- intros [(t' & Hb & _)|[_ ->]]; [by eapply Hnotin in Hb|]. exists t. split; [|done].
           apply Hbw. by right.
        -- intros (t' & _ & [= ->]). by right.
      * rewrite Hold by done. split.
        -- intros [(t' & Hb & Ho)|[? _]]; [|done]. exists t'. split; [|done]. apply Hbw. by left.
        -- intros (t' & Hb & Ho). left. exists t'. split; [|done]. apply Hbw in Hb. naive_solver.
  - destruct Hr as [R1 R2 R3 R4 R5].
    destruct H1 as (A1 & A2 & A3 & A4 & A5 & A6 & A7 & A8). rewrite A1 in R1. split; congruence.
  - rewrite E4. by apply H1.
  - rewrite E3. by apply H1.
  - by rewrite E1, Hwb, decide_True.
  - exact Hfield.
  - intros t' i Hne. rewrite E1, Hwb, !decide_False; [done| |]; naive_solver.
  - intros t'. rewrite E1, Hwb, !decide_False; [done| |]; naive_solver.
Qed.

(** The wait lists after thread [t] has linked its blocks for [os], from the [n]th on. *)
Fixpoint enqueue_all (Q : oid -> list wbid) (t n : nat) (os : list oid) : oid -> list wbid :=
  match os with
  | [] => Q
  | o :: os => enqueue_all (<[o := Q o ++ [Wb t n]]> Q) t (S n) os
  end.

Lemma setup_waitblocks_cons k type n o os :
  setup_waitblocks k type n (o :: os) = setup_waitblocks (setup_one k type n o) type (S n) os.
Proof. done. Qed.

Lemma self_sch k k' : sch k' = sch k -> self k' = self k.
Proof. unfold self. by intros ->. Qed.

Lemma setup_waitblocks_spec os : forall k W Q type n,
  let t := self k in
  waits k (<[t := blocks_of t n]> W) Q -> own_blocks W -> (n + length os <= wait_fuel)%nat ->
  let k' := setup_waitblocks k type n os in
  waits k' (<[t := blocks_of t (n + length os)]> W) (enqueue_all Q t n os)
  /\ rest_same k k' (objs k) /\ sch k' = sch k /\ waitkey k' = waitkey k
  /\ (forall i o, os !! i = Some o ->
       let w := wbs k' (Wb t (n + i)) in
       w_thread w = t /\ w_object w = Some o /\ w_type w = type /\ w_key w = Z.of_nat (n + i))
  /\ (forall i, (i < n)%nat -> let w := wbs k (Wb t i) in let w' := wbs k' (Wb t i) in
       w_thread w' = w_thread w /\ w_object w' = w_object w /\ w_type w' = w_type w /\ w_key w' = w_key w)
  /\ (forall t' i, t' <> t -> wbs k' (Wb t' i) = wbs k (Wb t' i)).
Proof.
  induction os as [|o os IH]; intros k W Q type n t Hw Hown Hn k'.
  - unfold k'. simpl. rewrite Nat.add_0_r. split; [done|]. split; [apply rest_same_refl|].
    split_and!; done.
  - unfold k'. rewrite setup_waitblocks_cons. cbn [length] in Hn.
    destruct (setup_one_spec k W Q type n o Hw Hown) as (H1 & H2 & H3 & H4 & H5 & H6 & H7 & _); [lia|].
    fold t in H1, H5, H6, H7. set (k1 := setup_one k type n o) in *. clearbody k1.
    destruct (IH k1 W (<[o := Q o ++ [Wb t n]]> Q) type (S n)) as (J1 & J2 & J3 & J4 & J5 & J6 & J7).
    { rewrite (self_sch _ _ H3). exact H1. } { done. } { lia. }
    rewrite (self_sch _ _ H3) in J1, J5, J6, J7. fold t in J1, J5, J6, J7.
    set (k2 := setup_waitblocks k1 type (S n) os) in *. clearbody k2.
    split. { cbn [length]. by replace (n + S (length os))%nat with (S n + length os)%nat by lia. }
    split; [by eapply rest_same_trans|]. split; [congruence|]. split; [congruence|]. split_and!.
    + intros [|i] o' Ho.
      * injection Ho as ->. rewrite Nat.add_0_r. destruct (J6 n) as (-> & -> & -> & ->); [lia|].
        by rewrite H5.
      * replace (n + S i)%nat with (S n + i)%nat by lia. by apply J5.
    + intros i Hi. destruct (J6 i) as (-> & -> & -> & ->); [lia|]. by apply H6.
    + intros t' i Hne. by rewrite J7, H7.
Qed.

(** ** Waiting for any of several objects *)

(** An object the current thread need not wait for. *)
Definition satisfied (k : kernel) (o : oid) : bool := truthy (signaled (objs k o)) || owns k o.

(** What the wait gets for the satisfied object [o], the [n]th. *)
Definition take_object (k : kernel) (n : Z) (o : oid) : Z * kernel :=
  if truthy (signaled (objs k o)) then
    (if fst (enter_object k o) =? 0 then n else fst (enter_object k o), snd (enter_object k o))
  else (n, enter_again k o).

Lemma enter_any_spec k os : forall n,
  (Forall (fun o => satisfied k o = false) os /\ enter_any k n os = None)
  \/ exists a o b, os = a ++ o :: b /\ Forall (fun o => satisfied k o = false) a
       /\ satisfied k o = true /\ enter_any k n os = Some (take_object k (n + Z.of_nat (length a)) o).
Proof.
  induction os as [|o os IH]; intros n; [by left|]. cbn [enter_any].
  unfold satisfied at 3, take_object.
  destruct (truthy (signaled (objs k o))) eqn:Hs.
  { right. exists [], o, os. split; [done|]. split; [done|]. unfold satisfied. rewrite Hs.
    split; [done|]. rewrite Z.add_0_r. by destruct (enter_object k o). }
  destruct (owns k o) eqn:Ho.
  { right. exists [], o, os. split; [done|]. split; [done|]. unfold satisfied. rewrite Hs, Ho.
    split; [done|]. by rewrite Z.add_0_r. }
  assert (Hf : satisfied k o = false) by (unfold satisfied; by rewrite Hs, Ho).
  destruct (IH (n + 1)) as [[H ->]|(a & o' & b & -> & H1 & H2 & ->)].
  - left. split; [by constructor|done].
  - right. exists (o :: a), o', b. split; [done|]. split; [by constructor|]. split; [done|].
    cbn [length]. unfold take_object.
    by replace (n + 1 + Z.of_nat (length a)) with (n + Z.of_nat (S (length a))) by lia.
Qed.

(** All objects are on a wait list once per wait block, in order. *)
Lemma enqueue_all_other os : forall Q t n o, o ∉ os -> enqueue_all Q t n os o = Q o.
Proof.
  induction os as [|o' os IH]; intros Q t n o Ho; [done|]. cbn [enqueue_all].
  rewrite IH by set_solver. apply fn_lookup_insert_ne. set_solver.
Qed.

(** ** The claims *)

Section WaitClaims.
Context (call : Z -> Z -> sched -> outcome sched) (dfuel : nat).

Lemma wait_for_any_spec k W Q os timeout :
  let t := self k in
  waits k (<[t := []]> W) Q -> own_blocks W -> os <> [] -> (length os <= MAX_WAIT_OBJECTS)%nat ->
  let wait := wait_for_any_object call dfuel k os timeout false in
  (forall a o b, os = a ++ o :: b -> Forall (fun o => satisfied k o = false) a ->
     satisfied k o = true ->
     wait = let '(rc, k') := take_object k (Z.of_nat (length a)) o in Ret (Done rc, k'))
  /\ (Forall (fun o => satisfied k o = false) os ->
      (timeout = 0 -> wait = Ret (Done (- ETIMEOUT), k))
      /\ (timeout = INFINITE -> exists k1,
          wait = (s <~ enter_wait call dfuel (sch k) THREAD_WAIT_OBJECT;
                  Ret (Blocked false false, with_sch k1 s))
          /\ waits k1 (<[t := blocks_of t (length os)]> W) (enqueue_all Q t 0 os)
          /\ rest_same k k1 (objs k) /\ sch k1 = sch k
          /\ forall i o, os !! i = Some o ->
               let w := wbs k1 (Wb t i) in w_thread w = t /\ w_object w = Some o
               /\ w_type w = WAIT_ANY /\ w_key w = Z.of_nat i)).
Proof.
  intros t Hw Hown Hne Hlen wait. unfold wait, wait_for_any_object.
  destruct os as [|o0 os0]; [done|]. set (os := o0 :: os0) in *.
  rewrite (proj2 (Nat.ltb_ge _ _) Hlen). split.
  - intros a o b Hos Ha Ho. destruct (enter_any_spec k os 0) as [[Hf _]|(a' & o' & b' & Hos' & Ha' & Ho' & ->)].
    { rewrite Hos, Forall_app, Forall_cons in Hf. destruct Hf as (_ & Hf & _). congruence. }
    assert (a' = a /\ o' = o) as [-> ->].
    { clear -Hos Hos' Ha Ha' Ho Ho'. rewrite Hos' in Hos. clear Hos'. revert a Hos Ha.
      induction a' as [|x a' IH]; intros [|y a] [= -> Hos] Ha; simplify_eq; try done.
      - apply Forall_cons in Ha as [Hx _]. congruence.
      - apply Forall_cons in Ha' as [Hx _]. congruence.
      - apply Forall_cons in Ha as [_ Ha]. apply Forall_cons in Ha' as [_ Ha'].
        by destruct (IH Ha' a Hos Ha) as [-> ->]. }
    rewrite Z.add_0_l. by destruct (take_object k (Z.of_nat (length a)) o).
  - intros Hf. destruct (enter_any_spec k os 0) as [[_ ->]|(a & o & b & Hos & _ & Ho & _)].
    2:{ rewrite Hos, Forall_app, Forall_cons in Hf. destruct Hf as (_ & Hf & _). congruence. }
    split; [by intros ->|]. intros ->.
    change (INFINITE =? 0) with false. cbv beta iota. unfold wait_for_objects, block.
    change (INFINITE =? INFINITE) with true. cbv beta iota.
    destruct (setup_waitblocks_spec os k W Q WAIT_ANY 0) as (H1 & H2 & H3 & H4 & H5 & _); [exact Hw|done| |].
    { unfold wait_fuel. simpl. unfold os in *. simpl in *. lia. }
    exists (setup_waitblocks k WAIT_ANY 0 os). rewrite H3. split_and!; done.
Qed.

(** The key of a thread whose blocks are signaled one at a time. *)
Lemma last_key_single wb sg a b c x :
  (forall z, z ∈ a ++ c -> lit wb sg z = false) -> lit wb sg b = true ->
  last_key wb sg (a ++ b :: c) x = w_key (wb b).
Proof.
  intros Hn Hb. unfold last_key. rewrite foldl_app. simpl. rewrite Hb.
  assert (Hc : forall z, z ∈ c -> lit wb sg z = false) by set_solver. clear Hn Hb.
  generalize (w_key (wb b)). induction c as [|y c IH]; intros v; [done|]. simpl.
  rewrite Hc by set_solver. apply IH. set_solver.
Qed.

Lemma enqueue_all_in os : forall Q t n i o, NoDup os -> os !! i = Some o ->
  enqueue_all Q t n os o = Q o ++ [Wb t (n + i)].
Proof.
  induction os as [|o' os IH]; intros Q t n i o Hnd Hi; [done|]. apply NoDup_cons in Hnd as [Hn Hnd].
  destruct i as [|i]; simpl in Hi; cbn [enqueue_all].
  - injection Hi as ->. rewrite enqueue_all_other, fn_lookup_insert by done. by rewrite Nat.add_0_r.
  - rewrite (IH _ _ _ i) by done. rewrite fn_lookup_insert_ne.
    + by rewrite <- plus_n_Sm.
    + intros ->. apply Hn. by apply list_elem_of_lookup_2 in Hi.
Qed.

Lemma enqueue_all_filter os : forall Q (th : wbid -> nat) t n o,
  (forall i, (i < length os)%nat -> th (Wb t (n + i)) = t) ->
  filter (fun b => th b ∉ [t]) (enqueue_all Q t n os o) = filter (fun b => th b ∉ [t]) (Q o).
Proof.
  induction os as [|o' os IH]; intros Q th t n o Hth; cbn [enqueue_all]; [done|].
  rewrite IH.
  - destruct (decide (o = o')) as [->|Hne]; [|by rewrite fn_lookup_insert_ne].
    rewrite fn_lookup_insert, filter_app, filter_cons, decide_False; [by rewrite app_nil_r|].
    specialize (Hth 0%nat ltac:(simpl; lia)). rewrite Nat.add_0_r in Hth. rewrite Hth. set_solver.
  - intros i Hi. replace (S n + i)%nat with (n + S i)%nat by lia. apply Hth. simpl. lia.
Qed.

Lemma waits_with_sch k s W Q : waits k W Q -> waits (with_sch k s) W Q.
Proof. intros [H1 H2 H3 H4 H5 H6]. by split. Qed.

(** Once thread [t] waits for any of [os], setting the [i]th event, for which nobody else
    waits, lets [t] run, with the key [i]. *)
Lemma any_wait_state k W Q os k1 i e :
  let t := self k in
  let W1 := <[t := blocks_of t (length os)]> W in
  let Q1 := enqueue_all Q t 0 os in
  let ob := <[e := o_signaled (objs k1 e) 1]> (objs k1) in
  waits k1 W1 Q1 -> rest_same k k1 (objs k) ->
  (forall j o, os !! j = Some o ->
     let w := wbs k1 (Wb t j) in
     w_thread w = t /\ w_object w = Some o /\ w_type w = WAIT_ANY /\ w_key w = Z.of_nat j) ->
  NoDup os -> Forall (fun o => satisfied k o = false) os -> os !! i = Some e -> Q e = [] ->
  Q1 e = [Wb t i] /\ waiters k1 Q1 e = [t] /\ runners k1 W1 Q1 ob e = [t] /\ key_of k1 W1 ob t = Z.of_nat i.
Proof.
  intros t W1 Q1 ob Hw1 H2 H5 Hnd Hf Hi HQ.
  assert (Hilen : (i < length os)%nat) by (by apply lookup_lt_Some in Hi).
  assert (HQ1 : Q1 e = [Wb t i]) by (unfold Q1; by rewrite (enqueue_all_in _ _ _ _ i), HQ).
  assert (Hwt : waiters k1 Q1 e = [t]).
  { unfold waiters. rewrite HQ1. cbn [fmap list_fmap]. unfold thread_of. by rewrite (proj1 (H5 i e Hi)). }
  assert (Hlit : forall j, (j < length os)%nat -> lit (wbs k1) (sig_of ob) (Wb t j) = bool_decide (j = i)).
  { intros j Hj. destruct (lookup_lt_is_Some_2 os j Hj) as [o Ho]. unfold lit.
    destruct (H5 j o Ho) as (_ & -> & _). unfold sig_of, ob. destruct (decide (o = e)) as [->|Hne].
    - rewrite fn_lookup_insert. rewrite bool_decide_eq_true_2; [done|]. by eapply NoDup_lookup.
    - rewrite fn_lookup_insert_ne by done. rewrite bool_decide_eq_false_2 by congruence.
      rewrite (rs_objs _ _ _ H2 o). cbn [o_waitq signaled].
      rewrite Forall_lookup in Hf. specialize (Hf j o Ho). by apply orb_false_iff in Hf as [-> _]. }
  assert (Hsplit : W1 t = blocks_of t i ++ Wb t i :: (Wb t <$> seq (S i) (length os - S i))).
  { unfold W1, blocks_of. rewrite fn_lookup_insert.
    replace (length os) with (i + S (length os - S i))%nat at 1 by lia.
    by rewrite seq_app, fmap_app. }
  split; [exact HQ1|]. split; [exact Hwt|]. split.
  - unfold runners. rewrite Hwt. apply filter_id. intros z ->%list_elem_of_singleton.
    unfold runnable, can_run. rewrite Hsplit, existsb_app. cbn [existsb].
    rewrite Hlit, bool_decide_eq_true_2 by done. destruct (H5 i e Hi) as (_ & _ & -> & _).
    cbn. by rewrite orb_true_r.
  - unfold key_of. rewrite Hsplit, last_key_single.
    + by destruct (H5 i e Hi) as (_ & _ & _ & ?).
    + intros z [(j & -> & Hj)%elem_blocks_of|(j & -> & Hj%elem_of_seq)%list_elem_of_fmap]%elem_of_app;
        (rewrite Hlit by lia; apply bool_decide_eq_false_2; lia).
    + rewrite Hlit by done. by apply bool_decide_eq_true_2.
Qed.

(** The wait lists without the blocks of [t] are those from before its wait. *)
Lemma any_wait_over k W Q os k1 k2 :
  let t := self k in
  let W1 := <[t := blocks_of t (length os)]> W in
  let Q1 := enqueue_all Q t 0 os in
  waits k (<[t := []]> W) Q -> waits k1 W1 Q1 ->
  (forall j, (j < length os)%nat -> thread_of k1 (Wb t j) = t) ->
  waits k2 (fun t' => if bool_decide (t' ∈ [t]) then [] else W1 t')
    (fun o => filter (fun b => thread_of k1 b ∉ [t]) (Q1 o)) ->
  waits k2 (<[t := []]> W) Q.
Proof.
  intros t W1 Q1 Hw Hw1 Hth. apply waits_ext.
  - intros t'. destruct (decide (t' = t)) as [->|Hne].
    + rewrite fn_lookup_insert, bool_decide_eq_true_2 by set_solver. done.
    + rewrite fn_lookup_insert_ne, bool_decide_eq_false_2 by set_solver. unfold W1.
      by rewrite fn_lookup_insert_ne.
  - intros o. unfold Q1. rewrite enqueue_all_filter by exact Hth. symmetry. apply filter_id.
    intros b Hb Hbt%list_elem_of_singleton. apply (ws_in _ _ _ Hw) in Hb as (t' & Hb & _).
    assert (Hne : t' <> t) by (intros ->; rewrite fn_lookup_insert in Hb; set_solver).
    rewrite fn_lookup_insert_ne in Hb by done.
    destruct (ws_own _ _ _ Hw1 t' b) as [Ht' _]; [unfold W1; by rewrite fn_lookup_insert_ne|].
    unfold thread_of in Hbt. congruence.
Qed.

(** ** Claims *)


(** The round trip of a wait for any of several objects: when thread [t] waits
    for objects none of which is signaled, and then [set_event] is called on the [i]th of
    them, an event nobody else waits for, [t] is made ready, off the wait lists of all
    objects, and the result of its wait is [i]. *)
Lemma wait_any_set_event k W Q os k1 i e fuel :
  let t := self k in
  waits k (<[t := []]> W) Q -> own_blocks W -> (length os <= MAX_WAIT_OBJECTS)%nat ->
  NoDup os -> Forall (fun o => satisfied k o = false) os ->
  wait_for_any_object call dfuel k os INFINITE false = Ret (Blocked false false, k1) ->
  wakeable k1 (<[t := blocks_of t (length os)]> W) ->
  os !! i = Some e -> Q e = [] -> (0 < fuel)%nat ->
  exists k2, set_event fuel k1 e = Ret k2
    /\ waitkey k2 t = Z.of_nat i
    /\ (state (thr (sch k2) t) = THREAD_STATE_READY
        \/ state (thr (sch k2) t) = THREAD_STATE_SUSPENDED)
    /\ waits k2 (<[t := []]> W) Q.
Proof.
  intros t Hw Hown Hlen Hnd Hf Hwait Hwake Hi HQ Hfuel.
  destruct (wait_for_any_spec k W Q os INFINITE Hw Hown) as [_ Hs]; [by destruct os|done|].
  destruct (Hs Hf) as [_ (k0 & Hwait' & H1 & H2 & _ & H5)]; [done|]. clear Hs. subst t.
  rewrite Hwait in Hwait'. destruct (enter_wait _ _ _ _) as [s| | |]; try done.
  cbn [obind] in Hwait'. injection Hwait' as ->.
  pose proof (waits_with_sch _ s _ _ H1) as Hw1.
  destruct (any_wait_state k W Q os (with_sch k0 s) i e Hw1) as (HQ1 & Hwt & Hrun & Hkey); try done.
  { by destruct H2. }
  destruct (set_event_spec (with_sch k0 s) _ _ Hw1 Hwake e) with (fuel := fuel) as (k2 & Hset & Hk2).
  { rewrite Hwt. apply NoDup_singleton. } { rewrite HQ1. simpl. lia. }
  rewrite Hrun in Hk2.
  replace (up_to (if manual_reset (objs (with_sch k0 s) e) =? 0 then Some 1%nat else None) [self k])
    with [self k] in Hk2 by (by destruct (_ =? 0)).
  exists k2. split; [exact Hset|]. destruct Hk2 as [K1 _ _ _ _ _ K7 K8].
  split; [rewrite K8 by set_solver; exact Hkey|]. split; [apply K7; set_solver|].
  eapply any_wait_over; [exact Hw|exact Hw1| |exact K1].
  intros j Hj. destruct (lookup_lt_is_Some_2 os j Hj) as [o Ho]. by apply (H5 j o).
Qed.
End WaitClaims.

(** C15: [set_event] on an event for which the threads of [Q e] wait: of those whose wait
    is satisfied once the event is signaled, an auto-reset event wakes the first and is
    reset by it, a manual-reset event wakes all, in the order of their waits, and stays
    signaled; an auto-reset event that wakes nobody stays signaled.  Every thread woken is off
    the wait lists of all its objects, is made ready, and its wait key is that of the last
    signaled object it waits for; nothing else changes. *)
Theorem set_event_correct k W Q e fuel :
  waits k W Q -> wakeable k W -> NoDup (waiters k Q e) -> (length (Q e) <= fuel)%nat ->
  let ob := <[e := o_signaled (objs k e) 1]> (objs k) in
  let w := up_to (if manual_reset (objs k e) =? 0 then Some 1%nat else None) (runners k W Q ob e) in
  exists k', set_event fuel k e = Ret k'
    /\ woke k W Q (event_after k e (bool_decide (w <> []))) (key_of k W ob) w k'.
Proof. intros Hw Hk Hn Hf. by apply set_event_spec. Qed.

(** [release_sem] adds [n] to the 32-bit counter of the semaphore, returns what it was
    before, and while the counter is not 0 wakes the waiters that can run in the order of
    their waits, each taking one from the counter; the semaphore is signaled
    exactly when the counter ends above 0, and when the sum wraps to 0 nothing else
    happens. *)
Lemma release_sem_correct k W Q s n fuel :
  waits k W Q -> wakeable k W -> NoDup (waiters k Q s) -> (length (Q s) <= fuel)%nat ->
  let c := u32 (count (objs k s) + n) in
  let ob := sem_after k s c 0 in
  let w := take (Z.to_nat c) (runners k W Q ob s) in
  exists k', release_sem fuel k s n = Ret (count (objs k s), k')
    /\ (0 < c -> woke k W Q (sem_after k s c (length w)) (key_of k W ob) w k')
    /\ (c = 0 -> k' = set_obj k s (fun b => o_count b 0)).
Proof. intros Hw Hk Hn Hf. by apply release_sem_spec. Qed.

(** [release_mutex] is refused with [-EPERM] unless the current thread owns the mutex;
    a recursive hold is only counted down; the last release frees the mutex and signals it,
    or hands it to the first waiting thread that can run, which then owns it once while
    the mutex stays unsignaled. *)
Lemma release_mutex_correct k W Q m fuel :
  waits k W Q -> wakeable k W -> (length (Q m) <= fuel)%nat ->
  (owner (objs k m) <> Some (self k) -> release_mutex fuel k m = Ret (- EPERM, k))
  /\ (owner (objs k m) = Some (self k) ->
      let r := s32 (recursion (objs k m) - 1) in
      (0 < r -> release_mutex fuel k m = Ret (0, set_obj k m (fun b => o_recursion b r)))
      /\ (r <= 0 -> exists k', release_mutex fuel k m = Ret (0, k')
          /\ match runners k W Q (mutex_free k m r) m with
             | [] => woke k W Q (mutex_free k m r) (key_of k W (mutex_free k m r)) [] k'
             | t :: _ => woke k W Q (mutex_given k m t) (key_of k W (mutex_free k m r)) [t] k'
             end)).
Proof. intros Hw Hk Hf. by apply release_mutex_spec. Qed.

Lemma pulse_loop_stuck k W Q e b ob key fuel : forall k1,
  waits k W Q -> wakeable k W -> woke k W Q ob key [] k1 -> wbs k1 = wbs k -> b ∈ Q e ->
  runnable k W ob (thread_of k b) = false -> pulse_loop fuel k1 e (Some b) = Diverge.
Proof.
  induction fuel as [|fuel IH]; intros k1 Hw Hk H1 Hb HbQ Hr; [done|]. cbn [pulse_loop].
  destruct (thread_ready_spec k W Q ob key [] k1 (thread_of k b) H1 ltac:(set_solver))
    as (k2 & H2 & Hk2 & _ & Hb2 & _).
  rewrite Hb. fold (thread_of k b). rewrite H2. cbn [obind]. unfold runnable in Hr. rewrite Hr.
  apply IH; try done. congruence.
Qed.

(** [pulse_event] does not return when the first thread on the wait list waits for all
    of several objects and another of them is not signaled: the loop moves on to the next
    wait block only after it has released a thread. *)
Lemma pulse_event_diverges k W Q e b l :
  waits k W Q -> wakeable k W -> Q e = b :: l ->
  runnable k W (<[e := o_signaled (objs k e) 1]> (objs k)) (thread_of k b) = false ->
  forall fuel, pulse_event fuel k e = Diverge.
Proof.
  intros Hw Hk HQ Hr fuel. unfold pulse_event.
  assert (Hf : first (waitq (objs (set_signaled k e 1) e)) = Some b).
  { unfold set_signaled. rewrite (first_waiter k W Q Hw e (fun b => o_signaled b 1)) by done. by rewrite HQ. }
  rewrite Hf.
  rewrite (pulse_loop_stuck k W Q e b (<[e := o_signaled (objs k e) 1]> (objs k)) (fun _ => 0) fuel (set_signaled k e 1) Hw Hk); try done.
  - by apply set_signaled_woke, woke_start; [..|apply rest_same_refl].
  - rewrite HQ. set_solver.
Qed.

(** A mutex defeats [wait_for_all_objects]: since a signaled mutex has no owner, the
    test of the function for a mutex (signaled and owned by the caller) never holds, and
    the function with timeout 0 returns [-ETIMEOUT] without entering anything, even when the
    mutex is free or already owned by the caller and all other objects are signaled. *)
Lemma wait_all_mutex_not_entered call dfuel k os m alertable :
  (length os <= MAX_WAIT_OBJECTS)%nat -> m ∈ os -> otype (objs k m) = OBJECT_MUTEX ->
  (signaled (objs k m) <> 0 -> owner (objs k m) = None) ->
  wait_for_all_objects call dfuel k os 0 alertable = Ret (Done (- ETIMEOUT), k).
Proof.
  intros Hl Hm Ht Ho. unfold wait_for_all_objects. destruct os as [|o os0]; [set_solver|].
  set (os := o :: os0) in *. rewrite (proj2 (Nat.ltb_ge _ _) Hl).
  assert (Hf : forallb (entered k) os = false).
  { apply not_true_is_false. intros Hall. rewrite forallb_forall in Hall.
    apply list_elem_of_In in Hm. specialize (Hall m Hm). unfold entered in Hall. rewrite Ht in Hall.
    change (OBJECT_MUTEX =? OBJECT_MUTEX) with true in Hall. cbv iota in Hall.
    rewrite negb_orb, !negb_involutive in Hall. apply andb_true_iff in Hall as [Hs Hb].
    apply bool_decide_eq_true in Hb. rewrite Ho in Hb; [done|].
    intros Hz. by rewrite Hz in Hs. }
  by rewrite Hf.
Qed.

(** ** Witnesses

    Thread 2 waits for any of the event 11, the auto-reset event 10, the semaphore 12 and
    the mutex 13, which thread 1 owns; thread 1 runs.  In [ex_all] it waits for all. *)

Definition ex_obj (type manual cnt : Z) (own : option nat) (r : Z) : obj :=
  Obj type 0 1 0 no_ends manual cnt own r no_ends no_ends None 0 0 0.

Definition ex_base (s : sched) : kernel :=
  Kernel s (Wheel (Links (fun _ => None) (fun _ => None)) (fun _ => 0) (fun _ => false) (fun _ => 0) 0 []) 0
    (fun o => match o with
       | Addr 10 => ex_obj OBJECT_EVENT 0 0 None 0
       | Addr 11 => ex_obj OBJECT_EVENT 1 0 None 0
       | Addr 12 => ex_obj OBJECT_SEMAPHORE 0 0 None 0
       | Addr 13 => ex_obj OBJECT_MUTEX 0 0 (Some 1%nat) 1
       | _ => ex_obj OBJECT_THREAD 0 0 None 0 end)
    no_links (fun _ => WaitBlock 0 None 0 0 None) (fun _ => None) (fun _ => 0) (fun _ => 0) no_links.

Definition ex_sched2 : sched :=
  Sched (thr ex_sched) (rlinks ex_sched) (readyq ex_sched) 1 0 2 (dpcs ex_sched) None None 0 0 0 [].

Definition ex_objs : list oid := [Addr 11; Addr 10; Addr 12; Addr 13].
Definition ex_wait (type : Z) : kernel :=
  with_sch (setup_waitblocks (ex_base ex_sched2) type 0 ex_objs) ex_sched.
Definition ex_W : nat -> list wbid := <[2%nat := blocks_of 2 4]> (fun _ => []).
Definition ex_Q : oid -> list wbid := enqueue_all (fun _ => []) 2 0 ex_objs.

Lemma ex_base_waits s : waits (ex_base s) (fun _ => []) (fun _ => []).
Proof.
  split; try done.
  - intros t. apply NoDup_nil_2.
  - intros t. apply Nat.le_0_l.
  - intros t b Hb. set_solver.
  - intros o. destruct o as [n|n]; [|apply dl_nil].
    do 14 (destruct n as [|n]; [apply dl_nil|]). apply dl_nil.
  - intros o b. split; [set_solver|]. intros (t & Hb & _). set_solver.
Qed.

Lemma ex_waits type : waits (ex_wait type) ex_W ex_Q.
Proof.
  destruct (setup_waitblocks_spec ex_objs (ex_base ex_sched2) (fun _ => []) (fun _ => []) type 0)
    as (H & _).
  - eapply waits_ext; [| |apply ex_base_waits]; [|done]. intros t.
    destruct (decide (t = 2%nat)) as [->|]; [by rewrite fn_lookup_insert|by rewrite fn_lookup_insert_ne].
  - intros t b Hb. set_solver.
  - unfold wait_fuel, MAX_WAIT_OBJECTS. simpl. lia.
  - exact (waits_with_sch _ ex_sched _ _ H).
Qed.

Lemma ex_wakeable type : wakeable (ex_wait type) ex_W.
Proof.
  split; [exists ex_queues; exact ex_sched_ready|].
  intros [|[|[|t]]] Ht; [by left|by left|done|by left].
Qed.

Lemma ex_nodup : NoDup (waiters (ex_wait WAIT_ANY) ex_Q (Addr 10)) /\ NoDup (waiters (ex_wait WAIT_ANY) ex_Q (Addr 12)).
Proof. split; apply (bool_decide_unpack _); vm_compute; exact I. Qed.

Lemma set_event_correct_witness :
  exists k', set_event 5 (ex_wait WAIT_ANY) (Addr 10) = Ret k' /\ waitkey k' 2 = 1
    /\ signaled (objs k' (Addr 10)) = 0.
Proof.
  destruct (set_event_correct (ex_wait WAIT_ANY) ex_W ex_Q (Addr 10) 5 (ex_waits _) (ex_wakeable _))
    as (k' & H1 & H2); [apply ex_nodup|vm_compute; lia|].
  exists k'. split; [exact H1|]. split.
  - rewrite (wk_key _ _ _ _ _ _ _ H2 2); [by vm_compute|]. vm_compute. apply list_elem_of_here.
  - rewrite (rs_objs _ _ _ (wk_rest _ _ _ _ _ _ _ H2) (Addr 10)). by vm_compute.
Defined.


Definition ex_sched1 : sched :=
  match enter_wait no_call 0 ex_sched THREAD_WAIT_OBJECT with Ret s => s | _ => ex_sched end.

Lemma ex_sched1_eq : enter_wait no_call 0 ex_sched THREAD_WAIT_OBJECT = Ret ex_sched1.
Proof.
  assert (H : match enter_wait no_call 0 ex_sched THREAD_WAIT_OBJECT with Ret _ => true | _ => false end = true)
    by (by vm_compute).
  unfold ex_sched1. by destruct (enter_wait no_call 0 ex_sched THREAD_WAIT_OBJECT).
Qed.

Lemma ex_sched1_wakeable k W : wakeable (with_sch k ex_sched1) W.
Proof.
  assert (Hi : sched_inv ex_sched1).
  { assert (H : steps_well (Ret ex_sched1)); [|exact H].
    rewrite <- ex_sched1_eq. apply enter_wait_inv; [apply no_call_ok|apply ex_sched_inv]. }
  split; [exact (si_ready _ Hi)|]. cbn [with_sch sch]. intros [|[|[|t]]] Ht; by vm_compute in Ht.
Qed.

Lemma ex_idle s : waits (ex_base s) (<[self (ex_base s) := []]> (fun _ => [])) (fun _ => []).
Proof.
  eapply waits_ext; [| |apply ex_base_waits]; [|done]. intros t.
  destruct (decide (t = self (ex_base s))) as [->|]; [by rewrite fn_lookup_insert|by rewrite fn_lookup_insert_ne].
Qed.

Lemma ex_own : own_blocks (fun _ => []).
Proof. intros t b Hb. set_solver. Qed.

Lemma ex_wait1 : exists k1, wait_for_any_object no_call 0 (ex_base ex_sched) [Addr 11; Addr 10] INFINITE false
  = Ret (Blocked false false, with_sch k1 ex_sched1).
Proof.
  destruct (wait_for_any_spec no_call 0 (ex_base ex_sched) _ _ [Addr 11; Addr 10] INFINITE (ex_idle _) ex_own)
    as [_ H]; [done|simpl; unfold MAX_WAIT_OBJECTS; lia|].
  destruct H as [_ (k1 & H & _)]; [by repeat constructor|done|]. exists k1. rewrite H.
  change (sch (ex_base ex_sched)) with ex_sched. by rewrite ex_sched1_eq.
Qed.

