(* ===== verification/Services.v ===== *)
(** * Services: what the buffer cache asks of the scheduler and of events

    The buffer cache (src/src/sys/krnl/buf.c) blocks and wakes threads with [enter_wait] and
    [mark_thread_ready] of sched.c and wakes the lazy writer with [set_event] of
    object.c.  [KernelServices] is what it relies on; the instance at the end discharges
    the laws for the kernel state of Object.v. *)

From stdpp Require Import functions.
From S2P Require Import Prelude Dlist Timer Sched Object.
Local Open Scope krlean_scope.

Definition BUFWAIT_BOOST : Z := 1.

Class KernelServices (K : Type) := {
  kinv : K -> Prop;
  asleep : K -> nat -> Prop;                  (* the thread waits for a buffer *)
  self_thread : K -> nat;
  make_ready : K -> nat -> Z -> outcome K;    (* the wait key, then mark_thread_ready(t, 1, BUFWAIT_BOOST) *)
  signal_dirty : K -> outcome K;              (* set_event(&dirty_buffers) *)

  make_ready_ok : forall k t key, kinv k -> asleep k t ->
    exists k', make_ready k t key = Ret k' /\ kinv k'
      /\ forall t', t' <> t -> asleep k t' -> asleep k' t';
  signal_dirty_ok : forall k, kinv k ->
    exists k', signal_dirty k = Ret k' /\ kinv k' /\ forall t, asleep k t -> asleep k' t;
}.

(** ** Waking threads keeps the invariant of the waits *)

Lemma runners_wait k W Q ob o t : waits k W Q -> t ∈ runners k W Q ob o -> W t <> [].
Proof.
  intros Hw Ht. unfold runners in Ht. apply list_elem_of_filter in Ht as [_ Hq].
  unfold waiters in Hq. apply list_elem_of_fmap in Hq as (b & -> & Hb). by eapply waits_nonempty.
Qed.

Lemma woke_keeps k W Q ob key w k' : waits k W Q -> wakeable k W -> woke k W Q ob key w k' ->
  exists W' Q', waits k' W' Q' /\ wakeable k' W'
    /\ (forall e, NoDup (waiters k Q e) -> NoDup (waiters k' Q' e))
    /\ (forall e, (length (Q' e) <= length (Q e))%nat)
    /\ (forall t, t ∉ w -> W' t = W t).
Proof.
  intros Hw Hk [K1 K2 K3 K4 K5 K6 K7 K8].
  eexists (fun t => if bool_decide (t ∈ w) then [] else W t), _. split; [exact K1|]. split_and!.
  - split; [exact K4|]. intros t Hst. destruct (decide (t ∈ w)) as [Ht|Ht].
    + left. by rewrite bool_decide_eq_true_2.
    + rewrite bool_decide_eq_false_2 by done. rewrite K6 in Hst |- * by done. by apply Hk.
  - intros e Hn.
    assert (Hsub : (thread_of k' <$> filter (fun b => thread_of k b ∉ w) (Q e))
      = (thread_of k <$> filter (fun b => thread_of k b ∉ w) (Q e))).
    { apply list_fmap_ext. intros i b Hb%list_elem_of_lookup_2%list_elem_of_filter.
      destruct Hb as [Hb1 Hb2]. unfold thread_of. erewrite (K2 (thread_of k b)); [done|done|].
      by eapply queue_thread. }
    unfold waiters. rewrite Hsub. eapply sublist_NoDup; [exact Hn|]. apply fmap_sublist, sublist_filter.
  - intros e. apply length_filter.
  - intros t Ht. by rewrite bool_decide_eq_false_2.
Qed.

(** ** The kernel of Object.v provides them

    The event [dirty_buffers] has at most [fuel] waiters. *)

Section Kernel.
Context (dirty_buffers : oid) (fuel : nat).

Record kernel_ok (k : kernel) (W : nat -> list wbid) (Q : oid -> list wbid) : Prop := {
  ko_waits : waits k W Q;
  ko_wakeable : wakeable k W;
  ko_nodup : NoDup (waiters k Q dirty_buffers);
  ko_fuel : (length (Q dirty_buffers) <= fuel)%nat;
}.

Definition k_asleep (k : kernel) (t : nat) : Prop :=
  state (thr (sch k) t) = THREAD_STATE_WAITING /\ waitlist k t = None.

Definition k_make_ready (k : kernel) (t : nat) (key : Z) : outcome kernel :=
  let k := set_waitkey k t key in
  s <~ mark_thread_ready (sch k) t 1 BUFWAIT_BOOST; Ret (with_sch k s).

Lemma no_blocks k W Q t : waits k W Q -> waitlist k t = None <-> W t = [].
Proof.
  intros Hw. pose proof (ws_thread _ _ _ Hw t) as Hs. apply seg_head in Hs. rewrite Hs.
  by destruct (W t).
Qed.

Lemma k_make_ready_ok k t key : (exists W Q, kernel_ok k W Q) -> k_asleep k t ->
  exists k', k_make_ready k t key = Ret k' /\ (exists W Q, kernel_ok k' W Q)
    /\ forall t', t' <> t -> k_asleep k t' -> k_asleep k' t'.
Proof.
  intros (W & Q & [Hw [Hr Hk] Hn Hf]) [Hst Hwl]. unfold k_make_ready.
  destruct (mark_ready_total (sch k) t 1 BUFWAIT_BOOST Hr) as (s & Hs & Hr' & Ho & Ht).
  { by rewrite Hst. }
  change (sch (set_waitkey k t key)) with (sch k). rewrite Hs. cbn [obind].
  eexists. split; [reflexivity|]. split.
  - exists W, Q. split; [| |exact Hn|exact Hf].
    + apply waits_with_sch. by destruct Hw.
    + split; [exact Hr'|]. intros t' Hst'. cbn [with_sch sch] in Hst' |- *.
      destruct (decide (t' = t)) as [->|Hne].
      * left. by apply (no_blocks _ _ _ _ Hw).
      * rewrite (only_thr _ _ _ Ho) in Hst' |- * by done. by apply Hk.
  - intros t' Hne [Hst' Hwl']. split; [|exact Hwl']. cbn [with_sch sch].
    by rewrite (only_thr _ _ _ Ho).
Qed.

Lemma k_signal_ok k : (exists W Q, kernel_ok k W Q) ->
  exists k', set_event fuel k dirty_buffers = Ret k' /\ (exists W Q, kernel_ok k' W Q)
    /\ forall t, k_asleep k t -> k_asleep k' t.
Proof.
  intros (W & Q & [Hw Hk Hn Hf]).
  destruct (set_event_spec k W Q Hw Hk dirty_buffers Hn fuel Hf) as (k' & Hset & Hk').
  set (w := up_to _ _) in Hk'. exists k'. split; [exact Hset|].
  assert (Hin : forall t, t ∈ w -> W t <> []).
  { intros t Ht. eapply (runners_wait k W Q _ dirty_buffers); [done|].
    unfold w, up_to in Ht. destruct (manual_reset _ =? 0); [|exact Ht].
    apply elem_of_take in Ht as (i & Hi & _). by apply list_elem_of_lookup_2 in Hi. }
  destruct (woke_keeps _ _ _ _ _ _ _ Hw Hk Hk') as (W' & Q' & Hw' & Hwk & Hnd & Hlen & Hsame).
  split; [exists W', Q'; split; [done|done|by apply Hnd|]; specialize (Hlen dirty_buffers); lia|].
  intros t [Hst Hwl]. assert (HWt : W t = []) by (by apply (no_blocks _ _ _ _ Hw)).
  assert (Ht : t ∉ w) by (intros Ht; by apply (Hin t Ht)).
  split; [by rewrite (wk_sch _ _ _ _ _ _ _ Hk')|]. apply (no_blocks _ _ _ _ Hw'). by rewrite Hsame.
Qed.

#[export] Instance kernel_services : KernelServices kernel := {
  kinv k := exists W Q, kernel_ok k W Q;
  asleep := k_asleep;
  self_thread := self;
  make_ready := k_make_ready;
  signal_dirty k := set_event fuel k dirty_buffers;
  make_ready_ok := k_make_ready_ok;
  signal_dirty_ok := k_signal_ok;
}.
End Kernel.
