(* ===== verification/Buf.v ===== *)
(** * Buf: the buffer cache, src/src/sys/krnl/buf.c

    A buffer is known by its index in the array of headers.  The code leaves the processor
    in four places: while the device reads or writes a block, when it waits for another
    thread's transfer, and when no buffer is to be had.  Other threads use the pool
    meanwhile, so each of these is an argument of the model that takes the pool to the
    pool at the return; [switch_ok] says what they leave alone.

    [K] is the state of the kernel behind [KernelServices].  Not modelled: the list of all
    pools, the lazy writer and the proc listings, which only loop over pools. *)

From stdpp Require Import functions.
From S2P Require Import Prelude Dlist Timer Sched Object Services.
Local Open Scope krlean_scope.

Definition BUFPOOL_HASHSIZE : Z := 512.
Definition BUF_STATE_FREE : Z := 0.
Definition BUF_STATE_CLEAN : Z := 1.
Definition BUF_STATE_DIRTY : Z := 2.
Definition BUF_STATE_READING : Z := 3.
Definition BUF_STATE_WRITING : Z := 4.
Definition BUF_STATE_LOCKED : Z := 5.
Definition BUF_STATE_UPDATED : Z := 6.
Definition BUF_STATE_INVALID : Z := 7.
Definition BUF_STATE_ERROR : Z := 8.

Record buf := Buf {
  bstate : Z; locks : Z; buf_waiters : option nat; blkno : Z; bdata : list Z }.

(** The counters of the pool. *)
Inductive stat :=
  | BlocksRead | CacheHits | CacheMisses | BlocksAllocated | BlocksFreed
  | BlocksUpdated | BlocksWritten | BlocksLazywrite | BlocksSynched.
#[export] Instance stat_eq_dec : EqDecision stat.
Proof. solve_decision. Defined.

Record bufpool (K : Type) := BufPool {
  poolsize : nat; bufsize : Z; blks_per_buffer : Z;
  ioactive : Z; nosync : Z; last_sync : Z;
  stats : stat -> Z;
  dirty : ends (A:=nat); clean : ends (A:=nat); freelist : option nat;
  bufcount : Z -> Z;
  hashtable : Z -> option nat;
  bufs : nat -> buf;
  chain : links nat; bucket : links nat;
  next_waiter : nat -> option nat;     (* [thread->next_waiter] *)
  knl : K;
}.
Arguments BufPool {K}. Arguments poolsize {K}. Arguments bufsize {K}. Arguments blks_per_buffer {K}.
Arguments ioactive {K}. Arguments nosync {K}. Arguments last_sync {K}. Arguments stats {K}.
Arguments dirty {K}. Arguments clean {K}. Arguments freelist {K}. Arguments bufcount {K}.
Arguments hashtable {K}. Arguments bufs {K}. Arguments chain {K}. Arguments bucket {K}.
Arguments next_waiter {K}. Arguments knl {K}.

(** ** Stores *)

Definition b_state (x : buf) (v : Z) : buf :=
  Buf v (locks x) (buf_waiters x) (blkno x) (bdata x).
Definition b_locks (x : buf) (v : Z) : buf :=
  Buf (bstate x) v (buf_waiters x) (blkno x) (bdata x).
Definition b_waiters (x : buf) (v : option nat) : buf :=
  Buf (bstate x) (locks x) v (blkno x) (bdata x).
Definition b_blkno (x : buf) (v : Z) : buf :=
  Buf (bstate x) (locks x) (buf_waiters x) v (bdata x).
Definition b_data (x : buf) (v : list Z) : buf :=
  Buf (bstate x) (locks x) (buf_waiters x) (blkno x) v.

Section Stores.
Context {K : Type}.
Implicit Types p : bufpool K.

Definition p_ioactive p (v : Z) : bufpool K :=
  BufPool (poolsize p) (bufsize p) (blks_per_buffer p) v (nosync p) (last_sync p)
    (stats p) (dirty p) (clean p) (freelist p) (bufcount p) (hashtable p) (bufs p)
    (chain p) (bucket p) (next_waiter p) (knl p).
Definition p_last_sync p (v : Z) : bufpool K :=
  BufPool (poolsize p) (bufsize p) (blks_per_buffer p) (ioactive p) (nosync p) v
    (stats p) (dirty p) (clean p) (freelist p) (bufcount p) (hashtable p) (bufs p)
    (chain p) (bucket p) (next_waiter p) (knl p).
Definition p_stats p (v : stat -> Z) : bufpool K :=
  BufPool (poolsize p) (bufsize p) (blks_per_buffer p) (ioactive p) (nosync p)
    (last_sync p) v (dirty p) (clean p) (freelist p) (bufcount p) (hashtable p)
    (bufs p) (chain p) (bucket p) (next_waiter p) (knl p).
Definition p_dirty p (v : ends) : bufpool K :=
  BufPool (poolsize p) (bufsize p) (blks_per_buffer p) (ioactive p) (nosync p)
    (last_sync p) (stats p) v (clean p) (freelist p) (bufcount p) (hashtable p)
    (bufs p) (chain p) (bucket p) (next_waiter p) (knl p).
Definition p_clean p (v : ends) : bufpool K :=
  BufPool (poolsize p) (bufsize p) (blks_per_buffer p) (ioactive p) (nosync p)
    (last_sync p) (stats p) (dirty p) v (freelist p) (bufcount p) (hashtable p)
    (bufs p) (chain p) (bucket p) (next_waiter p) (knl p).
Definition p_freelist p (v : option nat) : bufpool K :=
  BufPool (poolsize p) (bufsize p) (blks_per_buffer p) (ioactive p) (nosync p)
    (last_sync p) (stats p) (dirty p) (clean p) v (bufcount p) (hashtable p) (bufs
    p) (chain p) (bucket p) (next_waiter p) (knl p).
Definition p_bufcount p (v : Z -> Z) : bufpool K :=
  BufPool (poolsize p) (bufsize p) (blks_per_buffer p) (ioactive p) (nosync p)
    (last_sync p) (stats p) (dirty p) (clean p) (freelist p) v (hashtable p) (bufs
    p) (chain p) (bucket p) (next_waiter p) (knl p).
Definition p_hashtable p (v : Z -> option nat) : bufpool K :=
  BufPool (poolsize p) (bufsize p) (blks_per_buffer p) (ioactive p) (nosync p)
    (last_sync p) (stats p) (dirty p) (clean p) (freelist p) (bufcount p) v (bufs p)
    (chain p) (bucket p) (next_waiter p) (knl p).
Definition p_bufs p (v : nat -> buf) : bufpool K :=
  BufPool (poolsize p) (bufsize p) (blks_per_buffer p) (ioactive p) (nosync p)
    (last_sync p) (stats p) (dirty p) (clean p) (freelist p) (bufcount p) (hashtable
    p) v (chain p) (bucket p) (next_waiter p) (knl p).
Definition p_chain p (v : links nat) : bufpool K :=
  BufPool (poolsize p) (bufsize p) (blks_per_buffer p) (ioactive p) (nosync p)
    (last_sync p) (stats p) (dirty p) (clean p) (freelist p) (bufcount p) (hashtable
    p) (bufs p) v (bucket p) (next_waiter p) (knl p).
Definition p_bucket p (v : links nat) : bufpool K :=
  BufPool (poolsize p) (bufsize p) (blks_per_buffer p) (ioactive p) (nosync p)
    (last_sync p) (stats p) (dirty p) (clean p) (freelist p) (bufcount p) (hashtable
    p) (bufs p) (chain p) v (next_waiter p) (knl p).
Definition p_next_waiter p (v : nat -> option nat) : bufpool K :=
  BufPool (poolsize p) (bufsize p) (blks_per_buffer p) (ioactive p) (nosync p)
    (last_sync p) (stats p) (dirty p) (clean p) (freelist p) (bufcount p) (hashtable
    p) (bufs p) (chain p) (bucket p) v (knl p).
Definition p_knl p (v : K) : bufpool K :=
  BufPool (poolsize p) (bufsize p) (blks_per_buffer p) (ioactive p) (nosync p)
    (last_sync p) (stats p) (dirty p) (clean p) (freelist p) (bufcount p) (hashtable
    p) (bufs p) (chain p) (bucket p) (next_waiter p) v.
End Stores.

(** ** The operations *)

Definition bufhash (b : Z) : Z := b.
Definition slot_of (b : Z) : Z := bufhash b mod BUFPOOL_HASHSIZE.

Section Pool.
Context {K : Type} `{KernelServices K}.
Implicit Types (p : bufpool K) (b : nat).

Definition set_buf p b (f : buf -> buf) : bufpool K :=
  p_bufs p (<[b := f (bufs p b)]> (bufs p)).

Definition bump p (s : stat) : bufpool K := p_stats p (<[s := s32 (stats p s + 1)]> (stats p)).

Definition change_state p b (newstate : Z) : bufpool K :=
  let old := bstate (bufs p b) in
  let p := p_bufcount p (<[old := s32 (bufcount p old - 1)]> (bufcount p)) in
  let p := p_bufcount p (<[newstate := s32 (bufcount p newstate + 1)]> (bufcount p)) in
  set_buf p b (fun x => b_state x newstate).

Definition lock p b : bufpool K := set_buf p b (fun x => b_locks x (u16 (locks x + 1))).

Definition unchain p b : bufpool K := p_chain p (set_pv (set_nx (chain p) b None) b None).

(** Another thread runs until [mark_thread_ready] has been called for this one. *)
Context (enter_wait : bufpool K -> nat -> outcome (Z * bufpool K)).

Definition wait_for_buffer p b : outcome (Z * bufpool K) :=
  let t := self_thread (knl p) in
  let p := p_next_waiter p (<[t := buf_waiters (bufs p b)]> (next_waiter p)) in
  let p := set_buf p b (fun x => b_waiters x (Some t)) in
  enter_wait p b.

Fixpoint release_waiters_loop (fuel : nat) p b (thread : option nat) (waitkey : Z) : outcome (bufpool K) :=
  match thread, fuel with
  | None, _ => Ret p
  | Some _, O => Diverge
  | Some t, S fuel =>
      let p := lock p b in
      let next := next_waiter p t in
      let p := p_next_waiter p (<[t := None]> (next_waiter p)) in
      k <~ make_ready (knl p) t waitkey;
      release_waiters_loop fuel (p_knl p k) b next waitkey
  end.

(** A lock counts to 65535, so no buffer has more waiters than that. *)
Definition waiters_fuel : nat := Z.to_nat 65536.

Definition release_buffer_waiters p b (waitkey : Z) : outcome (bufpool K) :=
  p <~ release_waiters_loop waiters_fuel p b (buf_waiters (bufs p b)) waitkey;
  Ret (set_buf p b (fun x => b_waiters x None)).

Definition insert_into_hashtable p b : bufpool K :=
  let slot := slot_of (blkno (bufs p b)) in
  let k := set_pv_of (bucket p) (hashtable p slot) (Some b) in
  let k := set_pv (set_nx k b (hashtable p slot)) b None in
  p_hashtable (p_bucket p k) (<[slot := Some b]> (hashtable p)).

Definition remove_from_hashtable p b : bufpool K :=
  let slot := slot_of (blkno (bufs p b)) in
  let '(k, q) := dl_remove (bucket p) (Ends (hashtable p slot) None) b in
  let p := p_hashtable (p_bucket p k) (<[slot := first q]> (hashtable p)) in
  p_bucket p (set_pv (set_nx (bucket p) b None) b None).

(** [while (buf && buf->blkno != blkno) buf = buf->bucket.next;]: a chain has at most
    [poolsize] buffers. *)
Fixpoint find_block (fuel : nat) p (n : Z) (b : option nat) : outcome (option nat) :=
  match b, fuel with
  | None, _ => Ret None
  | Some _, O => Diverge
  | Some b, S fuel => if blkno (bufs p b) =? n then Ret (Some b) else find_block fuel p n (nx (bucket p) b)
  end.

Definition remove_clean p b : bufpool K :=
  let '(k, q) := dl_remove (chain p) (clean p) b in p_clean (p_chain p k) q.
Definition remove_dirty p b : bufpool K :=
  let '(k, q) := dl_remove (chain p) (dirty p) b in p_dirty (p_chain p k) q.
Definition append_clean p b : bufpool K :=
  let '(k, q) := dl_append (chain p) (clean p) b in p_clean (p_chain p k) q.
Definition append_dirty p b : bufpool K :=
  let '(k, q) := dl_append (chain p) (dirty p) b in p_dirty (p_chain p k) q.

Definition clear_data p b : bufpool K :=
  set_buf p b (fun x => b_data x (replicate (Z.to_nat (bufsize p)) 0)).

Definition lookup_buffer p (n : Z) : outcome (option nat * bufpool K) :=
  r <~ find_block (poolsize p) p n (hashtable p (slot_of n));
  match r with
  | None => Ret (None, p)
  | Some b =>
      let st := bstate (bufs p b) in
      if st =? BUF_STATE_FREE then Panic
      else if st =? BUF_STATE_CLEAN then
        let p := remove_clean p b in
        let p := change_state p b BUF_STATE_LOCKED in
        Ret (Some b, lock (unchain p b) b)
      else if st =? BUF_STATE_DIRTY then
        let p := remove_dirty p b in
        let p := change_state p b BUF_STATE_UPDATED in
        Ret (Some b, lock (unchain p b) b)
      else if (st =? BUF_STATE_READING) || (st =? BUF_STATE_WRITING) then
        '(_, p) <~ wait_for_buffer p b; Ret (Some b, p)
      else if (st =? BUF_STATE_LOCKED) || (st =? BUF_STATE_UPDATED) then Ret (Some b, lock p b)
      else if st =? BUF_STATE_INVALID then
        let p := change_state p b BUF_STATE_LOCKED in
        Ret (Some b, clear_data (lock p b) b)
      else if st =? BUF_STATE_ERROR then Ret (Some b, lock p b)
      else Panic
  end.

(** The device transfers a block from or to the data of the buffer. *)
Context (dev_read dev_write : bufpool K -> nat -> Z -> outcome (Z * bufpool K)).

(** What follows a transfer, in [read_buffer] and [write_buffer]. *)
Definition transferred p b (rc : Z) : outcome (bufpool K) :=
  if rc =? bufsize p then release_buffer_waiters (change_state p b BUF_STATE_LOCKED) b 0
  else release_buffer_waiters (change_state p b BUF_STATE_ERROR) b rc.

Definition read_buffer p b : outcome (Z * bufpool K) :=
  let p := change_state p b BUF_STATE_READING in
  let p := p_ioactive p 1 in
  '(rc, p) <~ dev_read p b (u32 (blkno (bufs p b) * blks_per_buffer p));
  p <~ transferred p b rc;
  Ret (rc, bump p BlocksRead).

Definition write_buffer p b (flush : bool) : outcome (Z * bufpool K) :=
  if bstate (bufs p b) =? BUF_STATE_DIRTY then
    let p := unchain (remove_dirty p b) b in
    let p := change_state p b BUF_STATE_WRITING in
    let p := if flush then p else p_ioactive p 1 in
    '(rc, p) <~ dev_write p b (u32 (blkno (bufs p b) * blks_per_buffer p));
    let p := bump p BlocksWritten in
    p <~ transferred p b rc;
    Ret (rc, p)
  else
    p <~ transferred p b (bufsize p);
    Ret (bufsize p, p).

Context (yield : bufpool K -> outcome (bufpool K)).

(** [get_new_buffer] when there is a free or a clean buffer: the free list, then the
    least recently used clean buffer. *)
Definition take_buffer p : option (nat * bufpool K) :=
  match freelist p with
  | Some b => Some (b, unchain (p_freelist p (nx (chain p) b)) b)
  | None =>
      match first (clean p) with
      | Some b =>
          let next := nx (chain p) b in
          let p := p_chain p (set_pv_of (chain p) next None) in
          let q := Ends next (if decide (last_ (clean p) = Some b) then next else last_ (clean p)) in
          let p := unchain (p_clean p q) b in
          Some (b, remove_from_hashtable p b)
      | None => None
      end
  end.

Fixpoint get_new_buffer (fuel : nat) p : outcome (nat * bufpool K) :=
  match fuel with
  | O => Diverge
  | S fuel =>
      match take_buffer p with
      | Some r => Ret r
      | None =>
          '(r, p) <~ match first (dirty p) with
                     | Some b =>
                         '(rc, p) <~ write_buffer p b false;
                         if (0 <=? rc) && (locks (bufs p b) =? 0)
                         then Ret (Some b, remove_from_hashtable p b) else Ret (None, p)
                     | None => Ret (None, p)
                     end;
          match r with
          | Some b => Ret (b, p)
          | None => p <~ yield p; get_new_buffer fuel p
          end
      end
  end.

Definition release_buffer p b : outcome (bufpool K) :=
  let p := set_buf p b (fun x => b_locks x (u16 (locks x - 1))) in
  if 0 <? locks (bufs p b) then Ret p
  else
    let st := bstate (bufs p b) in
    if st =? BUF_STATE_LOCKED then
      Ret (append_clean (change_state p b BUF_STATE_CLEAN) b)
    else if st =? BUF_STATE_UPDATED then
      let p := append_dirty (change_state p b BUF_STATE_DIRTY) b in
      k <~ signal_dirty (knl p);
      Ret (bump (p_knl p k) BlocksUpdated)
    else if (st =? BUF_STATE_INVALID) || (st =? BUF_STATE_ERROR) then
      let p := remove_from_hashtable p b in
      let p := change_state p b BUF_STATE_FREE in
      let p := p_chain p (set_pv (set_nx (chain p) b (freelist p)) b None) in
      Ret (bump (p_freelist p (Some b)) BlocksFreed)
    else Panic.

Definition mark_buffer_updated p b : bufpool K :=
  let st := bstate (bufs p b) in
  if (st =? BUF_STATE_LOCKED) || (st =? BUF_STATE_INVALID) then change_state p b BUF_STATE_UPDATED else p.

Definition mark_buffer_invalid p b : bufpool K :=
  let st := bstate (bufs p b) in
  if (st =? BUF_STATE_LOCKED) || (st =? BUF_STATE_UPDATED) then change_state p b BUF_STATE_INVALID else p.

Definition get_buffer (fuel : nat) p (n : Z) : outcome (option nat * bufpool K) :=
  '(r, p) <~ lookup_buffer p n;
  match r with
  | Some b =>
      if bstate (bufs p b) =? BUF_STATE_ERROR then p <~ release_buffer p b; Ret (None, p)
      else Ret (Some b, bump p CacheHits)
  | None =>
      '(b, p) <~ get_new_buffer fuel p;
      let p := insert_into_hashtable (set_buf p b (fun x => b_blkno x n)) b in
      '(rc, p) <~ read_buffer (lock p b) b;
      if rc <? 0 then p <~ release_buffer p b; Ret (None, p)
      else Ret (Some b, bump p CacheMisses)
  end.

Definition alloc_buffer (fuel : nat) p (n : Z) : outcome (option nat * bufpool K) :=
  '(r, p) <~ lookup_buffer p n;
  match r with
  | Some b =>
      if bstate (bufs p b) =? BUF_STATE_ERROR then p <~ release_buffer p b; Ret (None, p)
      else Ret (Some b, clear_data (bump p BlocksAllocated) b)
  | None =>
      '(b, p) <~ get_new_buffer fuel p;
      let p := insert_into_hashtable (set_buf p b (fun x => b_blkno x n)) b in
      let p := change_state (clear_data p b) b BUF_STATE_LOCKED in
      Ret (Some b, bump (lock p b) BlocksAllocated)
  end.

Definition invalidate_buffer p (n : Z) : outcome (bufpool K) :=
  '(r, p) <~ lookup_buffer p n;
  match r with
  | None => Ret p
  | Some b => release_buffer (mark_buffer_invalid p b) b
  end.

Fixpoint flush_loop (fuel : nat) p (interruptable : bool) : outcome (Z * bufpool K) :=
  match first (dirty p), fuel with
  | None, _ => Ret (0, p)
  | Some _, O => Diverge
  | Some b, S fuel =>
      if interruptable && truthy (ioactive p) then Ret (- EINTR, p)
      else
        '(rc, p) <~ write_buffer p b true;
        if rc <? 0 then Ret (rc, p)
        else
          let p := bump p BlocksLazywrite in
          let p := if locks (bufs p b) =? 0
                   then append_clean (change_state p b BUF_STATE_CLEAN) b else p in
          flush_loop fuel p interruptable
  end.

Definition flush_buffers (fuel : nat) p (interruptable : bool) : outcome (Z * bufpool K) :=
  if truthy (nosync p) then Ret (0, p) else flush_loop fuel (p_ioactive p 0) interruptable.

(** The callback of the file system and the clock. *)
Context (sync : bufpool K -> outcome (bufpool K)) (time : bufpool K -> Z).

Fixpoint sync_loop p (interruptable : bool) (bs : list nat) : outcome (Z * bufpool K) :=
  match bs with
  | [] => Ret (0, p_last_sync p (time p))
  | b :: bs =>
      if bstate (bufs p b) =? BUF_STATE_UPDATED then
        if interruptable && truthy (ioactive p) then Ret (- EINTR, p)
        else
          '(rc, p) <~ dev_write (lock p b) b (u32 (blkno (bufs p b) * blks_per_buffer p));
          if rc <? 0 then Ret (rc, p)
          else
            let p := bump (bump p BlocksWritten) BlocksSynched in
            p <~ release_buffer (change_state p b BUF_STATE_LOCKED) b;
            sync_loop p interruptable bs
      else sync_loop p interruptable bs
  end.

Definition sync_buffers p (interruptable : bool) : outcome (Z * bufpool K) :=
  if truthy (nosync p) then Ret (0, p)
  else
    p <~ sync p;
    if bufcount p BUF_STATE_UPDATED =? 0 then Ret (0, p_last_sync p (time p))
    else sync_loop (p_ioactive p 0) interruptable (seq 0 (poolsize p)).
End Pool.

(** [init_buffer_pool]: the block size is what the device answers, and each of the three
    allocations may fail. *)
Definition init_buffer_pool {K} (k : K) (size : nat) (bsize blksize now : Z) (pool_ok base_ok data_ok : bool)
    : outcome (option (bufpool K)) :=
  if blksize <? 0 then Ret None
  else if negb pool_ok then Ret None
  else if blksize =? 0 then Fault
  else if negb base_ok then Ret None
  else if negb data_ok then Ret None
  else
    let next i := if (i <? size)%nat then (if (S i =? size)%nat then None else Some (S i)) else None in
    Ret (Some (BufPool size bsize (Z.quot bsize blksize) 0 0 now (fun _ => 0) no_ends no_ends (Some 0%nat)
      (<[BUF_STATE_FREE := Z.of_nat size]> (fun _ => 0)) (fun _ => None)
      (fun _ => Buf 0 0 None 0 (replicate (Z.to_nat bsize) 0))
      (Links next (fun _ => None)) (Links (fun _ => None) (fun _ => None)) (fun _ => None) k)).

(** ** The invariant of a pool

    [F], [C], [D]: the free, clean and dirty lists; [Hs s]: the chain of slot [s]; [Wt b]:
    the threads that wait for buffer [b], last first.  [x] is a buffer that is in
    transit between two lists. *)

Definition in_io (s : Z) : Prop := s = BUF_STATE_READING \/ s = BUF_STATE_WRITING.

(** The locks a buffer has in a state. *)
Definition lock_ok (s l : Z) : Prop :=
  if decide (s = BUF_STATE_READING) then l = 1
  else if decide (s = BUF_STATE_LOCKED \/ s = BUF_STATE_UPDATED \/ s = BUF_STATE_INVALID) then 1 <= l <= 65535
  else if decide (s = BUF_STATE_ERROR) then 0 <= l <= 65535
  else l = 0.

Section Invariant.
Context {K : Type} `{KernelServices K}.
Implicit Types (p : bufpool K) (b : nat) (F C D : list nat) (Hs : Z -> list nat) (Wt : nat -> list nat).

Definition slot p b : Z := slot_of (blkno (bufs p b)).

Record lists_ok p F C D Hs : Prop := {
  lo_free : seg (nx (chain p)) (freelist p) F None;
  lo_clean : dl (chain p) (clean p) C;
  lo_dirty : dl (chain p) (dirty p) D;
  lo_nodup : NoDup (F ++ C ++ D);
  lo_hash : forall s, dl (bucket p) (Ends (hashtable p s) (last (Hs s))) (Hs s);
  lo_slot : forall s b, b ∈ Hs s -> slot p b = s;
  lo_bound : forall b, b ∈ F ++ C ++ D \/ b ∈ Hs (slot p b) -> (b < poolsize p)%nat;
}.

Record buf_ok p F C D Hs b : Prop := {
  bo_state : 0 <= bstate (bufs p b) <= BUF_STATE_ERROR;
  bo_free : b ∈ F <-> bstate (bufs p b) = BUF_STATE_FREE;
  bo_clean : b ∈ C <-> bstate (bufs p b) = BUF_STATE_CLEAN;
  bo_dirty : b ∈ D <-> bstate (bufs p b) = BUF_STATE_DIRTY;
  bo_hash : b ∈ Hs (slot p b) <-> bstate (bufs p b) <> BUF_STATE_FREE;
  bo_locks : lock_ok (bstate (bufs p b)) (locks (bufs p b));
  bo_waiters : ~ in_io (bstate (bufs p b)) -> buf_waiters (bufs p b) = None;
}.

Definition count_state p (s : Z) : nat :=
  countb (fun b => bstate (bufs p b) =? s) (seq 0 (poolsize p)).

Record waiters_ok p Wt : Prop := {
  wo_list : forall b, seg (next_waiter p) (buf_waiters (bufs p b)) (Wt b) None;
  wo_nodup : forall b, NoDup (Wt b);
  wo_asleep : forall b t, t ∈ Wt b -> asleep (knl p) t;
  wo_disjoint : forall b b' t, t ∈ Wt b -> t ∈ Wt b' -> b = b';
  wo_room : forall b, locks (bufs p b) + Z.of_nat (length (Wt b)) <= 65535;
}.

Record pool_inv (x : option nat) p F C D Hs Wt : Prop := {
  pi_lists : lists_ok p F C D Hs;
  pi_count : forall s, 0 <= s <= BUF_STATE_ERROR -> bufcount p s = Z.of_nat (count_state p s);
  pi_size : Z.of_nat (poolsize p) < 2 ^ 31;
  pi_waiters : waiters_ok p Wt;
  pi_knl : kinv (knl p);
  pi_bufs : forall b, (b < poolsize p)%nat -> x <> Some b -> buf_ok p F C D Hs b;
}.

Definition pool_ok p : Prop := exists F C D Hs Wt, pool_inv None p F C D Hs Wt.

(** A buffer that a thread holds. *)
Definition held p b : Prop :=
  (b < poolsize p)%nat
  /\ (bstate (bufs p b) = BUF_STATE_LOCKED \/ bstate (bufs p b) = BUF_STATE_UPDATED
      \/ bstate (bufs p b) = BUF_STATE_INVALID \/ (bstate (bufs p b) = BUF_STATE_ERROR /\ 1 <= locks (bufs p b))).

(** Of all buffers but [b], the lists hold the same. *)
Definition same_but b F C D Hs F' C' D' Hs' : Prop :=
  forall b', b' <> b -> (b' ∈ F' <-> b' ∈ F) /\ (b' ∈ C' <-> b' ∈ C) /\ (b' ∈ D' <-> b' ∈ D)
    /\ forall s, b' ∈ Hs' s <-> b' ∈ Hs s.

(** What the operations on the lists leave alone. *)
Record rest_ok b p p' : Prop := {
  ro_other : forall b', b' <> b -> bufs p' b' = bufs p b';
  ro_state : bstate (bufs p' b) = bstate (bufs p b);
  ro_count : bufcount p' = bufcount p;
  ro_size : poolsize p' = poolsize p;
  ro_waiter : buf_waiters (bufs p' b) = buf_waiters (bufs p b);
  ro_next : next_waiter p' = next_waiter p;
  ro_knl : knl p' = knl p;
}.

Lemma count_ext p p' s : (forall b, bstate (bufs p' b) = bstate (bufs p b)) ->
  poolsize p' = poolsize p -> count_state p' s = count_state p s.
Proof.
  intros Hb Hn. unfold count_state, countb. rewrite Hn. f_equal. apply filter_ext_elem.
  intros b _. by rewrite Hb.
Qed.

Lemma inv_step b p p' F C D Hs Wt F' C' D' Hs' :
  pool_inv (Some b) p F C D Hs Wt -> lists_ok p' F' C' D' Hs' -> same_but b F C D Hs F' C' D' Hs' ->
  rest_ok b p p' -> locks (bufs p' b) + Z.of_nat (length (Wt b)) <= 65535 ->
  pool_inv (Some b) p' F' C' D' Hs' Wt.
Proof.
  intros [L1 L2 L3 [W1 W2 W3 W4 W5] L5 L6] Hl Hsame [R1 R2 R3 R4 R5 R6 R7] Hroom. split.
  - exact Hl.
  - intros s Hs0. rewrite R3, L2 by done. f_equal. symmetry. apply count_ext; [|done].
    intros b'. destruct (decide (b' = b)) as [->|]; [done|]. by rewrite R1.
  - by rewrite R4.
  - split.
    + intros b'. rewrite R6. destruct (decide (b' = b)) as [->|]; [by rewrite R5|by rewrite R1].
    + done.
    + intros b' t. rewrite R7. apply W3.
    + done.
    + intros b'. destruct (decide (b' = b)) as [->|]; [done|]. by rewrite R1.
  - by rewrite R7.
  - intros b' Hb' Hx. rewrite R4 in Hb'. assert (b' <> b) by congruence.
    destruct (L6 b' Hb' Hx) as [B1 B2 B3 B4 B5 B6 B7]. destruct (Hsame b') as (S1 & S2 & S3 & S4); [done|].
    unfold slot in *. split; unfold slot; rewrite ?R1 by done; rewrite ?S1, ?S2, ?S3, ?S4; done.
Qed.

(** A buffer goes into transit and comes out of it. *)
Lemma transit b p F C D Hs Wt : pool_inv None p F C D Hs Wt -> pool_inv (Some b) p F C D Hs Wt.
Proof. intros [L1 L2 L3 L4 L5 L6]. split; try done. intros b' Hb' _. by apply L6. Qed.

Lemma settle b p F C D Hs Wt :
  pool_inv (Some b) p F C D Hs Wt -> buf_ok p F C D Hs b -> pool_inv None p F C D Hs Wt.
Proof.
  intros [L1 L2 L3 L4 L5 L6] Hb. split; try done. intros b' Hb' _.
  destruct (decide (b' = b)) as [->|]; [done|]. apply L6; [done|congruence].
Qed.

(** ** Operations on the lists *)

Lemma elem_lists b F C D : (b ∉ F ++ C ++ D) <-> (b ∉ F) /\ (b ∉ C) /\ (b ∉ D).
Proof. rewrite !elem_of_app. tauto. Qed.

Lemma same_but_refl b F C D Hs : same_but b F C D Hs F C D Hs.
Proof. by intros b' _. Qed.

(** The lists when the chains of their buffers are as they were. *)
Lemma lists_same p p' F C D Hs :
  lists_ok p F C D Hs ->
  (forall b, b ∈ F ++ C ++ D -> nx (chain p') b = nx (chain p) b /\ pv (chain p') b = pv (chain p) b) ->
  freelist p' = freelist p -> clean p' = clean p -> dirty p' = dirty p ->
  bucket p' = bucket p -> hashtable p' = hashtable p ->
  (forall s b, b ∈ Hs s -> blkno (bufs p' b) = blkno (bufs p b)) -> poolsize p' = poolsize p ->
  lists_ok p' F C D Hs.
Proof.
  intros [L1 L2 L3 L4 L5 L6 L7] Hc E1 E2 E3 E4 E5 Hb En. split; rewrite ?E1, ?E2, ?E3, ?E4, ?E5, ?En; try done.
  - eapply seg_ext; [|exact L1]. intros i Hi. apply Hc. set_solver.
  - eapply dl_ext; [|exact L2]. intros i Hi. apply Hc. set_solver.
  - eapply dl_ext; [|exact L3]. intros i Hi. apply Hc. set_solver.
  - intros s b Hs0. unfold slot. rewrite (Hb s) by done. by apply L6.
  - intros b [Hb'|Hb']; apply L7; [by left|]. right. pose proof (L6 _ _ Hb') as Hsl.
    unfold slot in *. rewrite (Hb _ _ Hb') in Hsl. by rewrite (Hb _ _ Hb') in Hb'.
Qed.

Lemma set_buf_eq p b f : bufs (set_buf p b f) b = f (bufs p b).
Proof. unfold set_buf. simpl. apply fn_lookup_insert. Qed.

Lemma set_buf_ne p b f b' : b' <> b -> bufs (set_buf p b f) b' = bufs p b'.
Proof. intros. unfold set_buf. simpl. by rewrite fn_lookup_insert_ne. Qed.

Lemma inv_set_buf b p f F C D Hs Wt :
  pool_inv (Some b) p F C D Hs Wt ->
  (blkno (f (bufs p b)) = blkno (bufs p b) \/ forall s, b ∉ Hs s) ->
  bstate (f (bufs p b)) = bstate (bufs p b) -> buf_waiters (f (bufs p b)) = buf_waiters (bufs p b) ->
  locks (f (bufs p b)) + Z.of_nat (length (Wt b)) <= 65535 ->
  pool_inv (Some b) (set_buf p b f) F C D Hs Wt.
Proof.
  intros Hp Hb Hs0 Hw Hl. eapply inv_step; [exact Hp| |apply same_but_refl| |by rewrite set_buf_eq].
  - eapply (lists_same p); [exact (pi_lists _ _ _ _ _ _ _ Hp)|done..| |done]. intros s b' Hb'.
    destruct (decide (b' = b)) as [->|]; [|by rewrite set_buf_ne]. rewrite set_buf_eq.
    destruct Hb as [|Hb]; [done|]. by apply Hb in Hb'.
  - split; try done; [|by rewrite set_buf_eq..]. intros b' Hb'. by apply set_buf_ne.
Qed.

Lemma countb_change (f g : nat -> bool) b l :
  NoDup l -> b ∈ l -> (forall b', b' <> b -> g b' = f b') ->
  (countb g l + Nat.b2n (f b) = countb f l + Nat.b2n (g b))%nat.
Proof.
  intros Hn Hb Hg. induction l as [|y l IH]; [set_solver|]. apply NoDup_cons in Hn as [Hy Hn].
  rewrite !countb_cons. destruct (decide (y = b)) as [->|Hne].
  - assert (countb g l = countb f l) as ->; [|lia].
    unfold countb. f_equal. apply filter_ext_elem. intros z Hz. rewrite Hg; [done|]. by intros ->.
  - rewrite (Hg y) by done. specialize (IH Hn ltac:(set_solver)). lia.
Qed.

Lemma count_le p s : (count_state p s <= poolsize p)%nat.
Proof. unfold count_state, countb. etransitivity; [apply length_filter|]. by rewrite length_seq. Qed.

Lemma count_set_state p b f z : (b < poolsize p)%nat ->
  (count_state (set_buf p b f) z + Nat.b2n (bstate (bufs p b) =? z)%Z
   = count_state p z + Nat.b2n (bstate (f (bufs p b)) =? z)%Z)%nat.
Proof.
  intros Hb. pose proof (countb_change (fun b => bstate (bufs p b) =? z)
    (fun b' => bstate (bufs (set_buf p b f) b') =? z) b (seq 0 (poolsize p))) as Hx.
  cbv beta in Hx. rewrite set_buf_eq in Hx. apply Hx; [apply NoDup_seq|apply elem_of_seq; lia|].
  intros b' Hne. by rewrite set_buf_ne.
Qed.

Lemma change_state_eq p b s : bufs (change_state p b s) b = b_state (bufs p b) s.
Proof. unfold change_state. by rewrite set_buf_eq. Qed.

Lemma change_state_ne p b s b' : b' <> b -> bufs (change_state p b s) b' = bufs p b'.
Proof. intros. unfold change_state. by rewrite set_buf_ne. Qed.

(** The two updates of [bufcount]. *)
Lemma change_counts p b s s' :
  (forall z, 0 <= z <= BUF_STATE_ERROR -> bufcount p z = Z.of_nat (count_state p z)) ->
  Z.of_nat (poolsize p) < 2 ^ 31 -> (b < poolsize p)%nat ->
  0 <= bstate (bufs p b) <= BUF_STATE_ERROR -> 0 <= s <= BUF_STATE_ERROR -> 0 <= s' <= BUF_STATE_ERROR ->
  bufcount (change_state p b s) s' = Z.of_nat (count_state (set_buf p b (fun x => b_state x s)) s').
Proof.
  intros Hc Hn Hb Hold Hs Hs'. unfold change_state. cbn [set_buf p_bufs p_bufcount bufcount].
  set (old := bstate (bufs p b)) in *. pose proof (count_set_state p b (fun x => b_state x s) s' Hb) as Hx.
  cbn [b_state bstate] in Hx. fold old in Hx.
  pose proof (count_le p s'). pose proof (count_le p old).
  pose proof (count_le (set_buf p b (fun x => b_state x s)) s') as Hle. cbn [set_buf p_bufs poolsize] in Hle.
  assert (Hpos : (0 < count_state p old)%nat).
  { unfold count_state. apply (countb_pos _ _ b b); [by apply lookup_seq_lt|]. by apply Z.eqb_eq. }
  destruct (decide (s' = s)) as [->|Hns]; [rewrite fn_lookup_insert, Z.eqb_refl in *|
    rewrite fn_lookup_insert_ne, (proj2 (Z.eqb_neq s s')) in * by congruence].
  - destruct (decide (s = old)) as [->|Hno]; [rewrite fn_lookup_insert, Z.eqb_refl in *|
      rewrite fn_lookup_insert_ne, (proj2 (Z.eqb_neq old s)) in * by congruence];
      rewrite Hc by done; simpl in Hx.
    + rewrite (s32_small (_ - 1)) by (unfold is_s32; lia). rewrite s32_small by (unfold is_s32; lia). lia.
    + rewrite s32_small by (unfold is_s32; lia). lia.
  - destruct (decide (s' = old)) as [->|Hno]; [rewrite fn_lookup_insert, Z.eqb_refl in *|
      rewrite fn_lookup_insert_ne, (proj2 (Z.eqb_neq old s')) in * by congruence];
      rewrite Hc by done; simpl in Hx; rewrite ?s32_small by (unfold is_s32; lia); lia.
Qed.

Lemma inv_change_state b p s F C D Hs Wt :
  pool_inv (Some b) p F C D Hs Wt -> (b < poolsize p)%nat ->
  0 <= bstate (bufs p b) <= BUF_STATE_ERROR -> 0 <= s <= BUF_STATE_ERROR ->
  pool_inv (Some b) (change_state p b s) F C D Hs Wt.
Proof.
  intros [L1 L2 L3 [W1 W2 W3 W4 W5] L5 L6] Hb Hold Hnew. split; try done.
  - eapply (lists_same p); [exact L1|done..| |done]. intros s' b' _.
    destruct (decide (b' = b)) as [->|]; [by rewrite change_state_eq|by rewrite change_state_ne].
  - intros s' Hs'. by apply change_counts.
  - split; try done.
    + intros b'. destruct (decide (b' = b)) as [->|]; [rewrite change_state_eq|rewrite change_state_ne by done]; apply W1.
    + intros b'. destruct (decide (b' = b)) as [->|]; [rewrite change_state_eq|rewrite change_state_ne by done]; apply W5.
  - intros b' Hb' Hx. assert (Hne : b' <> b) by congruence. destruct (L6 b' Hb' Hx) as [B1 B2 B3 B4 B5 B6 B7].
    split; unfold slot in *; rewrite ?change_state_ne by done; done.
Qed.

Lemma inv_lists_b b p F C D Hs Wt : pool_inv (Some b) p F C D Hs Wt -> lists_ok p F C D Hs.
Proof. by intros []. Qed.

Lemma inv_unchain b p F C D Hs Wt :
  pool_inv (Some b) p F C D Hs Wt -> b ∉ F ++ C ++ D ->
  pool_inv (Some b) (unchain p b) F C D Hs Wt.
Proof.
  intros Hp Hb. eapply inv_step; [exact Hp| |apply same_but_refl|by split|apply (wo_room _ _ (pi_waiters _ _ _ _ _ _ _ Hp))].
  eapply (lists_same p); [exact (inv_lists_b _ _ _ _ _ _ _ Hp)| |done..].
  intros b' Hb'. unfold unchain. simpl. rewrite !fn_lookup_insert_ne by congruence. done.
Qed.

(** Taking a buffer out of the clean or the dirty list. *)
Lemma lists_remove_clean b p F C D Hs c1 c2 :
  lists_ok p F C D Hs -> C = c1 ++ b :: c2 -> lists_ok (remove_clean p b) F (c1 ++ c2) D Hs.
Proof.
  intros [L1 L2 L3 L4 L5 L6 L7] ->. pose proof (dl_remove_spec _ _ _ _ _ L2) as Hr. unfold remove_clean.
  destruct (dl_remove (chain p) (clean p) b) as [k q]. destruct Hr as (Hq & Hk & _).
  assert (Hdis : forall z, z ∈ F \/ z ∈ D -> z ∉ c1 ++ c2).
  { intros z Hz. rewrite !NoDup_app in L4. set_solver. }
  split; try done; cbn [p_clean p_chain chain clean dirty freelist bucket hashtable poolsize].
  - eapply seg_ext; [|exact L1]. intros i Hi. apply Hk, Hdis. by left.
  - eapply dl_ext; [|exact L3]. intros i Hi. apply Hk, Hdis. by right.
  - revert L4. rewrite !NoDup_app, NoDup_cons. set_solver.
  - intros b' [Hb'|Hb']; apply L7; [left; set_solver|by right].
Qed.

Lemma lists_remove_dirty b p F C D Hs d1 d2 :
  lists_ok p F C D Hs -> D = d1 ++ b :: d2 -> lists_ok (remove_dirty p b) F C (d1 ++ d2) Hs.
Proof.
  intros [L1 L2 L3 L4 L5 L6 L7] ->. pose proof (dl_remove_spec _ _ _ _ _ L3) as Hr. unfold remove_dirty.
  destruct (dl_remove (chain p) (dirty p) b) as [k q]. destruct Hr as (Hq & Hk & _).
  assert (Hdis : forall z, z ∈ F \/ z ∈ C -> z ∉ d1 ++ d2).
  { intros z Hz. rewrite !NoDup_app in L4. set_solver. }
  split; try done; cbn [p_dirty p_chain chain clean dirty freelist bucket hashtable poolsize].
  - eapply seg_ext; [|exact L1]. intros i Hi. apply Hk, Hdis. by left.
  - eapply dl_ext; [|exact L2]. intros i Hi. apply Hk, Hdis. by right.
  - revert L4. rewrite !NoDup_app, NoDup_cons. set_solver.
  - intros b' [Hb'|Hb']; apply L7; [left; set_solver|by right].
Qed.

(** Putting a buffer at their ends. *)
Lemma lists_append_clean b p F C D Hs :
  lists_ok p F C D Hs -> b ∉ F ++ C ++ D -> (b < poolsize p)%nat ->
  lists_ok (append_clean p b) F (C ++ [b]) D Hs.
Proof.
  intros [L1 L2 L3 L4 L5 L6 L7] Hb Hn. apply elem_lists in Hb as (Hf & Hc & Hd).
  pose proof (dl_append_spec _ _ _ b L2 Hc) as Hr. unfold append_clean.
  destruct (dl_append (chain p) (clean p) b) as [k q]. destruct Hr as (Hq & Hk).
  assert (Hdis : forall z, z ∈ F \/ z ∈ D -> z ∉ C ++ [b]).
  { intros z Hz. rewrite !NoDup_app in L4. set_solver. }
  split; try done; cbn [p_clean p_chain chain clean dirty freelist bucket hashtable poolsize].
  - eapply seg_ext; [|exact L1]. intros i Hi. apply Hk, Hdis. by left.
  - eapply dl_ext; [|exact L3]. intros i Hi. apply Hk, Hdis. by right.
  - revert L4. rewrite !NoDup_app. pose proof (NoDup_singleton b). set_solver.
  - intros b' [Hb'|Hb']; [|apply L7; by right].
    assert (b' = b \/ b' ∈ F ++ C ++ D) as [->|] by set_solver; [done|]. apply L7. by left.
Qed.

Lemma lists_append_dirty b p F C D Hs :
  lists_ok p F C D Hs -> b ∉ F ++ C ++ D -> (b < poolsize p)%nat ->
  lists_ok (append_dirty p b) F C (D ++ [b]) Hs.
Proof.
  intros [L1 L2 L3 L4 L5 L6 L7] Hb Hn. apply elem_lists in Hb as (Hf & Hc & Hd).
  pose proof (dl_append_spec _ _ _ b L3 Hd) as Hr. unfold append_dirty.
  destruct (dl_append (chain p) (dirty p) b) as [k q]. destruct Hr as (Hq & Hk).
  assert (Hdis : forall z, z ∈ F \/ z ∈ C -> z ∉ D ++ [b]).
  { intros z Hz. rewrite !NoDup_app in L4. set_solver. }
  split; try done; cbn [p_dirty p_chain chain clean dirty freelist bucket hashtable poolsize].
  - eapply seg_ext; [|exact L1]. intros i Hi. apply Hk, Hdis. by left.
  - eapply dl_ext; [|exact L2]. intros i Hi. apply Hk, Hdis. by right.
  - revert L4. rewrite !NoDup_app. pose proof (NoDup_singleton b). set_solver.
  - intros b' [Hb'|Hb']; [|apply L7; by right].
    assert (b' = b \/ b' ∈ F ++ C ++ D) as [->|] by set_solver; [done|]. apply L7. by left.
Qed.

(** The free list. *)
Lemma lists_pop_free b p F C D Hs :
  lists_ok p (b :: F) C D Hs -> lists_ok (p_freelist p (nx (chain p) b)) F C D Hs.
Proof.
  intros [L1 L2 L3 L4 L5 L6 L7]. destruct L1 as [_ L1]. split; try done.
  - by apply NoDup_cons in L4 as [_ L4].
  - intros b' [Hb'|Hb']; apply L7; [left; simpl; set_solver|by right].
Qed.

Lemma lists_push_free b p F C D Hs :
  lists_ok p F C D Hs -> b ∉ F ++ C ++ D -> (b < poolsize p)%nat ->
  lists_ok (p_freelist (p_chain p (set_pv (set_nx (chain p) b (freelist p)) b None)) (Some b)) (b :: F) C D Hs.
Proof.
  intros [L1 L2 L3 L4 L5 L6 L7] Hb Hn. split; try done; simpl.
  - split; [done|]. rewrite fn_lookup_insert. eapply seg_ext; [|exact L1].
    intros i Hi. rewrite fn_lookup_insert_ne; [done|set_solver].
  - eapply dl_ext; [|exact L2]. intros i Hi. simpl. rewrite !fn_lookup_insert_ne by set_solver. done.
  - eapply dl_ext; [|exact L3]. intros i Hi. simpl. rewrite !fn_lookup_insert_ne by set_solver. done.
  - by apply NoDup_cons.
  - intros b' [[->|Hb']%elem_of_cons|Hb']; [done| |]; apply L7; [by left|by right].
Qed.

(** The hash table. *)
Lemma lists_hash_insert b p F C D Hs :
  lists_ok p F C D Hs -> (forall s, b ∉ Hs s) -> (b < poolsize p)%nat ->
  lists_ok (insert_into_hashtable p b) F C D (<[slot p b := b :: Hs (slot p b)]> Hs).
Proof.
  intros [L1 L2 L3 L4 L5 L6 L7] Hb Hn. set (s := slot p b).
  pose proof (dl_push_spec _ _ _ b (L5 s) (Hb s)) as Hr. unfold dl_push in Hr. cbn [first last_] in Hr.
  destruct Hr as [Hq Hk]. unfold insert_into_hashtable. fold (slot p b). fold s.
  set (k := set_pv_of _ _ _) in Hq, Hk.
  set (k' := set_pv (set_nx (set_pv_of (bucket p) (hashtable p s) (Some b)) b (hashtable p s)) b None).
  assert (Heq : forall z, nx k' z = nx k z /\ pv k' z = pv k z).
  { intros z. unfold k', k. pose proof (dl_first _ _ _ (L5 s)) as Hf. cbn [first] in Hf. rewrite Hf.
    destruct (head (Hs s)) as [y|] eqn:Hy; simpl; [|done].
    assert (y <> b) by (intros ->; destruct (Hs s) eqn:E; simplify_eq; apply (Hb s); rewrite E; set_solver).
    destruct (decide (z = b)) as [->|]; [by rewrite !fn_lookup_insert, (fn_lookup_insert_ne _ y), fn_lookup_insert by done|].
    rewrite (fn_lookup_insert_ne _ b z None) by done.
    destruct (decide (z = y)) as [->|]; [by rewrite !fn_lookup_insert|]. by rewrite !(fn_lookup_insert_ne _ _ z) by done. }
  clearbody k k'. split; try done.
  - intros s'. cbn [p_hashtable p_bucket bucket hashtable].
    destruct (decide (s' = s)) as [->|Hne].
    + rewrite !fn_lookup_insert. eapply dl_ext; [intros z _; apply Heq|].
      rewrite last_cons. exact Hq.
    + rewrite !fn_lookup_insert_ne by done. eapply dl_ext; [|exact (L5 s')]. intros z Hz.
      destruct (Heq z) as [-> ->]. apply Hk. intros [->|Hz']%elem_of_cons; [by apply (Hb s')|].
      apply Hne. rewrite <- (L6 _ _ Hz). by apply L6.
  - intros s' b'. destruct (decide (s' = s)) as [->|]; [rewrite fn_lookup_insert|rewrite fn_lookup_insert_ne by done; apply L6].
    intros [->|Hb']%elem_of_cons; [done|]. by apply L6.
  - intros b' Hb'. destruct (decide (b' = b)) as [->|Hne]; [done|]. apply L7.
    destruct Hb' as [|Hb']; [by left|right]. change (slot (insert_into_hashtable p b) b') with (slot p b') in Hb'.
    change (slot (p_hashtable _ _) b') with (slot p b') in Hb'.
    destruct (decide (slot p b' = s)) as [Hs'|]; [rewrite Hs', fn_lookup_insert in Hb'; rewrite Hs'; set_solver|].
    by rewrite fn_lookup_insert_ne in Hb'.
Qed.

Lemma lists_hash_remove b p F C D Hs h1 h2 :
  lists_ok p F C D Hs -> Hs (slot p b) = h1 ++ b :: h2 ->
  lists_ok (remove_from_hashtable p b) F C D (<[slot p b := h1 ++ h2]> Hs).
Proof.
  intros [L1 L2 L3 L4 L5 L6 L7] Hb. set (s := slot p b) in *.
  pose proof (L5 s) as Hd. rewrite Hb in Hd. pose proof (dl_remove_spec _ _ _ _ _ Hd) as Hr.
  unfold remove_from_hashtable. fold (slot p b). fold s.
  set (r := dl_remove (bucket p) (Ends (hashtable p s) (last (h1 ++ b :: h2))) b) in Hr.
  assert (Hk0 : (dl_remove (bucket p) (Ends (hashtable p s) None) b).1 = r.1) by done.
  assert (Hq0 : first (dl_remove (bucket p) (Ends (hashtable p s) None) b).2 = first r.2) by done.
  destruct (dl_remove (bucket p) (Ends (hashtable p s) None) b) as [k q]. cbn [fst snd] in Hk0, Hq0.
  clearbody r. destruct r as [k' q']. cbn [fst snd] in Hk0, Hq0. subst k. rewrite Hq0.
  destruct Hr as (Hq & Hk & _). pose proof (dl_nodup _ _ _ Hd) as Hn.
  assert (Hbn : b ∉ h1 ++ h2) by (revert Hn; rewrite NoDup_app, NoDup_cons; set_solver).
  assert (Hnone : forall l, b ∉ l -> forall e, dl k' e l -> dl (set_pv (set_nx k' b None) b None) e l).
  { intros l Hbl e. apply dl_ext. intros z Hz. simpl. rewrite !fn_lookup_insert_ne by set_solver. done. }
  split; try done.
  - intros s'. cbn [p_hashtable p_bucket bucket hashtable]. destruct (decide (s' = s)) as [->|Hne].
    + rewrite !fn_lookup_insert. apply Hnone; [done|]. rewrite (dl_ends _ _ _ Hq). rewrite (dl_ends _ _ _ Hq) in Hq. exact Hq.
    + rewrite !fn_lookup_insert_ne by done.
      assert (Hbs : b ∉ Hs s') by (intros Hb'; apply Hne; symmetry; exact (L6 _ _ Hb')).
      apply Hnone; [done|]. eapply dl_ext; [|exact (L5 s')]. intros z Hz. apply Hk. intros Hz'. apply Hne.
      rewrite <- (L6 _ _ Hz). apply L6. rewrite Hb. set_solver.
  - intros s' b'. destruct (decide (s' = s)) as [->|]; [rewrite fn_lookup_insert|rewrite fn_lookup_insert_ne by done; apply L6].
    intros Hb'. apply L6. rewrite Hb. set_solver.
  - intros b' [Hb'|Hb']; apply L7; [by left|right].
    change (slot _ b') with (slot p b') in Hb'.
    destruct (decide (slot p b' = s)) as [Hs'|]; [rewrite Hs', fn_lookup_insert in Hb'; rewrite Hs', Hb; set_solver|].
    by rewrite fn_lookup_insert_ne in Hb'.
Qed.

(** The removal of the head of the clean list, as [get_new_buffer] does it. *)
Definition pop_clean p b : bufpool K :=
  let next := nx (chain p) b in
  let p1 := p_chain p (set_pv_of (chain p) next None) in
  p_clean p1 (Ends next (if decide (last_ (clean p) = Some b) then next else last_ (clean p))).

Lemma pop_clean_remove b p F C D Hs : lists_ok p F (b :: C) D Hs -> pop_clean p b = remove_clean p b.
Proof.
  intros [_ L2 _ _ _ _ _]. pose proof (dl_nodup _ _ _ L2) as [Hb _]%NoDup_cons.
  pose proof (dl_next _ _ [] _ _ L2) as Hn. pose proof (dl_prev _ _ [] _ _ L2) as Hp.
  pose proof (dl_ends _ _ _ L2) as Hq. unfold pop_clean, remove_clean, dl_remove. rewrite Hq.
  cbn [first last_ head last] in *. rewrite Hp.
  assert (Hpv : pv (set_pv_of (chain p) (nx (chain p) b) None) b = None).
  { rewrite Hn. destruct (head C) as [y|] eqn:Hy; [|exact Hp]. simpl.
    rewrite fn_lookup_insert_ne; [exact Hp|]. intros ->. destruct C; simplify_eq. set_solver. }
  rewrite Hpv. cbn [set_nx_of]. rewrite nx_set_pv_of.
  rewrite (decide_True (P := Some b = Some b)) by done.
  do 2 f_equal. destruct (decide (last (b :: C) = Some b)) as [Hl|]; [|done]. rewrite Hn.
  destruct C as [|y C]; [done|]. exfalso. apply Hb. rewrite last_cons_cons in Hl. by apply last_Some_elem_of.
Qed.

(** What the operations on lists and chains store to. *)
Lemma remove_clean_shape p b : exists k q, remove_clean p b = p_clean (p_chain p k) q.
Proof. unfold remove_clean. destruct (dl_remove _ _ b) as [k q]. by eexists _, _. Qed.

Lemma remove_dirty_shape p b : exists k q, remove_dirty p b = p_dirty (p_chain p k) q.
Proof. unfold remove_dirty. destruct (dl_remove _ _ b) as [k q]. by eexists _, _. Qed.

Lemma append_clean_shape p b : exists k q, append_clean p b = p_clean (p_chain p k) q.
Proof. unfold append_clean. destruct (dl_append _ _ b) as [k q]. by eexists _, _. Qed.

Lemma append_dirty_shape p b : exists k q, append_dirty p b = p_dirty (p_chain p k) q.
Proof. unfold append_dirty. destruct (dl_append _ _ b) as [k q]. by eexists _, _. Qed.

Lemma unhash_shape p b : exists k t, remove_from_hashtable p b = p_bucket (p_hashtable p t) k.
Proof. unfold remove_from_hashtable. destruct (dl_remove _ _ b) as [k q]. by eexists _, _. Qed.

Lemma hash_shape p b : exists k t, insert_into_hashtable p b = p_bucket (p_hashtable p t) k.
Proof. by eexists _, _. Qed.

(** ** A buffer in transit

    It is on none of the lists, and in the hash table or not. *)

Definition loose (hashed : bool) b p : Prop :=
  exists F C D Hs Wt, pool_inv (Some b) p F C D Hs Wt /\ (b ∉ F ++ C ++ D)
    /\ (if hashed then b ∈ Hs (slot p b) else forall s, b ∉ Hs s) /\ (b < poolsize p)%nat
    /\ 0 <= bstate (bufs p b) <= BUF_STATE_ERROR.

Definition no_waiters p b : Prop := buf_waiters (bufs p b) = None.

Lemma rest_bufs b p p' : bufs p' = bufs p -> bufcount p' = bufcount p -> poolsize p' = poolsize p ->
  next_waiter p' = next_waiter p -> knl p' = knl p -> rest_ok b p p'.
Proof. intros E ? ? ? ?. split; try done; by rewrite E. Qed.

Lemma inv_room b p F C D Hs Wt : pool_inv (Some b) p F C D Hs Wt ->
  locks (bufs p b) + Z.of_nat (length (Wt b)) <= 65535.
Proof. intros Hp. apply (wo_room _ _ (pi_waiters _ _ _ _ _ _ _ Hp)). Qed.

Lemma loose_change_state h b p s : 0 <= s <= BUF_STATE_ERROR -> loose h b p -> loose h b (change_state p b s).
Proof.
  intros Hs0 (F & C & D & Hs & Wt & Hp & Hb & Hh & Hn & Hst). exists F, C, D, Hs, Wt.
  split; [by apply inv_change_state|]. split; [done|]. split.
  - destruct h; [|done]. unfold slot. by rewrite change_state_eq.
  - split; [done|]. by rewrite change_state_eq.
Qed.

Lemma loose_unchain h b p : loose h b p -> loose h b (unchain p b).
Proof.
  intros (F & C & D & Hs & Wt & Hp & Hb & Hh & Hn). exists F, C, D, Hs, Wt.
  split; [by apply inv_unchain|]. by destruct h.
Qed.

Lemma none_waiting p Wt b : waiters_ok p Wt -> no_waiters p b -> Wt b = [].
Proof.
  intros Hw Hb. pose proof (wo_list _ _ Hw b) as Hl. unfold no_waiters in Hb. rewrite Hb in Hl.
  destruct (Wt b); [done|]. by destruct Hl.
Qed.

Lemma loose_set_buf h b p f :
  loose h b p -> (blkno (f (bufs p b)) = blkno (bufs p b) \/ h = false) ->
  bstate (f (bufs p b)) = bstate (bufs p b) -> buf_waiters (f (bufs p b)) = buf_waiters (bufs p b) ->
  (locks (f (bufs p b)) <= locks (bufs p b) \/ (no_waiters p b /\ locks (f (bufs p b)) <= 65535)) ->
  loose h b (set_buf p b f).
Proof.
  intros (F & C & D & Hs & Wt & Hp & Hb & Hh & Hn & Hst) Hblk Hs0 Hw Hl. exists F, C, D, Hs, Wt.
  split.
  { apply inv_set_buf; try done.
    - destruct Hblk as [|Hblk]; [by left|]. right. by subst h.
    - pose proof (inv_room _ _ _ _ _ _ _ Hp). destruct Hl as [|[Hnw ?]]; [lia|].
      rewrite (none_waiting _ _ _ (pi_waiters _ _ _ _ _ _ _ Hp) Hnw). simpl. lia. }
  split; [done|]. split; [|split; [done|by rewrite set_buf_eq, Hs0]].
  destruct h; [|done]. unfold slot. rewrite set_buf_eq. by destruct Hblk as [->|].
Qed.

Lemma loose_unhash b p : loose true b p -> loose false b (remove_from_hashtable p b).
Proof.
  intros (F & C & D & Hs & Wt & Hp & Hb & Hh & Hn & Hst). pose proof Hh as (h1 & h2 & Hhs)%list_elem_of_split.
  exists F, C, D, (<[slot p b := h1 ++ h2]> Hs), Wt.
  pose proof (inv_lists_b _ _ _ _ _ _ _ Hp) as Hl.
  pose proof (dl_nodup _ _ _ (lo_hash _ _ _ _ _ Hl (slot p b))) as Hnd. rewrite Hhs in Hnd.
  assert (Hbh : b ∉ h1 ++ h2) by (revert Hnd; rewrite NoDup_app, NoDup_cons; set_solver).
  pose proof (unhash_shape p b) as Hre.
  split.
  - eapply inv_step; [exact Hp|by apply lists_hash_remove| | |].
    + intros b' Hne. split; [done|]. split; [done|]. split; [done|]. intros s.
      destruct (decide (s = slot p b)) as [->|]; [rewrite fn_lookup_insert, Hhs; set_solver|by rewrite fn_lookup_insert_ne].
    + destruct Hre as (k & t & ->). by apply rest_bufs.
    + destruct Hre as (k & t & ->). exact (inv_room _ _ _ _ _ _ _ Hp).
  - split; [done|]. split.
    + intros s. destruct (decide (s = slot p b)) as [->|Hne]; [by rewrite fn_lookup_insert|].
      rewrite fn_lookup_insert_ne by done. intros Hs'. apply Hne. symmetry. exact (lo_slot _ _ _ _ _ Hl _ _ Hs').
    + destruct Hre as (k & t & ->). done.
Qed.

Lemma loose_hash b p : loose false b p -> loose true b (insert_into_hashtable p b).
Proof.
  intros (F & C & D & Hs & Wt & Hp & Hb & Hh & Hn & Hst).
  exists F, C, D, (<[slot p b := b :: Hs (slot p b)]> Hs), Wt.
  split.
  - eapply inv_step; [exact Hp|apply lists_hash_insert; [exact (inv_lists_b _ _ _ _ _ _ _ Hp)|done|done]| | |].
    + intros b' Hne. split; [done|]. split; [done|]. split; [done|]. intros s.
      destruct (decide (s = slot p b)) as [->|]; [rewrite fn_lookup_insert; set_solver|by rewrite fn_lookup_insert_ne].
    + by apply rest_bufs.
    + exact (inv_room _ _ _ _ _ _ _ Hp).
  - split; [done|]. split; [|done]. change (slot (insert_into_hashtable p b) b) with (slot p b).
    rewrite fn_lookup_insert. set_solver.
Qed.

(** Coming to rest. *)
Lemma loose_settle b p :
  loose true b p -> 3 <= bstate (bufs p b) -> lock_ok (bstate (bufs p b)) (locks (bufs p b)) ->
  (~ in_io (bstate (bufs p b)) -> no_waiters p b) -> pool_ok p.
Proof.
  intros (F & C & D & Hs & Wt & Hp & Hb & Hh & Hn & Hst) Hs0 Hl Hw. exists F, C, D, Hs, Wt.
  apply (settle b); [done|]. apply elem_lists in Hb as (? & ? & ?).
  unfold BUF_STATE_FREE, BUF_STATE_CLEAN, BUF_STATE_DIRTY in *.
  split; try done; unfold BUF_STATE_FREE, BUF_STATE_CLEAN, BUF_STATE_DIRTY; split; intros; try done; lia.
Qed.

Lemma settle_clean b p :
  loose true b p -> bstate (bufs p b) = BUF_STATE_CLEAN -> locks (bufs p b) = 0 -> no_waiters p b ->
  pool_ok (append_clean p b).
Proof.
  intros (F & C & D & Hs & Wt & Hp & Hb & Hh & Hn & Hst) Hs0 Hl Hw. exists F, (C ++ [b]), D, Hs, Wt.
  pose proof (lists_append_clean b p F C D Hs (inv_lists_b _ _ _ _ _ _ _ Hp) Hb Hn) as Hls.
  pose proof (append_clean_shape p b) as Hre.
  destruct Hre as (k & q & Hre). rewrite Hre in *. apply elem_lists in Hb as (? & ? & ?).
  apply (settle b).
  - eapply inv_step; [exact Hp|exact Hls| |by apply rest_bufs|exact (inv_room _ _ _ _ _ _ _ Hp)].
    intros b' Hne. set_solver.
  - split; unfold slot; cbn [p_clean p_chain bufs]; rewrite ?Hs0, ?Hl; try done; split; intros; try done; set_solver.
Qed.

Lemma settle_dirty b p :
  loose true b p -> bstate (bufs p b) = BUF_STATE_DIRTY -> locks (bufs p b) = 0 -> no_waiters p b ->
  pool_ok (append_dirty p b).
Proof.
  intros (F & C & D & Hs & Wt & Hp & Hb & Hh & Hn & Hst) Hs0 Hl Hw. exists F, C, (D ++ [b]), Hs, Wt.
  pose proof (lists_append_dirty b p F C D Hs (inv_lists_b _ _ _ _ _ _ _ Hp) Hb Hn) as Hls.
  pose proof (append_dirty_shape p b) as Hre.
  destruct Hre as (k & q & Hre). rewrite Hre in *. apply elem_lists in Hb as (? & ? & ?).
  apply (settle b).
  - eapply inv_step; [exact Hp|exact Hls| |by apply rest_bufs|exact (inv_room _ _ _ _ _ _ _ Hp)].
    intros b' Hne. set_solver.
  - split; unfold slot; cbn [p_dirty p_chain bufs]; rewrite ?Hs0, ?Hl; try done; split; intros; try done; set_solver.
Qed.

Lemma settle_free b p :
  loose false b p -> bstate (bufs p b) = BUF_STATE_FREE -> locks (bufs p b) = 0 -> no_waiters p b ->
  pool_ok (p_freelist (p_chain p (set_pv (set_nx (chain p) b (freelist p)) b None)) (Some b)).
Proof.
  intros (F & C & D & Hs & Wt & Hp & Hb & Hh & Hn & Hst) Hs0 Hl Hw. exists (b :: F), C, D, Hs, Wt.
  pose proof (lists_push_free b p F C D Hs (inv_lists_b _ _ _ _ _ _ _ Hp) Hb Hn) as Hls.
  apply elem_lists in Hb as (? & ? & ?). apply (settle b).
  - eapply inv_step; [exact Hp|exact Hls| |by apply rest_bufs|exact (inv_room _ _ _ _ _ _ _ Hp)].
    intros b' Hne. set_solver.
  - split; unfold slot; cbn [p_freelist p_chain bufs]; rewrite ?Hs0, ?Hl; try done; split; intros; try done; set_solver.
Qed.

(** ** A buffer leaves a list *)

Lemma ok_buf p b : pool_ok p -> (b < poolsize p)%nat ->
  0 <= bstate (bufs p b) <= BUF_STATE_ERROR /\ lock_ok (bstate (bufs p b)) (locks (bufs p b))
  /\ (~ in_io (bstate (bufs p b)) -> no_waiters p b).
Proof.
  intros (F & C & D & Hs & Wt & Hp) Hb. destruct (pi_bufs _ _ _ _ _ _ _ Hp b Hb) as [B1 B2 B3 B4 B5 B6 B7]; done.
Qed.

Lemma leave_rest p b : pool_ok p -> (b < poolsize p)%nat -> 3 <= bstate (bufs p b) -> loose true b p.
Proof.
  intros (F & C & D & Hs & Wt & Hp) Hb Hst. destruct (pi_bufs _ _ _ _ _ _ _ Hp b Hb) as [B1 B2 B3 B4 B5 B6 B7]; [done|].
  exists F, C, D, Hs, Wt. unfold BUF_STATE_FREE, BUF_STATE_CLEAN, BUF_STATE_DIRTY in *.
  split; [by apply transit|]. split; [apply elem_lists; rewrite B2, B3, B4; lia|].
  split; [rewrite B5; lia|]. done.
Qed.

Lemma leave_clean p b : pool_ok p -> (b < poolsize p)%nat -> bstate (bufs p b) = BUF_STATE_CLEAN ->
  loose true b (remove_clean p b).
Proof.
  intros (F & C & D & Hs & Wt & Hp) Hb Hst. destruct (pi_bufs _ _ _ _ _ _ _ Hp b Hb) as [B1 B2 B3 B4 B5 B6 B7]; [done|].
  assert (HbC : b ∈ C) by (by apply B3). apply list_elem_of_split in HbC as (c1 & c2 & ->).
  pose proof (pi_lists _ _ _ _ _ _ _ Hp) as Hl. pose proof (lo_nodup _ _ _ _ _ Hl) as Hnd.
  pose proof (lists_remove_clean b p F _ D Hs c1 c2 Hl eq_refl) as Hl'.
  pose proof (remove_clean_shape p b) as Hre.
  destruct Hre as (k & q & Hre). rewrite Hre in *. exists F, (c1 ++ c2), D, Hs, Wt. split.
  - eapply inv_step; [by apply transit|exact Hl'| |by apply rest_bufs|].
    + intros b' Hne. set_solver.
    + exact (inv_room _ _ _ _ _ _ _ (transit _ _ _ _ _ _ _ Hp)).
  - split; [revert Hnd; rewrite !NoDup_app, NoDup_cons; set_solver|]. split; [|done].
    apply B5. by rewrite Hst.
Qed.

Lemma leave_dirty p b : pool_ok p -> (b < poolsize p)%nat -> bstate (bufs p b) = BUF_STATE_DIRTY ->
  loose true b (remove_dirty p b).
Proof.
  intros (F & C & D & Hs & Wt & Hp) Hb Hst. destruct (pi_bufs _ _ _ _ _ _ _ Hp b Hb) as [B1 B2 B3 B4 B5 B6 B7]; [done|].
  assert (HbC : b ∈ D) by (by apply B4). apply list_elem_of_split in HbC as (c1 & c2 & ->).
  pose proof (pi_lists _ _ _ _ _ _ _ Hp) as Hl. pose proof (lo_nodup _ _ _ _ _ Hl) as Hnd.
  pose proof (lists_remove_dirty b p F C _ Hs c1 c2 Hl eq_refl) as Hl'.
  pose proof (remove_dirty_shape p b) as Hre.
  destruct Hre as (k & q & Hre). rewrite Hre in *. exists F, C, (c1 ++ c2), Hs, Wt. split.
  - eapply inv_step; [by apply transit|exact Hl'| |by apply rest_bufs|].
    + intros b' Hne. set_solver.
    + exact (inv_room _ _ _ _ _ _ _ (transit _ _ _ _ _ _ _ Hp)).
  - split; [revert Hnd; rewrite !NoDup_app, NoDup_cons; set_solver|]. split; [|done].
    apply B5. by rewrite Hst.
Qed.

Lemma leave_free p b F C D Hs Wt : pool_inv None p (b :: F) C D Hs Wt ->
  loose false b (p_freelist p (nx (chain p) b)) /\ bstate (bufs p b) = BUF_STATE_FREE.
Proof.
  intros Hp. pose proof (pi_lists _ _ _ _ _ _ _ Hp) as Hl.
  assert (Hb : (b < poolsize p)%nat) by (apply (lo_bound _ _ _ _ _ Hl); left; set_solver).
  destruct (pi_bufs _ _ _ _ _ _ _ Hp b Hb) as [B1 B2 B3 B4 B5 B6 B7]; [done|].
  assert (Hst : bstate (bufs p b) = BUF_STATE_FREE) by (apply B2; set_solver). split; [|done].
  exists F, C, D, Hs, Wt. split.
  - eapply inv_step; [by apply transit|by apply lists_pop_free| |by apply rest_bufs|].
    + intros b' Hne. set_solver.
    + exact (inv_room _ _ _ _ _ _ _ (transit _ _ _ _ _ _ _ Hp)).
  - split.
    + pose proof (lo_nodup _ _ _ _ _ Hl) as [? _]%NoDup_cons. done.
    + split; [|done]. intros s Hs'. pose proof (lo_slot _ _ _ _ _ Hl _ _ Hs') as Hsl.
      apply (proj1 B5); [|done]. by rewrite Hsl.
Qed.

(** What is fixed for a pool. *)
Definition cfg p : nat * Z * Z := (poolsize p, bufsize p, blks_per_buffer p).

Lemma cfg_size p p' : cfg p' = cfg p -> poolsize p' = poolsize p /\ bufsize p' = bufsize p.
Proof. by intros [= -> -> _]. Qed.

Lemma cfg_trans p1 p2 p3 : cfg p3 = cfg p2 -> cfg p2 = cfg p1 -> cfg p3 = cfg p1.
Proof. congruence. Qed.

(** A free or clean buffer, out of the hash table. *)
Lemma take_buffer_spec p r : pool_ok p -> take_buffer p = Some r ->
  loose false r.1 r.2 /\ locks (bufs r.2 r.1) = 0 /\ no_waiters r.2 r.1
  /\ bufs r.2 = bufs p /\ cfg r.2 = cfg p.
Proof.
  intros Hok. pose proof Hok as (F & C & D & Hs & Wt & Hp). pose proof (pi_lists _ _ _ _ _ _ _ Hp) as Hl.
  unfold take_buffer. destruct (freelist p) as [b|] eqn:Hf.
  - intros [= <-]. pose proof (lo_free _ _ _ _ _ Hl) as Hs0. rewrite Hf in Hs0.
    destruct F as [|b' F]; [done|]. destruct Hs0 as [[= <-] _].
    destruct (leave_free _ _ _ _ _ _ _ Hp) as [Hlo Hst]. cbn [fst snd].
    assert (Hb : (b < poolsize p)%nat) by (apply (lo_bound _ _ _ _ _ Hl); left; set_solver).
    destruct (ok_buf p b Hok Hb) as (_ & Hlk & Hw).
    split; [by apply loose_unchain|]. rewrite Hst in Hlk, Hw. split; [exact Hlk|]. split; [|done].
    apply Hw. by intros [|].
  - destruct (first (clean p)) as [b|] eqn:Hc; [|done]. intros [= <-]. cbn [fst snd].
    pose proof (lo_clean _ _ _ _ _ Hl) as Hd. rewrite (dl_first _ _ _ Hd) in Hc.
    destruct C as [|b' C]; [done|]. injection Hc as ->.
    assert (Hb : (b < poolsize p)%nat) by (apply (lo_bound _ _ _ _ _ Hl); left; set_solver).
    destruct (pi_bufs _ _ _ _ _ _ _ Hp b Hb) as [B1 B2 B3 B4 B5 B6 B7]; [done|].
    assert (Hst : bstate (bufs p b) = BUF_STATE_CLEAN) by (apply B3; set_solver).
    change (p_clean _ _) with (pop_clean p b). rewrite (pop_clean_remove _ _ _ _ _ _ Hl).
    pose proof (remove_clean_shape p b) as Hre.
    destruct Hre as (k & q & Hre).
    destruct (unhash_shape (unchain (remove_clean p b) b) b) as (k' & t & Hun').
    split; [by apply loose_unhash, loose_unchain, leave_clean|].
    rewrite Hun', Hre. rewrite Hst in B6, B7. split; [exact B6|]. split; [|done]. apply B7. by intros [|].
Qed.

(** Fields outside the invariant. *)
Lemma inv_ext x p p' F C D Hs Wt :
  chain p' = chain p -> freelist p' = freelist p -> clean p' = clean p -> dirty p' = dirty p ->
  bucket p' = bucket p -> hashtable p' = hashtable p -> bufs p' = bufs p -> bufcount p' = bufcount p ->
  poolsize p' = poolsize p -> next_waiter p' = next_waiter p ->
  kinv (knl p') -> (forall t, asleep (knl p) t -> asleep (knl p') t) ->
  pool_inv x p F C D Hs Wt -> pool_inv x p' F C D Hs Wt.
Proof.
  intros E1 E2 E3 E4 E5 E6 E7 E8 E9 E10 Hk Ha [L1 L2 L3 [W1 W2 W3 W4 W5] L5 L6]. split.
  - eapply (lists_same p); try done; intros; rewrite ?E1, ?E7; done.
  - intros s. unfold count_state. rewrite E7, E8, E9. apply L2.
  - by rewrite E9.
  - split; try done; intros *; rewrite ?E7, ?E10; try done; try apply W1; try apply W5. intros. by apply Ha, (W3 b).
  - done.
  - intros b. rewrite E9. intros Hb Hx. destruct (L6 b Hb Hx). split; unfold slot; rewrite ?E7; done.
Qed.

Lemma pool_ok_ext p p' :
  chain p' = chain p -> freelist p' = freelist p -> clean p' = clean p -> dirty p' = dirty p ->
  bucket p' = bucket p -> hashtable p' = hashtable p -> bufs p' = bufs p -> bufcount p' = bufcount p ->
  poolsize p' = poolsize p -> next_waiter p' = next_waiter p ->
  kinv (knl p') -> (forall t, asleep (knl p) t -> asleep (knl p') t) -> pool_ok p -> pool_ok p'.
Proof.
  intros ? ? ? ? ? ? ? ? ? ? ? ? (F & C & D & Hs & Wt & Hp). exists F, C, D, Hs, Wt. by apply (inv_ext None p).
Qed.

Lemma loose_bump h b p s : loose h b p -> loose h b (bump p s).
Proof.
  intros (F & C & D & Hs & Wt & Hp & Hr). exists F, C, D, Hs, Wt. split; [|exact Hr].
  apply (inv_ext (Some b) p); try done. exact (pi_knl _ _ _ _ _ _ _ Hp).
Qed.

Lemma ok_kinv p : pool_ok p -> kinv (knl p).
Proof. intros (F & C & D & Hs & Wt & Hp). exact (pi_knl _ _ _ _ _ _ _ Hp). Qed.

Lemma ok_bump p s : pool_ok p -> pool_ok (bump p s).
Proof. intros Hp. apply (pool_ok_ext p); try done. exact (ok_kinv p Hp). Qed.

Lemma ok_ioactive p x : pool_ok p -> pool_ok (p_ioactive p x).
Proof. intros Hp. apply (pool_ok_ext p); try done. exact (ok_kinv p Hp). Qed.

(** ** Waiters *)

(** [b->waiters] keeps its value during the loop over the waiters; [th] is the one
    still to come. *)
Definition with_waiters p b (th : option nat) : bufpool K := set_buf p b (fun x => b_waiters x th).

Lemma wake_one p b t ts key F C D Hs Wt :
  let p1 := lock p b in
  pool_inv (Some b) (with_waiters p b (Some t)) F C D Hs Wt -> Wt b = t :: ts -> 0 <= locks (bufs p b) ->
  exists k, make_ready (knl p) t key = Ret k
    /\ pool_inv (Some b) (with_waiters (p_knl (p_next_waiter p1 (<[t := None]> (next_waiter p1))) k) b
                            (next_waiter p t)) F C D Hs (<[b := ts]> Wt)
    /\ locks (bufs p1 b) = locks (bufs p b) + 1.
Proof.
  intros p1 [L1 L2 L3 [W1 W2 W3 W4 W5] L5 L6] Hts Hlk.
  assert (Ht : t ∈ Wt b) by (rewrite Hts; set_solver).
  destruct (make_ready_ok (knl p) t key L5 (W3 b t Ht)) as (k & Hk & Hkinv & Hkeep).
  pose proof (W5 b) as Hroom. rewrite Hts in Hroom. unfold with_waiters in Hroom. rewrite set_buf_eq in Hroom.
  cbn [b_waiters locks length] in Hroom.
  assert (Hl : locks (bufs p1 b) = locks (bufs p b) + 1).
  { unfold p1, lock. rewrite set_buf_eq. simpl. unfold u16, uwrap. apply Z.mod_small. lia. }
  exists k. split; [exact Hk|]. split; [|exact Hl].
  assert (Hb' : forall z b', bufs (with_waiters (p_knl (p_next_waiter p1 z) k) b (next_waiter p t)) b'
    = if decide (b' = b) then b_waiters (b_locks (bufs p b) (locks (bufs p b) + 1)) (next_waiter p t) else bufs p b').
  { intros z b'. unfold with_waiters. case_decide as Hd.
    - subst b'. rewrite set_buf_eq. cbn [p_knl p_next_waiter bufs]. unfold p1, lock in *.
      rewrite set_buf_eq in *. simpl in *. by rewrite Hl.
    - rewrite set_buf_ne by done. cbn [p_knl p_next_waiter bufs]. unfold p1, lock. by rewrite set_buf_ne. }
  assert (Hs1 : forall z b', blkno (bufs (with_waiters (p_knl (p_next_waiter p1 z) k) b (next_waiter p t)) b')
      = blkno (bufs (with_waiters p b (Some t)) b')
    /\ bstate (bufs (with_waiters (p_knl (p_next_waiter p1 z) k) b (next_waiter p t)) b')
      = bstate (bufs (with_waiters p b (Some t)) b')).
  { intros z b'. rewrite Hb'. unfold with_waiters. case_decide as Hd; [subst; by rewrite set_buf_eq|by rewrite set_buf_ne]. }
  pose proof (W2 b) as Hnd. rewrite Hts in Hnd. apply NoDup_cons in Hnd as [Htn Hnd]. split.
  - eapply lists_same; [exact L1|done..| |done]. intros s b' _. apply Hs1.
  - intros s Hs0. etransitivity; [exact (L2 s Hs0)|]. f_equal. symmetry. apply count_ext; [|done]. intros b'. apply Hs1.
  - done.
  - split.
    + intros b'. rewrite Hb'. cbn [with_waiters p_knl p_next_waiter set_buf p_bufs next_waiter].
      pose proof (W1 b') as Hs0. unfold with_waiters in Hs0. case_decide as Hd.
      * subst b'. rewrite fn_lookup_insert. rewrite set_buf_eq, Hts in Hs0. destruct Hs0 as [_ Hs0].
        by apply seg_store.
      * rewrite fn_lookup_insert_ne by done. rewrite set_buf_ne in Hs0 by done. apply seg_store; [|exact Hs0].
        intros Ht'. by apply Hd, (W4 _ _ t).
    + intros b'. destruct (decide (b' = b)) as [->|]; [by rewrite fn_lookup_insert|by rewrite fn_lookup_insert_ne].
    + intros b' t' Ht'. cbn [with_waiters p_knl knl set_buf p_bufs].
      destruct (decide (b' = b)) as [->|Hne]; [rewrite fn_lookup_insert in Ht'|rewrite fn_lookup_insert_ne in Ht' by done];
        apply Hkeep; [intros ->; done|apply (W3 b); rewrite Hts; set_solver|intros ->; by apply Hne, (W4 _ _ t)|by apply (W3 b')].
    + intros b1 b2 t' H1 H2. apply (W4 b1 b2 t').
      * destruct (decide (b1 = b)) as [->|]; [rewrite fn_lookup_insert in H1; rewrite Hts; set_solver|by rewrite fn_lookup_insert_ne in H1].
      * destruct (decide (b2 = b)) as [->|]; [rewrite fn_lookup_insert in H2; rewrite Hts; set_solver|by rewrite fn_lookup_insert_ne in H2].
    + intros b'. rewrite Hb'. case_decide as Hd.
      * subst b'. rewrite fn_lookup_insert. simpl. lia.
      * rewrite fn_lookup_insert_ne by done. pose proof (W5 b') as Hr. unfold with_waiters in Hr. by rewrite set_buf_ne in Hr.
  - exact Hkinv.
  - intros b' Hbn Hx. assert (Hne : b' <> b) by congruence. destruct (L6 b' Hbn Hx) as [B1 B2 B3 B4 B5 B6 B7].
    unfold with_waiters, slot in *. rewrite set_buf_ne in * by done.
    split; unfold slot; rewrite ?Hb', ?decide_False by done; done.
Qed.

Lemma waiters_loop_spec b key F C D Hs ts : forall fuel p th Wt,
  pool_inv (Some b) (with_waiters p b th) F C D Hs Wt -> Wt b = ts -> 0 <= locks (bufs p b) ->
  (length ts <= fuel)%nat ->
  exists p', release_waiters_loop fuel p b th key = Ret p'
    /\ pool_inv (Some b) (with_waiters p' b None) F C D Hs (<[b := []]> Wt)
    /\ bufs p' b = b_locks (bufs p b) (locks (bufs p b) + Z.of_nat (length ts))
    /\ (forall b', b' <> b -> bufs p' b' = bufs p b') /\ cfg p' = cfg p.
Proof.
  induction ts as [|t ts IH]; intros fuel p th Wt Hp Hts Hlk Hf.
  - pose proof (wo_list _ _ (pi_waiters _ _ _ _ _ _ _ Hp) b) as Hs0. rewrite Hts in Hs0.
    unfold with_waiters in Hs0. rewrite set_buf_eq in Hs0. simpl in Hs0. subst th. exists p.
    split; [by destruct fuel|]. split.
    + destruct Hp as [L1 L2 L3 [W1 W2 W3 W4 W5] L5 L6].
      assert (He : forall b', (<[b := []]> Wt) b' = Wt b').
      { intros b'. destruct (decide (b' = b)) as [->|]; [by rewrite fn_lookup_insert|by rewrite fn_lookup_insert_ne]. }
      split; try done. split; intros *; rewrite ?He; try done; [apply W3|apply W4].
    + split; [|done]. simpl. rewrite Z.add_0_r. by destruct (bufs p b).
  - pose proof (wo_list _ _ (pi_waiters _ _ _ _ _ _ _ Hp) b) as Hs0. rewrite Hts in Hs0.
    unfold with_waiters in Hs0. rewrite set_buf_eq in Hs0. simpl in Hs0. destruct Hs0 as [-> _].
    destruct fuel as [|fuel]; [simpl in Hf; lia|]. cbn [release_waiters_loop].
    destruct (wake_one p b t ts key _ _ _ _ _ Hp Hts Hlk) as (k & Hk & Hp1 & Hl1).
    change (knl (p_next_waiter (lock p b) _)) with (knl p). rewrite Hk. cbn [obind].
    change (next_waiter (lock p b) t) with (next_waiter p t).
    set (p1 := p_knl _ k) in *.
    assert (Hb1 : bufs p1 b = b_locks (bufs p b) (locks (bufs p b) + 1)).
    { change (bufs p1 b) with (bufs (lock p b) b). unfold lock in *. rewrite set_buf_eq in *. simpl in Hl1. by rewrite Hl1. }
    destruct (IH fuel p1 (next_waiter p t) (<[b := ts]> Wt) Hp1) as (p2 & -> & Hp2 & Hb2 & Ho2 & Hc2).
    { by rewrite fn_lookup_insert. } { rewrite Hb1. simpl. lia. } { simpl in Hf. lia. }
    exists p2. split; [done|]. split.
    + destruct Hp2 as [L1 L2 L3 [W1 W2 W3 W4 W5] L5 L6].
      assert (He : forall b', (<[b := []]> Wt) b' = (<[b := []]> (<[b := ts]> Wt)) b').
      { intros b'. destruct (decide (b' = b)) as [->|]; [by rewrite !fn_lookup_insert|by rewrite !fn_lookup_insert_ne]. }
      split; try done. split; intros *; rewrite ?He; try done; [apply W3|apply W4].
    + split; [|split].
      * rewrite Hb2, Hb1. cbn [length locks b_locks]. unfold b_locks. simpl. f_equal. lia.
      * intros b' Hne. rewrite Ho2 by done. change (bufs p1 b') with (bufs (lock p b) b'). by apply set_buf_ne.
      * rewrite Hc2. done.
Qed.

(** Every waiter gets a lock and becomes ready. *)
Lemma release_waiters_spec h b p key :
  loose h b p -> 0 <= locks (bufs p b) ->
  exists p' n, release_buffer_waiters p b key = Ret p' /\ loose h b p'
    /\ bufs p' b = b_waiters (b_locks (bufs p b) (locks (bufs p b) + n)) None
    /\ 0 <= n /\ locks (bufs p b) + n <= 65535
    /\ (forall b', b' <> b -> bufs p' b' = bufs p b') /\ cfg p' = cfg p.
Proof.
  intros (F & C & D & Hs & Wt & Hp & Hb & Hh & Hn & Hst) Hlk. unfold release_buffer_waiters.
  assert (Hbs : forall b', bufs (with_waiters p b (buf_waiters (bufs p b))) b' = bufs p b').
  { intros b'. unfold with_waiters. destruct (decide (b' = b)) as [->|]; [|by rewrite set_buf_ne].
    rewrite set_buf_eq. by destruct (bufs p b). }
  assert (Hp0 : pool_inv (Some b) (with_waiters p b (buf_waiters (bufs p b))) F C D Hs Wt).
  { unfold with_waiters. apply inv_set_buf; try done; [by left|exact (inv_room _ _ _ _ _ _ _ Hp)]. }
  pose proof (inv_room _ _ _ _ _ _ _ Hp) as Hroom.
  destruct (waiters_loop_spec b key F C D Hs (Wt b) waiters_fuel p _ Wt Hp0 eq_refl Hlk)
    as (p' & -> & Hp' & Hb' & Ho' & Hc').
  { apply Nat2Z.inj_le. unfold waiters_fuel. rewrite Z2Nat.id by lia. lia. }
  cbn [obind]. exists (with_waiters p' b None), (Z.of_nat (length (Wt b))). split; [done|].
  assert (Hbb : bufs (with_waiters p' b None) b
    = b_waiters (b_locks (bufs p b) (locks (bufs p b) + Z.of_nat (length (Wt b)))) None).
  { unfold with_waiters. by rewrite set_buf_eq, Hb'. }
  destruct (cfg_size _ _ Hc') as [Hsz _]. split.
  - exists F, C, D, Hs, (<[b := []]> Wt). split; [done|]. split; [done|]. split.
    + destruct h; [|done]. unfold slot. by rewrite Hbb.
    + rewrite Hbb. change (poolsize (with_waiters p' b None)) with (poolsize p'). by rewrite Hsz.
  - split; [exact Hbb|]. split; [lia|]. split; [lia|]. split; [|exact Hc'].
    intros b' Hne. unfold with_waiters. rewrite set_buf_ne by done. by apply Ho'.
Qed.

(** ** Looking up a block *)

Lemma find_block_spec p n l : forall fuel s,
  seg (nx (bucket p)) s l None -> (length l <= fuel)%nat ->
  find_block fuel p n s = Ret (list_find (fun b => blkno (bufs p b) = n) l ≫= fun r => Some r.2).
Proof.
  induction l as [|b l IH]; intros fuel s Hs0 Hf; [simpl in Hs0; subst; by destruct fuel|].
  destruct Hs0 as [-> Hs0]. destruct fuel as [|fuel]; [simpl in Hf; lia|]. cbn [find_block list_find].
  destruct (Z.eqb_spec (blkno (bufs p b)) n) as [He|He]; [by rewrite decide_True|].
  rewrite decide_False by done. rewrite (IH fuel _ Hs0) by (simpl in Hf; lia).
  by destruct (list_find _ l) as [[]|].
Qed.

(** The buffer of a block in the hash table. *)
Definition cached p n b : Prop :=
  (b < poolsize p)%nat /\ bstate (bufs p b) <> BUF_STATE_FREE /\ blkno (bufs p b) = n.

Lemma find_cached p n : pool_ok p ->
  exists r, find_block (poolsize p) p n (hashtable p (slot_of n)) = Ret r
    /\ match r with Some b => cached p n b | None => forall b, ~ cached p n b end.
Proof.
  intros (F & C & D & Hs & Wt & Hp). pose proof (pi_lists _ _ _ _ _ _ _ Hp) as Hl.
  destruct (lo_hash _ _ _ _ _ Hl (slot_of n)) as (Hseg & _ & Hnd). cbn [first] in Hseg.
  assert (Hbd : forall b, b ∈ Hs (slot_of n) -> (b < poolsize p)%nat).
  { intros b Hb. apply (lo_bound _ _ _ _ _ Hl). right. by rewrite (lo_slot _ _ _ _ _ Hl _ _ Hb). }
  assert (Hlen : (length (Hs (slot_of n)) <= poolsize p)%nat).
  { rewrite <- (length_seq (poolsize p) 0). apply submseteq_length, NoDup_submseteq; [done|].
    intros b Hb. apply elem_of_seq. specialize (Hbd b Hb). lia. }
  eexists. split; [by apply find_block_spec|].
  destruct (list_find _ (Hs (slot_of n))) as [[i b]|] eqn:Hfind; simpl.
  - apply list_find_Some in Hfind as (Hi & Hn & _). apply list_elem_of_lookup_2 in Hi.
    pose proof (Hbd b Hi) as Hb. split; [done|]. split; [|done].
    apply (bo_hash _ _ _ _ _ _ (pi_bufs _ _ _ _ _ _ _ Hp b Hb ltac:(done))).
    by rewrite (lo_slot _ _ _ _ _ Hl _ _ Hi).
  - apply list_find_None in Hfind. intros b (Hb & Hst & Hn).
    pose proof (proj2 (bo_hash _ _ _ _ _ _ (pi_bufs _ _ _ _ _ _ _ Hp b Hb ltac:(done))) Hst) as Hin.
    unfold slot in Hin. rewrite Hn in Hin. rewrite Forall_forall in Hfind. by apply (Hfind b).
Qed.

(** ** Contracts of the places where other threads run *)

(** What happens to a buffer of the current thread: its transfer goes on, its locks stay. *)
Definition keeps p p' b : Prop :=
  (in_io (bstate (bufs p b)) -> bstate (bufs p' b) = bstate (bufs p b) /\ blkno (bufs p' b) = blkno (bufs p b))
  /\ (held p b -> held p' b /\ blkno (bufs p' b) = blkno (bufs p b)).

(** The outcome of a call, given what a return promises; it never faults, but a panic
    or a wait without end of another thread may befall it. *)
Definition returns {A} (o : outcome A) (Q : A -> Prop) : Prop :=
  match o with Ret a => Q a | Fault => False | Panic | Diverge => True end.

Lemma returns_bind {A B} (o : outcome A) (k : A -> outcome B) (Q : A -> Prop) (R : B -> Prop) :
  returns o Q -> (forall a, Q a -> returns (k a) R) -> returns (obind o k) R.
Proof. destruct o; simpl; auto. Qed.

Lemma returns_weaken {A} (o : outcome A) (Q R : A -> Prop) :
  returns o Q -> (forall a, Q a -> R a) -> returns o R.
Proof. destruct o; simpl; auto. Qed.

Lemma returns_ret {A} (o : outcome A) (Q : A -> Prop) : (exists a, o = Ret a /\ Q a) -> returns o Q.
Proof. by intros (a & -> & Ha). Qed.

Definition io_contract (dev : bufpool K -> nat -> Z -> outcome (Z * bufpool K)) : Prop :=
  forall p b blk, pool_ok p -> (b < poolsize p)%nat ->
    returns (dev p b blk) (fun '(rc, p') => pool_ok p' /\ cfg p' = cfg p /\ keeps p p' b).

Definition wait_contract (enter_wait : bufpool K -> nat -> outcome (Z * bufpool K)) : Prop :=
  forall p b, pool_ok p -> (b < poolsize p)%nat -> in_io (bstate (bufs p b)) ->
    returns (wait_for_buffer enter_wait p b)
      (fun '(_, p') => pool_ok p' /\ cfg p' = cfg p /\ held p' b /\ blkno (bufs p' b) = blkno (bufs p b)).

Definition switch_contract (yield : bufpool K -> outcome (bufpool K)) : Prop :=
  forall p, pool_ok p -> returns (yield p) (fun p' => pool_ok p' /\ cfg p' = cfg p).

(** A buffer that can be locked once more. *)
Definition lockable p : Prop := forall b, (b < poolsize p)%nat -> locks (bufs p b) < 65535.

Lemma lock_eq p b : 0 <= locks (bufs p b) < 65535 -> bufs (lock p b) b = b_locks (bufs p b) (locks (bufs p b) + 1).
Proof.
  intros Hl. unfold lock. rewrite set_buf_eq. f_equal. unfold u16, uwrap. apply Z.mod_small. lia.
Qed.

(** [lookup_buffer] returns a buffer that the caller holds, or changes nothing. *)
Definition holds p b n : Prop := held p b /\ blkno (bufs p b) = n.

(** One more lock. *)
Lemma loose_lock h p b : loose h b p -> 0 <= locks (bufs p b) < 65535 -> no_waiters p b -> loose h b (lock p b).
Proof.
  intros Hp Hl Hw. pose proof (lock_eq p b Hl) as He. unfold lock in *. rewrite set_buf_eq in He. simpl in He.
  apply loose_set_buf; [done|by left|done|done|]. right. split; [done|]. rewrite He. simpl. lia.
Qed.

(** From a list to a locked state: the buffer [b], on no list any more in [p1]. *)
Lemma settle_locked p p1 b s :
  loose true b p1 -> bufs p1 = bufs p -> s = BUF_STATE_LOCKED \/ s = BUF_STATE_UPDATED ->
  locks (bufs p b) = 0 -> no_waiters p b ->
  let p' := lock (unchain (change_state p1 b s) b) b in
  pool_ok p' /\ bufs p' b = b_locks (b_state (bufs p b) s) 1.
Proof.
  intros Hp Hb Hs0 Hl Hw p'. set (p2 := unchain (change_state p1 b s) b).
  assert (H2 : bufs p2 b = b_state (bufs p b) s).
  { change (bufs p2 b) with (bufs (change_state p1 b s) b). by rewrite change_state_eq, Hb. }
  assert (Hlo : loose true b p2).
  { apply loose_unchain, loose_change_state; [|done]. unfold BUF_STATE_LOCKED, BUF_STATE_UPDATED, BUF_STATE_ERROR in *. lia. }
  assert (H3 : bufs p' b = b_locks (b_state (bufs p b) s) 1).
  { change (bufs (lock p2 b) b = b_locks (b_state (bufs p b) s) 1).
    rewrite lock_eq; rewrite H2; simpl; rewrite Hl; [done|lia]. }
  split; [|exact H3]. apply (loose_settle b).
  - apply (loose_lock true p2); [done|rewrite H2; simpl; lia|by unfold no_waiters; rewrite H2].
  - rewrite H3. simpl. unfold BUF_STATE_LOCKED, BUF_STATE_UPDATED in *. lia.
  - rewrite H3. simpl. by destruct Hs0 as [->| ->].
  - intros _. by unfold no_waiters; rewrite H3.
Qed.

(** ** The operations keep the invariant *)

(** A buffer in one of the later states gets a lock, or a new state and a lock. *)
Lemma ok_lock p b : pool_ok p -> held p b -> locks (bufs p b) < 65535 ->
  pool_ok (lock p b) /\ held (lock p b) b /\ bufs (lock p b) b = b_locks (bufs p b) (locks (bufs p b) + 1).
Proof.
  intros Hp [Hb Hst] Hl. destruct (ok_buf p b Hp Hb) as (_ & Hlk & Hw).
  assert (H3 : 3 <= bstate (bufs p b)) by (unfold BUF_STATE_LOCKED, BUF_STATE_UPDATED, BUF_STATE_INVALID, BUF_STATE_ERROR in *; lia).
  assert (Hl0 : 0 <= locks (bufs p b)).
  { unfold lock_ok in Hlk. unfold BUF_STATE_READING, BUF_STATE_LOCKED, BUF_STATE_UPDATED, BUF_STATE_INVALID, BUF_STATE_ERROR in *.
    repeat case_decide; lia. }
  assert (Hio : ~ in_io (bstate (bufs p b))).
  { unfold in_io, BUF_STATE_READING, BUF_STATE_WRITING, BUF_STATE_LOCKED, BUF_STATE_UPDATED, BUF_STATE_INVALID, BUF_STATE_ERROR in *. lia. }
  pose proof (lock_eq p b ltac:(lia)) as He. split; [|split; [|exact He]].
  - apply (loose_settle b).
    + apply loose_lock; [by apply leave_rest|lia|by apply Hw].
    + by rewrite He.
    + rewrite He. simpl. unfold lock_ok in *.
      unfold BUF_STATE_READING, BUF_STATE_LOCKED, BUF_STATE_UPDATED, BUF_STATE_INVALID, BUF_STATE_ERROR in *.
      repeat case_decide; lia.
    + intros _. unfold no_waiters. rewrite He. by apply Hw.
  - unfold held. rewrite He. simpl. split; [exact Hb|]. naive_solver lia.
Qed.

(** A held buffer goes to another held state. *)
Lemma ok_restate p b s : pool_ok p -> held p b -> 1 <= locks (bufs p b) ->
  s = BUF_STATE_LOCKED \/ s = BUF_STATE_UPDATED \/ s = BUF_STATE_INVALID ->
  pool_ok (change_state p b s) /\ held (change_state p b s) b.
Proof.
  intros Hp [Hb Hst] Hl Hs0. destruct (ok_buf p b Hp Hb) as (_ & Hlk & Hw).
  assert (H3 : 3 <= bstate (bufs p b)) by (unfold BUF_STATE_LOCKED, BUF_STATE_UPDATED, BUF_STATE_INVALID, BUF_STATE_ERROR in *; lia).
  assert (Hio : ~ in_io (bstate (bufs p b))).
  { unfold in_io, BUF_STATE_READING, BUF_STATE_WRITING, BUF_STATE_LOCKED, BUF_STATE_UPDATED, BUF_STATE_INVALID, BUF_STATE_ERROR in *. lia. }
  assert (Hhi : locks (bufs p b) <= 65535).
  { destruct (leave_rest p b Hp Hb H3) as (F & C & D & Hs & Wt & Hi & _). pose proof (inv_room _ _ _ _ _ _ _ Hi). lia. }
  split.
  - apply (loose_settle b).
    + apply loose_change_state; [|by apply leave_rest].
      unfold BUF_STATE_LOCKED, BUF_STATE_UPDATED, BUF_STATE_INVALID, BUF_STATE_ERROR in *. lia.
    + rewrite change_state_eq. simpl. unfold BUF_STATE_LOCKED, BUF_STATE_UPDATED, BUF_STATE_INVALID in *. lia.
    + rewrite change_state_eq. simpl. unfold lock_ok. by destruct Hs0 as [->|[->| ->]].
    + intros _. unfold no_waiters. rewrite change_state_eq. by apply Hw.
  - unfold held. rewrite change_state_eq. simpl. split; [exact Hb|]. naive_solver.
Qed.

Lemma held_locks p b : pool_ok p -> held p b -> 1 <= locks (bufs p b) <= 65535.
Proof.
  intros Hp [Hb Hst]. destruct (ok_buf p b Hp Hb) as (_ & Hlk & _). unfold lock_ok in Hlk.
  unfold BUF_STATE_READING, BUF_STATE_LOCKED, BUF_STATE_UPDATED, BUF_STATE_INVALID, BUF_STATE_ERROR in *.
  repeat case_decide; lia.
Qed.

(** A store to the data of a buffer. *)
Lemma ok_data p b d : pool_ok p -> pool_ok (set_buf p b (fun x => b_data x d)).
Proof.
  intros (F & C & D & Hs & Wt & [L1 L2 L3 [W1 W2 W3 W4 W5] L5 L6]). exists F, C, D, Hs, Wt.
  assert (He : forall b', bstate (bufs (set_buf p b (fun x => b_data x d)) b') = bstate (bufs p b')
    /\ locks (bufs (set_buf p b (fun x => b_data x d)) b') = locks (bufs p b')
    /\ blkno (bufs (set_buf p b (fun x => b_data x d)) b') = blkno (bufs p b')
    /\ buf_waiters (bufs (set_buf p b (fun x => b_data x d)) b') = buf_waiters (bufs p b')).
  { intros b'. destruct (decide (b' = b)) as [->|]; [by rewrite set_buf_eq|by rewrite set_buf_ne]. }
  split; try done.
  - eapply (lists_same p); [exact L1|done..| |done]. intros s b' _. by apply He.
  - intros s Hs0. etransitivity; [exact (L2 s Hs0)|]. f_equal. symmetry. apply count_ext; [|done]. intros b'. by apply He.
  - split; try done; intros b'; destruct (He b') as (_ & El & _ & Ew).
    + rewrite Ew. apply W1.
    + rewrite El. apply W5.
  - intros b' Hb' Hx. destruct (L6 b' Hb' Hx). destruct (He b') as (E1 & E2 & E3 & E4).
    split; unfold slot in *; rewrite ?E1, ?E2, ?E3, ?E4; done.
Qed.

Lemma lookup_buffer_spec enter_wait p n : pool_ok p -> lockable p -> wait_contract enter_wait ->
  returns (lookup_buffer enter_wait p n) (fun '(r, p') => pool_ok p' /\ cfg p' = cfg p
    /\ match r with Some b => holds p' b n | None => p' = p /\ forall b, ~ cached p n b end).
Proof.
  intros Hp Hroom Hwait. unfold lookup_buffer. destruct (find_cached p n Hp) as (r & -> & Hr). cbn [obind].
  destruct r as [b|]; [|done]. destruct Hr as (Hb & Hst & Hn).
  destruct (ok_buf p b Hp Hb) as (Hrng & Hlk & Hw). specialize (Hroom b Hb).
  destruct (Z.eqb_spec (bstate (bufs p b)) BUF_STATE_FREE); [done|].
  destruct (Z.eqb_spec (bstate (bufs p b)) BUF_STATE_CLEAN) as [E|N1].
  { rewrite E in Hlk, Hw. pose proof (leave_clean p b Hp Hb E) as Hlo.
    destruct (settle_locked p (remove_clean p b) b BUF_STATE_LOCKED Hlo) as [Hok He]; [|by left|exact Hlk|apply Hw; by intros [|]|].
    { by destruct (remove_clean_shape p b) as (k & q & ->). }
    split; [exact Hok|]. split; [by destruct (remove_clean_shape p b) as (k & q & ->)|].
    unfold holds, held. rewrite He. split; [|exact Hn]. split; [|by left].
    by destruct (remove_clean_shape p b) as (k & q & ->). }
  destruct (Z.eqb_spec (bstate (bufs p b)) BUF_STATE_DIRTY) as [E|N2].
  { rewrite E in Hlk, Hw. pose proof (leave_dirty p b Hp Hb E) as Hlo.
    destruct (settle_locked p (remove_dirty p b) b BUF_STATE_UPDATED Hlo) as [Hok He]; [|by right|exact Hlk|apply Hw; by intros [|]|].
    { by destruct (remove_dirty_shape p b) as (k & q & ->). }
    split; [exact Hok|]. split; [by destruct (remove_dirty_shape p b) as (k & q & ->)|].
    unfold holds, held. rewrite He. split; [|exact Hn]. split; [|by right; left].
    by destruct (remove_dirty_shape p b) as (k & q & ->). }
  destruct (decide (in_io (bstate (bufs p b)))) as [Hio|Hio].
  { assert (((bstate (bufs p b) =? BUF_STATE_READING) || (bstate (bufs p b) =? BUF_STATE_WRITING)) = true) as ->
      by (destruct Hio as [->| ->]; done).
    eapply returns_bind; [by apply Hwait|]. intros [rc p'] (H1 & H2 & H3 & H4). simpl.
    split; [done|]. split; [done|]. split; [done|congruence]. }
  assert (((bstate (bufs p b) =? BUF_STATE_READING) || (bstate (bufs p b) =? BUF_STATE_WRITING)) = false) as ->.
  { apply orb_false_iff. split; apply Z.eqb_neq; intros E; apply Hio; [by left|by right]. }
  destruct ((bstate (bufs p b) =? BUF_STATE_LOCKED) || (bstate (bufs p b) =? BUF_STATE_UPDATED)) eqn:E.
  { assert (Hh : held p b) by (split; [done|]; apply orb_true_iff in E as [E%Z.eqb_eq|E%Z.eqb_eq]; naive_solver).
    destruct (ok_lock p b Hp Hh Hroom) as (H1 & H2 & H3). split; [done|]. split; [done|]. split; [done|].
    by rewrite H3. }
  destruct (Z.eqb_spec (bstate (bufs p b)) BUF_STATE_INVALID) as [Ei|N3].
  { assert (Hh : held p b) by (split; [done|]; naive_solver). pose proof (held_locks p b Hp Hh).
    destruct (ok_restate p b BUF_STATE_LOCKED Hp Hh ltac:(lia) (or_introl eq_refl)) as [H1 H2].
    destruct (ok_lock (change_state p b BUF_STATE_LOCKED) b H1 H2) as (H3 & H4 & H5).
    { rewrite change_state_eq. exact Hroom. }
    split; [by apply ok_data|]. split; [done|]. unfold holds, held, clear_data. rewrite set_buf_eq, H5, change_state_eq.
    split; [|exact Hn]. split; [exact Hb|by left]. }
  destruct (Z.eqb_spec (bstate (bufs p b)) BUF_STATE_ERROR) as [Ee|N4]; [|done].
  rewrite Ee in Hlk, Hw.
  assert (Hl0 : 0 <= locks (bufs p b) <= 65535) by exact Hlk.
  pose proof (lock_eq p b ltac:(lia)) as He. split; [|split; [done|]].
  - apply (loose_settle b).
    + apply loose_lock; [|lia|by apply Hw; intros [|]]. apply leave_rest; [done|done|]. rewrite Ee. unfold BUF_STATE_ERROR. lia.
    + rewrite He. simpl. rewrite Ee. unfold BUF_STATE_ERROR. lia.
    + rewrite He. simpl. rewrite Ee. unfold lock_ok. simpl. lia.
    + intros _. unfold no_waiters. rewrite He. apply Hw. by intros [|].
  - unfold holds, held. rewrite He. simpl. split; [|done]. split; [exact Hb|]. right; right; right. lia.
Qed.

(** After a transfer the buffer is locked by its reader, if any, and by those who waited. *)
Lemma transferred_spec p b rc : loose true b p -> 0 <= locks (bufs p b) <= 65535 ->
  exists p' n, transferred p b rc = Ret p' /\ loose true b p' /\ no_waiters p' b
    /\ bufs p' b = b_waiters (b_locks (b_state (bufs p b) (if rc =? bufsize p then BUF_STATE_LOCKED else BUF_STATE_ERROR))
                                (locks (bufs p b) + n)) None
    /\ 0 <= n /\ locks (bufs p b) + n <= 65535 /\ (forall b', b' <> b -> bufs p' b' = bufs p b')
    /\ cfg p' = cfg p.
Proof.
  intros Hp Hl. unfold transferred.
  assert (Hgo : forall s key, 0 <= s <= BUF_STATE_ERROR -> exists p' n,
    release_buffer_waiters (change_state p b s) b key = Ret p' /\ loose true b p' /\ no_waiters p' b
    /\ bufs p' b = b_waiters (b_locks (b_state (bufs p b) s) (locks (bufs p b) + n)) None
    /\ 0 <= n /\ locks (bufs p b) + n <= 65535 /\ (forall b', b' <> b -> bufs p' b' = bufs p b')
    /\ cfg p' = cfg p).
  { intros s key Hs0. destruct (release_waiters_spec true b (change_state p b s) key) as
      (p' & n & Hr & Hlo & Hb & Hn & Hsum & Ho & Hc).
    - by apply loose_change_state.
    - rewrite change_state_eq. simpl. lia.
    - rewrite change_state_eq in Hb, Hsum. simpl in Hsum. exists p', n.
      split; [done|]. split; [done|]. split; [by unfold no_waiters; rewrite Hb|]. split; [by rewrite Hb|].
      split; [done|]. split; [done|]. split; [|done]. intros b' Hne. rewrite Ho by done. by apply change_state_ne. }
  destruct (rc =? bufsize p); apply Hgo; unfold BUF_STATE_LOCKED, BUF_STATE_ERROR; lia.
Qed.

Context (dev_read dev_write : bufpool K -> nat -> Z -> outcome (Z * bufpool K)).
Context (Hread : io_contract dev_read) (Hwrite : io_contract dev_write).

Lemma read_buffer_spec p b : loose true b p -> locks (bufs p b) = 1 -> no_waiters p b ->
  returns (read_buffer dev_read p b) (fun '(rc, p') => pool_ok p' /\ cfg p' = cfg p /\ held p' b
    /\ blkno (bufs p' b) = blkno (bufs p b)
    /\ (bstate (bufs p' b) = BUF_STATE_ERROR <-> rc <> bufsize p)).
Proof.
  intros Hp Hl Hw. unfold read_buffer. set (p1 := p_ioactive (change_state p b BUF_STATE_READING) 1).
  assert (Hb1 : bufs p1 b = b_state (bufs p b) BUF_STATE_READING) by apply change_state_eq.
  assert (Hlo1 : loose true b (change_state p b BUF_STATE_READING)).
  { apply loose_change_state; [|done]. unfold BUF_STATE_READING, BUF_STATE_ERROR. lia. }
  assert (Hp1 : pool_ok p1).
  { apply ok_ioactive, (loose_settle b); [done|rewrite change_state_eq; unfold BUF_STATE_READING; simpl; lia| |].
    - rewrite change_state_eq. exact Hl.
    - intros Hn. exfalso. apply Hn. rewrite change_state_eq. by left. }
  assert (Hn : (b < poolsize p1)%nat) by (by destruct Hlo1 as (? & ? & ? & ? & ? & _ & _ & _ & ? & _)).
  eapply returns_bind; [by apply Hread|]. intros [rc p2] (Hp2 & Hc2 & Hk2 & _). rewrite Hb1 in Hk2.
  destruct Hk2 as [Hst2 Hblk2]; [by left|]. cbn [b_state bstate blkno] in Hst2, Hblk2.
  destruct (cfg_size _ _ Hc2) as [Hsz Hbs]. rewrite <- Hsz in Hn.
  destruct (ok_buf p2 b Hp2 Hn) as (_ & Hlk & _). rewrite Hst2 in Hlk.
  assert (Hl2 : locks (bufs p2 b) = 1) by exact Hlk.
  destruct (transferred_spec p2 b rc) as (p3 & n & -> & Hlo3 & Hw3 & Hb3 & Hn3 & Hs3 & _ & Hc3).
  { apply leave_rest; [done|done|]. rewrite Hst2. unfold BUF_STATE_READING. lia. } { lia. }
  cbn [obind returns]. rewrite Hbs in Hb3. change (bufsize p1) with (bufsize p) in Hb3.
  assert (Hh3 : held p3 b).
  { split; [by destruct Hlo3 as (? & ? & ? & ? & ? & _ & _ & _ & ? & _)|]. rewrite Hb3. simpl. rewrite Hl2.
    destruct (rc =? bufsize p); [by left|]. right; right; right. split; [done|lia]. }
  assert (Hp3 : pool_ok p3).
  { apply (loose_settle b); [done| | |by intros _]; rewrite Hb3; simpl; rewrite ?Hl2.
    - destruct (rc =? bufsize p); unfold BUF_STATE_LOCKED, BUF_STATE_ERROR; lia.
    - unfold lock_ok. destruct (rc =? bufsize p); simpl; lia. }
  split; [by apply ok_bump|].
  split; [exact (cfg_trans _ _ _ Hc3 Hc2)|]. split; [exact Hh3|]. change (bufs (bump p3 BlocksRead) b) with (bufs p3 b).
  rewrite Hb3. simpl. split; [exact Hblk2|].
  destruct (Z.eqb_spec rc (bufsize p)); split; intros; try done; congruence.
Qed.

(** A dirty buffer is written: afterwards nobody may hold it, which leaves it locked
    with no lock. *)
Lemma write_buffer_spec p b flush : pool_ok p -> (b < poolsize p)%nat -> bstate (bufs p b) = BUF_STATE_DIRTY ->
  returns (write_buffer dev_write p b flush) (fun '(rc, p') => loose true b p' /\ cfg p' = cfg p
    /\ no_waiters p' b /\ 0 <= locks (bufs p' b) <= 65535
    /\ bstate (bufs p' b) = (if rc =? bufsize p then BUF_STATE_LOCKED else BUF_STATE_ERROR)
    /\ blkno (bufs p' b) = blkno (bufs p b)).
Proof.
  intros Hp Hn Hst. unfold write_buffer. rewrite Hst. change (BUF_STATE_DIRTY =? BUF_STATE_DIRTY) with true. cbv iota.
  destruct (ok_buf p b Hp Hn) as (_ & Hlk & Hw). rewrite Hst in Hlk, Hw.
  set (p0 := change_state (unchain (remove_dirty p b) b) b BUF_STATE_WRITING).
  set (p1 := if flush then p0 else p_ioactive p0 1).
  assert (Hb0 : bufs p0 b = b_state (bufs p b) BUF_STATE_WRITING).
  { unfold p0. rewrite change_state_eq. by destruct (remove_dirty_shape p b) as (k & q & ->). }
  assert (Hc0 : cfg p0 = cfg p) by (unfold p0; by destruct (remove_dirty_shape p b) as (k & q & ->)).
  assert (Hlo : loose true b p0).
  { apply loose_change_state; [unfold BUF_STATE_WRITING, BUF_STATE_ERROR; lia|]. by apply loose_unchain, leave_dirty. }
  assert (Hp0 : pool_ok p0).
  { apply (loose_settle b); [done| | |]; rewrite Hb0.
    - unfold BUF_STATE_WRITING. simpl. lia.
    - exact Hlk.
    - intros Hio. exfalso. apply Hio. by right. }
  assert (Hp1 : pool_ok p1 /\ bufs p1 b = bufs p0 b /\ cfg p1 = cfg p).
  { unfold p1. destruct flush; [done|]. split; [by apply ok_ioactive|done]. }
  destruct Hp1 as (Hp1 & Hb1 & Hc1). rewrite Hb0 in Hb1. clearbody p1. clear Hlo Hp0 Hb0 Hc0 p0.
  destruct (cfg_size _ _ Hc1) as [Hsz1 Hbs1]. rewrite <- Hsz1 in Hn.
  eapply returns_bind; [by apply Hwrite|]. intros [rc p2] (Hp2 & Hc2 & Hk2 & _). rewrite Hb1 in Hk2.
  destruct Hk2 as [Hst2 Hblk2]; [by right|]. cbn [b_state bstate blkno] in Hst2, Hblk2.
  destruct (cfg_size _ _ Hc2) as [Hsz Hbs]. rewrite <- Hsz in Hn.
  destruct (ok_buf p2 b Hp2 Hn) as (_ & Hlk2 & _). rewrite Hst2 in Hlk2.
  assert (Hl2 : locks (bufs p2 b) = 0) by exact Hlk2.
  set (p2' := bump p2 BlocksWritten).
  assert (Hp2' : pool_ok p2') by (by apply ok_bump).
  destruct (transferred_spec p2' b rc) as (p3 & n & -> & Hlo3 & Hw3 & Hb3 & Hn3 & Hs3 & _ & Hc3).
  { apply leave_rest; [done|done|]. change (bufs p2' b) with (bufs p2 b). rewrite Hst2. unfold BUF_STATE_WRITING. lia. }
  { change (bufs p2' b) with (bufs p2 b). lia. }
  cbn [obind returns]. change (bufs p2' b) with (bufs p2 b) in *.
  change (bufsize p2') with (bufsize p2) in Hb3. rewrite Hbs, Hbs1 in Hb3.
  split; [done|]. split; [exact (cfg_trans p p2' p3 Hc3 (cfg_trans p p1 p2 Hc2 Hc1))|].
  split; [done|]. rewrite Hb3. simpl. split; [lia|]. done.
Qed.

(** What [write_buffer] leaves is at rest when somebody holds it or the write failed. *)
Lemma written_ok p b : loose true b p -> no_waiters p b -> 0 <= locks (bufs p b) <= 65535 ->
  bstate (bufs p b) = BUF_STATE_ERROR \/ (bstate (bufs p b) = BUF_STATE_LOCKED /\ locks (bufs p b) <> 0) ->
  pool_ok p.
Proof.
  intros Hp Hw Hl Hst. apply (loose_settle b); [done| | |done]; destruct Hst as [->|[-> ?]].
  - unfold BUF_STATE_ERROR. lia.
  - unfold BUF_STATE_LOCKED. lia.
  - exact Hl.
  - unfold lock_ok. simpl. lia.
Qed.

Context (yield : bufpool K -> outcome (bufpool K)) (Hyield : switch_contract yield).

Lemma get_new_buffer_spec fuel : forall p, pool_ok p -> 0 < bufsize p ->
  returns (get_new_buffer dev_write yield fuel p) (fun '(b, p') => loose false b p' /\ cfg p' = cfg p
    /\ no_waiters p' b /\ locks (bufs p' b) = 0).
Proof.
  induction fuel as [|fuel IH]; intros p Hp Hbs; [done|]. cbn [get_new_buffer].
  destruct (take_buffer p) as [[b p']|] eqn:Ht.
  { by destruct (take_buffer_spec p _ Hp Ht) as (H1 & H2 & H3 & _ & H5). }
  eapply (returns_bind _ _ (fun '(r, p') => cfg p' = cfg p /\ match r with
    | Some b => loose false b p' /\ no_waiters p' b /\ locks (bufs p' b) = 0 | None => pool_ok p' end)).
  - destruct (first (dirty p)) as [b|] eqn:Hd; [|by split].
    pose proof Hp as (F & C & D & Hs & Wt & Hi). pose proof (pi_lists _ _ _ _ _ _ _ Hi) as Hl.
    rewrite (dl_first _ _ _ (lo_dirty _ _ _ _ _ Hl)) in Hd. destruct D as [|b' D]; [done|]. injection Hd as ->.
    assert (Hb : (b < poolsize p)%nat) by (apply (lo_bound _ _ _ _ _ Hl); left; set_solver).
    assert (Hst : bstate (bufs p b) = BUF_STATE_DIRTY).
    { apply (bo_dirty _ _ _ _ _ _ (pi_bufs _ _ _ _ _ _ _ Hi b Hb ltac:(done))). set_solver. }
    eapply returns_bind; [by apply write_buffer_spec|]. intros [rc p1] (H1 & H2 & H3 & H4 & H5 & _).
    destruct ((0 <=? rc) && (locks (bufs p1 b) =? 0)) eqn:E; cbn [returns].
    + apply andb_true_iff in E as [_ E%Z.eqb_eq].
      destruct (unhash_shape p1 b) as (k & t & Hun). split; [by rewrite Hun|].
      split; [by apply loose_unhash|]. by rewrite Hun.
    + split; [done|]. apply (written_ok p1 b); try done. rewrite H5.
      destruct (Z.eqb_spec rc (bufsize p)) as [->|]; [|by left]. right. split; [done|].
      apply andb_false_iff in E as [E|E]; [apply Z.leb_gt in E; lia|by apply Z.eqb_neq in E].
  - intros [[b|] p1] [Hc1 H1]; [by destruct H1 as (H1 & H2 & H3)|].
    eapply returns_bind; [by apply Hyield|]. intros p2 [Hp2 Hc2].
    destruct (cfg_size _ _ (cfg_trans _ _ _ Hc2 Hc1)) as [_ Hbs2].
    eapply returns_weaken; [apply IH; [done|by rewrite Hbs2]|].
    intros [b p3] (J1 & J2 & J3). split; [done|]. split; [congruence|done].
Qed.

Lemma release_buffer_spec p b : pool_ok p -> held p b -> exists p',
  release_buffer p b = Ret p' /\ pool_ok p' /\ cfg p' = cfg p
  /\ (forall b', b' <> b -> bufs p' b' = bufs p b')
  /\ bufs p' b = b_locks (b_state (bufs p b) (if locks (bufs p b) =? 1 then
         if bstate (bufs p b) =? BUF_STATE_LOCKED then BUF_STATE_CLEAN
         else if bstate (bufs p b) =? BUF_STATE_UPDATED then BUF_STATE_DIRTY else BUF_STATE_FREE
       else bstate (bufs p b))) (locks (bufs p b) - 1).
Proof.
  intros Hp Hh. pose proof (held_locks p b Hp Hh) as Hl. destruct Hh as [Hb Hst].
  destruct (ok_buf p b Hp Hb) as (Hrng & Hlk & Hw). unfold release_buffer.
  set (p1 := set_buf p b (fun x => b_locks x (u16 (locks x - 1)))).
  assert (H3 : 3 <= bstate (bufs p b)) by (unfold BUF_STATE_LOCKED, BUF_STATE_UPDATED, BUF_STATE_INVALID, BUF_STATE_ERROR in *; lia).
  assert (Hio : ~ in_io (bstate (bufs p b))).
  { unfold in_io, BUF_STATE_READING, BUF_STATE_WRITING, BUF_STATE_LOCKED, BUF_STATE_UPDATED, BUF_STATE_INVALID, BUF_STATE_ERROR in *. lia. }
  assert (Hu : u16 (locks (bufs p b) - 1) = locks (bufs p b) - 1) by (unfold u16, uwrap; apply Z.mod_small; lia).
  assert (Hb1 : bufs p1 b = b_locks (bufs p b) (locks (bufs p b) - 1)) by (unfold p1; by rewrite set_buf_eq, Hu).
  assert (Ho1 : forall b', b' <> b -> bufs p1 b' = bufs p b') by (intros b' Hne; by apply set_buf_ne).
  assert (Hlo1 : loose true b p1).
  { apply loose_set_buf; [by apply leave_rest|by left|done|done|]. left. simpl. lia. }
  assert (Hw1 : no_waiters p1 b) by (unfold no_waiters; rewrite Hb1; by apply Hw).
  assert (Hc1 : cfg p1 = cfg p) by done. rewrite Hb1. cbn [b_locks locks].
  destruct (Z.ltb_spec 0 (locks (bufs p b) - 1)) as [Hlt|Hge].
  { exists p1. split; [done|]. rewrite (proj2 (Z.eqb_neq (locks (bufs p b)) 1)) by lia. split.
    - apply (loose_settle b); [done|by rewrite Hb1| |done]. rewrite Hb1. simpl. unfold lock_ok in *.
      repeat case_decide; lia.
    - split; [done|]. split; [done|]. rewrite Hb1. by destruct (bufs p b). }
  rewrite (proj2 (Z.eqb_eq (locks (bufs p b)) 1)) by lia.
  assert (Hl0 : locks (bufs p b) - 1 = 0) by lia. rewrite Hl0 in *. cbn [b_locks bstate]. clearbody p1.
  destruct (Z.eqb_spec (bstate (bufs p b)) BUF_STATE_LOCKED) as [E1|N1].
  { eexists. split; [reflexivity|]. assert (Hlo2 : loose true b (change_state p1 b BUF_STATE_CLEAN)).
    { apply loose_change_state; [|done]. unfold BUF_STATE_CLEAN, BUF_STATE_ERROR. lia. }
    destruct (append_clean_shape (change_state p1 b BUF_STATE_CLEAN) b) as (k & q & Hsh). split.
    - apply settle_clean; [done| | |]; unfold no_waiters; rewrite change_state_eq, Hb1; try done. exact (Hw Hio).
    - rewrite Hsh. split; [done|]. cbn [p_clean p_chain bufs]. rewrite change_state_eq, Hb1. split; [|done].
      intros b' Hne. rewrite change_state_ne by done. by apply Ho1. }
  destruct (Z.eqb_spec (bstate (bufs p b)) BUF_STATE_UPDATED) as [E2|N2].
  { assert (Hlo2 : loose true b (change_state p1 b BUF_STATE_DIRTY)).
    { apply loose_change_state; [|done]. unfold BUF_STATE_DIRTY, BUF_STATE_ERROR. lia. }
    destruct (append_dirty_shape (change_state p1 b BUF_STATE_DIRTY) b) as (k & q & Hsh).
    assert (Hok : pool_ok (append_dirty (change_state p1 b BUF_STATE_DIRTY) b)).
    { apply settle_dirty; [done| | |]; unfold no_waiters; rewrite change_state_eq, Hb1; try done. exact (Hw Hio). }
    destruct (signal_dirty_ok _ (ok_kinv _ Hok)) as (kn & -> & Hk1 & Hk2). cbn [obind].
    eexists. split; [reflexivity|]. split; [eapply pool_ok_ext; [..|exact Hok]; done|].
    cbn [bump p_stats p_knl bufs cfg]. rewrite Hsh. cbn [p_dirty p_chain bufs]. split; [done|].
    rewrite change_state_eq, Hb1. split; [|done]. intros b' Hne. rewrite change_state_ne by done. by apply Ho1. }
  assert (Hie : ((bstate (bufs p b) =? BUF_STATE_INVALID) || (bstate (bufs p b) =? BUF_STATE_ERROR)) = true).
  { apply orb_true_iff. destruct Hst as [|[|[->|[-> _]]]]; [done|done|by left|by right]. }
  rewrite Hie. eexists. split; [reflexivity|].
  destruct (unhash_shape p1 b) as (k & t & Hun).
  assert (Hlo2 : loose false b (change_state (remove_from_hashtable p1 b) b BUF_STATE_FREE)).
  { apply loose_change_state; [unfold BUF_STATE_FREE, BUF_STATE_ERROR; lia|]. by apply loose_unhash. }
  set (p2 := change_state (remove_from_hashtable p1 b) b BUF_STATE_FREE) in *.
  assert (Hb2 : bufs p2 b = b_state (b_locks (bufs p b) 0) BUF_STATE_FREE).
  { unfold p2. rewrite change_state_eq, Hun. cbn [p_bucket p_hashtable bufs]. by rewrite Hb1. }
  assert (Hok : pool_ok (p_freelist (p_chain p2 (set_pv (set_nx (chain p2) b (freelist p2)) b None)) (Some b))).
  { apply settle_free; [done| | |]; unfold no_waiters; rewrite Hb2; try done. exact (Hw Hio). }
  split; [by apply ok_bump|].
  split; [|split].
  - unfold p2. rewrite Hun. exact Hc1.
  - intros b' Hne. cbn [bump p_stats p_freelist p_chain bufs]. unfold p2. rewrite change_state_ne, Hun by done. by apply Ho1.
  - cbn [bump p_stats p_freelist p_chain bufs]. by rewrite Hb2.
Qed.

Context (enter_wait : bufpool K -> nat -> outcome (Z * bufpool K)) (Hwait : wait_contract enter_wait).

(** A buffer taken for block [n]: in the hash table and locked once. *)
Lemma enter_block b p n : loose false b p -> no_waiters p b -> locks (bufs p b) = 0 ->
  let p' := lock (insert_into_hashtable (set_buf p b (fun x => b_blkno x n)) b) b in
  loose true b p' /\ bufs p' b = b_locks (b_blkno (bufs p b) n) 1 /\ cfg p' = cfg p.
Proof.
  intros Hp Hw Hl p'. set (p1 := set_buf p b (fun x => b_blkno x n)).
  assert (Hb1 : bufs p1 b = b_blkno (bufs p b) n) by apply set_buf_eq.
  assert (Hlo : loose true b (insert_into_hashtable p1 b)).
  { apply loose_hash, loose_set_buf; [done|by right|done|done|left; simpl; lia]. }
  assert (Hlk : 0 <= locks (bufs (insert_into_hashtable p1 b) b) < 65535).
  { change (bufs (insert_into_hashtable p1 b) b) with (bufs p1 b). rewrite Hb1. simpl. lia. }
  pose proof (lock_eq _ b Hlk) as He. change (bufs (insert_into_hashtable p1 b) b) with (bufs p1 b) in He.
  rewrite Hb1 in He. cbn [b_blkno locks] in He. rewrite Hl in He. split; [|split; [exact He|done]].
  apply (loose_lock true (insert_into_hashtable p1 b)); [done|done|].
  change (bufs p1 b) with (bufs (insert_into_hashtable p1 b) b) in Hb1. unfold no_waiters. by rewrite Hb1.
Qed.

(** A lookup that found a buffer: an error is passed on and the buffer released. *)
Lemma found_or_error p b n (f : bufpool K -> bufpool K) :
  pool_ok p -> holds p b n -> pool_ok (f p) -> cfg (f p) = cfg p -> holds (f p) b n ->
  returns (if bstate (bufs p b) =? BUF_STATE_ERROR then p <~ release_buffer p b; Ret (None, p)
           else Ret (Some b, f p))
    (fun '(r, p') => pool_ok p' /\ cfg p' = cfg p /\ match r with Some b => holds p' b n | None => True end).
Proof.
  intros Hp [Hh Hn] H1 H2 H3. destruct (bstate (bufs p b) =? BUF_STATE_ERROR); [|done].
  by destruct (release_buffer_spec p b Hp Hh) as (p' & -> & Hp' & Hc & _).
Qed.

Lemma get_buffer_spec fuel p n : pool_ok p -> lockable p -> 0 < bufsize p ->
  returns (get_buffer enter_wait dev_read dev_write yield fuel p n) (fun '(r, p') => pool_ok p'
    /\ cfg p' = cfg p /\ match r with Some b => holds p' b n | None => True end).
Proof.
  intros Hp Hr Hbs. unfold get_buffer. eapply returns_bind; [by apply lookup_buffer_spec|].
  intros [[b|] p1] (Hp1 & Hc1 & H1).
  - eapply returns_weaken; [apply (found_or_error p1 b n (fun p => bump p CacheHits)); try done; by apply ok_bump|].
    intros [r p2] (J1 & J2 & J3). split; [done|]. split; [congruence|done].
  - destruct H1 as [-> _]. eapply returns_bind; [by apply get_new_buffer_spec|].
    intros [b p2] (H2 & Hc2 & Hw2 & Hl2). destruct (enter_block b p2 n H2 Hw2 Hl2) as (H3 & Hb3 & Hc3).
    cbv zeta. set (p3 := lock _ b) in *.
    eapply returns_bind; [apply read_buffer_spec; [done|by rewrite Hb3|by unfold no_waiters; rewrite Hb3]|].
    intros [rc p4] (Hp4 & Hc4 & Hh4 & Hn4 & _). rewrite Hb3 in Hn4.
    pose proof (cfg_trans _ _ _ Hc4 (cfg_trans _ _ _ Hc3 Hc2)) as Hc.
    destruct (rc <? 0).
    + destruct (release_buffer_spec p4 b Hp4 Hh4) as (p5 & -> & Hp5 & Hc5 & _). cbn [obind returns].
      split; [done|]. split; [congruence|done].
    + split; [by apply ok_bump|]. split; [exact Hc|]. by split.
Qed.

Lemma alloc_buffer_spec fuel p n : pool_ok p -> lockable p -> 0 < bufsize p ->
  returns (alloc_buffer enter_wait dev_write yield fuel p n) (fun '(r, p') => pool_ok p'
    /\ cfg p' = cfg p /\ match r with Some b => holds p' b n | None => True end).
Proof.
  intros Hp Hr Hbs. unfold alloc_buffer. eapply returns_bind; [by apply lookup_buffer_spec|].
  intros [[b|] p1] (Hp1 & Hc1 & H1).
  - eapply returns_weaken; [apply (found_or_error p1 b n (fun p => clear_data (bump p BlocksAllocated) b)); try done|].
    + by apply ok_data, ok_bump.
    + unfold holds, held, clear_data. rewrite set_buf_eq. exact H1.
    + intros [r p2] (J1 & J2 & J3). split; [done|]. split; [congruence|done].
  - destruct H1 as [-> _]. eapply returns_bind; [by apply get_new_buffer_spec|].
    intros [b p2] (H2 & Hc2 & Hw2 & Hl2). cbv zeta. cbn [returns].
    set (p3 := insert_into_hashtable (set_buf p2 b (fun x => b_blkno x n)) b).
    assert (Hb3 : bufs p3 b = b_blkno (bufs p2 b) n) by (change (bufs p3 b) with (bufs (set_buf p2 b (fun x => b_blkno x n)) b); apply set_buf_eq).
    set (p4 := clear_data p3 b). set (p5 := change_state p4 b BUF_STATE_LOCKED).
    assert (Hlo : loose true b p5).
    { apply loose_change_state; [unfold BUF_STATE_LOCKED, BUF_STATE_ERROR; lia|].
      apply loose_set_buf; [|by left|done|done|left; simpl; lia].
      apply loose_hash, loose_set_buf; [done|by right|done|done|left; simpl; lia]. }
    assert (Hb5 : exists d, bufs p5 b = Buf BUF_STATE_LOCKED 0 None n d).
    { eexists. unfold p5. rewrite change_state_eq. unfold p4, clear_data. rewrite set_buf_eq, Hb3.
      unfold b_data, b_state, b_blkno. simpl. rewrite Hl2. unfold no_waiters in Hw2. by rewrite Hw2. }
    destruct Hb5 as [d Hb5]. pose proof (lock_eq p5 b) as He. rewrite Hb5 in He. specialize (He ltac:(simpl; lia)).
    assert (Hw5 : no_waiters p5 b) by (unfold no_waiters; by rewrite Hb5).
    assert (Hh : holds (lock p5 b) b n).
    { unfold holds, held. rewrite He. split; [|done]. split; [|by left].
      by destruct Hlo as (? & ? & ? & ? & ? & _ & _ & _ & ? & _). }
    split; [|split; [exact Hc2|exact Hh]]. apply ok_bump, (loose_settle b); rewrite ?He; try done.
    + apply loose_lock; [done|rewrite Hb5; simpl; lia|done].
    + intros _. unfold no_waiters. by rewrite He.
Qed.

Lemma invalidate_buffer_spec p n : pool_ok p -> lockable p ->
  returns (invalidate_buffer enter_wait p n) (fun p' => pool_ok p' /\ cfg p' = cfg p).
Proof.
  intros Hp Hr. unfold invalidate_buffer. eapply returns_bind; [by apply lookup_buffer_spec|].
  intros [[b|] p1] (Hp1 & Hc1 & H1); [|by destruct H1 as [-> _]]. destruct H1 as [Hh _].
  assert (H2 : pool_ok (mark_buffer_invalid p1 b) /\ held (mark_buffer_invalid p1 b) b).
  { unfold mark_buffer_invalid. destruct (_ || _); [|done].
    apply ok_restate; [done|done|apply (held_locks p1 b); done|by right; right]. }
  destruct H2 as [H2 H3]. destruct (release_buffer_spec _ b H2 H3) as (p' & -> & Hp' & Hc & _).
  split; [done|]. rewrite Hc. unfold mark_buffer_invalid. by destruct (_ || _).
Qed.

Lemma flush_loop_spec fuel i : forall p, pool_ok p -> 0 < bufsize p ->
  returns (flush_loop dev_write fuel p i) (fun '(rc, p') => pool_ok p' /\ cfg p' = cfg p).
Proof.
  induction fuel as [|fuel IH]; intros p Hp Hbs; simpl; destruct (first (dirty p)) as [b|] eqn:Hd; try done.
  destruct (i && truthy (ioactive p)); [done|].
  pose proof Hp as (F & C & D & Hs & Wt & Hi). pose proof (pi_lists _ _ _ _ _ _ _ Hi) as Hl.
  rewrite (dl_first _ _ _ (lo_dirty _ _ _ _ _ Hl)) in Hd. destruct D as [|b' D]; [done|]. injection Hd as ->.
  assert (Hb : (b < poolsize p)%nat) by (apply (lo_bound _ _ _ _ _ Hl); left; set_solver).
  assert (Hst : bstate (bufs p b) = BUF_STATE_DIRTY).
  { apply (bo_dirty _ _ _ _ _ _ (pi_bufs _ _ _ _ _ _ _ Hi b Hb ltac:(done))). set_solver. }
  eapply returns_bind; [by apply write_buffer_spec|]. intros [rc p1] (H1 & Hc1 & Hw1 & Hl1 & Hst1 & _).
  destruct (cfg_size _ _ Hc1) as [_ Hbs1]. destruct (Z.ltb_spec rc 0).
  - split; [|done]. apply (written_ok p1 b); try done. left. rewrite Hst1.
    by rewrite (proj2 (Z.eqb_neq rc (bufsize p))) by lia.
  - cbv zeta. set (p2 := bump p1 BlocksLazywrite).
    set (p3 := if locks (bufs p2 b) =? 0 then append_clean (change_state p2 b BUF_STATE_CLEAN) b else p2).
    assert (Hp3 : pool_ok p3 /\ cfg p3 = cfg p1).
    { unfold p3. change (bufs p2 b) with (bufs p1 b). destruct (Z.eqb_spec (locks (bufs p1 b)) 0) as [E|E].
      - split; [|by destruct (append_clean_shape (change_state p2 b BUF_STATE_CLEAN) b) as (k & q & ->)].
        apply settle_clean; unfold no_waiters; rewrite ?change_state_eq; try done.
        apply loose_change_state; [unfold BUF_STATE_CLEAN, BUF_STATE_ERROR; lia|]. by apply loose_bump.
      - split; [|done]. apply ok_bump, (written_ok p1 b); try done. rewrite Hst1.
        destruct (rc =? bufsize p); [by right|by left]. }
    destruct Hp3 as [Hp3 Hc3]. destruct (cfg_size _ _ Hc3) as [_ Hbs3].
    assert (Hbs' : 0 < bufsize p3) by (by rewrite Hbs3, Hbs1).
    eapply returns_weaken; [exact (IH p3 Hp3 Hbs')|].
    intros [rc' p4] [J1 J2]. split; [done|]. congruence.
Qed.

(** Transfers return to a pool whose buffers can be locked once more. *)
Context (Hroom : forall p b blk rc p', dev_write p b blk = Ret (rc, p') -> lockable p').
Context (sync : bufpool K -> outcome (bufpool K)) (time : bufpool K -> Z).

Lemma sync_loop_spec i bs : forall p, pool_ok p -> lockable p -> (forall b, b ∈ bs -> (b < poolsize p)%nat) ->
  returns (sync_loop dev_write time p i bs) (fun '(rc, p') => pool_ok p' /\ cfg p' = cfg p).
Proof.
  induction bs as [|b bs IH]; intros p Hp Hr Hbs; simpl.
  { split; [|done]. apply (pool_ok_ext p); try done. exact (ok_kinv p Hp). }
  destruct (Z.eqb_spec (bstate (bufs p b)) BUF_STATE_UPDATED) as [E|E]; [|apply IH; set_solver].
  destruct (i && truthy (ioactive p)); [done|].
  assert (Hh : held p b) by (split; [apply Hbs; set_solver|by right; left]).
  destruct (ok_lock p b Hp Hh (Hr b (proj1 Hh))) as (H1 & H2 & _).
  pose proof (Hwrite (lock p b) b (u32 (blkno (bufs (lock p b) b) * blks_per_buffer (lock p b))) H1 (proj1 H2)) as Hret.
  assert (Hblk : blkno (bufs (lock p b) b) = blkno (bufs p b)) by (unfold lock; by rewrite set_buf_eq).
  rewrite Hblk in Hret. change (blks_per_buffer (lock p b)) with (blks_per_buffer p) in Hret.
  destruct (dev_write (lock p b) b _) as [[rc p1]| | |] eqn:Hdw; try done. cbn [obind].
  destruct Hret as (H3 & H4 & [_ H5]). destruct (H5 H2) as [H6 _]. destruct (rc <? 0); [done|].
  set (p2 := bump (bump p1 BlocksWritten) BlocksSynched).
  assert (Hp2 : pool_ok p2) by (by do 2 apply ok_bump).
  destruct (ok_restate p2 b BUF_STATE_LOCKED Hp2 H6) as [H7 H8]; [exact (proj1 (held_locks p1 b H3 H6))|by left|].
  destruct (release_buffer_spec _ b H7 H8) as (p4 & Hrel & Hp4 & Hc4 & Ho4 & Hb4). rewrite Hrel. cbn [obind].
  assert (Hc : cfg p4 = cfg p) by (rewrite Hc4; exact H4). destruct (cfg_size _ _ Hc) as [Hsz _].
  eapply returns_weaken; [apply IH|].
  - done.
  - intros b' Hb'. rewrite Hsz in Hb'. pose proof (Hroom _ _ _ _ _ Hdw b') as Hrb.
    destruct (cfg_size _ _ H4) as [Hs1 _]. rewrite Hs1 in Hrb. change (poolsize (lock p b)) with (poolsize p) in Hrb.
    specialize (Hrb Hb'). destruct (decide (b' = b)) as [->|Hne].
    + rewrite Hb4, change_state_eq. cbn [b_locks locks b_state]. change (bufs p2 b) with (bufs p1 b). lia.
    + rewrite Ho4, change_state_ne by done. exact Hrb.
  - intros b' Hb'. rewrite Hsz. apply Hbs. set_solver.
  - intros [rc' p5] [J1 J2]. split; [done|congruence].
Qed.

Context (Hsync : forall p, pool_ok p -> returns (sync p) (fun p' => pool_ok p' /\ cfg p' = cfg p /\ lockable p')).

Lemma sync_buffers_spec i p : pool_ok p ->
  returns (sync_buffers dev_write sync time p i) (fun '(rc, p') => pool_ok p' /\ cfg p' = cfg p).
Proof.
  intros Hp. unfold sync_buffers. destruct (truthy (nosync p)); [done|].
  eapply returns_bind; [by apply Hsync|]. intros p1 (H1 & H2 & H3). destruct (_ =? 0).
  { split; [|done]. apply (pool_ok_ext p1); try done. exact (ok_kinv p1 H1). }
  eapply returns_weaken; [apply sync_loop_spec; [by apply ok_ioactive|done|]|].
  - intros b Hb%elem_of_seq. simpl. lia.
  - intros [rc p2] [J1 J2]. split; [done|]. rewrite J2. exact H2.
Qed.

(** The operations of the file systems and of the lazy writer on a pool; [Store] is the
    store of a holder through [buf->data]. *)
Inductive pool_op :=
  | Get (n : Z) | Alloc (n : Z) | Release (b : nat) | Updated (b : nat) | Invalid (b : nat)
  | Store (b : nat) (d : list Z) | Invalidate (n : Z) | Flush (i : bool) | Sync (i : bool).

Definition exec_pool (fuel : nat) p (op : pool_op) : outcome (bufpool K) :=
  match op with
  | Get n => '(_, p) <~ get_buffer enter_wait dev_read dev_write yield fuel p n; Ret p
  | Alloc n => '(_, p) <~ alloc_buffer enter_wait dev_write yield fuel p n; Ret p
  | Release b => release_buffer p b
  | Updated b => Ret (mark_buffer_updated p b)
  | Invalid b => Ret (mark_buffer_invalid p b)
  | Store b d => Ret (set_buf p b (fun x => b_data x d))
  | Invalidate n => invalidate_buffer enter_wait p n
  | Flush i => '(_, p) <~ flush_buffers dev_write fuel p i; Ret p
  | Sync i => '(_, p) <~ sync_buffers dev_write sync time p i; Ret p
  end.

(** Buffers are released and marked by threads that hold them, and no lock overflows. *)
Definition allowed p (op : pool_op) : Prop :=
  match op with
  | Release b | Updated b | Invalid b | Store b _ => held p b
  | Get _ | Alloc _ | Invalidate _ => lockable p
  | Flush _ | Sync _ => True
  end.

Inductive pool_step : bufpool K -> bufpool K -> Prop :=
  | PoolStep fuel p op p' : allowed p op -> exec_pool fuel p op = Ret p' -> pool_step p p'.

Lemma exec_pool_spec fuel p op : pool_ok p -> 0 < bufsize p -> allowed p op ->
  returns (exec_pool fuel p op) (fun p' => pool_ok p' /\ cfg p' = cfg p).
Proof.
  intros Hp Hbs Ha. destruct op as [n|n|b|b|b|b d|n|i|i]; cbn [exec_pool allowed] in *.
  - eapply returns_bind; [by apply get_buffer_spec|]. by intros [r p'] (? & ? & _).
  - eapply returns_bind; [by apply alloc_buffer_spec|]. by intros [r p'] (? & ? & _).
  - by destruct (release_buffer_spec p b Hp Ha) as (p' & -> & ? & ? & _).
  - unfold mark_buffer_updated. destruct (_ || _); [|done]. split; [|done].
    apply ok_restate; [done|done|apply (held_locks p b); done|by right; left].
  - unfold mark_buffer_invalid. destruct (_ || _); [|done]. split; [|done].
    apply ok_restate; [done|done|apply (held_locks p b); done|by right; right].
  - split; [by apply ok_data|done].
  - by apply invalidate_buffer_spec.
  - unfold flush_buffers. destruct (truthy (nosync p)); [done|].
    eapply returns_bind; [apply flush_loop_spec; [by apply ok_ioactive|done]|]. by intros [rc p'] [].
  - eapply returns_bind; [by apply sync_buffers_spec|]. by intros [rc p'] [].
Qed.

(** A hit on a buffer that is at rest or held. *)
Lemma lookup_hit p n b : pool_ok p -> lockable p -> cached p n b -> (forall b', cached p n b' -> b' = b) ->
  ~ in_io (bstate (bufs p b)) -> bstate (bufs p b) <= BUF_STATE_UPDATED ->
  exists p', lookup_buffer enter_wait p n = Ret (Some b, p') /\
    bufs p' b = b_locks (b_state (bufs p b) (if bstate (bufs p b) =? BUF_STATE_CLEAN then BUF_STATE_LOCKED
      else if bstate (bufs p b) =? BUF_STATE_DIRTY then BUF_STATE_UPDATED else bstate (bufs p b)))
      (locks (bufs p b) + 1)
    /\ forall b', b' <> b -> bufs p' b' = bufs p b'.
Proof.
  clear time Hsync sync.
  intros Hp Hr (Hb & Hst & Hn) Huniq Hio Hle. unfold lookup_buffer.
  destruct (find_cached p n Hp) as ([b0|] & -> & Hb0); [|by destruct (Hb0 b)].
  rewrite (Huniq b0 Hb0) in *. clear Hb0 Huniq. cbn [obind].
  destruct (ok_buf p b Hp Hb) as (Hrng & Hlk & Hw). pose proof (Hr b Hb) as Hlt. specialize (Hw Hio).
  assert (Hother : forall p1, bufs p1 = bufs p -> forall s b', b' <> b ->
    bufs (lock (unchain (change_state p1 b s) b) b) b' = bufs p b').
  { intros p1 E s b' Hne. unfold lock. rewrite set_buf_ne by done. change (bufs (unchain ?q b)) with (bufs q).
    by rewrite change_state_ne, E. }
  rewrite (proj2 (Z.eqb_neq (bstate (bufs p b)) BUF_STATE_FREE)) by done.
  destruct (Z.eqb_spec (bstate (bufs p b)) BUF_STATE_CLEAN) as [E|N1].
  { eexists. split; [reflexivity|]. rewrite E in Hlk.
    assert (Hsh : bufs (remove_clean p b) = bufs p) by (by destruct (remove_clean_shape p b) as (k & q & ->)).
    destruct (settle_locked p (remove_clean p b) b BUF_STATE_LOCKED) as [_ ->]; try done; [by apply leave_clean|by left|].
    split; [|by apply Hother]. assert (locks (bufs p b) = 0) as -> by exact Hlk. done. }
  destruct (Z.eqb_spec (bstate (bufs p b)) BUF_STATE_DIRTY) as [E|N2].
  { eexists. split; [reflexivity|]. rewrite E in Hlk.
    assert (Hsh : bufs (remove_dirty p b) = bufs p) by (by destruct (remove_dirty_shape p b) as (k & q & ->)).
    destruct (settle_locked p (remove_dirty p b) b BUF_STATE_UPDATED) as [_ ->]; try done; [by apply leave_dirty|by right|].
    split; [|by apply Hother]. assert (locks (bufs p b) = 0) as -> by exact Hlk. done. }
  assert (Hor : ((bstate (bufs p b) =? BUF_STATE_READING) || (bstate (bufs p b) =? BUF_STATE_WRITING)) = false).
  { apply orb_false_iff. split; apply Z.eqb_neq; intros E; apply Hio; [by left|by right]. }
  rewrite Hor. assert (Hlu : ((bstate (bufs p b) =? BUF_STATE_LOCKED) || (bstate (bufs p b) =? BUF_STATE_UPDATED)) = true).
  { apply orb_true_iff. rewrite !Z.eqb_eq. unfold in_io in Hio.
    unfold BUF_STATE_FREE, BUF_STATE_CLEAN, BUF_STATE_DIRTY, BUF_STATE_READING, BUF_STATE_WRITING, BUF_STATE_LOCKED, BUF_STATE_UPDATED in *. lia. }
  rewrite Hlu. eexists. split; [reflexivity|].
  assert (Hh : held p b) by (split; [done|]; apply orb_true_iff in Hlu as [?%Z.eqb_eq|?%Z.eqb_eq]; naive_solver).
  destruct (ok_lock p b Hp Hh Hlt) as (_ & _ & ->). split; [by destruct (bufs p b)|].
  intros b' Hne. unfold lock. by apply set_buf_ne.
Qed.

(** ** Claims *)

(** C5: the invariant of a pool: every buffer is in the list of its state (free, clean,
    dirty) and in the hash chain of its block unless it is free, is locked exactly when it
    is in use, and the counts by state are right; whatever other threads do within the
    contract while a thread transfers a block or waits, every operation keeps the
    invariant, no operation faults, and so for all sequences of operations. *)
Theorem pool_invariant p : pool_ok p -> 0 < bufsize p ->
  (forall fuel op, allowed p op -> exec_pool fuel p op <> Fault)
  /\ forall p', rtc pool_step p p' -> pool_ok p' /\ cfg p' = cfg p.
Proof.
  intros Hp Hbs. split.
  - intros fuel op Ha He. pose proof (exec_pool_spec fuel p op Hp Hbs Ha) as Hr. by rewrite He in Hr.
  - intros p' Hs. induction Hs as [|p p1 p2 [fuel q op q' Ha He] _ IH]; [done|].
    pose proof (exec_pool_spec fuel q op Hp Hbs Ha) as Hr. rewrite He in Hr. destruct Hr as [H1 H2].
    destruct (cfg_size _ _ H2) as [_ Hb2]. destruct IH as [J1 J2]; [done|by rewrite Hb2|].
    split; [done|congruence].
Qed.


(** [release_buffer] takes one lock off; with the last one a buffer in use becomes
    clean, an updated one dirty, an invalid one or one in error free; the invariant is
    kept and no other buffer changes. *)
Lemma release_buffer_correct p b : pool_ok p -> held p b -> exists p',
  release_buffer p b = Ret p' /\ pool_ok p'
  /\ (forall b', b' <> b -> bufs p' b' = bufs p b')
  /\ bufs p' b = b_locks (b_state (bufs p b) (if locks (bufs p b) =? 1 then
         if bstate (bufs p b) =? BUF_STATE_LOCKED then BUF_STATE_CLEAN
         else if bstate (bufs p b) =? BUF_STATE_UPDATED then BUF_STATE_DIRTY else BUF_STATE_FREE
       else bstate (bufs p b))) (locks (bufs p b) - 1).
Proof.
  intros Hp Hh. destruct (release_buffer_spec p b Hp Hh) as (p' & H1 & H2 & _ & H3 & H4). by exists p'.
Qed.

(** When the device refuses a block, [sync_buffers] returns the error with the lock it
    took on the buffer still in place: nothing ever releases it. *)
Lemma sync_error_keeps_lock p b bs i rc :
  bstate (bufs p b) = BUF_STATE_UPDATED -> 0 <= locks (bufs p b) < 65535 ->
  i && truthy (ioactive p) = false -> rc < 0 ->
  (forall q blk, dev_write q b blk = Ret (rc, q)) ->
  exists p', sync_loop dev_write time p i (b :: bs) = Ret (rc, p')
    /\ locks (bufs p' b) = locks (bufs p b) + 1 /\ bstate (bufs p' b) = BUF_STATE_UPDATED.
Proof.
  intros Hst Hl Hi Hrc Hdev. simpl. rewrite Hst, Hi, Hdev. change (BUF_STATE_UPDATED =? BUF_STATE_UPDATED) with true.
  cbn [obind]. rewrite (proj2 (Z.ltb_lt rc 0) Hrc). exists (lock p b). split; [done|].
  rewrite lock_eq by done. by split.
Qed.
End Invariant.

(** ** A pool right after its creation *)

Lemma init_pool_ok {K} `{KernelServices K} (k : K) size bsize blksize now :
  kinv k -> (0 < size)%nat -> Z.of_nat size < 2 ^ 31 -> 0 < blksize ->
  exists p, init_buffer_pool k size bsize blksize now true true true = Ret (Some p) /\ pool_ok p
    /\ poolsize p = size /\ bufsize p = bsize.
Proof.
  intros Hk Hsz Hlt Hblk. unfold init_buffer_pool. rewrite (proj2 (Z.ltb_ge blksize 0)) by lia.
  rewrite (proj2 (Z.eqb_neq blksize 0)) by lia. cbn [negb]. eexists. split; [reflexivity|]. split; [|done].
  exists (seq 0 size), [], [], (fun _ => []), (fun _ => []). split; try done.
  - split; try done; [|apply dl_nil|apply dl_nil|rewrite app_nil_r; apply NoDup_seq|intros; apply dl_nil|set_solver|].
    + cbn [freelist chain nx]. destruct size as [|n]; [lia|].
      apply (seg_intro _ (seq 0 (S n)) None). intros i x Hi. apply lookup_seq in Hi as [-> Hi]. simpl (0 + i)%nat.
      destruct (Nat.ltb_spec i (S n)); [|lia]. destruct (Nat.eqb_spec (S i) (S n)) as [E|E].
      * rewrite lookup_seq_ge by lia. done.
      * rewrite lookup_seq_lt by lia. done.
    + intros b [Hb|Hb]; [|set_solver]. rewrite app_nil_r in Hb. apply elem_of_seq in Hb. simpl. lia.
  - intros s Hs. cbn [bufcount]. unfold count_state. cbn [bufs poolsize bstate].
    destruct (decide (s = BUF_STATE_FREE)) as [->|Hne].
    + rewrite fn_lookup_insert. unfold countb. rewrite filter_id by done. by rewrite length_seq.
    + rewrite fn_lookup_insert_ne by done. rewrite (proj2 (countb_zero _ _)); [done|].
      apply Forall_forall. intros x _. apply Z.eqb_neq. unfold BUF_STATE_FREE in Hne. lia.
  - split; try done; [intros b; apply NoDup_nil_2|set_solver|set_solver].
  - intros b Hb _. cbn [poolsize] in Hb. split; simpl; try done; try set_solver.
    split; [done|]. intros _. apply elem_of_seq. lia.
Qed.

(** ** Witnesses

    Two buffers over the kernel of Object.v; a device that answers at once. *)

Definition ex_event : oid := Addr 10.
#[local] Instance ex_services : KernelServices kernel := kernel_services ex_event 5.

Definition or_else {A} (o : outcome A) (d : A) : A := match o with Ret a => a | _ => d end.

Lemma or_else_eq {A} (o : outcome A) d : match o with Ret _ => true | _ => false end = true -> o = Ret (or_else o d).
Proof. by destruct o. Qed.

Definition ex_empty : bufpool kernel :=
  BufPool 0 0 0 0 0 0 (fun _ => 0) no_ends no_ends None (fun _ => 0) (fun _ => None) (fun _ => Buf 0 0 None 0 [])
    no_links no_links (fun _ => None) (ex_base ex_sched).

Definition ex_pool : bufpool kernel :=
  default ex_empty (or_else (init_buffer_pool (ex_base ex_sched) 2 512 512 0 true true true) None).

Lemma ex_kinv : kinv (ex_base ex_sched).
Proof.
  exists (fun _ => []), (fun _ => []). split.
  - apply ex_base_waits.
  - split; [exists ex_queues; exact ex_sched_ready|]. by left.
  - apply NoDup_nil_2.
  - simpl. lia.
Qed.

Lemma ex_pool_ok : pool_ok ex_pool /\ bufsize ex_pool = 512.
Proof.
  destruct (init_pool_ok (ex_base ex_sched) 2 512 512 0 ex_kinv) as (p & Hp & Hok & _ & Hb); [lia|lia|lia|].
  unfold ex_pool. rewrite Hp. by split.
Qed.

Definition roomy (p : bufpool kernel) : bool :=
  forallb (fun b => locks (bufs p b) <? 65535) (seq 0 (poolsize p)).
Definition quiet_io (p : bufpool kernel) (b : nat) (blk : Z) : outcome (Z * bufpool kernel) :=
  if roomy p then Ret (bufsize p, p) else Diverge.
Definition no_wait (p : bufpool kernel) (b : nat) : outcome (Z * bufpool kernel) := Diverge.
Definition no_yield (p : bufpool kernel) : outcome (bufpool kernel) := Ret p.
Definition no_sync (p : bufpool kernel) : outcome (bufpool kernel) := if roomy p then Ret p else Diverge.

Lemma roomy_lockable p : roomy p = true -> lockable p.
Proof.
  intros Hr b Hb. unfold roomy in Hr. rewrite forallb_forall in Hr. apply Z.ltb_lt, Hr, in_seq. lia.
Qed.

Lemma quiet_io_ok : io_contract quiet_io.
Proof. intros p b blk Hp Hb. unfold quiet_io. destruct (roomy p); [|done]. split; [done|]. split; [done|]. by split. Qed.
Lemma quiet_io_room p b blk rc p' : quiet_io p b blk = Ret (rc, p') -> lockable p'.
Proof. unfold quiet_io. destruct (roomy p) eqn:Hr; [|done]. intros [= _ <-]. by apply roomy_lockable. Qed.
Lemma no_wait_ok : wait_contract no_wait.
Proof. by intros p b Hp Hb Hio. Qed.
Lemma no_yield_ok : switch_contract no_yield.
Proof. by intros p Hp. Qed.
Lemma no_sync_ok p : pool_ok p -> returns (no_sync p) (fun p' => pool_ok p' /\ cfg p' = cfg p /\ lockable p').
Proof. intros Hp. unfold no_sync. destruct (roomy p) eqn:Hr; [|done]. split; [done|]. split; [done|]. by apply roomy_lockable. Qed.

Definition ex_exec (p : bufpool kernel) (op : pool_op) : bufpool kernel :=
  or_else (exec_pool quiet_io quiet_io no_yield no_wait no_sync (fun _ => 0) 5 p op) p.
Definition ex_got : bufpool kernel := ex_exec ex_pool (Get 5).
Definition ex_updated : bufpool kernel := ex_exec ex_got (Updated 0).
Definition ex_dirty : bufpool kernel := ex_exec ex_updated (Release 0).

Lemma ex_exec_ok p op : pool_ok p -> 0 < bufsize p -> allowed p op -> pool_ok (ex_exec p op).
Proof.
  intros Hp Hb Ha. unfold ex_exec.
  pose proof (exec_pool_spec _ _ quiet_io_ok quiet_io_ok _ no_yield_ok _ no_wait_ok quiet_io_room _ (fun _ => 0)
    no_sync_ok 5 p op Hp Hb Ha) as Hr.
  destruct (exec_pool _ _ _ _ _ _ _ _ _); try done. by destruct Hr.
Qed.

Lemma ex_lockable : lockable ex_pool /\ lockable ex_got.
Proof. split; apply roomy_lockable; by vm_compute. Qed.

Lemma ex_got_ok : pool_ok ex_got.
Proof. apply ex_exec_ok; [apply ex_pool_ok|by vm_compute|apply ex_lockable]. Qed.

Lemma ex_held : held ex_got 0.
Proof. split; [vm_compute; lia|]. left. by vm_compute. Qed.

Lemma pool_invariant_witness :
  exists p', rtc (pool_step quiet_io quiet_io no_yield no_wait no_sync (fun _ => 0)) ex_pool p'
    /\ bstate (bufs p' 0) = BUF_STATE_DIRTY /\ pool_ok p'.
Proof.
  assert (Hrun : rtc (pool_step quiet_io quiet_io no_yield no_wait no_sync (fun _ => 0)) ex_pool ex_dirty).
  { apply (rtc_l _ _ ex_got); [|apply (rtc_l _ _ ex_updated); [|apply rtc_once]].
    - apply (PoolStep _ _ _ _ _ _ 5 _ (Get 5)); [apply ex_lockable|]. apply or_else_eq. by vm_compute.
    - apply (PoolStep _ _ _ _ _ _ 5 _ (Updated 0)); [exact ex_held|]. apply or_else_eq. by vm_compute.
    - apply (PoolStep _ _ _ _ _ _ 5 _ (Release 0)); [|apply or_else_eq; by vm_compute].
      split; [vm_compute; lia|]. right; left. by vm_compute. }
  exists ex_dirty. split; [exact Hrun|]. split; [by vm_compute|].
  exact (proj1 (proj2 (pool_invariant _ _ quiet_io_ok quiet_io_ok _ no_yield_ok _ no_wait_ok quiet_io_room _ (fun _ => 0)
    no_sync_ok ex_pool (proj1 ex_pool_ok) ltac:(by vm_compute)) ex_dirty Hrun)).
Defined.


(** ** A block in two buffers

    While [get_new_buffer] writes out a dirty buffer, another thread releases buffer 1
    and gets the same block. *)

Definition ex_full : bufpool kernel := ex_exec ex_dirty (Get 6).

Definition busy_write (p : bufpool kernel) (b : nat) (blk : Z) : outcome (Z * bufpool kernel) :=
  p <~ release_buffer p 1;
  '(_, p) <~ get_buffer no_wait quiet_io quiet_io no_yield 5 p 7;
  Ret (bufsize p, p).

(** [get_buffer] can put one block into two buffers: the block is looked up once,
    before [get_new_buffer], and while that waits for a dirty buffer to be written
    another thread that wants the same block can bring it in. *)
Lemma get_buffer_duplicates :
  pool_ok ex_full /\ exists p', get_buffer no_wait quiet_io busy_write no_yield 5 ex_full 7 = Ret (Some 0%nat, p')
    /\ cached p' 7 0 /\ cached p' 7 1.
Proof.
  split.
  - apply ex_exec_ok; [|by vm_compute|apply roomy_lockable; by vm_compute].
    apply ex_exec_ok; [|by vm_compute|split; [vm_compute; lia|right; left; by vm_compute]].
    apply ex_exec_ok; [apply ex_got_ok|by vm_compute|exact ex_held].
  - set (o := get_buffer _ _ _ _ _ _ _).
    assert (Ho : match o with Ret (Some 0%nat, p) => forallb (fun b => (b <? poolsize p)%nat
        && negb (bstate (bufs p b) =? BUF_STATE_FREE) && (blkno (bufs p b) =? 7)) [0%nat; 1%nat] | _ => false end = true)
      by (by vm_compute).
    destruct o as [[[[|]|] p]| | |]; try done. exists p. split; [done|].
    rewrite forallb_forall in Ho. unfold cached.
    pose proof (Ho 0%nat ltac:(by left)) as H0. pose proof (Ho 1%nat ltac:(by right; left)) as H1. zify_bool.
    tauto.
Qed.
