(* ===== verification/Ctype.v ===== *)
(** * Ctype: character classes, src/src/lib/ctype.c and src/src/include/ctype.h

    The table of flags by character, and the macros that look a character up.  [_pctype] is
    the table without its first entry, the one of EOF, so that a character is its index. *)

From S2P Require Import Prelude.
Local Open Scope krlean_scope.

Definition _UPPER : Z := 0x1.
Definition _LOWER : Z := 0x2.
Definition _DIGIT : Z := 0x4.
Definition _SPACE : Z := 0x8.
Definition _PUNCT : Z := 0x10.
Definition _CONTROL : Z := 0x20.
Definition _BLANK : Z := 0x40.
Definition _HEX : Z := 0x80.

(** The array of 257 entries, by its runs. *)
Definition _ctype : list Z :=
  [0] ++ replicate 9 _CONTROL ++ replicate 5 (_SPACE + _CONTROL) ++ replicate 18 _CONTROL ++
  [_SPACE + _BLANK] ++ replicate 15 _PUNCT ++ replicate 10 (_DIGIT + _HEX) ++ replicate 7 _PUNCT ++
  replicate 6 (_UPPER + _HEX) ++ replicate 20 _UPPER ++ replicate 6 _PUNCT ++
  replicate 6 (_LOWER + _HEX) ++ replicate 20 _LOWER ++ replicate 4 _PUNCT ++ [_CONTROL] ++
  replicate 128 0.

Definition _pctype (c : Z) : Z := default 0 (_ctype !! Z.to_nat (c + 1)).

Definition isalpha (c : Z) : bool := truthy (Z.land (_pctype (u8 c)) (Z.lor _UPPER _LOWER)).
Definition isupper (c : Z) : bool := truthy (Z.land (_pctype (u8 c)) _UPPER).
Definition islower (c : Z) : bool := truthy (Z.land (_pctype (u8 c)) _LOWER).
Definition isdigit (c : Z) : bool := truthy (Z.land (_pctype (u8 c)) _DIGIT).
Definition isxdigit (c : Z) : bool := truthy (Z.land (_pctype (u8 c)) _HEX).
Definition isspace (c : Z) : bool := truthy (Z.land (_pctype (u8 c)) _SPACE).
Definition ispunct (c : Z) : bool := truthy (Z.land (_pctype (u8 c)) _PUNCT).
Definition isalnum (c : Z) : bool := truthy (Z.land (_pctype (u8 c)) (Z.lor (Z.lor _UPPER _LOWER) _DIGIT)).
Definition tolower (c : Z) : Z := if isupper c then c - 65 + 97 else c.
Definition toupper (c : Z) : Z := if islower c then c - 97 + 65 else c.

(** [isctype] of a byte by its value. *)
Lemma u8_cast c b : 0 <= b < 256 -> c = b \/ c = s8 b -> u8 c = b.
Proof.
  intros Hb. unfold u8, s8, uwrap, swrap. change (2 ^ 8) with 256. change (2 ^ (8 - 1)) with 128.
  intros [->| ->]; [lia_mod|]. destruct (b mod 256 <? 128) eqn:Hlt; zify_bool; lia_mod.
Qed.

(** A fact about all bytes is decided by the table. *)
Lemma byte_forall (f : Z -> bool) : forallb (fun k => f (Z.of_nat k)) (seq 0 256) = true ->
  forall b, 0 <= b < 256 -> f b = true.
Proof.
  intros Hf b Hb. rewrite forallb_forall in Hf. specialize (Hf (Z.to_nat b)).
  rewrite Z2Nat.id in Hf by lia. apply Hf, in_seq. lia.
Qed.

Lemma byte_eqb (f g : Z -> bool) :
  forallb (fun k => Bool.eqb (f (Z.of_nat k)) (g (Z.of_nat k))) (seq 0 256) = true ->
  forall b, 0 <= b < 256 -> f b = g b.
Proof. intros Hf b Hb. apply eqb_prop. by apply (byte_forall (fun b => Bool.eqb (f b) (g b))). Qed.

Definition in_byte_range (lo hi b : Z) : bool := (lo <=? b) && (b <=? hi).

Lemma isdigit_byte b : 0 <= b < 256 -> isdigit b = in_byte_range 48 57 b.
Proof. apply (byte_eqb isdigit (in_byte_range 48 57)). by vm_compute. Qed.

Lemma isalpha_byte b : 0 <= b < 256 -> isalpha b = in_byte_range 65 90 b || in_byte_range 97 122 b.
Proof. apply (byte_eqb isalpha (fun b => in_byte_range 65 90 b || in_byte_range 97 122 b)). by vm_compute. Qed.

Lemma islower_byte b : 0 <= b < 256 -> islower b = in_byte_range 97 122 b.
Proof. apply (byte_eqb islower (in_byte_range 97 122)). by vm_compute. Qed.

Lemma isspace_byte b : 0 <= b < 256 -> isspace b = in_byte_range 9 13 b || (b =? 32).
Proof. apply (byte_eqb isspace (fun b => in_byte_range 9 13 b || (b =? 32))). by vm_compute. Qed.

Lemma class_cast (f : Z -> bool) c b : (forall x, f x = f (u8 x)) -> 0 <= b < 256 -> c = b \/ c = s8 b -> f c = f b.
Proof. intros Hf Hb Hc. rewrite (Hf c), (Hf b), (u8_cast c b Hb Hc), (u8_cast b b Hb); auto. Qed.

Lemma u8_u8 c : u8 (u8 c) = u8 c.
Proof. unfold u8, uwrap. by rewrite Z.mod_mod. Qed.

Lemma isdigit_u8 c : isdigit c = isdigit (u8 c). Proof. unfold isdigit. by rewrite u8_u8. Qed.
Lemma isalpha_u8 c : isalpha c = isalpha (u8 c). Proof. unfold isalpha. by rewrite u8_u8. Qed.
Lemma isspace_u8 c : isspace c = isspace (u8 c). Proof. unfold isspace. by rewrite u8_u8. Qed.
