(* ===== verification/Strtol.v ===== *)
(** * Strtol: numbers in strings, src/src/lib/strtol.c and src/src/lib/xtoa.c

    A string is an array of bytes with a NUL in it; a read outside the array faults.  A
    conversion returns its value, the offset that it stores through [endptr] (if that is
    not NULL), and whether it sets [errno] to [ERANGE]. *)

From S2P Require Import Prelude Ctype.
Local Open Scope krlean_scope.

Definition INT32_MIN : Z := - 2147483648.
Definition INT32_MAX : Z := 2147483647.
Definition UINT32_MAX : Z := 0xFFFFFFFF.
Definition INT64_MIN : Z := - 9223372036854775808.
Definition INT64_MAX : Z := 9223372036854775807.
Definition UINT64_MAX : Z := 0xFFFFFFFFFFFFFFFF.

Definition u64 (x : Z) : Z := uwrap 64 x.
Definition s64 (x : Z) : Z := swrap 64 x.

(** [*p] *)
Definition rd (s : list Z) (p : Z) : outcome Z :=
  if p <? 0 then Fault else deref (s !! Z.to_nat p).

(** The parts that [strtoxl] and [strtoxll] share; [cast] is the conversion to the type of
    the variable [c], [char] in the one and [int] in the other. *)
Section Scan.
Context (cast : Z -> Z) (s : list Z).

(** [c = *p++], but for the increment *)
Definition get (p : Z) : outcome Z := b <~ rd s p; Ret (cast b).

Fixpoint skip_space (fuel : nat) (c p : Z) : outcome (Z * Z) :=
  if isspace c then
    match fuel with
    | O => Diverge
    | S fuel => c <~ get p; skip_space fuel c (p + 1)
    end
  else Ret (c, p).

Definition skip_sign (c p : Z) : outcome (bool * Z * Z) :=
  if c =? 45 then c <~ get p; Ret (true, c, p + 1)
  else if c =? 43 then c <~ get p; Ret (false, c, p + 1)
  else Ret (false, c, p).

Definition is_x (b : Z) : bool := (b =? 120) || (b =? 88).

Definition pick_base (ibase c p : Z) : outcome Z :=
  if ibase =? 0 then
    if negb (c =? 48) then Ret 10 else b <~ rd s p; Ret (if is_x b then 16 else 8)
  else Ret ibase.

Definition skip_prefix (ibase c p : Z) : outcome (Z * Z) :=
  if (ibase =? 16) && (c =? 48) then
    b <~ rd s p;
    if is_x b then c <~ get (p + 1); Ret (c, p + 2) else Ret (c, p)
  else Ret (c, p).

Definition digit (c : Z) : option Z :=
  if isdigit c then Some (c - 48)
  else if isalpha c then Some (toupper c - 65 + 10)
  else None.

(** The digits, for numbers of [w] bits up to [max]; [rdd] and [ov] are the flags
    [FL_READDIGIT] and [FL_OVERFLOW]. *)
Fixpoint digit_loop (fuel : nat) (w max ibase number c p : Z) (rdd ov : bool)
    : outcome (Z * Z * bool * bool) :=
  match digit c with
  | None => Ret (number, p, rdd, ov)
  | Some digval =>
      if ibase <=? digval then Ret (number, p, rdd, ov)
      else
        match fuel with
        | O => Diverge
        | S fuel =>
            let maxval := max / ibase in
            let fits := (number <? maxval) || ((number =? maxval) && (digval <=? max mod ibase)) in
            c <~ get p;
            digit_loop fuel w max ibase (if fits then uwrap w (number * ibase + digval) else number)
              c (p + 1) true (if fits then ov else true)
        end
  end.

(** Up to [--p]: the number, the position, [FL_NEG], [FL_READDIGIT] and [FL_OVERFLOW]; [None]
    for a bad base. *)
Definition scan (w max ibase : Z) : outcome (option (Z * Z * bool * bool * bool)) :=
  c <~ get 0;
  '(c, p) <~ skip_space (length s) c 1;
  '(neg, c, p) <~ skip_sign c p;
  if (ibase <? 0) || (ibase =? 1) || (36 <? ibase) then Ret None
  else
    ibase <~ pick_base ibase c p;
    '(c, p) <~ skip_prefix ibase c p;
    '(number, p, rdd, ov) <~ digit_loop (length s) w max ibase 0 c p false false;
    Ret (Some (number, p - 1, neg, rdd, ov)).
End Scan.

Definition strtoxl (s : list Z) (ibase : Z) (unsigned : bool) : outcome (Z * Z * bool) :=
  r <~ scan s8 s 32 UINT32_MAX ibase;
  match r with
  | None => Ret (0, 0, false)
  | Some (number, p, neg, rdd, ov) =>
      let '(number, p, erange) :=
        if negb rdd then (0, 0, false)
        else if ov || (negb unsigned && ((neg && (number <? u32 INT32_MIN)) || (negb neg && (INT32_MAX <? number))))
        then (if unsigned then UINT32_MAX else if neg then u32 INT32_MIN else INT32_MAX, p, true)
        else (number, p, false) in
      Ret (if neg then u32 (- s32 number) else number, p, erange)
  end.

Definition strtol (s : list Z) (ibase : Z) : outcome (Z * Z * bool) :=
  '(r, p, e) <~ strtoxl s ibase false; Ret (s32 r, p, e).
Definition strtoul (s : list Z) (ibase : Z) : outcome (Z * Z * bool) := strtoxl s ibase true.

(** The loop of [atol]. *)
Fixpoint atol_loop (fuel : nat) (s : list Z) (total c p : Z) : outcome Z :=
  if isdigit c then
    match fuel with
    | O => Diverge
    | S fuel => c' <~ rd s p; atol_loop fuel s (s32 (10 * total + (c - 48))) c' (p + 1)
    end
  else Ret total.

Definition atol (s : list Z) : outcome Z :=
  c <~ rd s 0;
  '(c, p) <~ skip_space (fun b => b) s (length s) c 1;
  let sign := c in
  '(c, p) <~ (if (c =? 45) || (c =? 43) then c <~ rd s p; Ret (c, p + 1) else Ret (c, p));
  total <~ atol_loop (length s) s 0 c p;
  Ret (if sign =? 45 then s32 (- total) else total).

Definition atoi (s : list Z) : outcome Z := atol s.

Definition strtoxll (s : list Z) (ibase : Z) (unsigned : bool) : outcome (Z * Z * bool) :=
  r <~ scan (fun b => b) s 64 INT64_MAX ibase;
  match r with
  | None => Ret (0, 0, false)
  | Some (number, p, neg, rdd, ov) =>
      let '(number, p, erange) :=
        if negb rdd then (0, 0, false)
        else if ov || (negb unsigned && ((neg && (number <? u64 INT64_MIN)) || (negb neg && (INT64_MAX <? number))))
        then (if unsigned then UINT64_MAX else if neg then u64 INT64_MIN else INT64_MAX, p, true)
        else (number, p, false) in
      Ret (if neg then u64 (- s64 number) else number, p, erange)
  end.

Definition strtoll (s : list Z) (ibase : Z) : outcome (Z * Z * bool) :=
  '(r, p, e) <~ strtoxll s ibase false; Ret (s64 r, p, e).
Definition strtoull (s : list Z) (ibase : Z) : outcome (Z * Z * bool) := strtoxll s ibase true.

(** ** xtoa.c *)

Definition wr (buf : list Z) (p v : Z) : outcome (list Z) :=
  if p <? 0 then Fault else _ <~ deref (buf !! Z.to_nat p); Ret (<[Z.to_nat p := v]> buf).

(** [do ... while (val > 0)]: the digits, the last first. *)
Fixpoint xtoa_digits (fuel : nat) (buf : list Z) (p val radix : Z) : outcome (list Z * Z) :=
  match fuel with
  | O => Diverge
  | S fuel =>
      if radix =? 0 then Fault
      else
        let digval := val mod radix in
        let val := val / radix in
        buf <~ wr buf p (u8 (if 9 <? digval then digval - 10 + 97 else digval + 48));
        if 0 <? val then xtoa_digits fuel buf (p + 1) val radix else Ret (buf, p + 1)
  end.

(** [do ... while (firstdig < p)]: the bytes between swap their places. *)
Fixpoint xtoa_reverse (fuel : nat) (buf : list Z) (firstdig p : Z) : outcome (list Z) :=
  match fuel with
  | O => Diverge
  | S fuel =>
      temp <~ rd buf p;
      b <~ rd buf firstdig;
      buf <~ wr buf p b;
      buf <~ wr buf firstdig temp;
      if firstdig + 1 <? p - 1 then xtoa_reverse fuel buf (firstdig + 1) (p - 1) else Ret buf
  end.

Definition xtoa (val : Z) (buf : list Z) (radix : Z) (negative : bool) : outcome (list Z) :=
  '(buf, p, val) <~ (if negative then buf <~ wr buf 0 45; Ret (buf, 1, u32 (- s32 val)) else Ret (buf, 0, val));
  let firstdig := p in
  '(buf, p) <~ xtoa_digits 32 buf p val radix;
  buf <~ wr buf p 0;
  xtoa_reverse 32 buf firstdig (p - 1).

Definition itoa (val : Z) (buf : list Z) (radix : Z) : outcome (list Z) :=
  if (radix =? 10) && (val <? 0) then xtoa (u32 val) buf (u32 radix) true
  else xtoa (u32 val) buf (u32 radix) false.
Definition ltoa (val : Z) (buf : list Z) (radix : Z) : outcome (list Z) :=
  xtoa (u32 val) buf (u32 radix) ((radix =? 10) && (val <? 0)).
Definition ultoa (val : Z) (buf : list Z) (radix : Z) : outcome (list Z) := xtoa val buf (u32 radix) false.

(** ** The bytes of an array *)

Definition byte (s : list Z) (k : Z) : Z := default 0 (s !! Z.to_nat k).
Definition bytes (s : list Z) : Prop := Forall (fun b => 0 <= b < 256) s.

Lemma rd_byte s k : 0 <= k < Z.of_nat (length s) -> rd s k = Ret (byte s k).
Proof.
  intros Hk. unfold rd, byte. rewrite (proj2 (Z.ltb_ge _ _)) by lia.
  destruct (lookup_lt_is_Some_2 s (Z.to_nat k)) as [b ->]; [lia|done].
Qed.

Lemma byte_range s k : bytes s -> 0 <= byte s k < 256.
Proof.
  intros Hs. unfold byte. destruct (s !! Z.to_nat k) as [b|] eqn:Hb; [|simpl; lia].
  apply Forall_lookup_1 with (x := b) (i := Z.to_nat k) in Hs; done.
Qed.

Lemma byte_app_r l s k : 0 <= k -> byte (l ++ s) (Z.of_nat (length l) + k) = byte s k.
Proof. intros Hk. unfold byte. rewrite lookup_app_r by lia. f_equal. f_equal. lia. Qed.

Lemma byte_app_l l s k : 0 <= k < Z.of_nat (length l) -> byte (l ++ s) k = byte l k.
Proof. intros Hk. unfold byte. by rewrite lookup_app_l by lia. Qed.

Lemma byte_elem l k : 0 <= k < Z.of_nat (length l) -> byte l k ∈ l.
Proof.
  intros Hk. unfold byte. destruct (lookup_lt_is_Some_2 l (Z.to_nat k)) as [b Hb]; [lia|].
  rewrite Hb. simpl. by eapply list_elem_of_lookup_2.
Qed.

(** The digit that a byte stands for. *)
Definition digit_in (base b d : Z) : Prop := digit b = Some d /\ d < base.
Definition no_digit (base b : Z) : Prop := forall d, ~ digit_in base b d.

Definition value (base acc : Z) (ds : list Z) : Z := foldl (fun a d => a * base + d) acc ds.

Lemma value_ge base acc ds : 1 <= base -> 0 <= acc -> Forall (fun d => 0 <= d) ds -> acc <= value base acc ds.
Proof.
  intros Hb. revert acc. induction ds as [|d ds IH]; intros acc Ha Hd; simpl; [lia|].
  apply Forall_cons in Hd as [Hd Hds]. specialize (IH (acc * base + d)). unfold value in *.
  specialize (IH ltac:(nia) Hds). nia.
Qed.

Lemma digit_byte b : 0 <= b < 256 -> digit b =
  if in_byte_range 48 57 b then Some (b - 48)
  else if in_byte_range 65 90 b then Some (b - 55)
  else if in_byte_range 97 122 b then Some (b - 87) else None.
Proof.
  intros Hb. unfold digit, toupper. rewrite isdigit_byte, isalpha_byte, islower_byte by done.
  unfold in_byte_range. repeat (case_match; zify_bool); try done; try lia; f_equal; lia.
Qed.

Lemma digit_range b d : 0 <= b < 256 -> digit b = Some d -> 0 <= d < 36 /\ 48 <= b < 128.
Proof.
  intros Hb. rewrite digit_byte by done. unfold in_byte_range.
  repeat (case_match; zify_bool); intros [= <-]; lia.
Qed.

(** The test for overflow. *)
Lemma fits_spec max base number d : 2 <= base -> 0 <= number -> 0 <= d < base ->
  (number <? max / base) || ((number =? max / base) && (d <=? max mod base)) = (number * base + d <=? max).
Proof.
  intros Hb Hn Hd. apply eq_true_iff_eq. rewrite orb_true_iff, andb_true_iff, !Z.ltb_lt, Z.eqb_eq, !Z.leb_le.
  pose proof (Z.div_mod max base ltac:(lia)). pose proof (Z.mod_pos_bound max base ltac:(lia)). nia.
Qed.

(** ** The scan *)

Section ScanSpec.
Context (cast : Z -> Z) (Hcast : forall b, 0 <= b < 256 -> cast b = b \/ cast b = s8 b).

Lemma cast_small b : 0 <= b < 128 -> cast b = b.
Proof.
  intros Hb. destruct (Hcast b ltac:(lia)) as [->| ->]; [done|].
  unfold s8, swrap. change (2 ^ 8) with 256. change (2 ^ (8 - 1)) with 128.
  rewrite Z.mod_small by lia. by rewrite (proj2 (Z.ltb_lt _ _)) by lia.
Qed.

Lemma cast_u8 b : 0 <= b < 256 -> u8 (cast b) = b.
Proof. intros Hb. by apply u8_cast, Hcast. Qed.

Lemma cast_eqb b v : 0 <= b < 256 -> 0 <= v < 128 -> (cast b =? v) = (b =? v).
Proof.
  intros Hb Hv. destruct (Z.ltb_spec b 128) as [|Hge]; [by rewrite cast_small by lia|].
  rewrite (proj2 (Z.eqb_neq b v)) by lia. apply Z.eqb_neq. destruct (Hcast b Hb) as [->| ->]; [lia|].
  unfold s8, swrap. change (2 ^ 8) with 256. change (2 ^ (8 - 1)) with 128. rewrite Z.mod_small by lia.
  rewrite (proj2 (Z.ltb_ge _ _)) by lia. lia.
Qed.

Lemma isspace_cast b : 0 <= b < 256 -> isspace (cast b) = isspace b.
Proof. intros Hb. by apply (class_cast isspace); [apply isspace_u8| |apply Hcast]. Qed.

Lemma digit_cast b : 0 <= b < 256 -> digit (cast b) = digit b.
Proof.
  intros Hb. destruct (Z.ltb_spec b 128) as [|Hge]; [by rewrite cast_small by lia|].
  unfold digit. rewrite isdigit_u8, isalpha_u8, cast_u8 by done.
  rewrite isdigit_byte, isalpha_byte by done. unfold in_byte_range.
  by repeat (case_match; zify_bool; try lia).
Qed.

Section Bytes.
Context (s : list Z) (Hs : bytes s).
Let len : Z := Z.of_nat (length s).

Lemma get_byte k : 0 <= k < len -> get cast s k = Ret (cast (byte s k)).
Proof. intros Hk. unfold get. by rewrite rd_byte. Qed.

Lemma skip_space_spec n fuel k : (n <= fuel)%nat -> 0 <= k -> k + Z.of_nat n < len ->
  (forall i, k <= i < k + Z.of_nat n -> isspace (byte s i) = true) ->
  isspace (byte s (k + Z.of_nat n)) = false ->
  skip_space cast s fuel (cast (byte s k)) (k + 1)
  = Ret (cast (byte s (k + Z.of_nat n)), k + Z.of_nat n + 1).
Proof.
  revert fuel k. induction n as [|n IH]; intros fuel k Hf Hk Hl Hsp Hns.
  - rewrite Z.add_0_r in *. destruct fuel; simpl; by rewrite isspace_cast, Hns by by apply byte_range.
  - destruct fuel as [|fuel]; [lia|]. simpl. rewrite isspace_cast, Hsp by (by apply byte_range || lia).
    rewrite get_byte by lia. cbn [obind]. rewrite IH; [|lia|lia|lia| |].
    + do 2 f_equal; [do 2 f_equal|]; lia.
    + intros i Hi. apply Hsp. lia.
    + replace (k + 1 + Z.of_nat n) with (k + Z.of_nat (S n)) by lia. done.
Qed.

(** The loop over digits; [ov] and [rdd] may be set already. *)
Lemma digit_loop_spec w max base ds fuel number k rdd ov :
  2 <= base <= 36 -> 0 <= max < 2 ^ w -> 0 <= number <= max -> (length ds <= fuel)%nat -> 0 <= k ->
  k + Z.of_nat (length ds) < len ->
  (forall i d, ds !! i = Some d -> digit_in base (byte s (k + Z.of_nat i)) d) ->
  no_digit base (byte s (k + Z.of_nat (length ds))) ->
  exists number', digit_loop cast s fuel w max base number (cast (byte s k)) (k + 1) rdd ov
      = Ret (number', k + Z.of_nat (length ds) + 1, rdd || negb (bool_decide (ds = [])),
             ov || (max <? value base number ds))
    /\ 0 <= number' <= max
    /\ (value base number ds <= max -> number' = value base number ds).
Proof.
  intros Hb Hmax. revert fuel number k rdd ov. induction ds as [|d ds IH]; intros fuel number k rdd ov Hn Hf Hk Hl Hd Hnd.
  - simpl in *. rewrite Z.add_0_r in *. exists number.
    replace (max <? number) with false by (symmetry; apply Z.ltb_ge; lia). rewrite !orb_false_r.
    assert (Hge : forall d, digit (byte s k) = Some d -> (base <=? d) = true).
    { intros d Hdg. apply Z.leb_le. destruct (Z.leb_spec base d) as [|Hlt]; [done|]. by destruct (Hnd d). }
    split; [|split; [lia|done]].
    destruct fuel; simpl; (rewrite digit_cast by (by apply byte_range));
      destruct (digit (byte s k)) as [d|]; rewrite ?Hge by done; done.
  - destruct fuel as [|fuel]; [simpl in Hf; lia|]. destruct (Hd 0%nat d eq_refl) as [Hdg Hdb].
    rewrite Z.add_0_r in Hdg. pose proof (byte_range s k Hs) as Hbr.
    destruct (digit_range _ _ Hbr Hdg) as [Hdr _]. cbn [digit_loop].
    rewrite digit_cast, Hdg, (proj2 (Z.leb_gt base d)) by done.
    cbn [length] in *. rewrite get_byte by lia. cbn [obind].
    rewrite fits_spec by lia. change (value base number (d :: ds)) with (value base (number * base + d) ds).
    assert (Hnd' : no_digit base (byte s (k + 1 + Z.of_nat (length ds)))).
    { by replace (k + 1 + Z.of_nat (length ds)) with (k + Z.of_nat (S (length ds))) by lia. }
    assert (Hd' : forall i e, ds !! i = Some e -> digit_in base (byte s (k + 1 + Z.of_nat i)) e).
    { intros i e He. replace (k + 1 + Z.of_nat i) with (k + Z.of_nat (S i)) by lia. by apply Hd. }
    assert (Hpos : Forall (fun e => 0 <= e) ds).
    { apply Forall_lookup. intros i e He. destruct (Hd' i e He) as [Hdi _]. apply digit_range in Hdi; [lia|by apply byte_range]. }
    destruct (Z.leb_spec (number * base + d) max) as [Hle|Hgt].
    + replace (uwrap w (number * base + d)) with (number * base + d)
        by (unfold uwrap; symmetry; apply Z.mod_small; nia).
      destruct (IH fuel (number * base + d) (k + 1) true ov) as (n' & -> & Hr & Hv); [nia|lia|lia|lia|done|done|].
      exists n'. rewrite (bool_decide_false (d :: ds = [])) by done. rewrite orb_true_r.
      replace (k + 1 + Z.of_nat (length ds) + 1) with (k + Z.of_nat (S (length ds)) + 1) by lia. done.
    + pose proof (value_ge base (number * base + d) ds ltac:(lia) ltac:(nia) Hpos) as Hge.
      destruct (IH fuel number (k + 1) true true) as (n' & -> & Hr & _); [lia|lia|lia|lia|done|done|].
      exists n'. rewrite (bool_decide_false (d :: ds = [])) by done. rewrite orb_true_r, (proj2 (Z.ltb_lt max (value base (number * base + d) ds))) by lia.
      rewrite orb_true_r. replace (k + 1 + Z.of_nat (length ds) + 1) with (k + Z.of_nat (S (length ds)) + 1) by lia.
      split; [done|]. split; [done|lia].
Qed.
End Bytes.
End ScanSpec.

(** ** Numerals *)

Definition hex_mark (l : list Z) : Prop := byte l 0 = 48 /\ is_x (byte l 1) = true.

(** How the base argument and the characters behind the sign give the base: the prefix
    that is skipped, and what comes after it. *)
Inductive base_prefix (ibase : Z) : Z -> list Z -> list Z -> Prop :=
| prefix_plain l : 2 <= ibase <= 36 -> (ibase = 16 -> ~ hex_mark l) -> base_prefix ibase ibase [] l
| prefix_hex x l : ibase = 0 \/ ibase = 16 -> is_x x = true -> base_prefix ibase 16 [48; x] l
| prefix_dec l : ibase = 0 -> byte l 0 <> 48 -> base_prefix ibase 10 [] l
| prefix_oct l : ibase = 0 -> byte l 0 = 48 -> is_x (byte l 1) = false -> base_prefix ibase 8 [] l.

Inductive sign_of : list Z -> bool -> Prop :=
| sign_none : sign_of [] false
| sign_plus : sign_of [43] false
| sign_minus : sign_of [45] true.

(** The string begins with white space, a sign, the prefix and the digits [ds] in base
    [base]; the numeral ends at [n]. *)
Inductive numeral (ibase base : Z) : list Z -> bool -> list Z -> Z -> Prop :=
| Numeral sp sg neg pre ts ds t rest :
    Forall (fun b => isspace b = true) sp -> sign_of sg neg ->
    base_prefix ibase base pre (ts ++ t :: rest) ->
    Forall2 (digit_in base) ts ds -> ds <> [] -> no_digit base t ->
    numeral ibase base (sp ++ sg ++ pre ++ ts ++ t :: rest) neg ds
      (Z.of_nat (length sp + length sg + length pre + length ts)).

Lemma base_prefix_range ibase base pre l : base_prefix ibase base pre l ->
  2 <= base <= 36 /\ (ibase <? 0) || (ibase =? 1) || (36 <? ibase) = false.
Proof. destruct 1 as [l Hb|x l [Hb|Hb]|l Hb|l Hb]; (split; [lia|]);
  rewrite !orb_false_iff, !Z.ltb_ge, Z.eqb_neq; split_and!; lia. Qed.

Lemma is_x_range x : is_x x = true -> x = 120 \/ x = 88.
Proof. unfold is_x. zify_bool. lia. Qed.

Section ScanNumeral.
Context (cast : Z -> Z) (Hcast : forall b, 0 <= b < 256 -> cast b = b \/ cast b = s8 b).
Context (s : list Z) (Hs : bytes s).
Let len : Z := Z.of_nat (length s).

(** The base and the prefix, from the position [a] behind the sign. *)
Lemma prefix_spec ibase base pre l a : 0 <= a -> base_prefix ibase base pre l -> (2 <= length l)%nat ->
  (forall i, 0 <= i -> byte s (a + i) = byte (pre ++ l) i) -> a + Z.of_nat (length (pre ++ l)) <= len ->
  exists c, pick_base s ibase (cast (byte s a)) (a + 1) = Ret c
    /\ skip_prefix cast s c (cast (byte s a)) (a + 1)
       = Ret (cast (byte s (a + Z.of_nat (length pre))), a + Z.of_nat (length pre) + 1) /\ c = base.
Proof.
  intros Ha Hp Hl Hby Hlen. rewrite length_app in Hlen.
  assert (H0 : byte s a = byte (pre ++ l) 0) by (rewrite <- Hby by lia; f_equal; lia).
  assert (H1 : rd s (a + 1) = Ret (byte (pre ++ l) 1)) by (rewrite rd_byte by lia; by rewrite Hby by lia).
  exists base. unfold pick_base, skip_prefix. rewrite (cast_eqb cast Hcast) by first [by apply byte_range|lia].
  rewrite H0. split; [|split; [|done]].
  - destruct Hp as [l Hb Hh|x l Hb Hx|l Hb Hne|l Hb H48 Hx].
    + by rewrite (proj2 (Z.eqb_neq _ _)) by lia.
    + destruct (ibase =? 0) eqn:Hi; [|zify_bool; f_equal; lia].
      change (byte ([48; x] ++ l) 0) with 48. cbn [Z.eqb Pos.eqb negb]. rewrite H1.
      change (byte ([48; x] ++ l) 1) with x. cbn [obind]. by rewrite Hx.
    + subst ibase. simpl app. by rewrite (proj2 (Z.eqb_neq _ _) Hne).
    + subst ibase. simpl app in *. rewrite H48. cbn [Z.eqb Pos.eqb negb]. rewrite H1. cbn [obind]. by rewrite Hx.
  - destruct Hp as [l Hb Hh|x l Hb Hx|l Hb Hne|l Hb H48 Hx]; cbn [length]; rewrite ?Z.add_0_r.
    + simpl app in *. destruct (Z.eqb_spec ibase 16) as [->|]; [|by rewrite H0].
      destruct (Z.eqb_spec (byte l 0) 48) as [He|]; [|by rewrite H0]. cbn [andb]. rewrite H1. cbn [obind].
      destruct (is_x (byte l 1)) eqn:Hx; [|by rewrite H0]. by destruct Hh.
    + change (byte ([48; x] ++ l) 0) with 48. cbn [Z.eqb Pos.eqb andb]. rewrite H1.
      change (byte ([48; x] ++ l) 1) with x. cbn [obind]. rewrite Hx. unfold get. cbn [length] in Hlen.
      rewrite rd_byte by lia. cbn [obind]. do 2 f_equal; [do 2 f_equal|]; lia.
    + by rewrite H0.
    + by rewrite H0.
Qed.

Lemma sign_spec sg neg l a : 0 <= a -> sign_of sg neg -> (1 <= length l)%nat ->
  (forall i, 0 <= i -> byte s (a + i) = byte (sg ++ l) i) -> a + Z.of_nat (length (sg ++ l)) <= len ->
  byte l 0 <> 45 -> byte l 0 <> 43 ->
  skip_sign cast s (cast (byte s a)) (a + 1)
  = Ret (neg, cast (byte s (a + Z.of_nat (length sg))), a + Z.of_nat (length sg) + 1).
Proof.
  intros Ha Hp Hl Hby Hlen Hn1 Hn2. rewrite length_app in Hlen.
  assert (H0 : byte s a = byte (sg ++ l) 0) by (rewrite <- Hby by lia; f_equal; lia).
  unfold skip_sign. rewrite !(cast_eqb cast Hcast) by first [by apply byte_range|lia]. rewrite H0.
  destruct Hp; cbn [length app] in *; rewrite ?Z.add_0_r.
  - rewrite !(proj2 (Z.eqb_neq _ _)) by done. by rewrite H0.
  - change (byte (43 :: l) 0) with 43. cbn [Z.eqb Pos.eqb]. unfold get. by rewrite rd_byte by lia.
  - change (byte (45 :: l) 0) with 45. cbn [Z.eqb Pos.eqb]. unfold get. by rewrite rd_byte by lia.
Qed.
End ScanNumeral.

Lemma byte_S x l i : 0 <= i -> byte (x :: l) (1 + i) = byte l i.
Proof. intros Hi. unfold byte. by replace (Z.to_nat (1 + i)) with (S (Z.to_nat i)) by lia. Qed.

(** The numeral begins with a sign or a digit. *)
Lemma numeral_head base ibase pre ts ds l : bytes ts -> base_prefix ibase base pre (ts ++ l) ->
  Forall2 (digit_in base) ts ds -> ds <> [] -> 48 <= byte (pre ++ ts ++ l) 0 < 128.
Proof.
  intros Hts Hp Hds Hne. assert (48 <= byte (ts ++ l) 0 < 128).
  { destruct Hds as [|x d ts ds [Hd _] _]; [done|]. apply Forall_cons in Hts as [Hx _]. simpl.
    change (byte (x :: ts ++ l) 0) with x. by apply (digit_range x d). }
  remember (ts ++ l) as k. destruct Hp as [?|x k| |]; [done| |done|done]. change (byte ([48; x] ++ k) 0) with 48. lia.
Qed.

Lemma sign_head sg neg l : sign_of sg neg -> 48 <= byte l 0 < 128 ->
  isspace (byte (sg ++ l) 0) = false /\ 0 <= byte (sg ++ l) 0 < 256.
Proof.
  intros Hs Hl. assert (Hb : 43 <= byte (sg ++ l) 0 < 128).
  { destruct Hs; simpl; [lia|change (byte (43 :: l) 0) with 43; lia|change (byte (45 :: l) 0) with 45; lia]. }
  split; [|lia]. rewrite isspace_byte by lia. unfold in_byte_range.
  apply orb_false_iff. rewrite andb_false_iff, !Z.leb_gt, Z.eqb_neq. lia.
Qed.

Lemma digits_at base ts ds i d : Forall2 (digit_in base) ts ds -> ds !! i = Some d ->
  digit_in base (byte ts (Z.of_nat i)) d.
Proof.
  intros Hf Hd. destruct (Forall2_lookup_r _ _ _ _ _ Hf Hd) as (b & Hb & Hd'). unfold byte. by rewrite Nat2Z.id, Hb.
Qed.

(** The white space and the sign of a numeral are skipped up to [a]; the prefix and the
    digits are behind. *)
Lemma scan_head cast s ibase base neg ds n :
  (forall b, 0 <= b < 256 -> cast b = b \/ cast b = s8 b) -> bytes s -> numeral ibase base s neg ds n ->
  exists c p pre l a, 0 < Z.of_nat (length s)
    /\ skip_space cast s (length s) (cast (byte s 0)) 1 = Ret (c, p)
    /\ skip_sign cast s c p = Ret (neg, cast (byte s a), a + 1)
    /\ 0 <= a /\ base_prefix ibase base pre l /\ (2 <= length l)%nat
    /\ (forall i, 0 <= i -> byte s (a + i) = byte (pre ++ l) i)
    /\ a + Z.of_nat (length (pre ++ l)) <= Z.of_nat (length s)
    /\ (forall i d, ds !! i = Some d -> digit_in base (byte s (a + Z.of_nat (length pre) + Z.of_nat i)) d)
    /\ no_digit base (byte s (a + Z.of_nat (length pre) + Z.of_nat (length ds)))
    /\ n = a + Z.of_nat (length pre) + Z.of_nat (length ds) /\ n < Z.of_nat (length s) /\ ds <> [].
Proof.
  intros Hcast Hs Hnum. destruct Hnum as [sp sg neg pre ts ds t rest Hsp Hsg Hp Hds Hne Ht].
  set (body := ts ++ t :: rest) in *. set (s := sp ++ sg ++ pre ++ body) in *.
  pose proof (Forall2_length _ _ _ Hds) as Hlen.
  set (a := Z.of_nat (length sp) + Z.of_nat (length sg)).
  assert (H1 : forall i, 0 <= i -> byte s (Z.of_nat (length sp) + i) = byte (sg ++ pre ++ body) i)
    by (intros i Hi; by apply byte_app_r).
  assert (H2 : forall i, 0 <= i -> byte s (a + i) = byte (pre ++ body) i)
    by (intros i Hi; unfold a; rewrite <- Z.add_assoc, H1 by lia; by apply byte_app_r).
  assert (H3 : forall i, 0 <= i -> byte s (a + Z.of_nat (length pre) + i) = byte body i)
    by (intros i Hi; rewrite <- Z.add_assoc, H2 by lia; by apply byte_app_r).
  assert (Hbl : length body = (length ds + 1 + length rest)%nat) by (unfold body; rewrite length_app; simpl; lia).
  assert (Hl : Z.of_nat (length s) = a + Z.of_nat (length pre) + Z.of_nat (length body)).
  { unfold s, a. rewrite !length_app. lia. }
  assert (Hts : bytes ts). { unfold bytes, s, body in Hs. rewrite !Forall_app in Hs. tauto. }
  assert (Hpos : (0 < length ds)%nat) by (destruct ds; [done|simpl; lia]).
  pose proof (numeral_head _ _ _ _ _ (t :: rest) Hts Hp Hds Hne) as Hhd. fold body in Hhd.
  destruct (sign_head sg neg _ Hsg Hhd) as [Hns _].
  exists (cast (byte s (Z.of_nat (length sp)))), (Z.of_nat (length sp) + 1), pre, body, a.
  split; [lia|]. split; [|split; [|split_and!; try done; try lia]].
  - change (skip_space cast s (length s) (cast (byte s 0)) 1) with (skip_space cast s (length s) (cast (byte s 0)) (0 + 1)).
    rewrite (skip_space_spec cast Hcast s Hs (length sp) (length s) 0); [done|lia|lia|lia| |].
    + intros i Hi. unfold s. rewrite byte_app_l by lia. rewrite Forall_forall in Hsp. apply Hsp, byte_elem. lia.
    + by rewrite Z.add_0_l, <- (Z.add_0_r (Z.of_nat _)), H1.
  - apply (sign_spec cast Hcast s Hs sg neg (pre ++ body)); try done; rewrite ?length_app; lia.
  - rewrite length_app. lia.
  - intros i d Hd. rewrite H3 by lia. unfold body. apply lookup_lt_Some in Hd as Hi.
    rewrite byte_app_l by lia. by eapply digits_at.
  - rewrite H3, <- Hlen by lia. unfold body. rewrite <- (Z.add_0_r (Z.of_nat (length ts))), byte_app_r by lia. exact Ht.
Qed.

Lemma scan_spec cast s w max ibase base neg ds n :
  (forall b, 0 <= b < 256 -> cast b = b \/ cast b = s8 b) -> bytes s -> 0 <= max < 2 ^ w ->
  numeral ibase base s neg ds n ->
  exists number, scan cast s w max ibase = Ret (Some (number, n, neg, true, max <? value base 0 ds))
    /\ 0 <= number <= max /\ (value base 0 ds <= max -> number = value base 0 ds).
Proof.
  intros Hcast Hs Hmax Hnum.
  destruct (scan_head cast s ibase base neg ds n Hcast Hs Hnum)
    as (c & p & pre & l & a & Hl0 & Hsp & Hsg & Ha & Hp & Hl2 & Hby & Hl & Hds & Hnd & -> & Hn & Hne).
  destruct (base_prefix_range _ _ _ _ Hp) as [Hb Hbad].
  unfold scan. rewrite (get_byte cast s) by lia. cbn [obind]. rewrite Hsp. cbn [obind]. rewrite Hsg. cbn [obind].
  rewrite Hbad. destruct (prefix_spec cast Hcast s Hs ibase base pre l a Ha Hp Hl2 Hby Hl) as (b & -> & Hskip & ->).
  cbn [obind]. rewrite Hskip. cbn [obind]. set (k := a + Z.of_nat (length pre)) in *.
  destruct (digit_loop_spec cast Hcast s Hs w max base ds (length s) 0 k false false) as (number & -> & Hr & Hv);
    try done; try lia.
  exists number. cbn [obind]. rewrite bool_decide_false by done. split; [|done].
  do 6 f_equal. lia.
Qed.

Lemma value_nonneg base s ibase neg ds n : numeral ibase base s neg ds n -> bytes s -> 0 <= value base 0 ds.
Proof.
  intros Hnum Hs. destruct Hnum as [sp sg neg pre ts ds t rest _ _ Hp Hds _ _]. apply base_prefix_range in Hp as [Hb _].
  assert (Hts : bytes ts) by (unfold bytes in *; rewrite !Forall_app in Hs; tauto).
  apply value_ge; [lia|lia|]. clear -Hds Hts. induction Hds as [|b d ts ds [Hd _] _ IH]; [done|].
  apply Forall_cons in Hts as [Hbr Hts]. constructor; [apply digit_range in Hd; lia|auto].
Qed.

(** ** Any string *)

Section Total.
Context (cast : Z -> Z) (Hcast : forall b, 0 <= b < 256 -> cast b = b \/ cast b = s8 b).
Context (s : list Z) (Hs : bytes s) (z : Z) (Hz : 0 <= z < Z.of_nat (length s)) (Hnul : byte s z = 0).

(** The scan has not passed the NUL. *)
Definition at_char (c p : Z) : Prop := exists k, 0 <= k <= z /\ c = cast (byte s k) /\ p = k + 1.

Lemma next_char k : 0 <= k <= z -> byte s k <> 0 ->
  exists c, get cast s (k + 1) = Ret c /\ at_char c (k + 1 + 1) /\ k + 1 <= z.
Proof.
  intros Hk Hb. assert (k <> z) by congruence. exists (cast (byte s (k + 1))).
  split; [by rewrite (get_byte cast s) by lia|]. split; [|lia]. exists (k + 1). split; [lia|done].
Qed.

Lemma skip_space_total fuel c p : at_char c p -> z - p < Z.of_nat fuel ->
  exists c' p', skip_space cast s fuel c p = Ret (c', p') /\ at_char c' p'.
Proof.
  revert c p. induction fuel as [|fuel IH]; intros c p Hc Hf.
  - destruct Hc as (k & Hk & -> & ->). simpl. assert (k = z) as -> by lia. rewrite Hnul.
    rewrite (cast_small cast Hcast) by lia. eexists _, _. split; [reflexivity|]. exists z.
    rewrite Hnul, (cast_small cast Hcast) by lia. split; [lia|done].
  - simpl. destruct (isspace c) eqn:Hsp; [|by exists c, p]. destruct Hc as (k & Hk & -> & ->).
    destruct (next_char k Hk) as (c' & -> & Hc' & Hk'); [|cbn [obind]; apply IH; [done|lia]].
    intros H0. rewrite H0, (cast_small cast Hcast) in Hsp by lia. by vm_compute in Hsp.
Qed.

Lemma skip_sign_total c p : at_char c p ->
  exists neg c' p', skip_sign cast s c p = Ret (neg, c', p') /\ at_char c' p'.
Proof.
  intros (k & Hk & -> & ->). unfold skip_sign. rewrite !(cast_eqb cast Hcast) by first [by apply byte_range|lia].
  destruct (Z.eqb_spec (byte s k) 45); [|destruct (Z.eqb_spec (byte s k) 43)].
  - destruct (next_char k Hk ltac:(lia)) as (c' & -> & Hc' & _). by eexists _, _, _.
  - destruct (next_char k Hk ltac:(lia)) as (c' & -> & Hc' & _). by eexists _, _, _.
  - eexists _, _, _. split; [reflexivity|]. by exists k.
Qed.

Lemma prefix_total ibase c p : at_char c p ->
  (exists base, pick_base s ibase c p = Ret base /\ (ibase <> 0 -> base = ibase) /\ (ibase = 0 -> 8 <= base <= 16))
  /\ (exists c' p', skip_prefix cast s ibase c p = Ret (c', p') /\ at_char c' p').
Proof.
  intros (k & Hk & -> & ->). unfold pick_base, skip_prefix. rewrite (cast_eqb cast Hcast) by first [by apply byte_range|lia].
  assert (Hrd : byte s k = 48 -> rd s (k + 1) = Ret (byte s (k + 1)) /\ k + 1 <= z).
  { intros H48. assert (k <> z) by congruence. by rewrite rd_byte by lia; split; [|lia]. }
  assert (Hat : at_char (cast (byte s k)) (k + 1)) by (by exists k). split.
  - destruct (Z.eqb_spec ibase 0) as [->|]; [|by exists ibase].
    destruct (Z.eqb_spec (byte s k) 48) as [H48|]; simpl; [|by exists 10].
    destruct (Hrd H48) as [-> _]. simpl. eexists. split; [reflexivity|]. split; [done|]. destruct (is_x _); lia.
  - destruct (Z.eqb_spec (byte s k) 48) as [H48|]; rewrite ?andb_true_r, ?andb_false_r; [|by eexists _, _].
    destruct (ibase =? 16); [|by eexists _, _]. destruct (Hrd H48) as [-> Hk1]. cbn [obind].
    destruct (is_x (byte s (k + 1))) eqn:Hx; [|by eexists _, _]. apply is_x_range in Hx.
    destruct (next_char (k + 1) ltac:(lia) ltac:(lia)) as (c' & -> & Hc' & _). cbn [obind].
    eexists _, _. split; [reflexivity|]. by replace (k + 1 + 2) with (k + 1 + 1 + 1) by lia.
Qed.

Lemma digit_loop_total w max base fuel number c p rdd ov :
  2 <= base -> 0 <= max < 2 ^ w -> 0 <= number <= max -> at_char c p -> z - p < Z.of_nat fuel ->
  exists number' p' rdd' ov', digit_loop cast s fuel w max base number c p rdd ov = Ret (number', p', rdd', ov')
    /\ 0 < p' <= z + 1 /\ 0 <= number' <= max.
Proof.
  intros Hb Hmax. revert number c p rdd ov. induction fuel as [|fuel IH]; intros number c p rdd ov Hn Hc Hf.
  - destruct Hc as (k & Hk & -> & ->). assert (k = z) as -> by lia. rewrite Hnul, (cast_small cast Hcast) by lia.
    simpl. eexists _, _, _, _. split; [reflexivity|lia].
  - simpl. destruct Hc as (k & Hk & -> & ->). rewrite (digit_cast cast Hcast) by by apply byte_range.
    destruct (digit (byte s k)) as [d|] eqn:Hd; [|eexists _, _, _, _; split; [reflexivity|lia]].
    destruct (Z.leb_spec base d); [eexists _, _, _, _; split; [reflexivity|lia]|].
    destruct (digit_range _ _ (byte_range s k Hs) Hd) as [Hdr Hbr].
    destruct (next_char k Hk ltac:(lia)) as (c' & -> & Hc' & Hk'). cbn [obind]. rewrite fits_spec by lia.
    destruct (Z.leb_spec (number * base + d) max); (apply IH; [|done|lia]); [|lia].
    unfold uwrap. rewrite Z.mod_small by nia. nia.
Qed.

Lemma scan_total w max ibase : 0 <= max < 2 ^ w -> exists r, scan cast s w max ibase = Ret r
  /\ forall number p neg rdd ov, r = Some (number, p, neg, rdd, ov) -> 0 <= p <= z /\ 0 <= number <= max.
Proof.
  intros Hmax. unfold scan. rewrite (get_byte cast s) by lia. cbn [obind].
  destruct (skip_space_total (length s) (cast (byte s 0)) 1) as (c1 & p1 & -> & H1); [exists 0; split; [lia|done]|lia|].
  cbn [obind]. destruct (skip_sign_total c1 p1 H1) as (neg & c2 & p2 & -> & H2). cbn [obind].
  destruct (_ || _) eqn:Hbad; [by eexists|]. rewrite !orb_false_iff, !Z.ltb_ge, Z.eqb_neq in Hbad.
  destruct (prefix_total ibase c2 p2 H2) as [(base & -> & Hb1 & Hb2) _]. cbn [obind].
  destruct (prefix_total base c2 p2 H2) as [_ (c3 & p3 & -> & H3)]. cbn [obind].
  destruct (digit_loop_total w max base (length s) 0 c3 p3 false false) as (n & p4 & rdd & ov & -> & Hp & Hn);
    [destruct (decide (ibase = 0)) as [H0|H0]; [specialize (Hb2 H0); lia|specialize (Hb1 H0); lia]|done|lia|done
    |destruct H3 as (k & ? & _ & ->); lia|]. cbn [obind].
  eexists. split; [reflexivity|]. intros ????? [= <- <- <- <- <-]. lia.
Qed.
End Total.

Lemma s8_cast b : 0 <= b < 256 -> s8 b = b \/ s8 b = s8 b. Proof. by right. Qed.
Lemma id_cast (b : Z) : 0 <= b < 256 -> (fun b : Z => b) b = b \/ (fun b : Z => b) b = s8 b. Proof. by left. Qed.

Lemma u32_neg_s32 x : u32 (- s32 x) = u32 (- x).
Proof.
  unfold u32, s32, uwrap, swrap. destruct (_ <? _); [|rewrite Z.opp_sub_distr, Z.add_comm];
    rewrite <- ?(Z_mod_plus_full (- x) (x / 2 ^ 32) (2 ^ 32)).
  - f_equal. pose proof (Z.div_mod x (2 ^ 32) ltac:(lia)). lia.
  - rewrite <- (Z_mod_plus_full (2 ^ 32 + _) (-1) (2 ^ 32)). f_equal. pose proof (Z.div_mod x (2 ^ 32) ltac:(lia)). lia.
Qed.

Lemma u64_neg_s64 x : u64 (- s64 x) = u64 (- x).
Proof.
  unfold u64, s64, uwrap, swrap. destruct (_ <? _); [|rewrite Z.opp_sub_distr, Z.add_comm];
    rewrite <- ?(Z_mod_plus_full (- x) (x / 2 ^ 64) (2 ^ 64)).
  - f_equal. pose proof (Z.div_mod x (2 ^ 64) ltac:(lia)). lia.
  - rewrite <- (Z_mod_plus_full (2 ^ 64 + _) (-1) (2 ^ 64)). f_equal. pose proof (Z.div_mod x (2 ^ 64) ltac:(lia)). lia.
Qed.

Lemma strtoxl_spec ibase base s neg ds n (unsigned : bool) : numeral ibase base s neg ds n -> bytes s ->
  let v := value base 0 ds in
  let over := if unsigned then UINT32_MAX <? v
              else if neg then (v <=? INT32_MAX) || (UINT32_MAX <? v) else INT32_MAX <? v in
  let number := if over then if unsigned then UINT32_MAX else if neg then 2 ^ 31 else INT32_MAX else v in
  strtoxl s ibase unsigned = Ret (if neg then u32 (- number) else number, n, over).
Proof.
  intros Hn Hs v over number. unfold strtoxl.
  destruct (scan_spec s8 s 32 UINT32_MAX ibase base neg ds n s8_cast Hs ltac:(unfold UINT32_MAX; lia) Hn)
    as (k & -> & Hk & Hv). cbn [obind negb]. fold v in Hv |- *. change (u32 INT32_MIN) with (2 ^ 31).
  assert (Hov : (UINT32_MAX <? v) || negb unsigned && (neg && (k <? 2 ^ 31) || negb neg && (INT32_MAX <? k)) = over).
  { unfold over, UINT32_MAX, INT32_MAX in *. destruct (Z.ltb_spec 0xFFFFFFFF v) as [Hgt|Hle].
    - simpl. destruct unsigned, neg; try done; symmetry; [by rewrite orb_true_r|apply Z.ltb_lt; lia].
    - rewrite (Hv Hle). destruct unsigned, neg; simpl; rewrite ?orb_false_r; try done.
      apply eq_true_iff_eq. rewrite Z.ltb_lt, Z.leb_le. lia. }
  rewrite Hov. unfold number. destruct over eqn:Ho.
  - rewrite u32_neg_s32. done.
  - rewrite u32_neg_s32, Hv; [done|]. destruct (Z.ltb_spec UINT32_MAX v) as [Hgt|]; [|done]. by simpl in Hov.
Qed.

Lemma strtoxll_spec ibase base s neg ds n (unsigned : bool) : numeral ibase base s neg ds n -> bytes s ->
  let v := value base 0 ds in
  let over := if unsigned then INT64_MAX <? v else neg || (INT64_MAX <? v) in
  let number := if over then if unsigned then UINT64_MAX else if neg then 2 ^ 63 else INT64_MAX else v in
  strtoxll s ibase unsigned = Ret (if neg then u64 (- number) else number, n, over).
Proof.
  intros Hn Hs v over number. unfold strtoxll.
  destruct (scan_spec (fun b => b) s 64 INT64_MAX ibase base neg ds n id_cast Hs ltac:(unfold INT64_MAX; lia) Hn)
    as (k & -> & Hk & Hv). cbn [obind negb]. fold v in Hv |- *. change (u64 INT64_MIN) with (2 ^ 63).
  assert (Hov : (INT64_MAX <? v) || negb unsigned && (neg && (k <? 2 ^ 63) || negb neg && (INT64_MAX <? k)) = over).
  { unfold over, INT64_MAX in *. rewrite (proj2 (Z.ltb_lt k (2 ^ 63))), (proj2 (Z.ltb_ge 9223372036854775807 k)) by lia.
    destruct unsigned, neg; simpl; by rewrite ?orb_false_r, ?orb_true_r. }
  rewrite Hov. unfold number. destruct over eqn:Ho.
  - rewrite u64_neg_s64. done.
  - rewrite u64_neg_s64, Hv; [done|]. destruct (Z.ltb_spec INT64_MAX v) as [Hgt|]; [|done]. by simpl in Hov.
Qed.

(** ** atol *)

Lemma digit_10 b d : 0 <= b < 256 -> digit_in 10 b d -> isdigit b = true /\ d = b - 48.
Proof.
  intros Hb [Hd Hlt]. rewrite digit_byte in Hd by done. rewrite isdigit_byte by done. unfold in_byte_range in *.
  repeat (case_match; zify_bool); simplify_eq; lia.
Qed.

Lemma no_digit_10 b : 0 <= b < 256 -> no_digit 10 b -> isdigit b = false.
Proof.
  intros Hb Hn. destruct (isdigit b) eqn:Hd; [|done]. destruct (Hn (b - 48)). split; [unfold digit; by rewrite Hd|].
  rewrite isdigit_byte in Hd by done. unfold in_byte_range in Hd. zify_bool. lia.
Qed.

Lemma s32_mod x : exists k, s32 x = x + k * 2 ^ 32.
Proof.
  unfold s32, swrap. pose proof (Z.div_mod x (2 ^ 32) ltac:(lia)). destruct (_ <? _).
  - exists (- (x / 2 ^ 32)). lia.
  - exists (- (x / 2 ^ 32) - 1). lia.
Qed.

Lemma s32_add_mul x k : s32 (x + k * 2 ^ 32) = s32 x.
Proof. unfold s32, swrap. by rewrite Z_mod_plus_full. Qed.

Lemma atol_loop_spec s ds fuel total k : bytes s -> (length ds <= fuel)%nat -> 0 <= k ->
  k + Z.of_nat (length ds) < Z.of_nat (length s) ->
  (forall i d, ds !! i = Some d -> digit_in 10 (byte s (k + Z.of_nat i)) d) ->
  no_digit 10 (byte s (k + Z.of_nat (length ds))) ->
  exists t, atol_loop fuel s total (byte s k) (k + 1) = Ret t /\ s32 t = s32 (value 10 total ds)
    /\ (is_s32 total -> is_s32 t).
Proof.
  intros Hs. revert fuel total k. induction ds as [|d ds IH]; intros fuel total k Hf Hk Hl Hd Hnd.
  - simpl in Hnd. rewrite Z.add_0_r in Hnd. apply no_digit_10 in Hnd; [|by apply byte_range].
    exists total. destruct fuel; simpl; by rewrite Hnd.
  - destruct fuel as [|fuel]; [simpl in Hf; lia|]. cbn [length] in *. pose proof (Hd 0%nat d eq_refl) as Hd0.
    rewrite Z.add_0_r in Hd0. apply digit_10 in Hd0 as [Hdg ->]; [|by apply byte_range]. simpl. rewrite Hdg.
    rewrite rd_byte by lia. cbn [obind].
    destruct (IH fuel (s32 (10 * total + (byte s k - 48))) (k + 1)) as (t & -> & Ht & Hr); [lia|lia|lia| | |].
    + intros i e He. replace (k + 1 + Z.of_nat i) with (k + Z.of_nat (S i)) by lia. by apply Hd.
    + by replace (k + 1 + Z.of_nat (length ds)) with (k + Z.of_nat (S (length ds))) by lia.
    + exists t. split; [done|]. split; [|intros _; apply Hr, s32_range]. rewrite Ht.
      destruct (s32_mod (10 * total + (byte s k - 48))) as [m ->].
      replace (total * 10 + (byte s k - 48)) with (10 * total + (byte s k - 48)) by lia.
      clear. revert m. generalize (10 * total + (byte s k - 48)). clear. unfold value.
      induction ds as [|d ds IH]; intros x m; simpl; [apply s32_add_mul|].
      rewrite <- (IH (x * 10 + d) (m * 10)). f_equal. f_equal. lia.
Qed.

Lemma atol_spec s neg ds n : numeral 10 10 s neg ds n -> bytes s ->
  atol s = Ret (s32 (if neg then - value 10 0 ds else value 10 0 ds)).
Proof.
  intros Hnum Hs. destruct (scan_head (fun b => b) s 10 10 neg ds n id_cast Hs Hnum)
    as (c & p & pre & l & a & Hl0 & Hsp & Hsg & Ha & Hp & Hl2 & Hby & Hl & Hds & Hnd & -> & Hn & Hne).
  assert (pre = []) as -> by (inversion Hp; (done || lia)). simpl length in *. rewrite Z.add_0_r in *.
  unfold atol. rewrite rd_byte by lia. cbn [obind]. rewrite Hsp. cbn [obind].
  assert (Hsign : (if (c =? 45) || (c =? 43) then c <~ rd s p; Ret (c, p + 1) else Ret (c, p)) = Ret (byte s a, a + 1)
    /\ (c =? 45) = neg).
  { unfold skip_sign, get in Hsg. destruct (c =? 45); [|destruct (c =? 43)]; simpl in *;
      (destruct (rd s p) as [b| | |]; simpl in *; try discriminate Hsg; injection Hsg as <- <- <-; done) ||
      (injection Hsg as <- <- <-; done). }
  destruct Hsign as [-> ->]. cbn [obind].
  destruct (atol_loop_spec s ds (length s) 0 a Hs ltac:(lia) Ha ltac:(lia) Hds Hnd) as (t & -> & Ht & Hr).
  cbn [obind]. assert (Htr : is_s32 t) by (apply Hr; unfold is_s32; lia). rewrite s32_small in Ht by done.
  destruct neg; [|by rewrite <- Ht]. f_equal. rewrite Ht. destruct (s32_mod (value 10 0 ds)) as [m ->].
  replace (- (value 10 0 ds + m * 2 ^ 32)) with (- value 10 0 ds + - m * 2 ^ 32) by lia. apply s32_add_mul.
Qed.

(** ** Numbers to strings *)

Lemma wr_app pre x post v : wr (pre ++ x :: post) (Z.of_nat (length pre)) v = Ret (pre ++ v :: post).
Proof.
  unfold wr. rewrite (proj2 (Z.ltb_ge _ _)), Nat2Z.id by lia. rewrite list_lookup_middle by done. simpl.
  f_equal. rewrite insert_app_r_alt by lia. by rewrite Nat.sub_diag.
Qed.

Lemma rd_app pre x post : rd (pre ++ x :: post) (Z.of_nat (length pre)) = Ret x.
Proof. unfold rd. rewrite (proj2 (Z.ltb_ge _ _)), Nat2Z.id by lia. by rewrite list_lookup_middle. Qed.

(** The digits of a number, the last first. *)
Fixpoint to_digits (fuel : nat) (radix val : Z) : list Z :=
  match fuel with
  | O => []
  | S fuel => val mod radix :: if 0 <? val / radix then to_digits fuel radix (val / radix) else []
  end.

Definition digit_char (d : Z) : Z := u8 (if 9 <? d then d - 10 + 97 else d + 48).

Lemma value_app radix acc l d : value radix acc (l ++ [d]) = value radix acc l * radix + d.
Proof. unfold value. by rewrite foldl_app. Qed.

Lemma to_digits_spec fuel radix val : 2 <= radix -> 0 <= val < 2 ^ Z.of_nat fuel -> (0 < fuel)%nat ->
  value radix 0 (reverse (to_digits fuel radix val)) = val
  /\ Forall (fun d => 0 <= d < radix) (to_digits fuel radix val)
  /\ (0 < length (to_digits fuel radix val) <= fuel)%nat.
Proof.
  intros Hr. revert val. induction fuel as [|fuel IH]; intros val Hv Hf; [lia|].
  cbn [to_digits]. pose proof (Z.div_mod val radix ltac:(lia)) as Hdm. pose proof (Z.mod_pos_bound val radix ltac:(lia)).
  destruct (Z.ltb_spec 0 (val / radix)) as [Hpos|Hz].
  - assert (Hlt : val / radix < 2 ^ Z.of_nat fuel).
    { apply Z.div_lt_upper_bound; [lia|]. rewrite Nat2Z.inj_succ, Z.pow_succ_r in Hv by lia. nia. }
    destruct fuel as [|fuel]; [change (2 ^ Z.of_nat 0) with 1 in Hlt; lia|].
    destruct (IH (val / radix) ltac:(lia) ltac:(lia)) as (Hval & Hall & Hlen).
    rewrite reverse_cons, value_app, Hval. split; [lia|]. split; [by constructor|]. simpl length in *. lia.
  - assert (val / radix = 0) by (pose proof (Z.div_pos val radix); lia).
    split; [simpl; lia|]. split; [by apply Forall_singleton|]. simpl. lia.
Qed.

Lemma xtoa_digits_spec fuel pre mid post radix val : 2 <= radix -> 0 <= val < 2 ^ Z.of_nat fuel -> (0 < fuel)%nat ->
  length mid = length (to_digits fuel radix val) ->
  xtoa_digits fuel (pre ++ mid ++ post) (Z.of_nat (length pre)) val radix
  = Ret (pre ++ (digit_char <$> to_digits fuel radix val) ++ post,
         Z.of_nat (length pre + length (to_digits fuel radix val))).
Proof.
  intros Hr. revert pre mid val. induction fuel as [|fuel IH]; intros pre mid val Hv Hf Hmid; [lia|].
  cbn [to_digits xtoa_digits] in *. rewrite (proj2 (Z.eqb_neq radix 0)) by lia.
  destruct mid as [|x mid]; [done|]. simpl app. rewrite wr_app. cbn [obind]. fold (digit_char (val mod radix)).
  pose proof (Z.div_mod val radix ltac:(lia)) as Hdm. pose proof (Z.mod_pos_bound val radix ltac:(lia)).
  destruct (Z.ltb_spec 0 (val / radix)) as [Hpos|Hz].
  - assert (Hlt : val / radix < 2 ^ Z.of_nat fuel).
    { apply Z.div_lt_upper_bound; [lia|]. rewrite Nat2Z.inj_succ, Z.pow_succ_r in Hv by lia. nia. }
    destruct fuel as [|fuel]; [change (2 ^ Z.of_nat 0) with 1 in Hlt; lia|].
    specialize (IH (pre ++ [digit_char (val mod radix)]) mid (val / radix) ltac:(lia) ltac:(lia)).
    rewrite length_app, <- (assoc_L (++)) in IH. simpl in Hmid. injection Hmid as Hmid. specialize (IH Hmid).
    simpl app in IH. replace (Z.of_nat (length pre) + 1) with (Z.of_nat (length pre + 1)) by lia. simpl length in IH.
    rewrite IH, <- (assoc_L (++)). do 2 f_equal. simpl length. lia.
  - simpl in Hmid. destruct mid; [|done]. simpl. do 2 f_equal. lia.
Qed.

Lemma xtoa_reverse_spec fuel pre l post : l <> [] -> (length l <= fuel)%nat ->
  xtoa_reverse fuel (pre ++ l ++ post) (Z.of_nat (length pre)) (Z.of_nat (length pre + length l) - 1)
  = Ret (pre ++ reverse l ++ post).
Proof.
  revert pre l post. induction fuel as [|fuel IH]; intros pre l post Hne Hf; [by destruct l; simpl in Hf; [|lia]|].
  destruct l as [|x l]; [done|]. destruct l as [|y l _] using rev_ind.
  - simpl length. cbn [xtoa_reverse]. replace (Z.of_nat (length pre + 1) - 1) with (Z.of_nat (length pre)) by lia.
    simpl app. rewrite rd_app. cbn [obind]. rewrite wr_app. cbn [obind]. rewrite wr_app. cbn [obind].
    by rewrite (proj2 (Z.ltb_ge _ _)) by lia.
  - cbn [xtoa_reverse]. simpl length in *. rewrite length_app in *. simpl length in *.
    replace (Z.of_nat (length pre + S (length l + 1)) - 1) with (Z.of_nat (length (pre ++ x :: l))) by (rewrite length_app; simpl; lia).
    replace (pre ++ (x :: l ++ [y]) ++ post) with ((pre ++ x :: l) ++ y :: post) by (rewrite <- !(assoc_L (++)); simpl; by rewrite <- (assoc_L (++))).
    rewrite rd_app. cbn [obind].
    assert (Hx : forall v, (pre ++ x :: l) ++ v :: post = pre ++ x :: (l ++ v :: post)) by (intros v; by rewrite <- (assoc_L (++))).
    rewrite Hx, rd_app, <- Hx. cbn [obind]. rewrite wr_app. cbn [obind]. rewrite Hx, wr_app. cbn [obind].
    rewrite reverse_cons, reverse_app. rewrite length_app. simpl length.
    destruct (Z.ltb_spec (Z.of_nat (length pre) + 1) (Z.of_nat (length pre + S (length l)) - 1)) as [Hlt|Hge].
    + specialize (IH (pre ++ [y]) l (x :: post)). rewrite length_app, <- !(assoc_L (++)) in IH. simpl in IH.
      replace (Z.of_nat (length pre) + 1) with (Z.of_nat (length pre + 1)) by lia.
      replace (Z.of_nat (length pre + S (length l)) - 1) with (Z.of_nat (length pre + 1 + length l) - 1) by lia.
      rewrite IH; [|by intros ->; simpl in Hlt; lia|lia]. f_equal. by rewrite <- !(assoc_L (++)).
    + assert (reverse l = l) as -> by (destruct l as [|? [|]]; [done|done|simpl in Hge; lia]).
      f_equal. by rewrite <- !(assoc_L (++)).
Qed.

Lemma digit_char_in base d : 2 <= base <= 36 -> 0 <= d < base ->
  digit_in base (digit_char d) d /\ 48 <= digit_char d < 128 /\ (base = 16 -> is_x (digit_char d) = false).
Proof.
  intros Hb Hd. set (f := fun d => match digit (digit_char d) with Some e => e =? d | None => false end
    && (48 <=? digit_char d) && (digit_char d <? 128) && ((16 <=? d) || negb (is_x (digit_char d)))).
  assert (Hf : forallb (fun k => f (Z.of_nat k)) (seq 0 36) = true) by (by vm_compute).
  rewrite forallb_forall in Hf. specialize (Hf (Z.to_nat d) ltac:(apply in_seq; lia)). unfold f in Hf.
  rewrite Z2Nat.id in Hf by lia. unfold digit_in. destruct (digit (digit_char d)) as [e|]; [|done].
  rewrite !andb_true_iff, orb_true_iff, negb_true_iff in Hf. destruct Hf as [[[H1 H2] H3] H4]. zify_bool. subst e.
  split; [by split; [|lia]|]. split; [lia|]. intros ->. destruct H4 as [H4|H4]; zify_bool; [lia|done].
Qed.

(** The string of a number. *)
Definition digits_of (radix val : Z) : list Z := reverse (to_digits 32 radix val).

Lemma digits_of_spec radix val : 2 <= radix -> is_u32 val ->
  value radix 0 (digits_of radix val) = val /\ Forall (fun d => 0 <= d < radix) (digits_of radix val)
  /\ (0 < length (digits_of radix val) <= 32)%nat.
Proof.
  intros Hr Hv. destruct (to_digits_spec 32 radix val Hr Hv) as (H1 & H2 & H3); [lia|].
  unfold digits_of. rewrite length_reverse. split; [done|]. split; [by apply Forall_reverse|done].
Qed.

(** The place of the digits in the buffer. *)
Lemma buffer_split (buf : list Z) n m : (n + m < length buf)%nat ->
  exists pre mid x post, buf = pre ++ mid ++ x :: post /\ length pre = n /\ length mid = m.
Proof.
  intros Hl. destruct (lookup_lt_is_Some_2 buf (n + m)%nat Hl) as [x Hx].
  exists (take n buf), (take m (drop n buf)), x, (drop (S (n + m)) buf).
  split; [|rewrite !length_take, length_drop; split; lia].
  rewrite <- (take_drop n buf) at 1. f_equal. rewrite <- (take_drop m (drop n buf)) at 1. f_equal.
  rewrite drop_drop. by apply drop_S.
Qed.

Lemma xtoa_spec val buf radix (negative : bool) : 2 <= radix -> is_u32 val -> (34 <= length buf)%nat ->
  let sg := if negative then [45] else [] in
  let str := sg ++ (digit_char <$> digits_of radix (if negative then u32 (- val) else val)) in
  exists post, xtoa val buf radix negative = Ret (str ++ 0 :: post)
    /\ length (str ++ 0 :: post) = length buf /\ (forall b, b ∈ post -> b ∈ buf).
Proof.
  intros Hr Hv Hl sg str. set (v := if negative then u32 (- val) else val) in *.
  assert (Hv' : is_u32 v) by (unfold v; destruct negative; [apply u32_range|done]).
  destruct (digits_of_spec radix v Hr Hv') as (_ & _ & Hlen).
  destruct (buffer_split buf (length sg) (length (digits_of radix v))) as (pre & mid & x & post & -> & Hpre & Hmid).
  { unfold sg. destruct negative; simpl; lia. }
  exists post. split; [|split; [unfold str; rewrite !length_app, length_fmap; simpl; lia|set_solver]]. unfold xtoa.
  assert (Hsg : (if negative then buf <~ wr (pre ++ mid ++ x :: post) 0 45; Ret (buf, 1, u32 (- s32 val))
    else Ret (pre ++ mid ++ x :: post, 0, val)) = Ret (sg ++ mid ++ x :: post, Z.of_nat (length sg), v)).
  { unfold sg, v in *. destruct negative; [|by destruct pre].
    destruct pre as [|y [|]]; [done| |done]. rewrite u32_neg_s32. pose proof (wr_app [] y (mid ++ x :: post) 45) as Hw.
    simpl app in *. simpl length in Hw. change (Z.of_nat 0) with 0 in Hw. by rewrite Hw. }
  rewrite Hsg. cbn [obind]. unfold digits_of in *. rewrite length_reverse in *.
  rewrite xtoa_digits_spec by (done || lia). cbn [obind].
  unfold str, digits_of. fold v. clearbody v.
  generalize dependent (to_digits 32 radix v). intros ds Hlen Hmid.
  replace (length sg + length ds)%nat with (length (sg ++ (digit_char <$> ds))) by (by rewrite length_app, length_fmap).
  rewrite (assoc_L (++) sg _ (x :: post)), wr_app, <- (assoc_L (++)), length_app.
  cbn [obind]. rewrite xtoa_reverse_spec; [|intros Hn; apply (f_equal length) in Hn; rewrite length_fmap in Hn; simpl in Hn; lia|rewrite length_fmap; lia].
  by rewrite <- fmap_reverse, (assoc_L (++)).
Qed.

(** The string that [xtoa] writes is a numeral. *)
Lemma xtoa_numeral radix v (neg : bool) post : 2 <= radix <= 36 -> is_u32 v ->
  let sg := if neg then [45] else [] in
  let str := sg ++ (digit_char <$> digits_of radix v) in
  numeral radix radix (str ++ 0 :: post) neg (digits_of radix v) (Z.of_nat (length str)).
Proof.
  intros Hr Hv sg str. destruct (digits_of_spec radix v ltac:(lia) Hv) as (_ & Hall & Hlen).
  set (ds := digits_of radix v) in *. set (ts := digit_char <$> ds) in *.
  assert (Hts : Forall2 (digit_in radix) ts ds).
  { unfold ts. apply Forall2_fmap_l. apply Forall_Forall2_diag. eapply Forall_impl; [exact Hall|].
    intros d Hd. by apply digit_char_in. }
  pose proof (Numeral radix radix [] sg neg [] ts ds 0 post) as Hn.
  replace (str ++ 0 :: post) with ([] ++ sg ++ [] ++ ts ++ 0 :: post) by (unfold str; by rewrite <- (assoc_L (++))).
  replace (length str) with (length ([] : list Z) + length sg + length ([] : list Z) + length ts)%nat
    by (unfold str; rewrite length_app; simpl; lia).
  apply Hn; [by constructor|unfold sg; destruct neg; constructor| |done|by destruct ds; simpl in Hlen; [lia|]|].
  - apply prefix_plain; [done|]. intros H16 [_ Hx]. unfold ts in Hx. destruct ds as [|d [|e ds]]; simpl in Hlen; [lia| |].
    + by vm_compute in Hx.
    + apply Forall_cons in Hall as [_ Hall]. apply Forall_cons in Hall as [He _].
      destruct (digit_char_in radix e Hr He) as (_ & _ & Hnx). change (is_x (digit_char e) = true) in Hx.
      rewrite Hnx in Hx; done.
  - intros d [Hd _]. by vm_compute in Hd.
Qed.

Lemma xtoa_bytes radix v (neg : bool) post buf : 2 <= radix <= 36 -> is_u32 v -> bytes buf ->
  (forall b, b ∈ post -> b ∈ buf) ->
  bytes (((if neg then [45] else []) ++ (digit_char <$> digits_of radix v)) ++ 0 :: post).
Proof.
  intros Hr Hv Hb Hp. destruct (digits_of_spec radix v ltac:(lia) Hv) as (_ & Hall & _).
  unfold bytes in *. rewrite !Forall_app, Forall_cons, Forall_fmap. split_and!; try lia.
  - destruct neg; repeat constructor; lia.
  - eapply Forall_impl; [exact Hall|]. intros d Hd. simpl. destruct (digit_char_in radix d Hr Hd). lia.
  - rewrite Forall_forall in *. auto.
Qed.

(** ** The properties *)

(** C26: the conversions on a numeral (white space, a sign, a prefix that fits the base and
    digits of the base), by the value [v] of its digits.  They stop at the end of the
    numeral.  [strtoul] is right up to [UINT32_MAX], modulo 2^32 behind a minus sign, and
    reports more; [strtol] is right for numbers without a minus sign and clamps them.  Behind
    a minus sign [strtol] is not what it is meant to be: it compares the number with
    [INT32_MIN] as unsigned integers, so that every [v] up to [INT32_MAX] is reported and
    gives [INT32_MIN], and from there to [UINT32_MAX] the result wraps without a
    report.  [strtoll] reports every number with a minus sign, and [strtoull] every one
    above [INT64_MAX].  [atol] computes the number modulo 2^32. *)
Theorem strtol_correct ibase base s neg ds n :
  numeral ibase base s neg ds n -> bytes s ->
  let v := value base 0 ds in
  strtoul s ibase = Ret (if v <=? UINT32_MAX then if neg then u32 (- v) else v
                         else if neg then 1 else UINT32_MAX, n, UINT32_MAX <? v)
  /\ (neg = false -> strtol s ibase = Ret (Z.min v INT32_MAX, n, INT32_MAX <? v))
  /\ (neg = true -> strtol s ibase =
        if (INT32_MAX <? v) && (v <=? UINT32_MAX) then Ret (s32 (- v), n, false) else Ret (INT32_MIN, n, true))
  /\ strtoull s ibase = Ret (if v <=? INT64_MAX then if neg then u64 (- v) else v
                             else if neg then 1 else UINT64_MAX, n, INT64_MAX <? v)
  /\ strtoll s ibase = Ret (if neg then INT64_MIN else Z.min v INT64_MAX, n, neg || (INT64_MAX <? v))
  /\ (ibase = 10 -> base = 10 -> atol s = Ret (s32 (if neg then - v else v))).
Proof.
  intros Hn Hs v. pose proof (value_nonneg _ _ _ _ _ _ Hn Hs) as Hv. fold v in Hv.
  unfold strtoul, strtol, strtoull, strtoll.
  rewrite !(strtoxl_spec ibase base s neg ds n _ Hn Hs), !(strtoxll_spec ibase base s neg ds n _ Hn Hs). fold v.
  rewrite (Z.ltb_antisym v UINT32_MAX), (Z.ltb_antisym v INT64_MAX). split_and!.
  - destruct (v <=? UINT32_MAX); simpl; by destruct neg.
  - intros ->. cbn [obind]. destruct (Z.ltb_spec INT32_MAX v) as [Hgt|Hle].
    + rewrite Z.min_r by lia. done.
    + rewrite Z.min_l, s32_small by (done || unfold is_s32, INT32_MAX in *; lia). done.
  - intros ->. cbn [obind]. rewrite (Z.ltb_antisym v INT32_MAX).
    destruct (v <=? INT32_MAX); [done|]. destruct (v <=? UINT32_MAX); [|done]. cbn [negb orb andb].
    do 3 f_equal. unfold s32, swrap, u32, uwrap. by rewrite Z.mod_mod.
  - destruct (v <=? INT64_MAX); simpl; by destruct neg.
  - cbn [obind]. destruct neg; [done|]. destruct (Z.leb_spec v INT64_MAX) as [Hle|Hgt]; cbn [negb orb].
    + rewrite Z.min_l by lia. do 3 f_equal. unfold s64, swrap. unfold INT64_MAX in Hle.
      rewrite Z.mod_small by lia. by rewrite (proj2 (Z.ltb_lt _ _)) by lia.
    + by rewrite Z.min_r by lia.
  - intros -> ->. by eapply atol_spec.
Qed.

(** On any string, whatever the base, the conversions return: they never read
    behind the NUL, the end that they store lies in the string, and the number fits its
    type. *)
Lemma strtol_bounds s z ibase (unsigned : bool) :
  bytes s -> s !! z = Some 0 ->
  (exists r p e, strtoxl s ibase unsigned = Ret (r, p, e) /\ is_u32 r /\ 0 <= p <= Z.of_nat z)
  /\ (exists r p e, strtoxll s ibase unsigned = Ret (r, p, e) /\ 0 <= r < 2 ^ 64 /\ 0 <= p <= Z.of_nat z).
Proof.
  intros Hs Hz. apply lookup_lt_Some in Hz as Hlt.
  assert (Hb : byte s (Z.of_nat z) = 0) by (unfold byte; by rewrite Nat2Z.id, Hz).
  unfold strtoxl, strtoxll.
  destruct (scan_total s8 s8_cast s Hs (Z.of_nat z) ltac:(lia) Hb 32 UINT32_MAX ibase) as (r & -> & Hr);
    [unfold UINT32_MAX; lia|].
  destruct (scan_total (fun b => b) id_cast s Hs (Z.of_nat z) ltac:(lia) Hb 64 INT64_MAX ibase) as (r' & -> & Hr');
    [unfold INT64_MAX; lia|].
  cbn [obind]. split.
  - destruct r as [[[[[n p] neg] rdd] ov]|]; [|eexists 0, 0, _; split; [reflexivity|unfold is_u32; lia]].
    destruct (Hr _ _ _ _ _ eq_refl) as [Hp Hn]. destruct rdd; cbn [negb].
    2: { eexists _, 0, _. split; [reflexivity|]. split; [|lia]. destruct neg; [apply u32_range|unfold is_u32; lia]. }
    destruct (_ || _); eexists _, p, _; (split; [reflexivity|]); (split; [|done]); (destruct neg; [apply u32_range|]);
      unfold is_u32, UINT32_MAX, INT32_MAX in *; [destruct unsigned; lia|lia].
  - assert (Hu : forall x, 0 <= u64 x < 2 ^ 64) by (intros x; apply Z.mod_pos_bound; lia).
    destruct r' as [[[[[n p] neg] rdd] ov]|]; [|eexists 0, 0, _; split; [reflexivity|lia]].
    destruct (Hr' _ _ _ _ _ eq_refl) as [Hp Hn]. destruct rdd; cbn [negb].
    2: { eexists _, 0, _. split; [reflexivity|]. split; [|lia]. destruct neg; [apply Hu|lia]. }
    destruct (_ || _); eexists _, p, _; (split; [reflexivity|]); (split; [|done]); (destruct neg; [apply Hu|]);
      unfold UINT64_MAX, INT64_MAX in *; [destruct unsigned; lia|lia].
Qed.


(** ** Witnesses *)

(** "  -12;" *)
Definition ex_minus_12 : list Z := [32; 32] ++ [45] ++ [] ++ [49; 50] ++ 59 :: [0].

Lemma ex_minus_12_numeral : numeral 10 10 ex_minus_12 true [1; 2] 5.
Proof.
  apply (Numeral 10 10 [32; 32] [45] true [] [49; 50] [1; 2] 59 [0]).
  - by repeat constructor.
  - constructor.
  - apply prefix_plain; [lia|done].
  - repeat constructor; by vm_compute.
  - done.
  - intros d [Hd _]. by vm_compute in Hd.
Qed.

Lemma ex_minus_12_bytes : bytes ex_minus_12.
Proof. repeat constructor; lia. Qed.

Lemma strtol_correct_witness : strtol ex_minus_12 10 = Ret (INT32_MIN, 5, true) /\ atol ex_minus_12 = Ret (-12).
Proof.
  destruct (strtol_correct 10 10 ex_minus_12 true [1; 2] 5 ex_minus_12_numeral ex_minus_12_bytes)
    as (_ & _ & H1 & _ & _ & H2).
  split; [exact (H1 eq_refl)|exact (H2 eq_refl eq_refl)].
Defined.

