(* ===== verification/Qsort.v ===== *)
(** * Qsort: sorting and searching, src/src/lib/qsort.c and src/src/lib/bsearch.c

    The array is a list of elements, each the list of its [width] bytes; a pointer to an
    element is its index, a pointer difference in the code is the difference of indices
    times [width].  [comp] is the caller's function, on the bytes of two elements.  An
    access outside the array and a push to a full stack fault. *)

From Stdlib Require Import Sorting.Sorted.
From S2P Require Import Prelude.
Local Open Scope krlean_scope.

Definition CUTOFF : Z := 8.
Definition STACK : nat := 30.

Section Sort.
Context (comp : list Z -> list Z -> Z) (width : Z).

Definition elem (a : list (list Z)) (p : Z) : outcome (list Z) :=
  if p <? 0 then Fault else deref (a !! Z.to_nat p).

Definition set_elem (a : list (list Z)) (p : Z) (x : list Z) : list (list Z) := <[Z.to_nat p := x]> a.

(** [while (width--)]: byte [k] of the two elements. *)
Fixpoint swap_loop (n k : nat) (arr : list (list Z)) (a b : Z) : outcome (list (list Z)) :=
  match n with
  | O => Ret arr
  | S n =>
      x <~ elem arr a; tmp <~ deref (x !! k);
      y <~ elem arr b; v <~ deref (y !! k);
      let arr := set_elem arr a (<[k := v]> x) in
      y <~ elem arr b;
      let arr := set_elem arr b (<[k := tmp]> y) in
      swap_loop n (S k) arr a b
  end.

Definition swap (arr : list (list Z)) (a b : Z) : outcome (list (list Z)) :=
  if a =? b then Ret arr else swap_loop (Z.to_nat width) 0 arr a b.

Definition compare (arr : list (list Z)) (p q : Z) : outcome Z :=
  x <~ elem arr p; y <~ elem arr q; Ret (comp x y).

(** The inner loop of [shortsort]. *)
Fixpoint max_loop (fuel : nat) (arr : list (list Z)) (p max hi : Z) : outcome Z :=
  if p <=? hi then
    match fuel with
    | O => Diverge
    | S fuel => c <~ compare arr p max; max_loop fuel arr (p + 1) (if 0 <? c then p else max) hi
    end
  else Ret max.

Fixpoint shortsort (fuel : nat) (arr : list (list Z)) (lo hi : Z) : outcome (list (list Z)) :=
  if lo <? hi then
    match fuel with
    | O => Diverge
    | S fuel =>
        max <~ max_loop fuel arr (lo + 1) lo hi;
        arr <~ swap arr max hi;
        shortsort fuel arr lo (hi - 1)
    end
  else Ret arr.

(** [do { l += width; } while (l <= hi && comp(l, lo) <= 0)] *)
Fixpoint scan_up (fuel : nat) (arr : list (list Z)) (l lo hi : Z) : outcome Z :=
  match fuel with
  | O => Diverge
  | S fuel =>
      let l := l + 1 in
      if l <=? hi then c <~ compare arr l lo; if c <=? 0 then scan_up fuel arr l lo hi else Ret l
      else Ret l
  end.

(** [do { h -= width; } while (h > lo && comp(h, lo) >= 0)] *)
Fixpoint scan_down (fuel : nat) (arr : list (list Z)) (h lo : Z) : outcome Z :=
  match fuel with
  | O => Diverge
  | S fuel =>
      let h := h - 1 in
      if lo <? h then c <~ compare arr h lo; if 0 <=? c then scan_down fuel arr h lo else Ret h
      else Ret h
  end.

Fixpoint partition (fuel : nat) (arr : list (list Z)) (l h lo hi : Z) : outcome (list (list Z) * Z * Z) :=
  match fuel with
  | O => Diverge
  | S f =>
      l <~ scan_up fuel arr l lo hi;
      h <~ scan_down fuel arr h lo;
      if h <? l then Ret (arr, l, h)
      else arr <~ swap arr l h; partition f arr l h lo hi
  end.

(** The stacks [lostk] and [histk], the last entry first. *)
Definition push (stk : list (Z * Z)) (e : Z * Z) : outcome (list (Z * Z)) :=
  if (length stk <? STACK)%nat then Ret (e :: stk) else Fault.

(** One pass from [recurse]: the array, the stack, and the segment to go on with. *)
Definition sort_segment (arr : list (list Z)) (lo hi : Z) (stk : list (Z * Z))
    : outcome (list (list Z) * list (Z * Z) * option (Z * Z)) :=
  let size := u32 (u32 ((hi - lo) * width) / width + 1) in
  let fuel := Z.to_nat (hi - lo + 3) in
  if size <=? CUTOFF then arr <~ shortsort fuel arr lo hi; Ret (arr, stk, None)
  else
    let mid := lo + size / 2 in
    arr <~ swap arr mid lo;
    '(arr, l, h) <~ partition fuel arr lo (hi + 1) lo hi;
    arr <~ swap arr lo h;
    if (hi - l) * width <=? h * width - 1 - lo * width then
      stk <~ (if lo + 1 <? h then push stk (lo, h - 1) else Ret stk);
      Ret (arr, stk, if l <? hi then Some (l, hi) else None)
    else
      stk <~ (if l <? hi then push stk (l, hi) else Ret stk);
      Ret (arr, stk, if lo + 1 <? h then Some (lo, h - 1) else None).

Fixpoint sort_loop (fuel : nat) (arr : list (list Z)) (lo hi : Z) (stk : list (Z * Z)) : outcome (list (list Z)) :=
  match fuel with
  | O => Diverge
  | S fuel =>
      '(arr, stk, next) <~ sort_segment arr lo hi stk;
      match next with
      | Some (lo, hi) => sort_loop fuel arr lo hi stk
      | None => match stk with
                | (lo, hi) :: stk => sort_loop fuel arr lo hi stk
                | [] => Ret arr
                end
      end
  end.

Definition qsort (arr : list (list Z)) (num : Z) : outcome (list (list Z)) :=
  if (num <? 2) || (width =? 0) then Ret arr
  else sort_loop (Z.to_nat num) arr 0 (num - 1) [].
End Sort.

(** bsearch.c *)
Section Search.
Context (compare_key : list Z -> Z) (base : list (list Z)).

Fixpoint bsearch_loop (fuel : nat) (lo hi num : Z) : outcome (option Z) :=
  if lo <=? hi then
    match fuel with
    | O => Diverge
    | S fuel =>
        let half := num / 2 in
        if truthy half then
          let mid := lo + (if truthy (Z.land num 1) then half else half - 1) in
          x <~ elem base mid;
          let result := compare_key x in
          if result =? 0 then Ret (Some mid)
          else if result <? 0 then
            bsearch_loop fuel lo (mid - 1) (if truthy (Z.land num 1) then half else half - 1)
          else bsearch_loop fuel (mid + 1) hi half
        else if truthy num then
          x <~ elem base lo; Ret (if truthy (compare_key x) then None else Some lo)
        else Ret None
    end
  else Ret None.

Definition bsearch (num : Z) : outcome (option Z) := bsearch_loop (Z.to_nat num + 1) 0 (num - 1) num.
End Search.

(** ** Arrays *)

Definition at_ (arr : list (list Z)) (k : Z) : list Z := arr !!! Z.to_nat k.
Definition inside (arr : list (list Z)) (k : Z) : Prop := 0 <= k < Z.of_nat (length arr).

(** The bytes exchanged: elements [a] and [b] change their places. *)
Definition exchange (arr : list (list Z)) (a b : Z) : list (list Z) :=
  set_elem (set_elem arr a (at_ arr b)) b (at_ arr a).

(** [arr'] is [arr] with the elements from [lo] to [hi] in another order. *)
Record perm_in (lo hi : Z) (arr arr' : list (list Z)) : Prop := {
  pi_perm : arr' ≡ₚ arr;
  pi_out : forall k, 0 <= k -> ~ (lo <= k <= hi) -> at_ arr' k = at_ arr k;
  pi_in : forall k, lo <= k <= hi -> exists j, lo <= j <= hi /\ at_ arr' k = at_ arr j;
}.

Lemma elem_at arr k : inside arr k -> elem arr k = Ret (at_ arr k).
Proof.
  intros Hk. unfold elem, at_, inside in *. rewrite (proj2 (Z.ltb_ge _ _)) by lia.
  destruct (lookup_lt_is_Some_2 arr (Z.to_nat k)) as [x Hx]; [lia|].
  rewrite Hx. simpl. f_equal. symmetry. by apply list_lookup_total_correct.
Qed.

Lemma at_set_eq arr k x : inside arr k -> at_ (set_elem arr k x) k = x.
Proof. intros Hk. unfold at_, set_elem, inside in *. by rewrite list_lookup_total_insert_eq by lia. Qed.

Lemma at_set_ne arr k j x : 0 <= k -> 0 <= j -> k <> j -> at_ (set_elem arr k x) j = at_ arr j.
Proof. intros Hk Hj Hne. unfold at_, set_elem. by rewrite list_lookup_total_insert_ne by lia. Qed.

Lemma length_set arr k x : length (set_elem arr k x) = length arr.
Proof. apply length_insert. Qed.

Lemma inside_set arr k x j : inside (set_elem arr k x) j <-> inside arr j.
Proof. unfold inside. by rewrite length_set. Qed.

Lemma set_set arr k x y : set_elem (set_elem arr k x) k y = set_elem arr k y.
Proof. apply list_insert_insert_eq. Qed.

Lemma set_at arr k : inside arr k -> set_elem arr k (at_ arr k) = arr.
Proof.
  intros Hk. unfold set_elem, at_, inside in *. apply list_insert_id. apply list_lookup_lookup_total_lt. lia.
Qed.

Lemma at_exchange arr a b k : inside arr a -> inside arr b -> 0 <= k ->
  at_ (exchange arr a b) k = if k =? b then at_ arr a else if k =? a then at_ arr b else at_ arr k.
Proof.
  intros Ha Hb Hk. unfold exchange, inside in *. destruct (Z.eqb_spec k b) as [->|Hnb].
  - rewrite at_set_eq; [done|]. by apply inside_set.
  - rewrite at_set_ne by lia. destruct (Z.eqb_spec k a) as [->|]; [by apply at_set_eq|].
    rewrite at_set_ne by lia. done.
Qed.

Lemma lookup_at arr k : inside arr k -> arr !! Z.to_nat k = Some (at_ arr k).
Proof. intros Hk. apply list_lookup_lookup_total_lt. unfold inside in Hk. lia. Qed.

Lemma exchange_perm arr a b : inside arr a -> inside arr b -> exchange arr a b ≡ₚ arr.
Proof. intros Ha Hb. apply Permutation_insert_swap; by apply lookup_at. Qed.

Lemma perm_in_refl lo hi arr : perm_in lo hi arr arr.
Proof. constructor; [done|done|]. intros k Hk. by exists k. Qed.

Lemma perm_in_trans lo hi arr arr1 arr2 : 0 <= lo -> perm_in lo hi arr arr1 -> perm_in lo hi arr1 arr2 ->
  perm_in lo hi arr arr2.
Proof.
  intros Hlo [P1 O1 I1] [P2 O2 I2]. constructor.
  - by rewrite P2.
  - intros k Hk Hn. by rewrite O2, O1.
  - intros k Hk. destruct (I2 k Hk) as (j & Hj & ->). destruct (I1 j Hj) as (i & Hi & ->). by exists i.
Qed.

Lemma perm_in_mono lo hi lo' hi' arr arr' : 0 <= lo' -> lo' <= lo -> hi <= hi' -> perm_in lo hi arr arr' ->
  perm_in lo' hi' arr arr'.
Proof.
  intros H0 Hlo Hhi [P O I]. constructor; [done| |].
  - intros k Hk Hn. apply O; lia.
  - intros k Hk. destruct (decide (lo <= k <= hi)) as [Hi|Hi].
    + destruct (I k Hi) as (j & Hj & ->). exists j. split; [lia|done].
    + exists k. split; [done|]. apply O; lia.
Qed.

Lemma perm_in_exchange lo hi arr a b : 0 <= lo -> lo <= a <= hi -> lo <= b <= hi -> inside arr a -> inside arr b ->
  perm_in lo hi arr (exchange arr a b).
Proof.
  intros H0 Ha Hb Hia Hib. constructor; [by apply exchange_perm| |].
  - intros k Hk Hn. rewrite at_exchange by done. by destruct (Z.eqb_spec k b), (Z.eqb_spec k a); try lia.
  - intros k Hk. rewrite at_exchange by (done || unfold inside in *; lia).
    destruct (k =? b); [by exists a|]. destruct (k =? a); [by exists b|by exists k].
Qed.

Lemma perm_in_length lo hi arr arr' : perm_in lo hi arr arr' -> length arr' = length arr.
Proof. intros H. by rewrite (pi_perm _ _ _ _ H). Qed.

Lemma perm_in_inside lo hi arr arr' k : perm_in lo hi arr arr' -> inside arr' k <-> inside arr k.
Proof. intros H. unfold inside. by rewrite (perm_in_length _ _ _ _ H). Qed.

Definition of_width (width : Z) (arr : list (list Z)) : Prop := Forall (fun x => Z.of_nat (length x) = width) arr.

Lemma perm_in_width width lo hi arr arr' : perm_in lo hi arr arr' -> of_width width arr -> of_width width arr'.
Proof. intros H. unfold of_width. by rewrite (pi_perm _ _ _ _ H). Qed.

Lemma at_width width arr k : of_width width arr -> inside arr k -> Z.of_nat (length (at_ arr k)) = width.
Proof. intros Hw Hk. exact (Forall_lookup_1 _ _ _ _ Hw (lookup_at arr k Hk)). Qed.

(** ** swap *)

Lemma insert_mix (x y : list Z) k v : length x = length y -> y !! k = Some v ->
  <[k := v]> (take k y ++ drop k x) = take (S k) y ++ drop (S k) x.
Proof.
  intros Hl Hv. pose proof (lookup_lt_Some _ _ _ Hv) as Hk.
  destruct (lookup_lt_is_Some_2 x k) as [u Hu]; [lia|].
  rewrite (drop_S _ _ _ Hu), insert_middle by (rewrite length_take; lia).
  rewrite (take_S_r _ _ _ Hv). by rewrite <- (assoc_L (++)).
Qed.

Lemma lookup_mix (x y : list Z) k : length x = length y -> (take k y ++ drop k x) !! k = x !! k.
Proof.
  intros Hl. destruct (decide (k < length y)%nat).
  - rewrite lookup_app_r by (rewrite length_take; lia). rewrite length_take, lookup_drop. f_equal. lia.
  - rewrite !lookup_ge_None_2; [done|lia|]. rewrite length_app, length_take, length_drop. lia.
Qed.

(** What the caller has to promise about [comp] for the result to be sorted. *)
Definition ordering (comp : list Z -> list Z -> Z) : Prop :=
  (forall x y, comp x y <= 0 <-> 0 <= comp y x)
  /\ (forall x y z, comp x y <= 0 -> comp y z <= 0 -> comp x z <= 0).

Section SortSpec.
Context (comp : list Z -> list Z -> Z) (width : Z).

Lemma swap_loop_spec arr a b x y n k : a <> b -> inside arr a -> inside arr b -> length x = length y ->
  (n + k = length x)%nat ->
  swap_loop n k (set_elem (set_elem arr a (take k y ++ drop k x)) b (take k x ++ drop k y)) a b
  = Ret (set_elem (set_elem arr a y) b x).
Proof.
  intros Hab Ha Hb Hl. revert k. induction n as [|n IH]; intros k Hk; cbn [swap_loop].
  { rewrite !take_ge, !drop_ge by lia. by rewrite !app_nil_r. }
  assert (Hset : forall v w, set_elem (set_elem (set_elem (set_elem arr a v) b w) a (take (S k) y ++ drop (S k) x)) b
    (take (S k) x ++ drop (S k) y) = set_elem (set_elem arr a (take (S k) y ++ drop (S k) x)) b (take (S k) x ++ drop (S k) y)).
  { intros v w. unfold set_elem, inside in *. rewrite (list_insert_insert_ne _ (Z.to_nat a) (Z.to_nat b)) by lia.
    rewrite list_insert_insert_eq.
    by rewrite list_insert_insert_eq. }
  destruct (lookup_lt_is_Some_2 x k) as [u Hu]; [lia|]. destruct (lookup_lt_is_Some_2 y k) as [v Hv]; [lia|].
  rewrite elem_at by by rewrite !inside_set. rewrite at_set_ne by (unfold inside in *; lia).
  rewrite at_set_eq by done. cbn [obind]. rewrite lookup_mix, Hu by done. cbn [deref obind].
  rewrite elem_at by by rewrite !inside_set. rewrite at_set_eq by by rewrite inside_set. cbn [obind].
  rewrite lookup_mix, Hv by done. cbn [deref obind].
  rewrite elem_at by by rewrite !inside_set. rewrite at_set_ne by (unfold inside in *; lia).
  rewrite at_set_eq by by rewrite inside_set. cbn [obind].
  rewrite !insert_mix by done. rewrite Hset. apply IH. lia.
Qed.

Lemma swap_spec arr a b : of_width width arr -> inside arr a -> inside arr b ->
  swap width arr a b = Ret (exchange arr a b).
Proof.
  intros Hw Ha Hb. unfold swap. destruct (Z.eqb_spec a b) as [->|Hab].
  { unfold exchange. by rewrite set_set, set_at. }
  pose proof (at_width _ _ _ Hw Ha) as Hla. pose proof (at_width _ _ _ Hw Hb) as Hlb.
  pose proof (swap_loop_spec arr a b (at_ arr a) (at_ arr b) (Z.to_nat width) 0 Hab Ha Hb ltac:(lia) ltac:(lia)) as Hs.
  simpl in Hs. rewrite !drop_0 in Hs. rewrite set_at in Hs by done. rewrite set_at in Hs by done. exact Hs.
Qed.

Lemma compare_at arr p q : inside arr p -> inside arr q -> compare comp arr p q = Ret (comp (at_ arr p) (at_ arr q)).
Proof. intros Hp Hq. unfold compare. by rewrite !elem_at. Qed.

(** ** shortsort *)

Lemma max_loop_spec fuel arr p max lo hi : inside arr lo -> inside arr hi ->
  lo <= max < p -> p <= hi + 1 -> hi + 1 - p <= Z.of_nat fuel ->
  exists m, max_loop comp fuel arr p max hi = Ret m /\ lo <= m <= hi
    /\ (ordering comp -> (forall k, lo <= k < p -> comp (at_ arr k) (at_ arr max) <= 0) ->
        forall k, lo <= k <= hi -> comp (at_ arr k) (at_ arr m) <= 0).
Proof.
  intros Hlo Hhi. unfold inside in *. revert p max. induction fuel as [|fuel IH]; intros p max Hm Hp Hf.
  - exists max. simpl. rewrite (proj2 (Z.leb_gt p hi)) by lia. split; [done|]. split; [lia|]. intros _ H k Hk. apply H. lia.
  - simpl. destruct (Z.leb_spec p hi).
    + rewrite compare_at by (unfold inside; lia). cbn [obind]. destruct (Z.ltb_spec 0 (comp (at_ arr p) (at_ arr max))) as [Hc|Hc].
      * destruct (IH (p + 1) p) as (m & -> & Hmr & Hmax); [lia|lia|lia|]. exists m. split; [done|]. split; [done|].
        intros [Hs Ht] H' k Hk. apply Hmax; [by split| |done]. intros j Hj. destruct (decide (j = p)) as [->|].
        -- destruct (Z.leb_spec (comp (at_ arr p) (at_ arr p)) 0) as [|Hpp]; [done|].
           assert (~ comp (at_ arr p) (at_ arr p) <= 0) as Hn by lia. rewrite Hs in Hn. lia.
        -- apply (Ht _ (at_ arr max)); [apply H'; lia|]. apply Hs. lia.
      * destruct (IH (p + 1) max) as (m & -> & Hmr & Hmax); [lia|lia|lia|]. exists m. split; [done|]. split; [done|].
        intros Ho H' k Hk. apply Hmax; [done| |done]. intros j Hj. destruct (decide (j = p)) as [->|]; [done|apply H'; lia].
    + exists max. split; [done|]. split; [lia|]. intros _ H' k Hk. apply H'. lia.
Qed.

Lemma ordering_refl x : ordering comp -> comp x x <= 0.
Proof. intros [Hs _]. destruct (Z.leb_spec (comp x x) 0) as [|H]; [done|]. apply Hs. lia. Qed.

Lemma shortsort_spec fuel arr lo hi : of_width width arr -> inside arr lo -> inside arr hi ->
  hi - lo < Z.of_nat fuel ->
  exists arr', shortsort comp width fuel arr lo hi = Ret arr' /\ perm_in lo hi arr arr'
    /\ (ordering comp -> forall i j, lo <= i -> i < j -> j <= hi -> comp (at_ arr' i) (at_ arr' j) <= 0).
Proof.
  revert arr hi. induction fuel as [|fuel IH]; intros arr hi Hw Hlo Hhi Hf.
  - exists arr. simpl. rewrite (proj2 (Z.ltb_ge lo hi)) by lia. split; [done|]. split; [apply perm_in_refl|lia].
  - simpl. destruct (Z.ltb_spec lo hi) as [Hlt|]; [|exists arr; split; [done|]; split; [apply perm_in_refl|lia]].
    destruct (max_loop_spec fuel arr (lo + 1) lo lo hi) as (m & -> & Hm & Hmax); try done; try lia. cbn [obind].
    assert (Hmi : inside arr m) by (unfold inside in *; lia).
    rewrite swap_spec by done. cbn [obind]. set (a1 := exchange arr m hi).
    assert (H1 : perm_in lo hi arr a1) by (apply perm_in_exchange; (done || unfold inside in *; lia)).
    destruct (IH a1 (hi - 1)) as (arr' & -> & H2 & Hs).
    { by eapply perm_in_width. }
    { by apply (perm_in_inside _ _ _ _ _ H1). }
    { apply (perm_in_inside _ _ _ _ _ H1). unfold inside in *. lia. }
    { lia. }
    exists arr'. split; [done|]. split.
    { eapply perm_in_trans; [unfold inside in *; lia|exact H1|]. eapply perm_in_mono; [| | |exact H2]; unfold inside in *; lia. }
    intros Ho i j Hi Hij Hj. destruct (decide (j = hi)) as [->|]; [|apply Hs; [done|lia|lia|lia]].
    rewrite (pi_out _ _ _ _ H2 hi) by (unfold inside in *; lia).
    assert (at_ a1 hi = at_ arr m) as -> by (unfold a1; rewrite at_exchange by (done || unfold inside in *; lia); by rewrite Z.eqb_refl).
    destruct (pi_in _ _ _ _ H2 i ltac:(lia)) as (k & Hk & ->).
    destruct (pi_in _ _ _ _ H1 k ltac:(lia)) as (k' & Hk' & ->).
    apply Hmax; [done| |done]. intros k0 Hk0. assert (k0 = lo) as -> by lia. by apply ordering_refl.
Qed.

(** ** The partition *)

Lemma scan_up_spec fuel arr l lo hi : inside arr lo -> inside arr hi -> lo <= l <= hi -> hi - l < Z.of_nat fuel ->
  exists l', scan_up comp fuel arr l lo hi = Ret l' /\ l < l' <= hi + 1
    /\ (forall k, l < k < l' -> comp (at_ arr k) (at_ arr lo) <= 0)
    /\ (l' <= hi -> 0 < comp (at_ arr l') (at_ arr lo)).
Proof.
  intros Hlo Hhi. unfold inside in *. revert l. induction fuel as [|fuel IH]; intros l Hl Hf; [lia|]. simpl.
  destruct (Z.leb_spec (l + 1) hi) as [Hle|]; [|exists (l + 1); split; [done|]; split; [lia|]; split; [intros; lia|lia]].
  rewrite compare_at by (unfold inside; lia). cbn [obind].
  destruct (Z.leb_spec (comp (at_ arr (l + 1)) (at_ arr lo)) 0) as [Hc|Hc].
  - destruct (IH (l + 1)) as (l' & -> & Hr & Hk & Hs); [lia|lia|]. exists l'. split; [done|]. split; [lia|]. split; [|done].
    intros k Hkr. destruct (decide (k = l + 1)) as [->|]; [done|apply Hk; lia].
  - exists (l + 1). split; [done|]. split; [lia|]. split; [intros; lia|done].
Qed.

Lemma scan_down_spec fuel arr h lo : inside arr lo -> lo < h <= Z.of_nat (length arr) -> h - lo <= Z.of_nat fuel ->
  exists h', scan_down comp fuel arr h lo = Ret h' /\ lo <= h' < h
    /\ (forall k, h' < k < h -> 0 <= comp (at_ arr k) (at_ arr lo))
    /\ (lo < h' -> comp (at_ arr h') (at_ arr lo) < 0).
Proof.
  intros Hlo. unfold inside in *. revert h. induction fuel as [|fuel IH]; intros h Hh Hf; [lia|]. simpl.
  destruct (Z.ltb_spec lo (h - 1)) as [Hlt|]; [|exists (h - 1); split; [done|]; split; [lia|]; split; [intros; lia|lia]].
  rewrite compare_at by (unfold inside; lia). cbn [obind].
  destruct (Z.leb_spec 0 (comp (at_ arr (h - 1)) (at_ arr lo))) as [Hc|Hc].
  - destruct (IH (h - 1)) as (h' & -> & Hr & Hk & Hs); [lia|lia|]. exists h'. split; [done|]. split; [lia|]. split; [|done].
    intros k Hkr. destruct (decide (k = h - 1)) as [->|]; [done|apply Hk; lia].
  - exists (h - 1). split; [done|]. split; [lia|]. split; [intros; lia|done].
Qed.

Lemma partition_spec fuel arr l h lo hi : of_width width arr -> inside arr lo -> inside arr hi ->
  lo <= l < h -> h <= hi + 1 -> hi - l < Z.of_nat fuel -> h - lo <= Z.of_nat fuel ->
  (forall k, lo < k <= l -> comp (at_ arr k) (at_ arr lo) <= 0) ->
  (forall k, h <= k <= hi -> 0 <= comp (at_ arr k) (at_ arr lo)) ->
  exists arr' l' h', partition comp width fuel arr l h lo hi = Ret (arr', l', h')
    /\ perm_in (lo + 1) hi arr arr' /\ lo <= h' < l' /\ l' <= hi + 1 /\ h' <= hi
    /\ (forall k, lo < k < l' -> comp (at_ arr' k) (at_ arr lo) <= 0)
    /\ (forall k, h' < k <= hi -> 0 <= comp (at_ arr' k) (at_ arr lo)).
Proof.
  revert arr l h. induction fuel as [|f IH]; intros arr l h Hw Hlo Hhi Hl Hh Hf1 Hf2 Hle Hge; [unfold inside in *; lia|].
  cbn [partition]. unfold inside in *.
  destruct (scan_up_spec (S f) arr l lo hi) as (l' & -> & Hl' & Hup & Hus); try done; try lia.
  destruct (scan_down_spec (S f) arr h lo) as (h' & -> & Hh' & Hdn & Hds); try done; try lia. cbn [obind].
  assert (Hle' : forall k, lo < k < l' -> comp (at_ arr k) (at_ arr lo) <= 0).
  { intros k Hk. destruct (decide (k <= l)); [apply Hle; lia|apply Hup; lia]. }
  assert (Hge' : forall k, h' < k <= hi -> 0 <= comp (at_ arr k) (at_ arr lo)).
  { intros k Hk. destruct (decide (h <= k)); [apply Hge; lia|apply Hdn; lia]. }
  destruct (Z.ltb_spec h' l') as [Hlt|Hnl].
  { exists arr, l', h'. split; [done|]. split; [apply perm_in_refl|]. split_and!; (done || lia). }
  specialize (Hus ltac:(lia)). specialize (Hds ltac:(lia)).
  assert (l' <> h') by (intros ->; lia).
  rewrite swap_spec by (done || unfold inside; lia). cbn [obind]. set (a1 := exchange arr l' h').
  assert (H1 : perm_in (lo + 1) hi arr a1) by (apply perm_in_exchange; unfold inside; lia).
  assert (Hlen : length a1 = length arr) by by apply (perm_in_length _ _ _ _ H1).
  assert (Hp : at_ a1 lo = at_ arr lo) by (apply (pi_out _ _ _ _ H1); lia).
  assert (Hat : forall k, 0 <= k -> at_ a1 k = if k =? h' then at_ arr l' else if k =? l' then at_ arr h' else at_ arr k)
    by (intros k Hk; apply at_exchange; unfold inside; lia).
  destruct (IH a1 l' h') as (arr' & l2 & h2 & Hr & H2 & Ho & Hb1 & Hb2 & Hc1 & Hc2); try lia.
  { by eapply perm_in_width. }
  { intros k Hk. rewrite Hp, Hat by lia. destruct (Z.eqb_spec k h'); [lia|]. destruct (Z.eqb_spec k l'); [lia|]. apply Hle'. lia. }
  { intros k Hk. rewrite Hp, Hat by lia. destruct (Z.eqb_spec k h'); [lia|]. destruct (Z.eqb_spec k l'); [lia|]. apply Hge'. lia. }
  exists arr', l2, h2. rewrite Hp in *. split; [done|]. split; [eapply perm_in_trans; [|exact H1|exact H2]; lia|]. done.
Qed.

(** ** A segment *)

Definition size_of (s : Z * Z) : Z := s.2 - s.1 + 1.
Definition both_in (s : Z * Z) (i j : Z) : Prop := s.1 <= i /\ j <= s.2.

(** What a pass leaves to do: at most two parts of the segment, the one to go on with at most
    half of it when the other is pushed, and every pair of elements in order but those that
    lie in one part. *)
Record parts (lo hi : Z) (arr : list (list Z)) (stk stk' : list (Z * Z)) (next : option (Z * Z)) : Prop := {
  pt_stack : exists pushed, stk' = pushed ++ stk
    /\ (pushed = [] \/ exists s, pushed = [s] /\ lo <= s.1 /\ s.1 < s.2 /\ s.2 <= hi /\ size_of s < size_of (lo, hi)
         /\ forall n, next = Some n -> 2 * size_of n <= size_of (lo, hi) /\ size_of n + size_of s < size_of (lo, hi)
              /\ (n.2 < s.1 \/ s.2 < n.1))
    /\ (ordering comp -> forall i j, lo <= i -> i < j -> j <= hi ->
          comp (at_ arr i) (at_ arr j) <= 0 \/ exists s, s ∈ option_list next ++ pushed /\ both_in s i j);
  pt_next : forall n, next = Some n -> lo <= n.1 /\ n.1 < n.2 /\ n.2 <= hi /\ size_of n < size_of (lo, hi);
}.

Lemma push_small stk e : (length stk < STACK)%nat -> push stk e = Ret (e :: stk).
Proof. intros H. unfold push. by rewrite (proj2 (Nat.ltb_lt _ _) H). Qed.

Lemma parts_intro lo hi arr stk l h (cond : bool) : lo <= h < l -> l <= hi + 1 -> h <= hi ->
  (length stk < STACK)%nat -> cond = (hi - l + 1 <=? h - lo) ->
  (ordering comp -> forall i j, lo <= i -> i < l -> h <= j -> j <= hi -> comp (at_ arr i) (at_ arr j) <= 0) ->
  exists stk' next,
    (if cond then
       stk <~ (if lo + 1 <? h then push stk (lo, h - 1) else Ret stk);
       Ret (arr, stk, if l <? hi then Some (l, hi) else None)
     else
       stk <~ (if l <? hi then push stk (l, hi) else Ret stk);
       Ret (arr, stk, if lo + 1 <? h then Some (lo, h - 1) else None)) = Ret (arr, stk', next)
    /\ parts lo hi arr stk stk' next.
Proof.
  intros Hh Hl Hhi Hstk Hcond Hord. subst cond.
  assert (Hpairs : ordering comp -> forall i j, lo <= i -> i < j -> j <= hi ->
    comp (at_ arr i) (at_ arr j) <= 0 \/ (j < h /\ lo + 1 < h) \/ (l <= i /\ l < hi)).
  { intros Ho i j Hi Hij Hj. destruct (decide (j < h)); [right; left; lia|]. destruct (decide (l <= i)); [right; right; lia|].
    left. apply Hord; (done || lia). }
  destruct (Z.leb_spec (hi - l + 1) (h - lo)) as [Hc|Hc].
  - destruct (Z.ltb_spec (lo + 1) h) as [H1|H1].
    + rewrite push_small by done. cbn [obind]. eexists _, _. split; [reflexivity|]. constructor.
      * exists [(lo, h - 1)]. split; [done|]. split.
        { right. exists (lo, h - 1). unfold size_of. simpl. split_and!; try done; try lia.
          intros n. destruct (Z.ltb_spec l hi); [|done]. intros [= <-]. simpl. lia. }
        intros Ho i j Hi Hij Hj. destruct (Hpairs Ho i j Hi Hij Hj) as [?|[[? _]|[? Hlh]]]; [by left| |]; right.
        -- exists (lo, h - 1). split; [set_solver|]. unfold both_in. simpl. lia.
        -- exists (l, hi). rewrite (proj2 (Z.ltb_lt l hi)) by done. split; [set_solver|]. unfold both_in. simpl. lia.
      * intros n. destruct (Z.ltb_spec l hi); [|done]. intros [= <-]. unfold size_of. simpl. lia.
    + cbn [obind]. eexists _, _. split; [reflexivity|]. constructor.
      * exists []. split; [done|]. split; [by left|]. intros Ho i j Hi Hij Hj.
        destruct (Hpairs Ho i j Hi Hij Hj) as [?|[[? ?]|[? Hlh]]]; [by left|lia|]. right.
        exists (l, hi). rewrite (proj2 (Z.ltb_lt l hi)) by done. split; [set_solver|]. unfold both_in. simpl. lia.
      * intros n. destruct (Z.ltb_spec l hi); [|done]. intros [= <-]. unfold size_of. simpl. lia.
  - destruct (Z.ltb_spec l hi) as [H1|H1].
    + rewrite push_small by done. cbn [obind]. eexists _, _. split; [reflexivity|]. constructor.
      * exists [(l, hi)]. split; [done|]. split.
        { right. exists (l, hi). unfold size_of. simpl. split_and!; try done; try lia.
          intros n. destruct (Z.ltb_spec (lo + 1) h); [|done]. intros [= <-]. simpl. lia. }
        intros Ho i j Hi Hij Hj. destruct (Hpairs Ho i j Hi Hij Hj) as [?|[[? Hlh]|[? ?]]]; [by left| |]; right.
        -- exists (lo, h - 1). rewrite (proj2 (Z.ltb_lt (lo + 1) h)) by done. split; [set_solver|]. unfold both_in. simpl. lia.
        -- exists (l, hi). split; [set_solver|]. unfold both_in. simpl. lia.
      * intros n. destruct (Z.ltb_spec (lo + 1) h); [|done]. intros [= <-]. unfold size_of. simpl. lia.
    + cbn [obind]. eexists _, _. split; [reflexivity|]. constructor.
      * exists []. split; [done|]. split; [by left|]. intros Ho i j Hi Hij Hj.
        destruct (Hpairs Ho i j Hi Hij Hj) as [?|[[? Hlh]|[? ?]]]; [by left| |lia]. right.
        exists (lo, h - 1). rewrite (proj2 (Z.ltb_lt (lo + 1) h)) by done. split; [set_solver|]. unfold both_in. simpl. lia.
      * intros n. destruct (Z.ltb_spec (lo + 1) h); [|done]. intros [= <-]. unfold size_of. simpl. lia.
Qed.

Lemma segment_size lo hi : 0 < width -> 0 <= lo < hi -> (hi + 1) * width < 2 ^ 31 ->
  u32 (u32 ((hi - lo) * width) / width + 1) = hi - lo + 1.
Proof.
  intros Hw Hlo Hn. rewrite (u32_small (_ * _)) by (unfold is_u32; nia).
  rewrite Z.div_mul by lia. apply u32_small. unfold is_u32. nia.
Qed.

Lemma sort_segment_spec arr lo hi stk : 0 < width -> of_width width arr ->
  Z.of_nat (length arr) * width < 2 ^ 31 -> 0 <= lo < hi -> hi < Z.of_nat (length arr) ->
  (CUTOFF < hi - lo + 1 -> (length stk < STACK)%nat) ->
  exists arr' stk' next, sort_segment comp width arr lo hi stk = Ret (arr', stk', next)
    /\ perm_in lo hi arr arr' /\ parts lo hi arr' stk stk' next.
Proof.
  intros Hw0 Hw Hmem Hlo Hhi Hstk. unfold sort_segment. rewrite segment_size by (done || nia).
  assert (Hilo : inside arr lo) by (unfold inside; lia). assert (Hihi : inside arr hi) by (unfold inside; lia).
  destruct (Z.leb_spec (hi - lo + 1) CUTOFF) as [Hs|Hs].
  { destruct (shortsort_spec (Z.to_nat (hi - lo + 3)) arr lo hi Hw Hilo Hihi ltac:(lia)) as (arr' & -> & Hp & Ho).
    cbn [obind]. exists arr', stk, None. split; [done|]. split; [done|]. constructor; [|done].
    exists []. split; [done|]. split; [by left|]. intros Hord i j Hi Hij Hj. left. by apply Ho. }
  specialize (Hstk Hs). set (mid := lo + (hi - lo + 1) / 2).
  assert (Hmid : lo <= mid <= hi) by (unfold mid; lia_mod). assert (Him : inside arr mid) by (unfold inside in *; lia).
  rewrite swap_spec by done. cbn [obind]. set (a1 := exchange arr mid lo).
  assert (H1 : perm_in lo hi arr a1) by (apply perm_in_exchange; (done || lia)).
  assert (Hi1 : forall k, inside a1 k <-> inside arr k) by (intros k; by apply (perm_in_inside lo hi)).
  assert (Hw1 : of_width width a1) by by eapply perm_in_width.
  destruct (partition_spec (Z.to_nat (hi - lo + 3)) a1 lo (hi + 1) lo hi) as (a2 & l & h & -> & H2 & Hh & Hl & Hhh & Hc1 & Hc2);
    try done; try lia; try by apply Hi1.
  cbn [obind]. assert (Hi2 : forall k, inside a2 k <-> inside arr k) by (intros k; rewrite (perm_in_inside _ _ _ _ k H2); done).
  assert (Hw2 : of_width width a2) by by eapply perm_in_width.
  rewrite swap_spec by (done || (apply Hi2; unfold inside in *; lia)). cbn [obind]. set (a3 := exchange a2 lo h).
  assert (H3 : perm_in lo hi a2 a3) by (apply perm_in_exchange; (lia || (apply Hi2; unfold inside in *; lia))).
  assert (Hlo2 : at_ a2 lo = at_ a1 lo) by (apply (pi_out _ _ _ _ H2); lia).
  assert (Hat : forall k, 0 <= k -> at_ a3 k = if k =? h then at_ a1 lo else if k =? lo then at_ a2 h else at_ a2 k).
  { intros k Hk. rewrite <- Hlo2. apply at_exchange; (done || (apply Hi2; unfold inside in *; lia)). }
  destruct (parts_intro lo hi a3 stk l h ((hi - l) * width <=? h * width - 1 - lo * width)) as (stk' & next & Hr & Hparts);
    try done; try lia.
  { apply eq_true_iff_eq. rewrite !Z.leb_le. nia. }
  { intros Ho i j Hi Hil Hhj Hj. pose proof Ho as [Hsym Htr]. pose proof (ordering_refl (at_ a1 lo) Ho) as Hrefl.
    apply (Htr _ (at_ a1 lo)).
    - rewrite Hat by lia. destruct (Z.eqb_spec i h); [done|]. destruct (Z.eqb_spec i lo); apply Hc1; lia.
    - apply Hsym. rewrite Hat by lia. destruct (Z.eqb_spec j h); [by apply Hsym|].
      destruct (Z.eqb_spec j lo); [lia|]. apply Hc2. lia. }
  exists a3, stk', next. split; [exact Hr|]. split; [|done].
  eapply perm_in_trans; [lia|exact H1|]. eapply perm_in_trans; [lia| |exact H3].
  eapply perm_in_mono; [| | |exact H2]; lia.
Qed.

(** ** The segments on the stack *)

Definition apart (s t : Z * Z) : Prop := s.2 < t.1 \/ t.2 < s.1.

(** [pend] are the segments that are still to be sorted. *)
Record pending (num : Z) (arr : list (list Z)) (pend : list (Z * Z)) : Prop := {
  pd_apart : ForallOrdPairs apart pend;
  pd_range : forall s, s ∈ pend -> 0 <= s.1 /\ s.1 < s.2 /\ s.2 < num;
  pd_sorted : ordering comp -> forall i j, 0 <= i -> i < j -> j < num ->
    comp (at_ arr i) (at_ arr j) <= 0 \/ exists s, s ∈ pend /\ both_in s i j;
}.

(** An entry of the stack is at most a [2 ^ k]-th of the array, where [k] is its index. *)
Fixpoint halved (num : Z) (stk : list (Z * Z)) : Prop :=
  match stk with
  | [] => True
  | s :: stk => size_of s * 2 ^ Z.of_nat (length stk) <= num /\ halved num stk
  end.

Definition total (pend : list (Z * Z)) : Z := foldr (fun s n => size_of s + n) 0 pend.

Lemma pending_step num arr arr' lo hi stk new :
  pending num arr ((lo, hi) :: stk) -> perm_in lo hi arr arr' ->
  (forall s, s ∈ new -> lo <= s.1 /\ s.1 < s.2 /\ s.2 <= hi) -> ForallOrdPairs apart new ->
  (ordering comp -> forall i j, lo <= i -> i < j -> j <= hi ->
     comp (at_ arr' i) (at_ arr' j) <= 0 \/ exists s, s ∈ new /\ both_in s i j) ->
  pending num arr' (new ++ stk).
Proof.
  intros [Ha Hr Hs] Hp Hnew Hna Hin. inversion Ha as [|? ? Hfar Hstk]; subst. rewrite Forall_forall in Hfar.
  destruct (Hr (lo, hi)) as (Hlo & Hlh & Hhn); [set_solver|]. simpl in *. constructor.
  - clear Hin. induction Hna as [|s new Hs1 Hna IH]; [done|]. simpl. constructor.
    + apply Forall_app. split; [done|]. apply Forall_forall. intros t Ht. destruct (Hnew s) as (?&?&?); [set_solver|].
      destruct (Hfar t Ht); unfold apart in *; simpl in *; lia.
    + apply IH. intros t Ht. apply Hnew. set_solver.
  - intros s [Hs1|Hs1]%elem_of_app; [destruct (Hnew s Hs1); lia|]. apply Hr. set_solver.
  - intros Ho i j Hi Hij Hj.
    assert (Hout : forall k x, lo <= k <= hi -> x ∈ stk -> ~ (x.1 <= k <= x.2)).
    { intros k x Hk Hx. destruct (Hfar x Hx) as [?|?]; simpl in *; lia. }
    destruct (decide (lo <= i <= hi)) as [Hii|Hii], (decide (lo <= j <= hi)) as [Hjj|Hjj].
    + destruct (Hin Ho i j) as [?|(x & Hx & Hb)]; [lia|lia|lia|by left|right]. exists x. split; [set_solver|done].
    + destruct (pi_in _ _ _ _ Hp i Hii) as (k & Hk & ->). rewrite (pi_out _ _ _ _ Hp j) by lia.
      destruct (Hs Ho k j) as [?|(x & [->|Hx]%elem_of_cons & Hb)]; [lia|lia|lia|by left| |].
      * unfold both_in in Hb. simpl in Hb. lia.
      * exfalso. apply (Hout k x Hk Hx). destruct Hb. lia.
    + destruct (pi_in _ _ _ _ Hp j Hjj) as (k & Hk & ->). rewrite (pi_out _ _ _ _ Hp i) by lia.
      destruct (Hs Ho i k) as [?|(x & [->|Hx]%elem_of_cons & Hb)]; [lia|lia|lia|by left| |].
      * unfold both_in in Hb. simpl in Hb. lia.
      * exfalso. apply (Hout k x Hk Hx). destruct Hb. lia.
    + rewrite !(pi_out _ _ _ _ Hp) by lia.
      destruct (Hs Ho i j) as [?|(x & [->|Hx]%elem_of_cons & Hb)]; [lia|lia|lia|by left| |].
      * unfold both_in in Hb. simpl in Hb. lia.
      * right. exists x. split; [set_solver|done].
Qed.

Lemma total_nonneg pend : (forall s, s ∈ pend -> s.1 < s.2) -> 0 <= total pend.
Proof.
  intros Hr. induction pend as [|s pend IH]; simpl; [lia|].
  pose proof (Hr s ltac:(set_solver)). specialize (IH ltac:(set_solver)). unfold size_of. lia.
Qed.

(** What is left after a pass, and that it is less. *)
Lemma parts_pending num arr arr' lo hi stk stk' next :
  pending num arr ((lo, hi) :: stk) -> perm_in lo hi arr arr' -> parts lo hi arr' stk stk' next ->
  halved num stk -> size_of (lo, hi) * 2 ^ Z.of_nat (length stk) <= num ->
  pending num arr' (option_list next ++ stk') /\ halved num stk'
  /\ (forall n, next = Some n -> size_of n * 2 ^ Z.of_nat (length stk') <= num)
  /\ total (option_list next ++ stk') < total ((lo, hi) :: stk).
Proof.
  intros Hpd Hp [(pushed & -> & Hpush & Hord) Hn] Hh Hsz.
  destruct (pd_range _ _ _ Hpd (lo, hi)) as (Hlo & Hlh & Hhn); [set_solver|]. simpl in Hlo, Hlh, Hhn.
  assert (Hpow : 0 < 2 ^ Z.of_nat (length stk)) by lia. set (w := 2 ^ Z.of_nat (length stk)) in *.
  assert (Happ : option_list next ++ pushed ++ stk = (option_list next ++ pushed) ++ stk) by by rewrite (assoc_L (++)).
  split; [|split; [|split]].
  - rewrite Happ. eapply pending_step; [exact Hpd|exact Hp| | |exact Hord].
    + intros s [Hs|Hs]%elem_of_app.
      * destruct next as [n|]; [|by apply elem_of_nil in Hs]. apply list_elem_of_singleton in Hs as ->.
        destruct (Hn n eq_refl) as (?&?&?&?). lia.
      * destruct Hpush as [->|(p & -> & ? & ? & ? & _)]; [by apply elem_of_nil in Hs|].
        apply list_elem_of_singleton in Hs as ->. lia.
    + destruct Hpush as [->|(p & -> & _ & _ & _ & _ & Hap)]; destruct next as [n|]; simpl; try (repeat constructor; fail).
      destruct (Hap n eq_refl) as (_ & _ & H). constructor; [by apply Forall_singleton|repeat constructor].
  - destruct Hpush as [->|(p & -> & _ & _ & _ & Hps & _)]; [done|]. simpl. split; [fold w; nia|done].
  - intros n ->. destruct (Hn n eq_refl) as (_ & _ & _ & Hns).
    destruct Hpush as [->|(p & -> & _ & _ & _ & _ & Hap)]; simpl app.
    + fold w. nia.
    + destruct (Hap n eq_refl) as (Hhalf & _). cbn [length]. rewrite Nat2Z.inj_succ, Z.pow_succ_r by lia. fold w. nia.
  - rewrite Happ. unfold total. rewrite foldr_app. change (foldr _ 0 stk) with (total stk). cbn [foldr]. change (foldr (fun s n => size_of s + n) 0 stk) with (total stk).
    destruct Hpush as [->|(p & -> & _ & _ & _ & Hps & Hap)]; destruct next as [n|]; simpl.
    + destruct (Hn n eq_refl) as (_ & _ & _ & ?). lia.
    + unfold size_of. simpl. lia.
    + destruct (Hap n eq_refl) as (_ & ? & _). lia.
    + lia.
Qed.

Lemma sort_loop_spec fuel arr lo hi stk : 0 < width -> of_width width arr ->
  Z.of_nat (length arr) * width < 2 ^ 31 -> pending (Z.of_nat (length arr)) arr ((lo, hi) :: stk) ->
  halved (Z.of_nat (length arr)) stk -> size_of (lo, hi) * 2 ^ Z.of_nat (length stk) <= Z.of_nat (length arr) ->
  total ((lo, hi) :: stk) <= Z.of_nat fuel ->
  exists arr', sort_loop comp width fuel arr lo hi stk = Ret arr' /\ arr' ≡ₚ arr
    /\ pending (Z.of_nat (length arr)) arr' [].
Proof.
  intros Hw0. revert arr lo hi stk. induction fuel as [|fuel IH]; intros arr lo hi stk Hw Hmem Hpd Hh Hsz Hf;
    destruct (pd_range _ _ _ Hpd (lo, hi)) as (Hlo & Hlh & Hhn); try set_solver; simpl in Hlo, Hlh, Hhn.
  { exfalso. assert (0 <= total stk); [|unfold total, size_of in *; simpl in *; lia].
    apply total_nonneg. intros s Hs. apply (pd_range _ _ _ Hpd s). set_solver. }
  cbn [sort_loop]. destruct (sort_segment_spec arr lo hi stk) as (arr' & stk' & next & -> & Hp & Hparts); try done; try lia.
  { intros Hbig. destruct (decide (length stk < STACK)%nat) as [|Hge]; [done|]. exfalso. unfold STACK, CUTOFF, size_of in *. simpl in Hsz.
    assert (2 ^ 30 <= 2 ^ Z.of_nat (length stk)) by (apply Z.pow_le_mono_r; lia).
    assert (Z.of_nat (length arr) < 2 ^ 31) by nia. nia. }
  cbn [obind]. destruct (parts_pending _ arr arr' lo hi stk stk' next Hpd Hp Hparts Hh Hsz) as (Hpd' & Hh' & Hnx & Htot).
  assert (Hlen : length arr' = length arr) by by eapply perm_in_length.
  assert (Hw' : of_width width arr') by by eapply perm_in_width.
  assert (Hgo : forall lo hi stk, pending (Z.of_nat (length arr)) arr' ((lo, hi) :: stk) -> halved (Z.of_nat (length arr)) stk ->
    size_of (lo, hi) * 2 ^ Z.of_nat (length stk) <= Z.of_nat (length arr) -> total ((lo, hi) :: stk) <= Z.of_nat fuel ->
    exists arr2, sort_loop comp width fuel arr' lo hi stk = Ret arr2 /\ arr2 ≡ₚ arr
      /\ pending (Z.of_nat (length arr)) arr2 []).
  { intros lo' hi' s H1 H2 H3 H4. rewrite <- Hlen in *. destruct (IH arr' lo' hi' s) as (arr2 & -> & Hp2 & Hd2); try done.
    exists arr2. split; [done|]. split; [|done]. by rewrite Hp2, (pi_perm _ _ _ _ Hp). }
  destruct next as [[lo' hi']|]; [apply Hgo; [done|done|by apply Hnx|unfold total in *; simpl in *; lia]|].
  destruct stk' as [|[lo' hi'] rest]; [exists arr'; split; [done|]; split; [apply Hp|done]|].
  simpl in Hh'. apply Hgo; [done|tauto|tauto|unfold total in *; simpl in *; lia].
Qed.
End SortSpec.

(** ** bsearch *)

(** The array is sorted, as far as the key can tell: once the key comes before an element, it
    does so before all that follow. *)
Definition key_sorted (key : list Z -> Z) (base : list (list Z)) : Prop :=
  forall i j, 0 <= i -> i < j -> j < Z.of_nat (length base) ->
    (key (at_ base i) < 0 -> key (at_ base j) < 0) /\ (0 < key (at_ base j) -> 0 < key (at_ base i)).

Lemma bsearch_loop_spec key base fuel lo hi num : num = hi - lo + 1 -> 0 <= num -> 0 <= lo ->
  hi < Z.of_nat (length base) -> num < Z.of_nat fuel ->
  exists r, bsearch_loop key base fuel lo hi num = Ret r
    /\ (forall k, r = Some k -> inside base k /\ key (at_ base k) = 0)
    /\ (key_sorted key base -> (forall k, 0 <= k < lo -> 0 < key (at_ base k)) ->
        (forall k, hi < k -> inside base k -> key (at_ base k) < 0) -> r = None ->
        forall k, inside base k -> key (at_ base k) <> 0).
Proof.
  revert lo hi num. induction fuel as [|fuel IH]; intros lo hi num Hn Hn0 Hlo Hhi Hf; [lia|]. simpl.
  assert (Hodd : truthy (Z.land num 1) = (num mod 2 =? 1)).
  { change 1 with (Z.ones 1) at 1. rewrite Z.land_ones by lia. change (2 ^ 1) with 2.
    unfold truthy. destruct (Z.eqb_spec (num mod 2) 0), (Z.eqb_spec (num mod 2) 1); simpl; lia_mod. }
  assert (Hdone : hi < lo -> key_sorted key base -> (forall k, 0 <= k < lo -> 0 < key (at_ base k)) ->
    (forall k, hi < k -> inside base k -> key (at_ base k) < 0) -> forall k, inside base k -> key (at_ base k) <> 0).
  { intros Hhl _ Hb Ha k Hk. destruct (decide (k < lo)) as [Hkl|Hkl].
    - pose proof (Hb k ltac:(unfold inside in *; lia)). lia.
    - pose proof (Ha k ltac:(lia) Hk). lia. }
  destruct (Z.leb_spec lo hi) as [Hle|Hgt].
  2: { exists None. split; [done|]. split; [done|]. intros ? ? ? _. by apply Hdone. }
  unfold truthy at 1. destruct (Z.eqb_spec (num / 2) 0) as [Hh|Hh]; cbn [negb].
  - unfold truthy at 1. rewrite (proj2 (Z.eqb_neq num 0)) by lia. cbn [negb].
    assert (hi = lo) as -> by lia_mod. assert (Hin : inside base lo) by (unfold inside; lia).
    rewrite elem_at by done. cbn [obind]. eexists. split; [reflexivity|]. unfold truthy.
    destruct (Z.eqb_spec (key (at_ base lo)) 0) as [He|Hne]; cbn [negb].
    + split; [by intros k [= <-]|done].
    + split; [done|]. intros _ Hb Ha _ k Hk. destruct (Z.lt_trichotomy k lo) as [?|[->|?]]; [|done|].
      * pose proof (Hb k ltac:(unfold inside in *; lia)). lia.
      * pose proof (Ha k ltac:(lia) Hk). lia.
  - rewrite Hodd. set (mid := lo + (if num mod 2 =? 1 then num / 2 else num / 2 - 1)).
    assert (Hm : lo <= mid <= hi) by (unfold mid; destruct (Z.eqb_spec (num mod 2) 1); lia_mod).
    assert (Him : inside base mid) by (unfold inside; lia). rewrite elem_at by done. cbn [obind].
    destruct (Z.eqb_spec (key (at_ base mid)) 0) as [He|Hne].
    { exists (Some mid). split; [done|]. split; [by intros k [= <-]|done]. }
    destruct (Z.ltb_spec (key (at_ base mid)) 0) as [Hlt|Hge].
    + destruct (IH lo (mid - 1) (if num mod 2 =? 1 then num / 2 else num / 2 - 1)) as (r & -> & H1 & H2);
        [unfold mid; lia|unfold mid in *; lia|lia|lia|unfold mid in *; lia|].
      exists r. split; [done|]. split; [done|]. intros Hs Hb Ha. apply H2; [done|done|].
      intros k Hk Hki. destruct (decide (k = mid)) as [->|]; [done|].
      apply (Hs mid k); unfold inside in *; lia.
    + destruct (IH (mid + 1) hi (num / 2)) as (r & -> & H1 & H2);
        [unfold mid; destruct (Z.eqb_spec (num mod 2) 1); lia_mod|lia_mod|lia|lia|lia_mod|].
      exists r. split; [done|]. split; [done|]. intros Hs Hb Ha. apply H2; [done| |done].
      intros k Hk. destruct (decide (k = mid)) as [->|]; [lia|].
      apply (Hs k mid); unfold inside in *; lia.
Qed.

(** ** The properties *)

Lemma sorted_by_index (R : list Z -> list Z -> Prop) l :
  (forall i j, 0 <= i -> i < j -> j < Z.of_nat (length l) -> R (at_ l i) (at_ l j)) -> StronglySorted R l.
Proof.
  induction l as [|x l IH]; intros H; constructor.
  - apply IH. intros i j Hi Hij Hj. specialize (H (i + 1) (j + 1) ltac:(lia) ltac:(lia) ltac:(simpl; lia)).
    unfold at_ in *. by replace (Z.to_nat (i + 1)) with (S (Z.to_nat i)) in H by lia;
      replace (Z.to_nat (j + 1)) with (S (Z.to_nat j)) in H by lia.
  - apply Forall_forall. intros y Hy. apply list_elem_of_lookup_1 in Hy as [k Hk].
    pose proof (lookup_lt_Some _ _ _ Hk). specialize (H 0 (Z.of_nat k + 1) ltac:(lia) ltac:(lia) ltac:(simpl; lia)).
    unfold at_ in H. replace (Z.to_nat (Z.of_nat k + 1)) with (S k) in H by lia. simpl in H.
    by rewrite (list_lookup_total_correct _ _ _ Hk) in H.
Qed.

(** C28: [qsort], for any comparison function: it returns, reads and writes only inside the
    array, never uses more than the 30 entries of its stack, and the result is the
    elements of the array, bytes and all, in another order.  If the comparison is an ordering
    (consistent in both directions and transitive), the result is sorted. *)
Theorem qsort_correct comp width arr : 0 < width -> of_width width arr ->
  Z.of_nat (length arr) * width < 2 ^ 31 ->
  exists arr', qsort comp width arr (Z.of_nat (length arr)) = Ret arr' /\ arr' ≡ₚ arr
    /\ (ordering comp -> StronglySorted (fun x y => comp x y <= 0) arr').
Proof.
  intros Hw0 Hw Hmem. unfold qsort. rewrite (proj2 (Z.eqb_neq width 0)), orb_false_r by lia.
  destruct (Z.ltb_spec (Z.of_nat (length arr)) 2) as [Hn|Hn].
  { exists arr. split; [done|]. split; [done|]. intros _. apply sorted_by_index. lia. }
  set (num := Z.of_nat (length arr)) in *.
  destruct (sort_loop_spec comp width (Z.to_nat num) arr 0 (num - 1) []) as (arr' & Hr & Hp & Hpd); try done.
  - constructor; [repeat constructor| |].
    + intros s ->%list_elem_of_singleton. simpl. lia.
    + intros _ i j Hi Hij Hj. right. exists (0, num - 1). split; [set_solver|]. unfold both_in. simpl. fold num in Hj. lia.
  - unfold size_of. simpl. fold num. lia.
  - unfold total, size_of. simpl. lia.
  - exists arr'. split; [done|]. split; [done|]. intros Ho. apply sorted_by_index. intros i j Hi Hij Hj.
    rewrite Hp in Hj. destruct (pd_sorted _ _ _ _ Hpd Ho i j) as [?|(s & Hs & _)]; [done|done|done|done|].
    by apply elem_of_nil in Hs.
Qed.

(** [bsearch] returns and stays inside the array; what it finds is equal to the key, and
    in a sorted array it finds an element if there is one. *)
Lemma bsearch_correct key base :
  exists r, bsearch key base (Z.of_nat (length base)) = Ret r
    /\ (forall k, r = Some k -> inside base k /\ key (at_ base k) = 0)
    /\ (key_sorted key base -> r = None -> forall k, inside base k -> key (at_ base k) <> 0).
Proof.
  destruct (bsearch_loop_spec key base (Z.to_nat (Z.of_nat (length base)) + 1) 0
    (Z.of_nat (length base) - 1) (Z.of_nat (length base))) as (r & Hr & H1 & H2); try lia.
  exists r. split; [exact Hr|]. split; [done|]. intros Hs. apply H2; [done|intros; lia|].
  intros k Hk Hi. unfold inside in *. lia.
Qed.

(** ** Witnesses *)

(** Elements of one byte, compared as numbers. *)
Definition ex_comp (x y : list Z) : Z := default 0 (head x) - default 0 (head y).
Definition ex_arr : list (list Z) := (fun b => [b]) <$> [5; 3; 9; 1; 3; 8; 2; 7; 0; 6; 4; 3].

Example ex_sorted : qsort ex_comp 1 ex_arr 12 = Ret ((fun b => [b]) <$> [0; 1; 2; 3; 3; 3; 4; 5; 6; 7; 8; 9]).
Proof. by vm_compute. Qed.

Lemma qsort_correct_witness : exists arr', qsort ex_comp 1 ex_arr 12 = Ret arr'
  /\ StronglySorted (fun x y => ex_comp x y <= 0) arr'.
Proof.
  destruct (qsort_correct ex_comp 1 ex_arr) as (arr' & Hr & _ & Hs).
  - lia.
  - repeat constructor.
  - reflexivity.
  - exists arr'. split; [exact Hr|]. apply Hs. unfold ex_comp. split; intros; lia.
Defined.
