(* ===== verification/Calendar.v ===== *)
(** * Calendar: time and dates, src/src/lib/time.c

    [gmtime_r] splits the seconds since 1970 into a date, [mktime] normalises a date and
    turns it into seconds.  Integers are 32 bits wide; C's division rounds towards zero
    ([Z.quot], [Z.rem]).  The member [tm_zone], a constant string, is left out; the
    variables [_timezone] and [_dstbias] are arguments. *)

From S2P Require Import Prelude.
Local Open Scope krlean_scope.

Definition YEAR0 : Z := 1900.
Definition EPOCH_YR : Z := 1970.
Definition SECS_DAY : Z := 24 * 60 * 60.
Definition TIME_MAX : Z := 2147483647.

Definition LEAPYEAR (year : Z) : bool :=
  negb (truthy (Z.rem year 4)) && (truthy (Z.rem year 100) || negb (truthy (Z.rem year 400))).
Definition YEARSIZE (year : Z) : Z := if LEAPYEAR year then 366 else 365.

Definition _ytab (leap : bool) : list Z :=
  if leap then [31; 29; 31; 30; 31; 30; 31; 31; 30; 31; 30; 31]
  else [31; 28; 31; 30; 31; 30; 31; 31; 30; 31; 30; 31].

(** [_ytab[leap][mon]] *)
Definition ytab (leap : bool) (mon : Z) : outcome Z :=
  if mon <? 0 then Fault else deref (_ytab leap !! Z.to_nat mon).

Record tm := Tm {
  tm_sec : Z; tm_min : Z; tm_hour : Z; tm_mday : Z; tm_mon : Z; tm_year : Z;
  tm_wday : Z; tm_yday : Z; tm_isdst : Z; tm_gmtoff : Z;
}.

Fixpoint year_loop (fuel : nat) (dayno year : Z) : outcome (Z * Z) :=
  if YEARSIZE year <=? dayno then
    match fuel with
    | O => Diverge
    | S fuel => year_loop fuel (u32 (dayno - YEARSIZE year)) (year + 1)
    end
  else Ret (dayno, year).

Fixpoint month_loop (fuel : nat) (leap : bool) (dayno mon : Z) : outcome (Z * Z) :=
  n <~ ytab leap mon;
  if n <=? dayno then
    match fuel with
    | O => Diverge
    | S fuel => month_loop fuel leap (u32 (dayno - n)) (mon + 1)
    end
  else Ret (dayno, mon).

Definition gmtime_r (time : Z) : outcome tm :=
  let dayclock := u32 time mod SECS_DAY in
  let dayno := u32 time / SECS_DAY in
  let sec := dayclock mod 60 in
  let min := (dayclock mod 3600) / 60 in
  let hour := dayclock / 3600 in
  let wday := (dayno + 4) mod 7 in
  '(yday, year) <~ year_loop (Z.to_nat (dayno / 365)) dayno EPOCH_YR;
  '(day, mon) <~ month_loop 12 (LEAPYEAR year) yday 0;
  Ret (Tm sec min hour (day + 1) mon (year - YEAR0) wday yday 0 0).

Definition localtime_r (_timezone time : Z) : outcome tm := gmtime_r (s32 (time - _timezone)).

(** ** mktime *)

(** [x / n] and [x % n], with the remainder made non-negative. *)
Definition carry (x n : Z) : Z * Z :=
  let q := Z.quot x n in
  let r := Z.rem x n in
  if r <? 0 then (q - 1, r + n) else (q, r).

Fixpoint borrow_days (fuel : nat) (day mon year : Z) : outcome (Z * Z * Z) :=
  if day <? 0 then
    match fuel with
    | O => Diverge
    | S fuel =>
        let '(mon, year) := if mon - 1 <? 0 then (11, s32 (year - 1)) else (mon - 1, year) in
        n <~ ytab (LEAPYEAR (s32 (YEAR0 + year))) mon;
        borrow_days fuel (day + n) mon year
    end
  else Ret (day, mon, year).

Fixpoint carry_days (fuel : nat) (day mon year : Z) : outcome (Z * Z * Z) :=
  n <~ ytab (LEAPYEAR (s32 (YEAR0 + year))) mon;
  if n <=? day then
    match fuel with
    | O => Diverge
    | S fuel =>
        let '(mon, year) := if mon + 1 =? 12 then (0, s32 (year + 1)) else (mon + 1, year) in
        carry_days fuel (day - n) mon year
    end
  else Ret (day, mon, year).

(** [while (month < tmbuf->tm_mon)] *)
Fixpoint yday_loop (fuel : nat) (leap : bool) (mon month yday : Z) : outcome Z :=
  if month <? mon then
    match fuel with
    | O => Diverge
    | S fuel => n <~ ytab leap month; yday_loop fuel leap mon (month + 1) (yday + n)
    end
  else Ret yday.

(** The days from 1970 to [tm_year], with the leap days of the years between. *)
Definition year_days (tm_year year : Z) : Z :=
  let extra (n : Z) := of_bool (truthy (Z.rem tm_year n) && (Z.rem tm_year n <? Z.rem year n)) in
  let day := s32 ((tm_year - year) * 365) in
  let day := s32 (day + (Z.quot (tm_year - year) 4 + extra 4)) in
  let day := s32 (day - (Z.quot (tm_year - year) 100 + extra 100)) in
  s32 (day + (Z.quot (tm_year - year) 400 + extra 400)).

(** The days since 1970 and the day of the year, with the first three overflow tests. *)
Definition day_number (y mon mday : Z) : outcome (bool * Z * Z) :=
  let year := EPOCH_YR in
  let over1 := Z.quot TIME_MAX 365 <? y - year in
  let over2 := s32 (TIME_MAX - s32 ((y - year) * 365)) <? Z.quot (y - year) 4 + 1 in
  let day := year_days y year in
  yday <~ yday_loop 12 (LEAPYEAR y) mon 0 0;
  let yday := s32 (yday + (mday - 1)) in
  Ret (over1 || over2 || (s32 (day + yday) <? 0), s32 (day + yday), yday).

(** The seconds of the day number and the time of day, with the last three overflow tests. *)
Definition zone_seconds (_timezone dst day seconds : Z) : bool * Z :=
  let over4 := Z.quot (TIME_MAX - seconds) SECS_DAY <? day in
  let seconds := s32 (seconds + s32 (day * SECS_DAY)) in
  let over5 := ((0 <? _timezone) && (TIME_MAX - _timezone <? seconds)) ||
               ((_timezone <? 0) && (seconds <? - _timezone)) in
  let seconds := s32 (seconds + _timezone) in
  let over6 := seconds <? dst in
  (over4 || over5 || over6, s32 (seconds - dst)).

(** Seconds from the normalised date, or -1. *)
Definition make_time (_timezone _dstbias : Z) (b : tm) : outcome (Z * tm) :=
  if tm_year b <? EPOCH_YR - YEAR0 then Ret (-1, b)
  else
    '(over, day, yday) <~ day_number (s32 (tm_year b + YEAR0)) (tm_mon b) (tm_mday b);
    let dst := if truthy (tm_isdst b) then _dstbias else 0 in
    let '(over', seconds) := zone_seconds _timezone dst day ((tm_hour b * 60 + tm_min b) * 60 + tm_sec b) in
    Ret (if over || over' then -1 else seconds,
         Tm (tm_sec b) (tm_min b) (tm_hour b) (tm_mday b) (tm_mon b) (tm_year b)
           (Z.rem (s32 (day + 4)) 7) yday (tm_isdst b) (tm_gmtoff b)).

Definition mktime (_timezone _dstbias : Z) (b : tm) : outcome (Z * tm) :=
  let '(q, sec) := carry (tm_sec b) 60 in
  let '(q, min) := carry (s32 (tm_min b + q)) 60 in
  let '(day, hour) := carry (s32 (tm_hour b + q)) 24 in
  let '(q, mon) := carry (tm_mon b) 12 in
  let year := s32 (tm_year b + q) in
  let day := s32 (day + (tm_mday b - 1)) in
  '(day, mon, year) <~ borrow_days (Z.to_nat (- day)) day mon year;
  '(day, mon, year) <~ carry_days (Z.to_nat day) day mon year;
  make_time _timezone _dstbias
    (Tm sec min hour (day + 1) mon year (tm_wday b) (tm_yday b) (tm_isdst b) (tm_gmtoff b)).

(** ** The calendar

    The days from 1970 to a year, those before a month of a year, and the seconds from 1970
    that the fields of a date stand for, whether or not they are in their ranges. *)

Definition days_upto (year : Z) : Z :=
  365 * (year - EPOCH_YR) + ((year - 1) / 4 - 492) - ((year - 1) / 100 - 19) + ((year - 1) / 400 - 4).

Definition month_days (leap : bool) (mon : Z) : Z := foldr Z.add 0 (take (Z.to_nat mon) (_ytab leap)).

Definition days (day mon year : Z) : Z :=
  days_upto (YEAR0 + year) + month_days (LEAPYEAR (YEAR0 + year)) mon + day.

Definition date_secs (b : tm) : Z :=
  days (tm_mday b - 1) (tm_mon b mod 12) (tm_year b + tm_mon b / 12) * SECS_DAY
  + ((tm_hour b * 60 + tm_min b) * 60 + tm_sec b).

(** The fields of [b] are in their ranges. *)
Record normal (b : tm) : Prop := {
  no_time : 0 <= tm_sec b < 60 /\ 0 <= tm_min b < 60 /\ 0 <= tm_hour b < 24;
  no_mon : 0 <= tm_mon b < 12;
  no_day : exists n, _ytab (LEAPYEAR (YEAR0 + tm_year b)) !! Z.to_nat (tm_mon b) = Some n /\ 1 <= tm_mday b <= n;
}.

Definition yday_of (b : tm) : Z := month_days (LEAPYEAR (YEAR0 + tm_year b)) (tm_mon b) + (tm_mday b - 1).

Lemma YEARSIZE_range y : YEARSIZE y = (if LEAPYEAR y then 366 else 365) /\ 365 <= YEARSIZE y <= 366.
Proof. unfold YEARSIZE. destruct (LEAPYEAR y); lia. Qed.

Lemma LEAPYEAR_spec y : LEAPYEAR y = (y mod 4 =? 0) && (negb (y mod 100 =? 0) || (y mod 400 =? 0)).
Proof.
  unfold LEAPYEAR, truthy. rewrite !negb_involutive. 
  assert (Hr : forall n, n <> 0 -> (Z.rem y n =? 0) = (y mod n =? 0)).
  { intros n Hn. apply eq_true_iff_eq. rewrite !Z.eqb_eq.
    by rewrite Z.rem_divide, Z.mod_divide. }
  by rewrite !Hr.
Qed.

Lemma days_upto_succ y : days_upto (y + 1) = days_upto y + YEARSIZE y.
Proof.
  unfold days_upto, YEARSIZE. rewrite LEAPYEAR_spec. replace (y + 1 - 1) with y by lia.
  destruct (Z.eqb_spec (y mod 4) 0), (Z.eqb_spec (y mod 100) 0), (Z.eqb_spec (y mod 400) 0); simpl; lia_mod.
Qed.

Lemma days_upto_lt y y' : y < y' -> days_upto y + YEARSIZE y <= days_upto y'.
Proof. intros. rewrite <- days_upto_succ. unfold days_upto. lia_mod. Qed.

(** A fact about the days, or the months, of a year, checked for all of them. *)
Definition all_below (n : nat) (f : bool -> Z -> bool) : bool :=
  forallb (fun k => f true (Z.of_nat k) && f false (Z.of_nat k)) (seq 0 n).

Lemma all_below_spec n f leap k : all_below n f = true -> 0 <= k < Z.of_nat n -> f leap k = true.
Proof.
  intros Hf Hk. unfold all_below in Hf. rewrite forallb_forall in Hf.
  specialize (Hf (Z.to_nat k) ltac:(apply in_seq; lia)). rewrite Z2Nat.id in Hf by lia.
  apply andb_true_iff in Hf as [? ?]. by destruct leap.
Qed.

Lemma month_loop_spec (leap : bool) d : 0 <= d < (if leap then 366 else 365) ->
  exists day mon n, month_loop 12 leap d 0 = Ret (day, mon) /\ 0 <= mon < 12
    /\ _ytab leap !! Z.to_nat mon = Some n /\ 0 <= day < n /\ month_days leap mon + day = d.
Proof.
  intros Hd. set (f := fun (leap : bool) d => ((if leap then 366 else 365) <=? d) ||
    match month_loop 12 leap d 0 with
    | Ret (day, mon) => (0 <=? mon) && (mon <? 12) && match _ytab leap !! Z.to_nat mon with
        | Some n => (0 <=? day) && (day <? n) && (month_days leap mon + day =? d) | None => false end
    | _ => false
    end).
  assert (Hf : all_below 366 f = true) by (vm_compute; reflexivity).
  assert (Hfd : f leap d = true) by (apply (all_below_spec 366); [exact Hf|destruct leap; lia]). unfold f in Hfd. clear Hf f.
  rewrite (proj2 (Z.leb_gt _ d)) in Hfd by lia. cbn [orb] in Hfd.
  destruct (month_loop 12 leap d 0) as [[day mon]| | |]; [|done..].
  destruct (_ytab leap !! Z.to_nat mon) as [n|] eqn:Hn; [|by rewrite andb_false_r in Hfd]. zify_bool.
  exists day, mon, n. split_and!; first [lia|done|reflexivity].
Qed.

Lemma month_day_range (leap : bool) mon n d : 0 <= mon < 12 -> _ytab leap !! Z.to_nat mon = Some n -> 0 <= d < n ->
  0 <= month_days leap mon + d < (if leap then 366 else 365) /\ 28 <= n <= 31.
Proof.
  intros Hm Hn Hd. set (f := fun (leap : bool) m => match _ytab leap !! Z.to_nat m with
    | Some n => (0 <=? month_days leap m) && (month_days leap m + n <=? if leap then 366 else 365) && (28 <=? n) && (n <=? 31)
    | None => false end).
  assert (Hf : all_below 12 f = true) by (vm_compute; reflexivity).
  assert (Hfm : f leap mon = true) by (apply (all_below_spec 12); [exact Hf|exact Hm]). unfold f in Hfm. clear Hf f. rewrite Hn in Hfm.
  destruct leap; zify_bool; lia.
Qed.

Lemma ytab_lookup (leap : bool) mon : 0 <= mon < 12 -> exists n, _ytab leap !! Z.to_nat mon = Some n /\ 28 <= n <= 31.
Proof.
  intros Hm. set (f := fun (leap : bool) m => match _ytab leap !! Z.to_nat m with
    | Some n => (28 <=? n) && (n <=? 31) | None => false end).
  assert (Hf : all_below 12 f = true) by (vm_compute; reflexivity).
  assert (Hfm : f leap mon = true) by (apply (all_below_spec 12); [exact Hf|exact Hm]). unfold f in Hfm. clear Hf f.
  destruct (_ytab leap !! Z.to_nat mon) as [n|]; [|done]. exists n. zify_bool. split; [done|lia].
Qed.

Lemma ytab_spec (leap : bool) mon : 0 <= mon < 12 -> exists n, ytab leap mon = Ret n
  /\ _ytab leap !! Z.to_nat mon = Some n /\ 28 <= n <= 31.
Proof.
  intros Hm. destruct (ytab_lookup leap mon Hm) as (n & Hn & Hr). exists n. split; [|done].
  unfold ytab. rewrite (proj2 (Z.ltb_ge mon 0)) by lia. by rewrite Hn.
Qed.

Lemma foldr_take_S (l : list Z) i n : l !! i = Some n -> foldr Z.add 0 (take (S i) l) = foldr Z.add 0 (take i l) + n.
Proof. revert i. induction l as [|x l IH]; intros [|i] Hi; simplify_eq/=; [lia|]. rewrite IH by done. lia. Qed.

Lemma yday_loop_spec (leap : bool) mon : 0 <= mon < 12 -> yday_loop 12 leap mon 0 0 = Ret (month_days leap mon).
Proof.
  intros Hm. set (f := fun (leap : bool) m => match yday_loop 12 leap m 0 0 with
    | Ret d => d =? month_days leap m | _ => false end).
  assert (Hf : all_below 12 f = true) by (vm_compute; reflexivity).
  assert (Hfm : f leap mon = true) by (apply (all_below_spec 12); [exact Hf|exact Hm]). unfold f in Hfm. clear Hf f.
  destruct (yday_loop 12 leap mon 0 0); [|done..]. zify_bool. by f_equal.
Qed.


(** A month later. *)
Lemma days_next (day mon year n : Z) : 0 <= mon < 12 ->
  _ytab (LEAPYEAR (YEAR0 + year)) !! Z.to_nat mon = Some n ->
  days day mon year = (if mon + 1 =? 12 then days (day - n) 0 (year + 1) else days (day - n) (mon + 1) year)
  /\ 28 <= n <= 31.
Proof.
  intros Hm Hn. split; [|destruct (ytab_lookup (LEAPYEAR (YEAR0 + year)) mon Hm) as (n' & ? & ?); by simplify_eq].
  unfold days. destruct (Z.eqb_spec (mon + 1) 12) as [He|He].
  - replace (YEAR0 + (year + 1)) with (YEAR0 + year + 1) by lia. rewrite days_upto_succ.
    assert (mon = 11) as -> by lia. unfold YEARSIZE.
    destruct (LEAPYEAR (YEAR0 + year)); vm_compute in Hn; simplify_eq; unfold month_days; simpl; lia.
  - assert (Hs : month_days (LEAPYEAR (YEAR0 + year)) (mon + 1) = month_days (LEAPYEAR (YEAR0 + year)) mon + n).
    { unfold month_days. rewrite Z2Nat.inj_add, Nat.add_1_r by lia. by apply foldr_take_S. }
    rewrite Hs. lia.
Qed.

Lemma borrow_days_spec fuel day mon year : 0 <= mon < 12 -> - day <= Z.of_nat fuel ->
  - 2 ^ 30 <= year <= 2 ^ 30 -> - 2 ^ 30 <= year + day <= 2 ^ 30 + 31 ->
  exists day' mon' year', borrow_days fuel day mon year = Ret (day', mon', year')
    /\ days day' mon' year' = days day mon year /\ 0 <= day' /\ 0 <= mon' < 12
    /\ - 2 ^ 30 <= year' <= 2 ^ 30 /\ year' + day' <= 2 ^ 30 + 31.
Proof.
  revert day mon year. induction fuel as [|fuel IH]; intros day mon year Hm Hf Hy Hd; cbn [borrow_days];
    destruct (Z.ltb_spec day 0) as [Hneg|Hpos]; [lia|exists day, mon, year; split_and!; (done || lia)| |
      exists day, mon, year; split_and!; (done || lia)].
  rewrite (s32_small (year - 1)) by (unfold is_s32; lia).
  destruct (Z.ltb_spec (mon - 1) 0) as [Hm0|Hm0];
    match goal with |- context [ytab (LEAPYEAR (s32 (YEAR0 + ?y))) ?m] =>
      rewrite (s32_small (YEAR0 + y)) by (unfold is_s32, YEAR0; lia);
      destruct (ytab_spec (LEAPYEAR (YEAR0 + y)) m) as (n & -> & Hn & Hr); [lia|];
      cbn [obind]; destruct (days_next (day + n) m y n ltac:(lia) Hn) as [Hnext _]
    end.
  - destruct (IH (day + n) 11 (year - 1)) as (d' & m' & y' & -> & Heq & ?); [lia..|].
    exists d', m', y'. split; [done|]. split; [|done]. rewrite Heq, Hnext. simpl. assert (mon = 0) as -> by lia. f_equal; lia.
  - destruct (IH (day + n) (mon - 1) year) as (d' & m' & y' & -> & Heq & ?); [lia..|].
    exists d', m', y'. split; [done|]. split; [|done]. rewrite Heq, Hnext.
    rewrite (proj2 (Z.eqb_neq (mon - 1 + 1) 12)) by lia. f_equal; lia.
Qed.

Lemma carry_days_spec fuel day mon year : 0 <= mon < 12 -> 0 <= day <= Z.of_nat fuel ->
  - 2 ^ 30 <= year <= 2 ^ 30 + 31 -> year + day <= 2 ^ 30 + 31 ->
  exists day' mon' year' n, carry_days fuel day mon year = Ret (day', mon', year')
    /\ days day' mon' year' = days day mon year /\ 0 <= mon' < 12 /\ - 2 ^ 30 <= year' <= 2 ^ 30 + 31
    /\ _ytab (LEAPYEAR (YEAR0 + year')) !! Z.to_nat mon' = Some n /\ 0 <= day' < n.
Proof.
  revert day mon year. induction fuel as [|fuel IH]; intros day mon year Hm Hf Hy Hd; cbn [carry_days];
    rewrite (s32_small (YEAR0 + year)) by (unfold is_s32, YEAR0; lia);
    destruct (ytab_spec (LEAPYEAR (YEAR0 + year)) mon Hm) as (n & -> & Hn & Hr); cbn [obind];
    destruct (Z.leb_spec n day) as [Hle|Hgt]; [lia|exists day, mon, year, n; split_and!; (done || lia)| |
      exists day, mon, year, n; split_and!; (done || lia)].
  rewrite (s32_small (year + 1)) by (unfold is_s32; lia).
  destruct (days_next day mon year n Hm Hn) as [-> _].
  destruct (Z.eqb_spec (mon + 1) 12) as [He|He]; apply IH; lia.
Qed.

Lemma carry_spec x n : 0 < n -> carry x n = (x / n, x mod n).
Proof.
  intros Hn. unfold carry. pose proof (Z.quot_rem x n ltac:(lia)) as Hq.
  pose proof (Z.rem_bound_abs x n ltac:(lia)) as Hb.
  destruct (Z.ltb_spec (Z.rem x n) 0) as [Hneg|Hpos]; f_equal.
  - apply Z.div_unique with (Z.rem x n + n); lia.
  - apply Z.mod_unique with (Z.quot x n - 1); lia.
  - apply Z.div_unique with (Z.rem x n); lia.
  - apply Z.mod_unique with (Z.quot x n); lia.
Qed.

(** Division with the correction for the remainder counts the multiples of [n] below [y]. *)
Lemma multiples_before y n : n = 4 \/ n = 100 \/ n = 400 -> EPOCH_YR <= y ->
  Z.quot (y - EPOCH_YR) n + of_bool (truthy (Z.rem y n) && (Z.rem y n <? Z.rem EPOCH_YR n))
  = (y - 1) / n - (EPOCH_YR - 1) / n.
Proof.
  unfold EPOCH_YR. intros Hn Hy. rewrite Z.quot_div_nonneg, !Z.rem_mod_nonneg by lia. unfold of_bool, truthy.
  destruct Hn as [->|[->| ->]]; [change (1970 mod 4) with 2|change (1970 mod 100) with 70|change (1970 mod 400) with 370];
    match goal with |- context [y mod ?n <? ?k] => destruct (Z.eqb_spec (y mod n) 0), (Z.ltb_spec (y mod n) k) end;
    simpl; lia_mod.
Qed.

Lemma year_days_spec y : EPOCH_YR <= y -> (y - EPOCH_YR) * 365 + (y - EPOCH_YR) / 4 + 1 <= TIME_MAX ->
  year_days y EPOCH_YR = days_upto y.
Proof.
  intros Hy Hmax. unfold year_days. rewrite !multiples_before by auto. unfold days_upto, EPOCH_YR, TIME_MAX in *.
  change ((1970 - 1) / 4) with 492. change ((1970 - 1) / 100) with 19. change ((1970 - 1) / 400) with 4.
  assert (Hr : forall n, 0 < n -> 1969 / n <= (y - 1) / n) by (intros n Hn; apply Z.div_le_mono; lia).
  pose proof (Hr 100). pose proof (Hr 400). clear Hr.
  s32_norm.
  lia.
Qed.

(** ** What mktime returns

    The seconds of the date, moved to the time zone, when every step stays in the range of
    [time_t], else -1. *)

Definition in_time (t : Z) : bool := (0 <=? t) && (t <=? TIME_MAX).
Definition local_secs (tz dst secs : Z) : Z :=
  if in_time secs && in_time (secs + tz) && (dst <=? secs + tz) then secs + tz - dst else -1.

Definition set_day (b : tm) (wday yday : Z) : tm :=
  Tm (tm_sec b) (tm_min b) (tm_hour b) (tm_mday b) (tm_mon b) (tm_year b) wday yday (tm_isdst b) (tm_gmtoff b).

Definition dst_of (dst : Z) (b : tm) : Z := if truthy (tm_isdst b) then dst else 0.

Lemma date_secs_normal b : normal b -> date_secs b =
  (days_upto (YEAR0 + tm_year b) + yday_of b) * SECS_DAY + ((tm_hour b * 60 + tm_min b) * 60 + tm_sec b)
  /\ 0 <= yday_of b < YEARSIZE (YEAR0 + tm_year b).
Proof.
  intros [_ Hm (n & Hn & Hd)]. unfold date_secs, days, yday_of, YEARSIZE.
  rewrite Z.mod_small, Z.div_small, Z.add_0_r by lia. split; [lia|].
  eapply month_day_range; [done|exact Hn|lia].
Qed.

Lemma zone_seconds_spec tz dst day seconds : 0 <= seconds < SECS_DAY -> 0 <= day < 2 ^ 31 ->
  - 2 ^ 31 < tz < 2 ^ 31 -> 0 <= dst < 2 ^ 31 ->
  (let '(over, s) := zone_seconds tz dst day seconds in if over then -1 else s)
  = local_secs tz dst (day * SECS_DAY + seconds).
Proof.
  unfold zone_seconds, local_secs, in_time, SECS_DAY, TIME_MAX. change (24 * 60 * 60) with 86400.
  intros Hs Hd Htz Hdst. rewrite Z.quot_div_nonneg by lia. rewrite (proj2 (Z.leb_le 0 (day * 86400 + seconds))) by lia.
  destruct (Z.ltb_spec ((2147483647 - seconds) / 86400) day) as [Hov|Hin].
  { simpl. by rewrite (proj2 (Z.leb_gt _ 2147483647)) by lia_mod. }
  assert (Hmax : day * 86400 + seconds <= 2147483647) by lia_mod. rewrite (proj2 (Z.leb_le _ 2147483647)) by done.
  rewrite (s32_small (day * 86400)) by (unfold is_s32; lia). rewrite (Z.add_comm seconds).
  rewrite (s32_small (day * 86400 + seconds)) by (unfold is_s32; lia).
  assert (Hmin : 0 <= day * 86400 + seconds) by lia.
  generalize dependent (day * 86400 + seconds). intros t Ht Ht0. cbn [orb andb].
  destruct (Z.leb_spec 0 (t + tz)) as [Hlo|Hlo], (Z.leb_spec (t + tz) 2147483647) as [Hhi|Hhi]; [|..|lia]; cbn [andb].
  - rewrite (s32_small (t + tz)) by (unfold is_s32; lia). rewrite (s32_small (t + tz - dst)) by (unfold is_s32; lia).
    rewrite (proj2 (Z.ltb_ge t (- tz))), (proj2 (Z.ltb_ge (2147483647 - tz) t)), !andb_false_r by lia.
    simpl. rewrite Z.ltb_antisym. by destruct (dst <=? t + tz).
  - rewrite (proj2 (Z.ltb_lt 0 tz)), (proj2 (Z.ltb_lt (2147483647 - tz) t)) by lia. done.
  - rewrite (proj2 (Z.ltb_lt tz 0)), (proj2 (Z.ltb_lt t (- tz))), orb_true_r by lia. done.
Qed.

(** Past the range of [time_t] one of the first tests sees it, or the day number is right. *)
Lemma day_number_spec y mon mday n : EPOCH_YR <= y <= 2 ^ 30 + 2000 -> 0 <= mon < 12 ->
  _ytab (LEAPYEAR y) !! Z.to_nat mon = Some n -> 1 <= mday <= n ->
  let yday := month_days (LEAPYEAR y) mon + (mday - 1) in
  exists over day, day_number y mon mday = Ret (over, day, yday)
    /\ (if over then TIME_MAX < (days_upto y + yday) * SECS_DAY
        else day = days_upto y + yday /\ 0 <= day < 2 ^ 31).
Proof.
  intros Hy Hm Hn Hd yday. unfold day_number. rewrite yday_loop_spec by done. cbn [obind].
  destruct (month_day_range _ mon n (mday - 1) Hm Hn ltac:(lia)) as [Hyd _]. fold yday in Hyd. fold yday.
  assert (Hyr : 0 <= yday < 366) by (destruct (LEAPYEAR y); lia). clearbody yday.
  rewrite (s32_small yday) by (unfold is_s32; lia). do 2 eexists. split; [reflexivity|].
  rewrite (Z.quot_div_nonneg (y - EPOCH_YR)) by lia.
  change (Z.quot TIME_MAX 365) with 5883516. 
  assert (Hbig : 365 * (y - 1970) <= days_upto y) by (unfold days_upto, EPOCH_YR in *; lia_mod).
  destruct (Z.ltb_spec 5883516 (y - EPOCH_YR)) as [H1|H1]; [simpl; unfold TIME_MAX, SECS_DAY, EPOCH_YR in *; lia|].
  unfold EPOCH_YR in H1. rewrite (s32_small ((y - EPOCH_YR) * 365)) by (unfold is_s32, EPOCH_YR in *; lia).
  rewrite (s32_small (TIME_MAX - _)) by (unfold is_s32, TIME_MAX, EPOCH_YR in *; lia).
  match goal with |- context [TIME_MAX - ?a <? ?b] => destruct (Z.ltb_spec (TIME_MAX - a) b) as [H2|H2] end;
    [simpl; unfold TIME_MAX, SECS_DAY, EPOCH_YR in *; lia_mod|].
  rewrite year_days_spec by (unfold TIME_MAX, EPOCH_YR in *; lia). cbn [orb].
  assert (Hup : days_upto y <= 2 ^ 31 - 1) by (unfold days_upto, TIME_MAX, EPOCH_YR in *; lia_mod).
  destruct (Z.ltb_spec (days_upto y + yday) (2 ^ 31)) as [Hs|Hs].
  - rewrite s32_small by (unfold is_s32, EPOCH_YR in *; lia).
    destruct (Z.ltb_spec (days_upto y + yday) 0); [unfold EPOCH_YR in *; lia|lia].
  - destruct (_ <? 0) eqn:Hov; [unfold TIME_MAX, SECS_DAY; lia|]. apply Z.ltb_ge in Hov.
    unfold s32, swrap in Hov. destruct (_ <? 2 ^ (32 - 1)) eqn:?; zify_bool; lia_mod.
Qed.

Lemma make_time_spec tz dst b : normal b -> tm_year b <= 2 ^ 30 + 31 -> - 2 ^ 31 < tz < 2 ^ 31 -> 0 <= dst < 2 ^ 31 ->
  exists wday yday, make_time tz dst b = Ret (local_secs tz (dst_of dst b) (date_secs b), set_day b wday yday)
    /\ (in_time (date_secs b) = true -> wday = (date_secs b / SECS_DAY + 4) mod 7 /\ yday = yday_of b).
Proof.
  intros Hn Hy Htz Hdst. destruct (date_secs_normal b Hn) as [Hsecs Hyr]. destruct Hn as [Ht Hm (n & Hn & Hd)].
  set (secs := (tm_hour b * 60 + tm_min b) * 60 + tm_sec b) in *. assert (Hs : 0 <= secs < 86400) by (unfold secs; lia).
  assert (Hys := YEARSIZE_range (YEAR0 + tm_year b)).
  assert (Hd0 : 0 <= dst_of dst b < 2 ^ 31) by (unfold dst_of; destruct (truthy _); lia).
  unfold make_time. destruct (Z.ltb_spec (tm_year b) (EPOCH_YR - YEAR0)) as [Hlt|Hge].
  { exists (tm_wday b), (tm_yday b). assert (Hl : date_secs b < 0).
    { pose proof (days_upto_lt (YEAR0 + tm_year b) 1970 ltac:(unfold EPOCH_YR, YEAR0 in *; lia)) as Hu.
      change (days_upto 1970) with 0 in Hu. unfold SECS_DAY in *. lia. }
    unfold local_secs, in_time. rewrite (proj2 (Z.leb_gt 0 (date_secs b))) by lia. simpl. split; [by destruct b|done]. }
  unfold EPOCH_YR, YEAR0 in Hge. rewrite (s32_small (tm_year b + YEAR0)) by (unfold is_s32, YEAR0; lia).
  replace (tm_year b + YEAR0) with (YEAR0 + tm_year b) by lia.
  destruct (day_number_spec (YEAR0 + tm_year b) (tm_mon b) (tm_mday b) n) as (over & day & -> & Hday);
    [unfold EPOCH_YR, YEAR0; lia|done..|]. cbn [obind]. fold (dst_of dst b). fold (yday_of b) in Hday |- *.
  assert (Hlocal : (if over || fst (zone_seconds tz (dst_of dst b) day secs) then -1
    else snd (zone_seconds tz (dst_of dst b) day secs)) = local_secs tz (dst_of dst b) (date_secs b)).
  { rewrite Hsecs. destruct over; simpl.
    - unfold local_secs, in_time. rewrite (proj2 (Z.leb_gt _ TIME_MAX)), andb_false_r by lia. done.
    - destruct Hday as [-> Hday].
      by rewrite <- (zone_seconds_spec tz (dst_of dst b)), (surjective_pairing (zone_seconds _ _ _ _)) by done. }
  rewrite <- Hlocal. eexists _, _. destruct (zone_seconds _ _ _ _) as [over' s].
  split; [reflexivity|]. unfold in_time. rewrite andb_true_iff, !Z.leb_le, Hsecs. intros [Hlo Hhi]. split; [|done].
  destruct over; [lia|]. destruct Hday as [-> Hday]. unfold SECS_DAY, TIME_MAX in *. change (24 * 60 * 60) with 86400 in *.
  rewrite s32_small by (unfold is_s32; lia). rewrite Z.rem_mod_nonneg by lia. rewrite Z.div_add_l, (Z.div_small secs) by lia.
  f_equal. lia.
Qed.

(** ** Normalising *)

Definition field (x : Z) : Prop := - 2 ^ 28 <= x <= 2 ^ 28.
Definition fields (b : tm) : Prop :=
  field (tm_sec b) /\ field (tm_min b) /\ field (tm_hour b) /\ field (tm_mday b) /\ field (tm_mon b) /\ field (tm_year b).

Lemma mktime_spec tz dst b : fields b -> - 2 ^ 31 < tz < 2 ^ 31 -> 0 <= dst < 2 ^ 31 ->
  exists b', mktime tz dst b = Ret (local_secs tz (dst_of dst b) (date_secs b), b')
    /\ normal b' /\ date_secs b' = date_secs b /\ tm_isdst b' = tm_isdst b /\ tm_gmtoff b' = tm_gmtoff b
    /\ (in_time (date_secs b) = true ->
        tm_wday b' = (date_secs b / SECS_DAY + 4) mod 7 /\ tm_yday b' = yday_of b').
Proof.
  unfold fields, field. intros Hf Htz Hdst. unfold mktime. rewrite carry_spec by lia.
  rewrite (s32_small (tm_min b + _)) by (unfold is_s32; lia_mod). rewrite carry_spec by lia.
  rewrite (s32_small (tm_hour b + _)) by (unfold is_s32; lia_mod). rewrite carry_spec by lia.
  rewrite carry_spec by lia. 
  rewrite (s32_small (tm_year b + _)) by (unfold is_s32; lia_mod).
  set (min := tm_min b + tm_sec b / 60). set (hour := tm_hour b + min / 60).
  rewrite (s32_small (hour / 24 + _)) by (unfold is_s32, hour, min; lia_mod).
  set (day := hour / 24 + (tm_mday b - 1)). set (year := tm_year b + tm_mon b / 12).
  destruct (borrow_days_spec (Z.to_nat (- day)) day (tm_mon b mod 12) year) as (day1 & mon1 & year1 & -> & Hd1 & ?);
    [lia_mod|lia|unfold year; lia_mod|unfold year, day, hour, min; lia_mod|]. cbn [obind].
  destruct (carry_days_spec (Z.to_nat day1) day1 mon1 year1) as (day2 & mon2 & year2 & n & -> & Hd2 & ?); [lia..|]. cbn [obind].
  match goal with |- context [make_time tz dst ?x] => set (b2 := x) end.
  assert (Hn2 : normal b2) by (constructor; simpl; [lia_mod|lia|exists n; split; [tauto|lia]]).
  assert (Hs2 : date_secs b2 = date_secs b).
  { unfold date_secs at 1. simpl. rewrite Z.mod_small, Z.div_small, Z.add_0_r by lia.
    replace (day2 + 1 - 1) with day2 by lia. rewrite Hd2, Hd1. unfold date_secs. fold year.
    assert (Hadd : forall k, days (k + (tm_mday b - 1)) (tm_mon b mod 12) year
      = days (tm_mday b - 1) (tm_mon b mod 12) year + k) by (intros; unfold days; lia).
    unfold day. rewrite Hadd. generalize (days (tm_mday b - 1) (tm_mon b mod 12) year). intros d.
    unfold hour, min, SECS_DAY. clear. lia_mod. }
  destruct (make_time_spec tz dst b2) as (wday & yday & -> & Hw); [done|simpl; lia|done..|].
  rewrite Hs2 in Hw |- *. exists (set_day b2 wday yday). split_and!; try done.
  - by destruct Hn2.
Qed.

(** ** Splitting *)

Lemma year_loop_spec fuel y dayno : 0 <= dayno < 2 ^ 32 -> dayno < 365 * (Z.of_nat fuel + 1) ->
  exists d y', year_loop fuel dayno y = Ret (d, y') /\ y <= y' /\ 0 <= d < YEARSIZE y'
    /\ days_upto y' + d = days_upto y + dayno.
Proof.
  revert y dayno. induction fuel as [|fuel IH]; intros y dayno Hd Hf; cbn [year_loop];
    pose proof (YEARSIZE_range y) as [_ Hy].
  - rewrite (proj2 (Z.leb_gt _ _)) by lia. exists dayno, y. split; [done|lia].
  - destruct (Z.leb_spec (YEARSIZE y) dayno) as [Hle|Hgt]; [|exists dayno, y; split; [done|lia]].
    rewrite u32_small by (unfold is_u32; lia).
    destruct (IH (y + 1) (dayno - YEARSIZE y)) as (d & y' & -> & Hle' & Hdr & Heq); [lia|lia|].
    rewrite days_upto_succ in Heq. exists d, y'. split; [done|]. lia.
Qed.

Lemma gmtime_spec t : 0 <= t < 2 ^ 32 -> exists b, gmtime_r t = Ret b /\ normal b /\ date_secs b = t
  /\ 70 <= tm_year b <= 70 + 2 ^ 20
  /\ tm_wday b = (t / SECS_DAY + 4) mod 7 /\ tm_yday b = yday_of b /\ tm_isdst b = 0 /\ tm_gmtoff b = 0.
Proof.
  intros Ht. unfold gmtime_r. rewrite u32_small by done. unfold SECS_DAY. change (24 * 60 * 60) with 86400.
  assert (Hd : 0 <= t / 86400 < 2 ^ 32) by lia_mod.
  destruct (year_loop_spec (Z.to_nat (t / 86400 / 365)) EPOCH_YR (t / 86400) Hd) as (d & y & -> & Hle & Hdr & Hdk); [lia_mod|].
  change (days_upto EPOCH_YR) with 0 in Hdk. cbn [obind].
  destruct (month_loop_spec (LEAPYEAR y) d Hdr) as (day & mon & n & -> & Hm & Hn & Hday & Hsum). cbn [obind].
  eexists. split; [reflexivity|]. set (b := Tm _ _ _ _ _ _ _ _ _ _).
  assert (Hleap : YEAR0 + tm_year b = y) by (simpl; lia).
  assert (Hnb : normal b).
  { constructor; rewrite ?Hleap; simpl; [lia_mod|lia|]. exists n. split; [done|lia]. }
  assert (Hyd : yday_of b = d) by (unfold yday_of; rewrite Hleap; simpl; lia).
  destruct (date_secs_normal b Hnb) as [-> _]. rewrite Hleap, Hyd. split_and!; try done.
  - simpl. unfold SECS_DAY. lia_mod.
  - simpl. unfold EPOCH_YR, YEAR0 in *. lia.
  - simpl. unfold YEAR0. revert Hdk. unfold days_upto, EPOCH_YR in *. pose proof (YEARSIZE_range y). lia_mod.
Qed.

(** The date is determined by the seconds it stands for. *)
Lemma month_loop_month (leap : bool) mon n day : 0 <= mon < 12 -> _ytab leap !! Z.to_nat mon = Some n -> 0 <= day < n ->
  month_loop 12 leap (month_days leap mon + day) 0 = Ret (day, mon).
Proof.
  intros Hm Hn Hd. set (f := fun (leap : bool) m => match _ytab leap !! Z.to_nat m with
    | Some n => all_below (Z.to_nat n) (fun _ d => match month_loop 12 leap (month_days leap m + d) 0 with
        | Ret (day, mon) => (day =? d) && (mon =? m) | _ => false end)
    | None => false end).
  assert (Hf : all_below 12 f = true) by (vm_compute; reflexivity).
  assert (Hfm : f leap mon = true) by (apply (all_below_spec 12); [exact Hf|exact Hm]). unfold f in Hfm. clear Hf f.
  rewrite Hn in Hfm. apply (all_below_spec _ _ true day) in Hfm; [|lia].
  cbv beta in Hfm.
  destruct (month_loop 12 leap (month_days leap mon + day) 0) as [[day1 mon1]| | |]; [|discriminate..].
  apply andb_true_iff in Hfm as [Hd1 Hm1]. apply Z.eqb_eq in Hd1, Hm1. by subst.
Qed.

Lemma normal_inj b b' : normal b -> normal b' -> date_secs b = date_secs b' ->
  tm_sec b = tm_sec b' /\ tm_min b = tm_min b' /\ tm_hour b = tm_hour b'
  /\ tm_mday b = tm_mday b' /\ tm_mon b = tm_mon b' /\ tm_year b = tm_year b'.
Proof.
  intros Hb Hb' Heq. destruct (date_secs_normal b Hb) as [Hs Hy], (date_secs_normal b' Hb') as [Hs' Hy'].
  destruct Hb as [Ht Hm (n & Hn & Hd)], Hb' as [Ht' Hm' (n' & Hn' & Hd')].
  rewrite Hs, Hs' in Heq. unfold SECS_DAY in Heq. clear Hs Hs'.
  assert (Hday : days_upto (YEAR0 + tm_year b) + yday_of b = days_upto (YEAR0 + tm_year b') + yday_of b') by lia.
  assert (Hyear : tm_year b = tm_year b').
  { destruct (Z.lt_trichotomy (tm_year b) (tm_year b')) as [Hl|[He|Hl]]; [|done|];
      pose proof (days_upto_lt (YEAR0 + _) (YEAR0 + _) ltac:(apply Z.add_lt_mono_l; exact Hl)); lia. }
  rewrite Hyear in Hday, Hn. assert (Hyd : yday_of b = yday_of b') by lia. unfold yday_of in Hyd. rewrite Hyear in Hyd.
  pose proof (month_loop_month _ _ _ (tm_mday b - 1) Hm Hn ltac:(lia)) as Hl.
  pose proof (month_loop_month _ _ _ (tm_mday b' - 1) Hm' Hn' ltac:(lia)) as Hl'.
  rewrite Hyd, Hl' in Hl. simplify_eq. lia.
Qed.

(** ** The properties *)

(** C29: [mktime] on every date whose fields are less than 2^28 in size, in their ranges or
    not: it returns the seconds that the fields stand for in the proleptic Gregorian
    calendar, moved by time zone and daylight saving time, or -1 exactly when one of these
    steps leaves the range of [time_t]; the fields are normalised to the same date, and day
    of the week and of the year are set. *)
Theorem mktime_correct tz dst b : fields b -> - 2 ^ 31 < tz < 2 ^ 31 -> 0 <= dst < 2 ^ 31 ->
  exists b', mktime tz dst b = Ret (local_secs tz (dst_of dst b) (date_secs b), b')
    /\ normal b' /\ date_secs b' = date_secs b /\ tm_isdst b' = tm_isdst b /\ tm_gmtoff b' = tm_gmtoff b
    /\ (in_time (date_secs b) = true ->
        tm_wday b' = (date_secs b / SECS_DAY + 4) mod 7 /\ tm_yday b' = yday_of b').
Proof. apply mktime_spec. Qed.

Lemma fields_of_normal b : normal b -> 70 <= tm_year b <= 70 + 2 ^ 20 -> fields b.
Proof.
  intros [Ht Hm (n & Hn & Hd)] Hy. destruct (ytab_lookup (LEAPYEAR (YEAR0 + tm_year b)) (tm_mon b) Hm) as (n' & Hn' & ?).
  rewrite Hn in Hn'. simplify_eq. unfold fields, field. lia.
Qed.

(** A broken-down date with all ten members determined. *)
Lemma tm_ext b b' : normal b -> normal b' -> date_secs b = date_secs b' ->
  tm_wday b = tm_wday b' -> tm_yday b = tm_yday b' -> tm_isdst b = tm_isdst b' -> tm_gmtoff b = tm_gmtoff b' -> b = b'.
Proof. intros Hb Hb' Heq. pose proof (normal_inj b b' Hb Hb' Heq). destruct b, b'; simpl in *; intros; f_equal; tauto. Qed.

Lemma yday_of_inj b b' : normal b -> normal b' -> date_secs b = date_secs b' -> yday_of b = yday_of b'.
Proof.
  intros Hb Hb' Heq. destruct (normal_inj b b' Hb Hb' Heq) as (_ & _ & _ & H1 & H2 & H3).
  unfold yday_of. by rewrite H1, H2, H3.
Qed.

(** What [mktime] leaves in the structure is what [gmtime] makes of the time. *)
Lemma mktime_gmtime_spec tz dst b : fields b -> - 2 ^ 31 < tz < 2 ^ 31 -> 0 <= dst < 2 ^ 31 ->
  in_time (date_secs b) = true -> tm_isdst b = 0 -> tm_gmtoff b = 0 ->
  exists b', mktime tz dst b = Ret (local_secs tz 0 (date_secs b), b') /\ gmtime_r (date_secs b) = Ret b'.
Proof.
  intros Hf Htz Hdst Hin Hd0 Hg0. destruct (mktime_spec tz dst b Hf Htz Hdst) as (b' & Hmk & Hn & Heq & Hd & Hg & Hw).
  destruct (Hw Hin) as [Hwday Hyday]. exists b'. split; [rewrite Hmk; unfold dst_of; by rewrite Hd0|].
  unfold in_time, TIME_MAX in Hin. apply andb_true_iff in Hin as [Hlo Hhi]. zify_bool.
  destruct (gmtime_spec (date_secs b)) as (g & -> & Hgn & Hgs & _ & Hgw & Hgy & Hgd & Hgg); [lia|].
  f_equal. apply tm_ext; try congruence. rewrite Hgy, Hyday. apply yday_of_inj; congruence.
Qed.

(** C30: A time from 1970 to 2038 splits into the date it stands for, and [mktime] of that
    date is the time again, with the date as it was; also in a time zone.  The other way,
    a date in that range with fields out of their ranges is turned by [mktime] into exactly
    what [gmtime_r] makes of its seconds. *)
Theorem calendar_roundtrip tz dst : - 2 ^ 31 < tz < 2 ^ 31 -> 0 <= dst < 2 ^ 31 ->
  (forall t, 0 <= t <= TIME_MAX -> exists b, gmtime_r t = Ret b /\ normal b /\ date_secs b = t
    /\ mktime 0 dst b = Ret (t, b))
  /\ (forall t, 0 <= t <= TIME_MAX -> 0 <= t - tz <= TIME_MAX -> exists b, localtime_r tz t = Ret b
    /\ mktime tz dst b = Ret (t, b))
  /\ (forall b, fields b -> tm_isdst b = 0 -> tm_gmtoff b = 0 -> 0 <= date_secs b <= TIME_MAX ->
    exists b', mktime 0 dst b = Ret (date_secs b, b') /\ gmtime_r (date_secs b) = Ret b').
Proof.
  intros Htz Hdst. assert (Hin : forall t, 0 <= t <= TIME_MAX -> in_time t = true)
    by (intros t [? ?]; unfold in_time; by rewrite !(proj2 (Z.leb_le _ _))).
  assert (Hls : forall z t, 0 <= t <= TIME_MAX -> 0 <= t + z <= TIME_MAX -> local_secs z 0 t = t + z).
  { intros z t Ht Hz. unfold local_secs. rewrite (Hin t Ht), (Hin _ Hz), (proj2 (Z.leb_le 0 _)) by lia. simpl. lia. }
  assert (Hrt : forall z t, - 2 ^ 31 < z < 2 ^ 31 -> 0 <= t <= TIME_MAX -> 0 <= t + z <= TIME_MAX -> exists b,
    gmtime_r t = Ret b /\ normal b /\ date_secs b = t /\ mktime z dst b = Ret (t + z, b)).
  { intros z t Hz Ht Htz'. destruct (gmtime_spec t) as (b & Hg & Hn & Hs & Hy & _ & _ & Hd & Ho); [unfold TIME_MAX in *; lia|].
    exists b. split_and!; [done..|].
    destruct (mktime_gmtime_spec z dst b (fields_of_normal b Hn Hy) Hz Hdst) as (b' & Hmk & Hg'); [by rewrite Hs; apply Hin|done..|].
    rewrite Hs in Hg', Hmk. rewrite Hg in Hg'. simplify_eq. by rewrite Hmk, Hls. }
  split_and!.
  - intros t Ht. destruct (Hrt 0 t) as (b & ? & ? & ? & Hmk); [lia..|]. exists b. by rewrite Z.add_0_r in Hmk.
  - intros t Ht Ht'. unfold localtime_r. rewrite s32_small by (unfold is_s32, TIME_MAX in *; lia).
    destruct (Hrt tz (t - tz)) as (b & Hg & _ & _ & Hmk); [lia..|]. exists b. split; [done|]. rewrite Hmk. do 2 f_equal. lia.
  - intros b Hf Hd Hg Ht. destruct (mktime_gmtime_spec 0 dst b Hf) as (b' & Hmk & Hgm); try (done || lia).
    { by apply Hin. } exists b'. split; [|done]. rewrite Hmk, Hls by lia. do 2 f_equal. lia.
Qed.

(** ** Witnesses

    1 January 2000 with fields far out of their ranges, and 29 February 2000. *)
Definition ex_date : tm := Tm 3600 (-60) 24 (-31) 25 98 0 0 0 0.

Example ex_gmtime : gmtime_r 951782400 = Ret (Tm 0 0 0 29 1 100 2 59 0 0).
Proof. by vm_compute. Qed.
Example ex_mktime : mktime 0 0 ex_date = Ret (946684800, Tm 0 0 0 1 0 100 6 0 0 0).
Proof. by vm_compute. Qed.

Lemma mktime_correct_witness : exists b', mktime 0 0 ex_date = Ret (946684800, b') /\ tm_wday b' = 6.
Proof.
  destruct (mktime_correct 0 0 ex_date) as (b' & Hmk & _ & _ & _ & _ & Hw).
  - unfold fields, field, ex_date. simpl. lia.
  - lia.
  - lia.
  - exists b'. split; [exact Hmk|]. apply Hw. reflexivity.
Defined.

Lemma calendar_roundtrip_witness : exists b, localtime_r (-3600) 951782400 = Ret b /\ mktime (-3600) 3600 b = Ret (951782400, b).
Proof.
  destruct (calendar_roundtrip (-3600) 3600) as (_ & Hlocal & _); [lia|lia|].
  apply Hlocal; unfold TIME_MAX; lia.
Defined.
