(* ===== verification/Inet.v ===== *)
(** * Inet: the Internet checksum, src/src/sys/net/inet.c

    The sum is taken in a 32-bit accumulator over the 16-bit words of each buffer of a chain,
    with the carries folded back and the halves exchanged behind a buffer of odd length.
    Memory is a list of bytes; a chain of packet buffers is the list of their payloads. *)

From S2P Require Import Prelude.
Local Open Scope krlean_scope.

Definition htons (n : Z) : Z := Z.lor (Z.shiftl (Z.land n 255) 8) (Z.shiftr (Z.land n 65280) 8).

(** [(acc >> 16) + (acc & 0xFFFF)] *)
Definition fold_carry (acc : Z) : Z := u32 (Z.shiftr acc 16 + Z.land acc 65535).

(** The words of a memory portion, low byte first, and an odd byte. *)
Fixpoint sum_words (acc : Z) (l : list Z) : Z :=
  match l with
  | a :: b :: l => sum_words (u32 (acc + (a + 256 * b))) l
  | [a] => u32 (acc + a)
  | [] => acc
  end.

Definition chksum (l : list Z) : Z :=
  let acc := fold_carry (sum_words 0 l) in
  if truthy (Z.land acc 4294901760) then fold_carry acc else acc.

(** [while (acc >> 16) acc = (acc & 0xFFFF) + (acc >> 16)] *)
Fixpoint fold_loop (fuel : nat) (acc : Z) : outcome Z :=
  if truthy (Z.shiftr acc 16) then
    match fuel with O => Diverge | S fuel => fold_loop fuel (fold_carry acc) end
  else Ret acc.

Definition inet_chksum (l : list Z) : outcome Z :=
  acc <~ fold_loop 2 (chksum l); Ret (u16 (Z.lnot (Z.land acc 65535))).

Definition swap_bytes (acc : Z) : Z := Z.lor (Z.shiftl (Z.land acc 255) 8) (Z.shiftr (Z.land acc 65280) 8).

(** The loop over the chain. *)
Fixpoint sum_chain (acc swapped : Z) (ps : list (list Z)) : outcome (Z * Z) :=
  match ps with
  | [] => Ret (acc, swapped)
  | q :: ps =>
      acc <~ fold_loop 2 (u32 (acc + chksum q));
      if truthy (Z.rem (Z.of_nat (length q)) 2) then sum_chain (swap_bytes acc) (1 - swapped) ps
      else sum_chain acc swapped ps
  end.

Definition inet_chksum_pbuf (ps : list (list Z)) : outcome Z :=
  '(acc, swapped) <~ sum_chain 0 0 ps;
  let acc := if truthy swapped then swap_bytes acc else acc in
  Ret (u16 (Z.lnot (Z.land acc 65535))).

Definition inet_chksum_pseudo (ps : list (list Z)) (src dest proto proto_len : Z) : outcome Z :=
  '(acc, swapped) <~ sum_chain 0 0 ps;
  let acc := if truthy swapped then swap_bytes acc else acc in
  let acc := u32 (acc + Z.land src 65535) in
  let acc := u32 (acc + Z.land (Z.shiftr src 16) 65535) in
  let acc := u32 (acc + Z.land dest 65535) in
  let acc := u32 (acc + Z.land (Z.shiftr dest 16) 65535) in
  let acc := u32 (acc + htons (u16 proto)) in
  let acc := u32 (acc + htons proto_len) in
  acc <~ fold_loop 2 acc;
  Ret (u16 (Z.lnot (Z.land acc 65535))).

(** ** The checksum of RFC 1071

    The sum of all words of the data, an odd byte padded with 0, in ones' complement
    arithmetic, that is with the carries added back; the checksum is its complement.
    [odd] says that the first byte is the second one of a word. *)

Fixpoint word_sum (odd : bool) (l : list Z) : Z :=
  match l with
  | [] => 0
  | a :: l => (if odd then 256 * a else a) + word_sum (negb odd) l
  end.

Definition ones_sum (n : Z) : Z := if n =? 0 then 0 else (n - 1) mod 65535 + 1.
Definition rfc_checksum (l : list Z) : Z := 65535 - ones_sum (word_sum false l).

Definition bytes (l : list Z) : Prop := Forall (fun b => 0 <= b < 256) l.

(** What the checksum of a transport protocol covers in front of the packet. *)
Definition word_le (w : Z) : list Z := [w mod 256; w / 256 mod 256].
Definition word_be (w : Z) : list Z := [w / 256 mod 256; w mod 256].
Definition pseudo_header (src dest proto len : Z) : list Z :=
  word_le src ++ word_le (src / 65536) ++ word_le dest ++ word_le (dest / 65536) ++ word_be proto ++ word_be len.

(** ** Arithmetic modulo 65535 *)

(** Two sums with the same checksum. *)
Definition congr (a b : Z) : Prop := 0 <= a /\ 0 <= b /\ (a - b) mod 65535 = 0 /\ (a = 0 <-> b = 0).

Lemma congr_refl a : 0 <= a -> congr a a.
Proof. intros. unfold congr. lia_mod. Qed.

Lemma congr_sym a b : congr a b -> congr b a.
Proof. unfold congr. lia_mod. Qed.

Lemma congr_trans a b c : congr a b -> congr b c -> congr a c.
Proof. unfold congr. lia_mod. Qed.

Lemma congr_add a b c d : congr a b -> congr c d -> congr (a + c) (b + d).
Proof. unfold congr. lia_mod. Qed.

Lemma congr_ones_sum a : 0 <= a -> congr (ones_sum a) a /\ 0 <= ones_sum a <= 65535.
Proof. intros. unfold congr, ones_sum. destruct (Z.eqb_spec a 0); [subst; lia_mod|lia_mod]. Qed.

Lemma congr_small a b : congr a b -> a <= 65535 -> a = ones_sum b.
Proof. unfold congr, ones_sum. destruct (Z.eqb_spec b 0); intros (? & ? & ? & ?) ?; lia_mod. Qed.

Lemma ones_sum_congr a b : congr a b -> ones_sum a = ones_sum b.
Proof.
  intros Hab. assert (Ha : 0 <= a) by apply Hab. destruct (congr_ones_sum a Ha) as [? ?].
  apply congr_small; [by eapply congr_trans|lia].
Qed.

(** The bit operations of the code as arithmetic. *)
Lemma fold_carry_spec acc : is_u32 acc -> fold_carry acc = acc / 65536 + acc mod 65536.
Proof.
  intros Ha. unfold fold_carry. rewrite Z.shiftr_div_pow2 by lia. change 65535 with (Z.ones 16).
  rewrite Z.land_ones by lia. change (2 ^ 16) with 65536. apply u32_small. unfold is_u32 in *. lia_mod.
Qed.

Lemma shiftr16_truthy acc : truthy (Z.shiftr acc 16) = negb (acc / 65536 =? 0).
Proof. unfold truthy. by rewrite Z.shiftr_div_pow2. Qed.

Lemma high_truthy acc : is_u32 acc -> truthy (Z.land acc 4294901760) = negb (acc / 65536 =? 0).
Proof.
  intros Ha. change 4294901760 with (Z.shiftl (Z.ones (32 - 16)) 16). rewrite land_high by (done || lia).
  unfold truthy. change (2 ^ 16) with 65536. f_equal. apply eq_true_iff_eq. rewrite !Z.eqb_eq. lia.
Qed.

Lemma swap_bytes_spec acc : 0 <= acc < 65536 -> swap_bytes acc = acc mod 256 * 256 + acc / 256.
Proof.
  intros Ha. unfold swap_bytes. rewrite Z.shiftr_land. change (Z.shiftr 65280 8) with (Z.ones 8). change 255 with (Z.ones 8).
  rewrite !Z.land_ones, Z.shiftl_mul_pow2, Z.shiftr_div_pow2 by lia. change (2 ^ 8) with 256.
  rewrite (Z.mod_small (acc / 256)) by lia_mod. change 256 with (2 ^ 8). apply lor_low; lia_mod.
Qed.

Lemma complement_spec acc : 0 <= acc <= 65535 -> u16 (Z.lnot (Z.land acc 65535)) = 65535 - acc.
Proof.
  intros Ha. change 65535 with (Z.ones 16) at 1. rewrite Z.land_ones, Z.mod_small by lia.
  unfold u16, uwrap, Z.lnot. lia_mod.
Qed.

Lemma fold_carry_congr acc : is_u32 acc -> congr (fold_carry acc) acc /\ fold_carry acc <= 131070
  /\ (acc < 131072 -> fold_carry acc <= 65536) /\ (acc <= 131070 -> acc / 65536 <> 0 -> fold_carry acc <= 65535).
Proof. intros Ha. rewrite fold_carry_spec by done. unfold congr, is_u32 in *. lia_mod. Qed.

Lemma fold_loop_spec acc : is_u32 acc ->
  exists acc', fold_loop 2 acc = Ret acc' /\ congr acc' acc /\ 0 <= acc' <= 65535.
Proof.
  intros Ha. destruct (fold_carry_congr acc Ha) as (Hc1 & Hb1 & _). cbn [fold_loop]. rewrite !shiftr16_truthy.
  destruct (Z.eqb_spec (acc / 65536) 0) as [|H0]; cbn [negb].
  { exists acc. split; [done|]. split; [apply congr_refl|]; unfold is_u32 in *; lia_mod. }
  assert (Ha' : is_u32 (fold_carry acc)) by (unfold is_u32, congr in *; lia).
  destruct (fold_carry_congr _ Ha') as (Hc2 & _ & _ & Hb2).
  destruct (Z.eqb_spec (fold_carry acc / 65536) 0) as [|H1]; cbn [negb].
  { exists (fold_carry acc). split; [done|]. split; [done|]. unfold congr in *. lia_mod. }
  specialize (Hb2 Hb1 H1). rewrite (Z.div_small (fold_carry (fold_carry acc))) by (unfold congr in *; lia). simpl.
  exists (fold_carry (fold_carry acc)). split; [done|]. split; [by eapply congr_trans|]. unfold congr in *; lia.
Qed.

Lemma bytes_ind (P : list Z -> Prop) : P [] -> (forall a, 0 <= a < 256 -> P [a]) ->
  (forall a b l, 0 <= a < 256 -> 0 <= b < 256 -> bytes l -> P l -> P (a :: b :: l)) -> forall l, bytes l -> P l.
Proof.
  intros H0 H1 H2. fix IH 1. intros [|a [|b l]] Hl; [exact H0|apply H1; by inversion Hl|].
  inversion Hl as [|? ? Ha Hl']; subst. inversion Hl' as [|? ? Hb Hl'']; subst. apply H2; [done..|by apply IH].
Qed.

Lemma word_sum_bound l : bytes l -> 0 <= word_sum false l <= 65535 * ((Z.of_nat (length l) + 1) / 2).
Proof. intros Hl. pattern l. apply bytes_ind; [..|exact Hl]; clear l Hl; intros; simpl in *; lia_mod. Qed.

Lemma sum_words_spec l acc : bytes l -> 0 <= acc -> acc + 65535 * ((Z.of_nat (length l) + 1) / 2) < 2 ^ 32 ->
  sum_words acc l = acc + word_sum false l.
Proof.
  intros Hl. revert acc. pattern l. apply bytes_ind; [..|exact Hl]; clear l Hl;
    [intros acc|intros a Ha acc|intros a b l Ha Hb Hl IH acc]; intros Hacc Hmax; simpl in *; [lia| |].
  - rewrite u32_small; [lia|]. unfold is_u32. lia_mod.
  - rewrite u32_small by (unfold is_u32; lia_mod). rewrite IH; [lia|lia|lia_mod].
Qed.

(** The longest portion whose sum cannot overflow. *)
Definition MAXLEN : Z := 131072.
Definition portion (l : list Z) : Prop := bytes l /\ Z.of_nat (length l) <= MAXLEN.

Lemma chksum_spec l : portion l -> congr (chksum l) (word_sum false l) /\ 0 <= chksum l <= 65535.
Proof.
  intros [Hl Hlen]. unfold MAXLEN in Hlen. pose proof (word_sum_bound l Hl) as Hb.
  assert (Hu : is_u32 (word_sum false l)) by (unfold is_u32; lia_mod).
  unfold chksum. rewrite sum_words_spec, Z.add_0_l by (done || lia_mod).
  destruct (fold_carry_congr _ Hu) as (Hc1 & Hb1 & _).
  assert (Hu' : is_u32 (fold_carry (word_sum false l))) by (unfold is_u32, congr in *; lia).
  rewrite high_truthy by done. destruct (fold_carry_congr _ Hu') as (Hc2 & _ & _ & Hb2).
  destruct (Z.eqb_spec (fold_carry (word_sum false l) / 65536) 0) as [H0|H0]; cbn [negb].
  - split; [done|]. unfold congr in *. lia_mod.
  - split; [by eapply congr_trans|]. specialize (Hb2 Hb1 H0). unfold congr in *. lia.
Qed.

(** Shifting the data by one byte multiplies its sum by 256. *)
Lemma word_sum_shift odd l : bytes l -> congr (256 * word_sum odd l) (word_sum (negb odd) l).
Proof.
  intros Hl. revert odd. induction l as [|a l IH]; intros odd; simpl; [apply congr_refl; lia|].
  inversion Hl as [|? ? Ha Hl']; subst. rewrite Z.mul_add_distr_l. apply congr_add; [|by apply IH].
  destruct odd; unfold congr; simpl; lia_mod.
Qed.

Lemma word_sum_app odd l k : word_sum odd (l ++ k) = word_sum odd l + word_sum (xorb odd (Nat.odd (length l))) k.
Proof.
  revert odd. induction l as [|a l IH]; intros odd; simpl; [by rewrite xorb_false_r|].
  rewrite IH, Nat.odd_succ, <- Nat.negb_odd. 
  replace (xorb (negb odd) (Nat.odd (length l))) with (xorb odd (negb (Nat.odd (length l)))); [lia|].
  by destruct odd, (Nat.odd (length l)).
Qed.

Lemma word_sum_nonneg odd l : bytes l -> 0 <= word_sum odd l.
Proof. intros Hl. revert odd. induction Hl as [|a l Ha Hl IH]; intros odd; simpl; [lia|]. specialize (IH (negb odd)). destruct odd; lia. Qed.

Lemma swap_congr acc n : 0 <= acc <= 65535 -> congr acc n ->
  congr (swap_bytes acc) (256 * n) /\ 0 <= swap_bytes acc <= 65535.
Proof. intros Ha Hc. rewrite swap_bytes_spec by lia. unfold congr in *. lia_mod. Qed.

Lemma rem2_odd (l : list Z) : truthy (Z.rem (Z.of_nat (length l)) 2) = Nat.odd (length l).
Proof.
  unfold truthy. rewrite Z.rem_mod_nonneg, Zmod_odd by lia.
  replace (Z.odd (Z.of_nat (length l))) with (Nat.odd (length l)); [by destruct (Nat.odd _)|].
  induction (length l) as [|n IH]; [done|]. by rewrite Nat2Z.inj_succ, Z.odd_succ, Nat.odd_succ, <- Z.negb_odd, <- Nat.negb_odd, IH.
Qed.

(** After the buffers [done] the accumulator stands for their bytes, shifted by one byte
    if their number is odd. *)
Lemma sum_chain_spec ps done acc : Forall portion ps -> bytes done -> 0 <= acc <= 65535 ->
  congr acc (word_sum (Nat.odd (length done)) done) ->
  let total := done ++ concat ps in
  exists acc', sum_chain acc (of_bool (Nat.odd (length done))) ps = Ret (acc', of_bool (Nat.odd (length total)))
    /\ 0 <= acc' <= 65535 /\ congr acc' (word_sum (Nat.odd (length total)) total).
Proof.
  revert done acc. induction ps as [|q ps IH]; intros done acc Hps Hd Ha Hc; cbv zeta; cbn [sum_chain concat].
  { exists acc. rewrite app_nil_r. split; [done|]. by split. }
  inversion Hps as [|? ? Hq Hps']; subst. destruct (chksum_spec q Hq) as [Hcq Hbq].
  rewrite u32_small by (unfold is_u32; lia).
  destruct (fold_loop_spec (acc + chksum q)) as (acc1 & -> & Hc1 & Hb1); [unfold is_u32; lia|]. cbn [obind].
  rewrite rem2_odd. destruct Hq as [Hq _]. assert (Hdq : bytes (done ++ q)) by (by apply Forall_app).
  set (o := Nat.odd (length done)) in *.
  assert (Hsum : congr acc1 (word_sum o (done ++ q))).
  { eapply congr_trans; [exact Hc1|]. rewrite word_sum_app. fold o. rewrite xorb_nilpotent. by apply congr_add. }
  assert (Ho : Nat.odd (length (done ++ q)) = xorb o (Nat.odd (length q))) by (by rewrite length_app, Nat.odd_add).
  rewrite app_assoc. destruct (Nat.odd (length q)); rewrite ?xorb_true_r, ?xorb_false_r in Ho.
  - destruct (swap_congr acc1 _ Hb1 Hsum) as [Hc2 Hb2].
    replace (1 - of_bool o) with (of_bool (Nat.odd (length (done ++ q)))) by (rewrite Ho; by destruct o).
    apply IH; [done..|]. rewrite Ho. eapply congr_trans; [exact Hc2|]. by apply word_sum_shift.
  - rewrite <- Ho. apply IH; [done..|]. by rewrite Ho.
Qed.

Lemma sum_chain_total ps : Forall portion ps -> exists acc swapped, sum_chain 0 0 ps = Ret (acc, swapped)
  /\ let acc := if truthy swapped then swap_bytes acc else acc in
     0 <= acc <= 65535 /\ congr acc (word_sum false (concat ps)).
Proof.
  intros Hps. assert (Hb : bytes (concat ps)).
  { apply Forall_concat. eapply Forall_impl; [exact Hps|]. intros l Hl. apply Hl. }
  destruct (sum_chain_spec ps [] 0 Hps) as (acc & Hr & Ha & Hc); [constructor|lia|by apply congr_refl|].
  exists acc, (of_bool (Nat.odd (length (concat ps)))). split; [exact Hr|]. simpl in Hc.
  destruct (Nat.odd (length (concat ps))); simpl; [|done].
  destruct (swap_congr acc _ Ha Hc) as [Hc2 Hb2]. split; [done|]. eapply congr_trans; [exact Hc2|]. by apply word_sum_shift.
Qed.

Lemma inet_chksum_spec l : portion l -> inet_chksum l = Ret (rfc_checksum l).
Proof.
  intros Hl. destruct (chksum_spec l Hl) as [Hc Hb]. unfold inet_chksum.
  destruct (fold_loop_spec (chksum l)) as (acc & -> & Hc' & Ha); [unfold is_u32; lia|]. cbn [obind].
  rewrite complement_spec by done. unfold rfc_checksum. rewrite (congr_small acc (word_sum false l)); [done| |lia].
  by eapply congr_trans.
Qed.

(** The pseudo header has an even length and its words are the terms the code adds. *)
Lemma pseudo_sum src dest proto len l : is_u32 src -> is_u32 dest -> 0 <= proto < 256 -> 0 <= len < 65536 ->
  word_sum false (pseudo_header src dest proto len ++ l) =
  word_sum false l + Z.land src 65535 + Z.land (Z.shiftr src 16) 65535 + Z.land dest 65535
  + Z.land (Z.shiftr dest 16) 65535 + htons (u16 proto) + htons len.
Proof.
  intros Hs Hd Hp Hl. change 65535 with (Z.ones 16). rewrite !Z.land_ones, !Z.shiftr_div_pow2 by lia.
  assert (Hu : u16 proto = proto) by (unfold u16, uwrap; apply Z.mod_small; lia). rewrite Hu.
  change htons with swap_bytes. rewrite !swap_bytes_spec by lia.
  unfold is_u32 in *. simpl. change (Z.pow_pos 2 16) with 65536. lia_mod.
Qed.

Lemma pseudo_range src dest proto len : is_u32 src -> is_u32 dest -> 0 <= proto < 256 -> 0 <= len < 65536 ->
  0 <= Z.land src 65535 <= 65535 /\ 0 <= Z.land (Z.shiftr src 16) 65535 <= 65535
  /\ 0 <= Z.land dest 65535 <= 65535 /\ 0 <= Z.land (Z.shiftr dest 16) 65535 <= 65535
  /\ 0 <= htons (u16 proto) <= 65535 /\ 0 <= htons len <= 65535.
Proof.
  intros _ _ Hp Hl. change 65535 with (Z.ones 16). rewrite !Z.land_ones by lia. change (2 ^ 16) with 65536.
  assert (Hu : u16 proto = proto) by (unfold u16, uwrap; apply Z.mod_small; lia). rewrite Hu.
  change htons with swap_bytes. rewrite !swap_bytes_spec by lia. change (Z.ones 16) with 65535. lia_mod.
Qed.

Lemma word_sum_mid pre w post : Nat.odd (length pre) = false -> 0 <= w <= 65535 ->
  word_sum false (pre ++ word_le w ++ post) = word_sum false pre + w + word_sum false post.
Proof. intros Ho Hw. rewrite word_sum_app, Ho. simpl. lia_mod. Qed.

Lemma portion_word pre w w' post : portion (pre ++ word_le w ++ post) -> portion (pre ++ word_le w' ++ post).
Proof.
  unfold portion, bytes. rewrite !length_app, !Forall_app. intros [(? & _ & ?) ?].
  split; [|done]. split; [done|]. split; [|done]. unfold word_le. repeat constructor; lia_mod.
Qed.

(** ** The properties *)

(** C31: The checksums of the code are the one of RFC 1071: of a memory portion, of the bytes
    of a chain of buffers however they are divided, and of a chain behind the pseudo header
    of the transport protocols.  The loops end after at most two rounds, and the 32-bit
    accumulator does not overflow for portions of up to 131072 bytes. *)
Theorem inet_chksum_correct ps l src dest proto len : Forall portion ps -> portion l ->
  is_u32 src -> is_u32 dest -> 0 <= proto < 256 -> 0 <= len < 65536 ->
  inet_chksum l = Ret (rfc_checksum l)
  /\ inet_chksum_pbuf ps = Ret (rfc_checksum (concat ps))
  /\ inet_chksum_pseudo ps src dest proto len = Ret (rfc_checksum (pseudo_header src dest proto len ++ concat ps)).
Proof.
  intros Hps Hl Hs Hd Hp Hlen. split; [by apply inet_chksum_spec|].
  destruct (sum_chain_total ps Hps) as (acc & sw & Hr & Ha & Hc).
  unfold inet_chksum_pbuf, inet_chksum_pseudo. rewrite Hr. cbn [obind].
  generalize dependent (if truthy sw then swap_bytes acc else acc). clear acc Hr. intros acc Ha Hc.
  split.
  { rewrite complement_spec by done. unfold rfc_checksum. by rewrite (congr_small acc _ Hc) by lia. }
  destruct (pseudo_range src dest proto len) as (H1 & H2 & H3 & H4 & H5 & H6); [done..|].
  u32_norm.
  match goal with |- context [fold_loop 2 ?x] => destruct (fold_loop_spec x) as (acc' & -> & Hc' & Ha') end;
    [unfold is_u32; lia|].
  cbn [obind]. rewrite complement_spec by done. unfold rfc_checksum. do 2 f_equal.
  apply congr_small; [|lia]. eapply congr_trans; [exact Hc'|]. rewrite pseudo_sum by done.
  repeat (apply congr_add; [|apply congr_refl; lia]). exact Hc.
Qed.

(** A sender that puts the checksum of a header with a zero checksum field into that
    field lets the receiver's check come out as 0; and the receiver notices every change of
    one aligned word to another value, but for an exchange of 0 and 0xFFFF. *)
Lemma checksum_detects pre post c : portion (pre ++ [0; 0] ++ post) -> Nat.odd (length pre) = false ->
  inet_chksum (pre ++ [0; 0] ++ post) = Ret c ->
  inet_chksum (pre ++ word_le c ++ post) = Ret 0
  /\ (forall pre' w w' post', pre ++ word_le c ++ post = pre' ++ word_le w ++ post' -> Nat.odd (length pre') = false ->
      0 <= w <= 65535 -> 0 <= w' <= 65535 -> (w - w') mod 65535 <> 0 ->
      inet_chksum (pre' ++ word_le w' ++ post') <> Ret 0).
Proof.
  change [0; 0] with (word_le 0). intros Hp Ho Hc. rewrite inet_chksum_spec in Hc by done. apply (f_equal (fun o => match o with Ret x => x | _ => 0 end)) in Hc.
  assert (Hb := proj1 Hp). apply Forall_app in Hb as [Hb1 Hb2]. apply Forall_app in Hb2 as [_ Hb3].
  unfold rfc_checksum in Hc. rewrite word_sum_mid in Hc by (done || lia).
  pose proof (word_sum_nonneg false pre Hb1) as Hn1. pose proof (word_sum_nonneg false post Hb3) as Hn2.
  destruct (congr_ones_sum (word_sum false pre + 0 + word_sum false post)) as [Hcong Hrange]; [lia|].
  assert (Hc0 : 0 <= c <= 65535) by lia.
  assert (Hport : portion (pre ++ word_le c ++ post)) by (by apply (portion_word _ 0)).
  assert (Hall : (word_sum false pre + c + word_sum false post) mod 65535 = 0
    /\ 0 < word_sum false pre + c + word_sum false post) by (unfold congr in Hcong; lia_mod).
  split.
  - rewrite inet_chksum_spec by done. f_equal. unfold rfc_checksum. rewrite word_sum_mid by done.
    rewrite <- (congr_small 65535); [done| |lia]. unfold congr. lia_mod.
  - intros pre' w w' post' Heq Ho' Hw Hw' Hne Hz. rewrite Heq in Hport.
    assert (Hsum := f_equal (word_sum false) Heq). rewrite !word_sum_mid in Hsum by done.
    rewrite inet_chksum_spec in Hz by (by apply (portion_word _ w)).
    apply (f_equal (fun o => match o with Ret x => x | _ => 1 end)) in Hz. unfold rfc_checksum in Hz.
    rewrite word_sum_mid in Hz by done. destruct Hport as [Hb _]. apply Forall_app in Hb as [Hb4 Hb5].
    apply Forall_app in Hb5 as [_ Hb5].
    pose proof (word_sum_nonneg false pre' Hb4). pose proof (word_sum_nonneg false post' Hb5).
    destruct (congr_ones_sum (word_sum false pre' + w' + word_sum false post')) as [Hcong' _]; [lia|].
    unfold congr in Hcong'. lia_mod.
Qed.

(** ** Witnesses

    The header of a UDP packet from 192.168.0.1 to 192.168.0.199, without its checksum, and
    a packet in three buffers, two of odd length. *)
Definition ex_pre : list Z := [69; 0; 0; 115; 0; 0; 64; 0; 64; 17].
Definition ex_post : list Z := [192; 168; 0; 1; 192; 168; 0; 199].
Definition ex_chain : list (list Z) := [[1; 2; 3]; [255; 254; 253; 252]; [7]].

Lemma portion_check l : forallb (fun b => (0 <=? b) && (b <? 256)) l && (Z.of_nat (length l) <=? MAXLEN) = true -> portion l.
Proof.
  rewrite andb_true_iff, forallb_forall, Z.leb_le. intros [Hl Hlen]. split; [|done].
  apply Forall_forall. intros b Hb%list_elem_of_In. specialize (Hl b Hb). zify_bool. lia.
Qed.

Example ex_header : inet_chksum (ex_pre ++ [0; 0] ++ ex_post) = Ret 25016.
Proof. by vm_compute. Qed.

Lemma inet_chksum_correct_witness :
  inet_chksum_pseudo ex_chain 16820416 3338709184 17 8
  = Ret (rfc_checksum (pseudo_header 16820416 3338709184 17 8 ++ concat ex_chain))
  /\ rfc_checksum (concat ex_chain) = 63743.
Proof.
  split; [|reflexivity].
  destruct (inet_chksum_correct ex_chain [] 16820416 3338709184 17 8) as (_ & _ & Hps).
  - unfold ex_chain. repeat (constructor; [by apply portion_check|]). constructor.
  - by apply portion_check.
  - unfold is_u32. lia.
  - unfold is_u32. lia.
  - lia.
  - lia.
  - exact Hps.
Defined.

