(* ===== verification/Pipe.v ===== *)
(** * Pipe: pipes, src/src/sys/fs/pipefs/pipefs.c

    A pipe has no buffer: a thread that finds nobody at the other end leaves a request with
    the address and the size of its data in the wait list of its own end and sleeps, and
    the thread that comes to the other end copies from or to that data.  A request is on
    the stack of the thread that waits, so it is known by the number of the thread.  The
    wait list is linked through [next]; [waithead] and [waittail] are those of the code.

    [pipefs_read] and [pipefs_write] run until the thread sleeps; [finish_read] and
    [finish_write] are the rest, with the answer of [enter_alertable_wait]. *)

From stdpp Require Import functions.
From S2P Require Import Prelude.
Local Open Scope krlean_scope.

Definition IOEVT_READ : Z := 1.
Definition IOEVT_WRITE : Z := 2.
Definition IOEVT_CLOSE : Z := 32.

(** The two ends. *)
Inductive side := Rd | Wr.
#[export] Instance side_eq_dec : EqDecision side.
Proof. solve_decision. Defined.

(** What pipes ask of the scheduler and of the I/O events of their files.  [parked k t]: the
    thread may be marked ready. *)
Class PipeServices (K : Type) := {
  kinv : K -> Prop;
  parked : K -> nat -> Prop;
  mark_ready : K -> nat -> outcome K;             (* mark_thread_ready(t, 1, 2) *)
  set_event_of : K -> side -> Z -> outcome K;     (* set_io_event(&filp->iob, events) *)
  clear_event_of : K -> side -> Z -> K;           (* clear_io_event(&filp->iob, events) *)

  mark_ready_ok : forall k t, kinv k -> parked k t ->
    exists k', mark_ready k t = Ret k' /\ kinv k' /\ forall t', t' <> t -> parked k t' -> parked k' t';
  set_event_ok : forall k sd ev, kinv k ->
    exists k', set_event_of k sd ev = Ret k' /\ kinv k' /\ forall t, parked k t -> parked k' t;
  clear_event_ok : forall k sd ev, kinv k ->
    kinv (clear_event_of k sd ev) /\ forall t, parked k t -> parked (clear_event_of k sd ev) t;
}.

Section Pipe.
Context {K : Type} `{!PipeServices K}.

Record pipereq := PipeReq { buffer : Z; size : Z; rc : Z }.

(** [alive]: the structure has not been freed; [peer]: the pointer is not NULL. *)
Record pipe_end := PipeEnd { waithead : option nat; waittail : option nat; peer : bool; alive : bool; nonblock : bool }.

Record st := St { kern : K; mem : Z -> Z; ends : side -> pipe_end; reqs : nat -> pipereq; next : nat -> option nat }.

Definition set_kern (s : st) (k : K) : st := St k (mem s) (ends s) (reqs s) (next s).
Definition set_mem (s : st) (m : Z -> Z) : st := St (kern s) m (ends s) (reqs s) (next s).
Definition set_end (s : st) (sd : side) (e : pipe_end) : st := St (kern s) (mem s) (<[sd := e]> (ends s)) (reqs s) (next s).
Definition set_req (s : st) (t : nat) (r : pipereq) : st := St (kern s) (mem s) (ends s) (<[t := r]> (reqs s)) (next s).
Definition set_next (s : st) (t : nat) (n : option nat) : st := St (kern s) (mem s) (ends s) (reqs s) (<[t := n]> (next s)).

Definition set_waithead (s : st) (sd : side) (h : option nat) : st :=
  let e := ends s sd in set_end s sd (PipeEnd h (waittail e) (peer e) (alive e) (nonblock e)).
Definition set_waittail (s : st) (sd : side) (h : option nat) : st :=
  let e := ends s sd in set_end s sd (PipeEnd (waithead e) h (peer e) (alive e) (nonblock e)).
Definition set_peer (s : st) (sd : side) (b : bool) : st :=
  let e := ends s sd in set_end s sd (PipeEnd (waithead e) (waittail e) b (alive e) (nonblock e)).
Definition set_rc (s : st) (t : nat) (x : Z) : st :=
  let r := reqs s t in set_req s t (PipeReq (buffer r) (size r) x).

Definition other (sd : side) : side := match sd with Rd => Wr | Wr => Rd end.

Definition memcpy (m : Z -> Z) (dst src n : Z) : Z -> Z :=
  fun a => if (dst <=? a) && (a <? dst + n) then m (src + (a - dst)) else m a.

Definition mark_req_ready (s : st) (t : nat) : outcome st := k <~ mark_ready (kern s) t; Ret (set_kern s k).
Definition set_io_event (s : st) (sd : side) (ev : Z) : outcome st := k <~ set_event_of (kern s) sd ev; Ret (set_kern s k).
Definition clear_io_event (s : st) (sd : side) (ev : Z) : st := set_kern s (clear_event_of (kern s) sd ev).

(** [waithead = req->next; if (waithead == NULL) waittail = NULL;] *)
Definition pop_request (s : st) (sd : side) (t : nat) : st :=
  let h := next s t in
  let s := set_waithead s sd h in
  match h with None => set_waittail s sd None | Some _ => s end.

Fixpoint release_loop (fuel : nat) (s : st) (req : option nat) (retcode : Z) : outcome st :=
  match req, fuel with
  | None, _ => Ret s
  | Some _, O => Diverge
  | Some t, S fuel =>
      let n := next s t in
      let s := set_rc s t retcode in
      s <~ mark_req_ready s t;
      release_loop fuel s n retcode
  end.

Definition release_all_waiters (fuel : nat) (s : st) (sd : side) (retcode : Z) : outcome st :=
  s <~ release_loop fuel s (waithead (ends s sd)) retcode;
  Ret (set_waittail (set_waithead s sd None) sd None).

Fixpoint cancel_loop (fuel : nat) (s : st) (sd : side) (r req : nat) : outcome st :=
  match next s r, fuel with
  | None, _ => Ret s
  | Some _, O => Diverge
  | Some n, S fuel =>
      if (n =? req)%nat then
        let s := set_next s r (next s req) in
        Ret (if bool_decide (waittail (ends s sd) = Some req) then set_waittail s sd (Some r) else s)
      else cancel_loop fuel s sd n req
  end.

Definition cancel_request (fuel : nat) (s : st) (sd : side) (req : nat) : outcome st :=
  if negb (alive (ends s sd)) then Fault
  else match waithead (ends s sd) with
  | Some h =>
      if (h =? req)%nat then
        let s := set_waithead s sd (next s req) in
        Ret (if bool_decide (waittail (ends s sd) = Some req) then set_waittail s sd None else s)
      else cancel_loop fuel s sd h req
  | None => Ret s
  end.

(** The request of a thread at the end of the list, as far as [waittail] is the end. *)
Definition add_request (s : st) (sd : side) (t : nat) (r : pipereq) : st :=
  let s := set_next (set_req s t r) t None in
  let s := match waittail (ends s sd) with
           | Some w => set_next s w (Some t)
           | None => set_waittail s sd (Some t)
           end in
  match waithead (ends s sd) with None => set_waithead s sd (Some t) | Some _ => s end.

Inductive answer := Done (rc : Z) | Blocked.

(** ** Reading *)

Fixpoint read_loop (fuel : nat) (s : st) (p remain count : Z) : outcome (st * Z * Z * Z) :=
  match waithead (ends s Wr) with
  | Some req =>
      if 0 <? remain then
        match fuel with
        | O => Diverge
        | S fuel =>
            let r := reqs s req in
            let bytes := if remain <? size r then remain else size r in
            let s := set_mem s (memcpy (mem s) p (buffer r) bytes) in
            let s := set_req s req (PipeReq (u32 (buffer r + bytes)) (u32 (size r - bytes)) (rc r)) in
            s <~ (if size (reqs s req) =? 0 then mark_req_ready (set_rc (pop_request s Wr req) req 0) req else Ret s);
            read_loop fuel s (u32 (p + bytes)) (u32 (remain - bytes)) (u32 (count + bytes))
        end
      else Ret (s, p, remain, count)
  | None => Ret (s, p, remain, count)
  end.

Definition pipefs_read (fuel : nat) (s : st) (self : nat) (data n : Z) : outcome (answer * st) :=
  if n =? 0 then Ret (Done 0, s)
  else if negb (peer (ends s Rd)) then Ret (Done 0, s)
  else
    '(s, p, remain, count) <~ read_loop fuel s data n 0;
    let s := match waithead (ends s Wr) with None => clear_io_event s Rd IOEVT_READ | Some _ => s end in
    if count =? 0 then
      s <~ set_io_event s Wr IOEVT_WRITE;
      if nonblock (ends s Rd) then Ret (Done (- EAGAIN), s)
      else Ret (Blocked, add_request s Rd self (PipeReq p remain (- EINTR)))
    else Ret (Done (s32 count), s).

(** Behind [enter_alertable_wait], which has returned [r]. *)
Definition finish_wait (fuel : nat) (s : st) (sd : side) (self : nat) (r : Z) : outcome st :=
  if r <? 0 then s <~ cancel_request fuel s sd self; Ret (set_rc s self r) else Ret s.

Definition finish_read (fuel : nat) (s : st) (self : nat) (r : Z) : outcome (Z * st) :=
  s <~ finish_wait fuel s Rd self r;
  Ret (rc (reqs s self), s).

(** ** Writing *)

Fixpoint write_loop (fuel : nat) (s : st) (p remain : Z) : outcome (st * Z * Z) :=
  match waithead (ends s Rd) with
  | Some req =>
      if 0 <? remain then
        match fuel with
        | O => Diverge
        | S fuel =>
            let r := reqs s req in
            let bytes := if remain <? size r then remain else size r in
            let s := set_mem s (memcpy (mem s) (buffer r) p bytes) in
            let s := set_rc s req (s32 bytes) in
            s <~ mark_req_ready (pop_request s Rd req) req;
            write_loop fuel s (u32 (p + bytes)) (u32 (remain - bytes))
        end
      else Ret (s, p, remain)
  | None => Ret (s, p, remain)
  end.

Definition pipefs_write (fuel : nat) (s : st) (self : nat) (data n : Z) : outcome (answer * st) :=
  if n =? 0 then Ret (Done 0, s)
  else if negb (peer (ends s Wr)) then Ret (Done (- EPIPE), s)
  else
    '(s, p, remain) <~ write_loop fuel s data n;
    let s := match waithead (ends s Rd) with None => clear_io_event s Wr IOEVT_WRITE | Some _ => s end in
    if 0 <? remain then
      s <~ set_io_event s Rd IOEVT_READ;
      if nonblock (ends s Wr) then Ret (Done (s32 (n - remain)), s)
      else Ret (Blocked, add_request s Wr self (PipeReq p remain (- EINTR)))
    else Ret (Done (s32 n), s).

(** [n] is the size of the write. *)
Definition finish_write (fuel : nat) (s : st) (self : nat) (n r : Z) : outcome (Z * st) :=
  s <~ finish_wait fuel s Wr self r;
  Ret (if rc (reqs s self) <? 0 then rc (reqs s self) else s32 n, s).

(** ** Opening and closing *)

(** The two ends that [pipe] makes when its allocations succeed; [flags] has O_NONBLOCK if
    the files got it later (FIONBIO, fcntl). *)
Definition pipe (k : K) (m : Z -> Z) (nonblock : side -> bool) : st :=
  St k m (fun sd => PipeEnd None None true true (nonblock sd)) (fun _ => PipeReq 0 0 0) (fun _ => None).

Definition pipefs_close (fuel : nat) (s : st) (sd : side) : outcome st :=
  s <~ set_io_event s sd IOEVT_CLOSE;
  s <~ release_all_waiters fuel s sd (- EINTR);
  s <~ (if peer (ends s sd) then
          s <~ (match sd with
                | Wr => s <~ set_io_event s Rd IOEVT_READ; release_all_waiters fuel s Rd 0
                | Rd => s <~ set_io_event s Wr IOEVT_WRITE; release_all_waiters fuel s Wr (- EPIPE)
                end);
          Ret (set_peer (set_peer s (other sd) false) sd false)
        else Ret s);
  let e := ends s sd in Ret (set_end s sd (PipeEnd (waithead e) (waittail e) (peer e) false (nonblock e))).
End Pipe.
Arguments st K : clear implicits.

(** ** Operations on a pipe with one thread at each end

    [queues s sd a b]: [a] is the thread that waits at the end [sd], [b] the one at the
    other end. *)

Section Spec.
Context {K : Type} `{!PipeServices K}.
Implicit Types (s : st K) (sd : side).

Record queues s sd (a b : option nat) : Prop := {
  q_this : waithead (ends s sd) = a /\ waittail (ends s sd) = a;
  q_other : waithead (ends s (other sd)) = b /\ waittail (ends s (other sd)) = b;
  q_next : forall t, a = Some t \/ b = Some t -> next s t = None;
  q_kern : kinv (kern s);
  q_parked : forall t, a = Some t \/ b = Some t -> parked (kern s) t;
  q_apart : forall t, a = Some t -> b <> Some t;
}.

Record same_flags s s' : Prop := {
  f_peer : forall sd, peer (ends s' sd) = peer (ends s sd);
  f_alive : forall sd, alive (ends s' sd) = alive (ends s sd);
  f_nonblock : forall sd, nonblock (ends s' sd) = nonblock (ends s sd);
}.

Definition same_reqs s s' (t : nat) : Prop := forall u, u <> t -> reqs s' u = reqs s u.

Lemma same_flags_refl s : same_flags s s.
Proof. by constructor. Qed.

Lemma same_flags_trans s1 s2 s3 : same_flags s1 s2 -> same_flags s2 s3 -> same_flags s1 s3.
Proof. intros [] []. constructor; congruence. Qed.

Lemma other_other sd : other (other sd) = sd.
Proof. by destruct sd. Qed.

Lemma other_ne sd : other sd <> sd.
Proof. by destruct sd. Qed.

Lemma queues_sym s sd a b : queues s sd a b -> queues s (other sd) b a.
Proof.
  intros []. constructor; rewrite ?other_other; try done; [naive_solver..|].
  intros t -> Ha. by eapply q_apart0.
Qed.

(** The same queues after a change elsewhere. *)
Lemma queues_ext s s' sd a b : queues s sd a b -> ends s' = ends s -> next s' = next s -> kern s' = kern s -> queues s' sd a b.
Proof. intros [] He Hn Hk. constructor; rewrite ?He, ?Hn, ?Hk; done. Qed.

Lemma ends_set_end s sd e sd' : ends (set_end s sd e) sd' = if decide (sd' = sd) then e else ends s sd'.
Proof. simpl. case_decide as Hd; [subst; apply fn_lookup_insert|by apply fn_lookup_insert_ne]. Qed.

Ltac ends_tac := repeat (rewrite ends_set_end || case_decide); try done; try (subst; by destruct (other_ne _)).

(** Taking the only waiter off the list and marking it ready. *)
Lemma wake_spec s sd t b : queues s sd (Some t) b ->
  exists s', mark_req_ready (pop_request s sd t) t = Ret s' /\ queues s' sd None b
    /\ mem s' = mem s /\ same_flags s s' /\ reqs s' = reqs s.
Proof.
  intros [Ht Ho Hn Hk Hp Ha]. unfold mark_req_ready, pop_request. cbv zeta. rewrite (Hn t) by auto.
  destruct (mark_ready_ok (kern s) t Hk (Hp t (or_introl eq_refl))) as (k & Hm & Hk' & Hp').
  match goal with |- context [mark_ready ?x t] => change x with (kern s) end. rewrite Hm. cbn [obind].
  eexists. split; [reflexivity|].
  assert (Hends : forall sd', ends (set_kern (set_waittail (set_waithead s sd None) sd None) k) sd' =
    if decide (sd' = sd) then PipeEnd None None (peer (ends s sd)) (alive (ends s sd)) (nonblock (ends s sd)) else ends s sd').
  { intros sd'. change (ends (set_waittail (set_waithead s sd None) sd None) sd' = if decide (sd' = sd)
      then PipeEnd None None (peer (ends s sd)) (alive (ends s sd)) (nonblock (ends s sd)) else ends s sd').
    unfold set_waittail, set_waithead. cbv zeta. ends_tac. }
  split_and!; try done.
  - constructor; rewrite ?Hends; [by rewrite decide_True|rewrite decide_False by apply other_ne; done|..]; try done.
    + intros u [|Hu]; [done|]. by apply Hn; right.
    + intros u [|Hu]; [done|]. apply Hp'; [|by apply Hp; right]. intros ->. by eapply Ha.
  - constructor; intros sd'; rewrite Hends; case_decide; by subst.
Qed.

(** Leaving a request at an end where no thread waits. *)
Lemma add_request_spec s sd t r b k : queues s sd None b -> b <> Some t -> kinv k -> parked k t ->
  (forall u, b = Some u -> parked k u) ->
  let s' := set_kern (add_request s sd t r) k in
  queues s' sd (Some t) b /\ mem s' = mem s /\ same_flags s s' /\ reqs s' t = r /\ same_reqs s s' t.
Proof.
  intros [[Hh Ht] Ho Hn Hk Hp Ha] Hb Hk' Hpt Hpu s'. subst s'. unfold add_request. cbv zeta.
  set (s1 := set_next _ _ _). change (waittail (ends s1 sd)) with (waittail (ends s sd)). rewrite Ht.
  assert (He1 : ends s1 = ends s) by done. set (s2 := set_waittail s1 sd (Some t)).
  assert (Hwh : waithead (ends s2 sd) = None).
  { unfold s2, set_waittail. ends_tac. }
  rewrite Hwh.
  assert (Hends : forall sd', ends (set_kern (set_waithead s2 sd (Some t)) k) sd' =
    if decide (sd' = sd) then PipeEnd (Some t) (Some t) (peer (ends s sd)) (alive (ends s sd)) (nonblock (ends s sd)) else ends s sd').
  { intros sd'. change (ends (set_waithead s2 sd (Some t)) sd' = if decide (sd' = sd)
      then PipeEnd (Some t) (Some t) (peer (ends s sd)) (alive (ends s sd)) (nonblock (ends s sd)) else ends s sd').
    unfold s2, set_waittail, set_waithead. cbv zeta. ends_tac. }
  split_and!; try done.
  - constructor; rewrite ?Hends; [by rewrite decide_True|rewrite decide_False by apply other_ne; done|..].
    + intros u [[= ->]|Hu]; simpl; [by rewrite fn_lookup_insert|].
      rewrite fn_lookup_insert_ne by congruence. by apply Hn; right.
    + done.
    + intros u [[= ->]|Hu]; [done|by apply Hpu].
    + congruence.
  - constructor; intros sd'; rewrite Hends; case_decide; by subst.
  - simpl. by rewrite fn_lookup_insert.
  - intros u Hu. simpl. by rewrite fn_lookup_insert_ne.
Qed.

(** Events change only the kernel. *)
Record only_kern s s' : Prop := {
  ok_state : exists k, s' = set_kern s k;
  ok_kinv : kinv (kern s) -> kinv (kern s');
  ok_parked : forall t, kinv (kern s) -> parked (kern s) t -> parked (kern s') t;
}.

Lemma only_kern_refl s : only_kern s s.
Proof. constructor; [by exists (kern s); destruct s|auto..]. Qed.

Lemma only_kern_trans s1 s2 s3 : only_kern s1 s2 -> only_kern s2 s3 -> only_kern s1 s3.
Proof. intros [[k1 ->] ? ?] [[k2 ->] ? ?]. constructor; [by exists k2|auto..]. Qed.

Lemma queues_only_kern s s' sd a b : only_kern s s' -> queues s sd a b -> queues s' sd a b.
Proof. intros [[k ->] Hk Hp] []. constructor; simpl in *; auto. Qed.

Lemma only_kern_same s s' : only_kern s s' -> mem s' = mem s /\ reqs s' = reqs s /\ ends s' = ends s /\ same_flags s s'.
Proof. intros [[k ->] _ _]. by split_and!. Qed.

Lemma set_io_event_spec s sd ev : kinv (kern s) -> exists s', set_io_event s sd ev = Ret s' /\ only_kern s s'.
Proof.
  intros Hk. unfold set_io_event. destruct (set_event_ok (kern s) sd ev Hk) as (k & -> & Hk' & Hp).
  exists (set_kern s k). split; [done|]. constructor; [by exists k|auto..].
Qed.

Lemma clear_io_event_spec s sd ev : only_kern s (clear_io_event s sd ev).
Proof. constructor; [by eexists|intros Hk; by apply clear_event_ok|intros t Hk; by apply clear_event_ok]. Qed.

Lemma set_rc_queues s t x sd a b : queues s sd a b -> queues (set_rc s t x) sd a b.
Proof. intros Hq. by eapply queues_ext. Qed.

(** A memory area inside the address space. *)
Definition area (a n : Z) : Prop := 0 <= a /\ 0 < n < 2 ^ 31 /\ a + n < 2 ^ 32.

Lemma pop_set_rc s sd t x : next s t = None -> set_rc (pop_request s sd t) t x = pop_request (set_rc s t x) sd t.
Proof. intros Hn. unfold pop_request. cbv zeta. change (next (set_rc s t x) t) with (next s t). by rewrite Hn. Qed.

Lemma reqs_set_rc s t x u :
  reqs (set_rc s t x) u = if decide (u = t) then PipeReq (buffer (reqs s t)) (size (reqs s t)) x else reqs s u.
Proof. simpl. case_decide as Hd; [subst; apply fn_lookup_insert|by apply fn_lookup_insert_ne]. Qed.

Lemma min_if a b : (if a <? b then a else b) = Z.min a b.
Proof. destruct (Z.ltb_spec a b); lia. Qed.

Lemma read_loop_serve s t n data f : queues s Wr (Some t) None -> area data n ->
  let r := reqs s t in let m := Z.min n (size r) in area (buffer r) (size r) ->
  exists s', read_loop (S (S f)) s data n 0 = Ret (s', data + m, n - m, m)
    /\ mem s' = memcpy (mem s) data (buffer r) m /\ same_flags s s' /\ same_reqs s s' t
    /\ (if size r <=? n then queues s' Wr None None /\ rc (reqs s' t) = 0
        else queues s' Wr (Some t) None /\ reqs s' t = PipeReq (buffer r + m) (size r - m) (rc r)).
Proof.
  intros Hq (Hd0 & Hn & Hd1) r m (Hb0 & Hs & Hb1). cbn [read_loop].
  rewrite (proj1 (q_this _ _ _ _ Hq)), (proj2 (Z.ltb_lt 0 n)) by lia. fold r. cbv zeta. rewrite min_if. fold m.
  u32_norm. rewrite Z.add_0_l. set (s1 := set_req _ _ _).
  assert (Hr1 : reqs s1 t = PipeReq (buffer r + m) (size r - m) (rc r)) by (unfold s1; simpl; apply fn_lookup_insert).
  assert (Hq1 : queues s1 Wr (Some t) None) by (by eapply queues_ext).
  assert (Hs1 : same_reqs s s1 t) by (intros u Hu; unfold s1; simpl; by apply fn_lookup_insert_ne).
  rewrite Hr1. cbn [size]. destruct (Z.leb_spec (size r) n) as [Hle|Hgt].
  - rewrite (proj2 (Z.eqb_eq (size r - m) 0)) by lia. rewrite pop_set_rc by (apply (q_next _ _ _ _ Hq1); auto).
    destruct (wake_spec _ Wr t None (set_rc_queues _ t 0 _ _ _ Hq1)) as (s2 & -> & Hq2 & Hm2 & Hf2 & Hr2).
    cbn [obind]. rewrite (proj1 (q_this _ _ _ _ Hq2)). exists s2. split; [done|]. split; [by rewrite Hm2|].
    split; [eapply same_flags_trans; [|exact Hf2]; by constructor|].
    split; [intros u Hu; rewrite Hr2, reqs_set_rc, decide_False by done; by apply Hs1|].
    split; [done|]. by rewrite Hr2, reqs_set_rc, decide_True.
  - rewrite (proj2 (Z.eqb_neq (size r - m) 0)) by lia. cbn [obind]. rewrite (proj1 (q_this _ _ _ _ Hq1)).
    replace (n - m) with 0 by lia. rewrite Z.ltb_irrefl. exists s1. by split_and!.
Qed.

Lemma write_loop_serve s t n data f : queues s Rd (Some t) None -> area data n ->
  let r := reqs s t in let m := Z.min n (size r) in area (buffer r) (size r) ->
  exists s', write_loop (S f) s data n = Ret (s', data + m, n - m)
    /\ mem s' = memcpy (mem s) (buffer r) data m /\ same_flags s s' /\ same_reqs s s' t
    /\ queues s' Rd None None /\ rc (reqs s' t) = m.
Proof.
  intros Hq (Hd0 & Hn & Hd1) r m (Hb0 & Hs & Hb1). cbn [write_loop].
  rewrite (proj1 (q_this _ _ _ _ Hq)), (proj2 (Z.ltb_lt 0 n)) by lia. fold r. cbv zeta. rewrite min_if. fold m.
  u32_norm. rewrite (s32_small m) by (unfold is_s32; lia). set (s1 := set_mem _ _).
  assert (Hq1 : queues s1 Rd (Some t) None) by (by eapply queues_ext).
  destruct (wake_spec _ Rd t None (set_rc_queues _ t m _ _ _ Hq1)) as (s2 & -> & Hq2 & Hm2 & Hf2 & Hr2). cbn [obind].
  assert (Hend : write_loop f s2 (data + m) (n - m) = Ret (s2, data + m, n - m))
    by (destruct f; cbn [write_loop]; by rewrite (proj1 (q_this _ _ _ _ Hq2))).
  rewrite Hend. exists s2. split; [done|]. split; [by rewrite Hm2|].
  split; [eapply same_flags_trans; [|exact Hf2]; by constructor|].
  split; [intros u Hu; by rewrite Hr2, reqs_set_rc, decide_False by done|].
  split; [done|]. by rewrite Hr2, reqs_set_rc, decide_True.
Qed.

(** ** The operations *)

(** The answer of a read where a writer waits, and where nobody does. *)
Lemma read_served s t n data f self : queues s Wr (Some t) None -> area data n -> peer (ends s Rd) = true ->
  let r := reqs s t in let m := Z.min n (size r) in area (buffer r) (size r) ->
  exists s', pipefs_read (S (S f)) s self data n = Ret (Done m, s')
    /\ mem s' = memcpy (mem s) data (buffer r) m /\ same_flags s s' /\ same_reqs s s' t
    /\ (if size r <=? n then queues s' Wr None None /\ rc (reqs s' t) = 0
        else queues s' Wr (Some t) None /\ reqs s' t = PipeReq (buffer r + m) (size r - m) (rc r)).
Proof.
  intros Hq Ha Hp r m Hb. unfold pipefs_read. destruct Ha as (Ha0 & Ha & Ha1). destruct Hb as (Hb0 & Hb & Hb1).
  rewrite (proj2 (Z.eqb_neq n 0)), Hp by lia. cbn [negb].
  destruct (read_loop_serve s t n data f Hq) as (s1 & -> & Hm1 & Hf1 & Hr1 & Hq1); [done..|]. cbn [obind].
  fold r m. fold r m in Hm1, Hq1. rewrite (proj2 (Z.eqb_neq m 0)), (s32_small m) by (unfold is_s32; lia).
  set (s2 := match waithead (ends s1 Wr) with None => _ | Some _ => s1 end).
  assert (Ho : only_kern s1 s2) by (unfold s2; destruct (waithead _); [apply only_kern_refl|apply clear_io_event_spec]).
  destruct (only_kern_same _ _ Ho) as (Hm & Hrq & _ & Hf). exists s2.
  split; [done|]. split; [by rewrite Hm|]. split; [by eapply same_flags_trans|].
  split; [intros u Hu; rewrite Hrq; by apply Hr1|]. rewrite Hrq.
  destruct (size r <=? n); destruct Hq1; split; try done; by eapply queues_only_kern.
Qed.

Lemma read_waits s n data f self : queues s Wr None None -> area data n -> peer (ends s Rd) = true ->
  exists s1, only_kern s s1 /\ pipefs_read f s self data n =
    Ret (if nonblock (ends s Rd) then (Done (- EAGAIN), s1)
         else (Blocked, add_request s1 Rd self (PipeReq data n (- EINTR)))).
Proof.
  intros Hq (Ha0 & Ha & Ha1) Hp. unfold pipefs_read. rewrite (proj2 (Z.eqb_neq n 0)), Hp by lia. cbn [negb].
  assert (Hl : read_loop f s data n 0 = Ret (s, data, n, 0))
    by (destruct f; cbn [read_loop]; by rewrite (proj1 (q_this _ _ _ _ Hq))).
  rewrite Hl. cbn [obind]. rewrite (proj1 (q_this _ _ _ _ Hq)), Z.eqb_refl.
  set (s1 := clear_io_event s Rd IOEVT_READ). assert (H1 : only_kern s s1) by apply clear_io_event_spec.
  destruct (set_io_event_spec s1 Wr IOEVT_WRITE) as (s2 & -> & H2); [apply H1, (q_kern _ _ _ _ Hq)|]. cbn [obind].
  pose proof (only_kern_trans _ _ _ H1 H2) as H12. exists s2. split; [done|].
  destruct (only_kern_same _ _ H12) as (_ & _ & He & _). rewrite He. by destruct (nonblock _).
Qed.

Lemma write_served s t n data f self : queues s Rd (Some t) None -> area data n -> peer (ends s Wr) = true ->
  let r := reqs s t in let m := Z.min n (size r) in area (buffer r) (size r) ->
  exists s1, pipefs_write (S f) s self data n =
      Ret (if n <=? size r then (Done n, s1)
           else if nonblock (ends s Wr) then (Done m, s1)
           else (Blocked, add_request s1 Wr self (PipeReq (data + m) (n - m) (- EINTR))))
    /\ mem s1 = memcpy (mem s) (buffer r) data m /\ same_flags s s1 /\ same_reqs s s1 t
    /\ queues s1 Rd None None /\ rc (reqs s1 t) = m.
Proof.
  intros Hq Ha Hp r m Hb. unfold pipefs_write. destruct Ha as (Ha0 & Ha & Ha1). destruct Hb as (Hb0 & Hb & Hb1).
  rewrite (proj2 (Z.eqb_neq n 0)), Hp by lia. cbn [negb].
  destruct (write_loop_serve s t n data f Hq) as (s1 & -> & Hm1 & Hf1 & Hr1 & Hq1 & Hrc1); [done..|]. cbn [obind].
  fold r m in Hm1, Hrc1 |- *. rewrite (proj1 (q_this _ _ _ _ Hq1)).
  set (s2 := clear_io_event s1 Wr IOEVT_WRITE). assert (H2 : only_kern s1 s2) by apply clear_io_event_spec.
  assert (Hfin : forall s', only_kern s1 s' -> mem s' = memcpy (mem s) (buffer r) data m /\ same_flags s s'
    /\ same_reqs s s' t /\ queues s' Rd None None /\ rc (reqs s' t) = m).
  { intros s' Ho. destruct (only_kern_same _ _ Ho) as (-> & Hrq & _ & Hf). split_and!; try done.
    - by eapply same_flags_trans.
    - intros u Hu. rewrite Hrq. by apply Hr1.
    - by eapply queues_only_kern.
    - by rewrite Hrq. }
  destruct (Z.leb_spec n (size r)) as [Hle|Hgt].
  - rewrite (proj2 (Z.ltb_ge 0 (n - m))), (s32_small n) by (unfold is_s32; lia). exists s2. split; [done|by apply Hfin].
  - rewrite (proj2 (Z.ltb_lt 0 (n - m))) by lia.
    destruct (set_io_event_spec s2 Rd IOEVT_READ) as (s3 & -> & H3); [apply H2, (q_kern _ _ _ _ Hq1)|]. cbn [obind].
    pose proof (only_kern_trans _ _ _ H2 H3) as H23. exists s3. split; [|by apply Hfin].
    destruct (Hfin s3 H23) as (_ & Hf & _). rewrite (f_nonblock _ _ Hf Wr).
    replace (n - (n - m)) with m by lia. rewrite (s32_small m) by (unfold is_s32; lia). by destruct (nonblock _).
Qed.

Lemma write_waits s n data f self : queues s Rd None None -> area data n -> peer (ends s Wr) = true ->
  exists s1, only_kern s s1 /\ pipefs_write f s self data n =
    Ret (if nonblock (ends s Wr) then (Done 0, s1)
         else (Blocked, add_request s1 Wr self (PipeReq data n (- EINTR)))).
Proof.
  intros Hq (Ha0 & Ha & Ha1) Hp. unfold pipefs_write. rewrite (proj2 (Z.eqb_neq n 0)), Hp by lia. cbn [negb].
  assert (Hl : write_loop f s data n = Ret (s, data, n))
    by (destruct f; cbn [write_loop]; by rewrite (proj1 (q_this _ _ _ _ Hq))).
  rewrite Hl. cbn [obind]. rewrite (proj1 (q_this _ _ _ _ Hq)), (proj2 (Z.ltb_lt 0 n)) by lia.
  set (s1 := clear_io_event s Wr IOEVT_WRITE). assert (H1 : only_kern s s1) by apply clear_io_event_spec.
  destruct (set_io_event_spec s1 Rd IOEVT_READ) as (s2 & -> & H2); [apply H1, (q_kern _ _ _ _ Hq)|]. cbn [obind].
  pose proof (only_kern_trans _ _ _ H1 H2) as H12. exists s2. split; [done|].
  destruct (only_kern_same _ _ H12) as (_ & _ & He & _). rewrite He, Z.sub_diag. by destruct (nonblock _).
Qed.

(** An interrupted thread takes its request back. *)
Lemma cancel_spec s sd t b f : queues s sd (Some t) b -> alive (ends s sd) = true ->
  exists s', cancel_request f s sd t = Ret s' /\ queues s' sd None b /\ mem s' = mem s /\ same_flags s s' /\ reqs s' = reqs s.
Proof.
  intros [[Hh Ht] Ho Hn Hk Hp Ha] Hal. unfold cancel_request. rewrite Hal, Hh, Nat.eqb_refl. cbn [negb]. cbv zeta.
  rewrite (Hn t) by auto.
  assert (Hw : waittail (ends (set_waithead s sd None) sd) = Some t) by (unfold set_waithead; by rewrite ends_set_end, decide_True).
  rewrite Hw, bool_decide_eq_true_2 by done. eexists. split; [reflexivity|].
  assert (Hends : forall sd', ends (set_waittail (set_waithead s sd None) sd None) sd' =
    if decide (sd' = sd) then PipeEnd None None (peer (ends s sd)) (alive (ends s sd)) (nonblock (ends s sd)) else ends s sd').
  { intros sd'. unfold set_waittail, set_waithead. cbv zeta. ends_tac. }
  split_and!; try done.
  - constructor; rewrite ?Hends; [by rewrite decide_True|rewrite decide_False by apply other_ne; done|..]; try done.
    + intros u [|Hu]; [done|]. by apply Hn; right.
    + intros u [|Hu]; [done|]. by apply Hp; right.
  - constructor; intros sd'; rewrite Hends; case_decide; by subst.
Qed.

Lemma finish_interrupted s sd t b f : queues s sd (Some t) b -> alive (ends s sd) = true ->
  exists s', finish_wait f s sd t (- EINTR) = Ret s' /\ queues s' sd None b /\ mem s' = mem s /\ same_flags s s'
    /\ same_reqs s s' t /\ rc (reqs s' t) = - EINTR.
Proof.
  intros Hq Ha. unfold finish_wait. cbn [Z.ltb]. destruct (cancel_spec s sd t b f Hq Ha) as (s1 & Hc & Hq1 & Hm & Hf & Hr).
  change (- EINTR <? 0) with true. rewrite Hc. cbn [obind]. exists (set_rc s1 t (- EINTR)).
  split; [done|]. split; [by apply set_rc_queues|]. split; [done|]. split; [by destruct Hf; constructor|].
  split; [|by rewrite reqs_set_rc, decide_True]. intros u Hu. by rewrite reqs_set_rc, decide_False, Hr.
Qed.

(** All waiters of an end get the answer [x]. *)
Definition answered s s' (a : option nat) (x : Z) : Prop := forall u,
  reqs s' u = if decide (a = Some u) then PipeReq (buffer (reqs s u)) (size (reqs s u)) x else reqs s u.

Lemma release_all_spec s sd a b x f : queues s sd a b ->
  exists s', release_all_waiters (S f) s sd x = Ret s' /\ queues s' sd None b /\ mem s' = mem s /\ same_flags s s'
    /\ answered s s' a x.
Proof.
  intros Hq. unfold release_all_waiters. rewrite (proj1 (q_this _ _ _ _ Hq)).
  assert (Hl : exists s1, release_loop (S f) s a x = Ret s1 /\ ends s1 = ends s /\ mem s1 = mem s /\ next s1 = next s
    /\ kinv (kern s1) /\ (forall u, b = Some u -> parked (kern s1) u) /\ answered s s1 a x).
  { destruct Hq as [_ _ Hn Hk Hp Ha]. destruct a as [t|]; cbn [release_loop].
    - unfold mark_req_ready. destruct (mark_ready_ok (kern s) t Hk (Hp t (or_introl eq_refl))) as (k & Hm & Hk' & Hp').
      change (kern (set_rc s t x)) with (kern s). rewrite Hm. cbn [obind]. cbv zeta.
      exists (set_kern (set_rc s t x) k). rewrite (Hn t) by auto. split; [by destruct f|]. split_and!; try done.
      + intros u Hu. apply Hp'; [|apply Hp; by right]. intros ->. by eapply Ha.
      + intros u. change (reqs (set_kern (set_rc s t x) k) u) with (reqs (set_rc s t x) u). rewrite reqs_set_rc.
        by repeat case_decide; try congruence; simplify_eq.
    - exists s. split_and!; try done. intros u Hu. by apply Hp; right. }
  destruct Hl as (s1 & -> & He & Hm & Hnx & Hk & Hp & Ha). cbn [obind]. eexists. split; [reflexivity|].
  assert (Hends : forall sd', ends (set_waittail (set_waithead s1 sd None) sd None) sd' =
    if decide (sd' = sd) then PipeEnd None None (peer (ends s sd)) (alive (ends s sd)) (nonblock (ends s sd)) else ends s sd').
  { intros sd'. rewrite <- He. unfold set_waittail, set_waithead. cbv zeta. ends_tac. }
  destruct Hq as [_ Ho Hn _ _ _]. split_and!; try done.
  - constructor; rewrite ?Hends; [by rewrite decide_True|rewrite decide_False by apply other_ne; done|..]; try done.
    + intros u [|Hu]; [done|]. simpl. rewrite Hnx. by apply Hn; right.
    + intros u [|Hu]; [done|]. by apply Hp.
  - constructor; intros sd'; rewrite Hends; case_decide; by subst.
Qed.

Lemma notify_spec s sd ev a b x f : queues s sd a b ->
  exists s', (s <~ set_io_event s sd ev; release_all_waiters (S f) s sd x) = Ret s' /\ queues s' sd None b
    /\ mem s' = mem s /\ same_flags s s' /\ answered s s' a x.
Proof.
  intros Hq. destruct (set_io_event_spec s sd ev (q_kern _ _ _ _ Hq)) as (s1 & -> & H1). cbn [obind].
  destruct (only_kern_same _ _ H1) as (Hm1 & Hr1 & _ & Hf1).
  destruct (release_all_spec s1 sd a b x f (queues_only_kern _ _ _ _ _ H1 Hq)) as (s2 & -> & Hq2 & Hm2 & Hf2 & Ha2).
  exists s2. split_and!; [done|done|by rewrite Hm2|by eapply same_flags_trans|]. intros u. by rewrite Ha2, Hr1.
Qed.

(** The answer the other end gets when an end is closed. *)
Definition close_answer (sd : side) : Z := match sd with Rd => - EPIPE | Wr => 0 end.

Lemma close_spec s sd b f : queues s sd None b -> (b <> None -> peer (ends s sd) = true) ->
  exists s', pipefs_close (S f) s sd = Ret s' /\ queues s' sd None None /\ mem s' = mem s
    /\ answered s s' b (close_answer sd)
    /\ (forall sd', peer (ends s' sd') = if peer (ends s sd) then false else peer (ends s sd'))
    /\ (forall sd', alive (ends s' sd') = if decide (sd' = sd) then false else alive (ends s sd'))
    /\ (forall sd', nonblock (ends s' sd') = nonblock (ends s sd')).
Proof.
  intros Hq Hb. unfold pipefs_close.
  destruct (set_io_event_spec s sd IOEVT_CLOSE (q_kern _ _ _ _ Hq)) as (s1 & -> & H1). cbn [obind].
  destruct (only_kern_same _ _ H1) as (Hm1 & Hr1 & He1 & _). pose proof (queues_only_kern _ _ _ _ _ H1 Hq) as Hq1.
  destruct (release_all_spec s1 sd None b (- EINTR) f Hq1) as (s2 & -> & Hq2 & Hm2 & Hf2 & Ha2). cbn [obind].
  rewrite (f_peer _ _ Hf2 sd), He1. set (go := if peer (ends s sd) then _ else _).
  assert (Hgo : exists s3, go = Ret s3 /\ queues s3 sd None None /\ mem s3 = mem s2 /\ answered s2 s3 b (close_answer sd)
    /\ (forall sd', peer (ends s3 sd') = if peer (ends s sd) then false else peer (ends s2 sd'))
    /\ (forall sd', alive (ends s3 sd') = alive (ends s2 sd')) /\ (forall sd', nonblock (ends s3 sd') = nonblock (ends s2 sd'))).
  { unfold go. destruct (peer (ends s sd)) eqn:Hpeer; cycle 1.
    { exists s2. destruct b as [u|]; [by discriminate Hb|]. by split_and!. }
    assert (Hrel : exists s3, (match sd with
        | Wr => s <~ set_io_event s2 Rd IOEVT_READ; release_all_waiters (S f) s Rd 0
        | Rd => s <~ set_io_event s2 Wr IOEVT_WRITE; release_all_waiters (S f) s Wr (- EPIPE)
        end) = Ret s3 /\ queues s3 (other sd) None None /\ mem s3 = mem s2 /\ same_flags s2 s3
        /\ answered s2 s3 b (close_answer sd)).
    { pose proof (queues_sym _ _ _ _ Hq2) as Hq2'. destruct sd; by apply notify_spec. }
    destruct Hrel as (s3 & -> & Hq3 & Hm3 & Hf3 & Ha3). cbn [obind]. eexists. split; [reflexivity|].
    assert (Hends : forall sd', ends (set_peer (set_peer s3 (other sd) false) sd false) sd' =
      PipeEnd (waithead (ends s3 sd')) (waittail (ends s3 sd')) false (alive (ends s3 sd')) (nonblock (ends s3 sd'))).
    { intros sd'. unfold set_peer. cbv zeta. rewrite !ends_set_end. by destruct sd, sd'. }
    apply queues_sym in Hq3. rewrite other_other in Hq3. split_and!; try done.
    - destruct Hq3. constructor; rewrite ?Hends; done.
    - intros sd'. by rewrite Hends.
    - intros sd'. rewrite Hends. simpl. apply (f_alive _ _ Hf3).
    - intros sd'. rewrite Hends. simpl. apply (f_nonblock _ _ Hf3). }
  destruct Hgo as (s3 & -> & Hq3 & Hm3 & Ha3 & Hp3 & Hal3 & Hnb3). cbn [obind]. cbv zeta. eexists. split; [reflexivity|].
  assert (Hsame : forall sd', peer (ends s2 sd') = peer (ends s sd') /\ alive (ends s2 sd') = alive (ends s sd')
    /\ nonblock (ends s2 sd') = nonblock (ends s sd')) by (intros; by rewrite (f_peer _ _ Hf2), (f_alive _ _ Hf2), (f_nonblock _ _ Hf2), He1).
  split_and!.
  - destruct Hq3. constructor; rewrite ?ends_set_end; [by rewrite decide_True|rewrite decide_False by apply other_ne; done|done..].
  - simpl. congruence.
  - intros u. simpl. assert (Hu : reqs s2 u = reqs s u) by (rewrite Ha2, Hr1; by rewrite decide_False by done).
    by rewrite Ha3, Hu.
  - intros sd'. rewrite ends_set_end. destruct (Hsame sd') as (Hs' & _). rewrite <- Hs', <- Hp3. by case_decide; subst.
  - intros sd'. rewrite ends_set_end. case_decide; subst; simpl; [done|]. rewrite Hal3. apply Hsame.
  - intros sd'. rewrite ends_set_end. destruct (Hsame sd') as (_ & _ & Hs'). rewrite <- Hs', <- Hnb3. by case_decide; subst.
Qed.

End Spec.

(** ** Memory areas *)

Definition bytes (m : Z -> Z) (a n : Z) : list Z := (fun i => m (a + Z.of_nat i)) <$> seq 0 (Z.to_nat n).

Definition disjoint_areas (a n b k : Z) : Prop := a + n <= b \/ b + k <= a.

Lemma bytes_ext m m' a n : (forall x, a <= x < a + n -> m' x = m x) -> bytes m' a n = bytes m a n.
Proof.
  intros Hx. unfold bytes. apply list_fmap_ext. intros i j Hj. apply lookup_seq in Hj as [-> Hi]. apply Hx. lia.
Qed.

Lemma bytes_app m a j k : 0 <= j -> 0 <= k -> bytes m a (j + k) = bytes m a j ++ bytes m (a + j) k.
Proof.
  intros Hj Hk. unfold bytes. rewrite Z2Nat.inj_add by done. rewrite seq_app, fmap_app. f_equal.
  rewrite <- (Nat.add_0_r (0 + Z.to_nat j)), <- fmap_add_seq, <- list_fmap_compose. apply list_fmap_ext. intros i x _. simpl. f_equal. lia.
Qed.

Lemma bytes_none m a n : n <= 0 -> bytes m a n = [].
Proof. intros Hn. unfold bytes. by replace (Z.to_nat n) with 0%nat by lia. Qed.

Lemma bytes_memcpy m d s n : bytes (memcpy m d s n) d n = bytes m s n.
Proof.
  unfold bytes. apply list_fmap_ext. intros i x Hx. apply lookup_seq in Hx as [-> Hi]. unfold memcpy.
  rewrite (proj2 (Z.leb_le _ _)), (proj2 (Z.ltb_lt _ _)) by lia. simpl. f_equal. lia.
Qed.

Lemma bytes_memcpy_other m d s n a k : disjoint_areas d n a k -> bytes (memcpy m d s n) a k = bytes m a k.
Proof.
  intros Hd. apply bytes_ext. intros x Hx. unfold memcpy, disjoint_areas in *.
  destruct (Z.leb_spec d x), (Z.ltb_spec x (d + n)); simpl; (done || lia).
Qed.

(** ** A reading and a writing thread

    What the two threads are doing, the bytes that finished reads have returned and the
    bytes that were written and are not lost: a write that is interrupted, or whose
    reader closes the pipe, loses what no reader has taken. *)

Section Threads.
Context {K : Type} `{!PipeServices K}.
Context (fuel : nat).
Implicit Types (s : st K).

Inductive call := Idle | In (t : nat) (data n : Z).

Record world := World { state_of : st K; reader : call; writer : call; got : list Z; put : list Z }.

(** The rest of the data of a writer that waits, and the data that a reader has been given
    and not yet returned. *)
Definition pending s : list Z :=
  match waithead (ends s Wr) with
  | Some t => bytes (mem s) (buffer (reqs s t)) (size (reqs s t))
  | None => []
  end.

Definition handed s (c : call) : list Z :=
  match c with
  | In t data _ => if bool_decide (waithead (ends s Rd) = Some t) then [] else bytes (mem s) data (rc (reqs s t))
  | Idle => []
  end.

#[local] Arguments pending : simpl never.
#[local] Arguments handed : simpl never.

(** Another call may use thread [t] and the area. *)
Definition apart (c : call) (t : nat) (data n : Z) : Prop :=
  match c with In u d k => t <> u /\ disjoint_areas data n d k | Idle => True end.

Definition untouched (c : call) (m m' : Z -> Z) : Prop :=
  match c with In _ d k => forall a, d <= a < d + k -> m' a = m a | Idle => True end.

(** What may have become of the kernel while other threads ran: whoever waits can still be
    marked ready. *)
Definition kernel_step s (k : K) : Prop :=
  kinv k /\ forall sd t, waithead (ends s sd) = Some t -> parked k t.

(** A thread that has left a request sleeps: the contract of [enter_alertable_wait]. *)
Definition sleeps s (t : nat) (k : K) : Prop := parked k t /\ kernel_step s k.

Inductive step : world -> world -> Prop :=
  | read_returns s wr g p t data n r s' :
      alive (ends s Rd) = true -> area data n -> apart wr t data n ->
      pipefs_read fuel s t data n = Ret (Done r, s') ->
      step (World s Idle wr g p) (World s' Idle wr (g ++ bytes (mem s') data r) p)
  | read_sleeps s wr g p t data n s' k :
      alive (ends s Rd) = true -> area data n -> apart wr t data n ->
      pipefs_read fuel s t data n = Ret (Blocked, s') -> sleeps s' t k ->
      step (World s Idle wr g p) (World (set_kern s' k) (In t data n) wr g p)
  | read_wakes s wr g p t data n r s' :
      waithead (ends s Rd) <> Some t -> finish_read fuel s t 0 = Ret (r, s') ->
      step (World s (In t data n) wr g p) (World s' Idle wr (g ++ bytes (mem s') data r) p)
  | read_interrupted s wr g p t data n r s' :
      waithead (ends s Rd) = Some t -> finish_read fuel s t (- EINTR) = Ret (r, s') ->
      step (World s (In t data n) wr g p) (World s' Idle wr (g ++ bytes (mem s') data r) p)
  | write_returns s rd g p t data n r s' :
      alive (ends s Wr) = true -> area data n -> apart rd t data n ->
      pipefs_write fuel s t data n = Ret (Done r, s') ->
      step (World s rd Idle g p) (World s' rd Idle g (p ++ bytes (mem s) data r))
  | write_sleeps s rd g p t data n s' k :
      alive (ends s Wr) = true -> area data n -> apart rd t data n ->
      pipefs_write fuel s t data n = Ret (Blocked, s') -> sleeps s' t k ->
      step (World s rd Idle g p) (World (set_kern s' k) rd (In t data n) g (p ++ bytes (mem s) data n))
  | write_wakes s rd g p t data n r s' :
      waithead (ends s Wr) <> Some t -> finish_write fuel s t n 0 = Ret (r, s') ->
      step (World s rd (In t data n) g p) (World s' rd Idle g p)
  | write_interrupted s rd g p t data n r s' :
      waithead (ends s Wr) = Some t -> finish_write fuel s t n (- EINTR) = Ret (r, s') ->
      step (World s rd (In t data n) g (p ++ pending s)) (World s' rd Idle g p)
  | reader_closes s wr g p s' :
      alive (ends s Rd) = true -> pipefs_close fuel s Rd = Ret s' ->
      step (World s Idle wr g (p ++ pending s)) (World s' Idle wr g p)
  | writer_closes s rd g p s' :
      alive (ends s Wr) = true -> pipefs_close fuel s Wr = Ret s' ->
      step (World s rd Idle g p) (World s' rd Idle g p)
  | stores s rd wr g p m :
      untouched rd (mem s) m -> untouched wr (mem s) m ->
      step (World s rd wr g p) (World (set_mem s m) rd wr g p)
  | others_run s rd wr g p k : kernel_step s k ->
      step (World s rd wr g p) (World (set_kern s k) rd wr g p).

Inductive reachable : world -> Prop :=
  | reach_start k m nb : kinv k -> reachable (World (pipe k m nb) Idle Idle [] [])
  | reach_step w w' : reachable w -> step w w' -> reachable w'.

(** A call at the end [sd], with its place in the wait list. *)
Definition reading s (c : call) (a : option nat) : Prop :=
  match c with
  | Idle => a = None
  | In t data n => area data n /\
      (a = Some t /\ reqs s t = PipeReq data n (- EINTR) /\ peer (ends s Rd) = true
       \/ a = None /\ 0 <= rc (reqs s t) <= n)
  end.

Definition writing s (c : call) (b : option nat) : Prop :=
  match c with
  | Idle => b = None
  | In t data n => area data n /\
      (b = Some t /\ peer (ends s Wr) = true /\
         (exists k, 0 <= k < n /\ reqs s t = PipeReq (data + k) (n - k) (- EINTR))
       \/ b = None /\ (rc (reqs s t) = 0 \/ rc (reqs s t) = - EPIPE))
  end.

Definition calls_apart (c d : call) : Prop := match c with In t data n => apart d t data n | Idle => True end.

Record stream_ok (w : world) (a b : option nat) : Prop := {
  so_queues : queues (state_of w) Rd a b;
  so_one : a = None \/ b = None;
  so_open : peer (ends (state_of w) Rd) = peer (ends (state_of w) Wr);
  so_alive : forall sd, peer (ends (state_of w) sd) = true -> alive (ends (state_of w) sd) = true;
  so_busy : (reader w <> Idle -> alive (ends (state_of w) Rd) = true) /\ (writer w <> Idle -> alive (ends (state_of w) Wr) = true);
  so_reader : reading (state_of w) (reader w) a;
  so_writer : writing (state_of w) (writer w) b;
  so_apart : calls_apart (reader w) (writer w);
  so_stream : put w = got w ++ handed (state_of w) (reader w) ++ pending (state_of w);
}.

(** ** The invariant is kept *)

Lemma pending_eq s a b : queues s Rd a b ->
  pending s = match b with Some t => bytes (mem s) (buffer (reqs s t)) (size (reqs s t)) | None => [] end.
Proof. intros Hq. unfold pending. by rewrite (proj1 (q_other _ _ _ _ Hq) : waithead (ends s Wr) = b). Qed.

Lemma handed_eq s a b c : queues s Rd a b ->
  handed s c = match c with
    | In t data _ => if bool_decide (a = Some t) then [] else bytes (mem s) data (rc (reqs s t)) | Idle => [] end.
Proof. intros Hq. unfold handed. by rewrite (proj1 (q_this _ _ _ _ Hq) : waithead (ends s Rd) = a). Qed.

Definition good (w : world) : Prop := exists a b, stream_ok w a b.

Lemma fuel_two : (2 <= fuel)%nat -> exists f, fuel = S (S f).
Proof. intros Hf. exists (fuel - 2)%nat. lia. Qed.

(** Reads of a thread that is not in a call. *)
Lemma read_at_pending s wr g p t data n t' : stream_ok (World s Idle wr g p) None (Some t') ->
  area data n -> apart wr t data n -> (2 <= fuel)%nat ->
  exists m s', pipefs_read fuel s t data n = Ret (Done m, s')
    /\ (0 < m /\ exists rest, pending s = bytes (mem s') data m ++ rest /\ (m = n \/ rest = []))
    /\ good (World s' Idle wr (g ++ bytes (mem s') data m) p).
Proof.
  intros [Hq _ Hop Hal Hb Hr Hw Hap Hst] Ha Hapart Hfuel. simpl in *.
  destruct wr as [|u d w]; [done|]. destruct Hw as (Hda & [([= ->] & Hpeer & k & Hk & Hreq)|[? _]]); [|done].
  destruct Hapart as [Htu Hdis]. destruct (fuel_two Hfuel) as [f ->].
  destruct (read_served s u n data f t) as (s' & Hrd & Hm & Hf & Hsr & Hres);
    [by apply (queues_sym s Rd)|done|by rewrite Hop|rewrite Hreq; simpl; unfold area in *; lia|].
  rewrite Hreq in Hrd, Hm, Hres. cbn [buffer size rc] in Hrd, Hm, Hres. set (m := Z.min n (w - k)) in *.
  exists m, s'. split; [done|].
  assert (Hmem : bytes (mem s') data m = bytes (mem s) (d + k) m) by (rewrite Hm; apply bytes_memcpy).
  split; [split; [unfold area in *; lia|]; exists (bytes (mem s) (d + k + m) (w - k - m))|].
  { rewrite (pending_eq s _ _ Hq), Hreq, Hmem. cbn [buffer size]. rewrite <- bytes_app by (unfold area in *; lia).
    split; [f_equal; lia|]. destruct (decide (m = n)); [by left|right; apply bytes_none; lia]. }
  assert (Hsplit : bytes (mem s) (d + k) (w - k) = bytes (mem s) (d + k) m ++ bytes (mem s) (d + k + m) (w - k - m))
    by (rewrite <- bytes_app by (unfold area in *; lia); f_equal; lia).
  rewrite (pending_eq s _ _ Hq), Hreq in Hst. cbn [buffer size] in Hst. rewrite Hsplit in Hst.
  destruct Hf as [Fp Fa Fn]. destruct (Z.leb_spec (w - k) n) as [Hle|Hgt].
  - destruct Hres as [Hq' Hrc]. apply queues_sym in Hq'. exists None, None. constructor; simpl; rewrite ?Fp, ?Fa; try done; [by left|..].
    + intros sd. rewrite Fp, Fa. apply Hal.
    + split; [done|]. right. split; [done|by left].
    + rewrite (pending_eq s' _ _ Hq'), Hmem, Hst. replace (w - k - m) with 0 by lia. by rewrite (bytes_none _ _ 0), !app_nil_r by lia.
  - destruct Hres as [Hq' Hreq']. apply queues_sym in Hq'. exists None, (Some u). constructor; simpl; rewrite ?Fp, ?Fa; try done; [by left|..].
    + intros sd. rewrite Fp, Fa. apply Hal.
    + split; [done|]. left. split; [done|]. split; [done|]. exists (k + m). split; [unfold area in *; lia|].
      rewrite Hreq'. f_equal; lia.
    + rewrite (pending_eq s' _ _ Hq'), Hmem, Hst, Hreq'. cbn [buffer size].
      rewrite Hm, bytes_memcpy_other by (unfold disjoint_areas, area in *; lia). by rewrite <- !app_assoc.
Qed.

Lemma same_flags_ok s s' : same_flags s s' -> peer (ends s Rd) = peer (ends s Wr) ->
  (forall sd, peer (ends s sd) = true -> alive (ends s sd) = true) ->
  peer (ends s' Rd) = peer (ends s' Wr) /\ forall sd, peer (ends s' sd) = true -> alive (ends s' sd) = true.
Proof. intros [Fp Fa _] Ho Hal. rewrite !Fp. split; [done|]. intros sd. rewrite Fp, Fa. apply Hal. Qed.

(** What the invariant says of a call depends on its own request only. *)
Lemma reading_ext s s' c a : (forall sd, peer (ends s' sd) = peer (ends s sd)) ->
  match c with In t _ _ => reqs s' t = reqs s t | Idle => True end -> reading s c a -> reading s' c a.
Proof. intros Hp Hr. destruct c as [|t d n]; simpl; [done|]. by rewrite Hr, Hp. Qed.

Lemma writing_ext s s' c b : (forall sd, peer (ends s' sd) = peer (ends s sd)) ->
  match c with In t _ _ => reqs s' t = reqs s t | Idle => True end -> writing s c b -> writing s' c b.
Proof. intros Hp Hr. destruct c as [|t d n]; simpl; [done|]. by rewrite Hr, Hp. Qed.

Lemma stream_ok_kern s rd wr g p a b k : stream_ok (World s rd wr g p) a b -> kinv k ->
  (forall t, a = Some t \/ b = Some t -> parked k t) -> stream_ok (World (set_kern s k) rd wr g p) a b.
Proof. intros [[] ? ? ? ? ? ? ? ?] Hk Hp. constructor; [by constructor|done..]. Qed.

Lemma stream_ok_only_kern s s' rd wr g p a b : only_kern s s' ->
  stream_ok (World s rd wr g p) a b -> stream_ok (World s' rd wr g p) a b.
Proof.
  intros [[k ->] Hk Hp] Hok. pose proof (so_queues _ _ _ Hok) as Hq. apply stream_ok_kern; [done| |].
  - apply Hk, (q_kern _ _ _ _ Hq).
  - intros t Ht. apply Hp; [apply (q_kern _ _ _ _ Hq)|]. by apply (q_parked _ _ _ _ Hq).
Qed.

(** The call of another thread keeps its request when a request is added. *)
Lemma other_req s s' c t data n : apart c t data n -> same_reqs s s' t ->
  match c with In u _ _ => reqs s' u = reqs s u | Idle => True end.
Proof. destruct c as [|u d k]; [done|]. intros [Hne _] Hs. by apply Hs. Qed.

Lemma read_at_empty s wr g p t data n : stream_ok (World s Idle wr g p) None None -> area data n ->
  exists s1, only_kern s s1 /\
    ((exists r, pipefs_read fuel s t data n = Ret (Done r, s1) /\ r <= 0 /\
        (if peer (ends s Rd) then r = - EAGAIN /\ nonblock (ends s Rd) = true else r = 0))
     \/ (peer (ends s Rd) = true /\ nonblock (ends s Rd) = false /\ pipefs_read fuel s t data n = Ret (Blocked, add_request s1 Rd t (PipeReq data n (- EINTR))))).
Proof.
  intros [Hq _ _ _ _ _ _ _ _] Ha. simpl in *. destruct (peer (ends s Rd)) eqn:Hp.
  - destruct (read_waits s n data fuel t) as (s1 & Ho & Hr); [by apply (queues_sym s Rd)|done|done|].
    exists s1. split; [done|]. rewrite Hr. destruct (nonblock _); [left; by exists (- EAGAIN)|by right].
  - exists s. split; [apply only_kern_refl|]. left. exists 0. split; [|done]. unfold pipefs_read.
    destruct Ha as (? & ? & ?). by rewrite (proj2 (Z.eqb_neq n 0)), Hp by lia.
Qed.

Lemma read_blocks s s1 wr g p t data n k : stream_ok (World s Idle wr g p) None None -> only_kern s s1 ->
  area data n -> apart wr t data n -> peer (ends s Rd) = true ->
  kinv k -> parked k t ->
  good (World (set_kern (add_request s1 Rd t (PipeReq data n (- EINTR))) k) (In t data n) wr g p).
Proof.
  intros Hok Ho Ha Hap Hp Hk Hpt. apply (stream_ok_only_kern _ _ _ _ _ _ _ _ Ho) in Hok.
  destruct (only_kern_same _ _ Ho) as (_ & _ & He & _). rewrite <- He in Hp. clear s Ho He.
  destruct Hok as [Hq _ Hop Hal Hb Hr Hw _ Hst]. simpl in *.
  destruct (add_request_spec s1 Rd t (PipeReq data n (- EINTR)) None k) as (Hq' & Hm & Hf & Hrq & Hsr); try done.
  set (s' := set_kern _ k) in *. clearbody s'. destruct (same_flags_ok s1 s' Hf Hop Hal) as [Hop' Hal'].
  exists (Some t), None. constructor; simpl; try done; [by right|..].
  - split; intros Hne; rewrite (f_alive _ _ Hf); [by apply Hal|by apply Hb].
  - split; [done|]. left. rewrite (f_peer _ _ Hf). done.
  - eapply writing_ext; [apply (f_peer _ _ Hf)|by eapply other_req|done].
  - rewrite (pending_eq _ _ _ Hq'), (handed_eq _ _ _ (In t data n) Hq'), bool_decide_eq_true_2 by done.
    by rewrite (pending_eq _ _ _ Hq) in Hst.
Qed.

(** Writes of a thread that is not in a call. *)
Lemma write_at_reader s rd g p t data n u : stream_ok (World s rd Idle g p) (Some u) None ->
  area data n -> apart rd t data n -> (2 <= fuel)%nat ->
  exists s1, (exists m, pipefs_write fuel s t data n = Ret (Done m, s1) /\ (m = n \/ 0 < m < n /\ nonblock (ends s Wr) = true) /\ good (World s1 rd Idle g (p ++ bytes (mem s) data m)))
    \/ (exists r, pipefs_write fuel s t data n = Ret (Blocked, add_request s1 Wr t r) /\ nonblock (ends s Wr) = false /\
        forall k, kinv k -> parked k t -> good (World (set_kern (add_request s1 Wr t r) k) rd (In t data n) g (p ++ bytes (mem s) data n))).
Proof.
  intros [Hq _ Hop Hal Hb Hr Hw _ Hst] Ha Hap Hfuel. simpl in *.
  destruct rd as [|u' d w]; [done|]. destruct Hr as (Hda & [([= <-] & Hreq & Hpeer)|[? _]]); [|done].
  destruct Hap as [Htu Hdis]. destruct (fuel_two Hfuel) as [f ->].
  destruct (write_served s u n data (S f) t) as (s1 & Hwr & Hm & Hf & Hsr & Hq1 & Hrc);
    [done|done|by rewrite <- Hop|by rewrite Hreq|].
  rewrite Hreq in Hwr, Hm, Hrc. cbn [buffer size] in *. set (m := Z.min n w) in *.
  assert (Hhand : bytes (mem s1) d m = bytes (mem s) data m) by (rewrite Hm; apply bytes_memcpy).
  rewrite (pending_eq s _ _ Hq), (handed_eq s _ _ (In u d w) Hq), bool_decide_eq_true_2, app_nil_r in Hst by done.
  destruct (same_flags_ok s s1 Hf Hop Hal) as [Hop1 Hal1].
  assert (Hserved : reading s1 (In u d w) None) by (split; [done|]; right; split; [done|]; rewrite Hrc; unfold area in *; lia).
  assert (Hdone : good (World s1 (In u d w) Idle g (p ++ bytes (mem s) data m))).
  { exists None, None. constructor; simpl; rewrite ?(f_alive _ _ Hf); try done; [by left|].
    rewrite (pending_eq s1 _ _ Hq1), (handed_eq s1 _ _ (In u d w) Hq1), bool_decide_eq_false_2 by done.
    by rewrite Hrc, Hhand, app_nil_r, Hst. }
  exists s1. rewrite Hwr. destruct (Z.leb_spec n w) as [Hle|Hgt]; [left; exists n; split; [done|]; replace m with n in Hdone by lia; by split; [left|]|].
  destruct (nonblock (ends s Wr)) eqn:Hnb; [left; exists m; split; [done|]; split; [right; unfold area in *; lia|done]|right].
  eexists. split; [done|]. split; [done|]. intros k Hk Hpt.
  destruct (add_request_spec s1 Wr t (PipeReq (data + m) (n - m) (- EINTR)) None k) as (Hq' & Hm' & Hf' & Hrq & Hsr'); try done.
  { by apply (queues_sym s1 Rd). }
  set (s' := set_kern _ k) in *. clearbody s'. apply queues_sym in Hq'. simpl in Hq'.
  destruct (same_flags_ok s1 s' Hf' Hop1 Hal1) as [Hop' Hal'].
  exists None, (Some t). constructor; simpl; try done; [by left|..].
  - split; intros _; rewrite (f_alive _ _ Hf'), (f_alive _ _ Hf); [by apply Hb|]. apply Hal. by rewrite <- Hop.
  - apply (reading_ext s1 s' (In u d w)); [apply (f_peer _ _ Hf')| |exact Hserved]. apply Hsr'. congruence.
  - split; [done|]. left. split; [done|]. rewrite (f_peer _ _ Hf'), <- Hop1, (f_peer _ _ Hf). split; [done|].
    exists m. split; [unfold area in *; lia|done].
  - split; [congruence|]. unfold disjoint_areas in *. lia.
  - rewrite (pending_eq s' _ _ Hq'), (handed_eq s' _ _ (In u d w) Hq'), Hrq, bool_decide_eq_false_2 by done.
    rewrite (Hsr' u) by congruence. cbn [buffer size]. rewrite Hrc, Hm', Hhand, Hst. f_equal.
    rewrite Hm, bytes_memcpy_other by (unfold disjoint_areas, area in *; lia).
    rewrite <- bytes_app by (unfold area in *; lia). f_equal. lia.
Qed.

Lemma write_at_empty s rd g p t data n : stream_ok (World s rd Idle g p) None None -> area data n ->
  exists s1, only_kern s s1 /\
    ((exists r, pipefs_write fuel s t data n = Ret (Done r, s1) /\ r <= 0 /\
        (if peer (ends s Wr) then r = 0 /\ nonblock (ends s Wr) = true else r = - EPIPE))
     \/ (peer (ends s Wr) = true /\ nonblock (ends s Wr) = false /\ pipefs_write fuel s t data n = Ret (Blocked, add_request s1 Wr t (PipeReq data n (- EINTR))))).
Proof.
  intros [Hq _ _ _ _ _ _ _ _] Ha. simpl in *. destruct (peer (ends s Wr)) eqn:Hp.
  - destruct (write_waits s n data fuel t) as (s1 & Ho & Hr); [done|done|done|].
    exists s1. split; [done|]. rewrite Hr. destruct (nonblock _); [left; by exists 0|by right].
  - exists s. split; [apply only_kern_refl|]. left. exists (- EPIPE). split; [|done]. unfold pipefs_write.
    destruct Ha as (? & ? & ?). by rewrite (proj2 (Z.eqb_neq n 0)), Hp by lia.
Qed.

Lemma write_blocks s s1 rd g p t data n k : stream_ok (World s rd Idle g p) None None -> only_kern s s1 ->
  area data n -> apart rd t data n -> peer (ends s Wr) = true -> kinv k -> parked k t ->
  good (World (set_kern (add_request s1 Wr t (PipeReq data n (- EINTR))) k) rd (In t data n) g (p ++ bytes (mem s) data n)).
Proof.
  intros Hok Ho Ha Hap Hp Hk Hpt. apply (stream_ok_only_kern _ _ _ _ _ _ _ _ Ho) in Hok.
  destruct (only_kern_same _ _ Ho) as (Hms & _ & He & _). rewrite <- He in Hp. rewrite <- Hms. clear s Ho He Hms.
  destruct Hok as [Hq _ Hop Hal Hb Hr Hw _ Hst]. simpl in *.
  destruct (add_request_spec s1 Wr t (PipeReq data n (- EINTR)) None k) as (Hq' & Hm & Hf & Hrq & Hsr); try done.
  { by apply (queues_sym s1 Rd). }
  set (s' := set_kern _ k) in *. clearbody s'. apply queues_sym in Hq'. simpl in Hq'.
  destruct (same_flags_ok s1 s' Hf Hop Hal) as [Hop' Hal'].
  exists None, (Some t). constructor; simpl; try done; [by left|..].
  - split; intros Hne; rewrite (f_alive _ _ Hf); [by apply Hb|by apply Hal].
  - eapply reading_ext; [apply (f_peer _ _ Hf)|by eapply other_req|done].
  - split; [done|]. left. rewrite (f_peer _ _ Hf). split; [done|]. split; [done|]. exists 0. split; [unfold area in *; lia|].
    rewrite Hrq. f_equal; lia.
  - destruct rd as [|u d w]; [done|]. destruct Hap as [Hne Hdis]. split; [congruence|]. unfold disjoint_areas in *. lia.
  - rewrite (pending_eq s' _ _ Hq'), (handed_eq s' _ _ rd Hq'), Hrq. rewrite (pending_eq s1 _ _ Hq), (handed_eq s1 _ _ rd Hq) in Hst.
    cbn [buffer size]. rewrite Hm, Hst, app_nil_r, <- app_assoc. do 2 f_equal.
    destruct rd as [|u d w]; [done|]. destruct Hap as [Hne _]. by rewrite (Hsr u) by congruence.
Qed.

(** Reading and writing calls that come back. *)
Lemma read_wake_good s wr g p t data n a b : stream_ok (World s (In t data n) wr g p) a b -> a <> Some t ->
  good (World s Idle wr (g ++ bytes (mem s) data (rc (reqs s t))) p).
Proof.
  intros [Hq _ Hop Hal Hb Hr Hw _ Hst] Ha. simpl in *. destruct Hr as (Hda & [(-> & _)|[-> Hrc]]); [done|].
  exists None, b. constructor; simpl; try done; [by left|by split; [|apply Hb]|].
  rewrite (handed_eq s _ _ (In t data n) Hq), bool_decide_eq_false_2 in Hst by done. by rewrite Hst, <- app_assoc.
Qed.

Lemma read_interrupt_good s wr g p t data n b : stream_ok (World s (In t data n) wr g p) (Some t) b ->
  exists s', finish_read fuel s t (- EINTR) = Ret (- EINTR, s') /\ good (World s' Idle wr g p).
Proof.
  intros [Hq Hone Hop Hal Hb Hr Hw Hap Hst]. simpl in *. destruct Hone as [|Hone]; [done|]. subst b.
  destruct (finish_interrupted s Rd t None fuel Hq) as (s' & Hfin & Hq' & Hm & Hf & Hsr & Hrc); [by apply Hb|].
  exists s'. unfold finish_read. rewrite Hfin. cbn [obind]. rewrite Hrc. split; [done|].
  destruct (same_flags_ok s s' Hf Hop Hal) as [Hop' Hal'].
  exists None, None. constructor; simpl; try done; [by left|..].
  - split; [done|]. intros Hne. rewrite (f_alive _ _ Hf). by apply Hb.
  - eapply writing_ext; [apply (f_peer _ _ Hf)| |done]. destruct wr as [|u d w]; [done|]. apply Hsr. by destruct Hap as [? _].
  - rewrite (pending_eq s' _ _ Hq'). rewrite (pending_eq s _ _ Hq), (handed_eq s _ _ (In t data n) Hq), bool_decide_eq_true_2 in Hst by done. done.
Qed.

Lemma write_wake_good s rd g p t data n a b : stream_ok (World s rd (In t data n) g p) a b -> b <> Some t ->
  good (World s rd Idle g p).
Proof.
  intros [Hq _ Hop Hal Hb Hr Hw _ Hst] Ha. simpl in *. destruct Hw as (Hda & [(-> & _)|[-> Hrc]]); [done|].
  exists a, None. constructor; simpl; try done; [by right|by split; [apply Hb|]|]. by destruct rd.
Qed.

Lemma write_interrupt_good s rd g p t data n a : stream_ok (World s rd (In t data n) g (p ++ pending s)) a (Some t) ->
  exists s', finish_write fuel s t n (- EINTR) = Ret (- EINTR, s') /\ good (World s' rd Idle g p).
Proof.
  intros [Hq Hone Hop Hal Hb Hr Hw Hap Hst]. simpl in *. destruct Hone as [Hone|]; [|done]. subst a.
  destruct (finish_interrupted s Wr t None fuel (queues_sym s Rd _ _ Hq)) as (s' & Hfin & Hq' & Hm & Hf & Hsr & Hrc); [by apply Hb|].
  exists s'. unfold finish_write. rewrite Hfin. cbn [obind]. rewrite Hrc. split; [done|].
  destruct (same_flags_ok s s' Hf Hop Hal) as [Hop' Hal']. apply queues_sym in Hq'. simpl in Hq'.
  assert (Hreq : match rd with In u _ _ => reqs s' u = reqs s u | Idle => True end).
  { destruct rd as [|u d w]; [done|]. apply Hsr. destruct Hap as [Hne _]. congruence. }
  exists None, None. constructor; simpl; try done; [by left|..].
  - split; [|done]. intros Hne. rewrite (f_alive _ _ Hf). by apply Hb.
  - by eapply reading_ext; [apply (f_peer _ _ Hf)|..].
  - by destruct rd.
  - rewrite (pending_eq s' _ _ Hq'), app_nil_r, (handed_eq s' _ _ rd Hq'). rewrite (handed_eq s _ _ rd Hq), app_assoc in Hst.
    apply app_inv_tail in Hst. rewrite Hst. f_equal. destruct rd as [|u d w]; [done|]. by rewrite Hreq, Hm.
Qed.

(** Whoever waits has somebody at the other end. *)
Lemma waiting_open w a b : stream_ok w a b -> a <> None \/ b <> None ->
  forall sd, peer (ends (state_of w) sd) = true.
Proof.
  intros [_ _ Hop _ _ Hr Hw _ _] Hab. assert (H : peer (ends (state_of w) Rd) = true).
  { destruct Hab as [Hab|Hab].
    - destruct (reader w) as [|t d n]; [done|]. by destruct Hr as (_ & [(_ & _ & ?)|[? _]]).
    - rewrite Hop. destruct (writer w) as [|t d n]; [done|]. by destruct Hw as (_ & [(_ & ? & _)|[? _]]). }
  intros [|]; congruence.
Qed.

Lemma reader_close_good s wr g p a b : stream_ok (World s Idle wr g (p ++ pending s)) a b -> alive (ends s Rd) = true -> (2 <= fuel)%nat ->
  exists s', pipefs_close fuel s Rd = Ret s' /\ good (World s' Idle wr g p).
Proof.
  intros Hok Ha Hfuel. pose proof (waiting_open _ _ _ Hok) as Hopen.
  destruct Hok as [Hq _ Hop Hal Hb Hr Hw _ Hst]. simpl in *. subst a. destruct (fuel_two Hfuel) as [f ->].
  destruct (close_spec s Rd b (S f) Hq) as (s' & Hc & Hq' & Hm & Hans & Hp & Hali & _).
  { intros Hne. apply Hopen. by right. }
  exists s'. split; [done|]. exists None, None. constructor; simpl; try done; [by left|..].
  - rewrite !Hp. by destruct (peer (ends s Rd)).
  - intros sd. rewrite Hp, Hali. destruct (peer (ends s Rd)) eqn:Hpr; [done|]. intros Hsd. destruct sd; [by rewrite Hsd in Hpr|].
    by apply Hal.
  - split; [done|]. intros Hne. rewrite Hali. by apply Hb.
  - destruct wr as [|t d n]; [done|]. destruct Hw as (Hda & Hcase). split; [done|]. right. split; [done|].
    rewrite Hans. destruct Hcase as [(-> & _)|[-> Hrc]]; [rewrite decide_True by done; by right|by rewrite decide_False].
  - rewrite (pending_eq s' _ _ Hq'), app_nil_r. apply app_inv_tail in Hst. exact Hst.
Qed.

Lemma writer_close_good s rd g p a b : stream_ok (World s rd Idle g p) a b -> alive (ends s Wr) = true -> (2 <= fuel)%nat ->
  exists s', pipefs_close fuel s Wr = Ret s' /\ good (World s' rd Idle g p).
Proof.
  intros Hok Ha Hfuel. pose proof (waiting_open _ _ _ Hok) as Hopen.
  destruct Hok as [Hq _ Hop Hal Hb Hr Hw _ Hst]. simpl in *. subst b. destruct (fuel_two Hfuel) as [f ->].
  destruct (close_spec s Wr a (S f) (queues_sym s Rd _ _ Hq)) as (s' & Hc & Hq' & Hm & Hans & Hp & Hali & _).
  { intros Hne. apply Hopen. by left. }
  apply queues_sym in Hq'. simpl in Hq'.
  exists s'. split; [done|]. exists None, None. constructor; simpl; try done; [by left|..].
  - rewrite !Hp. by destruct (peer (ends s Wr)).
  - intros sd. rewrite Hp, Hali. destruct (peer (ends s Wr)) eqn:Hpr; [done|]. intros Hsd. destruct sd; [by apply Hal|].
    by rewrite Hsd in Hpr.
  - split; [|done]. intros Hne. rewrite Hali. by apply Hb.
  - destruct rd as [|t d n]; [done|]. destruct Hr as (Hda & Hcase). split; [done|]. right. split; [done|].
    rewrite Hans. destruct Hcase as [(-> & _)|[-> Hrc]]; [rewrite decide_True by done; simpl; unfold area in *; lia|by rewrite decide_False].
  - by destruct rd.
  - rewrite (pending_eq s' _ _ Hq'), (handed_eq s' _ _ rd Hq'). rewrite (pending_eq s _ _ Hq), (handed_eq s _ _ rd Hq) in Hst.
    rewrite Hst. do 2 f_equal. destruct rd as [|t d n]; [done|]. destruct Hr as (Hda & [(-> & _)|[-> Hrc]]).
    + rewrite bool_decide_eq_true_2 by done. rewrite bool_decide_eq_false_2 by done. rewrite Hans, decide_True by done. by rewrite bytes_none.
    + rewrite !bool_decide_eq_false_2 by done. by rewrite Hans, decide_False, Hm by done.
Qed.

Lemma store_good s rd wr g p m a b : stream_ok (World s rd wr g p) a b -> untouched rd (mem s) m -> untouched wr (mem s) m ->
  good (World (set_mem s m) rd wr g p).
Proof.
  intros [Hq Hone Hop Hal Hb Hr Hw Hap Hst] Hrd Hwr. simpl in *.
  assert (Hq' : queues (set_mem s m) Rd a b) by (by eapply queues_ext).
  exists a, b. constructor; simpl; try done.
  rewrite (pending_eq _ _ _ Hq'), (handed_eq _ _ _ rd Hq'). rewrite (pending_eq s _ _ Hq), (handed_eq s _ _ rd Hq) in Hst.
  rewrite Hst. simpl. f_equal. f_equal.
  - destruct rd as [|t d n]; [done|]. case_bool_decide as Hat; [done|]. symmetry. apply bytes_ext. intros x Hx. apply Hrd.
    destruct Hr as (Hda & [(-> & _)|[_ Hrc]]); [done|lia].
  - destruct b as [t|]; [|done]. symmetry. apply bytes_ext. intros x Hx.
    destruct wr as [|u d n]; [done|]. destruct Hw as (Hda & [([= ->] & _ & k & Hk & Hreq)|[? _]]); [|done].
    rewrite Hreq in Hx. simpl in Hx. apply Hwr. lia.
Qed.

Lemma step_good w w' : (2 <= fuel)%nat -> good w -> step w w' -> good w'.
Proof.
  intros Hfuel (a & b & Hok) Hstep. destruct Hstep as [s wr g p t data n r s' Hal Ha Hap Hop|s wr g p t data n s' k Hal Ha Hap Hop Hk
    |s wr g p t data n r s' Hne Hop|s wr g p t data n r s' He Hop|s rd g p t data n r s' Hal Ha Hap Hop|s rd g p t data n s' k Hal Ha Hap Hop Hk
    |s rd g p t data n r s' Hne Hop|s rd g p t data n r s' He Hop|s wr g p s' Hal Hop|s rd g p s' Hal Hop|s rd wr g p m Hrd Hwr|s rd wr g p k Hk].
  - pose proof (so_reader _ _ _ Hok) as Hr. simpl in Hr. subst a. destruct b as [u|].
    + destruct (read_at_pending _ _ _ _ _ _ _ _ Hok Ha Hap Hfuel) as (m & s1 & Hop1 & _ & Hg). rewrite Hop in Hop1. by simplify_eq.
    + destruct (read_at_empty _ _ _ _ t _ _ Hok Ha) as (s1 & Ho & [(r1 & Hop1 & Hr1 & _)|(_ & _ & Hop1)]); rewrite Hop in Hop1; simplify_eq.
      rewrite bytes_none, app_nil_r by done. exists None, None. by eapply stream_ok_only_kern.
  - pose proof (so_reader _ _ _ Hok) as Hr. simpl in Hr. subst a. destruct b as [u|].
    + destruct (read_at_pending _ _ _ _ _ _ _ _ Hok Ha Hap Hfuel) as (m & s1 & Hop1 & _ & Hg). rewrite Hop in Hop1. by simplify_eq.
    + destruct (read_at_empty _ _ _ _ t _ _ Hok Ha) as (s1 & Ho & [(r1 & Hop1 & Hr1 & _)|(Hp & _ & Hop1)]); rewrite Hop in Hop1; simplify_eq.
      destruct Hk as (Hpt & Hkv & _). by eapply read_blocks.
  - unfold finish_read, finish_wait in Hop. simpl in Hop. simplify_eq. eapply read_wake_good; [exact Hok|].
    rewrite <- (proj1 (q_this _ _ _ _ (so_queues _ _ _ Hok))). exact Hne.
  - assert (Hat := proj1 (q_this _ _ _ _ (so_queues _ _ _ Hok))). simpl in Hat. rewrite He in Hat. subst a.
    destruct (read_interrupt_good _ _ _ _ _ _ _ _ Hok) as (s1 & Hop1 & Hg). rewrite Hop in Hop1. simplify_eq.
    by rewrite bytes_none, app_nil_r.
  - pose proof (so_writer _ _ _ Hok) as Hw. simpl in Hw. subst b. destruct a as [u|].
    + destruct (write_at_reader _ _ _ _ t _ _ _ Hok Ha Hap Hfuel) as (s1 & [(m & Hop1 & _ & Hg)|(r1 & Hop1 & _)]);
        rewrite Hop in Hop1; by simplify_eq.
    + destruct (write_at_empty _ _ _ _ t _ _ Hok Ha) as (s1 & Ho & [(r1 & Hop1 & Hr1 & _)|(_ & _ & Hop1)]); rewrite Hop in Hop1; simplify_eq.
      rewrite bytes_none, app_nil_r by done. exists None, None. by eapply stream_ok_only_kern.
  - pose proof (so_writer _ _ _ Hok) as Hw. simpl in Hw. subst b. destruct Hk as (Hpt & Hkv & _). destruct a as [u|].
    + destruct (write_at_reader _ _ _ _ t _ _ _ Hok Ha Hap Hfuel) as (s1 & [(m & Hop1 & _)|(r1 & Hop1 & _ & Hg)]);
        rewrite Hop in Hop1; simplify_eq. by apply Hg.
    + destruct (write_at_empty _ _ _ _ t _ _ Hok Ha) as (s1 & Ho & [(r1 & Hop1 & Hr1 & _)|(Hp & _ & Hop1)]); rewrite Hop in Hop1; simplify_eq.
      by eapply write_blocks.
  - unfold finish_write, finish_wait in Hop. simpl in Hop. simplify_eq. eapply write_wake_good; [exact Hok|].
    rewrite <- (proj1 (q_other _ _ _ _ (so_queues _ _ _ Hok))). exact Hne.
  - assert (Hat := proj1 (q_other _ _ _ _ (so_queues _ _ _ Hok))). simpl in Hat. rewrite He in Hat. subst b.
    destruct (write_interrupt_good _ _ _ _ _ _ _ _ Hok) as (s1 & Hop1 & Hg). rewrite Hop in Hop1. by simplify_eq.
  - destruct (reader_close_good _ _ _ _ _ _ Hok Hal Hfuel) as (s1 & Hop1 & Hg). rewrite Hop in Hop1. by simplify_eq.
  - destruct (writer_close_good _ _ _ _ _ _ Hok Hal Hfuel) as (s1 & Hop1 & Hg). rewrite Hop in Hop1. by simplify_eq.
  - by eapply store_good.
  - destruct Hk as [Hkv Hkp]. exists a, b. pose proof (so_queues _ _ _ Hok) as Hq. apply stream_ok_kern; [done|done|].
    intros t [->| ->]; [apply (Hkp Rd)|apply (Hkp Wr)]; by destruct Hq as [[] [] ? ? ? ?].
Qed.

Lemma start_good k m nb : kinv k -> good (World (pipe k m nb) Idle Idle [] []).
Proof.
  intros Hk. exists None, None. constructor; simpl; try done; [|by left].
  constructor; try done; [|by intros t [|]..]. naive_solver.
Qed.

Lemma reachable_good w : (2 <= fuel)%nat -> reachable w -> good w.
Proof. intros Hf. induction 1; [by apply start_good|by eapply step_good]. Qed.
End Threads.

(** ** Two defects of the code *)

Section Defects.
Context {K : Type} `{!PipeServices K}.
Implicit Types (s : st K).

Lemma add_request_fields s sd t r : let s' := add_request s sd t r in
  waithead (ends s' sd) = Some (default t (waithead (ends s sd)))
  /\ waittail (ends s' sd) = Some (default t (waittail (ends s sd)))
  /\ next s' = (match waittail (ends s sd) with Some w => <[w := Some t]> (<[t := None]> (next s)) | None => <[t := None]> (next s) end).
Proof.
  unfold add_request. cbv zeta. set (s1 := set_next _ _ _). change (ends s) with (ends s1).
  change (<[t := None]> (next s)) with (next s1). clearbody s1. clear s.
  destruct (waittail (ends s1 sd)) as [w|] eqn:Ht.
  - change (waithead (ends (set_next s1 w (Some t)) sd)) with (waithead (ends s1 sd)).
    destruct (waithead (ends s1 sd)) as [h|] eqn:Hh; [done|].
    unfold set_waithead. by rewrite !ends_set_end, !decide_True.
  - set (s2 := set_waittail s1 sd (Some t)).
    assert (Hw2 : waithead (ends s2 sd) = waithead (ends s1 sd) /\ waittail (ends s2 sd) = Some t /\ next s2 = next s1)
      by (unfold s2, set_waittail; by rewrite ends_set_end, decide_True).
    clearbody s2. destruct Hw2 as (Hw2 & Ht2 & Hn2). rewrite Hw2.
    destruct (waithead (ends s1 sd)) as [h|] eqn:Hh; [by rewrite Hw2|].
    unfold set_waithead. by rewrite !ends_set_end, !decide_True.
Qed.

(** [waittail] stays at the first request, so that a third one replaces the second: its
    thread is never woken. *)
Lemma third_waiter_lost s sd t1 t2 t3 r1 r2 r3 : waithead (ends s sd) = None -> waittail (ends s sd) = None ->
  NoDup [t1; t2; t3] ->
  let s' := add_request (add_request (add_request s sd t1 r1) sd t2 r2) sd t3 r3 in
  waithead (ends s' sd) = Some t1 /\ next s' t1 = Some t3 /\ next s' t3 = None.
Proof.
  intros Hh Ht Hnd. assert (Hne : t1 <> t2 /\ t1 <> t3 /\ t2 <> t3).
  { apply NoDup_cons in Hnd as [H1 Hnd]. apply NoDup_cons in Hnd as [H2 _]. set_solver. }
  destruct Hne as (H12 & H13 & H23). cbv zeta.
  destruct (add_request_fields s sd t1 r1) as (Hh1 & Ht1 & Hn1). set (s1 := add_request s sd t1 r1) in *. clearbody s1.
  destruct (add_request_fields s1 sd t2 r2) as (Hh2 & Ht2 & Hn2). set (s2 := add_request s1 sd t2 r2) in *. clearbody s2.
  destruct (add_request_fields s2 sd t3 r3) as (-> & _ & ->).
  rewrite Hh2, Hh1, Ht2, Ht1, Hh, Ht. simpl. split; [done|]. rewrite fn_lookup_insert. split; [done|].
  rewrite fn_lookup_insert_ne, fn_lookup_insert by done. done.
Qed.

(** A reader that was interrupted, but has not run yet, still gets data: it returns
    -EINTR, and the data is gone although the write succeeds. *)
Lemma interrupted_read_loses s t u data n f : queues s Rd (Some u) None -> area data n -> peer (ends s Wr) = true ->
  area (buffer (reqs s u)) (size (reqs s u)) -> n <= size (reqs s u) -> alive (ends s Rd) = true ->
  exists s1 s2, pipefs_write (S f) s t data n = Ret (Done n, s1) /\ finish_read f s1 u (- EINTR) = Ret (- EINTR, s2)
    /\ waithead (ends s2 Wr) = None.
Proof.
  intros Hq Ha Hp Hb Hle Hal. destruct (write_served s u n data f t Hq Ha Hp Hb) as (s1 & Hw & _ & Hf & _ & Hq1 & _).
  rewrite (proj2 (Z.leb_le _ _) Hle) in Hw. exists s1, (set_rc s1 u (- EINTR)). split; [done|]. unfold finish_read, finish_wait.
  change (- EINTR <? 0) with true. unfold cancel_request. rewrite (f_alive _ _ Hf), Hal, (proj1 (q_this _ _ _ _ Hq1)). cbn [negb obind].
  rewrite reqs_set_rc, decide_True by done. split; [done|]. apply (q_other _ _ _ _ Hq1).
Qed.
End Defects.

(** ** The properties *)

Section Claims.
Context {K : Type} `{!PipeServices K}.
Implicit Types (s : st K).


End Claims.

(** ** Witnesses

    A kernel that does nothing; thread 1 writes three bytes and sleeps, thread 2 reads two of
    them, then the rest. *)

#[local] Instance quiet : PipeServices unit := {
  kinv _ := True;
  parked _ _ := True;
  mark_ready _ _ := Ret tt;
  set_event_of _ _ _ := Ret tt;
  clear_event_of _ _ _ := tt;
  mark_ready_ok _ _ _ _ := ex_intro _ tt (conj eq_refl (conj I (fun _ _ _ => I)));
  set_event_ok _ _ _ _ := ex_intro _ tt (conj eq_refl (conj I (fun _ _ => I)));
  clear_event_ok _ _ _ _ := conj I (fun _ _ => I);
}.

Definition ex_mem : Z -> Z := fun a => if (4096 <=? a) && (a <? 4099) then a - 4096 + 65 else 0.
Definition ex_pipe : st unit := pipe tt ex_mem (fun _ => false).
Definition ex_blocked : st unit :=
  match pipefs_write 2 ex_pipe 1 4096 3 with Ret (_, s) => s | _ => ex_pipe end.
Definition ex_world : world := World (set_kern ex_blocked tt) Idle (In 1 4096 3) [] (bytes ex_mem 4096 3).

Lemma ex_reachable : reachable 2 ex_world.
Proof.
  eapply reach_step; [by apply (reach_start 2 tt ex_mem (fun _ => false))|].
  eapply (write_sleeps 2 ex_pipe Idle [] [] 1%nat 4096 3 ex_blocked tt); [done|unfold area; lia|done|reflexivity|done].
Qed.


