(* ===== verification/Iomux.v ===== *)
(** * Iomux: I/O events and multiplexers, src/src/sys/krnl/iomux.c

    A file or socket collects events; it can be queued at one multiplexer, in the ready list
    when a monitored event is signaled and in the waiting list otherwise, and a thread that
    waits for the multiplexer gets a ready object.  An object that is at no multiplexer is
    signaled itself when there is something to read.  [detach_ioobject] and
    [dequeue_event_from_iomux] are in Object.v, where waits use them.

    The instance at the end gives pipes ([PipeServices]) the scheduler and the events. *)

From stdpp Require Import functions.
From S2P Require Import Prelude Dlist Sched Object Services Pipe.
Local Open Scope krlean_scope.

(** [ISIOOBJECT] *)
Definition is_ioobject (b : obj) : bool := (otype b =? OBJECT_FILE) || (otype b =? OBJECT_SOCKET).

Fixpoint dispatch_loop (fuel : nat) (k : kernel) (m : oid) (iob : option oid) (wb : option wbid) : outcome kernel :=
  match iob, wb with
  | Some i, Some b =>
      match fuel with
      | O => Diverge
      | S fuel =>
          let wb_next := nx (waitlinks k) b in
          let t := w_thread (wbs k b) in
          '(ready, k) <~ thread_ready_to_run k t;
          if (ready : bool) then
            let k := set_waitkey k t (context (objs k i)) in
            let k := detach_ioobject k i in
            k <~ release_thread k t;
            dispatch_loop fuel k m (first (mux_ready (objs k m))) wb_next
          else dispatch_loop fuel k m (Some i) wb_next
      end
  | _, _ => Ret k
  end.

Definition release_waiting_threads (fuel : nat) (k : kernel) (m : oid) : outcome kernel :=
  dispatch_loop fuel k m (first (mux_ready (objs k m))) (first (waitq (objs k m))).

Definition init_iomux (k : kernel) (m : oid) : kernel :=
  let k := init_object k m OBJECT_IOMUX in
  set_obj k m (fun b => o_mux_waiting (o_mux_ready b no_ends) no_ends).

Definition init_ioobject (k : kernel) (o : oid) (type : Z) : kernel :=
  let k := init_object k o type in
  let k := set_obj k o (fun b => o_events_monitored (o_events_signaled (o_context (o_mux_of b None) 0) 0) 0) in
  with_muxlinks k (set_pv (set_nx (muxlinks k) o None) o None).

(** [iob->iomux = NULL; iob->next = NULL; iob->prev = NULL] along a list. *)
Fixpoint drop_loop (fuel : nat) (k : kernel) (iob : option oid) : outcome kernel :=
  match iob, fuel with
  | None, _ => Ret k
  | Some _, O => Diverge
  | Some i, S fuel =>
      let next := nx (muxlinks k) i in
      let k := set_obj k i (fun b => o_mux_of b None) in
      drop_loop fuel (with_muxlinks k (set_pv (set_nx (muxlinks k) i None) i None)) next
  end.

Definition close_iomux (fuel : nat) (k : kernel) (m : oid) : outcome kernel :=
  k <~ drop_loop fuel k (first (mux_ready (objs k m)));
  drop_loop fuel k (first (mux_waiting (objs k m))).

(** The object at the end of the ready list, or of the waiting list. *)
Definition append_ready (k : kernel) (m o : oid) : kernel :=
  let '(l, q) := dl_append (muxlinks k) (mux_ready (objs k m)) o in
  set_signaled (set_obj (with_muxlinks k l) m (fun b => o_mux_ready b q)) m 1.

Definition append_waiting (k : kernel) (m o : oid) : kernel :=
  let '(l, q) := dl_append (muxlinks k) (mux_waiting (objs k m)) o in
  set_obj (with_muxlinks k l) m (fun b => o_mux_waiting b q).

Definition queue_ioobject (fuel : nat) (k : kernel) (m o : oid) (events ctx : Z) : outcome (Z * kernel) :=
  let b := objs k o in
  if negb (is_ioobject b) then Ret (- EBADF, k)
  else if events =? 0 then Ret (- EINVAL, k)
  else if (match mux_of b with Some m' => negb (bool_decide (m' = m)) | None => false end) then Ret (- EPERM, k)
  else
    let '(events, k) := match mux_of b with
                        | Some _ => (Z.lor events (events_monitored b), detach_ioobject k o)
                        | None => (events, k)
                        end in
    let k := set_obj k o (fun b => o_context (o_events_monitored (o_mux_of b (Some m)) events) ctx) in
    let k := if io_ready (objs k o) then append_ready k m o else append_waiting k m o in
    k <~ (if truthy (signaled (objs k o)) then release_waiting_threads fuel k m else Ret k);
    Ret (0, k).

Definition set_io_event (fuel : nat) (k : kernel) (o : oid) (events : Z) : outcome kernel :=
  let b := objs k o in
  let add b := o_events_signaled b (Z.lor (events_signaled b) events) in
  match mux_of b with
  | Some m =>
      if negb (io_ready b) && truthy (Z.land (events_monitored b) events) then
        let k := set_obj k o add in
        let '(l, q) := dl_remove (muxlinks k) (mux_waiting (objs k m)) o in
        let k := set_obj (with_muxlinks k l) m (fun b => o_mux_waiting b q) in
        release_waiting_threads fuel (append_ready k m o) m
      else Ret (set_obj k o add)
  | None =>
      let k := set_obj k o add in
      if truthy (Z.land (events_signaled (objs k o)) IOEVT_READ) then release_waiters fuel (set_signaled k o 1) o 0
      else Ret k
  end.

Definition clear_io_event (k : kernel) (o : oid) (events : Z) : kernel :=
  let k := set_obj k o (fun b => o_events_signaled b (Z.land (events_signaled b) (Z.lnot events))) in
  if truthy (Z.land (events_signaled (objs k o)) IOEVT_READ) then k else set_signaled k o 0.

(** ** The lists of a multiplexer

    [mux_ok k m R N]: the objects [R] are in the ready list and [N] in the waiting list. *)

Record mux_ok (k : kernel) (m : oid) (R N : list oid) : Prop := {
  mx_ready : dl (muxlinks k) (mux_ready (objs k m)) R;
  mx_waiting : dl (muxlinks k) (mux_waiting (objs k m)) N;
  mx_apart : NoDup (R ++ N);
  mx_in : forall o, o ∈ R ++ N -> mux_of (objs k o) = Some m;
  mx_events : (forall o, o ∈ R -> io_ready (objs k o) = true) /\ (forall o, o ∈ N -> io_ready (objs k o) = false);
  mx_signaled : signaled (objs k m) = (if decide (R = []) then 0 else 1);
  mx_self : m ∉ R ++ N;
}.

(** [clear_io_event] leaves an object in the ready list that has no monitored event left;
    taking it out then clears the wrong list, so that the multiplexer keeps a pointer to an
    object that is not attached to it. *)
Lemma clear_then_detach k m o events : mux_ok k m [o] [] ->
  Z.land (events_monitored (objs k o)) (Z.land (events_signaled (objs k o)) (Z.lnot events)) = 0 ->
  let k' := detach_ioobject (clear_io_event k o events) o in
  mux_of (objs k' o) = None /\ first (mux_ready (objs k' m)) = Some o.
Proof.
  intros [Hr Hw Ha Hin _ _ Hself] Hev. assert (Hmo : m <> o) by set_solver.
  assert (Hom : mux_of (objs k o) = Some m) by (apply Hin; set_solver).
  set (k1 := clear_io_event k o events).
  assert (H1 : mux_of (objs k1 o) = Some m /\ io_ready (objs k1 o) = false /\ objs k1 m = objs k m /\ muxlinks k1 = muxlinks k).
  { unfold k1, clear_io_event. set (k2 := set_obj k o _).
    assert (H2 : mux_of (objs k2 o) = Some m /\ io_ready (objs k2 o) = false /\ objs k2 m = objs k m /\ muxlinks k2 = muxlinks k).
    { unfold k2, io_ready. rewrite !objs_set_obj, decide_True, decide_False by done. cbn [mux_of events_monitored events_signaled o_events_signaled].
      by rewrite Hev. }
    destruct (truthy _); [done|]. unfold set_signaled, io_ready. rewrite !objs_set_obj, decide_True, decide_False by done. exact H2. }
  clearbody k1. destruct H1 as (H1 & H2 & H3 & H4). cbv zeta. unfold detach_ioobject. rewrite H1, H2, H3, H4.
  pose proof (dl_first _ _ _ Hr) as Hfr. simpl in Hfr.
  destruct (dl_remove (muxlinks k) (mux_waiting (objs k m)) o) as [l q].
  set (k3 := set_obj (set_obj _ _ _) _ _).
  assert (H5 : mux_of (objs k3 o) = None /\ first (mux_ready (objs k3 m)) = Some o).
  { unfold k3. split; rewrite objs_set_obj; [by rewrite decide_True|].
    rewrite decide_False, objs_set_obj, decide_True by done. cbn [with_muxlinks objs mux_ready o_mux_waiting]. by rewrite H3. }
  exact H5.
Qed.

(** ** Pipes on the kernel of Object.v

    The files of the two ends, which are not at a multiplexer, have at most [fuel] waiters. *)

Section Kernel.
Context (file : side -> oid) (fuel : nat).

Record pipes_ok (k : kernel) (W : nat -> list wbid) (Q : oid -> list wbid) : Prop := {
  po_waits : waits k W Q;
  po_wakeable : wakeable k W;
  po_nodup : forall sd, NoDup (waiters k Q (file sd));
  po_fuel : forall sd, (length (Q (file sd)) <= fuel)%nat;
  po_free : forall sd, mux_of (objs k (file sd)) = None;
}.

(** A thread that waits for nothing but the pipe, or was interrupted there. *)
Definition k_parked (k : kernel) (t : nat) : Prop :=
  waitlist k t = None /\
  (state (thr (sch k) t) = THREAD_STATE_READY -> truthy (Z.land (flags (thr (sch k) t)) THREAD_INTERRUPTED) = true).

Definition k_mark_ready (k : kernel) (t : nat) : outcome kernel :=
  s <~ mark_thread_ready (sch k) t 1 2; Ret (with_sch k s).

Lemma k_mark_ready_ok k t : (exists W Q, pipes_ok k W Q) -> k_parked k t ->
  exists k', k_mark_ready k t = Ret k' /\ (exists W Q, pipes_ok k' W Q)
    /\ forall t', t' <> t -> k_parked k t' -> k_parked k' t'.
Proof.
  intros (W & Q & [Hw [Hr Hk] Hn Hf Hm]) [Hwl Hst]. unfold k_mark_ready.
  destruct (mark_ready_total (sch k) t 1 2 Hr Hst) as (s & -> & Hr' & Ho & _). cbn [obind].
  eexists. split; [reflexivity|]. split.
  - exists W, Q. split; [|split; [exact Hr'|]|exact Hn|exact Hf|exact Hm].
    + by apply waits_with_sch.
    + intros t' Hst'. cbn [with_sch sch] in Hst' |- *. destruct (decide (t' = t)) as [->|Hne].
      * left. by apply (no_blocks _ _ _ _ Hw).
      * rewrite (only_thr _ _ _ Ho) in Hst' |- * by done. by apply Hk.
  - intros t' Hne [Hwl' Hst']. split; [exact Hwl'|]. cbn [with_sch sch]. by rewrite (only_thr _ _ _ Ho).
Qed.

(** Stores to an object that keep wait lists and the multiplexer. *)
Lemma pipes_ok_set_obj k W Q o f : keeps_waitq f -> (forall b, mux_of (f b) = mux_of b) ->
  pipes_ok k W Q -> pipes_ok (set_obj k o f) W Q.
Proof.
  intros Hf Hx [Hw Hk Hn Hl Hm]. split; [by apply waits_set_obj|exact Hk|exact Hn|exact Hl|].
  intros sd. rewrite objs_set_obj. case_decide as Hd; [rewrite Hx, <- Hd; apply Hm|apply Hm].
Qed.

Lemma k_set_event_ok k sd ev : (exists W Q, pipes_ok k W Q) ->
  exists k', set_io_event fuel k (file sd) ev = Ret k' /\ (exists W Q, pipes_ok k' W Q)
    /\ forall t, k_parked k t -> k_parked k' t.
Proof.
  intros (W & Q & Hok). unfold set_io_event. rewrite (po_free _ _ _ Hok). cbv zeta.
  set (k1 := set_obj k (file sd) _).
  assert (Hok1 : pipes_ok k1 W Q) by (by apply pipes_ok_set_obj).
  destruct (truthy _); [|exists k1; split; [done|]; split; [by exists W, Q|done]].
  pose proof Hok1 as [Hw Hk Hn Hf Hm].
  destruct (wake_all_spec k1 W Q Hw Hk (file sd) (Hn sd) fuel 0 (Hf sd)) as (k' & Hr & Hk').
  exists k'. split; [exact Hr|].
  destruct (woke_keeps _ _ _ _ _ _ _ Hw Hk Hk') as (W' & Q' & Hw' & Hwk & Hnd & Hlen & Hsame). split.
  - exists W', Q'. split; [done|done|intros sd'; by apply Hnd|intros sd'; specialize (Hlen (file sd')); specialize (Hf sd'); lia|].
    intros sd'. destruct (woke_obj _ _ _ _ _ _ _ (file sd') Hk') as [q ->]. simpl.
    destruct (decide (file sd' = file sd)) as [Hd|Hd]; [rewrite Hd, fn_lookup_insert; apply (Hm sd)|].
    rewrite fn_lookup_insert_ne by done. apply Hm.
  - intros t [Hwl Hst]. change (waitlist k t) with (waitlist k1 t) in Hwl.
    assert (HWt : W t = []) by (by apply (no_blocks _ _ _ _ Hw)).
    assert (Ht : t ∉ runners k1 W Q (<[file sd := o_signaled (objs k1 (file sd)) 1]> (objs k1)) (file sd))
      by (intros Ht; by apply (runners_wait k1 W Q _ _ _ Hw Ht)).
    split; [apply (no_blocks _ _ _ _ Hw'); by rewrite Hsame|]. by rewrite (wk_sch _ _ _ _ _ _ _ Hk').
Qed.

Lemma k_clear_event_ok k sd ev : (exists W Q, pipes_ok k W Q) ->
  (exists W Q, pipes_ok (clear_io_event k (file sd) ev) W Q) /\ forall t, k_parked k t -> k_parked (clear_io_event k (file sd) ev) t.
Proof.
  intros (W & Q & Hok). unfold clear_io_event. set (k1 := set_obj k _ _).
  assert (Hok1 : pipes_ok k1 W Q) by (by apply pipes_ok_set_obj).
  destruct (truthy _); (split; [exists W, Q|done]); [done|]. by apply pipes_ok_set_obj.
Qed.

#[export] Instance pipe_services : PipeServices kernel := {
  kinv k := exists W Q, pipes_ok k W Q;
  parked := k_parked;
  mark_ready := k_mark_ready;
  set_event_of k sd := set_io_event fuel k (file sd);
  clear_event_of k sd := clear_io_event k (file sd);
  mark_ready_ok := k_mark_ready_ok;
  set_event_ok := k_set_event_ok;
  clear_event_ok := k_clear_event_ok;
}.
End Kernel.
