(* ===== verification/Hash.v ===== *)
(** * Hash: hash tables, src/src/lib/hash.c

    A table is an array of chains; a chain is the list of its nodes from the pointer in the
    table on.  [alloc_ok] says whether malloc succeeds.  Data are addresses, 0 is NULL.  For
    a table of more than 2^29 chains the size that is asked of malloc wraps around; the
    theorems are about smaller ones. *)

From S2P Require Import Prelude.
Local Open Scope krlean_scope.

Record hash_node := HashNode { key : Z; data : Z }.
Record hash := Hash { hashsize : Z; hashmask : Z; buckets : list (list hash_node) }.

Definition hashidx (k mask : Z) : Z := Z.land (Z.lxor (Z.lxor k (Z.shiftr k 2)) (Z.shiftr k 6)) mask.

(** [while (hashsize > hashlim) { i++; hashlim <<= 1; }] *)
Fixpoint size_loop (fuel : nat) (n hashlim : Z) : outcome Z :=
  if hashlim <? n then
    match fuel with O => Diverge | S fuel => size_loop fuel n (s32 (2 * hashlim)) end
  else Ret hashlim.

Definition hash_alloc (alloc_ok : bool) (n : Z) : outcome (option hash) :=
  hashlim <~ size_loop 30 n 8;
  Ret (if alloc_ok then Some (Hash hashlim (hashlim - 1) (replicate (Z.to_nat hashlim) [])) else None).

Definition bucket (h : hash) (idx : Z) : outcome (list hash_node) := deref (buckets h !! Z.to_nat idx).
Definition set_bucket (h : hash) (idx : Z) (l : list hash_node) : hash :=
  Hash (hashsize h) (hashmask h) (<[Z.to_nat idx := l]> (buckets h)).

Definition hash_insert (h : option hash) (alloc_ok : bool) (k val : Z) : outcome (Z * option hash) :=
  match h with
  | None => Ret (- EINVAL, None)
  | Some h =>
      let idx := hashidx k (hashmask h) in
      if negb alloc_ok then Ret (- ENOMEM, Some h)
      else l <~ bucket h idx; Ret (0, Some (set_bucket h idx (HashNode k val :: l)))
  end.

(** The chain without the first node with key [k]. *)
Fixpoint patch_out (k : Z) (l : list hash_node) : option (list hash_node) :=
  match l with
  | [] => None
  | hn :: l => if key hn =? k then Some l else (fun l => hn :: l) <$> patch_out k l
  end.

Definition hash_delete (h : option hash) (k : Z) : outcome (Z * option hash) :=
  match h with
  | None => Ret (- EINVAL, None)
  | Some h =>
      let idx := hashidx k (hashmask h) in
      l <~ bucket h idx;
      match patch_out k l with
      | Some l => Ret (0, Some (set_bucket h idx l))
      | None => Ret (- ESRCH, Some h)
      end
  end.

Fixpoint find_node (k : Z) (l : list hash_node) : Z :=
  match l with [] => 0 | hn :: l => if key hn =? k then data hn else find_node k l end.

Definition hash_lookup (h : option hash) (k : Z) : outcome Z :=
  match h with
  | None => Ret 0
  | Some h => l <~ bucket h (hashidx k (hashmask h)); Ret (find_node k l)
  end.

(** [for (x = 0; x < h->hashsize; x++) for (hn = h->buckets[x]; hn; hn = hn->next)] *)
Fixpoint count_chain (cnt : Z) (l : list hash_node) : Z :=
  match l with [] => cnt | _ :: l => count_chain (s32 (cnt + 1)) l end.
Fixpoint size_from (n : nat) (h : hash) (x cnt : Z) : outcome Z :=
  match n with
  | O => Ret cnt
  | S n => l <~ bucket h x; size_from n h (x + 1) (count_chain cnt l)
  end.
Definition hash_size (h : hash) : outcome Z := size_from (Z.to_nat (hashsize h)) h 0 0.

Section Foreach.
(** The function that is called gets a state and gives the result that may end the walk. *)
Context {S : Type} (f : Z -> Z -> S -> Z * S).

(** The key is an [int] for the function. *)
Fixpoint each_node (l : list hash_node) (s : S) : Z * S :=
  match l with
  | [] => (0, s)
  | hn :: l => let '(rc, s) := f (s32 (key hn)) (data hn) s in if truthy rc then (rc, s) else each_node l s
  end.
Fixpoint each_from (n : nat) (h : hash) (x : Z) (s : S) : outcome (Z * S) :=
  match n with
  | O => Ret (0, s)
  | Datatypes.S n =>
      l <~ bucket h x;
      let '(rc, s) := each_node l s in
      if truthy rc then Ret (rc, s) else each_from n h (x + 1) s
  end.
Definition hash_foreach (h : hash) (s : S) : outcome (Z * S) := each_from (Z.to_nat (hashsize h)) h 0 s.
End Foreach.

(** ** Tables as multimaps

    [entries h k]: the data under the key [k], the newest first. *)

Definition nodes (h : hash) : list hash_node := concat (buckets h).
Definition with_key (k : Z) (l : list hash_node) : list Z := data <$> filter (fun hn => key hn = k) l.
Definition entries (h : hash) (k : Z) : list Z := with_key k (nodes h).

Record hash_ok (h : hash) : Prop := {
  ho_size : exists n, 0 <= n <= 30 /\ hashsize h = 2 ^ n;
  ho_mask : hashmask h = hashsize h - 1;
  ho_len : Z.of_nat (length (buckets h)) = hashsize h;
  ho_keys : forall i l hn, buckets h !! i = Some l -> hn ∈ l -> hashidx (key hn) (hashmask h) = Z.of_nat i;
}.

Lemma hashidx_range h k : hash_ok h -> exists l, 0 <= hashidx k (hashmask h) < hashsize h
  /\ buckets h !! Z.to_nat (hashidx k (hashmask h)) = Some l.
Proof.
  intros [(n & Hn & Hs) Hm Hl _]. assert (Hr : 0 <= hashidx k (hashmask h) < hashsize h).
  { unfold hashidx. rewrite Hm, Hs. replace (2 ^ n - 1) with (Z.ones n) by (rewrite Z.ones_equiv; lia).
    rewrite Z.land_ones by lia. apply Z.mod_pos_bound. lia. }
  destruct (lookup_lt_is_Some_2 (buckets h) (Z.to_nat (hashidx k (hashmask h)))) as [l Hb]; [lia|].
  by exists l.
Qed.

Lemma with_key_app k l l' : with_key k (l ++ l') = with_key k l ++ with_key k l'.
Proof. unfold with_key. by rewrite filter_app, fmap_app. Qed.

Lemma with_key_none k l : (forall hn, hn ∈ l -> key hn <> k) -> with_key k l = [].
Proof.
  intros Hl. unfold with_key. replace (filter _ l) with ([] : list hash_node); [done|]. symmetry.
  induction l as [|hn l IH]; [done|]. rewrite filter_cons_False by (apply Hl; left).
  apply IH. intros hn' Hn. apply Hl. by right.
Qed.

(** All data under a key is in its bucket. *)
Lemma entries_bucket h k l : hash_ok h -> buckets h !! Z.to_nat (hashidx k (hashmask h)) = Some l -> entries h k = with_key k l.
Proof.
  intros Hok Hb. destruct (hashidx_range h k Hok) as (_ & Hr & _). set (i := Z.to_nat (hashidx k (hashmask h))) in *.
  unfold entries, nodes. rewrite <- (take_drop_middle _ _ _ Hb), concat_app. simpl.
  rewrite !with_key_app, (with_key_none k (concat (take i _))), (with_key_none k (concat (drop (S i) _))), app_nil_r; [done|..];
    intros hn Hin Hk; apply list_elem_of_In, in_concat in Hin as (l' & Hl'%list_elem_of_In & Hhn%list_elem_of_In);
    apply list_elem_of_lookup_1 in Hl' as (j & Hj).
  - rewrite lookup_drop in Hj. pose proof (ho_keys _ Hok _ _ _ Hj Hhn) as Hkey. rewrite Hk in Hkey. lia.
  - apply lookup_take_Some in Hj as [Hj Hji]. pose proof (ho_keys _ Hok _ _ _ Hj Hhn) as Hkey. rewrite Hk in Hkey. lia.
Qed.

Lemma find_node_spec k l : find_node k l = default 0 (head (with_key k l)).
Proof.
  unfold with_key. induction l as [|hn l IH]; [done|]. simpl. destruct (Z.eqb_spec (key hn) k) as [He|He].
  - by rewrite filter_cons_True.
  - by rewrite filter_cons_False.
Qed.

Lemma patch_out_spec k l : match patch_out k l with
  | Some l' => with_key k l <> [] /\ (forall k', with_key k' l' = if decide (k' = k) then tail (with_key k l) else with_key k' l)
      /\ length l = S (length l') /\ (forall hn, hn ∈ l' -> hn ∈ l)
  | None => with_key k l = []
  end.
Proof.
  unfold with_key. induction l as [|hn l IH]; [done|]. simpl. destruct (Z.eqb_spec (key hn) k) as [He|He].
  - rewrite filter_cons_True by done. split; [done|]. split; [|split; [done|intros; by right]].
    intros k'. case_decide as Hk; [by subst|]. by rewrite filter_cons_False by congruence.
  - destruct (patch_out k l) as [l'|] eqn:Hp; simpl.
    + destruct IH as (Hn & Ht & Hl & Hs). rewrite (filter_cons_False _ hn) by done. split; [done|]. split; [|split; [lia|set_solver]].
      intros k'. case_decide as Hk.
      * subst k'. rewrite filter_cons_False by done. specialize (Ht k). by rewrite decide_True in Ht.
      * specialize (Ht k'). rewrite decide_False in Ht by done.
        destruct (decide (key hn = k')) as [Hk'|Hk']; [rewrite !filter_cons_True by done; by rewrite !fmap_cons, Ht|by rewrite !filter_cons_False by done].
    + by rewrite filter_cons_False.
Qed.

(** A bucket with other nodes, all of which belong there. *)
Lemma set_bucket_spec h i l l' : hash_ok h -> buckets h !! i = Some l ->
  (forall hn, hn ∈ l' -> hashidx (key hn) (hashmask h) = Z.of_nat i) ->
  let h' := set_bucket h (Z.of_nat i) l' in
  hash_ok h' /\ (forall k, entries h' k = if decide (hashidx k (hashmask h) = Z.of_nat i) then with_key k l' else entries h k)
  /\ (length (nodes h') + length l = length (nodes h) + length l')%nat.
Proof.
  intros Hok Hi Hl' h'. pose proof (lookup_lt_Some _ _ _ Hi) as Hlt.
  assert (Hb : buckets h' = <[i := l']> (buckets h)) by (unfold h', set_bucket; simpl; by rewrite Nat2Z.id).
  assert (Hok' : hash_ok h').
  { destruct Hok as [Hs Hm Hl Hk]. constructor; [done|done|by rewrite Hb, length_insert|]. rewrite Hb. intros j m hn Hj Hhn.
    destruct (decide (j = i)) as [->|Hne]; [rewrite list_lookup_insert_eq in Hj by done; simplify_eq; by apply Hl'|].
    rewrite list_lookup_insert_ne in Hj by done. by eapply Hk. }
  split; [done|]. split.
  - intros k. destruct (hashidx_range h k Hok) as (m & Hr & Hm). case_decide as Hd.
    + apply entries_bucket; [done|]. change (hashmask h') with (hashmask h). rewrite Hd, Nat2Z.id, Hb. by apply list_lookup_insert_eq.
    + rewrite (entries_bucket h k m) by done. apply entries_bucket; [done|]. change (hashmask h') with (hashmask h).
      rewrite Hb, list_lookup_insert_ne; [done|]. intros He. apply Hd. lia.
  - unfold nodes. rewrite Hb, insert_take_drop by done. rewrite <- (take_drop_middle _ _ _ Hi) at 3.
    rewrite !concat_app. simpl. rewrite !length_app. lia.
Qed.

Lemma size_loop_spec fuel n m : (3 <= m <= 30)%nat -> (30 <= fuel + m)%nat -> n <= 2 ^ 30 ->
  exists r, size_loop fuel n (2 ^ Z.of_nat m) = Ret (2 ^ r) /\ 3 <= r <= 30 /\ n <= 2 ^ r
    /\ (r <= Z.of_nat m \/ 2 ^ r < 2 * n).
Proof.
  revert m. induction fuel as [|fuel IH]; intros m Hm Hf Hn; cbn [size_loop];
    destruct (Z.ltb_spec (2 ^ Z.of_nat m) n) as [Hlt|Hge];
    try (exists (Z.of_nat m); split_and!; (done || lia)).
  - assert (m = 30)%nat as -> by lia. change (2 ^ Z.of_nat 30) with (2 ^ 30) in Hlt. lia.
  - assert (Hm30 : (m < 30)%nat).
    { destruct (decide (m = 30%nat)) as [->|]; [|lia]. change (2 ^ Z.of_nat 30) with (2 ^ 30) in Hlt. lia. }
    assert (Hp : 2 * 2 ^ Z.of_nat m = 2 ^ Z.of_nat (S m)) by (rewrite Nat2Z.inj_succ, Z.pow_succ_r; lia).
    assert (Hb : 0 < 2 ^ Z.of_nat (S m) <= 2 ^ 30) by (split; [lia|apply Z.pow_le_mono_r; lia]).
    rewrite Hp, s32_small by (unfold is_s32; lia). destruct (IH (S m)) as (r & -> & Hr & Hnr & Hor); [lia..|].
    exists r. split; [done|]. split; [done|]. split; [done|]. right. destruct Hor as [Hor|]; [|done].
    assert (2 ^ r <= 2 ^ Z.of_nat (S m)) by (apply Z.pow_le_mono_r; lia). lia.
Qed.

(** ** Walking over the table *)

Lemma bucket_at h x : hash_ok h -> 0 <= x < hashsize h -> exists l, bucket h x = Ret l /\ buckets h !! Z.to_nat x = Some l.
Proof.
  intros Hok Hx. destruct (lookup_lt_is_Some_2 (buckets h) (Z.to_nat x)) as [l Hl]; [pose proof (ho_len _ Hok); lia|].
  exists l. unfold bucket. by rewrite Hl.
Qed.

Lemma count_chain_spec l cnt : 0 <= cnt -> cnt + Z.of_nat (length l) < 2 ^ 31 -> count_chain cnt l = cnt + Z.of_nat (length l).
Proof.
  revert cnt. induction l as [|hn l IH]; intros cnt H0 Hmax; simpl in *; [lia|].
  rewrite s32_small by (unfold is_s32; lia). rewrite IH; lia.
Qed.

Lemma drop_bucket h x l : buckets h !! Z.to_nat x = Some l -> 0 <= x ->
  concat (drop (Z.to_nat x) (buckets h)) = l ++ concat (drop (Z.to_nat (x + 1)) (buckets h)).
Proof. intros Hl Hx. rewrite (drop_S _ _ _ Hl). simpl. by replace (Z.to_nat (x + 1)) with (S (Z.to_nat x)) by lia. Qed.

Lemma size_from_spec h n x cnt : hash_ok h -> 0 <= x -> x + Z.of_nat n = hashsize h -> 0 <= cnt ->
  cnt + Z.of_nat (length (concat (drop (Z.to_nat x) (buckets h)))) < 2 ^ 31 ->
  size_from n h x cnt = Ret (cnt + Z.of_nat (length (concat (drop (Z.to_nat x) (buckets h))))).
Proof.
  intros Hok. revert x cnt. induction n as [|n IH]; intros x cnt Hx Hn Hc Hmax; cbn [size_from].
  - rewrite drop_ge by (pose proof (ho_len _ Hok); lia). simpl. f_equal. lia.
  - destruct (bucket_at h x Hok) as (l & -> & Hl); [lia|]. cbn [obind]. rewrite (drop_bucket h x l) in * by done.
    rewrite length_app in *. rewrite count_chain_spec by lia. rewrite IH by lia. f_equal. lia.
Qed.

Section ForeachSpec.
Context {S : Type} (f : Z -> Z -> S -> Z * S).

Lemma each_node_app l l' s : each_node f (l ++ l') s =
  let '(rc, s) := each_node f l s in if truthy rc then (rc, s) else each_node f l' s.
Proof.
  revert s. induction l as [|hn l IH]; intros s; simpl; [done|]. destruct (f _ _ _) as [rc s'].
  destruct (truthy rc) eqn:Hrc; [by rewrite Hrc|]. apply IH.
Qed.

Lemma each_from_spec h n x s : hash_ok h -> 0 <= x -> x + Z.of_nat n = hashsize h ->
  each_from f n h x s = Ret (each_node f (concat (drop (Z.to_nat x) (buckets h))) s).
Proof.
  intros Hok. revert x s. induction n as [|n IH]; intros x s Hx Hn; cbn [each_from].
  - by rewrite drop_ge by (pose proof (ho_len _ Hok); lia).
  - destruct (bucket_at h x Hok) as (l & -> & Hl); [lia|]. cbn [obind]. rewrite (drop_bucket h x l) by done.
    rewrite each_node_app. destruct (each_node f l s) as [rc s']. destruct (truthy rc); [done|]. apply IH; lia.
Qed.
End ForeachSpec.

(** ** The operations *)

Lemma hash_alloc_spec n : n <= 2 ^ 30 -> exists h, hash_alloc true n = Ret (Some h) /\ hash_ok h /\ n <= hashsize h
  /\ (hashsize h = 8 \/ hashsize h < 2 * n) /\ nodes h = [].
Proof.
  intros Hn. destruct (size_loop_spec 30 n 3) as (r & Hr & Hr3 & Hnr & Hor); [lia..|]. change (2 ^ Z.of_nat 3) with 8 in Hr.
  unfold hash_alloc. rewrite Hr. cbn [obind]. eexists. split; [reflexivity|]. pose proof (Z.pow_nonneg 2 r ltac:(lia)).
  split; [constructor; simpl|].
  - exists r. lia.
  - done.
  - rewrite length_replicate. lia.
  - intros i l hn Hi Hhn. apply lookup_replicate in Hi as [-> _]. by apply elem_of_nil in Hhn.
  - split; [done|]. split; [|unfold nodes; simpl; by induction (Z.to_nat (2 ^ r))].
    destruct Hor as [Hle|]; [left|by right]. simpl. assert (r = 3) as -> by lia. done.
Qed.

Lemma hash_insert_spec h k v : hash_ok h -> exists h', hash_insert (Some h) true k v = Ret (0, Some h') /\ hash_ok h'
  /\ (forall k', entries h' k' = if decide (k' = k) then v :: entries h k else entries h k')
  /\ length (nodes h') = S (length (nodes h)).
Proof.
  intros Hok. destruct (hashidx_range h k Hok) as (l & Hr & Hl). unfold hash_insert, bucket. rewrite Hl. cbn [negb deref obind].
  destruct (set_bucket_spec h _ l (HashNode k v :: l) Hok Hl) as (Hok' & He & Hlen).
  { rewrite Z2Nat.id by lia. intros hn [->|Hhn]%elem_of_cons; [done|]. rewrite (ho_keys _ Hok _ _ _ Hl Hhn). lia. }
  rewrite Z2Nat.id in * by lia. eexists. split; [reflexivity|]. split; [done|]. split; [|simpl in Hlen; lia].
  intros k'. rewrite He. destruct (hashidx_range h k' Hok) as (l' & Hr' & Hl'). case_decide as Hi.
  - rewrite Hi in Hl'. rewrite Hl in Hl'. simplify_eq. rewrite (entries_bucket h k l'), (entries_bucket h k' l') by (done || by rewrite Hi).
    unfold with_key. case_decide as Hk; [subst; by rewrite filter_cons_True|by rewrite filter_cons_False by (simpl; congruence)].
  - rewrite decide_False by congruence. done.
Qed.

Lemma hash_delete_spec h k : hash_ok h ->
  if decide (entries h k = []) then hash_delete (Some h) k = Ret (- ESRCH, Some h)
  else exists h', hash_delete (Some h) k = Ret (0, Some h') /\ hash_ok h'
    /\ (forall k', entries h' k' = if decide (k' = k) then tail (entries h k) else entries h k')
    /\ length (nodes h) = S (length (nodes h')).
Proof.
  intros Hok. destruct (hashidx_range h k Hok) as (l & Hr & Hl). unfold hash_delete, bucket. rewrite Hl. cbn [deref obind].
  rewrite (entries_bucket h k l) by done. pose proof (patch_out_spec k l) as Hp. destruct (patch_out k l) as [l'|]; [|by rewrite decide_True].
  destruct Hp as (Hne & Ht & Hlen & Hin). rewrite decide_False by done.
  destruct (set_bucket_spec h _ l l' Hok Hl) as (Hok' & He & Hlen').
  { rewrite Z2Nat.id by lia. intros hn Hhn. rewrite (ho_keys _ Hok _ _ _ Hl (Hin hn Hhn)). lia. }
  rewrite Z2Nat.id in * by lia. eexists. split; [reflexivity|]. split; [done|]. split; [|lia].
  intros k'. rewrite He. destruct (hashidx_range h k' Hok) as (m & Hr' & Hm). case_decide as Hi.
  - rewrite Ht. case_decide; [done|]. rewrite (entries_bucket h k' l); [done..|by rewrite Hi].
  - by rewrite decide_False by congruence.
Qed.

Lemma hash_lookup_spec h k : hash_ok h -> hash_lookup (Some h) k = Ret (default 0 (head (entries h k))).
Proof.
  intros Hok. destruct (hashidx_range h k Hok) as (l & Hr & Hl). unfold hash_lookup, bucket. rewrite Hl. cbn [deref obind].
  by rewrite find_node_spec, (entries_bucket h k l).
Qed.

(** ** The properties *)

(** C34: A hash table is a multimap in which the newest entry of a key hides the older ones.
    A new table for up to 2^29 entries has as many chains as the next power of two, at least 8, and no entries;
    inserting adds an entry in front of those of its key, deleting takes the first one
    away or reports -ESRCH, looking up returns the first one or NULL; other keys are not
    disturbed, the table stays well-formed, [hash_size] counts all entries and
    [hash_foreach] visits each of them once, until the function says to stop. *)
Theorem hash_correct : 
  (forall n, n <= 2 ^ 29 -> exists h, hash_alloc true n = Ret (Some h) /\ hash_ok h /\ n <= hashsize h
    /\ (hashsize h = 8 \/ hashsize h < 2 * n) /\ nodes h = [])
  /\ (forall h k v, hash_ok h -> exists h', hash_insert (Some h) true k v = Ret (0, Some h') /\ hash_ok h'
    /\ (forall k', entries h' k' = if decide (k' = k) then v :: entries h k else entries h k')
    /\ length (nodes h') = S (length (nodes h)))
  /\ (forall h k, hash_ok h ->
    if decide (entries h k = []) then hash_delete (Some h) k = Ret (- ESRCH, Some h)
    else exists h', hash_delete (Some h) k = Ret (0, Some h') /\ hash_ok h'
      /\ (forall k', entries h' k' = if decide (k' = k) then tail (entries h k) else entries h k')
      /\ length (nodes h) = S (length (nodes h')))
  /\ (forall h k, hash_ok h -> hash_lookup (Some h) k = Ret (default 0 (head (entries h k))))
  /\ (forall h, hash_ok h -> Z.of_nat (length (nodes h)) < 2 ^ 31 -> hash_size h = Ret (Z.of_nat (length (nodes h))))
  /\ (forall (S : Type) (f : Z -> Z -> S -> Z * S) h s, hash_ok h -> hash_foreach f h s = Ret (each_node f (nodes h) s)).
Proof.
  split; [intros n Hn; apply hash_alloc_spec; lia|]. split; [exact hash_insert_spec|]. split; [exact hash_delete_spec|].
  split; [exact hash_lookup_spec|]. split.
  - intros h Hok Hmax. pose proof (ho_len _ Hok). unfold hash_size. rewrite size_from_spec; [done|done|lia..|]. exact Hmax.
  - intros S f h s Hok. pose proof (ho_len _ Hok). unfold hash_foreach. rewrite each_from_spec; [done|done|lia..].
Qed.

(** Above 2^30 the limit overflows and the search for a size never ends. *)
Lemma hash_alloc_diverges : hash_alloc true (2 ^ 30 + 1) = Diverge.
Proof. by vm_compute. Qed.

Example ex_hash : 
  (h <~ hash_alloc true 10; '(_, h) <~ hash_insert h true 3 7; '(_, h) <~ hash_insert h true 19 8;
   '(_, h) <~ hash_insert h true 3 9; '(rc, h) <~ hash_delete h 3; x <~ hash_lookup h 3; y <~ hash_lookup h 4; Ret (rc, x, y))
  = Ret (0, 7, 0).
Proof. by vm_compute. Qed.
