(* ===== verification/Fnmatch.v ===== *)
(** * Fnmatch: matching file names, src/src/lib/fnmatch.c

    A string is the list of its characters without the NUL; [cur] is the character under a
    pointer.  A pointer into the matched string is the rest of the string with the
    character before it, which is unknown at [stringstart].  A pointer to the pattern is
    the rest of the pattern; the code never moves it behind the NUL. *)

From S2P Require Import Prelude.
Local Open Scope krlean_scope.

Definition FNM_NOMATCH : Z := 1.
Definition FNM_NOESCAPE : Z := 1.
Definition FNM_PATHNAME : Z := 2.
Definition FNM_PERIOD : Z := 4.

Definition EOS : Z := 0.
Definition QUEST : Z := 63.
Definition STAR : Z := 42.
Definition LBRACKET : Z := 91.
Definition RBRACKET : Z := 93.
Definition BACKSLASH : Z := 92.
Definition SLASH : Z := 47.
Definition DOT : Z := 46.
Definition BANG : Z := 33.
Definition CARET : Z := 94.
Definition DASH : Z := 45.

Definition cur (l : list Z) : Z := default EOS (head l).
Definition has (flag flags : Z) : bool := truthy (Z.land flags flag).

(** [if (c == '\\' && !(flags & FNM_NOESCAPE)) c = *pattern++;] in a bracket. *)
Definition quote (noesc : bool) (c : Z) (pattern : list Z) : Z * list Z :=
  if (c =? BACKSLASH) && negb noesc then (cur pattern, tail pattern) else (c, pattern).

(** The loop of [rangematch]: [Some] of [ok] and the pattern behind the bracket, [None]
    where it returns NULL. *)
Fixpoint range_loop (fuel : nat) (pattern : list Z) (test flags : Z) (ok : bool) : outcome (option (bool * list Z)) :=
  match fuel with
  | O => Diverge
  | S fuel =>
      let c := cur pattern in
      let pattern := tail pattern in
      if c =? RBRACKET then Ret (Some (ok, pattern))
      else
        let '(c, pattern) := quote (has FNM_NOESCAPE flags) c pattern in
        if c =? EOS then Ret None
        else
          let c2 := cur (tail pattern) in
          if (cur pattern =? DASH) && negb (c2 =? EOS) && negb (c2 =? RBRACKET) then
            let pattern := tail (tail pattern) in
            let '(c2, pattern) := quote (has FNM_NOESCAPE flags) c2 pattern in
            if c2 =? EOS then Ret None
            else range_loop fuel pattern test flags (ok || ((c <=? test) && (test <=? c2)))
          else range_loop fuel pattern test flags (ok || (c =? test))
  end.

Definition rangematch (fuel : nat) (pattern : list Z) (test flags : Z) : outcome (option (list Z)) :=
  let negate := (cur pattern =? BANG) || (cur pattern =? CARET) in
  let pattern := if negate then tail pattern else pattern in
  r <~ range_loop fuel pattern test flags false;
  Ret (match r with
       | Some (ok, pattern) => if eqb ok negate then None else Some pattern
       | None => None
       end).

(** [while (c == '*') c = *++pattern;] *)
Fixpoint skip_stars (pattern : list Z) : list Z :=
  match pattern with c :: rest => if c =? STAR then skip_stars rest else pattern | [] => [] end.

Fixpoint strchr (prev : option Z) (s : list Z) (c : Z) : option (option Z * list Z) :=
  match s with
  | [] => None
  | x :: s' => if x =? c then Some (prev, s) else strchr (Some x) s' c
  end.

(** A leading period that only a period in the pattern matches. *)
Definition leading (prev : option Z) (string : list Z) (flags : Z) : bool :=
  (cur string =? DOT) && has FNM_PERIOD flags &&
  match prev with None => true | Some c => has FNM_PATHNAME flags && (c =? SLASH) end.

(** [while ((test = *string) != EOS)]; [match_rest] is the recursive call. *)
Fixpoint star_loop (match_rest : list Z -> outcome Z) (pathname : bool) (string : list Z) : outcome Z :=
  match string with
  | [] => Ret FNM_NOMATCH
  | test :: rest =>
      r <~ match_rest string;
      if r =? 0 then Ret 0
      else if (test =? SLASH) && pathname then Ret FNM_NOMATCH
      else star_loop match_rest pathname rest
  end.

Fixpoint fnmatch (fuel : nat) (pattern : list Z) (prev : option Z) (string : list Z) (flags : Z) : outcome Z :=
  match fuel with
  | O => Diverge
  | S fuel =>
      let c := cur pattern in
      let pattern := tail pattern in
      let next := fnmatch fuel pattern (head string) (tail string) flags in
      if c =? EOS then Ret (if cur string =? EOS then 0 else FNM_NOMATCH)
      else if c =? QUEST then
        if cur string =? EOS then Ret FNM_NOMATCH
        else if (cur string =? SLASH) && has FNM_PATHNAME flags then Ret FNM_NOMATCH
        else if leading prev string flags then Ret FNM_NOMATCH
        else next
      else if c =? STAR then
        let pattern := skip_stars pattern in
        let c := cur pattern in
        if leading prev string flags then Ret FNM_NOMATCH
        else if c =? EOS then
          Ret (if has FNM_PATHNAME flags then
                 match strchr prev string SLASH with None => 0 | Some _ => FNM_NOMATCH end
               else 0)
        else if (c =? SLASH) && has FNM_PATHNAME flags then
          match strchr prev string SLASH with
          | None => Ret FNM_NOMATCH
          | Some (prev, string) => fnmatch fuel pattern prev string flags
          end
        else
          star_loop (fun string => fnmatch fuel pattern None string (Z.land flags (Z.lnot FNM_PERIOD)))
            (has FNM_PATHNAME flags) string
      else if c =? LBRACKET then
        if cur string =? EOS then Ret FNM_NOMATCH
        else if (cur string =? SLASH) && has FNM_PATHNAME flags then Ret FNM_NOMATCH
        else
          r <~ rangematch (S (length pattern)) pattern (cur string) flags;
          match r with
          | None => Ret FNM_NOMATCH
          | Some pattern => fnmatch fuel pattern (head string) (tail string) flags
          end
      else
        let '(c, pattern) :=
          if (c =? BACKSLASH) && negb (has FNM_NOESCAPE flags) then
            if cur pattern =? EOS then (BACKSLASH, pattern) else (cur pattern, tail pattern)
          else (c, pattern) in
        if negb (c =? cur string) then Ret FNM_NOMATCH
        else fnmatch fuel pattern (head string) (tail string) flags
  end.

(** ** The language of patterns

    [parse] splits a pattern into its elements ([noesc]: a backslash is an ordinary
    character).  A bracket is a list of ranges; one that is not closed matches nothing. *)

Inductive token := TChar (quoted : bool) (c : Z) | TAny | TStar | TSet (negate : bool) (ranges : list (Z * Z)) | TBad.

(** One character of a bracket expression. *)
Definition char (noesc : bool) (p : list Z) : option (Z * list Z) :=
  match p with
  | c :: q => if (c =? BACKSLASH) && negb noesc then match q with e :: q => Some (e, q) | [] => None end
              else Some (c, q)
  | [] => None
  end.

Fixpoint parse_ranges (fuel : nat) (noesc : bool) (p : list Z) : option (list (Z * Z) * list Z) :=
  match fuel with
  | O => None
  | S fuel =>
      match p with
      | c :: q =>
          if c =? RBRACKET then Some ([], q)
          else
            match char noesc p with
            | None => None
            | Some (c, q) =>
                match (match q with
                       | d :: ((e :: _) as q') => if (d =? DASH) && negb (e =? RBRACKET) then Some (char noesc q') else None
                       | _ => None
                       end) with
                | Some None => None
                | Some (Some (c2, q')) => '(rs, rest) ← parse_ranges fuel noesc q'; Some ((c, c2) :: rs, rest)
                | None => '(rs, rest) ← parse_ranges fuel noesc q; Some ((c, c) :: rs, rest)
                end
            end
      | [] => None
      end
  end.

Fixpoint parse (fuel : nat) (noesc : bool) (p : list Z) : list token :=
  match fuel, p with
  | O, _ | _, [] => []
  | S fuel, c :: q =>
      if c =? QUEST then TAny :: parse fuel noesc q
      else if c =? STAR then TStar :: parse fuel noesc (skip_stars q)
      else if c =? LBRACKET then
        let negate := (cur q =? BANG) || (cur q =? CARET) in
        match parse_ranges (S (length q)) noesc (if negate then tail q else q) with
        | Some (rs, rest) => TSet negate rs :: parse fuel noesc rest
        | None => [TBad]
        end
      else if (c =? BACKSLASH) && negb noesc then
        match q with
        | [] => [TChar true BACKSLASH]
        | e :: q => TChar true e :: parse fuel noesc q
        end
      else TChar false c :: parse fuel noesc q
  end.

Definition tokens (noesc : bool) (p : list Z) : list token := parse (S (length p)) noesc p.

Definition in_ranges (rs : list (Z * Z)) (c : Z) : bool := existsb (fun r => (r.1 <=? c) && (c <=? r.2)) rs.

(** An unquoted slash comes next. *)
Definition slash_next (ts : list token) : bool := match ts with TChar false c :: _ => c =? SLASH | _ => false end.

Section Matching.
Context (path : bool).

Definition leading_dot (per : bool) (prev : option Z) (s : list Z) : Prop :=
  per = true /\ head s = Some DOT /\ (prev = None \/ (path = true /\ prev = Some SLASH)).

(** [matches per prev ts s]: the elements [ts] match the string [s] that comes after the
    character [prev]; [per] asks for leading periods to be matched by periods.  Behind a
    star that is not followed by a slash of the pattern, periods are no longer special. *)
Inductive matches : bool -> option Z -> list token -> list Z -> Prop :=
  | m_end per prev : matches per prev [] []
  | m_char per prev q c ts s : matches per (Some c) ts s -> matches per prev (TChar q c :: ts) (c :: s)
  | m_any per prev c ts s : (path = true -> c <> SLASH) -> ~ leading_dot per prev (c :: s) ->
      matches per (Some c) ts s -> matches per prev (TAny :: ts) (c :: s)
  | m_set per prev negate rs c ts s : (path = true -> c <> SLASH) -> in_ranges rs c = negb negate ->
      matches per (Some c) ts s -> matches per prev (TSet negate rs :: ts) (c :: s)
  | m_star per prev u ts s : (path = true -> SLASH ∉ u) -> ~ leading_dot per prev (u ++ s) ->
      matches (per && path && slash_next ts) (last (option_list prev ++ u)) ts s ->
      matches per prev (TStar :: ts) (u ++ s).
End Matching.

(** ** Brackets *)

Definition chars (p : list Z) : Prop := Forall (fun c => c <> EOS) p.

Lemma cur_eos p : chars p -> (cur p =? EOS) = bool_decide (p = []).
Proof.
  intros [|c q Hc _]; [done|]. rewrite bool_decide_eq_false_2 by done. by apply Z.eqb_neq.
Qed.

Lemma chars_tail p : chars p -> chars (tail p).
Proof. intros Hp. destruct Hp; [constructor|done]. Qed.

Lemma in_ranges_cons c c2 rs t ok : (ok || ((c <=? t) && (t <=? c2))) || in_ranges rs t = ok || in_ranges ((c, c2) :: rs) t.
Proof. simpl. by rewrite orb_assoc. Qed.

Lemma eqb_range c t : (c =? t) = (c <=? t) && (t <=? c).
Proof. destruct (Z.eqb_spec c t), (Z.leb_spec c t), (Z.leb_spec t c); simpl; (done || lia). Qed.

Lemma char_spec noesc c q : c <> EOS -> chars q ->
  char noesc (c :: q) = (let '(c, q) := quote noesc c q in if c =? EOS then None else Some (c, q))
  /\ let '(c1, q1) := quote noesc c q in if c1 =? EOS then True else chars q1 /\ (length q1 <= length q)%nat.
Proof.
  intros Hc Hq. unfold char, quote. destruct (_ && _).
  - destruct Hq as [|e q He Hq]; [done|]. change (cur (e :: q)) with e. rewrite (proj2 (Z.eqb_neq _ _) He). simpl. split; [done|]. split; [done|lia].
  - rewrite (proj2 (Z.eqb_neq _ _) Hc). split; [done|]. by split.
Qed.

Definition range_result (ok : bool) (test : Z) (r : option (list (Z * Z) * list Z)) : option (bool * list Z) :=
  match r with Some (rs, rest) => Some (ok || in_ranges rs test, rest) | None => None end.

Lemma range_loop_spec fuel p test flags : chars p -> (length p < fuel)%nat ->
  (forall ok, range_loop fuel p test flags ok = Ret (range_result ok test (parse_ranges fuel (has FNM_NOESCAPE flags) p)))
  /\ (forall rs rest, parse_ranges fuel (has FNM_NOESCAPE flags) p = Some (rs, rest) -> (length rest < length p)%nat /\ chars rest).
Proof.
  set (noesc := has FNM_NOESCAPE flags).
  revert p. induction fuel as [|fuel IH]; intros p Hp Hf; [lia|]. cbn [range_loop parse_ranges].
  destruct Hp as [|c q Hc Hq]; [done|]. change (cur (c :: q)) with c. cbn [tail]. fold noesc.
  destruct (c =? RBRACKET); [by split; [intros ok; simpl; by rewrite orb_false_r|intros ? ? [= <- <-]; simpl; split; [lia|]]|].
  destruct (char_spec noesc c q Hc Hq) as (-> & Hch). destruct (quote noesc c q) as [c1 q1].
  destruct (c1 =? EOS); [by split|]. destruct Hch as [Hq1 Hl1]. cbn [length] in Hf.
  rewrite cur_eos by (by apply chars_tail).
  assert (Hsingle : forall p', p' = q1 ->
    (forall ok, range_loop fuel p' test flags (ok || (c1 =? test)) = Ret (range_result ok test ('(rs, rest) ← parse_ranges fuel noesc p'; Some ((c1, c1) :: rs, rest))))
    /\ (forall rs rest, ('(rs, rest) ← parse_ranges fuel noesc p'; Some ((c1, c1) :: rs, rest)) = Some (rs, rest) -> (length rest < length (c :: q))%nat /\ chars rest)).
  { intros p' ->. destruct (IH q1 Hq1) as [IH1 IH2]; [lia|]. split.
    - intros ok. rewrite IH1. destruct (parse_ranges fuel noesc q1) as [[rs rest]|]; [|done]. simpl. by rewrite eqb_range, orb_assoc.
    - intros rs rest. destruct (parse_ranges fuel noesc q1) as [[rs' rest']|]; [|done]. intros [= <- <-].
      destruct (IH2 rs' rest' eq_refl). simpl. split; [lia|done]. }
  destruct q1 as [|d [|e q3]]; cbn [tail].
  - by apply Hsingle.
  - rewrite bool_decide_eq_true_2, andb_false_r by done. by apply Hsingle.
  - rewrite bool_decide_eq_false_2, andb_true_r by done. change (cur (d :: e :: q3)) with d. change (cur (e :: q3)) with e.
    destruct ((d =? DASH) && negb (e =? RBRACKET)); [|by apply Hsingle].
    apply Forall_cons_1 in Hq1 as [_ Hq1]. apply Forall_cons_1 in Hq1 as [He Hq3].
    destruct (char_spec noesc e q3 He Hq3) as (-> & Hch). destruct (quote noesc e q3) as [c2 q4].
    destruct (c2 =? EOS); [by split|]. destruct Hch as [Hq4 Hl4]. simpl in Hl1.
    destruct (IH q4 Hq4) as [IH1 IH2]; [lia|]. split.
    + intros ok. rewrite IH1. destruct (parse_ranges fuel noesc q4) as [[rs rest]|]; [|done]. simpl. by rewrite orb_assoc.
    + intros rs rest. destruct (parse_ranges fuel noesc q4) as [[rs' rest']|]; [|done]. intros [= <- <-].
      destruct (IH2 rs' rest' eq_refl). simpl. split; [lia|done].
Qed.

(** ** Matching, element by element *)

Section Elements.
Context (path : bool).

Lemma matches_nil per prev s : matches path per prev [] s <-> s = [].
Proof. split; [by inversion 1|intros ->; constructor]. Qed.

Lemma matches_char per prev q c ts s : matches path per prev (TChar q c :: ts) s <-> exists s', s = c :: s' /\ matches path per (Some c) ts s'.
Proof. split; [inversion 1; subst; eauto|intros (s' & -> & ?); by constructor]. Qed.

Lemma matches_any per prev ts s : matches path per prev (TAny :: ts) s <->
  exists c s', s = c :: s' /\ (path = true -> c <> SLASH) /\ ~ leading_dot path per prev s /\ matches path per (Some c) ts s'.
Proof. split; [inversion 1; subst; eauto 10|intros (c & s' & -> & ? & ? & ?); by constructor]. Qed.

Lemma matches_set per prev neg rs ts s : matches path per prev (TSet neg rs :: ts) s <->
  exists c s', s = c :: s' /\ (path = true -> c <> SLASH) /\ in_ranges rs c = negb neg /\ matches path per (Some c) ts s'.
Proof. split; [inversion 1; subst; eauto 10|intros (c & s' & -> & ? & ? & ?); by constructor]. Qed.

Lemma matches_star per prev ts s : matches path per prev (TStar :: ts) s <->
  ~ leading_dot path per prev s /\ exists u s', s = u ++ s' /\ (path = true -> SLASH ∉ u)
    /\ matches path (per && path && slash_next ts) (last (option_list prev ++ u)) ts s'.
Proof. split; [inversion 1; subst; eauto 10|intros (? & u & s' & -> & ? & ?); by constructor]. Qed.

Lemma matches_bad per prev ts s : ~ matches path per prev (TBad :: ts) s.
Proof. by inversion 1. Qed.

(** Where periods are not special the character before does not matter. *)
Lemma matches_noperiod prev prev' ts s : matches path false prev ts s -> matches path false prev' ts s.
Proof.
  intros Hm. remember false as per eqn:Hp. revert prev' Hp.
  induction Hm as [| | | |per prev u ts s Hu Hl Hm IH]; intros prev' ->; constructor; auto.
  - by intros [? _].
  - by intros [? _].
Qed.

(** What is not a star needs a character. *)
Lemma matches_empty per prev ts : ts <> [] -> head ts <> Some TStar -> ~ matches path per prev ts [].
Proof.
  intros Hne Hs Hm. inversion Hm; subst; try done. 
Qed.
End Elements.

Lemma slash_head path per prev ts s : slash_next ts = true -> matches path per prev ts s -> head s = Some SLASH.
Proof. intros Hn Hm. destruct Hm as [|? ? [] c ts s Hm| | |]; try done. simpl in *. by apply Z.eqb_eq in Hn as ->. Qed.

Lemma split_slash u u' s s' : u ++ s = u' ++ s' -> SLASH ∉ u -> SLASH ∉ u' ->
  head s = Some SLASH -> head s' = Some SLASH -> u = u' /\ s = s'.
Proof.
  revert u'. induction u as [|x u IH]; intros [|y u'] Heq Hu Hu' Hs Hs'; simpl in Heq.
  - done.
  - subst s. simplify_eq/=. set_solver.
  - subst s'. simplify_eq/=. set_solver.
  - injection Heq as -> Heq. destruct (IH u') as [-> ->]; set_solver.
Qed.

(** ** The code against the relation *)

Definition decided (r : Z) (P : Prop) : Prop := (r = 0 /\ P) \/ (r = FNM_NOMATCH /\ ~ P).

Lemma decided_iff r P P' : (P <-> P') -> decided r P -> decided r P'.
Proof. unfold decided. tauto. Qed.

Lemma decided_no P : ~ P -> decided FNM_NOMATCH P.
Proof. by right. Qed.

Lemma has_clear flags :
  let flags' := Z.land flags (Z.lnot FNM_PERIOD) in
  has FNM_NOESCAPE flags' = has FNM_NOESCAPE flags /\ has FNM_PATHNAME flags' = has FNM_PATHNAME flags
  /\ has FNM_PERIOD flags' = false.
Proof. unfold has. rewrite <- !Z.land_assoc. split; [done|]. split; [done|]. by rewrite Z.land_0_r. Qed.

Lemma skip_stars_spec q : chars q -> chars (skip_stars q) /\ (length (skip_stars q) <= length q)%nat /\ head (skip_stars q) <> Some STAR.
Proof.
  induction 1 as [|c q Hc Hq IH]; simpl; [split; [constructor|split; [lia|done]]|]. destruct (Z.eqb_spec c STAR) as [->|Hne]; [|split; [by constructor|]; split; [simpl; lia|simpl; congruence]].
  destruct IH as (? & ? & ?). split; [done|]. split; [lia|done].
Qed.

Lemma parse_head fuel noesc p : head p <> Some STAR -> head (parse fuel noesc p) <> Some TStar.
Proof.
  intros Hs. destruct fuel as [|fuel]; [done|]. destruct p as [|c q]; [done|]. cbn [parse].
  destruct (c =? QUEST); [done|]. destruct (Z.eqb_spec c STAR) as [->|]; [done|]. destruct (c =? LBRACKET).
  - by destruct (parse_ranges _ _ _) as [[? ?]|].
  - destruct (_ && _); [by destruct q|done].
Qed.

Lemma parse_slash fuel noesc d p : slash_next (parse (S fuel) noesc (d :: p)) = (d =? SLASH).
Proof.
  cbn [parse]. destruct (Z.eqb_spec d QUEST) as [->|]; [done|]. destruct (Z.eqb_spec d STAR) as [->|]; [done|].
  destruct (Z.eqb_spec d LBRACKET) as [->|]; [by destruct (parse_ranges _ _ _) as [[? ?]|]|].
  destruct (Z.eqb_spec d BACKSLASH) as [->|]; [|done]. destruct noesc; [done|]. by destruct p.
Qed.

Lemma parse_some fuel noesc p : p <> [] -> parse (S fuel) noesc p <> [].
Proof.
  destruct p as [|c p]; [done|]. intros _. cbn [parse]. repeat case_match; done.
Qed.

Lemma leading_spec prev s flags :
  leading prev s flags = true <-> leading_dot (has FNM_PATHNAME flags) (has FNM_PERIOD flags) prev s.
Proof.
  unfold leading, leading_dot. rewrite !andb_true_iff, Z.eqb_eq.
  assert (Hc : cur s = DOT <-> head s = Some DOT)
    by (destruct s as [|x s]; [split; discriminate|change (cur (x :: s)) with x; simpl; split; congruence]).
  rewrite Hc. destruct prev as [c|].
  - rewrite andb_true_iff, Z.eqb_eq. split; [intros [[? ?] [? ->]]|intros (? & ? & [|[? [= ->]]])]; (done || split_and!; auto).
  - split; [intros [[? ?] _]|intros (? & ? & _)]; split_and!; auto.
Qed.

Lemma leading_false prev s flags :
  leading prev s flags = false -> ~ leading_dot (has FNM_PATHNAME flags) (has FNM_PERIOD flags) prev s.
Proof. intros Hl Hd%leading_spec. congruence. Qed.

Lemma strchr_spec prev s : match strchr prev s SLASH with
  | Some (prev', s') => exists u, s = u ++ s' /\ head s' = Some SLASH /\ (SLASH ∉ u) /\ (prev' = last (option_list prev ++ u))
  | None => SLASH ∉ s
  end.
Proof.
  revert prev. induction s as [|c s IH]; intros prev; simpl; [by apply not_elem_of_nil|].
  destruct (Z.eqb_spec c SLASH) as [->|Hne].
  - exists []. rewrite app_nil_r. split; [done|]. split; [done|]. split; [by apply not_elem_of_nil|]. by destruct prev.
  - specialize (IH (Some c)). destruct (strchr (Some c) s SLASH) as [[prev' s']|]; [|set_solver].
    destruct IH as (u & -> & Hh & Hu & ->). exists (c :: u). split; [done|]. split; [done|]. split; [set_solver|].
    destruct prev; simpl; by destruct u.
Qed.

Lemma star_loop_spec rest path (P : list Z -> Prop) s : chars s -> ~ P [] ->
  (forall s, chars s -> exists r, rest s = Ret r /\ decided r (P s)) ->
  exists r, star_loop rest path s = Ret r
    /\ decided r (exists u s', s = u ++ s' /\ (path = true -> SLASH ∉ u) /\ P s').
Proof.
  intros Hs Hnil Hrest. induction Hs as [|c s Hc Hs IH]; cbn [star_loop].
  - exists FNM_NOMATCH. split; [done|]. apply decided_no. intros (u & s' & Hu & _ & HP).
    symmetry in Hu. apply app_eq_nil in Hu as [-> ->]. done.
  - assert (chars (c :: s)) as Hcs by (by constructor). destruct (Hrest (c :: s) Hcs) as (r & -> & Hr). cbn [obind].
    destruct Hr as [[-> HP]|[-> HP]].
    + exists 0. split; [done|]. left. split; [done|]. exists [], (c :: s). split; [done|]. split; [|done]. intros _. apply not_elem_of_nil.
    + change (FNM_NOMATCH =? 0) with false. cbv iota.
      destruct ((c =? SLASH) && path) eqn:Hsl.
      * apply andb_true_iff in Hsl as [->%Z.eqb_eq ->]. exists FNM_NOMATCH. split; [done|]. apply decided_no.
        intros (u & s' & Hu & Hns & HP'). destruct u as [|x u]; simpl in Hu; [by subst s'|]. injection Hu as <- _. apply Hns; [done|left].
      * destruct IH as (r & -> & Hr). exists r. split; [done|]. eapply decided_iff; [|exact Hr]. split.
        -- intros (u & s' & -> & Hu & HP'). exists (c :: u), s'. split; [done|]. split; [|done].
           intros Hp. rewrite Hp, andb_true_r in Hsl. apply Z.eqb_neq in Hsl. specialize (Hu Hp). set_solver.
        -- intros (u & s' & Hu & Hns & HP'). destruct u as [|x u]; simpl in Hu; [by subst s'|]. injection Hu as <- Hu. exists u, s'.
           split; [done|]. split; [|done]. intros Hp Hin. apply (Hns Hp). by right.
Qed.

(** One element of the pattern that takes a character. *)
Definition fuel_ok (fuel : nat) : Prop := forall p prev s flags, chars p -> chars s -> (length p < fuel)%nat ->
  exists r, fnmatch fuel p prev s flags = Ret r
    /\ decided r (matches (has FNM_PATHNAME flags) (has FNM_PERIOD flags) prev (parse fuel (has FNM_NOESCAPE flags) p) s).

Section Star.
Context (fuel : nat) (p s : list Z) (prev : option Z) (flags : Z).
Context (IH : fuel_ok fuel) (Hp : chars p) (Hs : chars s) (Hf : (length p < fuel)%nat).
Let path := has FNM_PATHNAME flags.
Let per := has FNM_PERIOD flags.
Let ts := parse fuel (has FNM_NOESCAPE flags) p.

(** What a star leaves to do once it is not stopped by a leading period. *)
Let star_rest : Prop := exists u s', s = u ++ s' /\ (path = true -> SLASH ∉ u)
  /\ matches path (per && path && slash_next ts) (last (option_list prev ++ u)) ts s'.

Lemma star_end : p = [] ->
  decided (if path then match strchr prev s SLASH with None => 0 | Some _ => FNM_NOMATCH end else 0) star_rest.
Proof.
  intros ->. assert (Hts : ts = []) by (unfold ts; by destruct fuel). pose proof (strchr_spec prev s) as Hsl.
  assert (Hall : (path = true -> SLASH ∉ s) -> star_rest).
  { intros Hn. exists s, []. rewrite app_nil_r, Hts. split; [done|]. split; [done|]. constructor. }
  destruct path eqn:Hpath; [|left; split; [done|by apply Hall]].
  destruct (strchr prev s SLASH) as [[p' s']|]; [|left; split; [done|by apply Hall]].
  apply decided_no. intros (u & s'' & Heq & Hu & Hm). rewrite Hts in Hm. apply matches_nil in Hm. subst s''. rewrite app_nil_r in Heq.
  destruct Hsl as (u' & Heq' & Hh & _). apply (Hu eq_refl). rewrite <- Heq, Heq'. apply elem_of_app. right.
  destruct s' as [|x s']; [done|]. injection Hh as ->. left.
Qed.

Lemma star_slash : slash_next ts = true -> path = true ->
  exists r, match strchr prev s SLASH with
            | None => Ret FNM_NOMATCH
            | Some (prev, string) => fnmatch fuel p prev string flags
            end = Ret r /\ decided r star_rest.
Proof.
  intros Hsn Hpath. pose proof (strchr_spec prev s) as Hsl. destruct (strchr prev s SLASH) as [[prev' s']|].
  - destruct Hsl as (u & Heq & Hh & Hu & ->).
    destruct (IH p (last (option_list prev ++ u)) s' flags Hp) as (r & -> & Hr); [|lia|].
    { rewrite Heq in Hs. by apply Forall_app in Hs as [_ ?]. }
    exists r. split; [done|]. revert Hr. apply decided_iff. fold path per ts. unfold star_rest. rewrite Hsn, Hpath, !andb_true_r. split.
    + intros Hm. by exists u, s'.
    + intros (u1 & s1 & Heq1 & Hu1 & Hm). rewrite Heq in Heq1.
      destruct (split_slash u u1 s' s1 Heq1 Hu (Hu1 eq_refl) Hh) as [-> ->]; [by eapply slash_head|done].
  - exists FNM_NOMATCH. split; [done|]. apply decided_no. intros (u & s' & Heq & _ & Hm).
    apply slash_head in Hm; [|done]. apply Hsl. rewrite Heq. apply elem_of_app. right. destruct s' as [|x s']; [done|]. injection Hm as ->. left.
Qed.

Lemma star_general : p <> [] -> head p <> Some STAR -> slash_next ts && path = false ->
  exists r, star_loop (fun string => fnmatch fuel p None string (Z.land flags (Z.lnot FNM_PERIOD))) path s = Ret r
    /\ decided r star_rest.
Proof.
  intros Hpe Hhead Hsn.
  assert (Hex : exists r, star_loop (fun string => fnmatch fuel p None string (Z.land flags (Z.lnot FNM_PERIOD))) path s = Ret r
    /\ decided r (exists u s', s = u ++ s' /\ (path = true -> SLASH ∉ u) /\ matches path false None ts s')).
  { destruct (has_clear flags) as (Hne & Hpn & Hpp). apply star_loop_spec; [done| |].
    - apply matches_empty; [|by apply parse_head]. unfold ts. destruct fuel; [lia|by apply parse_some].
    - intros s1 Hs1. destruct (IH p None s1 (Z.land flags (Z.lnot FNM_PERIOD)) Hp) as (r & -> & Hr); [done|lia|].
      exists r. rewrite Hne, Hpn, Hpp in Hr. by split. }
  destruct Hex as (r & -> & Hr). exists r. split; [done|]. revert Hr. apply decided_iff. unfold star_rest.
  rewrite <- andb_assoc, (andb_comm path), Hsn, andb_false_r.
  split; intros (u & s' & Heq & Hu & Hm); exists u, s'; (split; [done|]; split; [done|]); by eapply matches_noperiod.
Qed.
End Star.

Lemma star_spec fuel q prev s flags : fuel_ok fuel -> chars q -> chars s -> (length q < fuel)%nat ->
  exists r, fnmatch (S fuel) (STAR :: q) prev s flags = Ret r
    /\ decided r (matches (has FNM_PATHNAME flags) (has FNM_PERIOD flags) prev (parse (S fuel) (has FNM_NOESCAPE flags) (STAR :: q)) s).
Proof.
  intros IH Hq Hs Hf. cbn [fnmatch parse]. change (cur (STAR :: q)) with STAR. cbn [tail].
  change (STAR =? EOS) with false. change (STAR =? QUEST) with false. change (STAR =? STAR) with true. cbv iota.
  destruct (skip_stars_spec q Hq) as (Hp & Hlq & Hhead). set (p := skip_stars q) in *. clearbody p.
  assert (Hfp : (length p < fuel)%nat) by lia. clear Hf Hlq Hq.
  destruct (leading prev s flags) eqn:Hlead.
  { exists FNM_NOMATCH. split; [done|]. apply decided_no. rewrite matches_star. intros [Hn _]. apply Hn. by apply leading_spec. }
  apply leading_false in Hlead. rewrite cur_eos by done.
  pose proof (star_end fuel p s prev flags) as Hend.
  pose proof (star_slash fuel p s prev flags IH Hp Hs Hfp) as Hslash.
  pose proof (star_general fuel p s prev flags IH Hp Hs Hfp) as Hgen. cbv zeta in Hend, Hslash, Hgen.
  assert (Hgoal : forall o P, (exists r, o = Ret r /\ decided r P) ->
    (matches (has FNM_PATHNAME flags) (has FNM_PERIOD flags) prev (TStar :: parse fuel (has FNM_NOESCAPE flags) p) s <-> P) ->
    exists r, o = Ret r /\ decided r (matches (has FNM_PATHNAME flags) (has FNM_PERIOD flags) prev (TStar :: parse fuel (has FNM_NOESCAPE flags) p) s)).
  { intros o P (r & Hr & Hd) HP. exists r. split; [done|]. eapply decided_iff; [|exact Hd]. by symmetry. }
  eapply Hgoal; [|rewrite matches_star; split; [by intros [_ H]; exact H|by split]].
  case_bool_decide as Hpe; [eexists; split; [reflexivity|by apply Hend]|].
  assert (Hsn : slash_next (parse fuel (has FNM_NOESCAPE flags) p) = (cur p =? SLASH)).
  { destruct p as [|d p']; [done|]. destruct fuel as [|fuel']; [lia|]. apply parse_slash. }
  destruct ((cur p =? SLASH) && has FNM_PATHNAME flags) eqn:Hdp.
  - apply andb_true_iff in Hdp as [Hd Hpath]. apply Hslash; [by rewrite Hsn|done].
  - apply Hgen; [done|done|by rewrite Hsn].
Qed.

Lemma rangematch_spec q test flags : chars q ->
  let noesc := has FNM_NOESCAPE flags in
  let negate := (cur q =? BANG) || (cur q =? CARET) in
  let parsed := parse_ranges (S (length q)) noesc (if negate then tail q else q) in
  rangematch (S (length q)) q test flags
    = Ret ('(rs, rest) ← parsed; if eqb (in_ranges rs test) negate then None else Some rest)
  /\ forall rs rest, parsed = Some (rs, rest) -> (length rest <= length q)%nat /\ chars rest.
Proof.
  intros Hq noesc negate parsed. unfold rangematch. fold negate.
  assert (Hp : chars (if negate then tail q else q) /\ (length (if negate then tail q else q) <= length q)%nat).
  { destruct negate; [|done]. split; [by apply chars_tail|]. destruct q; simpl; lia. }
  destruct Hp as [Hp Hl].
  destruct (range_loop_spec (S (length q)) (if negate then tail q else q) test flags Hp ltac:(lia)) as [Hloop Hrest].
  rewrite Hloop. cbn [obind]. fold noesc parsed. fold noesc parsed in Hrest. split; [by destruct parsed as [[rs rest]|]|].
  intros rs rest Heq. destruct (Hrest rs rest Heq). split; [lia|done].
Qed.

(** ** The elements that take one character *)

Section Take.
Context (fuel : nat) (p : list Z) (flags : Z) (prev : option Z).
Context (IH : fuel_ok fuel) (Hp : chars p) (Hf : (length p < fuel)%nat).
Let path := has FNM_PATHNAME flags.
Let per := has FNM_PERIOD flags.
Let ts := parse fuel (has FNM_NOESCAPE flags) p.

Lemma take_spec (P : Prop) c s : chars (c :: s) -> (P <-> matches path per (Some c) ts s) ->
  exists r, fnmatch fuel p (head (c :: s)) (tail (c :: s)) flags = Ret r /\ decided r P.
Proof.
  intros [_ Hs]%Forall_cons_1 HP. destruct (IH p (Some c) s flags Hp Hs Hf) as (r & Hr & Hd). exists r. split; [done|].
  eapply decided_iff; [|exact Hd]. by rewrite HP.
Qed.

Lemma lit_spec quoted c s : c <> EOS -> chars s ->
  exists r, (if negb (c =? cur s) then Ret FNM_NOMATCH else fnmatch fuel p (head s) (tail s) flags) = Ret r
    /\ decided r (matches path per prev (TChar quoted c :: ts) s).
Proof.
  intros Hc Hs. destruct (Z.eqb_spec c (cur s)) as [Heq|Hne]; cbn [negb].
  - destruct s as [|x s']; [done|]. change (cur (x :: s')) with x in Heq. subst x.
    apply take_spec; [done|]. rewrite matches_char. split; [by intros (? & [= <-] & ?)|]. intros Hm. by exists s'.
  - exists FNM_NOMATCH. split; [done|]. apply decided_no. rewrite matches_char. by intros (s' & -> & _).
Qed.

Lemma slash_spec x : (x =? SLASH) && path = false -> path = true -> x <> SLASH.
Proof. intros Hx Hpath. rewrite Hpath, andb_true_r in Hx. by apply Z.eqb_neq. Qed.

Lemma any_spec s : chars s ->
  exists r, (if cur s =? EOS then Ret FNM_NOMATCH else if (cur s =? SLASH) && path then Ret FNM_NOMATCH
             else if leading prev s flags then Ret FNM_NOMATCH else fnmatch fuel p (head s) (tail s) flags) = Ret r
    /\ decided r (matches path per prev (TAny :: ts) s).
Proof.
  intros Hs. rewrite cur_eos by exact Hs. case_bool_decide as He.
  { exists FNM_NOMATCH. split; [done|]. apply decided_no. rewrite matches_any, He. by intros (? & ? & ? & _). }
  destruct s as [|x s']; [done|]. change (cur (x :: s')) with x.
  destruct ((x =? SLASH) && path) eqn:Hsl.
  { apply andb_true_iff in Hsl as [->%Z.eqb_eq Hpath]. exists FNM_NOMATCH. split; [done|]. apply decided_no. rewrite matches_any.
    intros (c & s1 & [= <- <-] & Hc & _). by apply Hc. }
  destruct (leading prev (x :: s') flags) eqn:Hl.
  { exists FNM_NOMATCH. split; [done|]. apply decided_no. rewrite matches_any. intros (c & s1 & _ & _ & Hd & _). by apply Hd, leading_spec. }
  apply take_spec; [done|]. rewrite matches_any. split; [by intros (c & s1 & [= <- <-] & _ & _ & ?)|].
  intros Hm. exists x, s'. split; [done|]. split; [by apply slash_spec|]. split; [by apply leading_false|done].
Qed.
End Take.

Lemma set_spec fuel q s flags prev : fuel_ok fuel -> chars q -> chars s -> (length q < fuel)%nat ->
  let path := has FNM_PATHNAME flags in
  let noesc := has FNM_NOESCAPE flags in
  let negate := (cur q =? BANG) || (cur q =? CARET) in
  exists r, (if cur s =? EOS then Ret FNM_NOMATCH else if (cur s =? SLASH) && path then Ret FNM_NOMATCH
             else r <~ rangematch (S (length q)) q (cur s) flags;
                  match r with None => Ret FNM_NOMATCH | Some p => fnmatch fuel p (head s) (tail s) flags end) = Ret r
    /\ decided r (matches path (has FNM_PERIOD flags) prev
         match parse_ranges (S (length q)) noesc (if negate then tail q else q) with
         | Some (rs, rest) => TSet negate rs :: parse fuel noesc rest
         | None => [TBad]
         end s).
Proof.
  intros IH Hq Hs Hf path noesc negate. destruct (rangematch_spec q (cur s) flags Hq) as [-> Hrest].
  fold noesc negate in Hrest |- *. rewrite cur_eos by exact Hs. cbn [obind].
  destruct (parse_ranges _ _ _) as [[rs p]|]; cycle 1.
  { exists FNM_NOMATCH. split; [repeat case_match; done|]. apply decided_no, matches_bad. }
  destruct (Hrest rs p eq_refl) as [Hl Hp]. case_bool_decide as He.
  { exists FNM_NOMATCH. split; [done|]. apply decided_no. rewrite matches_set, He. by intros (? & ? & ? & _). }
  destruct s as [|x s']; [done|]. change (cur (x :: s')) with x.
  destruct ((x =? SLASH) && path) eqn:Hsl.
  { apply andb_true_iff in Hsl as [->%Z.eqb_eq Hpath]. exists FNM_NOMATCH. split; [done|]. apply decided_no. rewrite matches_set.
    intros (c & s1 & [= <- <-] & Hc & _). by apply Hc. }
  simpl. destruct (eqb (in_ranges rs x) negate) eqn:Hneg.
  { exists FNM_NOMATCH. split; [done|]. apply decided_no. rewrite matches_set. intros (c & s1 & [= <- <-] & _ & Hin & _).
    apply eqb_prop in Hneg. rewrite Hneg in Hin. by destruct negate. }
  apply take_spec; [done|done|lia|done|]. rewrite matches_set. split; [by intros (c & s1 & [= <- <-] & _ & _ & ?)|].
  intros Hm. exists x, s'. split; [done|]. split; [by apply (slash_spec flags)|]. split; [|done].
  apply eqb_false_iff in Hneg. by destruct (in_ranges rs x), negate.
Qed.

Lemma fuel_ok_all fuel : fuel_ok fuel.
Proof.
  induction fuel as [|fuel IH]; intros p prev s flags Hp Hs Hf; [lia|].
  destruct Hp as [|c q Hc Hq].
  { cbn [fnmatch parse]. change (cur []) with EOS. change (EOS =? EOS) with true. cbv iota. rewrite cur_eos by done.
    eexists. split; [reflexivity|]. case_bool_decide; [left|right]; (split; [done|]); by rewrite matches_nil. }
  cbn [length] in Hf. destruct (Z.eq_dec c STAR) as [->|Hns]; [apply star_spec; (done || lia)|]. cbn [fnmatch parse]. change (cur (c :: q)) with c. cbn [tail length] in *.
  rewrite (proj2 (Z.eqb_neq c EOS)), (proj2 (Z.eqb_neq c STAR)) by done. cbv iota.
  destruct (c =? QUEST); [apply any_spec; (done || lia)|].
  destruct (c =? LBRACKET); [apply set_spec; (done || lia)|].
  destruct (Z.eqb_spec c BACKSLASH) as [->|_]; cbn [andb]; [|apply lit_spec; (done || lia)].
  destruct (negb (has FNM_NOESCAPE flags)); [|apply lit_spec; (done || lia)]. rewrite cur_eos by done.
  destruct Hq as [|e q He Hq]; cbn [length] in Hf.
  - rewrite bool_decide_eq_true_2 by done.
    destruct (lit_spec fuel [] flags prev IH ltac:(constructor) ltac:(simpl; lia) true BACKSLASH s Hc Hs) as (r & -> & Hr).
    exists r. split; [done|]. destruct fuel; [lia|]. exact Hr.
  - rewrite bool_decide_eq_false_2 by done. change (cur (e :: q)) with e. cbn [tail].
    apply lit_spec; (done || lia).
Qed.


(** A period that begins the string or a part of the path can be matched by a bracket, and
    behind a star by anything, with FNM_PERIOD set: [!a]b matches .b and *x/?b matches ax/.b. *)
Lemma period_matched :
  fnmatch 6 [91; 33; 97; 93; 98] None [46; 98] FNM_PERIOD = Ret 0
  /\ fnmatch 6 [42; 120; 47; 63; 98] None [97; 120; 47; 46; 98] (FNM_PERIOD + FNM_PATHNAME) = Ret 0
  /\ fnmatch 6 [63; 98] None [46; 98] FNM_PERIOD = Ret FNM_NOMATCH.
Proof. done. Qed.


Example ex_fnmatch :
  fnmatch 11 [97; 42; 91; 98; 45; 100; 93; 92; 63; 46] None [97; 120; 121; 99; 63; 46] 0 = Ret 0
  /\ fnmatch 3 [42; 99] None [97; 47; 99] 0 = Ret 0
  /\ fnmatch 3 [42; 99] None [97; 47; 99] FNM_PATHNAME = Ret FNM_NOMATCH.
Proof. done. Qed.
