(* ===== verification/Dir.v ===== *)
(** * Dir: directories, src/src/sys/fs/dfs/dir.c

    A directory block is a row of records [struct dentry] that fill it: inode number,
    length of the record, length of the name, the name, and room.  The page of a block is
    read and written as bytes here; a load or store outside the block is a fault.  [now] is
    what [time] returns, [cr] the identity of the calling thread.  A pointer into a block
    is the offset in it. *)

From S2P Require Import Prelude Bitmap Cache Group Inode.
Local Open Scope krlean_scope.

Definition ENOTDIR : Z := 20.
Definition ENOSPC : Z := 28.
Definition ENAMETOOLONG : Z := 38.

Definition S_IFMT : Z := 61440.
Definition S_IFDIR : Z := 16384.
Definition S_IWRITE : Z := 128.
Definition S_IEXEC : Z := 64.
Definition S_ISDIR (mode : Z) : bool := Z.land mode S_IFMT =? S_IFDIR.
Definition MAXPATH : Z := 256.
Definition DENTRY_SIZE : Z := 12.

(** ** Bytes of a block *)

Definition le4 (v : Z) : list Z := [v mod 256; v / 256 mod 256; v / 65536 mod 256; v / 16777216 mod 256].
Definition bytes_of (ws : list Z) : list Z := mjoin (le4 <$> ws).
Fixpoint words_of (bs : list Z) : list Z :=
  match bs with
  | b0 :: b1 :: b2 :: b3 :: bs => b0 + 256 * b1 + 65536 * b2 + 16777216 * b3 :: words_of bs
  | _ => []
  end.

Definition rd_bytes (d : list Z) (p n : Z) : outcome (list Z) :=
  if (0 <=? p) && (0 <=? n) && (p + n <=? Z.of_nat (length d)) then Ret (take (Z.to_nat n) (drop (Z.to_nat p) d)) else Fault.
Definition wr_bytes (d : list Z) (p : Z) (l : list Z) : outcome (list Z) :=
  if (0 <=? p) && (p + Z.of_nat (length l) <=? Z.of_nat (length d))
  then Ret (take (Z.to_nat p) d ++ l ++ drop (Z.to_nat p + length l) d) else Fault.
Definition rd32 (d : list Z) (p : Z) : outcome Z := l <~ rd_bytes d p 4; Ret (List.hd 0 (words_of l)).
Definition wr32 (d : list Z) (p v : Z) : outcome (list Z) := wr_bytes d p (le4 (u32 v)).

(** The fields of the record at [p]; its name is at [p + DENTRY_SIZE]. *)
Definition de_ino (d : list Z) (p : Z) : outcome Z := rd32 d p.
Definition de_reclen (d : list Z) (p : Z) : outcome Z := rd32 d (p + 4).
Definition de_namelen (d : list Z) (p : Z) : outcome Z := rd32 d (p + 8).
Definition set_reclen (d : list Z) (p v : Z) : outcome (list Z) := wr32 d (p + 4) v.

Definition NAME_ALIGN_LEN (l : Z) : Z := Z.land (u32 (l + 3)) (u32 (Z.lnot 3)).

(** [fnmatch] of vfs.c *)
Fixpoint fnmatch_loop (n : nat) (fn1 d : list Z) (p : Z) : outcome bool :=
  match n with
  | O => Ret true
  | S n =>
      a <~ deref (head fn1);
      b <~ at_ d p;
      if a =? b then fnmatch_loop n (tail fn1) d (p + 1) else Ret false
  end.
Definition fnmatch (fn1 : list Z) (len1 : Z) (d : list Z) (fn2 len2 : Z) : outcome bool :=
  if negb (len1 =? len2) then Ret false else fnmatch_loop (Z.to_nat len1) fn1 d fn2.

(** The search for a name: the record and the one before it. *)
Fixpoint scan (fuel : nat) (d : list Z) (blocksize : Z) (name : list Z) (len p : Z) (prev : option Z) : outcome (option (Z * option Z)) :=
  if p <? blocksize then
    match fuel with
    | O => Diverge
    | S fuel =>
        namelen <~ de_namelen d p;
        m <~ fnmatch name len d (p + DENTRY_SIZE) (s32 namelen);
        if m then Ret (Some (p, prev))
        else reclen <~ de_reclen d p; scan fuel d blocksize name len (p + reclen) (Some p)
    end
  else Ret None.

(** The search for a record with room for another one of length [newlen]. *)
Fixpoint find_room (fuel : nat) (d : list Z) (blocksize newlen p : Z) : outcome (option Z) :=
  if p <? blocksize then
    match fuel with
    | O => Diverge
    | S fuel =>
        namelen <~ de_namelen d p;
        let minlen := u32 (DENTRY_SIZE + NAME_ALIGN_LEN namelen) in
        reclen <~ de_reclen d p;
        if u32 (minlen + newlen) <=? reclen then Ret (Some p)
        else find_room fuel d blocksize newlen (p + reclen)
    end
  else Ret None.

Definition write_entry (d : list Z) (p ino reclen : Z) (name : list Z) (len : Z) : outcome (list Z) :=
  d <~ wr32 d p ino;
  d <~ set_reclen d p reclen;
  d <~ wr32 d (p + 8) len;
  name <~ rd_bytes name 0 len;
  wr_bytes d (p + DENTRY_SIZE) name.

(** The record at [p] is split behind its name. *)
Definition split_entry (d : list Z) (p ino : Z) (name : list Z) (len : Z) : outcome (list Z) :=
  namelen <~ de_namelen d p;
  let minlen := u32 (DENTRY_SIZE + NAME_ALIGN_LEN namelen) in
  reclen <~ de_reclen d p;
  d <~ write_entry d (p + minlen) ino (u32 (reclen - minlen)) name len;
  set_reclen d p minlen.

(** The record at [p] goes to the one before it. *)
Definition merge_prev (d : list Z) (q p : Z) : outcome (list Z) :=
  n <~ de_reclen d p;
  m <~ de_reclen d q;
  d <~ set_reclen d q (u32 (m + n));
  n <~ de_reclen d p;
  wr_bytes d p (replicate (Z.to_nat n) 0).

(** The first record takes over the next one. *)
Definition merge_next (d : list Z) (p : Z) : outcome (list Z) :=
  n <~ de_reclen d p;
  let q := p + n in
  ino <~ de_ino d q;
  d <~ wr32 d p ino;
  m <~ de_reclen d q;
  d <~ set_reclen d p (u32 (n + m));
  namelen <~ de_namelen d q;
  d <~ wr32 d (p + 8) namelen;
  name <~ rd_bytes d (q + DENTRY_SIZE) namelen;
  wr_bytes d (p + DENTRY_SIZE) name.

(** ** Access *)

Record cred := Cred { euid : Z; egid : Z }.

Definition check (cr : cred) (mode uid gid access : Z) : Z :=
  if euid cr =? 0 then 0
  else
    let access :=
      if negb (euid cr =? uid) then
        let access := Z.shiftr access 3 in
        if negb (egid cr =? gid) then Z.shiftr access 3 else access
      else access in
    if Z.land mode access =? access then 0 else - EACCES.

Definition checki (cr : cred) (x : inode) (access : Z) : Z :=
  check cr (i_mode (i_desc x)) (i_uid (i_desc x)) (i_gid (i_desc x)) access.

Definition set_mtime (x : inode) (t : Z) : inode :=
  let d := i_desc x in
  with_desc x (InodeDesc (i_mode d) (i_uid d) (i_gid d) (i_atime d) (i_ctime d) t
    (i_blocks d) (i_size d) (i_linkcount d) (i_depth d) (i_blockdir d)).
Definition set_size (x : inode) (n : Z) : inode :=
  let d := i_desc x in
  with_desc x (InodeDesc (i_mode d) (i_uid d) (i_gid d) (i_atime d) (i_ctime d) (i_mtime d)
    (i_blocks d) n (i_linkcount d) (i_depth d) (i_blockdir d)).

Section Dir.
Context {C : Type} `{BC : BufferCache C} (cr : cred) (now : Z).
Implicit Types (fs : filsys C) (x : inode).

Definition data fs (b : Z) : list Z := bytes_of (page fs b).
Definition set_data fs (b : Z) (d : list Z) : filsys C := put_page fs b (words_of d).
(** [mark_buffer_updated] and [release_buffer] *)
Definition updated fs (b : Z) : filsys C := release (dirty fs b) b.

(** The loop over the blocks of the directory.  The body gets the block with its buffer
    held; [None] lets the loop release it and go on. *)
Section Blocks.
Context {R : Type} (eio : R) (body : filsys C -> Z -> Z -> outcome (option R * filsys C)).

Fixpoint for_blocks (n : nat) fs x (block : Z) : outcome (option R * filsys C) :=
  match n with
  | O => Ret (None, fs)
  | S n =>
      '(blk, fs) <~ get_inode_block fs x block;
      if blk =? NOBLOCK then Ret (Some eio, fs)
      else
        let '(ok, fs) := get fs blk in
        if negb ok then Ret (Some eio, fs)
        else
          '(r, fs) <~ body fs block blk;
          match r with
          | Some r => Ret (Some r, fs)
          | None => for_blocks n (release fs blk) x (block + 1)
          end
  end.
End Blocks.

Definition block_fuel fs : nat := Z.to_nat (blocksize fs).
Definition dir_blocks x : nat := Z.to_nat (i_blocks (i_desc x)).

Definition find_in_block (name : list Z) (len : Z) fs (block blk : Z) : outcome (option (Z * option Z) * filsys C) :=
  let d := data fs blk in
  r <~ scan (block_fuel fs) d (blocksize fs) name len 0 None;
  match r with
  | Some (p, _) => ino <~ de_ino d p; Ret (Some (0, Some ino), release fs blk)
  | None => Ret (None, fs)
  end.

(** The result, what is stored through [retval], and the file system. *)
Definition find_dir_entry fs x (name : list Z) (len : Z) : outcome (Z * option Z * filsys C) :=
  if len <=? 0 then Ret (- EINVAL, None, fs)
  else if MAXPATH <=? len then Ret (- ENAMETOOLONG, None, fs)
  else if negb (S_ISDIR (i_mode (i_desc x))) then Ret (- ENOTDIR, None, fs)
  else if checki cr x S_IEXEC <? 0 then Ret (- EACCES, None, fs)
  else
    '(r, fs) <~ for_blocks (- EIO, None) (find_in_block name len) (dir_blocks x) fs x 0;
    Ret (default (- ENOENT, None) r, fs).

Definition modify_in_block (name : list Z) (len ino : Z) fs (block blk : Z) : outcome (option (Z * option Z) * filsys C) :=
  let d := data fs blk in
  r <~ scan (block_fuel fs) d (blocksize fs) name len 0 None;
  match r with
  | Some (p, _) =>
      oldino <~ de_ino d p;
      d <~ wr32 d p ino;
      Ret (Some (0, Some oldino), updated (set_data fs blk d) blk)
  | None => Ret (None, fs)
  end.

Definition modify_dir_entry fs x (name : list Z) (len ino : Z) : outcome (Z * option Z * filsys C) :=
  if len <=? 0 then Ret (- EINVAL, None, fs)
  else if MAXPATH <=? len then Ret (- ENAMETOOLONG, None, fs)
  else if negb (S_ISDIR (i_mode (i_desc x))) then Ret (- ENOTDIR, None, fs)
  else if checki cr x S_IWRITE <? 0 then Ret (- EACCES, None, fs)
  else
    '(r, fs) <~ for_blocks (- EIO, None) (modify_in_block name len ino) (dir_blocks x) fs x 0;
    Ret (default (- ENOENT, None) r, fs).

Definition add_in_block x (name : list Z) (len ino : Z) fs (block blk : Z) : outcome (option (Z * inode) * filsys C) :=
  let d := data fs blk in
  let newlen := u32 (DENTRY_SIZE + NAME_ALIGN_LEN len) in
  r <~ find_room (block_fuel fs) d (blocksize fs) newlen 0;
  match r with
  | Some p =>
      d <~ split_entry d p ino name len;
      let fs := updated (set_data fs blk d) blk in
      let x := set_mtime x now in
      Ret (Some (0, x), mark_inode_dirty fs x)
  | None => Ret (None, fs)
  end.

(** A new block with the entry as its only record. *)
Definition add_block fs x (name : list Z) (len ino : Z) : outcome (Z * inode * filsys C) :=
  '(blk, fs, x) <~ expand_inode fs x;
  if blk =? NOBLOCK then Ret (- ENOSPC, x, fs)
  else
    let '(ok, fs) := alloc fs blk in
    if negb ok then Ret (- ENOMEM, x, fs)
    else
      let x := set_mtime (set_size x (i_size (i_desc x) + blocksize fs)) now in
      let fs := mark_inode_dirty fs x in
      d <~ write_entry (data fs blk) 0 ino (blocksize fs) name len;
      Ret (0, x, updated (set_data fs blk d) blk).

Definition add_dir_entry fs x (name : list Z) (len ino : Z) : outcome (Z * inode * filsys C) :=
  if len <=? 0 then Ret (- EINVAL, x, fs)
  else if MAXPATH <=? len then Ret (- ENAMETOOLONG, x, fs)
  else if negb (S_ISDIR (i_mode (i_desc x))) then Ret (- ENOTDIR, x, fs)
  else if checki cr x S_IWRITE <? 0 then Ret (- EACCES, x, fs)
  else
    '(r, fs) <~ for_blocks (- EIO, x) (add_in_block x name len ino) (dir_blocks x) fs x 0;
    match r with
    | Some (rc, x) => Ret (rc, x, fs)
    | None => add_block fs x name len ino
    end.

(** The block is empty: it changes places with the last one, which is cut off. *)
Definition drop_block x fs (block blk : Z) : outcome (bool * inode * filsys C) :=
  '(ok, fs, x) <~
    (if negb (block =? u32 (i_blocks (i_desc x) - 1)) then
       '(lastblk, fs) <~ get_inode_block fs x (u32 (i_blocks (i_desc x) - 1));
       if lastblk =? NOBLOCK then Ret (false, fs, x)
       else
         '(_, fs, x) <~ set_inode_block fs x block lastblk;
         '(_, fs, x) <~ set_inode_block fs x (u32 (i_blocks (i_desc x) - 1)) blk;
         Ret (true, fs, x)
     else Ret (true, fs, x));
  if negb ok then Ret (false, x, fs)
  else
    '(_, fs, x) <~ truncate_inode fs x (u32 (i_blocks (i_desc x) - 1));
    let x := set_size x (i_size (i_desc x) - blocksize fs) in
    Ret (true, x, invalid fs blk).

Definition delete_in_block x (name : list Z) (len : Z) fs (block blk : Z) : outcome (option (Z * inode) * filsys C) :=
  let d := data fs blk in
  r <~ scan (block_fuel fs) d (blocksize fs) name len 0 None;
  match r with
  | Some (p, prev) =>
      reclen <~ de_reclen d p;
      '(ok, x, fs) <~
        match prev with
        | Some q => d <~ merge_prev d q p; Ret (true, x, dirty (set_data fs blk d) blk)
        | None =>
            if reclen =? blocksize fs then drop_block x fs block blk
            else d <~ merge_next d p; Ret (true, x, dirty (set_data fs blk d) blk)
        end;
      if negb ok then Ret (Some (- EIO, x), fs)
      else
        let fs := release fs blk in
        let x := set_mtime x now in
        Ret (Some (0, x), mark_inode_dirty fs x)
  | None => Ret (None, fs)
  end.

Definition delete_dir_entry fs x (name : list Z) (len : Z) : outcome (Z * inode * filsys C) :=
  if (len <=? 0) || (MAXPATH <=? len) then Ret (- ENAMETOOLONG, x, fs)
  else if negb (S_ISDIR (i_mode (i_desc x))) then Ret (- ENOTDIR, x, fs)
  else if checki cr x S_IWRITE <? 0 then Ret (- EACCES, x, fs)
  else
    '(r, fs) <~ for_blocks (- EIO, x) (delete_in_block x name len) (dir_blocks x) fs x 0;
    let '(rc, x) := default (- ENOENT, x) r in
    Ret (rc, x, fs).

(** [filp->pos] goes in and out; the entry is its inode number, [reclen] and name. *)
Definition dfs_readdir fs x (pos count : Z) : outcome (Z * option (Z * Z * list Z) * Z * filsys C) :=
  if negb (count =? 1) then Ret (- EINVAL, None, pos, fs)
  else if i_size (i_desc x) <=? pos then Ret (0, None, pos, fs)
  else
    iblock <~ udiv (u32 pos) (blocksize fs);
    let start := u32 pos mod blocksize fs in
    '(blk, fs) <~ get_inode_block fs x iblock;
    if blk =? NOBLOCK then Ret (- EIO, None, pos, fs)
    else
      let '(ok, fs) := get fs blk in
      if negb ok then Ret (- EIO, None, pos, fs)
      else
        let d := data fs blk in
        reclen <~ de_reclen d start;
        if blocksize fs <? u32 (reclen + start) then Ret (0, None, pos, release fs blk)
        else
          namelen <~ de_namelen d start;
          if (namelen =? 0) || (MAXPATH <=? namelen) then Ret (0, None, pos, release fs blk)
          else
            ino <~ de_ino d start;
            name <~ rd_bytes d (start + DENTRY_SIZE) namelen;
            Ret (1, Some (ino, reclen, name), pos + reclen, release fs blk).
End Dir.

(** ** Reading and writing rows of records *)

Definition is_byte (b : Z) : Prop := 0 <= b < 256.
Definition len_of (l : list Z) : Z := Z.of_nat (length l).

Lemma le4_bytes v : Forall is_byte (le4 v).
Proof. unfold le4, is_byte. repeat constructor; lia_mod. Qed.

Lemma le4_word v : is_u32 v -> List.hd 0 (words_of (le4 v)) = v.
Proof. unfold is_u32. intros Hv. simpl. lia_mod. Qed.

Lemma bytes_of_words_nat n bs : (length bs <= n)%nat -> Forall is_byte bs -> (4 | len_of bs) -> bytes_of (words_of bs) = bs.
Proof.
  revert bs. induction n as [|n IH]; intros bs Hn Hb [k Hk]; [by destruct bs; simpl in *; [|lia]|].
  destruct bs as [|b0 [|b1 [|b2 [|b3 bs]]]]; unfold len_of in Hk; simpl in Hk; try (done || (exfalso; lia)).
  apply Forall_cons_1 in Hb as [H0 Hb]. apply Forall_cons_1 in Hb as [H1 Hb].
  apply Forall_cons_1 in Hb as [H2 Hb]. apply Forall_cons_1 in Hb as [H3 Hb]. unfold is_byte in *.
  cbn [words_of]. unfold bytes_of in *. cbn [fmap list_fmap mjoin list_join].
  rewrite IH; [|simpl in Hn; lia|done|exists (k - 1); unfold len_of; lia].
  simpl. f_equal; [lia_mod|]. f_equal; [lia_mod|]. f_equal; [lia_mod|]. f_equal. lia_mod.
Qed.

Lemma bytes_of_words bs : Forall is_byte bs -> (4 | len_of bs) -> bytes_of (words_of bs) = bs.
Proof. by apply (bytes_of_words_nat (length bs)). Qed.

Lemma bytes_of_bytes ws : Forall is_byte (bytes_of ws).
Proof.
  induction ws as [|w ws IH]; [constructor|]. change (bytes_of (w :: ws)) with (le4 w ++ bytes_of ws).
  apply Forall_app. split; [apply le4_bytes|done].
Qed.

Lemma length_bytes_of ws : length (bytes_of ws) = (4 * length ws)%nat.
Proof.
  induction ws as [|w ws IH]; [done|]. change (bytes_of (w :: ws)) with (le4 w ++ bytes_of ws).
  rewrite length_app, IH. simpl. lia.
Qed.

Lemma length_words_of_nat n bs : (length bs <= n)%nat -> length (words_of bs) = (length bs / 4)%nat.
Proof.
  revert bs. induction n as [|n IH]; intros bs Hn; [by destruct bs; simpl in *; [|lia]|].
  destruct bs as [|b0 [|b1 [|b2 [|b3 bs]]]]; [done..|]. cbn [words_of length]. rewrite IH by (simpl in Hn; lia).
  replace (S (S (S (S (length bs))))) with (length bs + 1 * 4)%nat by lia. rewrite Nat.div_add by lia. lia.
Qed.

Section Rows.
Context (l : list Z) (p : Z) (Hp : p = len_of l).

Lemma rd_bytes_app m k n : n = len_of m -> rd_bytes (l ++ m ++ k) p n = Ret m.
Proof.
  unfold len_of in *. intros ->. unfold rd_bytes. rewrite (proj2 (Z.leb_le 0 p)), (proj2 (Z.leb_le 0 _)), (proj2 (Z.leb_le _ _)) by (lens; lia).
  cbn [andb]. rewrite Hp, !Nat2Z.id, drop_app_length, take_app_length. done.
Qed.

Lemma wr_bytes_app m m' k : length m' = length m -> wr_bytes (l ++ m ++ k) p m' = Ret (l ++ m' ++ k).
Proof.
  unfold len_of in *. intros Hm. unfold wr_bytes. rewrite (proj2 (Z.leb_le 0 p)), (proj2 (Z.leb_le _ _)) by (lens; lia).
  cbn [andb]. rewrite Hp, !Nat2Z.id, take_app_length. do 3 f_equal.
  rewrite drop_app_add', Hm by done. apply drop_app_length.
Qed.

Lemma rd32_app v k : is_u32 v -> rd32 (l ++ le4 v ++ k) p = Ret v.
Proof. intros Hv. unfold rd32. rewrite rd_bytes_app by done. cbn [obind]. by rewrite le4_word. Qed.

Lemma wr32_app m v k : is_u32 v -> length m = 4%nat -> wr32 (l ++ m ++ k) p v = Ret (l ++ le4 v ++ k).
Proof. intros Hv Hm. unfold wr32. rewrite u32_small by done. by apply wr_bytes_app. Qed.
End Rows.

Lemma len_of_app l k : len_of (l ++ k) = len_of l + len_of k.
Proof. unfold len_of. rewrite length_app. lia. Qed.

(** A record: the three words of its header, its name and the room behind it. *)
Definition hdr (ino rl nl : Z) : list Z := le4 ino ++ le4 rl ++ le4 nl.

Record dentry := Dentry { e_ino : Z; e_name : list Z; e_pad : list Z }.
Definition e_namelen (e : dentry) : Z := len_of (e_name e).
Definition e_reclen (e : dentry) : Z := DENTRY_SIZE + e_namelen e + len_of (e_pad e).
Definition enc (e : dentry) : list Z := hdr (e_ino e) (e_reclen e) (e_namelen e) ++ e_name e ++ e_pad e.
Definition row (es : list dentry) : list Z := mjoin (enc <$> es).
Definition offset (es : list dentry) : Z := len_of (row es).

Section Header.
Context (l : list Z) (p : Z) (Hp : p = len_of l).

Lemma de_ino_app i r n k : is_u32 i -> de_ino (l ++ hdr i r n ++ k) p = Ret i.
Proof. intros Hi. unfold de_ino, hdr. rewrite <- !(assoc_L (++)). by apply rd32_app. Qed.

Lemma de_reclen_app i r n k : is_u32 r -> de_reclen (l ++ hdr i r n ++ k) p = Ret r.
Proof.
  intros Hr. unfold de_reclen, hdr. rewrite <- !(assoc_L (++)), (assoc_L (++) l).
  apply rd32_app; [|done]. rewrite len_of_app, Hp. done.
Qed.

Lemma de_namelen_app i r n k : is_u32 n -> de_namelen (l ++ hdr i r n ++ k) p = Ret n.
Proof.
  intros Hn. unfold de_namelen, hdr. rewrite <- !(assoc_L (++)), (assoc_L (++) l), (assoc_L (++) (l ++ _)).
  apply rd32_app; [|done]. rewrite !len_of_app, Hp. unfold len_of. simpl. lia.
Qed.

Lemma wr_ino_app i i' r n k : is_u32 i' -> wr32 (l ++ hdr i r n ++ k) p i' = Ret (l ++ hdr i' r n ++ k).
Proof. intros Hi. unfold hdr. rewrite <- !(assoc_L (++)). by apply wr32_app. Qed.

Lemma wr_reclen_app i r r' n k : is_u32 r' -> set_reclen (l ++ hdr i r n ++ k) p r' = Ret (l ++ hdr i r' n ++ k).
Proof.
  intros Hr. unfold set_reclen, hdr. rewrite <- !(assoc_L (++)), !(assoc_L (++) l (le4 i)).
  apply wr32_app; [|done|done]. rewrite len_of_app, Hp. done.
Qed.

Lemma wr_namelen_app i r n n' k : is_u32 n' -> wr32 (l ++ hdr i r n ++ k) (p + 8) n' = Ret (l ++ hdr i r n' ++ k).
Proof.
  intros Hn. unfold hdr. rewrite <- !(assoc_L (++)), !(assoc_L (++) l (le4 i)), !(assoc_L (++) (l ++ le4 i)).
  apply wr32_app; [|done|done]. rewrite !len_of_app, Hp. unfold len_of. simpl. lia.
Qed.

Lemma rd_name_app i r n m k : rd_bytes (l ++ hdr i r n ++ m ++ k) (p + DENTRY_SIZE) (len_of m) = Ret m.
Proof. rewrite (assoc_L (++) l). apply rd_bytes_app; [|done]. rewrite len_of_app, Hp. done. Qed.

Lemma wr_name_app i r n m m' k : length m' = length m ->
  wr_bytes (l ++ hdr i r n ++ m ++ k) (p + DENTRY_SIZE) m' = Ret (l ++ hdr i r n ++ m' ++ k).
Proof. rewrite !(assoc_L (++) l). apply wr_bytes_app. rewrite len_of_app, Hp. done. Qed.
End Header.

(** ** Names *)

Lemma name_align l : 0 <= l < 2 ^ 31 -> NAME_ALIGN_LEN l = (l + 3) / 4 * 4.
Proof.
  intros Hl. unfold NAME_ALIGN_LEN. rewrite (u32_small (l + 3)) by (unfold is_u32; lia).
  change (u32 (Z.lnot 3)) with (Z.shiftl (Z.ones (32 - 2)) 2). rewrite (land_high _ 2 32) by lia. done.
Qed.

Lemma fnmatch_loop_spec nm : forall fn1 l k p, p = len_of l -> (length nm <= length fn1)%nat ->
  fnmatch_loop (length nm) fn1 (l ++ nm ++ k) p = Ret (bool_decide (take (length nm) fn1 = nm)).
Proof.
  induction nm as [|c nm IH]; intros fn1 l k p Hp Hf; [done|]. destruct fn1 as [|a fn1]; [simpl in Hf; lia|].
  cbn [length fnmatch_loop head deref obind]. unfold at_. rewrite (proj2 (Z.ltb_ge _ _)) by (unfold len_of in Hp; lia).
  rewrite lookup_app_r by (unfold len_of in Hp; lia). replace (Z.to_nat p - length l)%nat with 0%nat by (unfold len_of in Hp; lia).
  cbn [lookup list_lookup app deref obind tail]. cbn [take]. destruct (Z.eqb_spec a c) as [->|Hne].
  - replace (l ++ c :: nm ++ k) with ((l ++ [c]) ++ nm ++ k) by (by rewrite <- (assoc_L (++))).
    rewrite IH; [|rewrite len_of_app, Hp; done|simpl in Hf; lia]. f_equal. apply bool_decide_ext. split; [by intros ->|by intros [= ->]].
  - rewrite bool_decide_eq_false_2; [done|]. by intros [= ? _].
Qed.

Lemma fnmatch_spec nm fn1 len l k p : p = len_of l -> 0 <= len <= len_of fn1 ->
  fnmatch fn1 len (l ++ nm ++ k) p (len_of nm) = Ret (bool_decide (take (Z.to_nat len) fn1 = nm)).
Proof.
  intros Hp Hl. unfold fnmatch, len_of in *. destruct (Z.eqb_spec len (Z.of_nat (length nm))) as [->|Hne]; cbn [negb].
  - rewrite Nat2Z.id. apply fnmatch_loop_spec; [done|lia].
  - rewrite bool_decide_eq_false_2; [done|]. intros Heq. apply (f_equal length) in Heq. rewrite length_take in Heq. lia.
Qed.

(** ** Searching a row *)

Record entry_ok (e : dentry) : Prop := {
  eo_ino : is_u32 (e_ino e);
  eo_name : 0 < e_namelen e < MAXPATH;
  eo_room : NAME_ALIGN_LEN (e_namelen e) <= e_namelen e + len_of (e_pad e);
  eo_align : (4 | e_reclen e);
  eo_bytes : Forall is_byte (e_name e) /\ Forall is_byte (e_pad e);
}.

Lemma row_app es es' : row (es ++ es') = row es ++ row es'.
Proof. unfold row. by rewrite fmap_app, join_app. Qed.
Lemma row_cons e es : row (e :: es) = enc e ++ row es.
Proof. done. Qed.
Lemma len_of_nonneg l : 0 <= len_of l.
Proof. unfold len_of. lia. Qed.
Lemma len_enc e : len_of (enc e) = e_reclen e.
Proof. unfold enc, e_reclen, e_namelen, hdr, len_of. rewrite !length_app. simpl. unfold DENTRY_SIZE. lia. Qed.
Lemma offset_app es es' : offset (es ++ es') = offset es + offset es'.
Proof. unfold offset. by rewrite row_app, len_of_app. Qed.
Lemma offset_cons e es : offset (e :: es) = e_reclen e + offset es.
Proof. unfold offset. by rewrite row_cons, len_of_app, len_enc. Qed.
Lemma offset_nonneg es : 0 <= offset es.
Proof. apply len_of_nonneg. Qed.
Lemma reclen_pos e : DENTRY_SIZE <= e_reclen e.
Proof. unfold e_reclen, e_namelen. pose proof (len_of_nonneg (e_name e)). pose proof (len_of_nonneg (e_pad e)). lia. Qed.

(** A row that fills a block. *)
Record row_ok (bs : Z) (es : list dentry) : Prop := {
  ro_size : offset es = bs;
  ro_bound : bs < 2 ^ 31;
  ro_entries : Forall entry_ok es;
}.

(** The record [e] inside a row, with its neighbours. *)
Lemma row_at bs es1 e es2 : row_ok bs (es1 ++ e :: es2) ->
  entry_ok e /\ 0 <= offset es1 /\ DENTRY_SIZE <= e_reclen e /\ offset es1 + e_reclen e + offset es2 = bs
  /\ is_u32 (e_reclen e) /\ is_u32 (e_namelen e) /\ is_u32 (e_ino e) /\ 0 <= offset es2.
Proof.
  intros [Hs Hb He]. rewrite offset_app, offset_cons in Hs. apply Forall_app in He as [_ He]. apply Forall_cons_1 in He as [He _].
  pose proof (offset_nonneg es1). pose proof (offset_nonneg es2). pose proof (reclen_pos e). pose proof (eo_name _ He). pose proof (eo_ino _ He).
  unfold is_u32, MAXPATH, DENTRY_SIZE in *. split; [done|]. repeat split; lia.
Qed.

Lemma row_split es1 e es2 : row (es1 ++ e :: es2) = row es1 ++ hdr (e_ino e) (e_reclen e) (e_namelen e) ++ e_name e ++ e_pad e ++ row es2.
Proof. rewrite row_app, row_cons. unfold enc. by rewrite <- !(assoc_L (++)). Qed.

(** The fields of a record of a row. *)
Lemma row_fields bs es1 e es2 : row_ok bs (es1 ++ e :: es2) ->
  de_ino (row (es1 ++ e :: es2)) (offset es1) = Ret (e_ino e) /\ de_reclen (row (es1 ++ e :: es2)) (offset es1) = Ret (e_reclen e)
  /\ de_namelen (row (es1 ++ e :: es2)) (offset es1) = Ret (e_namelen e)
  /\ forall name len, 0 <= len <= len_of name ->
     fnmatch name len (row (es1 ++ e :: es2)) (offset es1 + DENTRY_SIZE) (e_namelen e) = Ret (bool_decide (take (Z.to_nat len) name = e_name e)).
Proof.
  intros Hok. destruct (row_at _ _ _ _ Hok) as (He & _ & _ & _ & Hur & Hun & Hui & _). rewrite row_split.
  split; [by apply de_ino_app|]. split; [by apply de_reclen_app|]. split; [by apply de_namelen_app|].
  intros name len Hl. rewrite (assoc_L (++) (row es1)). apply fnmatch_spec; [by rewrite len_of_app|done].
Qed.

Definition names (es : list dentry) : list (list Z) := e_name <$> es.
Definition last_offset (prev : option Z) (p : Z) (es : list dentry) : option Z :=
  match last es with Some e => Some (p + offset es - e_reclen e) | None => prev end.

Lemma scan_row_spec bs name len fuel : 0 <= len <= len_of name -> len < MAXPATH ->
  forall es2 es1 prev, row_ok bs (es1 ++ es2) -> (length es2 <= fuel)%nat ->
  let nm := take (Z.to_nat len) name in
  scan fuel (row (es1 ++ es2)) bs name len (offset es1) prev = Ret None /\ (nm ∉ names es2)
  \/ exists l1 e l2, es2 = l1 ++ e :: l2 /\ (e_name e = nm) /\ (nm ∉ names l1)
    /\ scan fuel (row (es1 ++ es2)) bs name len (offset es1) prev = Ret (Some (offset (es1 ++ l1), last_offset prev (offset es1) l1)).
Proof.
  intros Hl Hm. induction fuel as [|fuel IH]; intros es2 es1 prev Hok Hf nm; cbn [scan]; destruct es2 as [|e es2]; try (simpl in Hf; lia);
    try (rewrite app_nil_r in *; rewrite (proj2 (Z.ltb_ge _ _)) by (rewrite (ro_size _ _ Hok); lia); left; split; [done|set_solver]).
  destruct (row_at _ _ _ _ Hok) as (He & Ho1 & Hr & Hsum & Hur & Hun & Hui & Ho2). pose proof (eo_name _ He) as Hnl. unfold DENTRY_SIZE in Hr.
  destruct (row_fields _ _ _ _ Hok) as (_ & Hrl & Hnlen & Hfn).
  rewrite (proj2 (Z.ltb_lt _ _)) by lia. rewrite Hnlen. cbn [obind].
  rewrite s32_small by (unfold is_s32, MAXPATH in *; lia). rewrite Hfn by done. cbn [obind]. fold nm. case_bool_decide as Hn.
  - right. exists [], e, es2. rewrite app_nil_r. split; [done|]. split; [done|]. split; [set_solver|done].
  - rewrite Hrl. cbn [obind].
    assert (Happ : es1 ++ e :: es2 = (es1 ++ [e]) ++ es2) by (by rewrite <- (assoc_L (++))).
    assert (Hoff : offset es1 + e_reclen e = offset (es1 ++ [e])) by (rewrite offset_app, offset_cons; change (offset []) with 0; lia).
    rewrite Happ in *. rewrite Hoff. destruct (IH es2 (es1 ++ [e]) (Some (offset es1)) Hok) as [[-> Hni]|(l1 & e' & l2 & -> & Hn' & Hni & ->)];
      [simpl in Hf; lia|left|right].
    + split; [done|]. unfold names in *. rewrite fmap_cons. set_solver.
    + exists (e :: l1), e', l2. split; [done|]. split; [done|]. split; [unfold names in *; rewrite fmap_cons; set_solver|].
      rewrite <- (assoc_L (++) es1 [e] l1). do 3 f_equal. unfold last_offset. rewrite last_cons. destruct (last l1) eqn:Hlast.
      * rewrite <- Hoff, offset_cons. f_equal. lia.
      * apply last_None in Hlast as ->. rewrite offset_cons. change (offset []) with 0. f_equal. lia.
Qed.

(** Room for a record of length [newlen] behind the name of [e]. *)
Definition minlen (e : dentry) : Z := DENTRY_SIZE + NAME_ALIGN_LEN (e_namelen e).
Definition has_room (newlen : Z) (e : dentry) : Prop := minlen e + newlen <= e_reclen e.
#[export] Instance has_room_dec newlen e : Decision (has_room newlen e) := Z_le_dec _ _.

Lemma minlen_spec e : entry_ok e -> minlen e = DENTRY_SIZE + (e_namelen e + 3) / 4 * 4 /\ DENTRY_SIZE < minlen e <= DENTRY_SIZE + 256
  /\ minlen e <= e_reclen e /\ u32 (DENTRY_SIZE + NAME_ALIGN_LEN (e_namelen e)) = minlen e.
Proof.
  intros He. pose proof (eo_name _ He) as Hn. pose proof (eo_room _ He) as Hr. unfold minlen, e_reclen, DENTRY_SIZE, MAXPATH in *.
  rewrite name_align in * by lia. rewrite u32_small by (unfold is_u32; lia_mod). split; [done|]. split; [lia_mod|]. split; [lia|done].
Qed.

Lemma find_room_spec bs newlen fuel : 0 <= newlen < 2 ^ 31 ->
  forall es2 es1, row_ok bs (es1 ++ es2) -> (length es2 <= fuel)%nat ->
  find_room fuel (row (es1 ++ es2)) bs newlen (offset es1) = Ret None /\ Forall (fun e => ~ has_room newlen e) es2
  \/ exists l1 e l2, es2 = l1 ++ e :: l2 /\ has_room newlen e /\ Forall (fun e => ~ has_room newlen e) l1
    /\ find_room fuel (row (es1 ++ es2)) bs newlen (offset es1) = Ret (Some (offset (es1 ++ l1))).
Proof.
  intros Hl. induction fuel as [|fuel IH]; intros es2 es1 Hok Hf; cbn [find_room]; destruct es2 as [|e es2]; try (simpl in Hf; lia);
    try (rewrite app_nil_r in *; rewrite (proj2 (Z.ltb_ge _ _)) by (rewrite (ro_size _ _ Hok); lia); left; split; [done|constructor]).
  destruct (row_at _ _ _ _ Hok) as (He & Ho1 & Hr & Hsum & Hur & Hun & Hui & Ho2). destruct (minlen_spec e He) as (_ & Hmin & _ & Hmu). unfold DENTRY_SIZE in Hr, Hmin.
  destruct (row_fields _ _ _ _ Hok) as (_ & Hrl & Hnlen & _).
  rewrite (proj2 (Z.ltb_lt _ _)) by lia. rewrite Hnlen. cbn [obind]. rewrite Hmu, Hrl. cbn [obind].
  rewrite u32_small by (unfold is_u32; lia). destruct (Z.leb_spec (minlen e + newlen) (e_reclen e)) as [Hle|Hgt].
  - right. exists [], e, es2. rewrite app_nil_r. split; [done|]. split; [done|]. split; [constructor|done].
  - assert (Happ : es1 ++ e :: es2 = (es1 ++ [e]) ++ es2) by (by rewrite <- (assoc_L (++))).
    assert (Hoff : offset es1 + e_reclen e = offset (es1 ++ [e])) by (rewrite offset_app, offset_cons; change (offset []) with 0; lia).
    assert (Hne : ~ has_room newlen e) by (unfold has_room; lia).
    rewrite Happ in *. rewrite Hoff. destruct (IH es2 (es1 ++ [e]) Hok) as [[-> Hni]|(l1 & e' & l2 & -> & Hn' & Hni & ->)];
      [simpl in Hf; lia|left|right].
    + split; [done|]. by constructor.
    + exists (e :: l1), e', l2. split; [done|]. split; [done|]. split; [by constructor|].
      by rewrite <- (assoc_L (++) es1 [e] l1).
Qed.

(** Enough fuel for a block: every record is longer than its number. *)
Lemma row_fuel bs es : row_ok bs es -> (length es <= Z.to_nat bs)%nat.
Proof.
  intros [Hs _ _]. enough (Z.of_nat (length es) <= offset es) by lia. clear Hs. induction es as [|e es IH]; [done|].
  rewrite offset_cons. pose proof (reclen_pos e). unfold DENTRY_SIZE in *. simpl. lia.
Qed.

(** ** Changing a row *)

Definition row_upd (bs : Z) (d : outcome (list Z)) (es : list dentry) : Prop := d = Ret (row es) /\ row_ok bs es.

Lemma row_ok_replace bs es1 l l' es2 : row_ok bs (es1 ++ l ++ es2) -> offset l' = offset l -> Forall entry_ok l' ->
  row_ok bs (es1 ++ l' ++ es2).
Proof.
  intros [Hs Hb He] Ho Hl. constructor; [|done|].
  - rewrite !offset_app in *. lia.
  - apply Forall_app in He as [He1 He2]. apply Forall_app in He2 as [_ He2]. by rewrite !Forall_app.
Qed.

Lemma modify_spec bs es1 e es2 ino : row_ok bs (es1 ++ e :: es2) -> is_u32 ino ->
  row_upd bs (wr32 (row (es1 ++ e :: es2)) (offset es1) ino) (es1 ++ Dentry ino (e_name e) (e_pad e) :: es2).
Proof.
  intros Hok Hi. destruct (row_at _ _ _ _ Hok) as (He & _). split.
  - rewrite !row_split. by apply (wr_ino_app (row es1)).
  - apply (row_ok_replace bs es1 [e] [_] es2 Hok); [done|]. destruct He. apply Forall_singleton. by constructor.
Qed.

Lemma write_entry_spec l p m ino rl nm name len k : p = len_of l -> is_u32 ino -> is_u32 rl -> len = len_of nm -> len < MAXPATH ->
  (nm = take (Z.to_nat len) name /\ len <= len_of name) -> length m = (12 + length nm)%nat ->
  write_entry (l ++ m ++ k) p ino rl name len = Ret (l ++ hdr ino rl len ++ nm ++ k).
Proof.
  intros Hp Hi Hr Hlen Hmax [Hnm Hln] Hm. assert (Hu : is_u32 len) by (unfold is_u32, MAXPATH, len_of in *; lia).
  assert (Hpieces : exists a b c n, m = a ++ b ++ c ++ n /\ length a = 4%nat /\ length b = 4%nat /\ length c = 4%nat /\ length n = length nm).
  { exists (take 4 m), (take 4 (drop 4 m)), (take 4 (drop 8 m)), (drop 12 m). rewrite !length_take, !length_drop.
    split; [|lia]. change (drop 12 m) with (drop (4 + 8) m). change (drop 8 m) with (drop (4 + 4) m).
    rewrite <- (drop_drop m 8 4), <- (drop_drop m 4 4). rewrite <- (take_drop 4 m) at 1. f_equal.
    rewrite <- (take_drop 4 (drop 4 m)) at 1. f_equal. change (drop 8 (drop 4 m)) with (drop (4 + 4) (drop 4 m)).
    rewrite <- (drop_drop (drop 4 m) 4 4). by rewrite take_drop. }
  destruct Hpieces as (a & b & c & n & -> & Ha & Hb & Hc & Hn). unfold write_entry, set_reclen, hdr.
  rewrite <- !(assoc_L (++)). rewrite (wr32_app l p Hp a) by done. cbn [obind].
  rewrite (assoc_L (++) l (le4 ino)). rewrite (wr32_app (l ++ le4 ino) (p + 4)) by (rewrite ?len_of_app; done || (rewrite Hp; done)). cbn [obind].
  rewrite (assoc_L (++) (l ++ le4 ino) (le4 rl)).
  rewrite (wr32_app ((l ++ le4 ino) ++ le4 rl) (p + 8)) by (done || (rewrite !len_of_app, Hp; unfold len_of; simpl; lia)). cbn [obind].
  assert (Hrd : rd_bytes name 0 len = Ret nm).
  { pose proof (rd_bytes_app [] 0 eq_refl nm (drop (Z.to_nat len) name) len Hlen) as Hrd. cbn [app] in Hrd.
    rewrite <- Hrd. f_equal. rewrite Hnm. by rewrite take_drop. }
  rewrite Hrd. cbn [obind]. rewrite (assoc_L (++) _ (le4 len)).
  rewrite wr_bytes_app; [by rewrite <- !(assoc_L (++))|rewrite !len_of_app, Hp; unfold len_of, DENTRY_SIZE; simpl; lia|done].
Qed.

Lemma is_byte_take n l : Forall is_byte l -> Forall is_byte (take n l).
Proof. apply Forall_take. Qed.

(** What the entry that is added needs of its name. *)
Definition name_ok (name : list Z) (len : Z) : Prop := 0 < len < MAXPATH /\ len <= len_of name /\ Forall is_byte name.
Definition the_name (name : list Z) (len : Z) : list Z := take (Z.to_nat len) name.

Lemma the_name_len name len : name_ok name len -> len = len_of (the_name name len).
Proof. intros ((? & ?) & Hl & _). unfold the_name, len_of in *. rewrite length_take. lia. Qed.

Definition split_at (e : dentry) (ino : Z) (nm : list Z) : list dentry :=
  let k := Z.to_nat (minlen e - DENTRY_SIZE - e_namelen e) in
  let rest := drop k (e_pad e) in
  [Dentry (e_ino e) (e_name e) (take k (e_pad e)); Dentry ino nm (drop (12 + length nm) rest)].

(** The room of [e] in three parts: what stays with it, where the new record goes, what it gets. *)
Lemma split_pad e ino nm : entry_ok e -> 0 < len_of nm < MAXPATH -> has_room (DENTRY_SIZE + NAME_ALIGN_LEN (len_of nm)) e ->
  exists p1 m p2, e_pad e = p1 ++ m ++ p2 /\ length m = (12 + length nm)%nat
    /\ split_at e ino nm = [Dentry (e_ino e) (e_name e) p1; Dentry ino nm p2]
    /\ e_reclen (Dentry (e_ino e) (e_name e) p1) = minlen e /\ e_reclen (Dentry ino nm p2) = e_reclen e - minlen e.
Proof.
  intros He Hn Hroom. destruct (minlen_spec e He) as (Hmeq & Hmin & Hmle & _). unfold has_room, MAXPATH in *. rewrite name_align in Hroom by lia.
  set (k := Z.to_nat (minlen e - DENTRY_SIZE - e_namelen e)). set (rest := drop k (e_pad e)).
  exists (take k (e_pad e)), (take (12 + length nm) rest), (drop (12 + length nm) rest).
  pose proof (eo_name _ He). unfold MAXPATH in *.
  assert (Hk : Z.of_nat k = minlen e - DENTRY_SIZE - e_namelen e) by (unfold k; rewrite Hmeq; lia_mod).
  assert (Hpad : len_of (e_pad e) = e_reclen e - DENTRY_SIZE - e_namelen e) by (unfold e_reclen; lia).
  assert (Hrest : Z.of_nat (length rest) = e_reclen e - minlen e) by (unfold rest; rewrite length_drop; unfold len_of in *; lia).
  unfold len_of, DENTRY_SIZE in *. split; [rewrite take_drop; unfold rest; by rewrite take_drop|].
  split; [rewrite length_take; lia_mod|]. split; [done|]. split.
  - unfold e_reclen, e_namelen in *. cbn [e_name e_pad]. unfold len_of, DENTRY_SIZE in *. rewrite length_take. lia.
  - unfold e_reclen at 1, e_namelen at 1. cbn [e_name e_pad]. unfold len_of, DENTRY_SIZE in *. rewrite length_drop. lia_mod.
Qed.

Lemma split_entries_ok e ino nm : entry_ok e -> is_u32 ino -> 0 < len_of nm < MAXPATH -> Forall is_byte nm ->
  has_room (DENTRY_SIZE + NAME_ALIGN_LEN (len_of nm)) e -> Forall entry_ok (split_at e ino nm).
Proof.
  intros He Hi Hn Hb Hroom. destruct (split_pad e ino nm He Hn Hroom) as (p1 & m & p2 & Hp & Hm & -> & Hr1 & Hr2).
  destruct (minlen_spec e He) as (Hmeq & _). destruct (eo_bytes _ He) as [Hb1 Hb2]. rewrite Hp, !Forall_app in Hb2.
  assert (Hdiv : (4 | minlen e)) by (rewrite Hmeq; unfold DENTRY_SIZE; exists (3 + (e_namelen e + 3) / 4); lia).
  constructor; [|apply Forall_singleton]; constructor; rewrite ?Hr1, ?Hr2; cbn [e_ino e_name e_pad]; try done.
  - apply He.
  - apply He.
  - unfold e_reclen, minlen in *. unfold e_namelen in *. cbn [e_name e_pad] in *. lia.
  - split; [done|apply Hb2].
  - unfold e_reclen at 1 in Hr2. unfold e_namelen in *. cbn [e_name e_pad] in *. unfold has_room in Hroom. lia.
  - apply Z.divide_sub_r; [apply He|done].
  - split; [done|apply Hb2].
Qed.

Lemma split_spec bs es1 e es2 ino name len : row_ok bs (es1 ++ e :: es2) -> is_u32 ino -> name_ok name len ->
  has_room (DENTRY_SIZE + NAME_ALIGN_LEN len) e ->
  row_upd bs (split_entry (row (es1 ++ e :: es2)) (offset es1) ino name len) (es1 ++ split_at e ino (the_name name len) ++ es2).
Proof.
  intros Hok Hi Hn Hroom. pose proof (the_name_len _ _ Hn) as Hlen. destruct Hn as (Hn0 & Hn1 & Hn2).
  set (nm := the_name name len) in *. assert (Hnmb : Forall is_byte nm) by (by apply Forall_take).
  destruct (row_at _ _ _ _ Hok) as (He & Ho1 & Hr & Hsum & Hur & Hun & Hui & Ho2). pose proof (ro_bound _ _ Hok).
  destruct (minlen_spec e He) as (_ & Hmin & Hmle & Hmu). destruct (row_fields _ _ _ _ Hok) as (_ & Hrl & Hnl & _).
  rewrite Hlen in Hroom, Hn0. destruct (split_pad e ino nm He Hn0 Hroom) as (p1 & m & p2 & Hp & Hm & Hsp & Hr1 & Hr2).
  unfold is_u32, DENTRY_SIZE in *. split.
  - unfold split_entry, DENTRY_SIZE in *. rewrite Hnl. cbn [obind]. rewrite Hmu, Hrl. cbn [obind]. rewrite u32_small by (unfold is_u32; lia).
    rewrite row_split, Hp, <- !(assoc_L (++)).
    replace (row es1 ++ hdr (e_ino e) (e_reclen e) (e_namelen e) ++ e_name e ++ p1 ++ m ++ p2 ++ row es2)
      with ((row es1 ++ hdr (e_ino e) (e_reclen e) (e_namelen e) ++ e_name e ++ p1) ++ m ++ p2 ++ row es2) by (by rewrite <- !(assoc_L (++))).
    rewrite (write_entry_spec _ _ m ino (e_reclen e - minlen e) nm); try (done || (unfold is_u32; lia)).
    + cbn [obind]. rewrite <- !(assoc_L (++)), (wr_reclen_app (row es1) (offset es1)) by (done || (unfold is_u32; lia)).
      rewrite Hsp, !row_app, !row_cons. unfold enc. rewrite Hr1, Hr2. change (e_namelen (Dentry (e_ino e) _ p1)) with (e_namelen e).
      change (e_namelen (Dentry ino nm p2)) with (len_of nm). rewrite <- Hlen. cbn [e_ino e_name e_pad]. by rewrite <- !(assoc_L (++)).
    + rewrite !len_of_app. rewrite <- Hr1. unfold offset, e_reclen, e_namelen, hdr, len_of, DENTRY_SIZE. simpl. lia.
  - apply (row_ok_replace bs es1 [e] _ es2 Hok); [rewrite Hsp, !offset_cons, Hr1, Hr2; lia|by apply split_entries_ok].
Qed.

Definition merged_prev (e0 e : dentry) : dentry := Dentry (e_ino e0) (e_name e0) (e_pad e0 ++ replicate (Z.to_nat (e_reclen e)) 0).

Lemma merge_prev_spec bs es1 e0 e es2 : row_ok bs (es1 ++ e0 :: e :: es2) ->
  row_upd bs (merge_prev (row (es1 ++ e0 :: e :: es2)) (offset es1) (offset (es1 ++ [e0]))) (es1 ++ merged_prev e0 e :: es2).
Proof.
  intros Hok. pose proof (ro_bound _ _ Hok). destruct (row_at _ _ _ _ Hok) as (He0 & Ho1 & Hr0 & Hsum & Hu0 & Hn0 & Hi0 & Ho2).
  destruct (row_fields _ _ _ _ Hok) as (_ & Hrl0 & _ & _).
  assert (Happ : es1 ++ e0 :: e :: es2 = (es1 ++ [e0]) ++ e :: es2) by (by rewrite <- (assoc_L (++))).
  rewrite offset_cons in Hsum. pose proof (offset_nonneg es2).
  assert (Hok' := Hok). rewrite Happ in Hok'. destruct (row_at _ _ _ _ Hok') as (He & _ & Hr & _ & Hu & _).
  destruct (row_fields _ _ _ _ Hok') as (_ & Hrl & _ & _). rewrite <- Happ in Hrl. unfold DENTRY_SIZE in Hr, Hr0.
  assert (Hrec : e_reclen (merged_prev e0 e) = e_reclen e0 + e_reclen e).
  { unfold merged_prev, e_reclen at 1, e_namelen at 1. cbn [e_name e_pad]. rewrite len_of_app. unfold len_of at 3. rewrite length_replicate, Z2Nat.id by lia.
    unfold e_reclen at 2, e_namelen. lia. }
  assert (Hoff : offset (es1 ++ [e0]) = len_of (row es1 ++ hdr (e_ino e0) (e_reclen e0 + e_reclen e) (e_namelen e0) ++ e_name e0 ++ e_pad e0)).
  { rewrite offset_app, offset_cons. change (offset []) with 0. rewrite !len_of_app. unfold offset, e_reclen at 1, e_namelen, hdr, len_of, DENTRY_SIZE. simpl. lia. }
  split.
  - unfold merge_prev. rewrite Hrl. cbn [obind]. rewrite Hrl0. cbn [obind]. rewrite u32_small by (unfold is_u32 in *; lia).
    rewrite row_split, row_cons, (wr_reclen_app (row es1) (offset es1)) by (done || (unfold is_u32 in *; lia)). cbn [obind].
    replace (row es1 ++ hdr (e_ino e0) (e_reclen e0 + e_reclen e) (e_namelen e0) ++ e_name e0 ++ e_pad e0 ++ enc e ++ row es2)
      with ((row es1 ++ hdr (e_ino e0) (e_reclen e0 + e_reclen e) (e_namelen e0) ++ e_name e0 ++ e_pad e0) ++ enc e ++ row es2) by (by rewrite <- !(assoc_L (++))).
    unfold enc at 1. rewrite <- (assoc_L (++) (hdr (e_ino e) _ _)). rewrite de_reclen_app by done. cbn [obind].
    rewrite wr_bytes_app; [|done|rewrite length_replicate; pose proof (len_enc e); unfold len_of in *; lia].
    rewrite row_split, Hrec. change (e_namelen (merged_prev e0 e)) with (e_namelen e0). unfold merged_prev. cbn [e_ino e_name e_pad]. by rewrite <- !(assoc_L (++)).
  - apply (row_ok_replace bs es1 [e0; e] [_] es2 Hok); [rewrite !offset_cons, Hrec; lia|]. apply Forall_singleton.
    destruct He0. constructor; rewrite ?Hrec; unfold merged_prev; cbn [e_ino e_name e_pad]; try done.
    + change (e_namelen _) with (e_namelen e0). rewrite len_of_app. pose proof (len_of_nonneg (replicate (Z.to_nat (e_reclen e)) 0)). lia.
    + apply Z.divide_add_r; [done|apply He].
    + split; [tauto|]. apply Forall_app. split; [tauto|]. apply Forall_replicate. unfold is_byte. lia.
Qed.

Lemma merge_next_spec bs e e1 es2 : row_ok bs (e :: e1 :: es2) ->
  exists pad, row_upd bs (merge_next (row (e :: e1 :: es2)) 0) (Dentry (e_ino e1) (e_name e1) pad :: es2).
Proof.
  intros Hok. pose proof (ro_bound _ _ Hok). destruct (row_at _ [] _ _ Hok) as (He & _ & Hr & Hsum & Hu & Hn & Hi & Ho2).
  destruct (row_fields _ [] _ _ Hok) as (_ & Hrl & _ & _). cbn [app] in Hrl. change (offset []) with 0 in *.
  rewrite offset_cons in Hsum. pose proof (offset_nonneg es2).
  assert (Hok' : row_ok bs ([e] ++ e1 :: es2)) by done. destruct (row_at _ _ _ _ Hok') as (He1 & _ & Hr1 & _ & Hu1 & Hn1 & Hi1 & _).
  unfold DENTRY_SIZE in Hr, Hr1. pose proof (eo_name _ He1) as Hnl. unfold MAXPATH in Hnl.
  set (body := e_name e ++ e_pad e ++ enc e1). set (m := take (length (e_name e1)) body). set (pad := drop (length (e_name e1)) body).
  assert (Hbody : length body = (length (e_name e) + length (e_pad e) + 12 + length (e_name e1) + length (e_pad e1))%nat)
    by (unfold body, enc, hdr; rewrite !length_app; simpl; lia).
  assert (Hrec : e_reclen (Dentry (e_ino e1) (e_name e1) pad) = e_reclen e + e_reclen e1).
  { unfold e_reclen, e_namelen, len_of, DENTRY_SIZE. cbn [e_name e_pad]. unfold pad. rewrite length_drop, Hbody. lia. }
  exists pad. split.
  - unfold merge_next. rewrite Hrl. cbn [obind]. rewrite Z.add_0_l. rewrite !row_cons. unfold enc. rewrite <- !(assoc_L (++)).
    set (pre r i n := hdr i r n ++ e_name e ++ e_pad e).
    assert (Hpre : forall r i n k, hdr i r n ++ e_name e ++ e_pad e ++ k = pre r i n ++ k) by (intros; unfold pre; by rewrite <- !(assoc_L (++))).
    assert (Hlen : forall r i n, e_reclen e = len_of (pre r i n)).
    { intros. unfold pre. rewrite !len_of_app. unfold e_reclen, e_namelen, hdr, len_of, DENTRY_SIZE. simpl. lia. }
    pose proof (wr_ino_app [] 0 eq_refl) as Hwi. pose proof (wr_reclen_app [] 0 eq_refl) as Hwr.
    pose proof (wr_namelen_app [] 0 eq_refl) as Hwn. pose proof (wr_name_app [] 0 eq_refl) as Hwm. cbn [app] in Hwi, Hwr, Hwn, Hwm.
    rewrite Hpre, (de_ino_app (pre _ _ _) (e_reclen e)) by done. cbn [obind].
    rewrite <- Hpre, Hwi by done. cbn [obind].
    rewrite Hpre, (de_reclen_app (pre _ _ _) (e_reclen e)) by done. cbn [obind]. rewrite u32_small by (unfold is_u32 in *; lia).
    rewrite <- Hpre, Hwr by (unfold is_u32 in *; lia). cbn [obind].
    rewrite Hpre, (de_namelen_app (pre _ _ _) (e_reclen e)) by done. cbn [obind].
    rewrite <- Hpre, Hwn by done. cbn [obind].
    rewrite Hpre, (rd_name_app (pre _ _ _) (e_reclen e)) by done. cbn [obind]. rewrite <- Hpre.
    assert (Hsp : e_name e ++ e_pad e ++ hdr (e_ino e1) (e_reclen e1) (e_namelen e1) ++ e_name e1 ++ e_pad e1 ++ row es2 = m ++ pad ++ row es2).
    { rewrite (assoc_L (++) m). unfold m, pad. rewrite take_drop. unfold body, enc. by rewrite <- !(assoc_L (++)). }
    rewrite Hsp. rewrite Hwm; [|unfold m; rewrite length_take, Hbody; lia].
    rewrite Hrec. change (e_namelen (Dentry _ (e_name e1) _)) with (e_namelen e1). done.
  - apply (row_ok_replace bs [] [e; e1] [_] es2 Hok); [rewrite !offset_cons, Hrec; lia|]. apply Forall_singleton.
    destruct (eo_bytes _ He), (eo_bytes _ He1). constructor; rewrite ?Hrec; cbn [e_ino e_name e_pad]; try done.
    + pose proof (eo_room _ He1). change (e_namelen (Dentry _ (e_name e1) _)) with (e_namelen e1). unfold len_of, pad in *. rewrite length_drop, Hbody. lia.
    + apply Z.divide_add_r; [apply He|apply He1].
    + split; [done|]. apply Forall_drop. unfold body, enc, hdr. rewrite !Forall_app. repeat split; (done || apply le4_bytes).
Qed.

Lemma row_bytes es : Forall entry_ok es -> Forall is_byte (row es) /\ (4 | offset es).
Proof.
  induction 1 as [|e es He Hes [IH1 IH2]]; [split; [constructor|exists 0; done]|]. rewrite row_cons, offset_cons. split.
  - destruct (eo_bytes _ He). unfold enc, hdr. rewrite !Forall_app. repeat split; (done || apply le4_bytes).
  - apply Z.divide_add_r; [apply He|done].
Qed.

(** What is stored as words is read as the same bytes. *)
Lemma row_words bs es : row_ok bs es -> bytes_of (words_of (row es)) = row es.
Proof. intros [_ _ He]. destruct (row_bytes es He). by apply bytes_of_words. Qed.

Lemma row_page bs es : row_ok bs es -> (4 | bs) -> 4 * Z.of_nat (length (words_of (row es))) = bs.
Proof.
  intros [<- _ _] [k Hk]. rewrite (length_words_of_nat (length (row es))) by lia. unfold offset, len_of in *.
  rewrite Nat2Z.inj_div. lia_mod.
Qed.

(** ** Directories

    [dir_ok fs x bl ess]: the blocks of the directory [x] are [bl], and the records in them
    [ess].  The way from the inode to its blocks does not lead through the blocks. *)

Section DirSpec.
Context {C : Type} `{BC : BufferCache C} (cr : cred) (now : Z).
Implicit Types (fs : filsys C) (x : inode) (bl : list Z) (ess : list (list dentry)).

Definition same_fs fs fs' : Prop := (exists c, fs' = set_cache fs c) /\ same_data fs fs'.
Definition unreadable : Prop := exists fs b, (get fs b).1 = false.

Record pages_ok fs : Prop := {
  po_page : forall b, 4 * Z.of_nat (length (page fs b)) = blocksize fs;
  po_log : 0 <= log_blkptrs_per_block fs /\ blocksize fs = 4 * 2 ^ log_blkptrs_per_block fs;
}.

Definition mapped fs x bl (i : nat) (b : Z) : Prop :=
  exists o offsets top, split_levels (i_depth (i_desc x)) (log_blkptrs_per_block fs) (Z.of_nat i) = Ret (o, offsets)
    /\ i_blockdir (i_desc x) !! Z.to_nat o = Some top
    /\ forall d, (forall c, c ∉ bl -> d c = page fs c) -> follow d top offsets = Some b.

Record dir_ok fs x bl ess : Prop := {
  do_pages : pages_ok fs;
  do_depth : 0 <= i_depth (i_desc x) < DFS_MAX_DEPTH;
  do_top : length (i_blockdir (i_desc x)) = DFS_TOPBLOCKDIR_SIZE;
  do_blocks : i_blocks (i_desc x) = Z.of_nat (length bl);
  do_capacity : Z.of_nat (length bl) <= 16 * 2 ^ (i_depth (i_desc x) * log_blkptrs_per_block fs);
  do_nodup : NoDup bl;
  do_real : NOBLOCK ∉ bl;
  do_map : forall i b, bl !! i = Some b -> mapped fs x bl i b;
  do_rows : Forall2 (fun b es => data fs b = row es /\ row_ok (blocksize fs) es) bl ess;
}.

Lemma same_fs_refl fs : same_fs fs fs.
Proof. split; [exists (cache fs); by destruct fs|done]. Qed.

Lemma same_fs_trans fs1 fs2 fs3 : same_fs fs1 fs2 -> same_fs fs2 fs3 -> same_fs fs1 fs3.
Proof. intros [[c1 ->] H1] [[c2 ->] H2]. split; [by exists c2|]. intros b. by rewrite H2, H1. Qed.

Lemma same_data_bytes fs fs' b : same_data fs fs' -> data fs' b = data fs b.
Proof. intros Hs. unfold data. by rewrite Hs. Qed.

Lemma get_levels_cache os : forall fs b r fs', get_levels fs b os = Ret (r, fs') -> exists c, fs' = set_cache fs c.
Proof.
  induction os as [|o os IH]; intros fs b r fs'; cbn [get_levels]; [intros [= <- <-]; exists (cache fs); by destruct fs|].
  unfold get. destruct (get_buffer (cache fs) b) as [ok c]. destruct ok; cbn [negb]; [|intros [= <- <-]; by exists c].
  destruct (at_ (page (set_cache fs c) b) o) as [next| | |]; try done. cbn [obind]. destruct (next =? 0); [intros [= <- <-]; by eexists|].
  intros Hg. apply IH in Hg as [c' ->]. by eexists.
Qed.

(** Everything a directory needs survives what only changes the cache. *)
Lemma dir_ok_same fs fs' x bl ess : same_fs fs fs' -> dir_ok fs x bl ess -> dir_ok fs' x bl ess.
Proof.
  intros [[c ->] Hd] [Hp Hdep Htop Hb Hcap Hnd Hr Hm Hrow]. constructor; try done.
  - destruct Hp as [Hp Hl]. constructor; [|done]. intros b. by rewrite Hd.
  - intros i b Hi. destruct (Hm i b Hi) as (o & os & top & Hs & Ht & Hf). exists o, os, top. split; [done|]. split; [done|].
    intros d Hdd. apply Hf. intros z Hz. by rewrite Hdd, Hd.
  - eapply Forall2_impl; [exact Hrow|]. intros b es [Hde Hre]. split; [|done]. by rewrite (same_data_bytes fs).
Qed.

Lemma get_block_spec fs x bl ess i b : dir_ok fs x bl ess -> bl !! i = Some b ->
  exists r fs', get_inode_block fs x (Z.of_nat i) = Ret (r, fs') /\ same_fs fs fs' /\ same_pins fs fs' /\ (r = b \/ r = NOBLOCK /\ unreadable).
Proof.
  intros Hok Hi. destruct (do_map _ _ _ _ Hok i b Hi) as (o & os & top & Hs & Ht & Hf). pose proof (do_depth _ _ _ _ Hok) as Hdep.
  pose proof (do_pages _ _ _ _ Hok) as [Hpg [Hl Hbs]]. pose proof (lookup_lt_Some _ _ _ Hi) as Hlt. pose proof (do_capacity _ _ _ _ Hok) as Hcap.
  destruct (get_inode_block_correct fs x (Z.of_nat i) Hdep Hl) as (o' & os' & top' & r & fs' & Hs' & Ht' & Hg & Hd & Hp & Hor);
    [lia|apply Hok| |].
  { intros c q Hq. apply lookup_lt_is_Some_2. specialize (Hpg c). lia. }
  rewrite Hs in Hs'. injection Hs' as <- <-. rewrite Ht in Ht'. injection Ht' as <-.
  exists r, fs'. split; [done|]. split.
  { split; [|done]. revert Hg. unfold get_inode_block. rewrite Hs. cbn [obind]. destruct (at_ _ o) as [t| | |]; try done. apply get_levels_cache. }
  split; [done|]. rewrite (Hf (page fs)) in Hor by done. exact Hor.
Qed.

(** ** The loop over the blocks *)

Definition held fs fs' (b : Z) : Prop :=
  same_fs fs fs' /\ forall y, pins (cache fs') y = (pins (cache fs) y + if (y =? b)%Z then 1 else 0)%nat.

Lemma get_held fs b : (get fs b).1 = true -> held fs (get fs b).2 b.
Proof.
  intros Hg. assert (Hd := fun y => get_data (cache fs) b y). assert (Hp := fun y => get_pins (cache fs) b y).
  unfold get in *. destruct (get_buffer (cache fs) b) as [ok c]. cbn [fst snd andb] in *. subst ok.
  split; [split; [by exists c|exact Hd]|exact Hp].
Qed.

Lemma release_held fs fs' b : held fs fs' b -> same_fs fs (release fs' b) /\ same_pins fs (release fs' b).
Proof.
  intros [[[c ->] Hd] Hp]. split; [split; [by eexists|]|].
  - intros y. rewrite <- Hd. unfold page. cbn. apply release_data.
  - intros y. cbn. rewrite release_pins. cbn in Hp. rewrite Hp. destruct (y =? b); lia.
Qed.

Section Loop.
Context {R : Type} (eio : R) (body : filsys C -> Z -> Z -> outcome (option R * filsys C)).
Context (fs : filsys C) (x : inode) (bl : list Z) (ess : list (list dentry)) (hit : list dentry -> Prop) (Hok : dir_ok fs x bl ess).
Context (Hhit : forall es, Decision (hit es)).
Context (Hmiss : forall fs' i b es, same_fs fs fs' -> bl !! i = Some b -> ess !! i = Some es -> ~ hit es ->
  body fs' (Z.of_nat i) b = Ret (None, fs')).

(** What the loop does with the result of the body. *)
Definition after (m : nat) (j b : Z) (o : outcome (option R * filsys C)) : outcome (option R * filsys C) :=
  '(r, fs) <~ o;
  match r with
  | Some r => Ret (Some r, fs)
  | None => for_blocks eio body m (release fs b) x (j + 1)
  end.

(** Blocks without a hit are let go; the body gets the first one with a hit. *)
Lemma for_blocks_spec n : forall i fs0, same_fs fs fs0 -> same_pins fs fs0 -> (i + n = length bl)%nat -> (forall j es, (j < i)%nat -> ess !! j = Some es -> ~ hit es) ->
  (exists fs1, for_blocks eio body n fs0 x (Z.of_nat i) = Ret (Some eio, fs1) /\ same_fs fs fs1 /\ same_pins fs fs1 /\ unreadable)
  \/ (exists fs1, for_blocks eio body n fs0 x (Z.of_nat i) = Ret (None, fs1) /\ same_fs fs fs1 /\ same_pins fs fs1 /\ Forall (fun es => ~ hit es) ess)
  \/ exists fs1 j b es, bl !! j = Some b /\ ess !! j = Some es /\ hit es /\ (forall k es, (k < j)%nat -> ess !! k = Some es -> ~ hit es) /\ held fs fs1 b
    /\ exists m, for_blocks eio body n fs0 x (Z.of_nat i) = after m (Z.of_nat j) b (body fs1 (Z.of_nat j) b).
Proof.
  pose proof (Forall2_length _ _ _ (do_rows _ _ _ _ Hok)) as Hlen.
  induction n as [|n IH]; intros i fs0 Hs0 Hp0 Hi Hpre; cbn [for_blocks].
  { right. left. exists fs0. split; [done|]. split; [done|]. split; [done|]. apply Forall_lookup. intros j es Hj.
    apply (Hpre j); [|done]. apply lookup_lt_Some in Hj. lia. }
  destruct (lookup_lt_is_Some_2 bl i) as [b Hb]; [lia|]. destruct (lookup_lt_is_Some_2 ess i) as [es Hes]; [lia|].
  destruct (get_block_spec fs0 x bl ess i b) as (r & fs' & -> & Hs & Hp & Hor); [by eapply dir_ok_same|done|]. cbn [obind].
  assert (Hs' := same_fs_trans _ _ _ Hs0 Hs). assert (Hp' : same_pins fs fs') by (intros y; by rewrite Hp, Hp0).
  destruct (Z.eqb_spec r NOBLOCK) as [->|Hr].
  { left. exists fs'. split; [done|]. split; [done|]. split; [done|]. destruct Hor as [Hor|[_ Hor]]; [|exact Hor].
    exfalso. apply (do_real _ _ _ _ Hok). rewrite Hor. by eapply list_elem_of_lookup_2. }
  destruct Hor as [->|[? _]]; [|done]. pose proof (get_held fs' b) as Hheld. pose proof (get_fails fs' b) as Hfail.
  assert (Hunr : (get fs' b).1 = false -> unreadable) by (intros Hg; by exists fs', b).
  assert (Hc : exists c, (get fs' b).2 = set_cache fs' c) by (unfold get; destruct (get_buffer _ _); by eexists).
  destruct (get fs' b) as [ok fs2]. cbn [fst snd] in *. destruct ok; cbn [negb].
  2: { destruct (Hfail eq_refl) as [Hd2 Hp2]. left. exists fs2. split; [done|]. split; [by eapply same_fs_trans|]. split; [|by apply Hunr].
       intros y. by rewrite Hp2, Hp'. }
  specialize (Hheld eq_refl). clear Hfail Hunr. assert (Hh : held fs fs2 b).
  { destruct Hheld as [Hs2 Hp2]. split; [by eapply same_fs_trans|]. intros y. by rewrite Hp2, Hp'. }
  destruct (decide (hit es)) as [Hit|Hno].
  - right. right. exists fs2, i, b, es. split; [done|]. split; [done|]. split; [done|]. split; [exact Hpre|]. split; [done|].
    by exists n.
  - rewrite (Hmiss fs2 i b es); [|apply Hh|done|done|done]. cbn [obind]. destruct (release_held _ _ _ Hh) as [Hs3 Hp3].
    replace (Z.of_nat i + 1) with (Z.of_nat (S i)) by lia. apply IH; [done|done|lia|].
    intros j es' Hj Hjs. destruct (decide (j = i)) as [->|]; [congruence|]. apply (Hpre j); [lia|done].
Qed.
End Loop.

(** A block gets other records. *)
Lemma dir_ok_store fs fs' x bl ess j b es es' : dir_ok fs x bl ess -> bl !! j = Some b -> ess !! j = Some es ->
  (exists c, fs' = set_cache fs c) -> (forall y, page fs' y = if y =? b then words_of (row es') else page fs y) ->
  row_ok (blocksize fs) es' -> dir_ok fs' x bl (<[j := es']> ess).
Proof.
  intros Hok Hj Hes [c ->] Hpage Hrow. destruct Hok as [[Hp Hl] Hdep Htop Hb Hcap Hnd Hr Hm Hrows].
  assert (Hbytes : data (set_cache fs c) b = row es').
  { unfold data. rewrite Hpage, Z.eqb_refl. by apply (row_words (blocksize fs)). }
  assert (Hin : b ∈ bl) by (by eapply list_elem_of_lookup_2).
  constructor; try done.
  - constructor; [|done]. intros y. rewrite Hpage. destruct (y =? b); [|apply Hp]. apply (row_page _ _ Hrow).
    cbn. destruct Hl as [Hl0 ->]. exists (2 ^ log_blkptrs_per_block fs). lia.
  - intros i y Hi. destruct (Hm i y Hi) as (o & os & top & Hs & Ht & Hf). exists o, os, top. split; [done|]. split; [done|].
    intros d Hd. apply Hf. intros z Hz. rewrite Hd, Hpage by done. destruct (Z.eqb_spec z b) as [->|]; done.
  - apply Forall2_lookup. intros i. apply Forall2_lookup with (i := i) in Hrows. destruct (decide (i = j)) as [->|Hne].
    { rewrite Hj, list_lookup_insert_eq by (by eapply lookup_lt_Some). by constructor. }
    rewrite list_lookup_insert_ne by done. destruct (bl !! i) as [y|] eqn:Hy; inversion Hrows as [? es0 [Hd Ho] Heq1 Heq2|Heq2]; constructor.
    split; [|done]. rewrite <- Hd. unfold data. rewrite Hpage. destruct (Z.eqb_spec y b) as [->|]; [|done].
    exfalso. apply Hne. by apply (NoDup_lookup bl i j b).
Qed.

(** The names in a directory with their inodes, in the order of the records. *)
Definition entries ess : list (list Z * Z) := (fun e => (e_name e, e_ino e)) <$> mjoin ess.

Lemma entries_names ess : (entries ess).*1 = names (mjoin ess).
Proof. unfold entries, names. rewrite <- list_fmap_compose. done. Qed.

Lemma entries_split ess j es1 e es2 : ess !! j = Some (es1 ++ e :: es2) ->
  entries ess = entries (take j ess ++ [es1]) ++ (e_name e, e_ino e) :: entries (es2 :: drop (S j) ess).
Proof.
  intros Hj. rewrite <- (take_drop_middle _ _ _ Hj) at 1. unfold entries. rewrite !join_app, !fmap_app. cbn [mjoin list_join].
  rewrite !fmap_app, app_nil_r, <- !(assoc_L (++)). done.
Qed.

Lemma entries_insert ess j es es1 l es2 : ess !! j = Some es ->
  entries (<[j := es1 ++ l ++ es2]> ess) = entries (take j ess ++ [es1]) ++ entries [l] ++ entries (es2 :: drop (S j) ess).
Proof.
  intros Hj. rewrite insert_take_drop by (by eapply lookup_lt_Some). unfold entries. rewrite !join_app, !fmap_app. cbn [mjoin list_join].
  rewrite !fmap_app, !app_nil_r, <- !(assoc_L (++)). done.
Qed.

Lemma entries_glue l l1 l2 r : entries (l ++ [[]]) ++ entries [l1; l2] ++ entries ([] :: r) = entries (l ++ [l1]) ++ entries (l2 :: r).
Proof.
  unfold entries. rewrite !join_app. cbn [mjoin list_join app]. rewrite ?app_nil_r, !fmap_app, <- ?(assoc_L (++)). done.
Qed.

Lemma not_before ess j es1 nm : (forall k es, (k < j)%nat -> ess !! k = Some es -> ~ nm ∈ names es) -> nm ∉ names es1 ->
  nm ∉ (entries (take j ess ++ [es1])).*1.
Proof.
  intros Hb Hn. rewrite entries_names, join_app. unfold names. rewrite fmap_app, not_elem_of_app. split.
  - intros (e & -> & (es & He & Hes)%list_elem_of_join)%list_elem_of_fmap. apply list_elem_of_lookup in Hes as [k Hk].
    apply lookup_take_Some in Hk as [Hk Hlt]. apply (Hb k es); [done|done|]. by apply list_elem_of_fmap_2.
  - cbn [mjoin list_join]. by rewrite app_nil_r.
Qed.

Lemma not_anywhere ess nm : Forall (fun es => ~ nm ∈ names es) ess -> nm ∉ (entries ess).*1.
Proof.
  intros Hf. rewrite entries_names. intros (e & -> & (es & He & Hes)%list_elem_of_join)%list_elem_of_fmap.
  rewrite Forall_forall in Hf. apply (Hf es Hes). by apply list_elem_of_fmap_2.
Qed.

(** ** The operations *)

Section Operations.
Context (fs : filsys C) (x : inode) (bl : list Z) (ess : list (list dentry)) (Hok : dir_ok fs x bl ess).
Context (name : list Z) (len : Z) (Hname : name_ok name len).
Let nm := the_name name len.
Let hit (es : list dentry) : Prop := nm ∈ names es.

(** A block as the body of a loop finds it. *)
Lemma block_row fs' i b es : same_fs fs fs' -> bl !! i = Some b -> ess !! i = Some es ->
  data fs' b = row es /\ blocksize fs' = blocksize fs /\ row_ok (blocksize fs) es /\ (length es <= block_fuel fs')%nat.
Proof.
  intros [[c ->] Hd] Hb Hes. rewrite (same_data_bytes fs) by done.
  destruct (Forall2_lookup_lr _ _ _ _ _ _ (do_rows _ _ _ _ Hok) Hb Hes) as [Hde Hre]. split; [done|]. split; [done|]. split; [done|].
  by apply row_fuel.
Qed.

Lemma scan_block fs' i b es : same_fs fs fs' -> bl !! i = Some b -> ess !! i = Some es ->
  scan (block_fuel fs') (data fs' b) (blocksize fs') name len 0 None = Ret None /\ ~ hit es
  \/ exists l1 e l2, es = l1 ++ e :: l2 /\ (e_name e = nm) /\ (nm ∉ names l1)
    /\ scan (block_fuel fs') (data fs' b) (blocksize fs') name len 0 None = Ret (Some (offset l1, last_offset None 0 l1)).
Proof.
  intros Hs Hb Hes. destruct (block_row _ _ _ _ Hs Hb Hes) as (-> & -> & Hr & Hf). destruct Hname as ((? & ?) & ? & _).
  apply (scan_row_spec (blocksize fs) name len (block_fuel fs') ltac:(lia) ltac:(done) es [] None Hr Hf).
Qed.

(** The three ways a search can end. *)
Definition search_ends {A} (result : outcome A) (eio missing : filsys C -> A)
    (found : nat -> Z -> list dentry -> dentry -> list dentry -> filsys C -> Prop) : Prop :=
  (exists fs1, same_fs fs fs1 /\ same_pins fs fs1 /\ unreadable /\ result = Ret (eio fs1))
  \/ (exists fs1, same_fs fs fs1 /\ same_pins fs fs1 /\ (nm ∉ (entries ess).*1) /\ result = Ret (missing fs1))
  \/ exists fs1 j b l1 e l2, bl !! j = Some b /\ ess !! j = Some (l1 ++ e :: l2) /\ (e_name e = nm) /\ (nm ∉ (entries (take j ess ++ [l1])).*1)
    /\ held fs fs1 b /\ found j b l1 e l2 fs1.

Lemma search_spec {R A} (eio : R) body (k : option R * filsys C -> outcome A) (result : outcome A) ae am found :
  result = obind (for_blocks eio body (dir_blocks x) fs x 0) k ->
  (forall fs' i b, scan (block_fuel fs') (data fs' b) (blocksize fs') name len 0 None = Ret None -> body fs' (Z.of_nat i) b = Ret (None, fs')) ->
  (forall fs', k (Some eio, fs') = Ret (ae fs')) -> (forall fs', k (None, fs') = Ret (am fs')) ->
  (forall fs1 j b l1 e l2, bl !! j = Some b -> ess !! j = Some (l1 ++ e :: l2) -> held fs fs1 b ->
    scan (block_fuel fs1) (data fs1 b) (blocksize fs1) name len 0 None = Ret (Some (offset l1, last_offset None 0 l1)) ->
    forall m, result = obind (after eio body x m (Z.of_nat j) b (body fs1 (Z.of_nat j) b)) k -> found j b l1 e l2 fs1) ->
  search_ends result ae am found.
Proof.
  intros Hresult Hmiss Hke Hkm Hfound.
  destruct (for_blocks_spec eio body fs x bl ess hit Hok _ ltac:(intros fs' i b es Hs Hb Hes Hno;
    destruct (scan_block fs' i b es Hs Hb Hes) as [[Hn _]|(l1 & e & l2 & -> & He & _)]; [by apply Hmiss|];
    exfalso; apply Hno; unfold hit, names; rewrite <- He; apply list_elem_of_fmap_2, elem_of_app; right; left)
    (dir_blocks x) 0 fs (same_fs_refl fs) (fun y => eq_refl))
    as [(fs1 & Hf & Hs & Hp & Hu)|[(fs1 & Hf & Hs & Hp & Hn)|(fs1 & j & b & es & Hj & Hes & Hit & Hbef & Hh & Hf)]].
  - unfold dir_blocks. rewrite (do_blocks _ _ _ _ Hok). lia.
  - intros j es Hj. lia.
  - left. exists fs1. change (Z.of_nat 0) with 0 in Hf. rewrite Hresult, Hf. cbn [obind]. split; [done|]. split; [done|]. split; [done|]. apply Hke.
  - right. left. exists fs1. change (Z.of_nat 0) with 0 in Hf. rewrite Hresult, Hf. cbn [obind]. split; [done|]. split; [done|]. split; [by apply not_anywhere|]. apply Hkm.
  - right. right. destruct (scan_block fs1 j b es (proj1 Hh) Hj Hes) as [[_ Hno]|(l1 & e & l2 & -> & He & Hl1 & Hsc)]; [done|].
    exists fs1, j, b, l1, e, l2. split; [done|]. split; [done|]. split; [done|]. split; [by apply not_before|]. split; [done|].
    destruct Hf as [m Hf]. apply (Hfound fs1 j b l1 e l2 Hj Hes Hh Hsc m). change (Z.of_nat 0) with 0 in Hf. by rewrite Hresult, Hf.
Qed.

Lemma name_guards {A} (a b k : outcome A) : (if len <=? 0 then a else if MAXPATH <=? len then b else k) = k.
Proof. destruct Hname as ((? & ?) & _). rewrite (proj2 (Z.leb_gt _ _)), (proj2 (Z.leb_gt _ _)) by done. done. Qed.

Lemma store_held fs1 b d : held fs fs1 b -> let fs2 := updated (set_data fs1 b d) b in
  (exists c, fs2 = set_cache fs c) /\ same_pins fs fs2 /\ forall y, page fs2 y = if y =? b then words_of d else page fs y.
Proof.
  intros [[[c ->] Hd] Hp]. split; [by eexists|]. split.
  - intros y. cbn. rewrite release_pins, updated_pins, store_pins. cbn in Hp. rewrite Hp. destruct (y =? b); lia.
  - intros y. unfold page. cbn. rewrite release_data, updated_data, store_data; [|cbn in Hp; rewrite Hp, Z.eqb_refl; lia].
    destruct (y =? b); [done|]. apply Hd.
Qed.

Lemma mark_dirty_same fs1 y : same_fs fs1 (mark_inode_dirty fs1 y) /\ same_pins fs1 (mark_inode_dirty fs1 y).
Proof.
  split; [split; [by eexists|]|]; intros z; [unfold page|]; cbn; [apply updated_data|apply updated_pins].
Qed.

Lemma dir_ok_inode fs1 y t l : dir_ok fs1 y bl l -> dir_ok fs1 (set_mtime y t) bl l.
Proof. by intros []. Qed.

(** The directory has other records, in the same blocks, and nothing else has changed. *)
Record changed fs' x' ess' : Prop := {
  ch_ok : dir_ok fs' x' bl ess';
  ch_pins : same_pins fs fs';
  ch_rest : forall y, y ∉ bl -> page fs' y = page fs y;
  ch_inode : x' = x \/ x' = set_mtime x now;
}.

Lemma changed_store fs1 j b es es' : bl !! j = Some b -> ess !! j = Some es -> held fs fs1 b -> row_ok (blocksize fs) es' ->
  changed (updated (set_data fs1 b (row es')) b) x (<[j := es']> ess).
Proof.
  intros Hj Hes Hh Hr. destruct (store_held fs1 b (row es') Hh) as (Hc & Hp & Hpg). constructor; [|done| |by left].
  - by apply (dir_ok_store fs _ x bl ess j b es es').
  - intros y Hy. rewrite Hpg. destruct (Z.eqb_spec y b) as [->|]; [|done]. exfalso. apply Hy. by eapply list_elem_of_lookup_2.
Qed.

Lemma changed_dirty fs' ess' : changed fs' x ess' -> changed (mark_inode_dirty fs' (set_mtime x now)) (set_mtime x now) ess'.
Proof.
  intros [H1 H2 H3 _]. destruct (mark_dirty_same fs' (set_mtime x now)) as [Hs Hp]. constructor.
  - by apply dir_ok_inode, (dir_ok_same fs').
  - intros y. by rewrite Hp, H2.
  - intros y Hy. rewrite (proj2 Hs). by apply H3.
  - by right.
Qed.

Lemma find_dir_entry_spec : S_ISDIR (i_mode (i_desc x)) = true -> 0 <= checki cr x S_IEXEC ->
  search_ends (find_dir_entry cr fs x name len) (fun fs1 => (- EIO, None, fs1)) (fun fs1 => (- ENOENT, None, fs1))
    (fun j b l1 e l2 fs1 => exists fs2, find_dir_entry cr fs x name len = Ret (0, Some (e_ino e), fs2) /\ same_fs fs fs2 /\ same_pins fs fs2).
Proof.
  intros Hd Hc. assert (Heq : find_dir_entry cr fs x name len = ('(r, fs) <~ for_blocks (- EIO, None) (find_in_block name len) (dir_blocks x) fs x 0;
    Ret (default (- ENOENT, None) r, fs))).
  { unfold find_dir_entry. rewrite name_guards, Hd. cbn [negb]. by rewrite (proj2 (Z.ltb_ge _ _)). }
  eapply search_spec; [exact Heq| |done|done|].
  - intros fs' i b Hsc. unfold find_in_block. by rewrite Hsc.
  - intros fs1 j b l1 e l2 Hj Hes Hh Hsc m ->. destruct (block_row fs1 j b _ (proj1 Hh) Hj Hes) as (Hd1 & Hb1 & Hr & _).
    destruct (row_fields _ _ _ _ Hr) as (Hi & _). destruct (release_held _ _ _ Hh) as [Hs2 Hp2].
    unfold find_in_block. rewrite Hsc. cbn [obind]. rewrite Hd1, Hi. cbn [obind]. by exists (release fs1 b).
Qed.

Lemma modify_dir_entry_spec ino : is_u32 ino -> S_ISDIR (i_mode (i_desc x)) = true -> 0 <= checki cr x S_IWRITE ->
  search_ends (modify_dir_entry cr fs x name len ino) (fun fs1 => (- EIO, None, fs1)) (fun fs1 => (- ENOENT, None, fs1))
    (fun j b l1 e l2 fs1 => exists fs2, modify_dir_entry cr fs x name len ino = Ret (0, Some (e_ino e), fs2)
      /\ changed fs2 x (<[j := l1 ++ [Dentry ino (e_name e) (e_pad e)] ++ l2]> ess)).
Proof.
  intros Hino Hd Hc. assert (Heq : modify_dir_entry cr fs x name len ino = ('(r, fs) <~ for_blocks (- EIO, None) (modify_in_block name len ino) (dir_blocks x) fs x 0;
    Ret (default (- ENOENT, None) r, fs))).
  { unfold modify_dir_entry. rewrite name_guards, Hd. cbn [negb]. by rewrite (proj2 (Z.ltb_ge _ _)). }
  eapply search_spec; [exact Heq| |done|done|].
  - intros fs' i b Hsc. unfold modify_in_block. by rewrite Hsc.
  - intros fs1 j b l1 e l2 Hj Hes Hh Hsc m ->. destruct (block_row fs1 j b _ (proj1 Hh) Hj Hes) as (Hd1 & Hb1 & Hr & _).
    destruct (row_fields _ _ _ _ Hr) as (Hi & _). destruct (modify_spec _ _ _ _ ino Hr Hino) as [Hm Hr'].
    unfold modify_in_block. rewrite Hsc. cbn [obind]. rewrite Hd1, Hi. cbn [obind]. rewrite Hm. cbn [obind]. eexists. split; [done|]. by eapply changed_store.
Qed.

(** What is left when the only record of a block is deleted. *)
Definition delete_rest fs1 (j : nat) (b : Z) : outcome (Z * inode * filsys C) :=
  '(ok, y, fs2) <~ drop_block x fs1 (Z.of_nat j) b;
  if negb ok then Ret (- EIO, y, fs2)
  else Ret (0, set_mtime y now, mark_inode_dirty (release fs2 b) (set_mtime y now)).

Lemma delete_in_row l1 e l2 : row_ok (blocksize fs) (l1 ++ e :: l2) -> l1 ++ l2 <> [] ->
  exists es', row_ok (blocksize fs) es' /\ entries [es'] = entries [l1; l2]
    /\ match last_offset None 0 l1 with
       | Some q => merge_prev (row (l1 ++ e :: l2)) q (offset l1) = Ret (row es')
       | None => merge_next (row (l1 ++ e :: l2)) (offset l1) = Ret (row es') /\ e_reclen e <> blocksize fs
       end.
Proof.
  intros Hr Hne. destruct l1 as [|e0 l1 _] using rev_ind; cbn [app] in *.
  - destruct l2 as [|e1 l2]; [done|]. destruct (merge_next_spec _ _ _ _ Hr) as (pad & Hm & Hr'). eexists. split; [exact Hr'|]. split; [done|].
    split; [exact Hm|]. destruct Hr as [Hs _ _]. rewrite !offset_cons in Hs. pose proof (reclen_pos e1). pose proof (offset_nonneg l2). unfold DENTRY_SIZE in *. lia.
  - rewrite <- (assoc_L (++)) in Hr |- *. cbn [app] in *. destruct (merge_prev_spec _ _ _ _ _ Hr) as [Hm Hr']. eexists. split; [exact Hr'|]. split.
    + unfold entries. cbn [mjoin list_join]. rewrite !app_nil_r, !fmap_app, <- (assoc_L (++)). done.
    + unfold last_offset. rewrite last_snoc. replace (0 + offset (l1 ++ [e0]) - e_reclen e0) with (offset l1); [exact Hm|].
      rewrite offset_app, offset_cons. change (offset []) with 0. lia.
Qed.

Lemma delete_dir_entry_spec : S_ISDIR (i_mode (i_desc x)) = true -> 0 <= checki cr x S_IWRITE ->
  search_ends (delete_dir_entry cr now fs x name len) (fun fs1 => (- EIO, x, fs1)) (fun fs1 => (- ENOENT, x, fs1))
    (fun j b l1 e l2 fs1 =>
      (l1 ++ l2 = [] -> delete_dir_entry cr now fs x name len = delete_rest fs1 j b)
      /\ (l1 ++ l2 <> [] -> exists fs2 es', delete_dir_entry cr now fs x name len = Ret (0, set_mtime x now, fs2)
        /\ changed fs2 (set_mtime x now) (<[j := es']> ess) /\ entries [es'] = entries [l1; l2])).
Proof.
  intros Hd Hc. assert (Heq : delete_dir_entry cr now fs x name len = ('(r, fs) <~ for_blocks (- EIO, x) (delete_in_block now x name len) (dir_blocks x) fs x 0;
    let '(rc, x) := default (- ENOENT, x) r in Ret (rc, x, fs))).
  { unfold delete_dir_entry. destruct Hname as ((? & ?) & _). rewrite (proj2 (Z.leb_gt _ _)), (proj2 (Z.leb_gt _ _)) by done.
    rewrite Hd. cbn [negb orb]. by rewrite (proj2 (Z.ltb_ge _ _)). }
  eapply search_spec; [exact Heq| |done|done|].
  - intros fs' i b Hsc. unfold delete_in_block. by rewrite Hsc.
  - intros fs1 j b l1 e l2 Hj Hes Hh Hsc m ->. destruct (block_row fs1 j b _ (proj1 Hh) Hj Hes) as (Hd1 & Hb1 & Hr & _).
    destruct (row_fields _ _ _ _ Hr) as (_ & Hrl & _). unfold delete_in_block. rewrite Hsc. cbn [obind]. rewrite Hd1, Hrl, Hb1. cbn [obind].
    split.
    + intros [-> ->]%app_eq_nil. cbn [last_offset last]. unfold last_offset. cbn [last]. rewrite (proj2 (Z.eqb_eq _ _)).
      * unfold delete_rest. destruct (drop_block x fs1 (Z.of_nat j) b) as [[[ok y] fs2]| | |]; try done. cbn [obind]. by destruct ok.
      * destruct Hr as [Hs _ _]. cbn [app] in Hs. rewrite offset_cons in Hs. change (offset []) with 0 in Hs. lia.
    + intros Hne. destruct (delete_in_row l1 e l2 Hr Hne) as (es' & Hr' & He & Hm). do 2 eexists.
      assert (Hch := changed_store fs1 j b _ es' Hj Hes Hh Hr'). apply changed_dirty in Hch.
      destruct (last_offset None 0 l1) as [q|].
      * rewrite Hm. cbn [obind negb]. split; [reflexivity|]. split; [exact Hch|exact He].
      * destruct Hm as [Hm Hnb]. rewrite (proj2 (Z.eqb_neq _ _) Hnb), Hm. cbn [obind negb]. split; [reflexivity|]. split; [exact Hch|exact He].
Qed.

(** The length of the record for the name. *)
Definition need : Z := DENTRY_SIZE + NAME_ALIGN_LEN len.

Lemma need_range : 12 <= need <= 12 + 256 /\ len <= need - 12 /\ need = 12 + (len + 3) / 4 * 4 /\ u32 (DENTRY_SIZE + NAME_ALIGN_LEN len) = need.
Proof.
  destruct Hname as ((? & ?) & _). unfold need, DENTRY_SIZE, MAXPATH in *. rewrite name_align by lia.
  rewrite u32_small by (unfold is_u32; lia_mod). split; [lia_mod|]. split; [lia_mod|done].
Qed.

Lemma room_block fs' i b es : same_fs fs fs' -> bl !! i = Some b -> ess !! i = Some es ->
  find_room (block_fuel fs') (data fs' b) (blocksize fs') need 0 = Ret None /\ ~ Exists (has_room need) es
  \/ exists l1 e l2, es = l1 ++ e :: l2 /\ has_room need e
    /\ find_room (block_fuel fs') (data fs' b) (blocksize fs') need 0 = Ret (Some (offset l1)).
Proof.
  intros Hs Hb Hes. destruct (block_row _ _ _ _ Hs Hb Hes) as (-> & -> & Hr & Hf). destruct need_range as (? & _).
  destruct (find_room_spec (blocksize fs) need (block_fuel fs') ltac:(lia) es [] Hr Hf) as [[Hn Hno]|(l1 & e & l2 & -> & He & _ & Hn)].
  - left. split; [exact Hn|]. intros (e & He & Hroom)%Exists_exists. rewrite Forall_forall in Hno. by apply (Hno e).
  - right. by exists l1, e, l2.
Qed.

Lemma add_dir_entry_spec ino : is_u32 ino -> S_ISDIR (i_mode (i_desc x)) = true -> 0 <= checki cr x S_IWRITE ->
  (exists fs1, same_fs fs fs1 /\ same_pins fs fs1 /\ unreadable /\ add_dir_entry cr now fs x name len ino = Ret (- EIO, x, fs1))
  \/ (exists fs1, same_fs fs fs1 /\ same_pins fs fs1 /\ Forall (fun es => ~ Exists (has_room need) es) ess
    /\ add_dir_entry cr now fs x name len ino = add_block now fs1 x name len ino)
  \/ exists fs2 j l1 e l2, ess !! j = Some (l1 ++ e :: l2) /\ has_room need e
    /\ add_dir_entry cr now fs x name len ino = Ret (0, set_mtime x now, fs2)
    /\ changed fs2 (set_mtime x now) (<[j := l1 ++ split_at e ino nm ++ l2]> ess).
Proof.
  intros Hino Hd Hc. assert (Heq : add_dir_entry cr now fs x name len ino = ('(r, fs) <~ for_blocks (- EIO, x) (add_in_block now x name len ino) (dir_blocks x) fs x 0;
    match r with Some (rc, x) => Ret (rc, x, fs) | None => add_block now fs x name len ino end)).
  { unfold add_dir_entry. rewrite name_guards, Hd. cbn [negb]. by rewrite (proj2 (Z.ltb_ge _ _)). }
  destruct need_range as (_ & _ & _ & Hu).
  destruct (for_blocks_spec (- EIO, x) (add_in_block now x name len ino) fs x bl ess (Exists (has_room need)) Hok _ ltac:(intros fs' i b es Hs Hb Hes Hno;
    destruct (room_block fs' i b es Hs Hb Hes) as [[Hn _]|(l1 & e & l2 & -> & He & _)]; [unfold add_in_block; by rewrite Hu, Hn|];
    exfalso; apply Hno, Exists_app; right; by constructor)
    (dir_blocks x) 0 fs (same_fs_refl fs) (fun y => eq_refl))
    as [(fs1 & Hf & Hs & Hp & Hun)|[(fs1 & Hf & Hs & Hp & Hn)|(fs1 & j & b & es & Hj & Hes & Hit & Hbef & Hh & m & Hf)]];
    change (Z.of_nat 0) with 0 in *; rewrite ?Hf in Heq.
  - unfold dir_blocks. rewrite (do_blocks _ _ _ _ Hok). lia.
  - intros j es Hj. lia.
  - left. by exists fs1.
  - right. left. by exists fs1.
  - right. right. destruct (room_block fs1 j b es (proj1 Hh) Hj Hes) as [[_ Hno]|(l1 & e & l2 & -> & He & Hfr)]; [done|].
    destruct (block_row fs1 j b _ (proj1 Hh) Hj Hes) as (Hd1 & Hb1 & Hr & _).
    destruct (split_spec _ _ _ _ ino name len Hr Hino Hname He) as [Hsp Hr'].
    unfold after, add_in_block in Heq. rewrite Hu, Hfr in Heq. cbn [obind] in Heq. rewrite Hd1, Hsp in Heq. cbn [obind] in Heq.
    do 5 eexists. split; [exact Hes|]. split; [exact He|]. split; [exact Heq|]. apply changed_dirty. by eapply changed_store.
Qed.

(** A block that [expand_inode] and the cache have handed out gets one record. *)
Lemma add_block_spec ino fs2 y b : is_u32 ino -> expand_inode fs x = Ret (b, fs2, y) -> b <> NOBLOCK ->
  (alloc fs2 b).1 = true -> 4 * Z.of_nat (length (page fs2 b)) = blocksize fs2 -> need <= blocksize fs2 < 2 ^ 31 ->
  exists fs3 pad, add_block now fs x name len ino
      = Ret (0, set_mtime (set_size y (i_size (i_desc y) + blocksize fs2)) now, fs3)
    /\ (exists c, fs3 = set_cache fs2 c) /\ same_pins fs2 fs3
    /\ data fs3 b = row [Dentry ino nm pad] /\ row_ok (blocksize fs2) [Dentry ino nm pad]
    /\ forall z, z <> b -> page fs3 z = page fs2 z.
Proof.
  intros Hino He Hb Ha Hl Hbs. unfold add_block. rewrite He. cbn [obind]. rewrite (proj2 (Z.eqb_neq _ _) Hb).
  assert (Hal := alloc_length (cache fs2) b). assert (Had := fun z => alloc_data (cache fs2) b z). assert (Hap := fun z => alloc_pins (cache fs2) b z).
  unfold alloc in *. destruct (alloc_buffer (cache fs2) b) as [ok c]. cbn [fst snd] in *. subst ok. cbn [negb andb] in *.
  cbv zeta. change (blocksize (set_cache fs2 c)) with (blocksize fs2). set (y1 := set_mtime _ now). set (fs4 := mark_inode_dirty (set_cache fs2 c) y1).
  change (blocksize fs4) with (blocksize fs2).
  assert (Hpage : forall z, page fs4 z = block_data c z) by (intros z; unfold page, fs4, mark_inode_dirty; cbn; apply updated_data).
  assert (Hpin : forall z, pins (cache fs4) z = pins c z) by (intros z; unfold fs4, mark_inode_dirty; cbn; apply updated_pins).
  destruct need_range as (Hn1 & Hn2 & Hn3 & _). pose proof (the_name_len _ _ Hname) as Hlen. fold nm in Hlen.
  assert (Hd : data fs4 b = take (12 + length nm) (data fs4 b) ++ drop (12 + length nm) (data fs4 b)) by (by rewrite take_drop).
  assert (Hdl : Z.of_nat (length (data fs4 b)) = blocksize fs2)
    by (unfold data; rewrite length_bytes_of, Hpage, Hal; unfold page in Hl; lia).
  set (m := take (12 + length nm) (data fs4 b)) in *. set (pad := drop (12 + length nm) (data fs4 b)) in *.
  unfold len_of in Hlen. assert (Hlm : length m = (12 + length nm)%nat) by (unfold m; rewrite length_take; lia).
  assert (Hlp : Z.of_nat (length pad) = blocksize fs2 - 12 - len) by (unfold pad; rewrite length_drop; lia).
  pose proof (write_entry_spec [] 0 m ino (blocksize fs2) nm name len pad eq_refl Hino) as Hw. cbn [app] in Hw. rewrite <- Hd in Hw.
  rewrite Hw; [|unfold is_u32; lia|exact Hlen|apply Hname|split; [done|apply Hname]|exact Hlm]. cbn [obind].
  assert (Hrec : e_reclen (Dentry ino nm pad) = blocksize fs2) by (unfold e_reclen, e_namelen, len_of, DENTRY_SIZE; cbn [e_name e_pad]; lia).
  assert (Hrow : row [Dentry ino nm pad] = hdr ino (blocksize fs2) len ++ nm ++ pad).
  { rewrite row_cons. unfold enc. rewrite Hrec. unfold e_namelen, len_of. cbn [e_ino e_name e_pad]. rewrite <- Hlen. unfold row. cbn. by rewrite app_nil_r. }
  assert (Hok1 : row_ok (blocksize fs2) [Dentry ino nm pad]).
  { constructor; [rewrite offset_cons, Hrec; change (offset []) with 0; lia|lia|]. apply Forall_singleton.
    constructor; rewrite ?Hrec; cbn [e_ino e_name e_pad]; [done| | | |].
    - unfold e_namelen, len_of. cbn [e_name]. rewrite <- Hlen. apply Hname.
    - unfold e_namelen, len_of. cbn [e_name]. rewrite <- Hlen. unfold need, DENTRY_SIZE in *. lia.
    - exists (Z.of_nat (length (page fs2 b))). lia.
    - split; [apply Forall_take, Hname|]. apply Forall_drop, bytes_of_bytes. }
  rewrite <- Hrow. eexists _, pad. split; [reflexivity|]. split; [by eexists|].
  assert (Hpg : forall z, page (updated (set_data fs4 b (row [Dentry ino nm pad])) b) z = if z =? b then words_of (row [Dentry ino nm pad]) else page fs4 z).
  { intros z. unfold page. cbn. rewrite release_data, updated_data, store_data; [done|]. cbn in Hpin. rewrite Hpin, Hap, Z.eqb_refl. lia. }
  split; [|split; [|split; [done|]]].
  - intros z. cbn. rewrite release_pins, updated_pins, store_pins. cbn in Hpin. rewrite Hpin, Hap. destruct (z =? b); lia.
  - unfold data. rewrite Hpg, Z.eqb_refl. by apply (row_words (blocksize fs2)).
  - intros z Hz. rewrite Hpg, (proj2 (Z.eqb_neq _ _) Hz), Hpage. by apply Had.
Qed.
End Operations.

(** ** Listing *)

(** A client that reads the entries one after another. *)
Fixpoint list_dir (fuel : nat) fs x (pos : Z) : outcome (Z * list (list Z * Z) * filsys C) :=
  match fuel with
  | O => Diverge
  | S fuel =>
      '(rc, entry, pos, fs) <~ dfs_readdir fs x pos 1;
      match entry with
      | Some (ino, _, name) => '(rc, l, fs) <~ list_dir fuel fs x pos; Ret (rc, (name, ino) :: l, fs)
      | None => Ret (rc, [], fs)
      end
  end.

Lemma flat_at bs ess : Forall (row_ok bs) ess -> forall l1 e l2, mjoin ess = l1 ++ e :: l2 ->
  exists i k1 k2, ess !! i = Some (k1 ++ e :: k2) /\ offset l1 = Z.of_nat i * bs + offset k1.
Proof.
  induction 1 as [|es ess Hes _ IH]; intros l1 e l2 Heq; [by destruct l1|]. cbn [mjoin list_join] in Heq.
  apply app_eq_app in Heq as (k & [[-> Hk]|[-> Hk]]).
  - destruct k as [|e' k].
    + destruct (IH [] e l2 (eq_sym Hk)) as (i & k1 & k2 & Hi & Ho). exists (S i), k1, k2. split; [done|]. change (offset []) with 0 in Ho.
      pose proof (ro_size _ _ Hes) as Hs. rewrite app_nil_r in Hs. lia.
    + injection Hk as <- Hk. exists 0%nat, l1, k. split; [done|]. lia.
  - destruct (IH k e l2 Hk) as (i & k1 & k2 & Hi & Ho). exists (S i), k1, k2. split; [done|]. rewrite offset_app, (ro_size _ _ Hes). lia.
Qed.

Lemma dir_rows fs x bl ess : dir_ok fs x bl ess -> Forall (row_ok (blocksize fs)) ess.
Proof.
  intros Hok. apply Forall_lookup. intros i es Hes. by destruct (Forall2_lookup_r _ _ _ _ _ (do_rows _ _ _ _ Hok) Hes) as (b & _ & _ & Hr).
Qed.

Lemma dir_size fs x bl ess : dir_ok fs x bl ess -> Z.of_nat (length bl) * blocksize fs = offset (mjoin ess).
Proof.
  intros Hok. rewrite (Forall2_length _ _ _ (do_rows _ _ _ _ Hok)). pose proof (dir_rows _ _ _ _ Hok) as Hr. clear Hok.
  induction Hr as [|es l Hes _ IH]; [done|]. change (mjoin (es :: l)) with (es ++ mjoin l). cbn [length]. rewrite offset_app, (ro_size _ _ Hes). lia.
Qed.

Section Listing.
Context (fs : filsys C) (x : inode) (bl : list Z) (ess : list (list dentry)) (Hok : dir_ok fs x bl ess).
Context (Hsize : i_size (i_desc x) = offset (mjoin ess)) (Hmax : i_size (i_desc x) < 2 ^ 32).

(** One call: the record at the position, or the end. *)
Lemma readdir_spec fs1 l1 e l2 : same_fs fs fs1 -> mjoin ess = l1 ++ e :: l2 ->
  exists fs2, same_fs fs fs2 /\ (same_pins fs1 fs2
    /\ (dfs_readdir fs1 x (offset l1) 1 = Ret (1, Some (e_ino e, e_reclen e, e_name e), offset (l1 ++ [e]), fs2)
        \/ unreadable /\ dfs_readdir fs1 x (offset l1) 1 = Ret (- EIO, None, offset l1, fs2))).
Proof.
  intros Hs1 Heq. destruct (flat_at _ _ (dir_rows _ _ _ _ Hok) l1 e l2 Heq) as (i & k1 & k2 & Hi & Ho).
  destruct (Forall2_lookup_r _ _ _ _ _ (do_rows _ _ _ _ Hok) Hi) as (b & Hb & Hd & Hr).
  destruct (row_at _ _ _ _ Hr) as (He & Hk & Hrl & Hsum & Hur & Hun & Hui & Hk2). pose proof (ro_bound _ _ Hr) as Hbs. unfold DENTRY_SIZE in Hrl.
  assert (Hpos : offset l1 + e_reclen e <= i_size (i_desc x)) by (rewrite Hsize, Heq, offset_app, offset_cons; pose proof (offset_nonneg l2); lia).
  pose proof (offset_nonneg l1). assert (Hbl : blocksize fs1 = blocksize fs) by (by destruct Hs1 as [[c ->] _]).
  unfold dfs_readdir. cbn [negb Z.eqb Pos.eqb]. rewrite (proj2 (Z.leb_gt _ _)) by lia. rewrite (u32_small (offset l1)) by (unfold is_u32; lia).
  unfold udiv. rewrite Hbl, (proj2 (Z.eqb_neq (blocksize fs) 0)) by lia. cbn [obind].
  assert (Hq : offset l1 / blocksize fs = Z.of_nat i) by (symmetry; apply (Z.div_unique _ _ _ (offset k1)); lia).
  assert (Hm : offset l1 mod blocksize fs = offset k1) by (symmetry; apply (Z.mod_unique _ _ (Z.of_nat i)); lia).
  rewrite Hq, Hm. clear Hq Hm.
  destruct (get_block_spec fs1 x bl ess i b (dir_ok_same _ _ _ _ _ Hs1 Hok) Hb) as (r & fs2 & -> & Hs2 & Hp2 & Hor). cbn [obind].
  assert (Hs12 := same_fs_trans _ _ _ Hs1 Hs2). destruct (Z.eqb_spec r NOBLOCK) as [->|Hrn].
  { exists fs2. split; [done|]. split; [done|]. right. split; [|done]. destruct Hor as [Hor|[_ Hor]]; [|exact Hor].
    exfalso. apply (do_real _ _ _ _ Hok). rewrite Hor. by eapply list_elem_of_lookup_2. }
  destruct Hor as [->|[? _]]; [|done]. pose proof (get_held fs2 b) as Hheld. pose proof (get_fails fs2 b) as Hfail.
  assert (Hunr : (get fs2 b).1 = false -> unreadable) by (intros Hg; by exists fs2, b).
  assert (Hc : exists c, (get fs2 b).2 = set_cache fs2 c) by (unfold get; destruct (get_buffer _ _); by eexists).
  destruct (get fs2 b) as [ok fs3]. cbn [fst snd] in *. destruct ok; cbn [negb].
  2: { destruct (Hfail eq_refl) as [Hd3 Hp3]. exists fs3. split; [by eapply same_fs_trans|]. split; [intros y; by rewrite Hp3, Hp2|].
       right. split; [by apply Hunr|done]. }
  specialize (Hheld eq_refl). destruct (release_held _ _ _ Hheld) as [Hs4 Hp4]. exists (release fs3 b).
  split; [by eapply same_fs_trans|]. split; [intros y; by rewrite Hp4, Hp2|]. left.
  assert (Hd3 : data fs3 b = row (k1 ++ e :: k2)) by (rewrite (same_data_bytes fs2 fs3), (same_data_bytes fs fs2); [done|apply Hs12|apply Hheld]).
  assert (Hb3 : blocksize fs3 = blocksize fs) by (destruct Hc as [c ->], Hs2 as [[c' ->] _], Hs1 as [[c'' ->] _]; done).
  destruct (row_fields _ _ _ _ Hr) as (Hfi & Hfr & Hfn & _). rewrite Hd3, Hfr, Hb3. cbn [obind].
  rewrite u32_small by (unfold is_u32; lia). rewrite (proj2 (Z.ltb_ge _ _)) by lia. rewrite Hfn. cbn [obind].
  pose proof (eo_name _ He) as Hnl. rewrite (proj2 (Z.eqb_neq _ _)), (proj2 (Z.leb_gt _ _)) by lia. cbn [orb]. rewrite Hfi. cbn [obind].
  rewrite row_split. unfold e_namelen at 2. rewrite (rd_name_app (row k1) (offset k1)) by done. cbn [obind].
  rewrite offset_app, offset_cons. change (offset []) with 0. do 3 f_equal. lia.
Qed.

Lemma list_dir_spec l2 : forall fs1 l1, same_fs fs fs1 -> mjoin ess = l1 ++ l2 ->
  exists rc l fs2, list_dir (S (length l2)) fs1 x (offset l1) = Ret (rc, l, fs2) /\ same_fs fs fs2 /\ same_pins fs1 fs2
    /\ (rc = 0 /\ l = ((fun e => (e_name e, e_ino e)) <$> l2)
        \/ rc = - EIO /\ unreadable /\ exists r, ((fun e => (e_name e, e_ino e)) <$> l2) = l ++ r).
Proof.
  induction l2 as [|e l2 IH]; intros fs1 l1 Hs Heq; cbn [list_dir].
  - exists 0, [], fs1. rewrite app_nil_r in Heq. unfold dfs_readdir. cbn [negb Z.eqb Pos.eqb].
    rewrite (proj2 (Z.leb_le _ _)) by (rewrite Hsize, Heq; lia). split; [done|]. split; [done|]. split; [done|]. by left.
  - destruct (readdir_spec fs1 l1 e l2 Hs Heq) as (fs2 & Hs2 & Hp2 & [->|[Hu ->]]); cbn [obind].
    2: { exists (- EIO), [], fs2. split; [done|]. split; [done|]. split; [done|]. right. split; [done|]. split; [done|]. by eexists. }
    change (length (e :: l2)) with (S (length l2)).
    destruct (IH fs2 (l1 ++ [e])) as (rc & l & fs3 & -> & Hs3 & Hp3 & Hor); [done|by rewrite <- (assoc_L (++))|]. cbn [obind].
    do 3 eexists. split; [reflexivity|]. split; [exact Hs3|]. split; [intros y; by rewrite Hp3, Hp2|].
    destruct Hor as [[-> ->]|(-> & Hu & r & Hr)]; [by left|]. right. split; [done|]. split; [done|]. exists r. by rewrite fmap_cons, Hr.
Qed.
End Listing.
End DirSpec.

(** ** The properties *)

(** [nm] is in the directory, first with the inode [i], between [l1] and [l2]. *)
Definition first_entry (l : list (list Z * Z)) (nm : list Z) (i : Z) (l1 l2 : list (list Z * Z)) : Prop :=
  l = l1 ++ (nm, i) :: l2 /\ (nm ∉ l1.*1).

Section Theorems.
Context {C : Type} `{BC : BufferCache C} (cr : cred) (now : Z).
Implicit Types (fs : filsys C).

Lemma changed_same fs x bl ess fs1 : dir_ok fs x bl ess -> same_fs fs fs1 -> same_pins fs fs1 -> changed now fs x bl fs1 x ess.
Proof. intros Hok Hs Hp. constructor; [by apply (dir_ok_same fs)|done|intros y _; apply Hs|by left]. Qed.

Lemma found_first ess j l1 e l2 nm : ess !! j = Some (l1 ++ e :: l2) -> e_name e = nm -> nm ∉ (entries (take j ess ++ [l1])).*1 ->
  first_entry (entries ess) nm (e_ino e) (entries (take j ess ++ [l1])) (entries (l2 :: drop (S j) ess)).
Proof. intros Hj <- Hn. split; [by apply entries_split|done]. Qed.


(** C37: Reading a directory from position 0 on gives every entry once, in order, and then 0,
    or the first of them and -EIO at a block that cannot be read; no block changes and every
    buffer is released. *)
Theorem readdir_correct fs x bl ess :
  dir_ok fs x bl ess -> i_size (i_desc x) = Z.of_nat (length bl) * blocksize fs -> i_size (i_desc x) < 2 ^ 32 ->
  exists rc l fs', list_dir (S (length (entries ess))) fs x 0 = Ret (rc, l, fs') /\ same_fs fs fs' /\ same_pins fs fs'
    /\ (rc = 0 /\ l = entries ess \/ rc = - EIO /\ unreadable (C := C) /\ exists r, entries ess = l ++ r).
Proof.
  intros Hok Hsize Hmax. unfold entries. rewrite length_fmap.
  apply (list_dir_spec fs x bl ess Hok ltac:(rewrite Hsize; by apply (dir_size fs x)) Hmax (mjoin ess) fs [] (same_fs_refl fs) eq_refl).
Qed.
End Theorems.

(** ** Witnesses *)

(** A directory of two blocks: [ab] and [xyz], both with room, and [abc]. *)
Definition ex_es1 : list dentry := [Dentry 5 [97; 98] (replicate 18 0); Dentry 6 [120; 121; 122] (replicate 4049 0)].
Definition ex_es2 : list dentry := [Dentry 9 [97; 98; 99] (replicate 4081 0)].
Definition ex_dir : inode := Inode 3 (InodeDesc 16877 0 0 0 0 0 2 8192 1 0 (7 :: 9 :: replicate 14 0)) 12.
Definition ex_dir_fs : filsys memcache :=
  FilSys (MemCache {[7 := words_of (row ex_es1); 9 := words_of (row ex_es2)]} ∅ ∅) (Super 1 0 64 0 0 64 32 0) [] false 4096 16 10 128 [2].
Definition ex_name : list Z := [97; 98; 47; 120].
Definition ex_cred : cred := Cred 0 0.

Lemma ex_entry i n k : is_u32 i -> 0 < len_of n < MAXPATH -> NAME_ALIGN_LEN (len_of n) <= len_of n + Z.of_nat k ->
  (DENTRY_SIZE + len_of n + Z.of_nat k) mod 4 = 0 -> Forall is_byte n -> entry_ok (Dentry i n (replicate k 0)).
Proof.
  intros Hi Hn Hr Hm Hb. assert (Hk : len_of (replicate k 0) = Z.of_nat k) by (unfold len_of; by rewrite length_replicate).
  constructor; unfold e_reclen, e_namelen; cbn [e_ino e_name e_pad]; rewrite ?Hk; try done.
  - apply Z.mod_divide; [done|exact Hm].
  - split; [done|]. apply Forall_replicate. unfold is_byte. lia.
Qed.

Lemma ex_rows : row_ok 4096 ex_es1 /\ row_ok 4096 ex_es2.
Proof.
  assert (Hb : forall l, forallb (fun b => (0 <=? b) && (b <? 256)) l = true -> Forall is_byte l).
  { intros l Hl. rewrite forallb_forall in Hl. apply Forall_forall. intros b Hb%list_elem_of_In. apply Hl, andb_true_iff in Hb. unfold is_byte. lia. }
  split; (constructor; [by vm_compute|lia|]); unfold ex_es1, ex_es2; rewrite ?Forall_cons; repeat split; try apply Forall_nil_2;
    apply ex_entry; (apply Hb; reflexivity) || (unfold is_u32; lia) || by vm_compute.
Qed.

Lemma ex_dir_ok : dir_ok ex_dir_fs ex_dir [7; 9] [ex_es1; ex_es2].
Proof.
  destruct ex_rows as [Hr1 Hr2]. constructor; cbn [i_desc i_depth i_blockdir ex_dir]; try done.
  - constructor; [|done]. intros b. unfold page, ex_dir_fs. cbn [cache block_data memcache_ops]. unfold mc_data. cbn [mc_blocks].
    destruct (decide (b = 7)) as [->|H7]; [by vm_compute|]. destruct (decide (b = 9)) as [->|H9]; [by vm_compute|].
    rewrite lookup_insert_ne, lookup_singleton_ne by done. by vm_compute.
  - by apply (bool_decide_unpack _).
  - by apply (bool_decide_unpack _).
  - intros [|[|i]] b Hi; [change (Some 7 = Some b) in Hi|change (Some 9 = Some b) in Hi|discriminate Hi]; injection Hi as <-;
      [exists 0, [], 7|exists 1, [], 9]; (split; [reflexivity|]); (split; [reflexivity|]); intros d _; reflexivity.
  - constructor; [|constructor; [|constructor]]; (split; [|assumption]).
    + change (bytes_of (words_of (row ex_es1)) = row ex_es1). by apply (row_words 4096).
    + change (bytes_of (words_of (row ex_es2)) = row ex_es2). by apply (row_words 4096).
Qed.

Lemma ex_lone e : [e] ∈ [ex_es1; ex_es2] -> e_name e <> the_name ex_name 2.
Proof.
  intros Hin He. apply elem_of_cons in Hin as [H|Hin]; [discriminate H|]. apply list_elem_of_singleton in Hin.
  injection Hin as ->. discriminate He.
Qed.


Definition rc_of {A B} (o : outcome (Z * A * B)) : outcome (Z * A) := '(rc, a, _) <~ o; Ret (rc, a).

(** The names are found, over both blocks; the entry that is added goes behind [ab]. *)
Example ex_find :
  rc_of (find_dir_entry ex_cred ex_dir_fs ex_dir [97; 98; 99] 3) = Ret (0, Some 9)
  /\ rc_of (find_dir_entry ex_cred ex_dir_fs ex_dir [97; 99] 2) = Ret (- ENOENT, None)
  /\ (('(rc, x, fs) <~ add_dir_entry ex_cred 77 ex_dir_fs ex_dir [99] 1 4; '(rc', l, _) <~ list_dir 5 fs x 0; Ret (rc, rc', l))
      = Ret (0, 0, [([97; 98], 5); ([99], 4); ([120; 121; 122], 6); ([97; 98; 99], 9)])).
Proof. split; [by vm_compute|]. split; by vm_compute. Qed.

(** A position in the middle of a record is not refused: the record is read from there, also
    behind the end of the block. *)
Lemma readdir_outside : dfs_readdir ex_dir_fs ex_dir 4090 1 = Fault.
Proof. by vm_compute. Qed.

Lemma readdir_correct_witness :
  exists rc l fs', list_dir 4 ex_dir_fs ex_dir 0 = Ret (rc, l, fs') /\ same_fs ex_dir_fs fs' /\ same_pins ex_dir_fs fs'
    /\ (rc = 0 /\ l = entries [ex_es1; ex_es2]
        \/ rc = - EIO /\ unreadable (C := memcache) /\ exists r, entries [ex_es1; ex_es2] = l ++ r).
Proof. apply (readdir_correct ex_dir_fs ex_dir [7; 9] [ex_es1; ex_es2] ex_dir_ok); reflexivity. Defined.
