(* ===== verification/Path.v ===== *)
(** * Path: from path names to inodes, src/src/sys/fs/dfs/dir.c and inode.c

    A path is the list of its characters without the NUL; [len] counts those that are left.
    [get_inode] makes a copy of the descriptor in the page of the inode table, where the
    code keeps a pointer into the page; nothing here stores to descriptors.  kmalloc does
    not return NULL (Kmalloc.v). *)

From S2P Require Import Prelude Bitmap Cache Group Inode Dir.
Local Open Scope krlean_scope.

Definition DFS_INODE_ROOT : Z := 0.
Definition PS1 : Z := 47.
Definition PS2 : Z := 92.
Definition is_sep (c : Z) : bool := (c =? PS1) || (c =? PS2).
Definition cur (p : list Z) : Z := default 0 (head p).

(** ** Inodes *)

(** [s64]: the two halves of an [off64_t]. *)
Definition s64 (lo hi : Z) : Z := lo + 2 ^ 32 * s32 hi.

(** The descriptor number [k] of a page of the inode table. *)
Definition read_desc (page : list Z) (k : Z) : outcome inodedesc :=
  match drop (32 * Z.to_nat k) page with
  | mode_uid :: gid_resv :: atime :: ctime :: mtime :: blocks :: size0 :: size1 :: linkcount :: depth :: rest =>
      Ret (InodeDesc (mode_uid mod 65536) (mode_uid / 65536) (gid_resv mod 65536) (s32 atime) (s32 ctime) (s32 mtime)
        blocks (s64 size0 size1) (s32 linkcount) (s32 depth) (take DFS_TOPBLOCKDIR_SIZE (drop 6 rest)))
  | _ => Fault
  end.

Section Path.
Context {C : Type} `{BC : BufferCache C} (cr : cred).
Implicit Types (fs : filsys C) (x : inode).

Definition inode_block fs (ino : Z) : outcome Z :=
  group <~ udiv ino (inodes_per_group (super fs));
  g <~ deref (groups fs !! Z.to_nat group);
  i <~ umod ino (inodes_per_group (super fs));
  q <~ udiv i (inodes_per_block fs);
  Ret (u32 (inode_table_block (desc g) + q)).

Definition get_inode fs (ino : Z) : outcome (Z * option inode * filsys C) :=
  if inode_count (super fs) <=? ino then Ret (- EINVAL, None, fs)
  else
    block <~ inode_block fs ino;
    let '(ok, fs) := get fs block in
    if negb ok then Ret (- EIO, None, fs)
    else
      k <~ umod ino (inodes_per_block fs);
      d <~ read_desc (page fs block) k;
      Ret (0, Some (Inode ino d block), fs).

Definition release_inode fs x : filsys C := release fs (i_buf x).

(** ** Paths *)

(** [while (l < len && *p != PS1 && *p != PS2)] *)
Fixpoint part_len (len : nat) (p : list Z) : nat :=
  match len with
  | O => O
  | S len => if is_sep (cur p) then O else S (part_len len (tail p))
  end.

Fixpoint lookup_name (fuel : nat) fs (ino : Z) (name : list Z) (len : Z) : outcome (Z * option Z * filsys C) :=
  match fuel with
  | O => Diverge
  | S fuel =>
      let '(name, len) := if is_sep (cur name) then (tail name, len - 1) else (name, len) in
      if len =? 0 then Ret (0, Some ino, fs)
      else
        let l := Z.of_nat (part_len (Z.to_nat len) name) in
        '(rc, x, fs) <~ get_inode fs ino;
        if rc <? 0 then Ret (rc, None, fs)
        else
          x <~ deref x;
          '(rc, found, fs) <~ find_dir_entry cr fs x name l;
          let fs := release_inode fs x in
          if rc <? 0 then Ret (rc, None, fs)
          else
            let ino := default ino found in
            if l =? len then Ret (0, Some ino, fs)
            else lookup_name fuel fs ino (drop (Z.to_nat l) name) (len - l)
  end.

Definition namei fs (name : list Z) : outcome (Z * option inode * filsys C) :=
  '(rc, ino, fs) <~ lookup_name (S (length name)) fs DFS_INODE_ROOT name (Z.of_nat (length name));
  if rc <? 0 then Ret (rc, None, fs)
  else
    ino <~ deref ino;
    get_inode fs ino.

(** [while (p > start && *p != PS1 && *p != PS2) p--], as an offset *)
Fixpoint last_sep (p : nat) (name : list Z) : nat :=
  match p with
  | O => O
  | S q => if is_sep (cur (drop p name)) then p else last_sep q name
  end.

(** [name] and [len] go in and out. *)
Definition diri fs (name : list Z) (len : Z) : outcome (Z * list Z * Z * option inode * filsys C) :=
  if len =? 0 then '(rc, x, fs) <~ get_inode fs DFS_INODE_ROOT; Ret (rc, name, len, x, fs)
  else
    let p := last_sep (Z.to_nat (len - 1)) name in
    if (p =? 0)%nat then
      let '(name, len) := if is_sep (cur name) then (tail name, len - 1) else (name, len) in
      '(rc, x, fs) <~ get_inode fs DFS_INODE_ROOT;
      Ret (rc, name, len, x, fs)
    else
      '(rc, ino, fs) <~ lookup_name (S (length name)) fs DFS_INODE_ROOT name (Z.of_nat p);
      if rc <? 0 then Ret (rc, name, len, None, fs)
      else
        ino <~ deref ino;
        '(rc, x, fs) <~ get_inode fs ino;
        if rc <? 0 then Ret (rc, name, len, None, fs)
        else
          dir <~ deref x;
          if negb (S_ISDIR (i_mode (i_desc dir))) then Ret (- ENOTDIR, name, len, None, release_inode fs dir)
          else Ret (0, drop (S p) name, len - Z.of_nat (S p), Some dir, fs).

(** What the file structure gets: the inode, its mode, owner and group. *)
Definition dfs_opendir fs (name : list Z) : outcome (Z * option (inode * Z * Z * Z) * filsys C) :=
  '(rc, x, fs) <~ namei fs name;
  if rc <? 0 then Ret (rc, None, fs)
  else
    x <~ deref x;
    if negb (S_ISDIR (i_mode (i_desc x))) then Ret (- ENOTDIR, None, release_inode fs x)
    else Ret (0, Some (x, i_mode (i_desc x), i_uid (i_desc x), i_gid (i_desc x)), fs).
End Path.

(** ** Trees

    [tree T]: what the inode table and the directories hold, inode by inode.  Every entry of
    a directory leads to an inode of the tree. *)

Record node := Node { n_inode : inode; n_blocks : list Z; n_rows : list (list dentry) }.

Fixpoint assoc (nm : list Z) (l : list (list Z * Z)) : option Z :=
  match l with [] => None | (n, i) :: l => if decide (n = nm) then Some i else assoc nm l end.

Lemma assoc_first l nm i l1 l2 : first_entry l nm i l1 l2 -> assoc nm l = Some i.
Proof.
  intros [-> Hn]. induction l1 as [|[n j] l1 IH]; simpl in *; [by rewrite decide_True|].
  apply not_elem_of_cons in Hn as [Hne Hn]. rewrite decide_False by congruence. by apply IH.
Qed.

Lemma assoc_none l nm : nm ∉ l.*1 -> assoc nm l = None.
Proof.
  induction l as [|[n j] l IH]; simpl; intros Hn; [done|]. apply not_elem_of_cons in Hn as [Hne Hn].
  rewrite decide_False by congruence. by apply IH.
Qed.

Lemma assoc_in l nm i : assoc nm l = Some i -> (nm, i) ∈ l.
Proof.
  induction l as [|[n j] l IH]; simpl; [done|]. case_decide as Hn; [intros [= ->]; subst; left|]. intros Ha. right. by apply IH.
Qed.

Section Resolve.
Context (cr : cred) (T : gmap Z node).

(** The walk along the names from an inode: the inode it ends at, or the error code. *)
Fixpoint resolve (ino : Z) (cs : list (list Z)) : Z + Z :=
  match cs with
  | [] => inr ino
  | c :: cs =>
      match T !! ino with
      | None => inl (- EINVAL)
      | Some n =>
          if negb (S_ISDIR (i_mode (i_desc (n_inode n)))) then inl (- ENOTDIR)
          else if checki cr (n_inode n) S_IEXEC <? 0 then inl (- EACCES)
          else match assoc c (entries (n_rows n)) with
               | Some i => resolve i cs
               | None => inl (- ENOENT)
               end
      end
  end.

(** A path: names with the separators before them. *)
Definition join (cs : list (Z * list Z)) : list Z := mjoin ((fun p => p.1 :: p.2) <$> cs).
Definition part_ok (c : list Z) : Prop := 0 < len_of c < MAXPATH /\ Forall (fun x => is_byte x /\ is_sep x = false) c.
Definition parts_ok (cs : list (Z * list Z)) : Prop := Forall (fun p => is_sep p.1 = true /\ is_byte p.1 /\ part_ok p.2) cs.
End Resolve.

Section TreeSpec.
Context {C : Type} `{BC : BufferCache C} (cr : cred).
Implicit Types (fs : filsys C) (x : inode) (T : gmap Z node).

Record inode_at fs (ino : Z) x : Prop := {
  ia_range : 0 <= ino < inode_count (super fs);
  ia_ino : i_ino x = ino;
  ia_block : inode_block fs ino = Ret (i_buf x);
  ia_desc : inodes_per_block fs <> 0 /\ read_desc (page fs (i_buf x)) (ino mod inodes_per_block fs) = Ret (i_desc x);
}.

Record tree_ok fs T : Prop := {
  to_inode : forall ino n, T !! ino = Some n -> inode_at fs ino (n_inode n);
  to_dir : forall ino n, T !! ino = Some n -> S_ISDIR (i_mode (i_desc (n_inode n))) = true -> dir_ok fs (n_inode n) (n_blocks n) (n_rows n);
  to_closed : forall ino n nm i, T !! ino = Some n -> S_ISDIR (i_mode (i_desc (n_inode n))) = true -> (nm, i) ∈ entries (n_rows n) -> is_Some (T !! i);
  to_root : exists n, T !! DFS_INODE_ROOT = Some n /\ S_ISDIR (i_mode (i_desc (n_inode n))) = true;
}.

Lemma inode_at_same fs fs' ino x : same_fs fs fs' -> inode_at fs ino x -> inode_at fs' ino x.
Proof. intros [[c ->] Hd] [H1 H2 H3 [H4 H5]]. constructor; [done|done|exact H3|]. split; [done|]. by rewrite Hd. Qed.

Lemma tree_ok_same fs fs' T : same_fs fs fs' -> tree_ok fs T -> tree_ok fs' T.
Proof.
  intros Hs [H1 H2 H3 H4]. constructor; [|intros ino n Hn Hd; eapply dir_ok_same; eauto|exact H3|exact H4].
  intros ino n Hn. eapply inode_at_same; eauto.
Qed.

Lemma root_some fs T : tree_ok fs T -> is_Some (T !! DFS_INODE_ROOT).
Proof. intros Ht. destruct (to_root _ _ Ht) as (n & Hn & _). by exists n. Qed.

Lemma get_inode_spec fs ino x : inode_at fs ino x ->
  exists fs', get_inode fs ino = Ret (0, Some x, fs') /\ held fs fs' (i_buf x)
    \/ get_inode fs ino = Ret (- EIO, None, fs') /\ same_fs fs fs' /\ same_pins fs fs' /\ unreadable (C := C).
Proof.
  intros [H1 H2 H3 [H4 H5]]. unfold get_inode. rewrite (proj2 (Z.leb_gt _ _)) by lia. rewrite H3. cbn [obind].
  pose proof (get_held fs (i_buf x)) as Hheld. pose proof (get_fails fs (i_buf x)) as Hfail.
  assert (Hunr : (get fs (i_buf x)).1 = false -> unreadable (C := C)) by (intros Hg; by exists fs, (i_buf x)).
  assert (Hc : exists c, (get fs (i_buf x)).2 = set_cache fs c) by (unfold get; destruct (get_buffer _ _); by eexists).
  destruct (get fs (i_buf x)) as [ok fs1]. cbn [fst snd] in *. exists fs1. destruct ok; cbn [negb].
  - left. specialize (Hheld eq_refl). split; [|done]. destruct Hheld as [[_ Hd] _]. destruct Hc as [c ->]. rewrite Hd.
    unfold umod. cbn [inodes_per_block set_cache]. rewrite (proj2 (Z.eqb_neq _ _) H4). cbn [obind]. rewrite H5. cbn [obind].
    rewrite <- H2. by destruct x.
  - right. destruct (Hfail eq_refl) as [Hd Hp]. split; [done|]. split; [by split|]. split; [done|by apply Hunr].
Qed.

(** ** One step of a walk *)

(** [find_dir_entry] in an inode that is held. *)
Lemma find_step fs T ino n fs1 name l : tree_ok fs T -> T !! ino = Some n -> held fs fs1 (i_buf (n_inode n)) -> name_ok name l ->
  exists rc r fs2, find_dir_entry cr fs1 (n_inode n) name l = Ret (rc, r, fs2)
    /\ same_fs fs (release_inode fs2 (n_inode n)) /\ same_pins fs (release_inode fs2 (n_inode n))
    /\ ((rc = - EIO /\ unreadable (C := C))
        \/ (exists i, resolve cr T ino [the_name name l] = inr i /\ rc = 0 /\ r = Some i /\ is_Some (T !! i))
        \/ (exists e, resolve cr T ino [the_name name l] = inl e /\ rc = e /\ e < 0)).
Proof.
  intros Ht Hn Hh Hname. cbn [resolve]. rewrite Hn. assert (Hok := to_dir _ _ Ht ino n Hn). pose proof (to_closed _ _ Ht ino n) as Hcl.
  assert (Hrel : forall fs2, same_fs fs1 fs2 -> same_pins fs1 fs2 -> same_fs fs (release_inode fs2 (n_inode n)) /\ same_pins fs (release_inode fs2 (n_inode n))).
  { intros fs2 Hs2 Hp2. apply release_held. destruct Hh as [Hs Hp]. split; [by eapply same_fs_trans|]. intros y. by rewrite Hp2, Hp. }
  set (x := n_inode n) in *. destruct (S_ISDIR (i_mode (i_desc x))) eqn:Hdir; cbn [negb].
  2: { exists (- ENOTDIR), None, fs1. split; [unfold find_dir_entry; by rewrite (name_guards name l Hname), Hdir|].
       destruct (Hrel fs1 (same_fs_refl fs1) (fun y => eq_refl)). split; [done|]. split; [done|]. right; right. by eexists. }
  destruct (checki cr x S_IEXEC <? 0) eqn:Hacc.
  { exists (- EACCES), None, fs1. split; [unfold find_dir_entry; by rewrite (name_guards name l Hname), Hdir, Hacc|].
    destruct (Hrel fs1 (same_fs_refl fs1) (fun y => eq_refl)). split; [done|]. split; [done|]. right; right. by eexists. }
  assert (Hok1 : dir_ok fs1 x (n_blocks n) (n_rows n)) by (eapply dir_ok_same; [apply Hh|by apply Hok]).
  apply Z.ltb_ge in Hacc.
  destruct (find_dir_entry_spec cr fs1 x _ _ Hok1 name l Hname Hdir Hacc)
    as [(fs2 & Hs & Hp & Hu & ->)|[(fs2 & Hs & Hp & Hno & ->)|(fs2 & j & b & l1 & e & l2 & _ & Hj & He & Hno & _ & fs3 & -> & Hs & Hp)]];
    do 3 eexists; (split; [reflexivity|]); destruct (Hrel _ Hs Hp); (split; [done|]); (split; [done|]).
  - by left.
  - right. right. rewrite (assoc_none _ _ Hno). by eexists.
  - right. left. pose proof (found_first _ _ _ _ _ _ Hj He Hno) as Hfirst. apply assoc_first in Hfirst. rewrite Hfirst.
    exists (e_ino e). split; [done|]. split; [done|]. split; [done|]. apply (Hcl (the_name name l)); [done|done|]. by apply assoc_in.
Qed.

(** ** The walk *)

Lemma part_len_app (c k : list Z) : Forall (fun y => is_byte y /\ is_sep y = false) c -> (k = [] \/ is_sep (cur k) = true) ->
  forall len, (length c <= len <= length (c ++ k))%nat -> part_len len (c ++ k) = length c.
Proof.
  intros Hc Hk. induction Hc as [|y c [_ Hx] Hc IH]; intros len Hl; cbn [app length] in *.
  - destruct len as [|len]; [done|]. destruct Hk as [->|Hk]; [simpl in Hl; lia|]. cbn [part_len]. by rewrite Hk.
  - destruct len as [|len]; [lia|]. cbn [part_len]. change (cur (y :: c ++ k)) with y. rewrite Hx. cbn [tail]. f_equal. apply IH. lia.
Qed.

Lemma join_sep cs k : parts_ok cs -> (k = [] \/ is_sep (cur k) = true) -> join cs ++ k = [] \/ is_sep (cur (join cs ++ k)) = true.
Proof. intros Hc Hk. destruct Hc as [|[s c] cs (Hs & _) _]; [done|]. right. done. Qed.

Lemma join_bytes cs : parts_ok cs -> Forall is_byte (join cs).
Proof.
  induction 1 as [|[s c] cs (Hs & Hb & Hc) _ IH]; [constructor|]. constructor; [exact Hb|]. apply Forall_app. split; [|exact IH].
  eapply Forall_impl; [apply Hc|]. by intros y [? _].
Qed.

Definition walk_ends fs T (res : Z + Z) (o : outcome (Z * option Z * filsys C)) : Prop :=
  exists rc r fs', o = Ret (rc, r, fs') /\ same_fs fs fs' /\ same_pins fs fs'
    /\ ((rc = - EIO /\ unreadable (C := C))
        \/ (exists i, res = inr i /\ rc = 0 /\ r = Some i /\ is_Some (T !! i))
        \/ (exists e, res = inl e /\ rc = e /\ e < 0)).

Lemma walk_same fs fs1 T res o : same_fs fs fs1 -> same_pins fs fs1 -> walk_ends fs1 T res o -> walk_ends fs T res o.
Proof.
  intros Hs Hp (rc & r & fs' & Ho & Hs' & Hp' & H). exists rc, r, fs'. split; [done|]. split; [by eapply same_fs_trans|].
  split; [intros y; by rewrite Hp', Hp|exact H].
Qed.

Lemma resolve_cons T ino c cs : resolve cr T ino (c :: cs) = match resolve cr T ino [c] with inr i => resolve cr T i cs | inl e => inl e end.
Proof. cbn [resolve]. destruct (T !! ino) as [n|]; [|done]. destruct (negb _); [done|]. destruct (_ <? 0); [done|]. by destruct (assoc _ _). Qed.

(** The loop behind the separator: the name [c] comes first, then the parts [cs]. *)
Lemma lookup_part fuel : forall fs T ino c cs k name,
  tree_ok fs T -> is_Some (T !! ino) -> part_ok c -> parts_ok cs -> Forall is_byte k -> (k = [] \/ is_sep (cur k) = true) ->
  (exists s, is_sep s = true /\ name = s :: c ++ join cs ++ k) \/ name = c ++ join cs ++ k ->
  (length cs < fuel)%nat ->
  walk_ends fs T (resolve cr T ino (c :: cs.*2)) (lookup_name cr fuel fs ino name (Z.of_nat (length name - length k))).
Proof.
  induction fuel as [|fuel IH]; intros fs T ino c cs k name Ht [n Hn] Hc Hcs Hk Hsep Hname Hf; [lia|]. cbn [lookup_name].
  set (q := c ++ join cs ++ k). assert (Hq : q = c ++ join cs ++ k) by done.
  assert (Hcur : is_sep (cur q) = false).
  { destruct Hc as [Hlc Hc]. destruct Hc as [|y c' [_ Hy] _]; [unfold len_of in Hlc; simpl in Hlc; lia|exact Hy]. }
  assert (Hskip : (if is_sep (cur name) then (tail name, Z.of_nat (length name - length k) - 1) else (name, Z.of_nat (length name - length k)))
    = (q, Z.of_nat (length c + length (join cs)))).
  { destruct Hname as [(s & Hs & ->)| ->]; fold q; [change (cur (s :: q)) with s; rewrite Hs|rewrite Hcur]; f_equal; rewrite Hq; cbn [length tail]; rewrite !length_app; lia. }
  rewrite Hskip. clear Hskip Hname. destruct Hc as [Hlc Hcb]. unfold len_of, MAXPATH in Hlc. rewrite (proj2 (Z.eqb_neq _ _)) by lia. rewrite Nat2Z.id.
  assert (Hpart : part_len (length c + length (join cs)) q = length c).
  { apply part_len_app; [done|by apply join_sep|]. rewrite !length_app. lia. }
  rewrite Hpart. destruct (get_inode_spec fs ino (n_inode n) (to_inode _ _ Ht ino n Hn)) as (fs1 & [[-> Hh]|(-> & Hs & Hp & Hu)]); cbn [obind].
  2: { exists (- EIO), None, fs1. split; [done|]. split; [done|]. split; [done|]. by left. }
  change (0 <? 0) with false. cbv iota. cbn [deref obind].
  assert (Hnm : name_ok q (Z.of_nat (length c)) /\ the_name q (Z.of_nat (length c)) = c).
  { split; [|unfold the_name; rewrite Nat2Z.id; apply take_app_length]. split; [unfold MAXPATH; lia|]. split; [unfold len_of; rewrite Hq, !length_app; lia|].
    rewrite Hq. apply Forall_app. split; [by eapply Forall_impl; [exact Hcb|intros y [? _]]|]. apply Forall_app. split; [by apply join_bytes|done]. }
  destruct Hnm as [Hnm Htn].
  destruct (find_step fs T ino n fs1 q _ Ht Hn Hh Hnm) as (rc & r & fs2 & -> & Hs & Hp & Hor). rewrite Htn in Hor. cbn [obind]. rewrite resolve_cons.
  destruct Hor as [[-> Hu]|[(i & Hi & -> & -> & HT)|(e & He & -> & Hneg)]].
  - do 3 eexists. split; [reflexivity|]. split; [done|]. split; [done|]. by left.
  - change (0 <? 0) with false. cbv iota. cbn [default]. destruct Hcs as [|[s' c'] cs (Hs' & Hb' & Hc') Hcs].
    + rewrite (proj2 (Z.eqb_eq _ _)) by (simpl; lia). do 3 eexists. split; [reflexivity|]. split; [done|]. split; [done|].
      right. left. exists i. by rewrite Hi.
    + assert (Hj : join ((s', c') :: cs) = s' :: c' ++ join cs) by done. rewrite (proj2 (Z.eqb_neq _ _)) by (rewrite Hj; simpl; lia).
      apply (walk_same fs (release_inode fs2 (n_inode n))); [done|done|]. rewrite Hi, fmap_cons.
      specialize (IH (release_inode fs2 (n_inode n)) T i c' cs k (s' :: c' ++ join cs ++ k)).
      rewrite Nat2Z.id. assert (Hdrop : drop (length c) q = s' :: c' ++ join cs ++ k) by (rewrite Hq, drop_app_length, Hj; simpl; by rewrite <- (assoc_L (++))).
      rewrite Hdrop. replace (Z.of_nat (length c + length (join ((s', c') :: cs))) - Z.of_nat (length c))
        with (Z.of_nat (length (s' :: c' ++ join cs ++ k) - length k)) by (rewrite Hj; cbn [length]; rewrite !length_app; lia).
      apply IH; [by eapply tree_ok_same|done|done|done|done|done|by left; exists s'|simpl in Hf; lia].
  - rewrite (proj2 (Z.ltb_lt _ _)) by done. do 3 eexists. split; [reflexivity|]. split; [done|]. split; [done|]. right. right. exists e. by rewrite He.
Qed.

(** ** The functions *)

Definition the_path (lead : bool) (cs : list (Z * list Z)) : list Z := if lead then join cs else tail (join cs).

(** [lookup_name] of the first parts of a path. *)
Lemma lookup_spec fs T lead s c cs k fuel : tree_ok fs T -> parts_ok ((s, c) :: cs) -> Forall is_byte k -> (k = [] \/ is_sep (cur k) = true) ->
  (length cs < fuel)%nat ->
  walk_ends fs T (resolve cr T DFS_INODE_ROOT (c :: cs.*2))
    (lookup_name cr fuel fs DFS_INODE_ROOT (the_path lead ((s, c) :: cs) ++ k) (Z.of_nat (length (the_path lead ((s, c) :: cs))))).
Proof.
  intros Ht Hcs Hk Hsep Hf. apply Forall_cons_1 in Hcs as [(Hs & Hb & Hc) Hcs].
  pose proof (lookup_part fuel fs T DFS_INODE_ROOT c cs k (the_path lead ((s, c) :: cs) ++ k) Ht (root_some _ _ Ht) Hc Hcs Hk Hsep) as Hl.
  rewrite length_app, Nat.add_sub in Hl. apply Hl; [|done]. destruct lead.
  - left. exists s. split; [done|]. unfold the_path. change (join ((s, c) :: cs)) with (s :: c ++ join cs). simpl. by rewrite <- (assoc_L (++)).
  - right. unfold the_path. change (join ((s, c) :: cs)) with (s :: c ++ join cs). simpl. by rewrite <- (assoc_L (++)).
Qed.

(** What [namei] and [diri] end with: the inode held, or an error and nothing held. *)
Definition inode_ends fs T (res : Z + Z) (rc : Z) (r : option inode) (fs' : filsys C) : Prop :=
  (exists ino n, res = inr ino /\ T !! ino = Some n /\ rc = 0 /\ r = Some (n_inode n) /\ held fs fs' (i_buf (n_inode n)))
  \/ (exists e, res = inl e /\ e < 0 /\ rc = e /\ r = None /\ same_fs fs fs' /\ same_pins fs fs')
  \/ rc = - EIO /\ r = None /\ unreadable (C := C) /\ same_fs fs fs' /\ same_pins fs fs'.

Lemma get_inode_ends fs fs1 T ino n : tree_ok fs T -> T !! ino = Some n -> same_fs fs fs1 -> same_pins fs fs1 ->
  exists rc r fs', get_inode fs1 ino = Ret (rc, r, fs') /\ inode_ends fs T (inr ino) rc r fs'.
Proof.
  intros Ht Hn Hs Hp. destruct (get_inode_spec fs1 ino (n_inode n)) as (fs' & [[-> [Hs' Hp']]|(-> & Hs' & Hp' & Hu)]).
  - eapply inode_at_same; [done|by apply Ht].
  - do 3 eexists. split; [reflexivity|]. left. exists ino, n. split; [done|]. split; [done|]. split; [done|]. split; [done|].
    split; [by eapply same_fs_trans|]. intros y. by rewrite Hp', Hp.
  - do 3 eexists. split; [reflexivity|]. right. right. split; [done|]. split; [done|]. split; [done|].
    split; [by eapply same_fs_trans|]. intros y. by rewrite Hp', Hp.
Qed.

Lemma last_sep_app a s c j : is_sep s = true -> Forall (fun y => is_byte y /\ is_sep y = false) c -> (j <= length c)%nat ->
  last_sep (length a + j) (a ++ s :: c) = length a.
Proof.
  intros Hs Hc. induction j as [|j IH]; intros Hj.
  - rewrite Nat.add_0_r. destruct (length a) as [|n] eqn:Ha; [done|]. cbn [last_sep]. rewrite <- Ha, drop_app_length. change (cur (s :: c)) with s. by rewrite Hs.
  - rewrite Nat.add_succ_r. cbn [last_sep]. rewrite IH by lia. replace (S (length a + j)) with (length a + S j)%nat by lia. rewrite drop_app_add. cbn [drop].
    destruct (lookup_lt_is_Some_2 c j) as [y Hy]; [lia|]. rewrite (drop_S _ _ _ Hy). change (cur (y :: _)) with y.
    rewrite Forall_lookup in Hc. by destruct (Hc j y Hy) as [_ ->].
Qed.

Lemma last_sep_none c j : Forall (fun y => is_byte y /\ is_sep y = false) c -> (j < length c)%nat -> last_sep j c = O.
Proof.
  intros Hc. induction j as [|j IH]; intros Hj; [done|]. cbn [last_sep]. destruct (lookup_lt_is_Some_2 c (S j)) as [y Hy]; [lia|].
  rewrite (drop_S _ _ _ Hy). change (cur (y :: _)) with y. rewrite Forall_lookup in Hc. destruct (Hc (S j) y Hy) as [_ ->]. apply IH. lia.
Qed.

Lemma length_parts s c cs lead : part_ok c -> parts_ok cs -> (length cs < S (length (the_path lead ((s, c) :: cs))))%nat.
Proof.
  intros [Hc _] Hcs. assert (Hl : (length cs <= length (join cs))%nat).
  { clear Hc. induction Hcs as [|[s' c'] cs (_ & _ & Hc' & _) _ IH]; [done|]. change (join ((s', c') :: cs)) with (s' :: c' ++ join cs).
    cbn [length]. rewrite length_app. lia. }
  unfold the_path. change (join ((s, c) :: cs)) with (s :: c ++ join cs). destruct lead; cbn [tail length]; rewrite length_app; lia.
Qed.
End TreeSpec.

Lemma the_path_snoc lead s1 c1 cs s c : the_path lead (((s1, c1) :: cs) ++ [(s, c)]) = the_path lead ((s1, c1) :: cs) ++ s :: c.
Proof. unfold the_path, join. rewrite fmap_app, join_app. cbn. rewrite app_nil_r. by destruct lead. Qed.

Section Theorems.
Context {C : Type} `{BC : BufferCache C} (cr : cred).
Implicit Types (fs : filsys C).

(** C38: [namei] walks along a path from the root, through one directory after the other, to
    the inode that the names lead to, and returns it with its page held; or it gives the
    error of the first step that fails (a name that is missing, an inode that is no
    directory or must not be searched, a block that cannot be read) and holds nothing. *)
Theorem namei_correct fs T lead s c cs : tree_ok fs T -> parts_ok ((s, c) :: cs) ->
  exists rc r fs', namei cr fs (the_path lead ((s, c) :: cs)) = Ret (rc, r, fs')
    /\ inode_ends fs T (resolve cr T DFS_INODE_ROOT (c :: cs.*2)) rc r fs'.
Proof.
  intros Ht Hcs. assert (Hcs' := Hcs). apply Forall_cons_1 in Hcs' as [(_ & _ & Hc) Hcs']. unfold namei.
  pose proof (lookup_spec cr fs T lead s c cs [] (S (length (the_path lead ((s, c) :: cs)))) Ht Hcs ltac:(constructor) ltac:(by left) (length_parts s c cs lead Hc Hcs')) as Hl.
  rewrite app_nil_r in Hl. destruct Hl as (rc & r & fs1 & -> & Hs & Hp & [[-> Hu]|[(i & -> & -> & -> & n & Hn)|(e & -> & -> & Hneg)]]); cbn [obind].
  - do 3 eexists. split; [reflexivity|]. by right; right.
  - change (0 <? 0) with false. cbv iota. cbn [deref obind]. by eapply get_inode_ends.
  - rewrite (proj2 (Z.ltb_lt _ _)) by done. do 3 eexists. split; [reflexivity|]. right. left. by exists e.
Qed.

(** The directory that the names lead to. *)
Definition resolve_dir (T : gmap Z node) (cs : list (list Z)) : Z + Z :=
  match resolve cr T DFS_INODE_ROOT cs with
  | inr ino => match T !! ino with
               | Some n => if S_ISDIR (i_mode (i_desc (n_inode n))) then inr ino else inl (- ENOTDIR)
               | None => inl (- EINVAL)
               end
  | inl e => inl e
  end.

(** C39: [diri] splits the last name off a path and walks along the others: it returns the
    directory they lead to, with its page held, and the last name, or the error of the first
    step that fails, or -ENOTDIR when they lead to something else, and then holds nothing. *)
Theorem diri_correct fs T lead cs s c : tree_ok fs T -> parts_ok (cs ++ [(s, c)]) ->
  let path := the_path lead (cs ++ [(s, c)]) in
  exists rc name len r fs', diri cr fs path (Z.of_nat (length path)) = Ret (rc, name, len, r, fs')
    /\ (rc = 0 -> name = c /\ len = Z.of_nat (length c)) /\ inode_ends fs T (resolve_dir T cs.*2) rc r fs'.
Proof.
  intros Ht Hcs path. pose proof (to_root _ _ Ht) as (n0 & Hn0 & Hd0).
  apply Forall_app in Hcs as [Hcs Hl]. apply Forall_cons_1 in Hl as [(Hs & Hsb & Hc) _]. cbn [fst snd] in *.
  assert (Hcl : (0 < length c)%nat) by (destruct Hc as [Hc _]; unfold len_of in Hc; lia). unfold diri.
  destruct cs as [|[s1 c1] cs].
  - assert (Hroot : resolve_dir T ((([] : list (Z * list Z))).*2) = inr DFS_INODE_ROOT) by (unfold resolve_dir; simpl; by rewrite Hn0, Hd0).
    rewrite Hroot. destruct (get_inode_ends fs fs T DFS_INODE_ROOT n0 Ht Hn0 (same_fs_refl fs) (fun y => eq_refl)) as (rc & r & fs' & Hg & He).
    assert (Hpath : path = if lead then s :: c else c) by (unfold path, the_path; destruct lead; cbn; by rewrite ?app_nil_r).
    assert (Hp : last_sep (Z.to_nat (Z.of_nat (length path) - 1)) path = O).
    { rewrite Hpath. destruct lead; cbn [length].
      - replace (Z.to_nat (Z.of_nat (S (length c)) - 1)) with (length ([] : list Z) + length c)%nat by (simpl; lia). apply (last_sep_app [] s c); [done|apply Hc|lia].
      - apply last_sep_none; [apply Hc|lia]. }
    rewrite (proj2 (Z.eqb_neq _ _)) by (rewrite Hpath; destruct lead; simpl; lia). rewrite Hp. cbn [Nat.eqb].
    assert (Hskip : (if is_sep (cur path) then (tail path, Z.of_nat (length path) - 1) else (path, Z.of_nat (length path))) = (c, Z.of_nat (length c))).
    { rewrite Hpath. destruct lead; [change (cur (s :: c)) with s; rewrite Hs; f_equal; simpl; lia|].
      destruct Hc as [_ Hc]. destruct Hc as [|y c [_ Hy] _]; [simpl in Hcl; lia|]. change (cur (y :: c)) with y. by rewrite Hy. }
    rewrite Hskip, Hg. cbn [obind]. do 5 eexists. split; [reflexivity|]. by split.
  - set (a := the_path lead ((s1, c1) :: cs)). assert (Hcs1 := Hcs). apply Forall_cons_1 in Hcs1 as [(_ & _ & Hc1) Hcs1]. cbn [snd] in Hc1.
    assert (Hpath : path = a ++ s :: c) by apply the_path_snoc.
    assert (Hal : (length cs < length a + 1)%nat /\ (0 < length a)%nat).
    { pose proof (length_parts s1 c1 cs lead Hc1 Hcs1) as Hlp. fold a in Hlp. split; [lia|]. destruct Hc1 as [Hc1 _]. unfold len_of in Hc1.
      unfold a, the_path. change (join ((s1, c1) :: cs)) with (s1 :: c1 ++ join cs). destruct lead; cbn [tail length]; rewrite ?length_app; lia. }
    rewrite (proj2 (Z.eqb_neq _ _)) by (rewrite Hpath, length_app; simpl; lia).
    replace (Z.to_nat (Z.of_nat (length path) - 1)) with (length a + length c)%nat by (rewrite Hpath, length_app; simpl; lia).
    assert (Hp : last_sep (length a + length c) path = length a) by (rewrite Hpath; apply last_sep_app; [done|apply Hc|lia]).
    rewrite Hp, (proj2 (Nat.eqb_neq _ _)) by lia.
    assert (Hk : Forall is_byte (s :: c)) by (constructor; [done|]; eapply Forall_impl; [apply Hc|]; by intros y [? _]).
    pose proof (lookup_spec cr fs T lead s1 c1 cs (s :: c) (S (length path)) Ht Hcs Hk (or_intror Hs)
      ltac:(rewrite Hpath, length_app; lia)) as Hl. fold a in Hl. rewrite <- Hpath in Hl.
    unfold resolve_dir. change (((s1, c1) :: cs).*2) with (c1 :: cs.*2).
    destruct Hl as (rc & r & fs1 & -> & Hs1 & Hp1 & [[-> Hu]|[(i & -> & -> & -> & n & Hn)|(e & -> & -> & Hneg)]]); cbn [obind].
    + do 5 eexists. split; [reflexivity|]. split; [done|]. by right; right.
    + change (0 <? 0) with false. cbv iota. cbn [deref obind]. rewrite Hn.
      destruct (get_inode_ends fs fs1 T i n Ht Hn Hs1 Hp1) as (rc & r & fs' & -> & He). cbn [obind].
      destruct He as [(ino & m & [= <-] & Hm & -> & -> & Hh)|[(e & [=] & _)|(-> & -> & Hu & Hs' & Hp')]].
      * rewrite Hn in Hm. injection Hm as <-. change (0 <? 0) with false. cbv iota. cbn [deref obind].
        destruct (S_ISDIR (i_mode (i_desc (n_inode n)))) eqn:Hdir; cbn [negb]; do 5 eexists; (split; [reflexivity|]).
        -- split; [|left; by exists i, n]. intros _. rewrite Hpath, length_app. split; [|cbn [length]; lia].
           rewrite <- (Nat.add_1_r (length a)), drop_app_add. done.
        -- split; [done|]. right. left. exists (- ENOTDIR). destruct (release_held _ _ _ Hh). done.
      * do 5 eexists. split; [reflexivity|]. split; [done|]. by right; right.
    + rewrite (proj2 (Z.ltb_lt _ _)) by done. do 5 eexists. split; [reflexivity|]. split; [lia|]. right. left. by exists e.
Qed.
End Theorems.

(** ** Witnesses *)

(** A root directory in block 7 with one entry [ab] for the file with inode 1. *)
Definition ex_rows1 : list dentry := [Dentry 1 [97; 98] (replicate 4082 0)].
Definition ex_root : inode := Inode 0 (InodeDesc 16877 0 0 0 0 0 1 4096 1 0 (7 :: replicate 15 0)) 12.
Definition ex_file : inode := Inode 1 (InodeDesc 33188 5 0 0 0 0 0 0 1 0 (replicate 16 0)) 12.
Definition ex_table : list Z :=
  [16877; 0; 0; 0; 0; 1; 4096; 0; 1; 0; 0; 0; 0; 0; 0; 0; 7] ++ replicate 15 0
  ++ [33188 + 65536 * 5; 0; 0; 0; 0; 0; 0; 0; 1; 0] ++ replicate 982 0.
Definition ex_tree_fs : filsys memcache :=
  FilSys (MemCache {[12 := ex_table; 7 := words_of (row ex_rows1)]} ∅ ∅) (Super 1 64 64 0 0 64 64 0)
    [BlkGroup (GroupDesc 64 10 11 12 0 0) 0 0] false 4096 32 10 128 [2].
Definition ex_tree : gmap Z node := {[0 := Node ex_root [7] [ex_rows1]; 1 := Node ex_file [] []]}.

Lemma ex_rows1_ok : row_ok 4096 ex_rows1.
Proof.
  constructor; [by vm_compute|lia|]. apply Forall_singleton, ex_entry; [unfold is_u32; lia|by vm_compute|by vm_compute|by vm_compute|].
  unfold is_byte. rewrite !Forall_cons. repeat split; (lia || apply Forall_nil_2).
Qed.

Lemma ex_root_ok : dir_ok ex_tree_fs ex_root [7] [ex_rows1].
Proof.
  constructor; cbn [i_desc i_depth i_blockdir ex_root]; try done.
  - constructor; [|done]. intros b. unfold page, ex_tree_fs. cbn [cache block_data memcache_ops]. unfold mc_data. cbn [mc_blocks].
    destruct (decide (b = 12)) as [->|H12]; [by vm_compute|]. destruct (decide (b = 7)) as [->|H7]; [by vm_compute|].
    rewrite lookup_insert_ne, lookup_singleton_ne by done. by vm_compute.
  - by apply (bool_decide_unpack _).
  - by apply (bool_decide_unpack _).
  - intros [|i] b Hi; [change (Some 7 = Some b) in Hi|discriminate Hi]. injection Hi as <-.
    exists 0, [], 7. split; [reflexivity|]. split; [reflexivity|]. intros d _. reflexivity.
  - constructor; [|constructor]. split; [|exact ex_rows1_ok].
    change (bytes_of (words_of (row ex_rows1)) = row ex_rows1). apply (row_words 4096), ex_rows1_ok.
Qed.

Lemma ex_tree_lookup ino n : ex_tree !! ino = Some n -> ino = 0 /\ n = Node ex_root [7] [ex_rows1] \/ ino = 1 /\ n = Node ex_file [] [].
Proof. unfold ex_tree. intros [[<- <-]|[_ [<- <-]%lookup_singleton_Some]]%lookup_insert_Some; [by left|by right]. Qed.

Lemma ex_tree_ok : tree_ok ex_tree_fs ex_tree.
Proof.
  constructor.
  - intros ino n [[-> ->]|[-> ->]]%ex_tree_lookup; (constructor; [cbn; lia|reflexivity|reflexivity|split; [done|reflexivity]]).
  - intros ino n [[-> ->]|[-> ->]]%ex_tree_lookup Hd; [exact ex_root_ok|discriminate Hd].
  - intros ino n nm i [[-> ->]|[-> ->]]%ex_tree_lookup Hd Hin; [|discriminate Hd].
    apply list_elem_of_singleton in Hin. injection Hin as _ ->. by eexists.
  - by eexists.
Qed.

Lemma ex_part_ok : parts_ok [(PS1, [97; 98])].
Proof.
  apply Forall_singleton. split; [done|]. split; [unfold is_byte, PS1; simpl; lia|]. split; [by vm_compute|]. unfold is_byte. cbn [snd].
  rewrite !Forall_cons. repeat split; (lia || reflexivity || apply Forall_nil_2).
Qed.

Lemma namei_correct_witness :
  exists rc r fs', namei ex_cred ex_tree_fs [47; 97; 98] = Ret (rc, r, fs') /\ inode_ends ex_tree_fs ex_tree (inr 1) rc r fs'.
Proof. exact (namei_correct ex_cred ex_tree_fs ex_tree true PS1 [97; 98] [] ex_tree_ok ex_part_ok). Defined.

Lemma diri_correct_witness :
  exists rc name len r fs', diri ex_cred ex_tree_fs [97; 98] 2 = Ret (rc, name, len, r, fs')
    /\ (rc = 0 -> name = [97; 98] /\ len = 2) /\ inode_ends ex_tree_fs ex_tree (inr 0) rc r fs'.
Proof. exact (diri_correct ex_cred ex_tree_fs ex_tree false [] PS1 [97; 98] ex_tree_ok ex_part_ok). Defined.

(** A path goes through directories only, and two separators in a row are an error. *)
Example ex_paths :
  rc_of (namei ex_cred ex_tree_fs [47; 97; 98]) = Ret (0, Some ex_file)
  /\ rc_of (namei ex_cred ex_tree_fs [97; 98; 92; 99]) = Ret (- ENOTDIR, None)
  /\ rc_of (namei ex_cred ex_tree_fs [97]) = Ret (- ENOENT, None)
  /\ rc_of (namei ex_cred ex_tree_fs [47; 47; 97; 98]) = Ret (- EINVAL, None).
Proof. split; [by vm_compute|]. split; [by vm_compute|]. split; by vm_compute. Qed.
