(* ===== verification/Queue.v ===== *)
(** * Queue: bounded message queues, src/src/sys/krnl/queue.c

    [enqueue] and [dequeue] wait for a semaphore, move one message and release the other
    semaphore.  A thread leaves the processor only in the wait, so each call is two atomic
    events here: the wait, which takes a unit of the semaphore, and the rest.  Between them
    the thread has been given its unit but has not run yet, and any other threads may run.
    A semaphore is its counter; that waiting for it takes a unit and releasing it gives one
    is what Object.v shows of [wait_for_object] and [release_sem].  Messages are addresses. *)

From S2P Require Import Prelude.
Local Open Scope krlean_scope.

Record queue := Queue { elems : list Z; q_size : Z; q_in : Z; q_out : Z; notfull : Z; notempty : Z }.

(** [mem]: what kmalloc returns for the elements, [None] for NULL. *)
Definition alloc_queue (ok : bool) (mem : option (list Z)) (size : Z) : option queue :=
  if negb ok then None
  else match mem with
       | None => None
       | Some elems => Some (Queue elems size 0 0 size 0)
       end.

(** [wait_for_object] on a semaphore: [None] when it sleeps until the timeout. *)
Definition wait_notfull (q : queue) : option queue :=
  if 0 <? notfull q then Some (Queue (elems q) (q_size q) (q_in q) (q_out q) (u32 (notfull q - 1)) (notempty q)) else None.
Definition wait_notempty (q : queue) : option queue :=
  if 0 <? notempty q then Some (Queue (elems q) (q_size q) (q_in q) (q_out q) (notfull q) (u32 (notempty q - 1))) else None.
Definition release_notfull (q : queue) : queue :=
  Queue (elems q) (q_size q) (q_in q) (q_out q) (u32 (notfull q + 1)) (notempty q).
Definition release_notempty (q : queue) : queue :=
  Queue (elems q) (q_size q) (q_in q) (q_out q) (notfull q) (u32 (notempty q + 1)).

(** [enqueue] behind its wait. *)
Definition enqueue_rest (q : queue) (msg : Z) : outcome queue :=
  _ <~ (if q_in q <? 0 then Fault else deref (elems q !! Z.to_nat (q_in q)));
  let elems := <[Z.to_nat (q_in q) := msg]> (elems q) in
  let i := s32 (q_in q + 1) in
  let i := if i =? q_size q then 0 else i in
  Ret (release_notempty (Queue elems (q_size q) i (q_out q) (notfull q) (notempty q))).

(** [dequeue] behind its wait. *)
Definition dequeue_rest (q : queue) : outcome (Z * queue) :=
  msg <~ (if q_out q <? 0 then Fault else deref (elems q !! Z.to_nat (q_out q)));
  let i := s32 (q_out q + 1) in
  let i := if i =? q_size q then 0 else i in
  Ret (msg, release_notfull (Queue (elems q) (q_size q) (q_in q) i (notfull q) (notempty q))).

(** ** Threads *)

(** [WaitPut m]: a thread calls [enqueue] with [m].  [Put i]: the thread number [i] of
    those that got through the wait goes on.  Likewise for [dequeue]. *)
Inductive event := WaitPut (msg : Z) | Put (i : nat) | WaitGet | Get.

(** [writers], [readers]: the threads between wait and rest.  [stored], [returned]: the
    messages so far, in the order in which they went into the queue and came out. *)
Record system := System { sq : queue; writers : list Z; readers : nat; stored : list Z; returned : list Z }.

Definition do_event (s : system) (ev : event) : outcome system :=
  match ev with
  | WaitPut m =>
      match wait_notfull (sq s) with
      | Some q => Ret (System q (writers s ++ [m]) (readers s) (stored s) (returned s))
      | None => Ret s
      end
  | Put i =>
      match writers s !! i with
      | Some m =>
          q <~ enqueue_rest (sq s) m;
          Ret (System q (delete i (writers s)) (readers s) (stored s ++ [m]) (returned s))
      | None => Ret s
      end
  | WaitGet =>
      match wait_notempty (sq s) with
      | Some q => Ret (System q (writers s) (S (readers s)) (stored s) (returned s))
      | None => Ret s
      end
  | Get =>
      match readers s with
      | S n =>
          '(m, q) <~ dequeue_rest (sq s);
          Ret (System q (writers s) n (stored s) (returned s ++ [m]))
      | O => Ret s
      end
  end.

Fixpoint run (s : system) (evs : list event) : outcome system :=
  match evs with
  | [] => Ret s
  | ev :: evs => s <~ do_event s ev; run s evs
  end.

(** ** The invariant *)

(** The messages in the queue, oldest first, lie from [q_out] on, around the end. *)
Definition slot (q : queue) (i : Z) : Z := (q_out q + i) mod q_size q.

Record queue_ok (s : system) (l : list Z) : Prop := {
  qo_size : 0 < q_size (sq s) < 2 ^ 31;
  qo_elems : Z.of_nat (length (elems (sq s))) = q_size (sq s);
  qo_out : 0 <= q_out (sq s) < q_size (sq s);
  qo_in : q_in (sq s) = slot (sq s) (Z.of_nat (length l));
  qo_slots : forall i m, l !! i = Some m -> elems (sq s) !! Z.to_nat (slot (sq s) (Z.of_nat i)) = Some m;
  qo_notfull : notfull (sq s) + Z.of_nat (length (writers s)) + Z.of_nat (length l) = q_size (sq s) /\ 0 <= notfull (sq s);
  qo_notempty : notempty (sq s) + Z.of_nat (readers s) = Z.of_nat (length l) /\ 0 <= notempty (sq s);
  qo_order : stored s = returned s ++ l;
}.

Lemma slot_next n i : 0 <= i < n -> (if i + 1 =? n then 0 else i + 1) = (i + 1) mod n.
Proof.
  intros Hi. destruct (Z.eqb_spec (i + 1) n) as [->|Hne]; [by rewrite Z_mod_same_full|]. by rewrite Z.mod_small by lia.
Qed.

Lemma slot_range q i : 0 < q_size q -> 0 <= slot q i < q_size q.
Proof. intros. by apply Z.mod_pos_bound. Qed.

(** Different positions less than a turn apart have different slots. *)
Lemma slot_inj q i j : 0 < q_size q -> 0 <= i < q_size q -> 0 <= j < q_size q -> slot q i = slot q j -> i = j.
Proof.
  unfold slot. intros Hs Hi Hj He. apply Z.cong_iff_ex in He as [k Hk]. assert (Hij : i - j = k * q_size q) by lia. assert (k = 0) by nia. lia.
Qed.

Lemma enqueue_ok s l i m : queue_ok s l -> writers s !! i = Some m ->
  exists s', do_event s (Put i) = Ret s' /\ queue_ok s' (l ++ [m]).
Proof.
  intros [Hs He Ho Hi Hsl [Hf Hf0] [Hne Hne0] Hor] Hw. cbn [do_event]. rewrite Hw. unfold enqueue_rest.
  assert (Hlw : Z.of_nat (length (delete i (writers s))) = Z.of_nat (length (writers s)) - 1).
  { pose proof (lookup_lt_Some _ _ _ Hw). rewrite length_delete by (by eexists). lia. }
  assert (Hlen : Z.of_nat (length l) < q_size (sq s)) by (pose proof (lookup_lt_Some _ _ _ Hw); lia).
  pose proof (slot_range (sq s) (Z.of_nat (length l)) ltac:(lia)) as Hr. rewrite <- Hi in Hr.
  rewrite (proj2 (Z.ltb_ge _ _)) by lia. destruct (lookup_lt_is_Some_2 (elems (sq s)) (Z.to_nat (q_in (sq s)))) as [x Hx]; [lia|].
  rewrite Hx. cbn [deref obind]. rewrite s32_small by (unfold is_s32; lia). rewrite slot_next by lia.
  eexists. split; [reflexivity|]. constructor; cbn [sq writers readers stored returned q_size elems q_in q_out notfull notempty release_notempty]; try done.
  - by rewrite length_insert.
  - rewrite Hi. unfold slot. cbn [q_out q_size]. rewrite length_app, Zplus_mod_idemp_l. f_equal. simpl. lia.
  - intros j y Hj. change (slot (release_notempty _) (Z.of_nat j)) with (slot (sq s) (Z.of_nat j)).
    apply lookup_app_Some in Hj as [Hj|[Hj1 Hj]].
    + rewrite list_lookup_insert_ne; [by apply Hsl|]. rewrite Hi. intros Heq. apply lookup_lt_Some in Hj.
      pose proof (slot_range (sq s) (Z.of_nat (length l)) ltac:(lia)). pose proof (slot_range (sq s) (Z.of_nat j) ltac:(lia)).
      apply Z2Nat.inj, slot_inj in Heq; lia.
    + apply list_lookup_singleton_Some in Hj as [Hj2 ->]. replace j with (length l) by lia. rewrite <- Hi. apply list_lookup_insert_eq. lia.
  - rewrite Hlw, length_app. simpl. lia.
  - rewrite u32_small by (unfold is_u32; lia). rewrite length_app. simpl. lia.
  - rewrite Hor. by rewrite <- (assoc_L (++)).
Qed.

Lemma dequeue_ok s l n : queue_ok s l -> readers s = S n ->
  exists m l' s', l = m :: l' /\ do_event s Get = Ret s' /\ queue_ok s' l' /\ returned s' = returned s ++ [m].
Proof.
  intros [Hs He Ho Hi Hsl [Hf Hf0] [Hne Hne0] Hor] Hn. destruct l as [|m l]; [simpl in *; lia|].
  cbn [do_event]. rewrite Hn. unfold dequeue_rest. rewrite (proj2 (Z.ltb_ge _ _)) by lia.
  assert (H0 := Hsl 0%nat m eq_refl). unfold slot in H0. change (Z.of_nat 0) with 0 in H0. rewrite Z.add_0_r, Z.mod_small in H0 by lia.
  rewrite H0. cbn [deref obind]. rewrite s32_small by (unfold is_s32; lia). rewrite slot_next by lia.
  assert (Hslot : forall i, ((q_out (sq s) + 1) mod q_size (sq s) + i) mod q_size (sq s) = slot (sq s) (1 + i)).
  { intros i. unfold slot. rewrite Zplus_mod_idemp_l. f_equal. lia. }
  exists m, l. eexists. split; [done|]. split; [reflexivity|]. split; [|done].
  constructor; cbn [sq writers readers stored returned q_size elems q_in q_out notfull notempty release_notfull]; try done.
  - apply Z.mod_pos_bound. lia.
  - rewrite Hi. unfold slot at 2. cbn [q_out q_size]. rewrite Hslot. f_equal. simpl. lia.
  - intros i y Hy. unfold slot. cbn [q_out q_size]. rewrite Hslot. specialize (Hsl (S i) y Hy). by replace (1 + Z.of_nat i) with (Z.of_nat (S i)) by lia.
  - rewrite u32_small by (unfold is_u32; simpl in *; lia). simpl in *. lia.
  - simpl in *. lia.
  - rewrite Hor. by rewrite <- (assoc_L (++)).
Qed.

Lemma event_ok s l ev : queue_ok s l -> exists s' l', do_event s ev = Ret s' /\ queue_ok s' l'.
Proof.
  intros Hok. destruct ev as [m|i| |].
  - cbn [do_event]. unfold wait_notfull. destruct (Z.ltb_spec 0 (notfull (sq s))) as [H|H]; [|by exists s, l].
    eexists _, l. split; [reflexivity|]. destruct Hok as [Hs He Ho Hi Hsl [Hf Hf0] Hne Hor].
    constructor; cbn [sq writers readers stored returned q_size elems q_in q_out notfull notempty]; try done.
    rewrite u32_small by (unfold is_u32; lia). rewrite length_app. simpl. lia.
  - destruct (writers s !! i) as [m|] eqn:Hw; [|exists s, l; cbn [do_event]; by rewrite Hw].
    destruct (enqueue_ok s l i m Hok Hw) as (s' & Hr & Hok'). by exists s', (l ++ [m]).
  - cbn [do_event]. unfold wait_notempty. destruct (Z.ltb_spec 0 (notempty (sq s))) as [H|H]; [|by exists s, l].
    eexists _, l. split; [reflexivity|]. destruct Hok as [Hs He Ho Hi Hsl [Hf Hf0] [Hne Hne0] Hor].
    constructor; cbn [sq writers readers stored returned q_size elems q_in q_out notfull notempty]; try done.
    rewrite u32_small by (unfold is_u32; lia). lia.
  - destruct (readers s) as [|n] eqn:Hn; [exists s, l; cbn [do_event]; by rewrite Hn|].
    destruct (dequeue_ok s l n Hok Hn) as (m & l' & s' & _ & Hr & Hok' & _). by exists s', l'.
Qed.

Lemma run_ok evs : forall s l, queue_ok s l -> exists s' l', run s evs = Ret s' /\ queue_ok s' l'.
Proof.
  induction evs as [|ev evs IH]; intros s l Hok; cbn [run]; [by exists s, l|].
  destruct (event_ok s l ev Hok) as (s1 & l1 & -> & Hok1). cbn [obind]. by eapply IH.
Qed.

Lemma event_size s ev s' : do_event s ev = Ret s' -> q_size (sq s') = q_size (sq s).
Proof.
  destruct ev as [m|i| |]; cbn [do_event].
  - unfold wait_notfull. destruct (_ <? _); by intros [= <-].
  - destruct (writers s !! i) as [m|]; [|by intros [= <-]]. unfold enqueue_rest.
    destruct (if q_in (sq s) <? 0 then Fault else deref (elems (sq s) !! Z.to_nat (q_in (sq s)))); try done. by intros [= <-].
  - unfold wait_notempty. destruct (_ <? _); by intros [= <-].
  - destruct (readers s) as [|n]; [by intros [= <-]|]. unfold dequeue_rest.
    destruct (if q_out (sq s) <? 0 then Fault else deref (elems (sq s) !! Z.to_nat (q_out (sq s)))); try done. by intros [= <-].
Qed.

Lemma run_size evs : forall s s', run s evs = Ret s' -> q_size (sq s') = q_size (sq s).
Proof.
  induction evs as [|ev evs IH]; intros s s'; cbn [run]; [by intros [= <-]|].
  destruct (do_event s ev) as [s1| | |] eqn:He; try done. cbn [obind]. intros Hr. by rewrite (IH _ _ Hr), (event_size _ _ _ He).
Qed.

(** ** The property *)

(** C40: Whatever threads call [enqueue] and [dequeue] and however they take turns, the queue
    is a bounded FIFO: the messages that were stored are the ones that were returned followed
    by those that wait, in the order in which they were stored; there are never more than
    [size], no slot in use is overwritten and no access leaves the array; and a caller sleeps
    only when every slot is taken or promised to a writer, or every message is promised to a
    reader. *)
Theorem queue_fifo mem size evs : 0 < size < 2 ^ 31 -> Z.of_nat (length mem) = size ->
  exists q s l, alloc_queue true (Some mem) size = Some q /\ run (System q [] 0 [] []) evs = Ret s
    /\ stored s = returned s ++ l /\ Z.of_nat (length l + length (writers s)) <= size /\ (readers s <= length l)%nat
    /\ (wait_notfull (sq s) = None -> Z.of_nat (length l + length (writers s)) = size)
    /\ (wait_notempty (sq s) = None -> readers s = length l)
    /\ (forall n m l', readers s = S n -> l = m :: l' -> exists q', dequeue_rest (sq s) = Ret (m, q')).
Proof.
  intros Hs Hm. eexists. destruct (run_ok evs (System (Queue mem size 0 0 size 0) [] 0 [] []) []) as (s & l & Hr & Hok).
  { constructor; cbn [sq writers readers stored returned q_size elems q_in q_out notfull notempty]; try done; simpl; lia. }
  assert (Hsize : q_size (sq s) = size) by (by rewrite (run_size _ _ _ Hr)).
  exists s, l. split; [reflexivity|]. split; [exact Hr|]. destruct (qo_notfull _ _ Hok), (qo_notempty _ _ Hok).
  split; [apply Hok|]. split; [lia|]. split; [lia|]. split; [|split].
  - unfold wait_notfull. destruct (Z.ltb_spec 0 (notfull (sq s))); [done|]. lia.
  - unfold wait_notempty. destruct (Z.ltb_spec 0 (notempty (sq s))); [done|]. lia.
  - intros n m l' Hn ->. destruct (dequeue_ok s _ n Hok Hn) as (m' & l1 & s' & [= <- <-] & Hd & _ & Hret).
    cbn [do_event] in Hd. rewrite Hn in Hd. destruct (dequeue_rest (sq s)) as [[m' q']| | |]; try done. injection Hd as <-. cbn [returned] in Hret.
    apply app_inv_head in Hret. injection Hret as ->. by exists q'.
Qed.

Lemma queue_fifo_witness : exists s, run (System (Queue [0; 0] 2 0 0 2 0) [] 0 [] [])
    [WaitPut 7; WaitPut 8; WaitPut 9; Put 1; WaitGet; Get; Put 0; WaitGet; WaitPut 5; Get] = Ret s /\ returned s = [8; 7] /\ stored s = [8; 7].
Proof.
  destruct (queue_fifo [0; 0] 2 [WaitPut 7; WaitPut 8; WaitPut 9; Put 1; WaitGet; Get; Put 0; WaitGet; WaitPut 5; Get] ltac:(lia) eq_refl)
    as (q & s & l & [= <-] & Hr & _). exists s. split; [exact Hr|]. vm_compute in Hr. injection Hr as <-. by split.
Defined.
